(* ===== verification/_CoqProject ===== *)
-Q . S2P
Prelude.v
City.v
Mica.v
MicaProof.v
MicaSpec.v
MicaThms.v
Alloc.v
AllocProof.v
AllocThms.v
Verbs.v
HrdUtil.v
HrdConn.v
Signal.v
Herd.v
HerdProof.v
HerdEnv.v
HerdSys.v
HerdRing.v
HerdInv.v
HerdStore.v
HerdThms.v
HerdMain.v
HerdSetup.v
HerdStart.v
HerdConnect.v
SsSeq.v
SsProof.v
SsThms.v
SsMain.v
WsSeq.v
WsProof.v
WsThms.v
WsMain.v
Mlx5Base.v
Mlx5Wqe.v
Mlx5WqeProof.v
Mlx5Encode.v
Mlx5Send.v
Mlx5SqProof.v
Mlx5SqThms.v
Mlx5Recv.v
Mlx5RecvProof.v
Mlx5Size.v
Mlx5SizeProof.v
Mlx5Table.v
Mlx5Srq.v
Mlx5SrqProof.v
Mlx5Cq.v
Mlx5Poll.v
Mlx5CqProof.v
Mlx5PollProof.v
Mlx5CqClean.v
Mlx5System.v
Mlx5Buf.v
Mlx5Dbrec.v
Mlx5Mr.v
Mlx5MrProof.v
Mlx5MrThms.v
Mlx5MrPd.v
Mlx5Create.v
Mlx5CreateProof.v
Mlx5CqCreate.v
Mlx5CqCreateProof.v
Mlx5Thms.v
Mlx5CreateThms.v
