(* ===== verification/Prelude.v ===== *)
(** * RDMA-General: verification library

    RDMA-General is a collection of RDMA programs in C on top of a small
    verbs library.  This development models the parts that carry its logic
    and proves what makes them correct.

    ** The program and its parts

    - libhrd (src/libhrd) wraps libibverbs, shared memory and memcached: it
      finds ports, creates and connects queue pairs in control blocks,
      publishes and looks up their addresses, and polls for completions.
    - MICA (src/mica) is a key-value store: a hash index of 8-slot buckets
      over a circular log; keys are CityHash128 values (city.c).  Its
      alternative item allocator is src/mica/alloc.
    - HERD (src/herd) is a key-value service: clients write requests with
      RDMA into a request region, workers poll the region in passes, run
      batches on their MICA instance and answer with datagrams.  A master
      process owns the region and the connected queue pairs.
    - The sequencers (src/ws-sequencer, src/ss-sequencer) hand out the values
      of a shared counter, with the data path of HERD or with SENDs.
    - libmlx5 (src/drivers/libmlx5-1.0.2mlnx1/src) is the user-space driver
      of the network adapter, changed by the authors to count PCIe traffic:
      it writes work requests into rings that the device reads, rings
      doorbells, and reads completions from rings that the device writes.

    ** Files

    - [Prelude] (this file): results and faults of C code ([res], [fault]),
      calls with effects on a world ([eff], [runs], [within]), machine integers, bytes
      and little-endian words, byte memory, arrays with bounds checks, lists
      linked through arrays; tactics and hint databases.
    - [City]: city.c and city.h (64 and 128 bit hashes).
    - [Mica], [MicaProof], [MicaSpec], [MicaThms]: mica.c and mica.h; the
      invariant of index and log; the abstract map; reachable stores, with
      the map that they stand for ([mica_reach]: insertions, single requests
      and batches on the first lap without restriction, and on later laps the
      batches that do not overwrite an entry that they have looked up) and
      without it ([mica_states]: all batches); theorems.
    - [Alloc], [AllocProof], [AllocThms]: alloc.c and alloc.h on a byte
      memory; layout of chunks and free lists; theorems.
    - [Verbs]: libibverbs, shared memory and memcached as classes over a
      world, their laws, and a simulated machine that satisfies them.  A
      machine gives out [qp_limit] queue pairs (the simulated one 128, as
      libmlx5 does); the other creation calls are assumed to succeed.
    - [HrdUtil], [HrdConn]: hrd_util.c, hrd.h and hrd_conn.c.
    - [Signal]: the selective signalling that all senders share, and the send
      queue that it has to respect ([sq_run]).
    - [Herd]: the loops of worker.c and client.c.  [HerdProof]: invariant of
      a worker ([winv]).  [HerdEnv]: a worker in an arbitrary environment.
      [HerdSys]: clients, network and workers as a step relation.
      [HerdRing], [HerdInv], [HerdStore]: its invariants.  [HerdThms]:
      theorems.
    - [HerdMain], [HerdSetup], [HerdStart], [HerdConnect]: main.c, master.c
      and the set-up of workers and clients; frame rules and proofs; theorems
      about the set-up of workers; the master and the clients connect.
    - [SsSeq], [SsProof], [SsThms], [SsMain]: the SEND/SEND sequencer: its
      loops, invariant and theorems; the set-up of servers and clients.
    - [WsSeq], [WsProof], [WsThms], [WsMain]: the WRITE/SEND sequencer: its
      loops, invariant and theorems; main.c, master.c and the set-up.
    - [Mlx5Base]: byte order, roundings and logarithms of libmlx5.
    - [Mlx5Wqe], [Mlx5WqeProof], [Mlx5Encode]: the entries of a send queue
      (qp.c): the functions that write their segments, and what the device
      decodes from them.
    - [Mlx5Send], [Mlx5SqProof], [Mlx5SqThms]: queue pairs, ibv_post_send,
      doorbells (qp.c, doorbell.h, mlx5.h); invariant of a send queue
      ([sq_state]); what the device fetches.
    - [Mlx5Recv], [Mlx5RecvProof]: ibv_post_recv and inline payloads (qp.c);
      invariant of a receive queue ([rq_ok], [rq_inv]).
    - [Mlx5Size], [Mlx5SizeProof]: sizes of queues (verbs.c).
    - [Mlx5Table]: tables from numbers to queues (qp.c, mlx5.c, srq.c) and
      their abstraction to finite maps ([table_ok]).
    - [Mlx5Srq], [Mlx5SrqProof]: shared receive queues (srq.c), whose entries
      form a linked list ([srq_inv]).
    - [Mlx5Cq], [Mlx5CqProof], [Mlx5CqClean]: completion queues (cq.c): the
      ring with its ownership bits ([cq_inv]), decompression, cleaning.
    - [Mlx5Poll], [Mlx5PollProof]: ibv_poll_cq (cq.c).
    - [Mlx5System]: a queue pair, its completion queue and the device as one
      system.  The device fetches and executes the announced requests and
      writes completion entries in steps of its own ([hw_fetch], [hw_exec]),
      whether or not the program polls, and does not look whether the place in
      the completion ring is free.  [asq_step] is the abstract queue with such
      a device: posts need room in the send queue and in the ring.
      [Mlx5Thms]: the theorems about the data path of the driver.
    - [Mlx5Buf]: buffers of queues from huge pages, contiguous pages or
      malloc (buf.c, bitmap.h), with their lemmas.  [Mlx5Dbrec]: doorbell
      records (dbrec.c) and their allocator's invariant ([db_inv]).
    - [Mlx5Mr]: protection domains and memory regions (verbs.c,
      implicit_lkey.c); the lookup in the table of on-demand regions is a
      step machine ([real_mr_step]), since threads run it side by side.
      [Mlx5MrProof]: what a step does to the table ([step_spec]) and the
      invariant of any number of threads and their mutexes ([lock_inv]).
      [Mlx5MrThms], [Mlx5MrPd]: theorems.
    - [Mlx5Create], [Mlx5CreateProof]: creating, changing and destroying queue
      pairs (verbs.c), with what is held as a list and every error label as
      a definition; [Mlx5CqCreate], [Mlx5CqCreateProof]: the same for
      completion queues, with resizing, and shared receive queues.
      [Mlx5CreateThms]: their theorems.

    ** How C is modelled

    Functions return [res]: a value, or the way in which the program stops
    (assertion, exit, access out of bounds, NULL, undefined shift, endless
    wait).  Structures are records with the fields of the source; the local
    variables of a loop that never ends are a record, and an iteration is a
    function on it.  Integers are [Z] with the wrap-around written out
    ([u8] ... [u64], [s32], [s64]); signed overflow, undefined in C, wraps.
    Pointers into arrays are indices, NULL is [None] or 0.  Uninitialised
    memory is an argument ([junk] and the like).  Functions that call the
    device are [eff W]: state-passing over any world with the operations of
    [Verbs]; in the data path, where the code uses nothing that the calls
    return, a step returns the list of its calls instead, and what the
    device delivers is an argument of the step.

    Loops over data are structural.  The waits for memcached entries
    ([wait_qp], [wait_loop]) and for completions ([poll_loop]) have fuel,
    and running out of it is the fault [Stuck], so a theorem that such a call
    returns excludes it.  In libmlx5 the fuel of a loop is the number of
    iterations that its bound allows (31 or 65 shifts of an integer, the
    blocks of a copy, the entries of a ring).  A lookup of an implicit key
    takes at most 22 steps ([real_mr_run] has 24), and a prefetch has one
    piece for each 128 MB that its range touches.  [poll_pass] has fuel 70, the number of clients,
    which bounds the loop of the source; [chain] and [walk] have the size of
    the array as fuel, as much as a list without cycle can need.

    ** What the theorems show

    - City: hashing is total and stays inside its buffer; the 128-bit
      names of two integers collide only if their 64-bit hashes do.
    - MICA: batches on the first lap of the log refine a map; in the states of
      [mica_reach] GETs return the last value written or a miss, and a hit if
      nothing was evicted and no two keys share bucket and tag; population
      stores every key; shape of the buckets in all states; the second lap
      overruns the log.
    - Allocator: items are disjoint and no call changes an item of another
      owner, as long as owners leave the last 8 bytes of their data alone
      (which lie on a tag, a finding); every call of allocate and deallocate
      ends in one of the documented ways, without space only if no free chunk
      is large enough; freeing everything gives the initial chunk back; the
      last size class can trip an assertion.
    - libhrd: queue pairs reach the states that their use needs, control
      blocks are built and destroyed completely, published addresses are read
      back unchanged, completions are collected, the ready handshake ends.
    - HERD: in every interleaving each worker serves the requests of each
      client in order and exactly once, a write never destroys a request, the
      window is respected, stores refine maps and responses carry their
      contents, the send queues never overflow or block, all clients are
      polled; where queue pairs can be created for all ports, the master
      connects every client (with the 128 of libmlx5, for one port; the
      master for two ports, as the script starts it, stops at an assertion);
      workers and clients complete their set-up and it establishes the
      assumptions of the data path; identifiers of clients are distinct.
    - Sequencers: in every interleaving the numbers handed out are unique and
      without gap and reach the client that asked; the compressed form of a
      number is decoded to the same number; send queues are respected; the
      set-ups succeed and client and server find each other; and the two
      situations in which the client of the SEND/SEND sequencer
      computes a wrong number.
    - libmlx5: ibv_post_send writes entries that the device decodes to the
      requests of the program (UC, UD, and the RC fast path), never outside
      the ring, accepts as many as the queue was created for and announces
      exactly these; together with polling, and next to a device that works at
      its own pace, it implements the send queue [Signal.sq_run] on which the
      theorems about HERD and the sequencers rest ([mlx5_qp_refines_sq]), if
      the completion ring has a place for every signaled request that is not
      polled yet; without such room completions are lost;
      receive queues and shared receive queues are FIFO; the computed sizes
      are large enough for every request within the limits; the tables are
      finite maps; the completion ring is a bounded queue, and cleaning it
      removes the entries of one queue pair (but for the newest entry of a
      full ring); three ways to take a logarithm
      agree; polling a receive without queue pair dereferences NULL.
    - libmlx5, life of the queues: a completion queue and a queue pair that
      were created with success and moved to RTS are such a send queue, of the
      capacity asked for ([mlx5_created_qp_refines_sq]); failed creations of
      the first 128 queue pairs release all they hold, destruction gives everything back; resizing
      keeps the completions; the locks of completion queues are taken in an
      order without deadlock; doorbell records in use are apart and pages are
      returned; buffers fall back as documented and are freed the way they
      were obtained; the bitmap of huge pages leaves its table; the 129th
      creation of a queue pair in a process blocks all later ones; a failed
      allocation of the identifiers of a send queue goes unnoticed.
    - libmlx5, memory regions: in every interleaving of threads that look up
      the same implicit key no range is registered twice, and every lookup
      gets on while the kernel and malloc do; the key that the driver writes
      into a data segment covers the bytes of the segment; a prefetch asks for
      exactly the bytes of its range; freeing a domain gives back every region
      and every table, except one structure (a finding); certain ranges of
      128 MB and more abort the program, and two threads that deregister the
      same shared region free it twice.

    The theorems about creation hold for queue pairs of type RC, UC or UD
    without creation flags, resource domain or SRQ, with CQE version 0
    ([create_pre]); those about on-demand regions for addresses below 2^48.

    Where the environment matters, it is a hypothesis: the laws of [Verbs]
    and [HerdSetup.HerdLaws] (documented behaviour of the libraries; queue
    pairs can be created up to [qp_limit], other resources are available),
    delivery in order of the writes of one connection ([HerdSys]), an address
    handle for every LID.  Each such theorem has a witness on the simulated
    machine or on a concrete run.

    ** Not modelled

    The CRC variants of CityHash (SSE4.2 instruction); printing, timers and
    throughput statistics other than the counters that steer the loops; the
    Connect-IB branches of libhrd; the latency measurement of the SEND/SEND
    client; ws-echo, ww-echo, rw-allsig; the C++ programs and
    libhrd_cpp; scripts and test programs.  Of libmlx5: the builder for RC
    and DC operations other than SEND and WRITE (an argument of the model), the
    burst interfaces, indirect memory regions, address handles, XRC and DC objects, which are mostly calls of
    the kernel, erasure coding and the start-up of a device.  Locks of the
    data path are left out, since the modelled functions run inside them;
    the mutexes of implicit_lkey.c are modelled.
    The contents of what malloc returns, and which call of the operating
    system fails, are arguments ([create_env], [cq_env], [srq_env],
    [huge_env], [contig_env], [anon_env], [mr_env]). *)

From stdpp Require Import base gmap list strings numbers.
From Stdlib Require Import ZArith Lia Zbitwise.

#[global] Open Scope Z_scope.

(** ** How a C program ends

    A modelled C function either returns a value or stops the program.
    The constructors of [fault] are the ways in which the modelled sources
    stop: a failing [assert], a call of [exit], an access outside the
    object it is made to, a dereference of NULL, a shift or a signed
    overflow that the C standard leaves undefined, and a wait that can
    never end. *)
Inductive fault : Type :=
| AssertFail
| ExitCall (code : Z)
| OutOfBounds
| NullDeref
| ShiftUB
| IntOverflow
| Stuck.

#[global] Instance fault_eq_dec : EqDecision fault.
Proof. solve_decision. Defined.

Inductive res (A : Type) : Type :=
| Ok (a : A)
| Fault (f : fault).
Arguments Ok {A} a.
Arguments Fault {A} f.

#[global] Instance res_eq_dec {A} `{EqDecision A} : EqDecision (res A).
Proof. solve_decision. Defined.

#[global] Instance Ok_inj {A} : Inj (=) (=) (@Ok A).
Proof. by intros x y [= ->]. Qed.

Definition res_bind {A B} (m : res A) (k : A → res B) : res B :=
  match m with
  | Ok a => k a
  | Fault f => Fault f
  end.

Declare Scope cres_scope.
Delimit Scope cres_scope with cres.
Notation "'let!' x ':=' m 'in' k" := (res_bind m (λ x, k))
  (at level 10, x pattern, m at level 100, k at level 200) : cres_scope.
Notation "m ';!' k" := (res_bind m (λ _, k))
  (at level 99, k at level 200, right associativity) : cres_scope.
#[global] Open Scope cres_scope.

(** [assert(b)]. *)
Definition cassert (b : bool) : res unit :=
  if b then Ok tt else Fault AssertFail.

(** A bounds check in front of a memory access. *)
Definition in_bounds (b : bool) : res unit :=
  if b then Ok tt else Fault OutOfBounds.

Lemma res_bind_Ok {A B} (m : res A) (k : A → res B) b :
  res_bind m k = Ok b ↔ ∃ a, m = Ok a ∧ k a = Ok b.
Proof. destruct m; simpl; naive_solver. Qed.

Lemma res_bind_assoc {A B C} (m : res A) (k : A → res B) (h : B → res C) :
  res_bind (res_bind m k) h = res_bind m (λ a, res_bind (k a) h).
Proof. by destruct m. Qed.

Lemma cassert_Ok b u : cassert b = Ok u ↔ b = true.
Proof. destruct b, u; simpl; naive_solver. Qed.

Lemma in_bounds_Ok b u : in_bounds b = Ok u ↔ b = true.
Proof. destruct b, u; simpl; naive_solver. Qed.

(** [inv_res] takes apart every hypothesis that says that a computation
    returned. *)
Ltac inv_res_step :=
  match goal with
  | H : res_bind ?m ?k = Ok _ |- _ =>
      let a := fresh "a" in let Ha := fresh H in
      apply res_bind_Ok in H as (a & Ha & H)
  | H : cassert _ = Ok _ |- _ => apply cassert_Ok in H
  | H : in_bounds _ = Ok _ |- _ => apply in_bounds_Ok in H
  | H : Ok _ = Ok _ |- _ => injection H as H
  | H : Fault _ = Ok _ |- _ => discriminate H
  | H : Ok _ = Fault _ |- _ => discriminate H
  end.
Ltac inv_res := repeat (inv_res_step; simplify_eq).

(** [returns P m]: the computation [m] stops no program and its value
    satisfies [P]; a total-correctness judgement. *)
Definition returns {A} (P : A → Prop) (m : res A) : Prop :=
  match m with Ok a => P a | Fault _ => False end.

Lemma returns_bind {A B} (Q : A → Prop) (P : B → Prop) (m : res A) (k : A → res B) :
  returns Q m → (∀ a, Q a → returns P (k a)) → returns P (res_bind m k).
Proof. destruct m; simpl; auto; contradiction. Qed.

Lemma returns_mono {A} (P Q : A → Prop) (m : res A) :
  returns P m → (∀ a, P a → Q a) → returns Q m.
Proof. destruct m; simpl; auto. Qed.

Lemma returns_Ok {A} (P : A → Prop) (m : res A) :
  returns P m ↔ ∃ a, m = Ok a ∧ P a.
Proof. destruct m; simpl; naive_solver. Qed.

Lemma returns_bounds_then {A} b (P : A → Prop) (k : res A) :
  b = true → returns P k → returns P (in_bounds b ;! k).
Proof. by intros ->. Qed.

Lemma returns_cassert_then {A} b (P : A → Prop) (k : res A) :
  b = true → returns P k → returns P (cassert b ;! k).
Proof. by intros ->. Qed.

(** ** Machine integers *)
Definition u8 (z : Z) : Z := z mod 2 ^ 8.
Definition u16 (z : Z) : Z := z mod 2 ^ 16.
Definition u32 (z : Z) : Z := z mod 2 ^ 32.
Definition u64 (z : Z) : Z := z mod 2 ^ 64.
(** Conversion to a 32-bit [int] (two's complement). *)
Definition s32 (z : Z) : Z := (z + 2 ^ 31) mod 2 ^ 32 - 2 ^ 31.
(** Conversion to a 64-bit [long long]. *)
Definition s64 (z : Z) : Z := (z + 2 ^ 63) mod 2 ^ 64 - 2 ^ 63.

Declare Scope cword_scope.
Delimit Scope cword_scope with cw.
Notation "x +64 y" := (u64 (x + y)) (at level 50, left associativity) : cword_scope.
Notation "x -64 y" := (u64 (x - y)) (at level 50, left associativity) : cword_scope.
Notation "x *64 y" := (u64 (x * y)) (at level 40, left associativity) : cword_scope.
Notation "x <<64 n" := (u64 (Z.shiftl x n)) (at level 45, left associativity) : cword_scope.
Notation "x .>> n" := (Z.shiftr x n) (at level 45, left associativity) : cword_scope.
Notation "x .^ y" := (Z.lxor x y) (at level 54, left associativity) : cword_scope.
Notation "x .| y" := (Z.lor x y) (at level 56, left associativity) : cword_scope.
Notation "x .& y" := (Z.land x y) (at level 52, left associativity) : cword_scope.
#[global] Open Scope cword_scope.

Create HintDb cword.

(** [w64 x]: [x] is a 64-bit word; [byteb x]: [x] is a byte. *)
Definition w64 (x : Z) : Prop := 0 ≤ x < 2 ^ 64.
Definition byteb (x : Z) : Prop := 0 ≤ x < 256.

Lemma u8_range z : 0 ≤ u8 z < 2 ^ 8.
Proof. apply Z.mod_pos_bound; lia. Qed.
Lemma u16_range z : 0 ≤ u16 z < 2 ^ 16.
Proof. apply Z.mod_pos_bound; lia. Qed.
Lemma u32_range z : 0 ≤ u32 z < 2 ^ 32.
Proof. apply Z.mod_pos_bound; lia. Qed.
Lemma u64_range z : 0 ≤ u64 z < 2 ^ 64.
Proof. apply Z.mod_pos_bound; lia. Qed.
Lemma u32_small z : 0 ≤ z < 2 ^ 32 → u32 z = z.
Proof. apply Z.mod_small. Qed.
Lemma u64_small z : 0 ≤ z < 2 ^ 64 → u64 z = z.
Proof. apply Z.mod_small. Qed.
Lemma u64_u64 z : u64 (u64 z) = u64 z.
Proof. unfold u64. by rewrite Z.mod_mod by lia. Qed.
#[export] Hint Resolve u8_range u16_range u32_range u64_range : cword.

Lemma w64_u64 z : w64 (u64 z).
Proof. apply u64_range. Qed.
Lemma w64_bits x : w64 x ↔ 0 ≤ x ∧ Z.shiftr x 64 = 0.
Proof.
  unfold w64. rewrite Z.shiftr_div_pow2 by lia. split.
  - intros ?. split; [lia|]. by apply Z.div_small.
  - intros [? H]. apply Z.div_small_iff in H; lia.
Qed.
Lemma w64_lxor x y : w64 x → w64 y → w64 (x .^ y).
Proof.
  rewrite !w64_bits. intros [? Hx] [? Hy]. split.
  - apply Z.lxor_nonneg. lia.
  - by rewrite Z.shiftr_lxor, Hx, Hy.
Qed.
Lemma w64_lor x y : w64 x → w64 y → w64 (x .| y).
Proof.
  rewrite !w64_bits. intros [? Hx] [? Hy]. split.
  - apply Z.lor_nonneg. lia.
  - by rewrite Z.shiftr_lor, Hx, Hy.
Qed.
Lemma w64_shiftr x n : w64 x → 0 ≤ n → w64 (x .>> n).
Proof.
  unfold w64. intros Hx Hn. rewrite Z.shiftr_div_pow2 by done.
  split; [apply Z.div_pos; lia|].
  apply Z.le_lt_trans with x; [|lia].
  apply Z.div_le_upper_bound; [lia|].
  assert (0 < 2 ^ n) by lia. nia.
Qed.
#[export] Hint Resolve w64_u64 w64_lxor w64_lor : cword.

Lemma u64_land_mask x k :
  0 ≤ k → Z.land x (2 ^ k - 1) = x mod 2 ^ k.
Proof.
  intros Hk. replace (2 ^ k - 1) with (Z.ones k).
  - by apply Z.land_ones.
  - rewrite Z.ones_equiv. lia.
Qed.

(** [x & ~y] on 64-bit words. *)
Lemma u64_land_lnot x y :
  0 ≤ x < 2 ^ 64 → Z.land x (u64 (Z.lnot y)) = Z.ldiff x y.
Proof.
  intros Hx. unfold u64. rewrite <-Z.land_ones by lia.
  rewrite (Z.land_comm (Z.lnot y)), Z.land_assoc, Z.land_ones by lia.
  rewrite Z.mod_small by lia. symmetry. apply Z.ldiff_land.
Qed.

(** [x & ~(2^k - 1)] rounds [x] down to a multiple of [2^k]. *)
Lemma u64_land_lnot_mask x k :
  0 ≤ x < 2 ^ 64 → 0 ≤ k →
  Z.land x (u64 (Z.lnot (2 ^ k - 1))) = x - x mod 2 ^ k.
Proof.
  intros Hx Hk. rewrite u64_land_lnot by done.
  replace (2 ^ k - 1) with (Z.ones k) by (rewrite Z.ones_equiv; lia).
  rewrite Z.ldiff_ones_r by done.
  rewrite Z.shiftl_mul_pow2, Z.shiftr_div_pow2 by done.
  assert (2 ^ k ≠ 0) by (apply Z.pow_nonzero; [done|exact Hk]).
  rewrite Z.mod_eq by done. ring.
Qed.

(** [(x + 7) & ~7] rounds up to a multiple of 8. *)
Lemma u64_roundup8 x :
  0 ≤ x < 2 ^ 64 - 7 →
  let r := Z.land (x +64 7) (u64 (Z.lnot 7)) in
  x ≤ r < x + 8 ∧ r mod 8 = 0.
Proof.
  intros Hx. cbn zeta. change (Z.lnot 7) with (Z.lnot (2 ^ 3 - 1)).
  rewrite u64_small, u64_land_lnot_mask by lia.
  change (2 ^ 3) with 8. split.
  - pose proof (Z.mod_pos_bound (x + 7) 8 ltac:(done)). lia.
  - rewrite Zminus_mod_idemp_r, Z.sub_diag. done.
Qed.

(** ** Bytes and little-endian words *)
Fixpoint le_bytes (n : nat) (z : Z) : list Z :=
  match n with
  | O => []
  | S n => u8 z :: le_bytes n (Z.shiftr z 8)
  end.

Fixpoint le_word (bs : list Z) : Z :=
  match bs with
  | [] => 0
  | b :: bs => b + 256 * le_word bs
  end.

Lemma length_le_bytes n z : length (le_bytes n z) = n.
Proof. revert z; induction n; intros; simpl; auto. Qed.

Lemma le_bytes_range n z : Forall (λ b, 0 ≤ b < 256) (le_bytes n z).
Proof.
  revert z; induction n as [|n IH]; intros z; constructor; auto.
  apply (u8_range z).
Qed.

Lemma le_word_bytes n z : le_word (le_bytes n z) = z mod 2 ^ (8 * Z.of_nat n).
Proof.
  revert z; induction n as [|n IH]; intros z; simpl le_bytes; simpl le_word.
  - change (2 ^ (8 * Z.of_nat 0)) with 1. by rewrite Z.mod_1_r.
  - rewrite IH, Z.shiftr_div_pow2 by lia. unfold u8.
    replace (8 * Z.of_nat (S n)) with (8 + 8 * Z.of_nat n) by lia.
    rewrite Z.pow_add_r by lia. rewrite Z.rem_mul_r by lia. done.
Qed.

Lemma le_word_range bs :
  Forall (λ b, 0 ≤ b < 256) bs → 0 ≤ le_word bs < 2 ^ (8 * Z.of_nat (length bs)).
Proof.
  induction 1 as [|b bs Hb Hbs IH]; simpl; [lia|].
  replace (8 * Z.of_nat (S (length bs))) with (8 + 8 * Z.of_nat (length bs)) by lia.
  rewrite Z.pow_add_r by lia. lia.
Qed.

Lemma le_bytes_inj n x y :
  0 ≤ x < 2 ^ (8 * Z.of_nat n) → 0 ≤ y < 2 ^ (8 * Z.of_nat n) →
  le_bytes n x = le_bytes n y → x = y.
Proof.
  intros Hx Hy Heq. apply (f_equal le_word) in Heq.
  by rewrite !le_word_bytes, !Z.mod_small in Heq.
Qed.

(** ** Byte-addressed memory

    A zero-initialised object is a finite map from offsets to bytes; an
    offset that was never written reads as zero. *)
Definition mread (m : gmap Z Z) (a : Z) : Z := default 0 (m !! a).

Fixpoint mread_n (m : gmap Z Z) (a : Z) (n : nat) : list Z :=
  match n with
  | O => []
  | S n => mread m a :: mread_n m (a + 1) n
  end.

Fixpoint mwrite_n (m : gmap Z Z) (a : Z) (bs : list Z) : gmap Z Z :=
  match bs with
  | [] => m
  | b :: bs => mwrite_n (<[a := b]> m) (a + 1) bs
  end.

Lemma mread_mwrite_out m a bs x :
  x < a ∨ a + Z.of_nat (length bs) ≤ x →
  mread (mwrite_n m a bs) x = mread m x.
Proof.
  revert m a; induction bs as [|b bs IH]; intros m a Hx; simpl; [done|].
  simpl in Hx. rewrite IH by lia. unfold mread.
  by rewrite lookup_insert_ne by lia.
Qed.

Lemma length_mread_n m a n : length (mread_n m a n) = n.
Proof. revert a; induction n; intros; simpl; auto. Qed.

Lemma mread_n_ext m m' a n :
  (∀ x, a ≤ x < a + Z.of_nat n → mread m' x = mread m x) →
  mread_n m' a n = mread_n m a n.
Proof.
  revert a; induction n as [|n IH]; intros a Hx; simpl; [done|].
  f_equal; [apply Hx; lia|]. apply IH. intros. apply Hx. lia.
Qed.

Lemma mread_n_app m a n1 n2 :
  mread_n m a (n1 + n2) = mread_n m a n1 ++ mread_n m (a + Z.of_nat n1) n2.
Proof.
  revert a; induction n1 as [|n1 IH]; intros a; simpl.
  - f_equal. lia.
  - f_equal. rewrite IH. do 2 f_equal. lia.
Qed.

Lemma mread_n_mwrite_eq m a bs :
  mread_n (mwrite_n m a bs) a (length bs) = bs.
Proof.
  revert m a; induction bs as [|b bs IH]; intros m a; simpl; [done|].
  f_equal; [|apply IH]. rewrite mread_mwrite_out by lia.
  unfold mread. by rewrite lookup_insert_eq.
Qed.

Lemma mread_n_mwrite_out m a bs x n :
  x + Z.of_nat n ≤ a ∨ a + Z.of_nat (length bs) ≤ x →
  mread_n (mwrite_n m a bs) x n = mread_n m x n.
Proof.
  intros Hx. apply mread_n_ext. intros y Hy. apply mread_mwrite_out. lia.
Qed.

(** ** Effects

    Code that calls libraries outside the repository passes a world [W]
    (device, kernel, registry) through; the libraries' functions are
    parameters over [W]. *)
Definition eff (W A : Type) : Type := W → res (A * W).

Definition eff_ret {W A} (a : A) : eff W A := λ w, Ok (a, w).
Definition eff_bind {W A B} (m : eff W A) (k : A → eff W B) : eff W B :=
  λ w, res_bind (m w) (λ x, k x.1 x.2).
Definition eff_fault {W A} (f : fault) : eff W A := λ _, Fault f.
Definition eff_lift {W A} (m : res A) : eff W A := λ w, let! a := m in Ok (a, w).
Definition eff_assert {W} (b : bool) : eff W unit := eff_lift (cassert b).
(** [CPE] and the explicit calls of [exit]: stop with [code] if [b]. *)
Definition exit_if {W} (b : bool) (code : Z) : eff W unit :=
  if b then eff_fault (ExitCall code) else eff_ret tt.

Notation "'let*' x ':=' m 'in' k" := (eff_bind m (λ x, k))
  (at level 10, x pattern, m at level 100, k at level 200) : cres_scope.
Notation "m ';*' k" := (eff_bind m (λ _, k))
  (at level 99, k at level 200, right associativity) : cres_scope.

(** [runs m w P]: [m] does not stop the program when started in [w], and
    its value and the final world satisfy [P]. *)
Definition runs {W A} (m : eff W A) (w : W) (P : A → W → Prop) : Prop :=
  ∃ a w', m w = Ok (a, w') ∧ P a w'.

Lemma runs_bind {W A B} (m : eff W A) (k : A → eff W B) w Q P :
  runs m w Q → (∀ a w', Q a w' → runs (k a) w' P) → runs (eff_bind m k) w P.
Proof.
  intros (a & w' & E & HQ) Hk. destruct (Hk a w' HQ) as (b & w'' & E' & HP).
  exists b, w''. unfold eff_bind. by rewrite E.
Qed.

Lemma runs_ret {W A} (a : A) (w : W) (P : A → W → Prop) : P a w → runs (eff_ret a) w P.
Proof. intros. by exists a, w. Qed.

Lemma runs_assert {W B} b (k : eff W B) w P :
  b = true → runs k w P → runs (eff_assert b ;* k) w P.
Proof. intros -> (a & w' & E & HP). by exists a, w'. Qed.

Lemma runs_exit_if {W B} b c (k : eff W B) w P :
  b = false → runs k w P → runs (exit_if b c ;* k) w P.
Proof. intros -> (a & w' & E & HP). by exists a, w'. Qed.

Lemma runs_bounds {W B} b (k : eff W B) w P :
  b = true → runs k w P → runs (eff_lift (in_bounds b) ;* k) w P.
Proof. intros -> (a & w' & E & HP). by exists a, w'. Qed.

Lemma runs_and {W A} (m : eff W A) w (P Q : A → W → Prop) :
  runs m w P → runs m w Q → runs m w (λ a w', P a w' ∧ Q a w').
Proof.
  intros (a & w' & E & HP) (a' & w'' & E' & HQ). rewrite E in E'. injection E' as <- <-. by exists a, w'.
Qed.

Lemma runs_mono {W A} (m : eff W A) w (P Q : A → W → Prop) :
  runs m w P → (∀ a w', P a w' → Q a w') → runs m w Q.
Proof. intros (a & w' & E & HP) H. exists a, w'. auto. Qed.

Lemma eff_bind_Ok {W A B} (m : eff W A) (k : A → eff W B) w b w' :
  eff_bind m k w = Ok (b, w') ↔ ∃ a w1, m w = Ok (a, w1) ∧ k a w1 = Ok (b, w').
Proof.
  unfold eff_bind. destruct (m w) as [[a w1]|f]; simpl; [|naive_solver].
  split; [by eauto|]. by intros (? & ? & [= <- <-] & ?).
Qed.

(** [within R m]: the call [m] changes the world along [R]. *)
Section Within.
Context {W : Type} (R : W → W → Prop) `{!PreOrder R}.

Definition within {A} (m : eff W A) : Prop := ∀ w a w', m w = Ok (a, w') → R w w'.

Lemma within_ret {A} (a : A) : within (eff_ret a).
Proof. by intros w a' w' [= _ ->]. Qed.
Lemma within_fault {A} f : within (A := A) (eff_fault f).
Proof. by intros w a w'. Qed.
Lemma within_bind {A B} (m : eff W A) (k : A → eff W B) :
  within m → (∀ a, within (k a)) → within (eff_bind m k).
Proof.
  intros Hm Hk w b w' (a & w1 & E1 & E2)%eff_bind_Ok.
  etrans; [by eapply Hm|by eapply Hk].
Qed.
Lemma within_lift {A} (m : res A) : within (eff_lift m).
Proof. intros w a w' E. unfold eff_lift in E. destruct m; [|done]. by injection E as _ ->. Qed.
Lemma within_assert b : within (eff_assert b).
Proof. apply within_lift. Qed.
Lemma within_exit_if b c : within (exit_if b c).
Proof. unfold exit_if. destruct b; [apply within_fault|apply within_ret]. Qed.

Lemma within_of_runs {A} (m : eff W A) (P : A → W → W → Prop) :
  (∀ w, runs m w (λ a w', P a w w')) → (∀ a w w', P a w w' → R w w') → within m.
Proof.
  intros Hm HP w a w' E. destruct (Hm w) as (a' & w1 & E' & Ha). rewrite E in E'.
  injection E' as <- <-. by eapply HP.
Qed.

Lemma runs_within {A} (m : eff W A) w (P : A → W → Prop) :
  within m → runs m w P → runs m w (λ a w', P a w' ∧ R w w').
Proof. intros Hm (a & w' & E & HP). exists a, w'. eauto. Qed.
End Within.

(** [keeps obs m]: the call [m] does not change what [obs] sees. *)
Definition sees {W S} (obs : W → S) (w w' : W) : Prop := obs w' = obs w.
#[export] Instance sees_preorder {W S} (obs : W → S) : PreOrder (sees obs).
Proof. split; [done|]. unfold sees. intros w1 w2 w3. congruence. Qed.
Abbreviation keeps obs := (within (sees obs)).

Lemma runs_keeps {W S A} (obs : W → S) (m : eff W A) w (P : A → W → Prop) :
  keeps obs m → runs m w P → runs m w (λ a w', P a w' ∧ obs w' = obs w).
Proof. apply runs_within. Qed.

Create HintDb within.
#[export] Hint Resolve within_ret within_fault within_lift within_assert within_exit_if : within.

Ltac within_step :=
  match goal with
  | |- within _ (eff_bind _ _) => apply within_bind; [apply _| |intros]
  | |- within _ (if ?b then _ else _) => destruct b
  | |- within _ (match ?x with _ => _ end) => destruct x
  | |- within _ _ => by auto with within typeclass_instances
  end.
Ltac within_tac := repeat within_step.

Lemma Forall2_in_l {A B} (P : A → B → Prop) l k :
  Forall2 P l k → Forall2 (λ x y, x ∈ l ∧ P x y) l k.
Proof.
  induction 1 as [|x y l k Hxy Hlk IH]; constructor; [split; [left|done]|].
  eapply Forall2_impl; [|exact IH]. intros ?? [? ?]. split; [by right|done].
Qed.

(** ** C arrays

    An array is a list; an index outside it is a fault. *)
Definition arr_get {A} (l : list A) (i : Z) : res A :=
  if i <? 0 then Fault OutOfBounds
  else match l !! Z.to_nat i with
       | Some a => Ok a
       | None => Fault OutOfBounds
       end.

Definition arr_set {A} (l : list A) (i : Z) (a : A) : res (list A) :=
  in_bounds ((0 <=? i) && (i <? Z.of_nat (length l))) ;!
  Ok (<[Z.to_nat i := a]> l).

Lemma arr_get_Ok {A} (l : list A) (i : nat) (a : A) :
  l !! i = Some a → arr_get l (Z.of_nat i) = Ok a.
Proof.
  intros E. unfold arr_get. rewrite (proj2 (Z.ltb_ge _ _)) by lia.
  by rewrite Nat2Z.id, E.
Qed.

Lemma arr_get_Z {A} (l : list A) (i : Z) (a : A) :
  0 ≤ i → l !! Z.to_nat i = Some a → arr_get l i = Ok a.
Proof. intros Hi E. unfold arr_get. rewrite (proj2 (Z.ltb_ge _ _)) by lia. by rewrite E. Qed.

Lemma arr_get_inv {A} (l : list A) (i : Z) (a : A) :
  arr_get l i = Ok a → 0 ≤ i ∧ l !! Z.to_nat i = Some a.
Proof.
  unfold arr_get. destruct (i <? 0) eqn:E; [done|]. apply Z.ltb_ge in E.
  destruct (l !! Z.to_nat i) eqn:E'; [|done]. by intros [= ->].
Qed.

Lemma arr_get_lt {A} (l : list A) (i : Z) :
  0 ≤ i < Z.of_nat (length l) → ∃ a, arr_get l i = Ok a ∧ l !! Z.to_nat i = Some a.
Proof.
  intros Hi. destruct (lookup_lt_is_Some_2 l (Z.to_nat i)) as [a E]; [lia|].
  exists a. split; [|done]. unfold arr_get. rewrite (proj2 (Z.ltb_ge _ _)) by lia. by rewrite E.
Qed.

Lemma arr_set_Ok {A} (l : list A) (i : Z) (a : A) :
  0 ≤ i < Z.of_nat (length l) → arr_set l i a = Ok (<[Z.to_nat i := a]> l).
Proof.
  intros Hi. unfold arr_set.
  by rewrite (proj2 (Z.leb_le _ _)), (proj2 (Z.ltb_lt _ _)) by lia.
Qed.

(** ** Linked lists in arrays *)

(** A list in an array, as the device walks it from index [i]. *)
Fixpoint walk {A} (next : A → option Z) (fuel : nat) (arr : list A) (i : option Z) : res (list A) :=
  match i with
  | None => Ok []
  | Some i =>
      match fuel with
      | O => Fault Stuck
      | S fuel =>
          let! x := arr_get arr i in
          let! xs := walk next fuel arr (next x) in
          Ok (x :: xs)
      end
  end.
