(* ===== verification/City.v ===== *)
(** * CityHash (src/mica/city.h, src/mica/city.c)

    The hash functions that name the keys of the MICA store, on 64-bit
    words with their wrap-around written out.  An input is a list of bytes
    and a pointer into it is an offset; every fetch checks that it stays
    inside the input, so that "the hash returns" is also "no byte outside
    the input is read".  The [__SSE4_2__] part of city.c is compiled only
    with citycrc.h, which is not part of the sources, and is left out. *)

From stdpp Require Import base list numbers.
From Stdlib Require Import ZArith Lia.
From S2P Require Import Prelude.

Record uint128 : Type := U128 { first : Z; second : Z }.

#[global] Instance uint128_eq_dec : EqDecision uint128.
Proof. solve_decision. Defined.

Definition Uint128Low64 (x : uint128) : Z := first x.
Definition Uint128High64 (x : uint128) : Z := second x.

Definition k0 : Z := 0xc3a5c85c97cb3127.
Definition k1 : Z := 0xb492b66fbe98f273.
Definition k2 : Z := 0x9ae16a3b2f90404f.
Definition k3 : Z := 0xc949d7c7509e6557.

(** ** Loads *)
Definition UNALIGNED_LOAD64 (buf : list Z) (p : Z) : res Z :=
  in_bounds ((0 <=? p) && (p + 8 <=? Z.of_nat (length buf))) ;!
  Ok (le_word (take 8 (drop (Z.to_nat p) buf))).

Definition UNALIGNED_LOAD32 (buf : list Z) (p : Z) : res Z :=
  in_bounds ((0 <=? p) && (p + 4 <=? Z.of_nat (length buf))) ;!
  Ok (le_word (take 4 (drop (Z.to_nat p) buf))).

(** A single byte [s[i]]. *)
Definition load8 (buf : list Z) (p : Z) : res Z :=
  in_bounds ((0 <=? p) && (p + 1 <=? Z.of_nat (length buf))) ;!
  Ok (default 0 (buf !! Z.to_nat p)).

(** On a little-endian host [uint64_in_expected_order] is the identity. *)
Definition Fetch64 (buf : list Z) (p : Z) : res Z := UNALIGNED_LOAD64 buf p.
Definition Fetch32 (buf : list Z) (p : Z) : res Z := UNALIGNED_LOAD32 buf p.

(** ** Mixing *)
Definition kMul : Z := 0x9ddfea08eb382d69.

Definition Hash128to64 (x : uint128) : Z :=
  let a := (Uint128Low64 x .^ Uint128High64 x) *64 kMul in
  let a := a .^ (a .>> 47) in
  let b := (Uint128High64 x .^ a) *64 kMul in
  let b := b .^ (b .>> 47) in
  b *64 kMul.

Definition Rotate (val shift : Z) : Z :=
  if shift =? 0 then val else (val .>> shift) .| (val <<64 (64 - shift)).

Definition RotateByAtLeast1 (val shift : Z) : Z :=
  (val .>> shift) .| (val <<64 (64 - shift)).

Definition ShiftMix (val : Z) : Z := val .^ (val .>> 47).

Definition HashLen16 (u v : Z) : Z := Hash128to64 (U128 u v).

(** ** Short inputs *)
Definition HashLen0to16 (buf : list Z) (s len : Z) : res Z :=
  if 8 <? len then
    let! a := Fetch64 buf s in
    let! b := Fetch64 buf (s + len - 8) in
    Ok (HashLen16 a (RotateByAtLeast1 (b +64 len) len) .^ b)
  else if 4 <=? len then
    let! a := Fetch32 buf s in
    let! c := Fetch32 buf (s + len - 4) in
    Ok (HashLen16 (len +64 (a <<64 3)) c)
  else if 0 <? len then
    let! a := load8 buf s in
    let! b := load8 buf (s + (len .>> 1)) in
    let! c := load8 buf (s + len - 1) in
    let y := u32 (a + u32 (Z.shiftl b 8)) in
    let z := u32 (len + u32 (Z.shiftl c 2)) in
    Ok (ShiftMix ((y *64 k2) .^ (z *64 k3)) *64 k2)
  else Ok k2.

Definition HashLen17to32 (buf : list Z) (s len : Z) : res Z :=
  let! a := Fetch64 buf s in
  let a := a *64 k1 in
  let! b := Fetch64 buf (s + 8) in
  let! c := Fetch64 buf (s + len - 8) in
  let c := c *64 k2 in
  let! d := Fetch64 buf (s + len - 16) in
  let d := d *64 k0 in
  Ok (HashLen16 (Rotate (a -64 b) 43 +64 Rotate c 30 +64 d)
                (a +64 Rotate (b .^ k3) 20 -64 c +64 len)).

(** ** 48-byte and 64-byte blocks *)
Definition WeakHashLen32WithSeeds6 (w x y z a b : Z) : uint128 :=
  let a := a +64 w in
  let b := Rotate (b +64 a +64 z) 21 in
  let c := a in
  let a := a +64 x in
  let a := a +64 y in
  let b := b +64 Rotate a 44 in
  U128 (a +64 z) (b +64 c).

Definition WeakHashLen32WithSeeds (buf : list Z) (s a b : Z) : res uint128 :=
  let! w := Fetch64 buf s in
  let! x := Fetch64 buf (s + 8) in
  let! y := Fetch64 buf (s + 16) in
  let! z := Fetch64 buf (s + 24) in
  Ok (WeakHashLen32WithSeeds6 w x y z a b).

Definition HashLen33to64 (buf : list Z) (s len : Z) : res Z :=
  let! z := Fetch64 buf (s + 24) in
  let! a0 := Fetch64 buf s in
  let! a1 := Fetch64 buf (s + len - 16) in
  let a := a0 +64 ((len +64 a1) *64 k0) in
  let b := Rotate (a +64 z) 52 in
  let c := Rotate a 37 in
  let! f8 := Fetch64 buf (s + 8) in
  let a := a +64 f8 in
  let c := c +64 Rotate a 7 in
  let! f16 := Fetch64 buf (s + 16) in
  let a := a +64 f16 in
  let vf := a +64 z in
  let vs := b +64 Rotate a 31 +64 c in
  let! g16 := Fetch64 buf (s + 16) in
  let! g32 := Fetch64 buf (s + len - 32) in
  let a := g16 +64 g32 in
  let! z := Fetch64 buf (s + len - 8) in
  let b := Rotate (a +64 z) 52 in
  let c := Rotate a 37 in
  let! f24 := Fetch64 buf (s + len - 24) in
  let a := a +64 f24 in
  let c := c +64 Rotate a 7 in
  let! f16 := Fetch64 buf (s + len - 16) in
  let a := a +64 f16 in
  let wf := a +64 z in
  let ws := b +64 Rotate a 31 +64 c in
  let r := ShiftMix (((vf +64 ws) *64 k2) +64 ((wf +64 vs) *64 k0)) in
  Ok (ShiftMix ((r *64 k0) +64 vs) *64 k2).

(** ** The 56-byte state of the long hashes *)
Record city_state : Type := CityState
  { cs_x : Z; cs_y : Z; cs_z : Z; cs_v : uint128; cs_w : uint128 }.

(** One 64-byte round, the body of the loop of [CityHash64]. *)
Definition city_round (buf : list Z) (s : Z) (st : city_state) : res city_state :=
  let '(CityState x y z v w) := st in
  let! f8 := Fetch64 buf (s + 8) in
  let x := Rotate (x +64 y +64 first v +64 f8) 37 *64 k1 in
  let! f48 := Fetch64 buf (s + 48) in
  let y := Rotate (y +64 second v +64 f48) 42 *64 k1 in
  let x := x .^ second w in
  let! f40 := Fetch64 buf (s + 40) in
  let y := y +64 (first v +64 f40) in
  let z := Rotate (z +64 first w) 33 *64 k1 in
  let! v := WeakHashLen32WithSeeds buf s (second v *64 k1) (x +64 first w) in
  let! f16 := Fetch64 buf (s + 16) in
  let! w := WeakHashLen32WithSeeds buf (s + 32) (z +64 second w) (y +64 f16) in
  Ok (CityState z y x v w).

(** [do { ... s += 64; len -= 64; } while (len != 0)]. *)
Fixpoint city64_loop (fuel : nat) (buf : list Z) (s len : Z) (st : city_state)
    : res city_state :=
  match fuel with
  | O => Fault Stuck
  | S fuel =>
      let! st := city_round buf s st in
      let len := len -64 64 in
      if len =? 0 then Ok st else city64_loop fuel buf (s + 64) len st
  end.

Definition CityHash64 (buf : list Z) (s len : Z) : res Z :=
  if len <=? 32 then
    if len <=? 16 then HashLen0to16 buf s len else HashLen17to32 buf s len
  else if len <=? 64 then HashLen33to64 buf s len
  else
    let! x := Fetch64 buf (s + len - 40) in
    let! y0 := Fetch64 buf (s + len - 16) in
    let! y1 := Fetch64 buf (s + len - 56) in
    let y := y0 +64 y1 in
    let! z0 := Fetch64 buf (s + len - 48) in
    let! z1 := Fetch64 buf (s + len - 24) in
    let z := HashLen16 (z0 +64 len) z1 in
    let! v := WeakHashLen32WithSeeds buf (s + len - 64) len z in
    let! w := WeakHashLen32WithSeeds buf (s + len - 32) (y +64 k1) x in
    let! f0 := Fetch64 buf s in
    let x := (x *64 k1) +64 f0 in
    let len' := (len -64 1) .& u64 (Z.lnot 63) in
    let! st := city64_loop (Z.to_nat len) buf s len' (CityState x y z v w) in
    let '(CityState x y z v w) := st in
    Ok (HashLen16 (HashLen16 (first v) (first w) +64 (ShiftMix y *64 k1) +64 z)
                  (HashLen16 (second v) (second w) +64 x)).

Definition CityHash64WithSeeds (buf : list Z) (s len seed0 seed1 : Z) : res Z :=
  let! h := CityHash64 buf s len in Ok (HashLen16 (h -64 seed0) seed1).

Definition CityHash64WithSeed (buf : list Z) (s len seed : Z) : res Z :=
  CityHash64WithSeeds buf s len k2 seed.

(** ** 128-bit hashes *)

(** The loop of [CityMurmur]; [l] is a [signed long]. *)
Fixpoint murmur_loop (fuel : nat) (buf : list Z) (s l a b c d : Z)
    : res (Z * Z * Z * Z) :=
  match fuel with
  | O => Fault Stuck
  | S fuel =>
      let! f0 := Fetch64 buf s in
      let a := a .^ (ShiftMix (f0 *64 k1) *64 k1) in
      let a := a *64 k1 in
      let b := b .^ a in
      let! f8 := Fetch64 buf (s + 8) in
      let c := c .^ (ShiftMix (f8 *64 k1) *64 k1) in
      let c := c *64 k1 in
      let d := d .^ c in
      let l := l - 16 in
      if 0 <? l then murmur_loop fuel buf (s + 16) l a b c d else Ok (a, b, c, d)
  end.

(** The last six lines of [CityMurmur]. *)
Definition murmur_finish (a b c d : Z) : uint128 :=
  let a := HashLen16 a c in
  let b := HashLen16 d b in
  U128 (a .^ b) (HashLen16 b a).

Definition CityMurmur (buf : list Z) (s len : Z) (seed : uint128) : res uint128 :=
  let a := Uint128Low64 seed in
  let b := Uint128High64 seed in
  let l := len - 16 in
  let! (a, b, c, d) :=
    if l <=? 0 then
      let a := ShiftMix (a *64 k1) *64 k1 in
      let! h := HashLen0to16 buf s len in
      let c := (b *64 k1) +64 h in
      let! t := if 8 <=? len then Fetch64 buf s else Ok c in
      let d := ShiftMix (a +64 t) in
      Ok (a, b, c, d)
    else
      let! f8 := Fetch64 buf (s + len - 8) in
      let c := HashLen16 (f8 +64 k1) a in
      let! f16 := Fetch64 buf (s + len - 16) in
      let d := HashLen16 (b +64 len) (c +64 f16) in
      let a := a +64 d in
      murmur_loop (Z.to_nat len) buf s l a b c d
  in
  Ok (murmur_finish a b c d).

(** [do { two rounds; len -= 128; } while (len >= 128)]. *)
Fixpoint city128_loop (fuel : nat) (buf : list Z) (s len : Z) (st : city_state)
    : res (Z * Z * city_state) :=
  match fuel with
  | O => Fault Stuck
  | S fuel =>
      let! st := city_round buf s st in
      let! st := city_round buf (s + 64) st in
      let s := s + 64 + 64 in
      let len := len -64 128 in
      if 128 <=? len then city128_loop fuel buf s len st else Ok (s, len, st)
  end.

(** [for (tail_done = 0; tail_done < len; )]: 32-byte chunks from the end. *)
Fixpoint city128_tail (fuel : nat) (buf : list Z) (s len tail_done : Z)
    (st : city_state) : res city_state :=
  match fuel with
  | O => Fault Stuck
  | S fuel =>
      if tail_done <? len then
        let '(CityState x y z v w) := st in
        let tail_done := tail_done + 32 in
        let y := (Rotate (x +64 y) 42 *64 k0) +64 second v in
        let! f16 := Fetch64 buf (s + len - tail_done + 16) in
        let w := U128 (first w +64 f16) (second w) in
        let x := (x *64 k0) +64 first w in
        let! f0 := Fetch64 buf (s + len - tail_done) in
        let z := z +64 (second w +64 f0) in
        let w := U128 (first w) (second w +64 first v) in
        let! v := WeakHashLen32WithSeeds buf (s + len - tail_done)
                    (first v +64 z) (second v) in
        city128_tail fuel buf s len tail_done (CityState x y z v w)
      else Ok st
  end.

Definition CityHash128WithSeed (buf : list Z) (s len : Z) (seed : uint128)
    : res uint128 :=
  if len <? 128 then CityMurmur buf s len seed
  else
    let x := Uint128Low64 seed in
    let y := Uint128High64 seed in
    let z := len *64 k1 in
    let! f0 := Fetch64 buf s in
    let v1 := (Rotate (y .^ k1) 49 *64 k1) +64 f0 in
    let! f8 := Fetch64 buf (s + 8) in
    let v2 := (Rotate v1 42 *64 k1) +64 f8 in
    let w1 := (Rotate (y +64 z) 35 *64 k1) +64 x in
    let! f88 := Fetch64 buf (s + 88) in
    let w2 := Rotate (x +64 f88) 53 *64 k1 in
    let! (s, len, CityState x y z v w) :=
      city128_loop (Z.to_nat len) buf s len
        (CityState x y z (U128 v1 v2) (U128 w1 w2)) in
    let x := x +64 (Rotate (first v +64 z) 49 *64 k0) in
    let z := z +64 (Rotate (first w) 37 *64 k0) in
    let! (CityState x y z v w) :=
      city128_tail 5 buf s len 0 (CityState x y z v w) in
    let x := HashLen16 x (first v) in
    let y := HashLen16 (y +64 z) (first w) in
    Ok (U128 (HashLen16 (x +64 second v) (second w) +64 y)
             (HashLen16 (x +64 second w) (y +64 second v))).

Definition CityHash128 (buf : list Z) (s len : Z) : res uint128 :=
  if 16 <=? len then
    let! f0 := Fetch64 buf s in
    let! f8 := Fetch64 buf (s + 8) in
    CityHash128WithSeed buf (s + 16) (len - 16) (U128 (f0 .^ k3) f8)
  else if 8 <=? len then
    let! f0 := Fetch64 buf s in
    let! fe := Fetch64 buf (s + len - 8) in
    CityHash128WithSeed [] 0 0 (U128 (f0 .^ (len *64 k0)) (fe .^ k1))
  else CityHash128WithSeed buf s len (U128 k0 k1).

(** ** Words stay words *)
Lemma w64_k0 : w64 k0. Proof. done. Qed.
Lemma w64_k1 : w64 k1. Proof. done. Qed.
Lemma w64_k2 : w64 k2. Proof. done. Qed.
Lemma w64_k3 : w64 k3. Proof. done. Qed.

Lemma ShiftMix_w64 x : w64 x → w64 (ShiftMix x).
Proof. intros. apply w64_lxor, w64_shiftr; auto with lia. Qed.

Lemma Rotate_w64 x n : w64 x → 0 ≤ n → w64 (Rotate x n).
Proof.
  intros Hx Hn. unfold Rotate. case_match; [done|].
  apply w64_lor; [by apply w64_shiftr|apply w64_u64].
Qed.

Lemma HashLen16_w64 u v : w64 (HashLen16 u v).
Proof. apply w64_u64. Qed.
#[export] Hint Resolve w64_k0 w64_k1 w64_k2 w64_k3 ShiftMix_w64 HashLen16_w64 : cword.
#[export] Hint Extern 1 (w64 (Rotate _ _)) => apply Rotate_w64; [|lia] : cword.

Definition u128_ok (x : uint128) : Prop := w64 (first x) ∧ w64 (second x).
Definition city_ok (st : city_state) : Prop :=
  w64 (cs_x st) ∧ w64 (cs_y st) ∧ w64 (cs_z st) ∧ u128_ok (cs_v st) ∧ u128_ok (cs_w st).

(** ** Fetches inside the input *)
Section Fetch.
Context (buf : list Z) (Hbuf : Forall byteb buf).

Lemma take_drop_bytes p n :
  0 ≤ p → p + Z.of_nat n ≤ Z.of_nat (length buf) →
  Forall byteb (take n (drop (Z.to_nat p) buf)) ∧
  length (take n (drop (Z.to_nat p) buf)) = n.
Proof.
  intros. split; [by apply Forall_take, Forall_drop|].
  rewrite length_take, length_drop. lia.
Qed.

Lemma Fetch64_returns p :
  0 ≤ p → p + 8 ≤ Z.of_nat (length buf) → returns w64 (Fetch64 buf p).
Proof.
  intros Hp Hl. apply returns_bounds_then; [lia|].
  destruct (take_drop_bytes p 8) as [HF Hlen]; [lia..|].
  simpl. unfold w64. pose proof (le_word_range _ HF) as Hr.
  by rewrite Hlen in Hr.
Qed.

Lemma Fetch32_returns p :
  0 ≤ p → p + 4 ≤ Z.of_nat (length buf) →
  returns (λ x, 0 ≤ x < 2 ^ 32) (Fetch32 buf p).
Proof.
  intros Hp Hl. apply returns_bounds_then; [lia|].
  destruct (take_drop_bytes p 4) as [HF Hlen]; [lia..|].
  simpl. pose proof (le_word_range _ HF) as Hr. by rewrite Hlen in Hr.
Qed.

Lemma load8_returns p :
  0 ≤ p → p + 1 ≤ Z.of_nat (length buf) → returns byteb (load8 buf p).
Proof.
  intros Hp Hl. apply returns_bounds_then; [lia|]. simpl.
  destruct (buf !! Z.to_nat p) as [b|] eqn:E; simpl.
  - by apply (Forall_lookup_1 _ _ _ _ Hbuf E).
  - apply lookup_ge_None in E. lia.
Qed.

(** Steps through the fetches at the front of a hash. *)
Ltac fetch_step :=
  match goal with
  | |- returns _ (res_bind (Fetch64 _ _) _) =>
      eapply returns_bind; [apply Fetch64_returns; lia|]; intros ? ?
  | |- returns _ (res_bind (Fetch32 _ _) _) =>
      eapply returns_bind; [apply Fetch32_returns; lia|]; intros ? ?
  | |- returns _ (res_bind (load8 _ _) _) =>
      eapply returns_bind; [apply load8_returns; lia|]; intros ? ?
  end.
Ltac city_auto :=
  unfold city_ok, u128_ok in *; simpl in *; destruct_and?; simpl;
  repeat first [solve [auto with cword] | split].

Lemma HashLen0to16_returns s len :
  0 ≤ s → 0 ≤ len ≤ 16 → s + len ≤ Z.of_nat (length buf) →
  returns w64 (HashLen0to16 buf s len).
Proof.
  intros Hs Hlen Hb. unfold HashLen0to16.
  repeat case_match; repeat fetch_step; simpl; auto with cword.
  assert (0 ≤ len .>> 1 < len).
  { rewrite Z.shiftr_div_pow2 by lia. change (2 ^ 1) with 2.
    split; [apply Z.div_pos; lia|apply Z.div_lt; lia]. }
  repeat fetch_step. simpl; auto with cword.
Qed.

Lemma HashLen17to32_returns s len :
  0 ≤ s → 16 < len ≤ 32 → s + len ≤ Z.of_nat (length buf) →
  returns w64 (HashLen17to32 buf s len).
Proof. intros. unfold HashLen17to32. repeat fetch_step. simpl; auto with cword. Qed.

Lemma HashLen33to64_returns s len :
  0 ≤ s → 32 < len ≤ 64 → s + len ≤ Z.of_nat (length buf) →
  returns w64 (HashLen33to64 buf s len).
Proof. intros. unfold HashLen33to64. repeat fetch_step. simpl; auto with cword. Qed.

Lemma WeakHash_returns s a b :
  0 ≤ s → s + 32 ≤ Z.of_nat (length buf) →
  returns u128_ok (WeakHashLen32WithSeeds buf s a b).
Proof.
  intros. unfold WeakHashLen32WithSeeds. repeat fetch_step.
  split; apply w64_u64.
Qed.

Ltac weak_step :=
  match goal with
  | |- returns _ (res_bind (WeakHashLen32WithSeeds _ _ _ _) _) =>
      eapply returns_bind; [apply WeakHash_returns; lia|]; intros ? ?
  end.

Lemma city_round_returns s st :
  0 ≤ s → s + 64 ≤ Z.of_nat (length buf) → city_ok st →
  returns city_ok (city_round buf s st).
Proof.
  intros Hs Hb Hst. destruct st as [x y z v w]. unfold city_round.
  repeat (fetch_step || weak_step). city_auto.
Qed.

Lemma city64_loop_returns n fuel s st :
  (0 < n ≤ fuel)%nat → 0 ≤ s → 64 * Z.of_nat n < 2 ^ 64 →
  s + 64 * Z.of_nat n ≤ Z.of_nat (length buf) → city_ok st →
  returns city_ok (city64_loop fuel buf s (64 * Z.of_nat n) st).
Proof.
  revert fuel s st. induction n as [|n IH]; intros fuel s st Hn Hs Hw Hb Hst; [lia|].
  destruct fuel as [|fuel]; [lia|]. simpl city64_loop.
  eapply returns_bind; [apply city_round_returns; auto; lia|].
  intros st' Hst'. rewrite u64_small by lia.
  replace (64 * Z.of_nat (S n) - 64) with (64 * Z.of_nat n) by lia.
  case_match; [done|]. apply IH; auto; lia.
Qed.

Lemma CityHash64_returns s len :
  0 ≤ s → 0 ≤ len < 2 ^ 64 → s + len ≤ Z.of_nat (length buf) →
  returns w64 (CityHash64 buf s len).
Proof.
  intros Hs Hlen Hb. unfold CityHash64.
  case_match; [case_match|].
  - apply HashLen0to16_returns; lia.
  - apply HashLen17to32_returns; lia.
  - case_match; [apply HashLen33to64_returns; lia|].
    repeat (fetch_step || weak_step).
    assert (Hlen' : ∃ n, (len -64 1) .& u64 (Z.lnot 63) = 64 * Z.of_nat n ∧
              (0 < n)%nat ∧ 64 * Z.of_nat n < len).
    { exists (Z.to_nat ((len - 1) / 64)).
      change (Z.lnot 63) with (Z.lnot (2 ^ 6 - 1)).
      rewrite u64_small, u64_land_lnot_mask by lia. change (2 ^ 6) with 64.
      assert (1 ≤ (len - 1) / 64) by (apply Z.div_le_lower_bound; lia).
      pose proof (Z.div_mod (len - 1) 64 ltac:(done)).
      pose proof (Z.mod_pos_bound (len - 1) 64 ltac:(done)). lia. }
    destruct Hlen' as (n & -> & Hn & Hn').
    eapply returns_bind; [apply city64_loop_returns; try lia; city_auto|].
    intros [x' y' z' v' w'] Hst. simpl; auto with cword.
Qed.

Lemma murmur_loop_returns fuel s l a b c d :
  0 < l → (Z.to_nat l ≤ fuel)%nat → 0 ≤ s →
  s + l + 16 ≤ Z.of_nat (length buf) →
  returns (λ _, True) (murmur_loop fuel buf s l a b c d).
Proof.
  revert s l a b c d. induction fuel as [|fuel IH]; intros s l a b c d Hl Hf Hs Hb; [lia|].
  simpl. repeat fetch_step. case_match; [|done]. apply IH; lia.
Qed.

Lemma CityMurmur_returns s len seed :
  0 ≤ s → 0 ≤ len → s + len ≤ Z.of_nat (length buf) → u128_ok seed →
  returns u128_ok (CityMurmur buf s len seed).
Proof.
  intros Hs Hlen Hb Hseed. unfold CityMurmur.
  apply (returns_bind (λ _, True)).
  - case_match.
    + eapply returns_bind; [apply HashLen0to16_returns; lia|]. intros h Hh.
      case_match; repeat fetch_step; done.
    + repeat fetch_step. apply murmur_loop_returns; lia.
  - intros [[[a b] c] d] _. split; [apply w64_lxor|]; apply HashLen16_w64.
Qed.

Lemma city128_loop_returns fuel s len st :
  128 ≤ len < 2 ^ 64 → (Z.to_nat len ≤ fuel)%nat → 0 ≤ s →
  s + len ≤ Z.of_nat (length buf) → city_ok st →
  returns (λ r, let '(s', len', st') := r in
      0 ≤ len' < 128 ∧ s' + len' = s + len ∧ s + 128 ≤ s' ∧ city_ok st')
    (city128_loop fuel buf s len st).
Proof.
  revert s len st. induction fuel as [|fuel IH]; intros s len st Hlen Hf Hs Hb Hst; [lia|].
  simpl. eapply returns_bind; [apply city_round_returns; auto; lia|]. intros st1 Hst1.
  eapply returns_bind; [apply city_round_returns; auto; lia|]. intros st2 Hst2.
  rewrite u64_small by lia. case_match eqn:Hc.
  - apply Z.leb_le in Hc. eapply returns_mono; [apply IH; try lia; auto|].
    intros [[s' len'] st']; intros (? & ? & ? & ?);
    split; [lia|]; split; [lia|]; split; [lia|done].
  - split; [lia|]; split; [lia|]; split; [lia|done].
Qed.

Lemma city128_tail_returns fuel s len td st :
  0 ≤ len < 128 → 0 ≤ td → td < len + 32 → (128 ≤ td + 32 * (Z.of_nat fuel - 1)) →
  128 ≤ s → s + len ≤ Z.of_nat (length buf) → city_ok st →
  returns city_ok (city128_tail fuel buf s len td st).
Proof.
  revert td st. induction fuel as [|fuel IH]; intros td st Hlen Htd Htd' Hf Hs Hb Hst.
  { lia. }
  simpl. case_match eqn:Hc; [|done]. destruct st as [x y z v w].
  repeat (fetch_step || weak_step). apply IH; try lia. city_auto.
Qed.

Lemma CityHash128WithSeed_returns s len seed :
  0 ≤ s → 0 ≤ len < 2 ^ 64 → s + len ≤ Z.of_nat (length buf) → u128_ok seed →
  returns u128_ok (CityHash128WithSeed buf s len seed).
Proof.
  intros Hs Hlen Hb [Hs1 Hs2]. unfold CityHash128WithSeed.
  case_match; [apply CityMurmur_returns; try lia; done|]. repeat fetch_step.
  eapply returns_bind; [apply city128_loop_returns; try lia; city_auto|].
  intros [[s' len'] [x y z v w]] (Hl' & Hsl & Hs' & Hst).
  eapply returns_bind; [apply city128_tail_returns; try lia; city_auto|].
  intros [x' y' z' v' w'] Hst'. split; [apply w64_u64|apply HashLen16_w64].
Qed.
End Fetch.

Lemma CityHash128_returns buf s len :
  Forall byteb buf → 0 ≤ s → 0 ≤ len < 2 ^ 64 → s + len ≤ Z.of_nat (length buf) →
  returns u128_ok (CityHash128 buf s len).
Proof.
  intros HF Hs Hlen Hb. unfold CityHash128. repeat case_match.
  - eapply returns_bind; [apply Fetch64_returns; auto; lia|]. intros f0 Hf0.
    eapply returns_bind; [apply Fetch64_returns; auto; lia|]. intros f8 Hf8.
    apply CityHash128WithSeed_returns; try lia; [done|].
    split; simpl; auto with cword.
  - eapply returns_bind; [apply Fetch64_returns; auto; lia|]. intros f0 Hf0.
    eapply returns_bind; [apply Fetch64_returns; auto; lia|]. intros f8 Hf8.
    apply CityHash128WithSeed_returns; try done. split; simpl; auto with cword.
  - apply CityHash128WithSeed_returns; done.
Qed.

(** ** Mixing steps lose no information *)
Lemma ShiftMix_invol x : w64 x → ShiftMix (ShiftMix x) = x.
Proof.
  intros Hx. unfold ShiftMix. rewrite Z.shiftr_lxor, Z.shiftr_shiftr by lia.
  rewrite <-Z.lxor_assoc, (Z.lxor_assoc x), Z.lxor_nilpotent, Z.lxor_0_r.
  apply w64_bits in Hx as [Hx0 Hx].
  replace (x .>> (47 + 47)) with (Z.shiftr (x .>> 64) 30)
    by (by rewrite Z.shiftr_shiftr by lia).
  by rewrite Hx, Z.shiftr_0_l, Z.lxor_0_r.
Qed.

Lemma lxor_inj_l x y z : x .^ z = y .^ z → x = y.
Proof.
  intros H. apply (f_equal (λ t, t .^ z)) in H.
  by rewrite !Z.lxor_assoc, !Z.lxor_nilpotent, !Z.lxor_0_r in H.
Qed.

(** Multiplication by a word with a multiplicative inverse. *)
Lemma mul64_inj (m i x y : Z) :
  m *64 i = 1 → w64 x → w64 y → x *64 m = y *64 m → x = y.
Proof.
  intros Hi Hx Hy H. unfold u64 in *.
  apply (f_equal (λ t, (t * i) mod 2 ^ 64)) in H.
  rewrite !Z.mul_mod_idemp_l, <-!Z.mul_assoc in H by lia.
  rewrite <-(Z.mul_mod_idemp_r x), <-(Z.mul_mod_idemp_r y), Hi, !Z.mul_1_r in H by lia.
  by rewrite !Z.mod_small in H.
Qed.

Definition kMul_inv : Z := 0xdc56e6f5090b32d9.
Lemma kMul_unit : kMul *64 kMul_inv = 1.
Proof. vm_compute. reflexivity. Qed.

Lemma lxor_inj_r x y z : z .^ x = z .^ y → x = y.
Proof. rewrite !(Z.lxor_comm z). apply lxor_inj_l. Qed.

Lemma ShiftMix_inj x y : w64 x → w64 y → ShiftMix x = ShiftMix y → x = y.
Proof.
  intros Hx Hy H. apply (f_equal ShiftMix) in H. by rewrite !ShiftMix_invol in H.
Qed.

Lemma kMul_inj x y : w64 x → w64 y → x *64 kMul = y *64 kMul → x = y.
Proof. apply (mul64_inj _ _ _ _ kMul_unit). Qed.

(** [HashLen16 u v] in terms of the two mixing steps. *)
Lemma HashLen16_unfold u v :
  HashLen16 u v =
  ShiftMix ((v .^ ShiftMix ((u .^ v) *64 kMul)) *64 kMul) *64 kMul.
Proof. done. Qed.

Lemma HashLen16_outer_inj x y :
  w64 x → w64 y →
  ShiftMix (x *64 kMul) *64 kMul = ShiftMix (y *64 kMul) *64 kMul → x = y.
Proof.
  intros Hx Hy H. apply kMul_inj in H; [|auto with cword..].
  apply ShiftMix_inj in H; [|auto with cword..]. by apply kMul_inj.
Qed.

Lemma HashLen16_inj_l u1 u2 v :
  w64 u1 → w64 u2 → w64 v → HashLen16 u1 v = HashLen16 u2 v → u1 = u2.
Proof.
  intros H1 H2 Hv H. rewrite !HashLen16_unfold in H.
  apply HashLen16_outer_inj in H; [|auto 10 with cword..].
  apply lxor_inj_r, ShiftMix_inj, kMul_inj, lxor_inj_l in H; auto with cword.
Qed.

(** With the same [u ^ v] the hash depends injectively on [v]. *)
Lemma HashLen16_inj_xor u1 v1 u2 v2 :
  w64 u1 → w64 v1 → w64 u2 → w64 v2 →
  u1 .^ v1 = u2 .^ v2 → HashLen16 u1 v1 = HashLen16 u2 v2 → v1 = v2 ∧ u1 = u2.
Proof.
  intros Hu1 Hv1 Hu2 Hv2 Hx H. rewrite !HashLen16_unfold, Hx in H.
  apply HashLen16_outer_inj in H; [|auto 10 with cword..].
  apply lxor_inj_l in H as ->. split; [done|]. by apply lxor_inj_l in Hx.
Qed.

Lemma murmur_finish_inj a1 b1 c1 d1 a2 b2 c2 d2 :
  murmur_finish a1 b1 c1 d1 = murmur_finish a2 b2 c2 d2 →
  HashLen16 a1 c1 = HashLen16 a2 c2 ∧ HashLen16 d1 b1 = HashLen16 d2 b2.
Proof.
  unfold murmur_finish. intros [= Hx Hh].
  apply HashLen16_inj_xor in Hh as [??]; auto with cword.
  by rewrite !(Z.lxor_comm (HashLen16 _ _) (HashLen16 a1 c1)),
    !(Z.lxor_comm (HashLen16 _ _) (HashLen16 a2 c2)).
Qed.

(** [CityMurmur] on at most 7 bytes: only the 64-bit hash of the bytes
    enters. *)
Lemma CityMurmur_short buf s len seed :
  0 ≤ len < 8 →
  CityMurmur buf s len seed =
  (let! h := HashLen0to16 buf s len in
   let a := ShiftMix (first seed *64 k1) *64 k1 in
   let c := (second seed *64 k1) +64 h in
   Ok (murmur_finish a (second seed) c (ShiftMix (a +64 c)))).
Proof.
  intros Hlen. unfold CityMurmur, Uint128Low64, Uint128High64.
  rewrite (proj2 (Z.leb_le (len - 16) 0)), (proj2 (Z.leb_gt 8 len)) by lia.
  by destruct (HashLen0to16 buf s len).
Qed.

Lemma add64_inj_r c x y : w64 x → w64 y → c +64 x = c +64 y → x = y.
Proof.
  unfold w64, u64. intros Hx Hy H.
  rewrite <-(Z.mod_small x (2 ^ 64)), <-(Z.mod_small y (2 ^ 64)) by done.
  replace x with ((c + x) - c) by lia. replace y with ((c + y) - c) by lia.
  by rewrite <-(Zminus_mod_idemp_l (c + x)), H, Zminus_mod_idemp_l.
Qed.

Lemma CityHash128_short_inj buf1 buf2 len h :
  Forall byteb buf1 → Forall byteb buf2 → 0 ≤ len < 8 →
  len ≤ Z.of_nat (length buf1) → len ≤ Z.of_nat (length buf2) →
  CityHash128 buf1 0 len = Ok h → CityHash128 buf2 0 len = Ok h →
  HashLen0to16 buf1 0 len = HashLen0to16 buf2 0 len.
Proof.
  intros HF1 HF2 Hlen Hl1 Hl2. unfold CityHash128, CityHash128WithSeed.
  rewrite !(proj2 (Z.leb_gt 16 len)), !(proj2 (Z.leb_gt 8 len)),
    !(proj2 (Z.ltb_lt len 128)), !CityMurmur_short by lia.
  pose proof (HashLen0to16_returns buf1 HF1 0 len ltac:(lia) ltac:(lia) Hl1) as R1.
  pose proof (HashLen0to16_returns buf2 HF2 0 len ltac:(lia) ltac:(lia) Hl2) as R2.
  apply returns_Ok in R1 as (h1 & -> & W1). apply returns_Ok in R2 as (h2 & -> & W2).
  cbn [res_bind]. intros E1 E2. rewrite <-E1 in E2.
  apply (inj Ok), murmur_finish_inj in E2 as [_ Hb].
  apply HashLen16_inj_l, ShiftMix_inj in Hb; [|auto with cword..].
  do 2 apply add64_inj_r in Hb; auto with cword. by subst.
Qed.

(** ** Rotation *)
Lemma testbit_w64_high x i : w64 x → 64 ≤ i → Z.testbit x i = false.
Proof.
  intros Hx Hi. rewrite <-(Z.mod_small x (2 ^ 64)) by apply Hx.
  apply Z.mod_pow2_bits_high. lia.
Qed.

Lemma testbit_u64 z i : 0 ≤ i < 64 → Z.testbit (u64 z) i = Z.testbit z i.
Proof. intros. apply Z.mod_pow2_bits_low. lia. Qed.

(** ** Properties *)

(** The hashes are total and memory safe: on every byte string, and for
    every slice [s, s + len) of it, of any length, [CityHash64] and
    [CityHash128] terminate (the loop fuel [len] is always enough), read only
    bytes of the input and return 64-bit words; this covers the tail chunks
    of [CityHash128], which reach back before the end pointer of its loop. *)
Theorem CityHash_safe (buf : list Z) (s len : Z) :
  Forall byteb buf → 0 ≤ s → 0 ≤ len < 2 ^ 64 →
  s + len ≤ Z.of_nat (length buf) →
  (∃ h, CityHash64 buf s len = Ok h ∧ 0 ≤ h < 2 ^ 64) ∧
  ∃ h, CityHash128 buf s len = Ok h ∧ 0 ≤ first h < 2 ^ 64 ∧ 0 ≤ second h < 2 ^ 64.
Proof.
  intros HF Hs Hlen Hb. split; [by apply returns_Ok, CityHash64_returns|by apply returns_Ok, CityHash128_returns].
Qed.

Lemma CityHash_safe_witness :
  (∃ h, CityHash64 (replicate 300 9) 1 290 = Ok h ∧ 0 ≤ h < 2 ^ 64) ∧
  ∃ h, CityHash128 (replicate 300 9) 1 290 = Ok h ∧ 0 ≤ first h < 2 ^ 64 ∧ 0 ≤ second h < 2 ^ 64.
Proof.
  apply (CityHash_safe (replicate 300 9) 1 290); [|lia|lia|by vm_compute].
  apply Forall_replicate. split; lia.
Defined.

(** The 128-bit names of two integers (the 4-byte inputs that
    [mica_gen_keys] and the HERD client hash) coincide only when their
    64-bit [HashLen0to16] values coincide: the seeding and finishing steps
    of [CityHash128] lose no information. *)
Theorem CityHash128_int_collision (i j : Z) (h : uint128) :
  CityHash128 (le_bytes 4 i) 0 4 = Ok h →
  CityHash128 (le_bytes 4 j) 0 4 = Ok h →
  HashLen0to16 (le_bytes 4 i) 0 4 = HashLen0to16 (le_bytes 4 j) 0 4.
Proof.
  apply CityHash128_short_inj; try apply le_bytes_range;
    rewrite ?length_le_bytes; lia.
Qed.

Lemma CityHash128_int_collision_witness :
  HashLen0to16 (le_bytes 4 7) 0 4 = HashLen0to16 (le_bytes 4 (7 + 2 ^ 32)) 0 4.
Proof.
  eapply (CityHash128_int_collision 7 (7 + 2 ^ 32));
    vm_compute; reflexivity.
Defined.

(** [Rotate] is the rotation to the right by [shift] positions of a
    64-bit word: bit [i] of the result is bit [(i + shift) mod 64] of the
    argument, also for the shift 0 that the code treats apart. *)
Theorem Rotate_testbit (val shift i : Z) :
  0 ≤ val < 2 ^ 64 → 0 ≤ shift < 64 → 0 ≤ i < 64 →
  Z.testbit (Rotate val shift) i = Z.testbit val ((i + shift) mod 64).
Proof.
  intros Hv Hs Hi. unfold Rotate. case_match eqn:E.
  - apply Z.eqb_eq in E as ->. by rewrite Z.add_0_r, Z.mod_small by lia.
  - apply Z.eqb_neq in E. rewrite Z.lor_spec, testbit_u64 by lia.
    rewrite Z.shiftr_spec by lia.
    destruct (decide (i + shift < 64)) as [Hlt|Hge].
    + rewrite Z.mod_small, Z.shiftl_spec_low, orb_false_r by lia. done.
    + rewrite testbit_w64_high by (done || lia). simpl.
      rewrite Z.shiftl_spec by lia. f_equal.
      apply Zmod_unique with 1; lia.
Qed.

Lemma Rotate_testbit_witness :
  Z.testbit (Rotate 5 37) 27 = Z.testbit 5 ((27 + 37) mod 64).
Proof. apply (Rotate_testbit 5 37 27); lia. Defined.
