(* ===== verification/Mica.v ===== *)
(** * The MICA key-value store (src/mica/mica.h, src/mica/mica.c)

    A lossy bucketed index over a circular log.  The state is the record
    [mica_kv]; the log is byte-addressed memory and a response carries the
    log offset that the C code returns as [val_ptr], so that a later write
    to the log is seen through it.  The counters of operations are
    unbounded here ([long long] in C). *)

From stdpp Require Import base gmap list numbers.
From Stdlib Require Import ZArith Lia.
From S2P Require Import Prelude City.

Definition MICA_OP_GET : Z := 111.
Definition MICA_OP_PUT : Z := 112.
Definition MICA_MAX_BATCH_SIZE : Z := 32.
Definition MICA_RESP_PUT_SUCCESS : Z := 113.
Definition MICA_RESP_GET_SUCCESS : Z := 114.
Definition MICA_RESP_GET_FAIL : Z := 115.
Definition sizeof_mica_key : Z := 16.
Definition MICA_MAX_VALUE : Z := 64 - (sizeof_mica_key + 1 + 1).
Definition MICA_LOG_BITS : Z := 40.
Definition M_2 : Z := 2097152.
Definition M_16 : Z := 16777216.
Definition M_1024 : Z := 1073741824.

(** A 16-byte key as its two 64-bit words; the bit-fields [bkt], [server]
    and [tag] are bits 0-31, 32-47 and 48-63 of the second word. *)
Record mica_key : Type := Key { key_w0 : Z; key_w1 : Z }.
#[global] Instance mica_key_eq_dec : EqDecision mica_key.
Proof. solve_decision. Defined.
#[global] Instance mica_key_countable : Countable mica_key.
Proof.
  refine (inj_countable' (λ k, (key_w0 k, key_w1 k)) (λ p, Key p.1 p.2) _).
  by intros [].
Defined.

Definition key_bkt (k : mica_key) : Z := key_w1 k .& (2 ^ 32 - 1).
Definition key_server (k : mica_key) : Z := (key_w1 k .>> 32) .& (2 ^ 16 - 1).
Definition key_tag (k : mica_key) : Z := (key_w1 k .>> 48) .& (2 ^ 16 - 1).

(** [value] is the array of [MICA_MAX_VALUE] bytes. *)
Record mica_op : Type := Op
  { op_key : mica_key; op_opcode : Z; op_val_len : Z; op_value : list Z }.

(** [val_ptr] is an offset into the log, [None] for NULL. *)
Record mica_resp : Type := Resp
  { resp_type : Z; resp_val_len : Z; resp_val_ptr : option Z }.

Record mica_slot : Type := Slot
  { slot_in_use : Z; slot_tag : Z; slot_offset : Z }.
#[global] Instance mica_slot_eq_dec : EqDecision mica_slot.
Proof. solve_decision. Defined.

(** A bucket is an array of 8 slots. *)
Definition mica_bkt : Type := list mica_slot.

Record mica_kv : Type := Kv
  { ht_index : list (list mica_slot);
    ht_log : gmap Z Z;
    instance_id : Z; node_id : Z;
    num_bkts : Z; bkt_mask : Z;
    log_cap : Z; log_mask : Z;
    log_head : Z;
    num_get_op : Z; num_get_fail : Z; num_put_op : Z; num_index_evictions : Z }.

Definition set_index (kv : mica_kv) (b : list (list mica_slot)) : mica_kv :=
  Kv b (ht_log kv) (instance_id kv) (node_id kv) (num_bkts kv) (bkt_mask kv)
     (log_cap kv) (log_mask kv) (log_head kv) (num_get_op kv) (num_get_fail kv)
     (num_put_op kv) (num_index_evictions kv).
Definition set_log (kv : mica_kv) (m : gmap Z Z) : mica_kv :=
  Kv (ht_index kv) m (instance_id kv) (node_id kv) (num_bkts kv) (bkt_mask kv)
     (log_cap kv) (log_mask kv) (log_head kv) (num_get_op kv) (num_get_fail kv)
     (num_put_op kv) (num_index_evictions kv).
Definition set_head (kv : mica_kv) (h : Z) : mica_kv :=
  Kv (ht_index kv) (ht_log kv) (instance_id kv) (node_id kv) (num_bkts kv) (bkt_mask kv)
     (log_cap kv) (log_mask kv) h (num_get_op kv) (num_get_fail kv)
     (num_put_op kv) (num_index_evictions kv).
Definition add_stats (kv : mica_kv) (get fail put evict : Z) : mica_kv :=
  Kv (ht_index kv) (ht_log kv) (instance_id kv) (node_id kv) (num_bkts kv) (bkt_mask kv)
     (log_cap kv) (log_mask kv) (log_head kv) (num_get_op kv + get) (num_get_fail kv + fail)
     (num_put_op kv + put) (num_index_evictions kv + evict).

(** ** Initialisation *)
Definition is_power_of_2 (x : Z) : bool :=
  (x =? 1) || (x =? 2) || (x =? 4) || (x =? 8) || (x =? 16) || (x =? 32) ||
  (x =? 64) || (x =? 128) || (x =? 256) || (x =? 512) || (x =? 1024) ||
  (x =? 2048) || (x =? 4096) || (x =? 8192) || (x =? 16384) || (x =? 32768) ||
  (x =? 65536) || (x =? 131072) || (x =? 262144) || (x =? 524288) ||
  (x =? 1048576) || (x =? 2097152) || (x =? 4194304) || (x =? 8388608) ||
  (x =? 16777216) || (x =? 33554432) || (x =? 67108864) || (x =? 134217728) ||
  (x =? 268435456) || (x =? 536870912) || (x =? 1073741824).

Definition clear_in_use (s : mica_slot) : mica_slot :=
  Slot 0 (slot_tag s) (slot_offset s).

(** [shm_index] and [shm_log] are the contents of the two buffers that
    [hrd_malloc_socket] returns; the loops clear [in_use] in each slot of
    the first [nb] buckets. *)
Definition mica_init (shm_index : list (list mica_slot)) (shm_log : gmap Z Z)
    (inst node nb cap : Z) : res mica_kv :=
  cassert ((node =? 0) || (node =? 1)) ;!
  cassert (is_power_of_2 nb && (nb <=? M_16)) ;!
  cassert ((0 <? cap) && (cap <=? M_1024) && (cap mod M_2 =? 0) && is_power_of_2 cap) ;!
  cassert (24 <=? MICA_LOG_BITS) ;!
  let index :=
    map (map clear_in_use) (take (Z.to_nat nb) shm_index)
    ++ drop (Z.to_nat nb) shm_index in
  Ok (Kv index shm_log inst node nb (nb - 1) cap (cap - 1) 0 0 0 0 0).

(** ** Insertion *)

(** The loop over the 8 slots: there is no [break], the last match wins. *)
Fixpoint find_slot_to_use (tag : Z) (slots : list mica_slot) (i acc : Z) : Z :=
  match slots with
  | [] => acc
  | s :: slots =>
      find_slot_to_use tag slots (i + 1)
        (if (slot_tag s =? tag) || (slot_in_use s =? 0) then i else acc)
  end.

(** The bytes of a [struct mica_op]. *)
Definition op_bytes (op : mica_op) : list Z :=
  le_bytes 8 (key_w0 (op_key op)) ++ le_bytes 8 (key_w1 (op_key op)) ++
  [op_opcode op; op_val_len op] ++ op_value op.

(** Second half of [mica_insert_one]: paste the key-value into the log and
    move the head. *)
Definition paste_entry (kv : mica_kv) (op : mica_op) : res mica_kv :=
  let log_ptr := log_head kv .& log_mask kv in
  let len_to_copy := sizeof_mica_key + 1 + 1 + op_val_len op in
  cassert (len_to_copy + 8 <? (2 ^ 40 -64 log_head kv)) ;!
  in_bounds ((len_to_copy <=? 64) && (log_ptr + len_to_copy <=? log_cap kv)) ;!
  let log := mwrite_n (ht_log kv) log_ptr (take (Z.to_nat len_to_copy) (op_bytes op)) in
  let head := log_head kv +64 len_to_copy in
  let head := (head +64 7) .& u64 (Z.lnot 7) in
  let head :=
    if (log_cap kv -64 head) <=? MICA_MAX_VALUE + 32
    then (head +64 log_cap kv) .& u64 (Z.lnot (log_mask kv))
    else head in
  Ok (set_head (set_log kv log) head).

Definition mica_insert_one (kv : mica_kv) (op : mica_op) : res mica_kv :=
  let bkt := key_bkt (op_key op) .& bkt_mask kv in
  in_bounds (bkt <? Z.of_nat (length (ht_index kv))) ;!
  let slots := default [] (ht_index kv !! Z.to_nat bkt) in
  let tag := key_tag (op_key op) in
  let found := find_slot_to_use tag slots 0 (-1) in
  let slot_to_use := if found =? -1 then tag .& 7 else found in
  let kv := add_stats kv 0 0 1 (if found =? -1 then 1 else 0) in
  let slot := Slot 1 (tag mod 2 ^ 23) (log_head kv mod 2 ^ 40) in
  let kv := set_index kv
    (<[Z.to_nat bkt := <[Z.to_nat slot_to_use := slot]> slots]> (ht_index kv)) in
  paste_entry kv op.

(** ** Batched operations *)

(** First two loops for one request: the first in-use slot with the tag of
    the key, and the test that its log entry has not been overwritten. *)
Fixpoint find_tag (tag : Z) (slots : list mica_slot) : option mica_slot :=
  match slots with
  | [] => None
  | s :: slots =>
      if (slot_in_use s =? 1) && (slot_tag s =? tag) then Some s
      else find_tag tag slots
  end.

Definition lookup_kv_ptr (kv : mica_kv) (op : mica_op) : option Z :=
  let bkt := key_bkt (op_key op) .& bkt_mask kv in
  let tag := key_tag (op_key op) in
  match find_tag tag (default [] (ht_index kv !! Z.to_nat bkt)) with
  | None => None
  | Some s =>
      let log_offset := slot_offset s .& log_mask kv in
      if log_cap kv <=? (log_head kv -64 slot_offset s) then None
      else Some log_offset
  end.

(** Loads from the log, as [struct mica_op] at [p]. *)
Definition log_load (kv : mica_kv) (p : Z) (n : nat) : res (list Z) :=
  in_bounds ((0 <=? p) && (p + Z.of_nat n <=? log_cap kv)) ;!
  Ok (mread_n (ht_log kv) p n).

Definition log_key (kv : mica_kv) (p : Z) : res mica_key :=
  let! w0 := log_load kv p 8 in
  let! w1 := log_load kv (p + 8) 8 in
  Ok (Key (le_word w0) (le_word w1)).

Definition log_val_len (kv : mica_kv) (p : Z) : res Z :=
  let! b := log_load kv (p + 17) 1 in Ok (le_word b).

(** The body of the third loop. *)
Definition batch_step (kv : mica_kv) (op : mica_op) (kv_ptr : option Z)
    : res (mica_kv * mica_resp) :=
  let! key_in_store :=
    match kv_ptr with
    | None => Ok None
    | Some p =>
        let! k := log_key kv p in
        Ok (if decide (k = op_key op) then Some p else None)
    end in
  match key_in_store with
  | Some p =>
      let! val_len := log_val_len kv p in
      if op_opcode op =? MICA_OP_GET then
        Ok (add_stats kv 1 0 0 0, Resp MICA_RESP_GET_SUCCESS val_len (Some (p + 18)))
      else
        cassert (op_val_len op =? val_len) ;!
        in_bounds ((val_len <=? MICA_MAX_VALUE) && (p + 18 + val_len <=? log_cap kv)) ;!
        Ok (set_log (add_stats kv 0 0 1 0)
              (mwrite_n (ht_log kv) (p + 18) (take (Z.to_nat val_len) (op_value op))),
            Resp MICA_RESP_PUT_SUCCESS 0 None)
  | None =>
      if op_opcode op =? MICA_OP_GET then
        Ok (add_stats kv 0 1 0 0, Resp MICA_RESP_GET_FAIL 0 None)
      else
        let! kv := mica_insert_one kv op in
        Ok (kv, Resp MICA_RESP_PUT_SUCCESS 0 None)
  end.

Fixpoint batch_loop (kv : mica_kv) (ops : list (mica_op * option Z))
    : res (mica_kv * list mica_resp) :=
  match ops with
  | [] => Ok (kv, [])
  | (op, p) :: ops =>
      let! (kv, r) := batch_step kv op p in
      let! (kv, rs) := batch_loop kv ops in
      Ok (kv, r :: rs)
  end.

(** The on-stack arrays have [MICA_MAX_BATCH_SIZE] entries. *)
Definition mica_batch_op (kv : mica_kv) (ops : list mica_op)
    : res (mica_kv * list mica_resp) :=
  in_bounds (Z.of_nat (length ops) <=? MICA_MAX_BATCH_SIZE) ;!
  batch_loop kv (map (λ op, (op, lookup_kv_ptr kv op)) ops).

(** ** Population *)
Fixpoint gen_keys_loop (n : nat) (i : Z) : res (list uint128) :=
  match n with
  | O => Ok []
  | S n =>
      let! h := CityHash128 (le_bytes 4 i) 0 4 in
      let! hs := gen_keys_loop n (i + 1) in
      Ok (h :: hs)
  end.

Definition mica_gen_keys (n : Z) : res (list uint128) :=
  cassert ((0 <? n) && (n <=? M_1024 / 16)) ;!
  gen_keys_loop (Z.to_nat n) 0.

(** [junk] is what the stack variable [op.value] holds beyond [val_len]. *)
Definition populate_op (junk : list Z) (val_len : Z) (k : uint128) : mica_op :=
  let val := u8 (second k .& 255) in
  Op (Key (first k) (second k)) MICA_OP_PUT (u8 val_len)
     (replicate (Z.to_nat val_len) val ++ drop (Z.to_nat val_len) junk).

Fixpoint insert_all (kv : mica_kv) (ops : list mica_op) : res mica_kv :=
  match ops with
  | [] => Ok kv
  | op :: ops => let! kv := mica_insert_one kv op in insert_all kv ops
  end.

Definition mica_populate_fixed_len (junk : list Z) (kv : mica_kv) (n val_len : Z)
    : res mica_kv :=
  cassert (0 <? n) ;!
  cassert ((0 <? val_len) && (val_len <=? MICA_MAX_VALUE)) ;!
  cassert ((num_put_op kv =? 0) && (num_index_evictions kv =? 0)) ;!
  let! key_arr := mica_gen_keys n in
  let! kv := insert_all kv (map (populate_op junk val_len) key_arr) in
  cassert (num_put_op kv =? n) ;!
  Ok kv.
