(* ===== verification/MicaProof.v ===== *)
(** * Invariants of the MICA store

    The geometry of index and log ([kv_wf]), the shape of a bucket
    ([bkt_ok]) and the agreement of index and log with an abstract map from
    keys to the value last put ([kv_inv]), with the lemmas that insertion
    and batched operations preserve them. *)

From stdpp Require Import base gmap list numbers.
From Stdlib Require Import ZArith Lia.
From S2P Require Import Prelude City Mica.

(** ** Geometry *)
Record kv_wf (kv : mica_kv) : Prop := {
  wf_bkts : ∃ n, 0 ≤ n ≤ 24 ∧ num_bkts kv = 2 ^ n;
  wf_len : Z.of_nat (length (ht_index kv)) = num_bkts kv;
  wf_bmask : bkt_mask kv = num_bkts kv - 1;
  wf_cap : ∃ m, 21 ≤ m ≤ 30 ∧ log_cap kv = 2 ^ m;
  wf_lmask : log_mask kv = log_cap kv - 1;
  wf_head : 0 ≤ log_head kv < 2 ^ 40;
  wf_align : log_head kv mod 8 = 0;
  wf_lap : log_head kv + 78 < log_cap kv ∨ log_cap kv ≤ log_head kv
}.

Lemma pow2_bound m a b : 0 ≤ a ≤ m → m ≤ b → 2 ^ a ≤ 2 ^ m ≤ 2 ^ b.
Proof. intros. split; apply Z.pow_le_mono_r; lia. Qed.

Lemma wf_cap_bounds kv : kv_wf kv → 2 ^ 21 ≤ log_cap kv ≤ 2 ^ 30.
Proof. intros [_ _ _ (m & ? & ->) _ _ _ _]. apply pow2_bound; lia. Qed.

Lemma wf_cap_mod64 kv : kv_wf kv → log_cap kv mod 64 = 0.
Proof.
  intros [_ _ _ (m & ? & ->) _ _ _ _].
  replace m with (6 + (m - 6)) by lia. rewrite Z.pow_add_r by lia.
  by rewrite Z.mul_comm, Z.mod_mul.
Qed.

Lemma wf_phys kv x : kv_wf kv → x .& log_mask kv = x mod log_cap kv.
Proof.
  intros [_ _ _ (m & ? & Hm) Hl _ _ _]. rewrite Hl, Hm. apply u64_land_mask. lia.
Qed.

(** The bucket of a key. *)
Definition bkt_of (kv : mica_kv) (k : mica_key) : Z := key_bkt k .& bkt_mask kv.

Lemma bkt_of_range kv k : kv_wf kv → 0 ≤ bkt_of kv k < num_bkts kv.
Proof.
  intros [(n & ? & Hn) _ Hb _ _ _ _ _]. unfold bkt_of.
  rewrite Hb, Hn, u64_land_mask by lia. apply Z.mod_pos_bound. lia.
Qed.

Lemma bkt_of_lookup kv k : kv_wf kv → is_Some (ht_index kv !! Z.to_nat (bkt_of kv k)).
Proof.
  intros Hwf. apply lookup_lt_is_Some.
  pose proof (bkt_of_range kv k Hwf). pose proof (wf_len _ Hwf). lia.
Qed.

Lemma key_tag_range k : 0 ≤ key_tag k < 2 ^ 16.
Proof. unfold key_tag. rewrite u64_land_mask by lia. apply Z.mod_pos_bound. lia. Qed.

(** ** Buckets *)
Definition bkt_ok (bk : list mica_slot) : Prop :=
  length bk = 8%nat ∧
  (∀ i s, bk !! i = Some s → slot_in_use s = 0 ∨ slot_in_use s = 1) ∧
  (∀ i j si sj, (i < j)%nat → bk !! i = Some si → bk !! j = Some sj →
     slot_in_use si = 1 → slot_in_use sj = 1) ∧
  (∀ i j si sj, bk !! i = Some si → bk !! j = Some sj →
     slot_in_use si = 1 → slot_in_use sj = 1 → slot_tag si = slot_tag sj → i = j).

Definition slot_match (tag : Z) (s : mica_slot) : bool :=
  (slot_tag s =? tag) || (slot_in_use s =? 0).

(** The loop without [break] returns the last matching position. *)
Lemma find_slot_spec tag slots i acc :
  let r := find_slot_to_use tag slots i acc in
  (r = acc ∧ (∀ j s, slots !! j = Some s → slot_match tag s = false)) ∨
  (∃ j s, r = i + Z.of_nat j ∧ slots !! j = Some s ∧ slot_match tag s = true ∧
     ∀ j' s', (j < j')%nat → slots !! j' = Some s' → slot_match tag s' = false).
Proof.
  revert i acc. induction slots as [|s slots IH]; intros i acc r.
  { left. split; [done|]. intros j s. by rewrite lookup_nil. }
  subst r. simpl. fold (slot_match tag s).
  destruct (IH (i + 1) (if slot_match tag s then i else acc))
    as [[Hr Hno]|(j & s' & Hr & Hj & Hm & Hlast)].
  - rewrite Hr. destruct (slot_match tag s) eqn:Hs.
    + right. exists 0%nat, s. repeat split; auto; [lia|].
      intros [|j'] s' ? Hj'; [lia|]. eauto.
    + left. split; [done|]. intros [|j] s'' Hj; simpl in Hj; [by simplify_eq|eauto].
  - right. exists (S j), s'. rewrite Hr. repeat split; auto; [lia|].
    intros [|j'] s'' ? Hj'; [lia|]. apply (Hlast j'); [lia|done].
Qed.

Lemma slot_match_false tag s :
  slot_match tag s = false ↔ slot_tag s ≠ tag ∧ slot_in_use s ≠ 0.
Proof. unfold slot_match. rewrite orb_false_iff, !Z.eqb_neq. done. Qed.

(** The position that [mica_insert_one] writes. *)
Definition chosen_slot (tag : Z) (bk : list mica_slot) : nat :=
  let found := find_slot_to_use tag bk 0 (-1) in
  Z.to_nat (if found =? -1 then tag .& 7 else found).

Lemma chosen_slot_spec tag bk :
  bkt_ok bk → 0 ≤ tag →
  (chosen_slot tag bk < 8)%nat ∧
  (∀ j s, (chosen_slot tag bk < j)%nat → bk !! j = Some s → slot_in_use s = 1) ∧
  (∀ j s, j ≠ chosen_slot tag bk → bk !! j = Some s → slot_in_use s = 1 →
     slot_tag s ≠ tag).
Proof.
  intros (Hlen & Hbit & Hsuf & Huniq) Htag. unfold chosen_slot.
  destruct (find_slot_spec tag bk 0 (-1))
    as [[Hr Hno]|(j & s & Hr & Hj & Hm & Hlast)]; rewrite Hr.
  - simpl. change 7 with (2 ^ 3 - 1). rewrite u64_land_mask by lia.
    change (2 ^ 3) with 8. pose proof (Z.mod_pos_bound tag 8 ltac:(done)).
    split; [lia|]. split.
    + intros j s _ Hj. pose proof (Hno j s Hj) as Hn.
      apply slot_match_false in Hn as [_ Hu]. destruct (Hbit _ _ Hj); done.
    + intros j s _ Hj _. by apply Hno, slot_match_false in Hj as [? _].
  - rewrite (proj2 (Z.eqb_neq (0 + Z.of_nat j) (-1))) by lia.
    rewrite Z.add_0_l, Nat2Z.id.
    assert (j < 8)%nat by (rewrite <-Hlen; by eapply lookup_lt_Some).
    assert (Hused : ∀ j' s', (j < j')%nat → bk !! j' = Some s' →
      slot_tag s' ≠ tag ∧ slot_in_use s' = 1).
    { intros j' s' Hlt Hj'. pose proof (Hlast j' s' Hlt Hj') as Hn.
      apply slot_match_false in Hn as [? ?]. destruct (Hbit _ _ Hj'); done. }
    split; [done|]. split; [intros j' s' ??; by eapply Hused|].
    intros j' s' Hne Hj' Hin Heq. destruct (decide (j < j')%nat).
    { by destruct (Hused j' s'). }
    assert (j' < j)%nat by lia.
    assert (slot_in_use s = 1) by (eapply (Hsuf j' j); eauto).
    unfold slot_match in Hm. apply orb_true_iff in Hm as [Hm|Hm];
      apply Z.eqb_eq in Hm; [|lia].
    apply Hne. eapply (Huniq j' j); eauto; congruence.
Qed.

Lemma bkt_ok_insert tag bk s :
  bkt_ok bk → 0 ≤ tag → slot_in_use s = 1 → slot_tag s = tag →
  bkt_ok (<[chosen_slot tag bk := s]> bk).
Proof.
  intros Hok Htag Hs Ht. destruct (chosen_slot_spec tag bk Hok Htag) as (Hc & Hup & Hother).
  destruct Hok as (Hlen & Hbit & Hsuf & Huniq).
  split; [by rewrite length_insert|]. split; [|split].
  - intros i s' Hi. apply list_lookup_insert_Some in Hi as [(? & ? & _)|[_ Hi]];
      [naive_solver|eauto].
  - intros i j si sj Hij Hi Hj Hin.
    apply list_lookup_insert_Some in Hj as [(? & -> & _)|[Hne Hj]]; [done|].
    apply list_lookup_insert_Some in Hi as [(? & ? & _)|[_ Hi]]; [|eauto].
    subst. eapply Hup; eauto.
  - intros i j si sj Hi Hj Hini Hinj Htags.
    apply list_lookup_insert_Some in Hi as [(? & ? & _)|[Hni Hi]];
      apply list_lookup_insert_Some in Hj as [(? & ? & _)|[Hnj Hj]]; subst; eauto.
    + exfalso. eapply (Hother j); eauto.
    + exfalso. eapply (Hother i); eauto.
Qed.

(** ** Log entries *)

(** The bytes of an entry for [k] with value [v]. *)
Definition entry_bytes (k : mica_key) (opc : Z) (v : list Z) : list Z :=
  le_bytes 8 (key_w0 k) ++ le_bytes 8 (key_w1 k) ++ [opc; Z.of_nat (length v)] ++ v.

Lemma length_entry_bytes k opc v : length (entry_bytes k opc v) = (18 + length v)%nat.
Proof. unfold entry_bytes. rewrite !length_app, !length_le_bytes. done. Qed.

Definition key_ok (k : mica_key) : Prop := w64 (key_w0 k) ∧ w64 (key_w1 k).

(** Requests that the callers issue: 64-bit key words, at most
    [MICA_MAX_VALUE] bytes of value, a full value array. *)
Definition op_ok (op : mica_op) : Prop :=
  key_ok (op_key op) ∧ 0 ≤ op_val_len op ≤ MICA_MAX_VALUE ∧
  Z.of_nat (length (op_value op)) = MICA_MAX_VALUE.

(** The value that a request carries. *)
Definition op_val (op : mica_op) : list Z :=
  take (Z.to_nat (op_val_len op)) (op_value op).

Lemma length_op_val op : op_ok op → Z.of_nat (length (op_val op)) = op_val_len op.
Proof.
  intros (_ & ? & ?). unfold op_val. rewrite length_take.
  unfold MICA_MAX_VALUE, sizeof_mica_key in *. lia.
Qed.

Lemma op_bytes_entry op :
  op_ok op →
  take (Z.to_nat (sizeof_mica_key + 1 + 1 + op_val_len op)) (op_bytes op) =
  entry_bytes (op_key op) (op_opcode op) (op_val op).
Proof.
  intros Hop. pose proof (length_op_val op Hop) as Hl. destruct Hop as (_ & Hv & _).
  unfold op_bytes, entry_bytes, sizeof_mica_key. rewrite Hl.
  replace (Z.to_nat (16 + 1 + 1 + op_val_len op))
    with (8 + (8 + (2 + Z.to_nat (op_val_len op))))%nat by lia.
  rewrite !take_app_add' by (symmetry; apply length_le_bytes). done.
Qed.

(** Reading an entry back. *)
Section ReadEntry.
Context (m : gmap Z Z) (p : Z) (k : mica_key) (opc : Z) (v : list Z).
Context (Hm : mread_n m p (18 + length v) = entry_bytes k opc v).

Lemma entry_split :
  mread_n m p 8 = le_bytes 8 (key_w0 k) ∧
  mread_n m (p + 8) 8 = le_bytes 8 (key_w1 k) ∧
  mread_n m (p + 17) 1 = [Z.of_nat (length v)] ∧
  mread_n m (p + 18) (length v) = v.
Proof.
  assert (H1 := Hm). unfold entry_bytes in H1.
  replace (18 + length v)%nat with (8 + (8 + (1 + (1 + length v))))%nat in H1 by lia.
  rewrite !mread_n_app in H1.
  change (Z.of_nat 8) with 8 in H1. change (Z.of_nat 1) with 1 in H1.
  apply app_inj_1 in H1 as [H0 H1]; [|by rewrite length_mread_n, length_le_bytes].
  apply app_inj_1 in H1 as [H8 H1]; [|by rewrite length_mread_n, length_le_bytes].
  simpl in H1. injection H1 as _ H17 Hv.
  replace (p + 8 + 8 + 1) with (p + 17) in H17 by lia.
  replace (p + 8 + 8 + 1 + 1) with (p + 18) in Hv by lia.
  repeat split; auto. simpl. by rewrite H17.
Qed.
End ReadEntry.

(** ** What one insertion does *)

(** The head after appending [n] bytes: the next multiple of 8, except that
    the first lap ends 78 bytes before the physical end. *)
Definition next_head (kv : mica_kv) (n : Z) : Z :=
  let h := log_head kv + 8 * ((n + 7) / 8) in
  if (log_head kv <? log_cap kv) && (log_cap kv - h <=? 78) then log_cap kv else h.

Lemma round8 h n : h mod 8 = 0 → h + n + 7 - (h + n + 7) mod 8 = h + 8 * ((n + 7) / 8).
Proof.
  intros Hh. pose proof (Z.div_mod h 8 ltac:(done)).
  pose proof (Z.div_mod (n + 7) 8 ltac:(done)).
  replace (h + n + 7) with (n + 7 + (h / 8) * 8) by lia.
  rewrite Z.mod_add by done. lia.
Qed.

Lemma code_next_head kv n :
  kv_wf kv → 18 ≤ n ≤ 64 → log_head kv + n + 8 < 2 ^ 40 →
  (let head := log_head kv +64 n in
   let head := (head +64 7) .& u64 (Z.lnot 7) in
   if (log_cap kv -64 head) <=? MICA_MAX_VALUE + 32
   then (head +64 log_cap kv) .& u64 (Z.lnot (log_mask kv))
   else head) = next_head kv n.
Proof.
  intros Hwf Hn Hb. cbn zeta. pose proof (wf_cap_bounds _ Hwf) as Hcap.
  pose proof (wf_head _ Hwf) as Hh. pose proof (wf_lap _ Hwf) as Hlap.
  rewrite (u64_small (log_head kv + n)), (u64_small (log_head kv + n + 7)) by lia.
  change (Z.lnot 7) with (Z.lnot (2 ^ 3 - 1)). rewrite u64_land_lnot_mask by lia.
  change (2 ^ 3) with 8. rewrite round8 by apply (wf_align _ Hwf).
  unfold next_head. set (h := log_head kv + 8 * ((n + 7) / 8)).
  assert (Hh8 : log_head kv + n ≤ h ≤ log_head kv + n + 7 ∧ h ≤ log_head kv + 64).
  { pose proof (Z.div_mod (n + 7) 8 ltac:(done)).
    pose proof (Z.mod_pos_bound (n + 7) 8 ltac:(done)). subst h.
    assert ((n + 7) / 8 < 9) by (apply Z.div_lt_upper_bound; lia).
    assert (0 ≤ (n + 7) / 8) by (apply Z.div_pos; lia). lia. }
  change (MICA_MAX_VALUE + 32) with 78.
  destruct Hlap as [Hlap|Hlap].
  - rewrite (proj2 (Z.ltb_lt _ _)), andb_true_l by lia.
    rewrite (u64_small (log_cap kv - h)) by lia. case_match; [|done].
    destruct (wf_cap _ Hwf) as (m & Hm & Hc). rewrite (wf_lmask _ Hwf), Hc.
    rewrite u64_small, u64_land_lnot_mask by lia. rewrite <-Hc.
    replace (h + log_cap kv) with (h + 1 * log_cap kv) by lia.
    rewrite Z.mod_add, Z.mod_small by lia. lia.
  - rewrite (proj2 (Z.ltb_ge _ _)), andb_false_l by lia.
    unfold u64 at 1. rewrite <-(Z.mod_add _ 1) by done.
    rewrite Z.mod_small by lia. rewrite (proj2 (Z.leb_gt _ _)) by lia. done.
Qed.

Lemma next_head_facts kv n :
  kv_wf kv → 18 ≤ n ≤ 64 →
  log_head kv + n ≤ next_head kv n ∧ next_head kv n mod 8 = 0 ∧
  next_head kv n - log_head kv < log_cap kv ∧
  (next_head kv n + 78 < log_cap kv ∨ log_cap kv ≤ next_head kv n) ∧
  next_head kv n ≤ Z.max (log_cap kv) (log_head kv + n + 7).
Proof.
  intros Hwf Hn. pose proof (wf_cap_bounds _ Hwf). pose proof (wf_cap_mod64 _ Hwf) as Hc8.
  pose proof (wf_head _ Hwf) as Hh. pose proof (wf_lap _ Hwf) as Hlap.
  pose proof (wf_align _ Hwf) as Ha. unfold next_head.
  pose proof (Z.div_mod (n + 7) 8 ltac:(done)).
  pose proof (Z.mod_pos_bound (n + 7) 8 ltac:(done)).
  assert ((n + 7) / 8 < 9) by (apply Z.div_lt_upper_bound; lia).
  assert (Hm8 : (log_head kv + 8 * ((n + 7) / 8)) mod 8 = 0).
  { rewrite Z.mul_comm, Z.mod_add by done. done. }
  assert (Hcm : log_cap kv mod 8 = 0).
  { apply Z.mod_divide; [done|]. apply Z.divide_trans with 64; [by exists 8|].
    by apply Z.mod_divide. }
  destruct ((log_head kv <? log_cap kv) && _) eqn:E.
  - apply andb_true_iff in E as [E1 E2]. apply Z.ltb_lt in E1. apply Z.leb_le in E2. lia.
  - apply andb_false_iff in E as [E|E]; [apply Z.ltb_ge in E|apply Z.leb_gt in E]; lia.
Qed.

(** The outcome of an insertion, field by field. *)
Record inserted (kv : mica_kv) (op : mica_op) (bk : list mica_slot) (kv' : mica_kv) : Prop := {
  ins_index : ht_index kv' =
    <[Z.to_nat (bkt_of kv (op_key op)) :=
      <[chosen_slot (key_tag (op_key op)) bk :=
        Slot 1 (key_tag (op_key op)) (log_head kv)]> bk]> (ht_index kv);
  ins_log : ht_log kv' =
    mwrite_n (ht_log kv) (log_head kv mod log_cap kv)
      (entry_bytes (op_key op) (op_opcode op) (op_val op));
  ins_head : log_head kv' = next_head kv (18 + op_val_len op);
  ins_cfg : num_bkts kv' = num_bkts kv ∧ bkt_mask kv' = bkt_mask kv ∧
    log_cap kv' = log_cap kv ∧ log_mask kv' = log_mask kv;
  ins_stats : num_put_op kv' = num_put_op kv + 1 ∧
    num_get_op kv' = num_get_op kv ∧ num_get_fail kv' = num_get_fail kv ∧
    num_index_evictions kv' = num_index_evictions kv +
      (if find_slot_to_use (key_tag (op_key op)) bk 0 (-1) =? -1 then 1 else 0)
}.

(** The two conditions under which the code goes through. *)
Definition insert_fits (kv : mica_kv) (op : mica_op) : Prop :=
  log_head kv + 18 + op_val_len op + 8 < 2 ^ 40 ∧
  log_head kv mod log_cap kv + 18 + op_val_len op ≤ log_cap kv.

(** [paste_entry] depends on index and statistics only by keeping them. *)
Lemma paste_entry_cases kv kv0 op :
  kv_wf kv0 → op_ok op →
  log_head kv = log_head kv0 → log_cap kv = log_cap kv0 → log_mask kv = log_mask kv0 →
  (insert_fits kv0 op ∧
   paste_entry kv op =
     Ok (set_head (set_log kv (mwrite_n (ht_log kv) (log_head kv0 mod log_cap kv0)
           (entry_bytes (op_key op) (op_opcode op) (op_val op))))
          (next_head kv0 (18 + op_val_len op)))) ∨
  (¬ insert_fits kv0 op ∧
   paste_entry kv op =
     Fault (if 18 + op_val_len op + 8 <? 2 ^ 40 - log_head kv0
            then OutOfBounds else AssertFail)).
Proof.
  intros Hwf Hop Hh Hc Hm. pose proof (wf_head _ Hwf) as Hr.
  pose proof Hop as (Hk & Hv & Hlen). unfold MICA_MAX_VALUE, sizeof_mica_key in Hv.
  unfold paste_entry. rewrite Hh, Hc, Hm, wf_phys, op_bytes_entry by done.
  unfold insert_fits, sizeof_mica_key.
  replace (16 + 1 + 1 + op_val_len op) with (18 + op_val_len op) by lia.
  rewrite (u64_small (2 ^ 40 - log_head kv0)) by lia.
  destruct (18 + op_val_len op + 8 <? 2 ^ 40 - log_head kv0) eqn:E1;
    [apply Z.ltb_lt in E1|apply Z.ltb_ge in E1; right; split; [lia|done]].
  cbn [cassert res_bind].
  rewrite (proj2 (Z.leb_le (18 + op_val_len op) 64)), andb_true_l by lia.
  destruct (log_head kv0 mod log_cap kv0 + (18 + op_val_len op) <=? log_cap kv0) eqn:E2;
    [apply Z.leb_le in E2|apply Z.leb_gt in E2; right; split; [lia|done]].
  cbn [in_bounds res_bind]. left. split; [lia|].
  do 2 f_equal. apply code_next_head; (done || lia).
Qed.

Section InsertOne.
Context (kv : mica_kv) (op : mica_op) (bk : list mica_slot).
Context (Hwf : kv_wf kv) (Hop : op_ok op).
Context (Hbk : ht_index kv !! Z.to_nat (bkt_of kv (op_key op)) = Some bk).

Lemma bkt_in_range :
  (key_bkt (op_key op) .& bkt_mask kv <? Z.of_nat (length (ht_index kv))) = true.
Proof.
  apply Z.ltb_lt. rewrite (wf_len _ Hwf). apply (bkt_of_range kv (op_key op) Hwf).
Qed.

Lemma insert_one_cases :
  (insert_fits kv op ∧ ∃ kv', mica_insert_one kv op = Ok kv' ∧ inserted kv op bk kv') ∨
  (¬ insert_fits kv op ∧
   mica_insert_one kv op =
     Fault (if 18 + op_val_len op + 8 <? 2 ^ 40 - log_head kv
            then OutOfBounds else AssertFail)).
Proof.
  pose proof (wf_head _ Hwf) as Hh. unfold mica_insert_one.
  rewrite bkt_in_range.
  change (key_bkt (op_key op) .& bkt_mask kv) with (bkt_of kv (op_key op)).
  rewrite Hbk. cbn [in_bounds res_bind default from_option id].
  match goal with |- context [paste_entry ?k op] => set (kv1 := k) end.
  destruct (paste_entry_cases kv1 kv op Hwf Hop) as [[Hf ->]|[Hf ->]];
    [done..| |by right].
  left. split; [done|]. eexists; split; [reflexivity|].
  pose proof (key_tag_range (op_key op)).
  constructor; [|done..|simpl; lia]. simpl. unfold chosen_slot.
  rewrite !(Z.mod_small) by lia. done.
Qed.

Lemma insert_one_Ok kv' :
  mica_insert_one kv op = Ok kv' → insert_fits kv op ∧ inserted kv op bk kv'.
Proof.
  intros H. destruct insert_one_cases as [(Hf & kv1 & Hk & Hi)|[_ Hk]];
    rewrite H in Hk; by simplify_eq.
Qed.
End InsertOne.

Lemma kv_wf_inserted kv op bk kv' :
  kv_wf kv → op_ok op → insert_fits kv op → inserted kv op bk kv' → kv_wf kv'.
Proof.
  intros Hwf (Hk & Hv & _) [Hf1 Hf2] [Hi Hl Hh (H1 & H2 & H3 & H4) _].
  unfold MICA_MAX_VALUE, sizeof_mica_key in Hv.
  destruct (next_head_facts kv (18 + op_val_len op) Hwf ltac:(lia)) as (? & ? & ? & ? & ?).
  pose proof (wf_cap_bounds _ Hwf). destruct Hwf as [Hb Hle Hbm Hc Hlm Hhd Ha Hlap].
  constructor; rewrite ?H1, ?H2, ?H3, ?H4, ?Hh; auto; [|lia].
  by rewrite Hi, length_insert.
Qed.

(** ** Agreement with the abstract store *)

Definition vlen (v : list Z) : Z := 18 + Z.of_nat (length v).

(** The log holds an entry for [k] with value [v] at virtual offset [o];
    its bytes are intact as long as the head is within one lap of it. *)
Record entry_ok (kv : mica_kv) (o : Z) (k : mica_key) (v : list Z) : Prop := {
  ent_pos : 0 ≤ o;
  ent_head : o + vlen v ≤ log_head kv;
  ent_key : key_ok k;
  ent_val : vlen v ≤ 64;
  ent_phys : o mod log_cap kv + vlen v ≤ log_cap kv;
  ent_bytes : log_head kv - o < log_cap kv →
    ∃ opc, mread_n (ht_log kv) (o mod log_cap kv) (18 + length v) = entry_bytes k opc v
}.

(** [vlog] is the log as the sequence of entries ever appended, by virtual
    offset, and [spec] the value last put for each key. *)
Record kv_inv (kv : mica_kv) (vlog : gmap Z (mica_key * list Z))
    (spec : gmap mica_key (list Z)) : Prop := {
  inv_wf : kv_wf kv;
  inv_bkt : ∀ b bk, ht_index kv !! b = Some bk → bkt_ok bk;
  inv_entry : ∀ o k v, vlog !! o = Some (k, v) → entry_ok kv o k v;
  inv_disj : ∀ o1 o2 k1 v1 k2 v2,
    vlog !! o1 = Some (k1, v1) → vlog !! o2 = Some (k2, v2) → o1 < o2 →
    o1 + vlen v1 ≤ o2;
  inv_slot : ∀ b bk j s, ht_index kv !! b = Some bk → bk !! j = Some s →
    slot_in_use s = 1 →
    ∃ k v, vlog !! slot_offset s = Some (k, v) ∧ key_tag k = slot_tag s ∧
      Z.to_nat (bkt_of kv k) = b ∧ spec !! k = Some v
}.

(** Two entries less than a lap apart do not share a byte of the log. *)
Lemma phys_disjoint cap o n h n' :
  0 < cap → 0 ≤ n → 0 < n' → o + n ≤ h → h + n' ≤ o + cap →
  o mod cap + n ≤ cap → h mod cap + n' ≤ cap →
  o mod cap + n ≤ h mod cap ∨ h mod cap + n' ≤ o mod cap.
Proof.
  intros Hc Hn Hn' Hoh Hho Ho Hh.
  pose proof (Z.div_mod o cap ltac:(lia)) as Eo. pose proof (Z.div_mod h cap ltac:(lia)) as Eh.
  pose proof (Z.mod_pos_bound o cap Hc). pose proof (Z.mod_pos_bound h cap Hc).
  assert (h / cap = o / cap ∨ h / cap = o / cap + 1 ∨ o / cap + 2 ≤ h / cap ∨ h / cap ≤ o / cap - 1)
    as [E|[E|[E|E]]] by lia.
  - rewrite E in Eh. lia.
  - rewrite E in Eh. lia.
  - exfalso. assert (cap * (o / cap + 2) ≤ cap * (h / cap)) by (apply Z.mul_le_mono_nonneg_l; lia). lia.
  - exfalso. assert (cap * (h / cap) ≤ cap * (o / cap - 1)) by (apply Z.mul_le_mono_nonneg_l; lia). lia.
Qed.

Lemma vlen_pos v : 18 ≤ vlen v.
Proof. unfold vlen. lia. Qed.

Lemma vlen_op_val op : op_ok op → vlen (op_val op) = 18 + op_val_len op.
Proof. intros. unfold vlen. by rewrite length_op_val. Qed.

Section InsertInv.
Context (kv : mica_kv) (vlog : gmap Z (mica_key * list Z)) (spec : gmap mica_key (list Z)).
Context (Hinv : kv_inv kv vlog spec).

Lemma vlog_head_None o : log_head kv ≤ o → vlog !! o = None.
Proof using Hinv.
  intros Ho. destruct (vlog !! o) as [[k v]|] eqn:E; [|done].
  apply (inv_entry _ _ _ Hinv) in E. pose proof (ent_head _ _ _ _ E).
  pose proof (vlen_pos v). lia.
Qed.

Lemma entry_ok_inserted op bk kv' o k v :
  op_ok op → insert_fits kv op → inserted kv op bk kv' →
  vlog !! o = Some (k, v) → entry_ok kv' o k v.
Proof using Hinv.
  intros Hop [_ Hfit] Hins Ho. pose proof (inv_wf _ _ _ Hinv) as Hwf.
  pose proof (wf_cap_bounds _ Hwf) as Hcap.
  destruct (inv_entry _ _ _ Hinv _ _ _ Ho) as [Hp Hh Hk Hv Hph Hby].
  destruct Hins as [_ Hlog Hhd (_ & _ & Hc & _) _].
  pose proof Hop as (_ & Hvl & _). unfold MICA_MAX_VALUE, sizeof_mica_key in Hvl.
  destruct (next_head_facts kv (18 + op_val_len op) Hwf ltac:(lia)) as (Hn & _).
  constructor; rewrite ?Hc, ?Hhd; auto; [lia|]. intros Hlive.
  destruct Hby as [opc Hby]; [lia|]. exists opc. rewrite <-Hby, Hlog.
  apply mread_n_mwrite_out. rewrite length_entry_bytes.
  pose proof (length_op_val op Hop) as Hl.
  pose proof (phys_disjoint (log_cap kv) o (vlen v) (log_head kv) (18 + op_val_len op)).
  unfold vlen in *. lia.
Qed.

Lemma entry_ok_new op bk kv' :
  op_ok op → insert_fits kv op → inserted kv op bk kv' →
  entry_ok kv' (log_head kv) (op_key op) (op_val op).
Proof using Hinv.
  intros Hop [_ Hfit] Hins. pose proof (inv_wf _ _ _ Hinv) as Hwf.
  destruct Hins as [_ Hlog Hhd (_ & _ & Hc & _) _].
  pose proof Hop as (Hk & Hvl & _). unfold MICA_MAX_VALUE, sizeof_mica_key in Hvl.
  pose proof (vlen_op_val op Hop) as Hl.
  destruct (next_head_facts kv (18 + op_val_len op) Hwf ltac:(lia)) as (Hn & _).
  pose proof (wf_head _ Hwf).
  constructor; rewrite ?Hc, ?Hhd; auto; try lia. intros _.
  exists (op_opcode op). rewrite Hlog. rewrite <-(length_entry_bytes (op_key op) (op_opcode op)).
  apply mread_n_mwrite_eq.
Qed.

Lemma kv_inv_insert op kv' :
  op_ok op → mica_insert_one kv op = Ok kv' →
  kv_inv kv' (<[log_head kv := (op_key op, op_val op)]> vlog)
    (<[op_key op := op_val op]> spec).
Proof using Hinv.
  intros Hop Hrun. pose proof (inv_wf _ _ _ Hinv) as Hwf.
  destruct (bkt_of_lookup kv (op_key op) Hwf) as [bk Hbk].
  destruct (insert_one_Ok kv op bk Hwf Hop Hbk kv' Hrun) as [Hfit Hins].
  pose proof (inv_bkt _ _ _ Hinv _ _ Hbk) as Hok.
  pose proof (proj1 (key_tag_range (op_key op))) as Htag.
  destruct (chosen_slot_spec _ _ Hok Htag) as (Hc8 & _ & Hother).
  pose proof (ins_index _ _ _ _ Hins) as Hidx.
  assert (Hbo : ∀ k, bkt_of kv' k = bkt_of kv k).
  { intros k. unfold bkt_of. by destruct (ins_cfg _ _ _ _ Hins) as (_ & -> & _). }
  constructor.
  - by eapply kv_wf_inserted.
  - intros b bk' Hb. rewrite Hidx in Hb.
    apply list_lookup_insert_Some in Hb as [(_ & <- & _)|[_ Hb]].
    + by apply bkt_ok_insert.
    + by apply (inv_bkt _ _ _ Hinv b).
  - intros o k v Ho. apply lookup_insert_Some in Ho as [[<- [= <- <-]]|[_ Ho]].
    + by eapply entry_ok_new.
    + by eapply entry_ok_inserted.
  - intros o1 o2 k1 v1 k2 v2 H1 H2 Hlt.
    apply lookup_insert_Some in H1 as [[<- _]|[_ H1]].
    { apply lookup_insert_Some in H2 as [[? _]|[_ H2]]; [lia|].
      rewrite vlog_head_None in H2 by lia. done. }
    apply lookup_insert_Some in H2 as [[<- _]|[_ H2]].
    + apply (ent_head _ _ _ _ (inv_entry _ _ _ Hinv _ _ _ H1)).
    + by apply (inv_disj _ _ _ Hinv _ _ _ _ _ _ H1 H2).
  - intros b bk' j s Hb Hj Hin. setoid_rewrite Hbo. rewrite Hidx in Hb.
    assert (Hold : ∀ b bk0, ht_index kv !! b = Some bk0 → bk0 !! j = Some s →
      (b ≠ Z.to_nat (bkt_of kv (op_key op)) ∨ slot_tag s ≠ key_tag (op_key op)) →
      ∃ k v, <[log_head kv:=(op_key op, op_val op)]> vlog !! slot_offset s = Some (k, v) ∧
        key_tag k = slot_tag s ∧ Z.to_nat (bkt_of kv k) = b ∧
        <[op_key op := op_val op]> spec !! k = Some v).
    { intros b0 bk0 Hb0 Hj0 Hne.
      destruct (inv_slot _ _ _ Hinv _ _ _ _ Hb0 Hj0 Hin) as (k & v & Hv & Ht & Hkb & Hs).
      exists k, v. split; [|split; [done|split; [done|]]].
      - rewrite lookup_insert_ne; [done|]. intros E. rewrite <-E in Hv.
        by rewrite vlog_head_None in Hv.
      - rewrite lookup_insert_ne; [done|]. intros <-. naive_solver. }
    apply list_lookup_insert_Some in Hb as [(<- & <- & _)|[Hne Hb]]; [|by eauto].
    apply list_lookup_insert_Some in Hj as [(<- & <- & _)|[Hnej Hj]].
    + exists (op_key op), (op_val op). simpl. by rewrite !lookup_insert_eq.
    + apply (Hold _ _ Hbk Hj). right. by eapply Hother.
Qed.
End InsertInv.

(** ** Completeness of the index

    Every key of the abstract store has a slot with its tag in its bucket,
    until the index evicts a slot. *)
Definition has_slot (kv : mica_kv) (k : mica_key) : Prop :=
  ∃ bk j s, ht_index kv !! Z.to_nat (bkt_of kv k) = Some bk ∧ bk !! j = Some s ∧
    slot_in_use s = 1 ∧ slot_tag s = key_tag k.

Definition indexed (kv : mica_kv) (spec : gmap mica_key (list Z)) : Prop :=
  0 ≤ num_index_evictions kv ∧
  (num_index_evictions kv = 0 → ∀ k, is_Some (spec !! k) → has_slot kv k).

(** Without an eviction, an insertion takes over a slot with the tag of the
    key or a free one. *)
Lemma has_slot_inserted kv op bk kv' k :
  inserted kv op bk kv' → kv_wf kv → bkt_ok bk → ht_index kv !! Z.to_nat (bkt_of kv (op_key op)) = Some bk →
  (find_slot_to_use (key_tag (op_key op)) bk 0 (-1) =? -1) = false →
  k = op_key op ∨ has_slot kv k → has_slot kv' k.
Proof.
  intros Hi Hwf Hok Hbk Hfound Hk. pose proof (ins_index _ _ _ _ Hi) as Hix.
  pose proof (proj1 (key_tag_range (op_key op))) as Htag.
  destruct (chosen_slot_spec _ _ Hok Htag) as (Hc8 & _).
  assert (Hbo : bkt_of kv' k = bkt_of kv k) by (unfold bkt_of; by destruct (ins_cfg _ _ _ _ Hi) as (_ & -> & _)).
  set (t := key_tag (op_key op)) in *. set (s := Slot 1 t (log_head kv)) in *.
  assert (Hb' : ht_index kv' !! Z.to_nat (bkt_of kv (op_key op)) = Some (<[chosen_slot t bk:=s]> bk)).
  { rewrite Hix. apply list_lookup_insert_eq. by eapply lookup_lt_Some. }
  assert (Hj' : <[chosen_slot t bk:=s]> bk !! chosen_slot t bk = Some s).
  { apply list_lookup_insert_eq. destruct Hok as (-> & _). done. }
  unfold has_slot. rewrite Hbo. destruct Hk as [->|(bk0 & j & s0 & Hb0 & Hj0 & Hin & Ht)].
  { by exists (<[chosen_slot t bk:=s]> bk), (chosen_slot t bk), s. }
  destruct (decide (Z.to_nat (bkt_of kv (op_key op)) = Z.to_nat (bkt_of kv k))) as [E|Hne].
  2:{ exists bk0, j, s0. rewrite Hix, list_lookup_insert_ne by done. done. }
  rewrite <-E in *. rewrite Hbk in Hb0. injection Hb0 as <-.
  exists (<[chosen_slot t bk:=s]> bk). destruct (decide (chosen_slot t bk = j)) as [<-|Hnj].
  - exists (chosen_slot t bk), s. split; [done|]. split; [done|]. split; [done|].
    unfold chosen_slot in Hj0. rewrite Hfound in Hj0. apply Z.eqb_neq in Hfound.
    destruct (find_slot_spec t bk 0 (-1)) as [[Hr _]|(j & s1 & Hr & Hj & Hm & _)]; [done|].
    rewrite Hr, Z.add_0_l, Nat2Z.id, Hj in Hj0. injection Hj0 as <-.
    apply orb_true_iff in Hm as [Hm%Z.eqb_eq|Hm%Z.eqb_eq]; cbn; lia.
  - exists j, s0. rewrite list_lookup_insert_ne by done. done.
Qed.

Lemma indexed_insert kv vlog spec op kv' :
  kv_inv kv vlog spec → indexed kv spec → op_ok op → mica_insert_one kv op = Ok kv' →
  indexed kv' (<[op_key op := op_val op]> spec).
Proof.
  intros Hinv [Hpos Hix] Hop Hrun. pose proof (inv_wf _ _ _ Hinv) as Hwf.
  destruct (bkt_of_lookup kv (op_key op) Hwf) as [bk Hbk].
  destruct (insert_one_Ok kv op bk Hwf Hop Hbk kv' Hrun) as [_ Hi].
  destruct (ins_stats _ _ _ _ Hi) as (_ & _ & _ & Hev). unfold indexed. rewrite Hev.
  destruct (_ =? -1) eqn:Hf; [split; [lia|intros; lia]|]. split; [lia|]. intros H0 k Hk.
  eapply has_slot_inserted; [done..|by apply (inv_bkt _ _ _ Hinv _ _ Hbk)|done|done|].
  destruct (decide (k = op_key op)) as [->|Hne]; [by left|right]. apply Hix; [lia|].
  by rewrite lookup_insert_ne in Hk.
Qed.

Lemma indexed_same kv kv' spec spec' :
  ht_index kv' = ht_index kv → bkt_mask kv' = bkt_mask kv → num_index_evictions kv' = num_index_evictions kv →
  (∀ k, is_Some (spec' !! k) → is_Some (spec !! k)) → indexed kv spec → indexed kv' spec'.
Proof.
  intros Hi Hm He Hs [Hpos Hix]. unfold indexed, has_slot, bkt_of in *. rewrite Hi, Hm, He. split; [done|]. auto.
Qed.

(** ** In-place update *)

(** No slot of the index refers to another entry for [k] than the one at [o]. *)
Definition only_home (kv : mica_kv) (vlog : gmap Z (mica_key * list Z))
    (k : mica_key) (o : Z) : Prop :=
  ∀ b bk j s v, ht_index kv !! b = Some bk → bk !! j = Some s → slot_in_use s = 1 →
    vlog !! slot_offset s = Some (k, v) → slot_offset s = o.

Definition live (kv : mica_kv) (o : Z) : Prop := log_head kv - o < log_cap kv.

(** Overwriting the value bytes of an entry. *)
Lemma entry_bytes_update m p k opc v v' :
  length v' = length v →
  mread_n m p (18 + length v) = entry_bytes k opc v →
  mread_n (mwrite_n m (p + 18) v') p (18 + length v') = entry_bytes k opc v'.
Proof.
  intros Hl Hm. unfold entry_bytes in *. rewrite Hl in *.
  replace (le_bytes 8 (key_w0 k) ++ le_bytes 8 (key_w1 k) ++ [opc; Z.of_nat (length v)] ++ v')
    with ((le_bytes 8 (key_w0 k) ++ le_bytes 8 (key_w1 k) ++ [opc; Z.of_nat (length v)]) ++ v')
    by (by rewrite <-!app_assoc).
  rewrite mread_n_app in *. change (Z.of_nat 18) with 18 in *.
  f_equal.
  - rewrite mread_n_mwrite_out by lia.
    replace (le_bytes 8 (key_w0 k) ++ le_bytes 8 (key_w1 k) ++ [opc; Z.of_nat (length v)] ++ v)
      with ((le_bytes 8 (key_w0 k) ++ le_bytes 8 (key_w1 k) ++ [opc; Z.of_nat (length v)]) ++ v)
      in Hm by (by rewrite <-!app_assoc).
    apply app_inj_1 in Hm as [-> _]; [done|].
    rewrite length_mread_n, !length_app, !length_le_bytes. done.
  - rewrite <-Hl. apply mread_n_mwrite_eq.
Qed.

(** Everything but the bytes of the log. *)
Record same_but_log (kv kv' : mica_kv) : Prop := {
  sbl_index : ht_index kv' = ht_index kv;
  sbl_cfg : num_bkts kv' = num_bkts kv ∧ bkt_mask kv' = bkt_mask kv ∧
    log_cap kv' = log_cap kv ∧ log_mask kv' = log_mask kv ∧ log_head kv' = log_head kv
}.

Lemma kv_wf_same kv kv' : same_but_log kv kv' → kv_wf kv → kv_wf kv'.
Proof.
  intros [Hi (H1 & H2 & H3 & H4 & H5)] [].
  constructor; rewrite ?Hi, ?H1, ?H2, ?H3, ?H4, ?H5; auto.
Qed.

Section UpdateInv.
Context (kv kv' : mica_kv) (vlog : gmap Z (mica_key * list Z)) (spec : gmap mica_key (list Z)).
Context (Hinv : kv_inv kv vlog spec) (Hsame : same_but_log kv kv').

(** Statistics only. *)
Lemma kv_inv_stats : ht_log kv' = ht_log kv → kv_inv kv' vlog spec.
Proof using Hinv Hsame.
  intros Hlog. pose proof (kv_wf_same _ _ Hsame (inv_wf _ _ _ Hinv)).
  destruct Hsame as [Hi (H1 & H2 & H3 & H4 & H5)], Hinv as [Hwf Hb He Hd Hs].
  constructor; rewrite ?Hi; auto.
  - intros o k v Ho. destruct (He o k v Ho).
    constructor; rewrite ?H3, ?H5, ?Hlog; auto.
  - intros b bk j s. unfold bkt_of. rewrite H2. apply Hs.
Qed.

Lemma kv_inv_update o k v v' :
  vlog !! o = Some (k, v) → live kv o → length v' = length v →
  only_home kv vlog k o →
  ht_log kv' = mwrite_n (ht_log kv) (o mod log_cap kv + 18) v' →
  kv_inv kv' (<[o := (k, v')]> vlog) (<[k := v']> spec).
Proof using Hinv Hsame.
  intros Ho Hlive Hl Hhome Hlog. pose proof (kv_wf_same _ _ Hsame (inv_wf _ _ _ Hinv)) as Hwf'.
  destruct Hsame as [Hi (H1 & H2 & H3 & H4 & H5)].
  pose proof (wf_cap_bounds _ (inv_wf _ _ _ Hinv)) as Hcap.
  pose proof (inv_entry _ _ _ Hinv _ _ _ Ho) as Heo.
  constructor; [done|rewrite Hi; apply Hinv|..].
  - intros o' k' v'' Ho'. unfold live in Hlive.
    apply lookup_insert_Some in Ho' as [[<- [= <- <-]]|[Hne Ho']].
    + destruct Heo as [? ? ? ? ? Hby]. unfold vlen in *.
      constructor; unfold vlen; rewrite ?H3, ?H5, ?Hl; auto.
      intros Hlv. destruct Hby as [opc Hby]; [lia|]. exists opc. rewrite Hlog.
      rewrite <-Hl. by eapply entry_bytes_update.
    + destruct (inv_entry _ _ _ Hinv _ _ _ Ho') as [Hp Hh Hk Hv Hph Hby].
      constructor; rewrite ?H3, ?H5; auto. intros Hlv.
      destruct Hby as [opc Hby]; [lia|]. exists opc. rewrite <-Hby, Hlog.
      apply mread_n_mwrite_out. destruct Heo as [Hp0 Hh0 _ Hv0 Hph0 _].
      pose proof (vlen_pos v). pose proof (vlen_pos v'').
      assert (o < o' ∨ o' < o) as [Hlt|Hlt] by lia.
      * pose proof (inv_disj _ _ _ Hinv _ _ _ _ _ _ Ho Ho' Hlt).
        pose proof (phys_disjoint (log_cap kv) o (vlen v) o' (vlen v'')).
        unfold vlen in *. lia.
      * pose proof (inv_disj _ _ _ Hinv _ _ _ _ _ _ Ho' Ho Hlt).
        pose proof (phys_disjoint (log_cap kv) o' (vlen v'') o (vlen v)).
        unfold vlen in *. lia.
  - intros o1 o2 k1 v1 k2 v2 E1 E2 Hlt.
    assert (∃ v1', vlog !! o1 = Some (k1, v1') ∧ vlen v1' = vlen v1) as (v1' & F1 & <-).
    { apply lookup_insert_Some in E1 as [[<- [= <- <-]]|[_ E1]]; [|by eauto].
      exists v. unfold vlen. by rewrite Hl. }
    assert (∃ v2', vlog !! o2 = Some (k2, v2')) as (v2' & F2).
    { apply lookup_insert_Some in E2 as [[<- [= <- <-]]|[_ E2]]; by eauto. }
    by apply (inv_disj _ _ _ Hinv _ _ _ _ _ _ F1 F2).
  - intros b bk j s Hb Hj Hin. rewrite Hi in Hb.
    destruct (inv_slot _ _ _ Hinv _ _ _ _ Hb Hj Hin) as (k1 & v1 & Hv1 & Ht & Hkb & Hs).
    unfold bkt_of. rewrite H2. destruct (decide (slot_offset s = o)) as [E|Hne].
    + rewrite E in *. exists k, v'. rewrite Ho in Hv1. simplify_eq. by rewrite !lookup_insert_eq.
    + exists k1, v1. rewrite !lookup_insert_ne; auto.
      intros <-. apply Hne. by eapply Hhome.
Qed.
End UpdateInv.

(** ** Lookup *)

Lemma find_tag_spec tag bk s :
  find_tag tag bk = Some s →
  ∃ j, bk !! j = Some s ∧ slot_in_use s = 1 ∧ slot_tag s = tag.
Proof.
  induction bk as [|s' bk IH]; simpl; [done|].
  destruct ((slot_in_use s' =? 1) && (slot_tag s' =? tag)) eqn:E.
  - intros [= ->]. exists 0%nat. apply andb_true_iff in E as [?%Z.eqb_eq ?%Z.eqb_eq]. done.
  - intros (j & ?)%IH. by exists (S j).
Qed.

Lemma find_tag_None tag bk j s :
  find_tag tag bk = None → bk !! j = Some s → slot_in_use s = 1 → slot_tag s ≠ tag.
Proof.
  revert j. induction bk as [|s' bk IH]; intros j; simpl; [by rewrite lookup_nil|].
  destruct ((slot_in_use s' =? 1) && (slot_tag s' =? tag)) eqn:E; [done|].
  apply andb_false_iff in E. destruct j as [|j]; simpl; [|eauto].
  intros _ [= ->] Hin. destruct E as [E|E]; apply Z.eqb_neq in E; done.
Qed.

(** The entry at [o] is for [k], has [n] bytes of value, holds the value
    last put for [k], and is the only entry for [k] in the index. *)
Definition home (kv : mica_kv) (vlog : gmap Z (mica_key * list Z))
    (spec : gmap mica_key (list Z)) (o : Z) (k : mica_key) (n : Z) : Prop :=
  ∃ v, vlog !! o = Some (k, v) ∧ Z.of_nat (length v) = n ∧ live kv o ∧
    spec !! k = Some v ∧ only_home kv vlog k o.

(** The entry at [o] is live and for [k]. *)
Definition holds_key (kv : mica_kv) (vlog : gmap Z (mica_key * list Z))
    (o : Z) (k : mica_key) : Prop :=
  ∃ v, vlog !! o = Some (k, v) ∧ live kv o.

(** What the lookup loops establish about [kv_ptr] for a request. *)
Definition pend (kv : mica_kv) (vlog : gmap Z (mica_key * list Z))
    (spec : gmap mica_key (list Z)) (op : mica_op) (ptr : option Z) : Prop :=
  match ptr with
  | None => True
  | Some p => ∃ o, p = o mod log_cap kv ∧
      ((∃ k, holds_key kv vlog o k ∧ k ≠ op_key op) ∨
       (∃ n, home kv vlog spec o (op_key op) n))
  end.

Section Lookup.
Context (kv : mica_kv) (vlog : gmap Z (mica_key * list Z)) (spec : gmap mica_key (list Z)).
Context (Hinv : kv_inv kv vlog spec).

Lemma slot_offset_range b bk j s :
  ht_index kv !! b = Some bk → bk !! j = Some s → slot_in_use s = 1 →
  0 ≤ slot_offset s ≤ log_head kv.
Proof using Hinv.
  intros Hb Hj Hin. destruct (inv_slot _ _ _ Hinv _ _ _ _ Hb Hj Hin) as (k & v & Hv & _).
  apply (inv_entry _ _ _ Hinv) in Hv. pose proof (ent_pos _ _ _ _ Hv).
  pose proof (ent_head _ _ _ _ Hv). pose proof (vlen_pos v). lia.
Qed.

Lemma slot_home b bk j s k v :
  ht_index kv !! b = Some bk → bk !! j = Some s → slot_in_use s = 1 →
  vlog !! slot_offset s = Some (k, v) → only_home kv vlog k (slot_offset s).
Proof using Hinv.
  intros Hb Hj Hin Hv b' bk' j' s' v' Hb' Hj' Hin' Hv'.
  destruct (inv_slot _ _ _ Hinv _ _ _ _ Hb Hj Hin) as (k1 & v1 & E1 & Ht & Hkb & _).
  destruct (inv_slot _ _ _ Hinv _ _ _ _ Hb' Hj' Hin') as (k2 & v2 & E2 & Ht' & Hkb' & _).
  simplify_eq. destruct (inv_bkt _ _ _ Hinv _ _ Hb) as (_ & _ & _ & Hu).
  assert (j = j') as -> by (eapply Hu; eauto; congruence). by simplify_eq.
Qed.

Lemma u64_age b bk j s :
  ht_index kv !! b = Some bk → bk !! j = Some s → slot_in_use s = 1 →
  log_head kv -64 slot_offset s = log_head kv - slot_offset s.
Proof using Hinv.
  intros. apply u64_small. pose proof (wf_head _ (inv_wf _ _ _ Hinv)).
  pose proof (slot_offset_range b bk j s). naive_solver lia.
Qed.

Lemma lookup_pend op : pend kv vlog spec op (lookup_kv_ptr kv op).
Proof using Hinv.
  pose proof (inv_wf _ _ _ Hinv) as Hwf. unfold lookup_kv_ptr.
  change (key_bkt (op_key op) .& bkt_mask kv) with (bkt_of kv (op_key op)).
  destruct (bkt_of_lookup kv (op_key op) Hwf) as [bk Hbk]. rewrite Hbk. simpl.
  destruct (find_tag (key_tag (op_key op)) bk) as [s|] eqn:E; [|done].
  apply find_tag_spec in E as (j & Hj & Hin & Htag).
  rewrite (u64_age _ _ _ _ Hbk Hj Hin). case_match eqn:Hc; [done|].
  apply Z.leb_gt in Hc. exists (slot_offset s). split; [by apply wf_phys|].
  destruct (inv_slot _ _ _ Hinv _ _ _ _ Hbk Hj Hin) as (k & v & Hv & Ht & Hkb & Hs).
  destruct (decide (k = op_key op)) as [->|Hne].
  - right. exists (Z.of_nat (length v)), v. repeat split; auto. by eapply slot_home.
  - left. exists k. split; [|done]. by exists v.
Qed.

(** Reading the key and the length of a live entry. *)
Lemma log_key_entry o k v :
  vlog !! o = Some (k, v) → live kv o →
  log_key kv (o mod log_cap kv) = Ok k ∧
  log_val_len kv (o mod log_cap kv) = Ok (Z.of_nat (length v)) ∧
  mread_n (ht_log kv) (o mod log_cap kv + 18) (length v) = v ∧
  o mod log_cap kv + 18 + Z.of_nat (length v) ≤ log_cap kv ∧
  Z.of_nat (length v) ≤ MICA_MAX_VALUE.
Proof using Hinv.
  intros Hv Hl. destruct (inv_entry _ _ _ Hinv _ _ _ Hv) as [Hp Hh [Hk0 Hk1] Hn Hph Hby].
  pose proof (wf_cap_bounds _ (inv_wf _ _ _ Hinv)) as Hcap.
  pose proof (Z.mod_pos_bound o (log_cap kv) ltac:(lia)). unfold vlen in *.
  destruct (Hby Hl) as [opc Hb].
  destruct (entry_split _ _ _ _ _ Hb) as (E0 & E8 & E17 & E18).
  unfold log_key, log_val_len, log_load.
  rewrite !(proj2 (Z.leb_le _ _)) by lia. simpl in_bounds. cbn [res_bind].
  rewrite E0, E8, E17. rewrite !le_word_bytes. cbn [le_word].
  unfold w64 in *. change (2 ^ (8 * Z.of_nat 8)) with (2 ^ 64).
  rewrite !Z.mod_small by done. destruct k as [w0 w1]. simpl.
  split; [done|]. split; [f_equal; lia|]. split; [done|]. 
  unfold MICA_MAX_VALUE, sizeof_mica_key. lia.
Qed.
End Lookup.

(** ** One request of a batch *)
Definition is_get (op : mica_op) : bool := op_opcode op =? MICA_OP_GET.

Definition spec_step (spec : gmap mica_key (list Z)) (op : mica_op) : gmap mica_key (list Z) :=
  if is_get op then spec else <[op_key op := op_val op]> spec.

Definition put_done : mica_resp := Resp MICA_RESP_PUT_SUCCESS 0 None.
Definition get_missed : mica_resp := Resp MICA_RESP_GET_FAIL 0 None.

Inductive step_case (kv : mica_kv) (vlog : gmap Z (mica_key * list Z))
    (spec : gmap mica_key (list Z)) (op : mica_op) (ptr : option Z)
    : mica_kv → mica_resp → Prop :=
| case_get_hit o n :
    is_get op = true → ptr = Some (o mod log_cap kv) →
    home kv vlog spec o (op_key op) n →
    step_case kv vlog spec op ptr (add_stats kv 1 0 0 0)
      (Resp MICA_RESP_GET_SUCCESS n (Some (o mod log_cap kv + 18)))
| case_get_miss :
    is_get op = true →
    step_case kv vlog spec op ptr (add_stats kv 0 1 0 0) get_missed
| case_put_update o :
    is_get op = false → ptr = Some (o mod log_cap kv) →
    home kv vlog spec o (op_key op) (op_val_len op) →
    step_case kv vlog spec op ptr
      (set_log (add_stats kv 0 0 1 0)
         (mwrite_n (ht_log kv) (o mod log_cap kv + 18) (op_val op))) put_done
| case_put_insert kv' :
    is_get op = false →
    (ptr = None ∨ ∃ o k, ptr = Some (o mod log_cap kv) ∧ holds_key kv vlog o k ∧ k ≠ op_key op) →
    mica_insert_one kv op = Ok kv' →
    step_case kv vlog spec op ptr kv' put_done.

Lemma batch_step_cases kv vlog spec op ptr kv' r :
  kv_inv kv vlog spec → pend kv vlog spec op ptr →
  batch_step kv op ptr = Ok (kv', r) → step_case kv vlog spec op ptr kv' r.
Proof.
  intros Hinv Hpend. unfold batch_step. fold (is_get op). destruct ptr as [p|].
  - destruct Hpend as (o & -> & [(k & (v & Hv & Hl) & Hne)|(n & v & Hv & Hn & Hl & Hs & Hh)]);
      destruct (log_key_entry kv vlog spec Hinv _ _ _ Hv Hl) as (-> & Hlen & Hval & Hb & Hmax);
      cbn [res_bind].
    + rewrite decide_False by done. destruct (is_get op) eqn:Hg; intros H; inv_res.
      * by apply case_get_miss.
      * apply case_put_insert; auto. right. exists o, k. repeat split; auto. by exists v.
    + rewrite decide_True by done. cbn [res_bind]. rewrite Hlen. cbn [res_bind].
      destruct (is_get op) eqn:Hg; intros H; inv_res.
      * apply case_get_hit; auto. by exists v.
      * apply Z.eqb_eq in H0. rewrite <-H0. apply case_put_update; auto.
        by exists v.
  - cbn [res_bind]. destruct (is_get op) eqn:Hg; intros H; inv_res.
    + by apply case_get_miss.
    + apply case_put_insert; auto.
Qed.

(** Two live entries at the same place of the log are the same entry. *)
Lemma live_phys_inj kv vlog spec o1 o2 k1 k2 :
  kv_inv kv vlog spec → holds_key kv vlog o1 k1 → holds_key kv vlog o2 k2 →
  o1 mod log_cap kv = o2 mod log_cap kv → o1 = o2.
Proof.
  intros Hinv (v1 & H1 & L1) (v2 & H2 & L2) E. unfold live in *.
  pose proof (wf_cap_bounds _ (inv_wf _ _ _ Hinv)) as Hcap.
  apply (inv_entry _ _ _ Hinv) in H1 as [? ? _ _ _ _].
  apply (inv_entry _ _ _ Hinv) in H2 as [? ? _ _ _ _].
  pose proof (vlen_pos v1). pose proof (vlen_pos v2).
  pose proof (Z.div_mod o1 (log_cap kv) ltac:(lia)) as E1.
  pose proof (Z.div_mod o2 (log_cap kv) ltac:(lia)) as E2. rewrite E in E1.
  assert (o1 / log_cap kv = o2 / log_cap kv) by nia. nia.
Qed.

Lemma home_holds kv vlog spec o k n : home kv vlog spec o k n → holds_key kv vlog o k.
Proof. intros (v & ? & _ & ? & _). by exists v. Qed.

Lemma live_same kv kv' o :
  log_head kv' = log_head kv → log_cap kv' = log_cap kv → live kv o → live kv' o.
Proof. unfold live. by intros -> ->. Qed.

(** The slots of the index after an insertion. *)
Lemma inserted_slot kv op bk kv' b bk' j s :
  inserted kv op bk kv' → ht_index kv !! Z.to_nat (bkt_of kv (op_key op)) = Some bk →
  ht_index kv' !! b = Some bk' → bk' !! j = Some s →
  slot_offset s = log_head kv ∨ (∃ b0 bk0, ht_index kv !! b0 = Some bk0 ∧ bk0 !! j = Some s).
Proof.
  intros Hi Hbk Hb Hj. rewrite (ins_index _ _ _ _ Hi) in Hb.
  apply list_lookup_insert_Some in Hb as [(<- & <- & _)|[_ Hb]]; [|by eauto].
  apply list_lookup_insert_Some in Hj as [(_ & <- & _)|[_ Hj]]; [by left|by eauto].
Qed.

Lemma home_insert kv vlog spec op kv' o k n :
  kv_inv kv vlog spec → op_ok op → mica_insert_one kv op = Ok kv' →
  home kv vlog spec o k n → k ≠ op_key op → live kv' o →
  home kv' (<[log_head kv := (op_key op, op_val op)]> vlog)
    (<[op_key op := op_val op]> spec) o k n.
Proof.
  intros Hinv Hop Hins (v & Hv & Hn & Hl & Hs & Hh) Hne Hlive.
  pose proof (inv_wf _ _ _ Hinv) as Hwf.
  destruct (bkt_of_lookup kv (op_key op) Hwf) as [bk Hbk].
  destruct (insert_one_Ok kv op bk Hwf Hop Hbk kv' Hins) as [_ Hi].
  assert (Hold : ∀ o' k' v', vlog !! o' = Some (k', v') → log_head kv ≠ o').
  { intros o' k' v' E <-. by rewrite (vlog_head_None _ _ _ Hinv) in E. }
  exists v. rewrite lookup_insert_ne, (lookup_insert_ne spec) by eauto.
  split; [done|]. split; [done|]. split; [done|]. split; [done|].
  intros b bk' j s v' Hb Hj Hin Hvs.
  destruct (inserted_slot _ _ _ _ _ _ _ _ Hi Hbk Hb Hj) as [E|(b0 & bk0 & Hb0 & Hj0)].
  - rewrite E, lookup_insert_eq in Hvs. naive_solver.
  - apply lookup_insert_Some in Hvs as [[_ [= ? _]]|[_ Hvs]]; [done|]. by eapply Hh.
Qed.

Lemma home_update kv vlog spec op kv' o2 o k n :
  same_but_log kv kv' → kv_inv kv vlog spec →
  home kv vlog spec o2 (op_key op) (Z.of_nat (length (op_val op))) →
  home kv vlog spec o k n → (k = op_key op → o = o2) →
  home kv' (<[o2 := (op_key op, op_val op)]> vlog)
    (<[op_key op := op_val op]> spec) o k n.
Proof.
  intros [Hi (_ & _ & H3 & _ & H5)] Hinv (v2 & Hv2 & Hn2 & Hl2 & Hs2 & Hh2)
    (v & Hv & Hn & Hl & Hs & Hh) Hsame.
  assert (Hl' : live kv' o) by (by eapply live_same).
  assert (Hhome : only_home kv' (<[o2 := (op_key op, op_val op)]> vlog) k o).
  { intros b bk j s v' Hb Hj Hin Hvs. rewrite Hi in Hb.
    apply lookup_insert_Some in Hvs as [[<- [= <- _]]|[_ Hvs]]; [by rewrite Hsame|].
    by eapply Hh. }
  destruct (decide (k = op_key op)) as [->|Hne].
  - specialize (Hsame eq_refl) as ->. rewrite Hv in Hv2. simplify_eq.
    exists (op_val op). rewrite !lookup_insert_eq.
    split; [done|]. split; [lia|]. done.
  - exists v. rewrite lookup_insert_ne, (lookup_insert_ne spec) by naive_solver. done.
Qed.

(** The abstract store after a request: the invariant, and what happens to
    the entries that other requests of the batch have looked up. *)
Lemma step_case_inv kv vlog spec op ptr kv' r :
  kv_inv kv vlog spec → (is_get op = false → op_ok op) →
  step_case kv vlog spec op ptr kv' r →
  ∃ vlog', kv_inv kv' vlog' (spec_step spec op) ∧
    (∀ o k, holds_key kv vlog o k → live kv' o → holds_key kv' vlog' o k) ∧
    (∀ o k n, home kv vlog spec o k n → live kv' o →
       (k = op_key op → ptr = Some (o mod log_cap kv)) →
       home kv' vlog' (spec_step spec op) o k n).
Proof.
  intros Hinv Hop Hstep. unfold spec_step.
  destruct Hstep as [o n Hg|Hg|o Hg -> Hho|kv' Hg Hptr Hins]; rewrite Hg.
  - exists vlog. split; [by apply (kv_inv_stats kv)|]. split; [|by eauto].
    intros o' k (v & ? & ?). by exists v.
  - exists vlog. split; [by apply (kv_inv_stats kv)|]. split; [|by eauto].
    intros o' k (v & ? & ?). by exists v.
  - exists (<[o := (op_key op, op_val op)]> vlog). specialize (Hop Hg).
    rewrite <-(length_op_val op Hop) in Hho. pose proof Hho as (v & Hv & Hn & Hl & Hs & Hh).
    split; [eapply (kv_inv_update kv); eauto; [done|lia]|]. split.
    + intros o' k (v' & Hv' & _) Hl'. destruct (decide (o = o')) as [->|Hne].
      * simplify_eq. exists (op_val op). by rewrite lookup_insert_eq.
      * exists v'. by rewrite lookup_insert_ne.
    + intros o' k n' Hho' _ Hp. eapply (home_update kv); eauto; [done|].
      intros ->. specialize (Hp eq_refl). injection Hp as Hp.
      eapply live_phys_inj; eauto using home_holds.
  - exists (<[log_head kv := (op_key op, op_val op)]> vlog). specialize (Hop Hg).
    split; [by apply kv_inv_insert|]. split.
    + intros o' k (v' & Hv' & _) Hl'. exists v'. split; [|done].
      rewrite lookup_insert_ne; [done|]. intros <-.
      by rewrite (vlog_head_None _ _ _ Hinv) in Hv'.
    + intros o' k n' Hho' Hl' Hp. eapply home_insert; eauto. intros ->.
      specialize (Hp eq_refl) as ->. destruct Hptr as [?|(o2 & k2 & E & Hh2 & Hne)]; [done|].
      injection E as E. pose proof (home_holds _ _ _ _ _ _ Hho') as Hhh.
      assert (o' = o2) as -> by (eapply live_phys_inj; eauto).
      destruct Hhh as (? & ? & _), Hh2 as (? & ? & _). by simplify_eq.
Qed.

Lemma step_case_indexed kv vlog spec op ptr kv' r :
  kv_inv kv vlog spec → (is_get op = false → op_ok op) →
  step_case kv vlog spec op ptr kv' r → indexed kv spec → indexed kv' (spec_step spec op).
Proof.
  intros Hinv Hop Hstep Hix. unfold spec_step.
  destruct Hstep as [o n Hg|Hg|o Hg _ (v & _ & _ & _ & Hs & _)|kv' Hg _ Hins]; rewrite Hg.
  - apply (indexed_same kv _ spec); auto; cbn; lia.
  - apply (indexed_same kv _ spec); auto; cbn; lia.
  - apply (indexed_same kv _ spec); [done|done|cbn; lia| |done]. intros k. rewrite lookup_insert_is_Some'.
    intros [<-|H]; [by eexists|done].
  - exact (indexed_insert kv vlog spec op kv' Hinv Hix (Hop Hg) Hins).
Qed.

Lemma step_case_head kv vlog spec op ptr kv' r :
  kv_inv kv vlog spec → (is_get op = false → op_ok op) →
  step_case kv vlog spec op ptr kv' r →
  log_head kv ≤ log_head kv' ∧ log_cap kv' = log_cap kv.
Proof.
  intros Hinv Hop Hstep. destruct Hstep as [| | |kv' Hg _ Hins]; try (simpl; lia).
  pose proof (inv_wf _ _ _ Hinv) as Hwf. specialize (Hop Hg).
  destruct (bkt_of_lookup kv (op_key op) Hwf) as [bk Hbk].
  destruct (insert_one_Ok kv op bk Hwf Hop Hbk kv' Hins) as [_ Hi].
  pose proof Hop as (_ & Hv & _). unfold MICA_MAX_VALUE, sizeof_mica_key in Hv.
  rewrite (ins_head _ _ _ _ Hi).
  destruct (next_head_facts kv (18 + op_val_len op) Hwf ltac:(lia)) as (? & _).
  split; [lia|]. by destruct (ins_cfg _ _ _ _ Hi) as (_ & _ & ? & _).
Qed.
