(* ===== verification/MicaSpec.v ===== *)
(** * What the MICA store promises

    The store as a lossy map: [mica_reach kv spec] says that [kv] is a
    state that the operations of mica.c can produce and that [spec] maps
    each key to the value last put for it.  A GET may miss (an index or log
    eviction), but what it returns is the value of [spec].  The section on
    the second lap shows where that guarantee ends: the wrap-around test of
    [mica_insert_one] works for the first lap only. *)

From stdpp Require Import base gmap list numbers.
From Stdlib Require Import ZArith Lia.
From S2P Require Import Prelude City Mica MicaProof.

(** ** Requests and answers *)

(** [r] answers [op] in the final state [kv] with abstract store [spec]:
    the bytes that the response points to are the value of the key. *)
Definition answer (kv : mica_kv) (spec : gmap mica_key (list Z))
    (op : mica_op) (r : mica_resp) : Prop :=
  if is_get op then
    r = get_missed ∨
    ∃ v p, spec !! op_key op = Some v ∧
      r = Resp MICA_RESP_GET_SUCCESS (Z.of_nat (length v)) (Some p) ∧
      0 ≤ p ∧ p + Z.of_nat (length v) ≤ log_cap kv ∧
      mread_n (ht_log kv) p (length v) = v
  else r = put_done.

(** Requests as clients form them: a PUT has a legal length. *)
Definition req_ok (op : mica_op) : Prop := is_get op = false → op_ok op.

Definition spec_run (spec : gmap mica_key (list Z)) (ops : list mica_op) :=
  foldl spec_step spec ops.

(** An entry that is home answers a GET. *)
Lemma home_answer kv vlog spec o op n :
  kv_inv kv vlog spec → is_get op = true → home kv vlog spec o (op_key op) n →
  answer kv spec op (Resp MICA_RESP_GET_SUCCESS n (Some (o mod log_cap kv + 18))).
Proof.
  intros Hinv Hg (v & Hv & <- & Hl & Hs & _). unfold answer. rewrite Hg. right.
  destruct (log_key_entry kv vlog spec Hinv _ _ _ Hv Hl) as (_ & _ & Hr & Hb & _).
  pose proof (wf_cap_bounds _ (inv_wf _ _ _ Hinv)).
  pose proof (Z.mod_pos_bound o (log_cap kv) ltac:(lia)).
  exists v, (o mod log_cap kv + 18). repeat split; auto; lia.
Qed.

(** ** Batches of one request *)
Lemma batch_one kv op kv' rs :
  mica_batch_op kv [op] = Ok (kv', rs) →
  ∃ r, rs = [r] ∧ batch_step kv op (lookup_kv_ptr kv op) = Ok (kv', r).
Proof.
  unfold mica_batch_op. intros H. cbn [length map batch_loop] in H.
  inv_res. repeat case_match; inv_res. by eexists.
Qed.

Lemma batch_one_inv kv vlog spec op kv' rs :
  kv_inv kv vlog spec → req_ok op → mica_batch_op kv [op] = Ok (kv', rs) →
  (∃ vlog', kv_inv kv' vlog' (spec_step spec op)) ∧
  (∃ r, rs = [r] ∧ answer kv' (spec_step spec op) op r).
Proof.
  intros Hinv Hop H. destruct (batch_one _ _ _ _ H) as (r & -> & Hst).
  pose proof (batch_step_cases _ _ _ _ _ _ _ Hinv (lookup_pend _ _ _ Hinv op) Hst) as Hcase.
  destruct (step_case_inv _ _ _ _ _ _ _ Hinv Hop Hcase) as (vlog' & Hinv' & _ & Hhome).
  split; [by eauto|]. exists r. split; [done|].
  destruct Hcase as [o n Hg Hp Hho|Hg|o Hg|kv' Hg].
  - apply (home_answer (add_stats kv 1 0 0 0) vlog' _ o); auto. apply Hhome; auto.
    by destruct Hho as (? & ? & ? & ? & _).
  - unfold answer. rewrite Hg. by left.
  - unfold answer. by rewrite Hg.
  - unfold answer. by rewrite Hg.
Qed.

(** ** Batches of several requests

    The lookups of all requests come first.  A request finds its entry as
    long as no insertion of the same batch has overwritten it. *)
Definition coherent (ops : list (mica_op * option Z)) : Prop :=
  ∀ op1 p1 op2 p2, (op1, p1) ∈ ops → (op2, p2) ∈ ops → op_key op1 = op_key op2 → p1 = p2.

(** The entry behind [ptr] is not overtaken by the head before the state
    [kvf]. *)
Definition lasts (kvf kv : mica_kv) (vlog : gmap Z (mica_key * list Z)) (ptr : option Z) : Prop :=
  match ptr with
  | None => True
  | Some p => ∃ o k, p = o mod log_cap kv ∧ holds_key kv vlog o k ∧ live kvf o
  end.

Lemma live_back kv kv' o : log_head kv ≤ log_head kv' → log_cap kv' = log_cap kv → live kv' o → live kv o.
Proof. unfold live. lia. Qed.

(** What a request leaves of the pointers of the later ones. *)
Lemma pend_step kvf kv vlog spec kv' vlog' spec' op ptr op' ptr' :
  kv_inv kv vlog spec → log_cap kv' = log_cap kv → (∀ o, live kvf o → live kv' o) →
  (∀ o k, holds_key kv vlog o k → live kv' o → holds_key kv' vlog' o k) →
  (∀ o k n, home kv vlog spec o k n → live kv' o →
     (k = op_key op → ptr = Some (o mod log_cap kv)) → home kv' vlog' spec' o k n) →
  (op_key op = op_key op' → ptr = ptr') →
  pend kv vlog spec op' ptr' → lasts kvf kv vlog ptr' →
  pend kv' vlog' spec' op' ptr' ∧ lasts kvf kv' vlog' ptr'.
Proof.
  intros Hinv Hc Hl Hk Hh Hsame. destruct ptr' as [p|]; [|done].
  intros (o & -> & Hcase) (o2 & k2 & E & H2 & Hl2).
  assert (Hho : ∃ k, holds_key kv vlog o k).
  { destruct Hcase as [(k & Hkk & _)|(n & Hn)]; eauto using home_holds. }
  destruct Hho as [k0 Hk0]. pose proof (live_phys_inj _ _ _ _ _ _ _ Hinv H2 Hk0 (eq_sym E)) as ->.
  split; [|exists o, k2; rewrite Hc; auto].
  exists o. split; [by rewrite Hc|]. destruct Hcase as [(k & Hkk & Hne)|(n & Hn)].
  - left. exists k. auto.
  - right. exists n. apply Hh; auto.
Qed.

(** One step of the third loop. *)
Lemma batch_step_spec kv vlog spec op ptr kv' r :
  kv_inv kv vlog spec → req_ok op → pend kv vlog spec op ptr → batch_step kv op ptr = Ok (kv', r) →
  ∃ vlog', kv_inv kv' vlog' (spec_step spec op) ∧ (indexed kv spec → indexed kv' (spec_step spec op)) ∧
    (∀ o k, holds_key kv vlog o k → live kv' o → holds_key kv' vlog' o k) ∧
    (∀ o k n, home kv vlog spec o k n → live kv' o →
       (k = op_key op → ptr = Some (o mod log_cap kv)) →
       home kv' vlog' (spec_step spec op) o k n) ∧
    ((∃ o n, is_get op = true ∧ ptr = Some (o mod log_cap kv) ∧ holds_key kv vlog o (op_key op) ∧
        home kv' vlog' (spec_step spec op) o (op_key op) n ∧
        r = Resp MICA_RESP_GET_SUCCESS n (Some (o mod log_cap kv + 18))) ∨
     (is_get op = true ∧ r = get_missed) ∨ (is_get op = false ∧ r = put_done)).
Proof.
  intros Hinv Hop Hp Hst. pose proof (batch_step_cases _ _ _ _ _ _ _ Hinv Hp Hst) as Hcase.
  destruct (step_case_inv _ _ _ _ _ _ _ Hinv Hop Hcase) as (vlog' & Hinv' & Hk & Hh).
  exists vlog'. split; [done|]. split; [by eapply step_case_indexed|]. split; [done|]. split; [done|].
  destruct Hcase as [o n Hg Hpt Hho|Hg|o Hg|kv' Hg]; auto.
  left. exists o, n. do 2 (split; [done|]). split; [by eapply home_holds|]. split; [|done]. apply Hh; auto.
  by destruct Hho as (v & _ & _ & Hl & _).
Qed.

(** The head only moves forward, whatever the requests find. *)
Lemma insert_one_mono kv op kv' :
  kv_wf kv → op_ok op → mica_insert_one kv op = Ok kv' →
  kv_wf kv' ∧ log_head kv ≤ log_head kv' ∧ log_cap kv' = log_cap kv.
Proof.
  intros Hwf Hop Hins. destruct (bkt_of_lookup kv (op_key op) Hwf) as [bk Hbk].
  destruct (insert_one_Ok kv op bk Hwf Hop Hbk kv' Hins) as [Hf Hi].
  split; [by eapply kv_wf_inserted|]. pose proof Hop as (_ & Hv & _).
  unfold MICA_MAX_VALUE, sizeof_mica_key in Hv. rewrite (ins_head _ _ _ _ Hi).
  destruct (next_head_facts kv (18 + op_val_len op) Hwf ltac:(lia)) as (? & _).
  split; [lia|]. by destruct (ins_cfg _ _ _ _ Hi) as (_ & _ & ? & _).
Qed.

Lemma batch_step_mono kv op ptr kv' r :
  kv_wf kv → req_ok op → batch_step kv op ptr = Ok (kv', r) →
  kv_wf kv' ∧ log_head kv ≤ log_head kv' ∧ log_cap kv' = log_cap kv.
Proof.
  intros Hwf Hop H. unfold batch_step in H. fold (is_get op) in H. inv_res.
  destruct a as [p|]; inv_res; destruct (is_get op) eqn:Hg; inv_res;
    try (split; [by eapply (kv_wf_same kv)|simpl; lia]).
  apply insert_one_mono with op; auto.
Qed.

Lemma batch_loop_mono ops : ∀ kv kv' rs,
  kv_wf kv → Forall (λ x, req_ok x.1) ops → batch_loop kv ops = Ok (kv', rs) →
  kv_wf kv' ∧ log_head kv ≤ log_head kv' ∧ log_cap kv' = log_cap kv.
Proof.
  induction ops as [|[op p] ops IH]; intros kv kv' rs Hwf Hok H; simpl in H; inv_res; [split; [done|lia]|].
  apply list.Forall_cons in Hok as [Hop Hok]. destruct a as [kv1 r]. inv_res.
  destruct a as [kv2 rs']. inv_res.
  destruct (batch_step_mono kv op p kv1 r) as (? & ? & ?); auto.
  destruct (IH kv1 kv' rs') as (? & ? & ?); auto. split; [done|lia].
Qed.

Lemma batch_op_mono kv ops kv' rs :
  kv_wf kv → Forall req_ok ops → mica_batch_op kv ops = Ok (kv', rs) →
  kv_wf kv' ∧ log_head kv ≤ log_head kv' ∧ log_cap kv' = log_cap kv.
Proof.
  intros Hwf Hok H. unfold mica_batch_op in H. inv_res. eapply batch_loop_mono; [done| |exact H].
  by apply list.Forall_fmap.
Qed.

Lemma batch_loop_spec ops : ∀ kv vlog spec kv' rs,
  kv_inv kv vlog spec → Forall (λ x, req_ok x.1) ops →
  Forall (λ x, pend kv vlog spec x.1 x.2 ∧ lasts kv' kv vlog x.2) ops → coherent ops →
  batch_loop kv ops = Ok (kv', rs) →
  ∃ vlog', kv_inv kv' vlog' (spec_run spec ops.*1) ∧
    (indexed kv spec → indexed kv' (spec_run spec ops.*1)) ∧
    Forall2 (answer kv' (spec_run spec ops.*1)) ops.*1 rs ∧
    (∀ o k n, home kv vlog spec o k n → live kv' o →
       (∀ op p, (op, p) ∈ ops → op_key op = k → p = Some (o mod log_cap kv)) →
       home kv' vlog' (spec_run spec ops.*1) o k n).
Proof.
  induction ops as [|[op p] ops IH]; intros kv vlog spec kv' rs Hinv Hok Hpend Hco H.
  { simpl in H. inv_res. exists vlog. split; [done|]. split; [done|]. split; [constructor|auto]. }
  apply list.Forall_cons in Hok as [Hop Hok]. apply Forall_cons_1 in Hpend as [[Hp Hlast] Hpend].
  simpl in H. inv_res. destruct a as [kv1 r]. inv_res. destruct a as [kv2 rs']. inv_res.
  destruct (batch_step_mono kv op p kv1 r) as (Hwf1 & Hh1 & Hc1); [apply Hinv|done|done|].
  destruct (batch_loop_mono ops kv1 kv' rs') as (_ & Hh2 & Hc2); auto.
  assert (Hback : ∀ o, live kv' o → live kv1 o) by (intros o; by apply live_back).
  destruct (batch_step_spec kv vlog spec op p kv1 r) as (vlog1 & Hinv1 & Hix1 & Hk1 & Hho1 & Hr); [done..|].
  destruct (IH kv1 vlog1 (spec_step spec op) kv' rs') as (vlog' & Hinv' & Hix' & Hans & Hho'); auto.
  { apply list.Forall_forall. intros [op' p'] Hin.
    destruct (proj1 (list.Forall_forall _ _) Hpend (op', p') Hin) as [Hp' Hl'].
    eapply (pend_step kv' kv); try done. intros E. eapply Hco; [left|right; exact Hin|done]. }
  { intros ? ? ? ? ? ?. eapply Hco; by right. }
  exists vlog'. split; [done|]. split; [auto|].
  split.
  - simpl. constructor; [|done]. destruct Hr as [(o & n & Hg & -> & Hk & Hn & ->)|[[Hg ->]|[Hg ->]]].
    + destruct Hlast as (o2 & k2 & E & H2 & Hl2).
      pose proof (live_phys_inj _ _ _ _ _ _ _ Hinv H2 Hk (eq_sym E)) as ->.
      rewrite <-Hc1, <-Hc2. apply (home_answer _ vlog'); auto. apply Hho'; [done|done|].
      intros op0 p0 Hin Hkey. rewrite Hc1. symmetry. eapply Hco; [left|by right|done].
    + unfold answer. rewrite Hg. by left.
    + unfold answer. by rewrite Hg.
  - intros o k n Hn Hl Ho. apply Hho'; [|done|].
    + apply Hho1; [done|auto|]. intros ->. eapply Ho; [left|done].
    + intros op0 p0 Hin Hkey. rewrite Hc1. eapply Ho; [by right|done].
Qed.

(** The log offset of the entry that the first loop finds for a request. *)
Definition entry_offset (kv : mica_kv) (op : mica_op) : option Z :=
  slot_offset <$> find_tag (key_tag (op_key op))
    (default [] (ht_index kv !! Z.to_nat (bkt_of kv (op_key op)))).

(** The insertions of the batch that led from [kv] to [kv'] have not
    overwritten an entry that a request of the batch had found. *)
Definition undisturbed (kv : mica_kv) (ops : list mica_op) (kv' : mica_kv) : Prop :=
  ∀ op o, op ∈ ops → entry_offset kv op = Some o → live kv o → live kv' o.

(** So it is on the first lap. *)
Lemma first_lap_undisturbed kv vlog spec ops kv' :
  kv_inv kv vlog spec → log_cap kv' = log_cap kv → log_head kv' < log_cap kv → undisturbed kv ops kv'.
Proof.
  intros Hinv Hc Hhd op o _ E _. unfold entry_offset in E. apply fmap_Some in E as (s & Hs & ->).
  apply find_tag_spec in Hs as (j & Hj & Hin & _).
  destruct (bkt_of_lookup kv (op_key op) (inv_wf _ _ _ Hinv)) as [bk Hbk]. rewrite Hbk in Hj.
  pose proof (slot_offset_range _ _ _ Hinv _ _ _ _ Hbk Hj Hin). unfold live. lia.
Qed.

Lemma lookup_lasts kv vlog spec ops kv' op :
  kv_inv kv vlog spec → undisturbed kv ops kv' → op ∈ ops → lasts kv' kv vlog (lookup_kv_ptr kv op).
Proof.
  intros Hinv Hun Hin. pose proof (inv_wf _ _ _ Hinv) as Hwf. specialize (Hun op).
  unfold lookup_kv_ptr, lasts. unfold entry_offset in Hun.
  change (key_bkt (op_key op) .& bkt_mask kv) with (bkt_of kv (op_key op)).
  destruct (bkt_of_lookup kv (op_key op) Hwf) as [bk Hbk]. rewrite Hbk in *. simpl in *.
  destruct (find_tag (key_tag (op_key op)) bk) as [s|] eqn:E; [|done].
  apply find_tag_spec in E as (j & Hj & Hused & Htag).
  rewrite (u64_age _ _ _ Hinv _ _ _ _ Hbk Hj Hused). destruct (log_cap kv <=? _) eqn:Hc; [done|].
  apply Z.leb_gt in Hc. destruct (inv_slot _ _ _ Hinv _ _ _ _ Hbk Hj Hused) as (k & v & Hv & _).
  exists (slot_offset s), k. split; [by apply wf_phys|]. split; [by exists v|].
  by apply Hun.
Qed.

Lemma batch_spec kv vlog spec ops kv' rs :
  kv_inv kv vlog spec → Forall req_ok ops → mica_batch_op kv ops = Ok (kv', rs) → undisturbed kv ops kv' →
  (∃ vlog', kv_inv kv' vlog' (spec_run spec ops)) ∧
  (indexed kv spec → indexed kv' (spec_run spec ops)) ∧
  Forall2 (answer kv' (spec_run spec ops)) ops rs.
Proof.
  intros Hinv Hok H Hun. unfold mica_batch_op in H. inv_res.
  set (l := map (λ op, (op, lookup_kv_ptr kv op)) ops) in *.
  assert (Hl : l.*1 = ops) by (subst l; rewrite <-list_fmap_compose; apply list_fmap_id).
  destruct (batch_loop_spec l kv vlog spec kv' rs) as (vlog' & Hinv' & Hix & Hans & _); auto.
  - subst l. by apply list.Forall_fmap.
  - subst l. apply list.Forall_fmap, list.Forall_forall. intros op Hin. split; [by apply lookup_pend|].
    by eapply lookup_lasts.
  - intros op1 p1 op2 p2 H1 H2 E. subst l.
    apply list_elem_of_fmap in H1 as (? & [= <- ->] & _).
    apply list_elem_of_fmap in H2 as (? & [= <- ->] & _).
    unfold lookup_kv_ptr. by rewrite E.
  - rewrite Hl in *. eauto.
Qed.

Lemma batch_first_lap kv vlog spec ops kv' rs :
  kv_inv kv vlog spec → Forall req_ok ops → mica_batch_op kv ops = Ok (kv', rs) →
  log_head kv' < log_cap kv →
  (∃ vlog', kv_inv kv' vlog' (spec_run spec ops)) ∧
  Forall2 (answer kv' (spec_run spec ops)) ops rs.
Proof.
  intros Hinv Hok H Hhd. destruct (batch_op_mono _ _ _ _ (inv_wf _ _ _ Hinv) Hok H) as (_ & _ & Hc).
  destruct (batch_spec kv vlog spec ops kv' rs) as (? & _ & ?); auto. by eapply first_lap_undisturbed.
Qed.

(** ** Initial states *)
Lemma forallb_seq (P : nat → bool) n i :
  forallb P (seq 0 n) = true → (i < n)%nat → P i = true.
Proof. intros H Hi. eapply forallb_forall in H; [exact H|]. apply in_seq. lia. Qed.

Lemma is_power_of_2_spec x : is_power_of_2 x = true ↔ ∃ n, 0 ≤ n ≤ 30 ∧ x = 2 ^ n.
Proof.
  split.
  - unfold is_power_of_2. rewrite !orb_true_iff, !Z.eqb_eq. intros H.
    exists (Z.log2 x). repeat destruct H as [H|H]; subst x; vm_compute; intuition discriminate.
  - intros (n & Hn & ->). rewrite <-(Z2Nat.id n) by lia.
    apply (forallb_seq (λ i, is_power_of_2 (2 ^ Z.of_nat i)) 31); [by vm_compute|lia].
Qed.

Lemma pow2_le_inv a b : 0 ≤ a → 0 ≤ b → 2 ^ a ≤ 2 ^ b → a ≤ b.
Proof. intros ? ? H. apply Z.pow_le_mono_r_iff in H; lia. Qed.

(** The shared-memory segment of the index as [hrd_malloc_socket] gives it:
    [nb] buckets of 8 slots with any contents. *)
Definition shm_ok (shm_index : list (list mica_slot)) (nb : Z) : Prop :=
  Z.of_nat (length shm_index) = nb ∧ Forall (λ bk, length bk = 8%nat) shm_index.

Lemma kv_wf_init ix lg inst node nb cap kv :
  shm_ok ix nb → mica_init ix lg inst node nb cap = Ok kv →
  kv_wf kv ∧ log_head kv = 0 ∧ log_cap kv = cap ∧
  ht_index kv = map (map clear_in_use) ix ∧
  num_put_op kv = 0 ∧ num_index_evictions kv = 0.
Proof.
  intros [Hlen _] H. unfold mica_init in H. inv_res.
  rewrite !andb_true_iff, ?Z.leb_le, ?Z.ltb_lt, ?Z.eqb_eq, ?is_power_of_2_spec in *.
  destruct H1 as [(n & Hn & Hnb) Hn'], H2 as [[[? Hc] Hm] (m & Hm' & ->)].
  rewrite Hnb in Hn'. change M_16 with (2 ^ 24) in Hn'. apply pow2_le_inv in Hn'; [|lia..].
  assert (Hm2 : 21 ≤ m).
  { apply pow2_le_inv; [lia..|]. change (2 ^ 21) with M_2.
    apply Z.divide_pos_le; [lia|]. by apply Z.mod_divide in Hm. }
  rewrite take_ge, drop_ge, app_nil_r by lia.
  split; [|done]. constructor; cbn; try done.
  - exists n. split; [lia|done].
  - by rewrite length_map.
  - exists m. split; [lia|done].
  - pose proof (pow2_bound m 21 30 ltac:(lia) ltac:(lia)). lia.
Qed.

Lemma kv_inv_init ix lg inst node nb cap kv :
  shm_ok ix nb → mica_init ix lg inst node nb cap = Ok kv → kv_inv kv ∅ ∅.
Proof.
  intros Hshm H. destruct (kv_wf_init _ _ _ _ _ _ _ Hshm H) as (Hwf & _ & _ & Hix & _).
  assert (Hun : ∀ b bk, ht_index kv !! b = Some bk → length bk = 8%nat ∧
    ∀ j s, bk !! j = Some s → slot_in_use s = 0).
  { intros b bk Hb. rewrite Hix in Hb.
    apply list_lookup_fmap_Some in Hb as (bk0 & -> & Hb). split.
    - rewrite length_map. destruct Hshm as [_ Hf]. by eapply (Forall_lookup_1 _ _ _ _ Hf).
    - intros j s Hj. by apply list_lookup_fmap_Some in Hj as (s0 & -> & _). }
  constructor; try done.
  - intros b bk Hb. destruct (Hun b bk Hb) as [Hl Hz].
    split; [done|]. split; [intros i s Hi; left; by eapply Hz|].
    split; intros i j si sj; [intros _|]; intros Hi Hj Hin; rewrite (Hz _ _ Hi) in Hin; done.
  - intros b bk j s Hb Hj Hin. destruct (Hun b bk Hb) as [_ Hz]. by rewrite (Hz _ _ Hj) in Hin.
Qed.

(** ** Reachable states

    All that the operations of mica.c can produce while the contents of the
    store are determined: a batch whose own insertions overwrite an entry
    that it has looked up compares, and writes, bytes of another entry.  On
    the first lap no batch does so ([reach_first_lap]). *)
Inductive mica_reach : mica_kv → gmap mica_key (list Z) → Prop :=
| reach_init ix lg inst node nb cap kv :
    shm_ok ix nb → mica_init ix lg inst node nb cap = Ok kv → mica_reach kv ∅
| reach_insert kv spec op kv' :
    mica_reach kv spec → op_ok op → mica_insert_one kv op = Ok kv' →
    mica_reach kv' (<[op_key op := op_val op]> spec)
| reach_op kv spec op kv' rs :
    mica_reach kv spec → req_ok op → mica_batch_op kv [op] = Ok (kv', rs) →
    mica_reach kv' (spec_step spec op)
| reach_batch kv spec ops kv' rs :
    mica_reach kv spec → Forall req_ok ops → mica_batch_op kv ops = Ok (kv', rs) →
    undisturbed kv ops kv' → mica_reach kv' (spec_run spec ops).

Lemma reach_all kv spec : mica_reach kv spec → (∃ vlog, kv_inv kv vlog spec) ∧ indexed kv spec.
Proof.
  induction 1 as [ix lg inst node nb cap kv Hs Hi|kv spec op kv' _ [[vlog Hinv] Hix] Hop Hi
    |kv spec op kv' rs _ [[vlog Hinv] Hix] Hop Hb|kv spec ops kv' rs _ [[vlog Hinv] Hix] Hops Hb Hun].
  - split; [exists ∅; by eapply kv_inv_init|]. destruct (kv_wf_init _ _ _ _ _ _ _ Hs Hi) as (_ & _ & _ & _ & _ & He).
    split; [lia|]. intros _ k Hk. rewrite lookup_empty in Hk. by destruct Hk.
  - split; [eexists; by eapply kv_inv_insert|]. by eapply indexed_insert.
  - split; [by eapply (batch_one_inv kv vlog spec)|]. destruct (batch_one _ _ _ _ Hb) as (r & _ & Hst).
    eapply step_case_indexed; [done|done| |done].
    apply batch_step_cases; [done|by apply lookup_pend|exact Hst].
  - destruct (batch_spec kv vlog spec ops kv' rs Hinv Hops Hb Hun) as (? & ? & _). auto.
Qed.

Lemma reach_inv kv spec : mica_reach kv spec → ∃ vlog, kv_inv kv vlog spec.
Proof. apply reach_all. Qed.

Lemma reach_first_lap kv spec ops kv' rs :
  mica_reach kv spec → Forall req_ok ops → mica_batch_op kv ops = Ok (kv', rs) →
  log_head kv' < log_cap kv → mica_reach kv' (spec_run spec ops).
Proof.
  intros Hr Hok Hb Hhd. eapply reach_batch; [done..|]. destruct (reach_inv _ _ Hr) as [vlog Hinv].
  destruct (batch_op_mono _ _ _ _ (inv_wf _ _ _ Hinv) Hok Hb) as (_ & _ & Hc). by eapply first_lap_undisturbed.
Qed.

Lemma reach_wf kv spec : mica_reach kv spec → kv_wf kv.
Proof. intros [vlog Hinv]%reach_inv. apply Hinv. Qed.

(** ** Totality *)

(** A GET never stops the server. *)
Lemma get_total kv vlog spec op :
  kv_inv kv vlog spec → is_get op = true →
  ∃ kv' r, mica_batch_op kv [op] = Ok (kv', [r]) ∧
    ht_index kv' = ht_index kv ∧ ht_log kv' = ht_log kv ∧ log_head kv' = log_head kv.
Proof.
  intros Hinv Hg. pose proof (lookup_pend kv vlog spec Hinv op) as Hp.
  unfold mica_batch_op, batch_loop, batch_step. cbn [map]. fold (is_get op). rewrite Hg.
  cbn [length in_bounds res_bind Z.of_nat]. change (Z.of_nat 1 <=? MICA_MAX_BATCH_SIZE) with true.
  cbn [in_bounds res_bind].
  destruct (lookup_kv_ptr kv op) as [p|]; [|by repeat eexists].
  destruct Hp as (o & -> & [(k & (v & Hv & Hl) & Hne)|(n & v & Hv & Hn & Hl & Hs & Hh)]);
    destruct (log_key_entry kv vlog spec Hinv _ _ _ Hv Hl) as (-> & Hlen & _);
    cbn [res_bind]; [rewrite decide_False by done|rewrite decide_True by done; rewrite Hlen];
    by repeat eexists.
Qed.

Lemma first_lap_fits kv op :
  kv_wf kv → op_ok op → log_head kv ≤ log_cap kv → insert_fits kv op.
Proof.
  intros Hwf (_ & Hv & _) Hh. unfold MICA_MAX_VALUE, sizeof_mica_key in Hv.
  pose proof (wf_cap_bounds _ Hwf). pose proof (wf_head _ Hwf). split; [lia|].
  destruct (wf_lap _ Hwf) as [Hl|Hl].
  - rewrite Z.mod_small by lia. lia.
  - replace (log_head kv) with (log_cap kv) by lia. rewrite Z_mod_same_full. lia.
Qed.

Lemma insert_first_lap kv op :
  kv_wf kv → op_ok op → log_head kv ≤ log_cap kv →
  ∃ bk kv', mica_insert_one kv op = Ok kv' ∧ inserted kv op bk kv' ∧ kv_wf kv'.
Proof.
  intros Hwf Hop Hh. pose proof (first_lap_fits kv op Hwf Hop Hh) as Hf.
  destruct (bkt_of_lookup kv (op_key op) Hwf) as [bk Hbk].
  destruct (insert_one_cases kv op bk Hwf Hop Hbk) as [(_ & kv' & Hk & Hi)|[? _]]; [|done].
  exists bk, kv'. split; [done|]. split; [done|]. by eapply kv_wf_inserted.
Qed.

(** After an insertion the lookup finds the new entry. *)
Lemma lookup_inserted kv vlog spec op kv' op' :
  kv_inv kv vlog spec → op_ok op → mica_insert_one kv op = Ok kv' →
  op_key op' = op_key op → lookup_kv_ptr kv' op' = Some (log_head kv mod log_cap kv).
Proof.
  intros Hinv Hop Hins Hk. pose proof (inv_wf _ _ _ Hinv) as Hwf.
  destruct (bkt_of_lookup kv (op_key op) Hwf) as [bk Hbk].
  destruct (insert_one_Ok kv op bk Hwf Hop Hbk kv' Hins) as [Hf Hi].
  pose proof (kv_inv_insert _ _ _ Hinv _ _ Hop Hins) as Hinv'.
  pose proof (inv_wf _ _ _ Hinv') as Hwf'.
  pose proof (ins_index _ _ _ _ Hi) as Hix. destruct (ins_cfg _ _ _ _ Hi) as (_ & Hbm & Hc & _).
  pose proof (proj1 (key_tag_range (op_key op))) as Htag.
  destruct (chosen_slot_spec _ _ (inv_bkt _ _ _ Hinv _ _ Hbk) Htag) as (Hc8 & _).
  pose proof (inv_bkt _ _ _ Hinv _ _ Hbk) as (Hl8 & _).
  set (j := chosen_slot (key_tag (op_key op)) bk) in *.
  set (s := Slot 1 (key_tag (op_key op)) (log_head kv)) in *.
  assert (Hb' : ht_index kv' !! Z.to_nat (bkt_of kv (op_key op)) = Some (<[j:=s]> bk)).
  { rewrite Hix. apply list_lookup_insert_eq. by eapply lookup_lt_Some. }
  assert (Hj' : <[j:=s]> bk !! j = Some s) by (apply list_lookup_insert_eq; lia).
  unfold lookup_kv_ptr. rewrite Hk, Hbm. fold (bkt_of kv (op_key op)). rewrite Hb'. simpl.
  destruct (find_tag (key_tag (op_key op)) (<[j:=s]> bk)) as [s'|] eqn:E.
  2: { by destruct (find_tag_None _ _ _ _ E Hj'). }
  apply find_tag_spec in E as (j' & Hj1 & Hin1 & Ht1).
  destruct (inv_bkt _ _ _ Hinv' _ _ Hb') as (_ & _ & _ & Hu).
  assert (j' = j) as -> by (by eapply Hu).
  rewrite Hj' in Hj1. injection Hj1 as <-.
  rewrite (u64_age _ _ _ Hinv' _ _ _ _ Hb' Hj') by done. simpl.
  pose proof Hop as (_ & Hv & _). unfold MICA_MAX_VALUE, sizeof_mica_key in Hv.
  destruct (next_head_facts kv (18 + op_val_len op) Hwf ltac:(lia)) as (_ & _ & Hlt & _).
  rewrite <-(ins_head _ _ _ _ Hi) in Hlt.
  rewrite (proj2 (Z.leb_gt _ _)) by lia. by rewrite wf_phys, Hc.
Qed.

(** A GET whose lookup leads to a live entry for its key. *)
Lemma get_found kv vlog spec op o v :
  kv_inv kv vlog spec → is_get op = true → lookup_kv_ptr kv op = Some (o mod log_cap kv) →
  vlog !! o = Some (op_key op, v) → live kv o →
  mica_batch_op kv [op] =
    Ok (add_stats kv 1 0 0 0,
        [Resp MICA_RESP_GET_SUCCESS (Z.of_nat (length v)) (Some (o mod log_cap kv + 18))]) ∧
  mread_n (ht_log kv) (o mod log_cap kv + 18) (length v) = v.
Proof.
  intros Hinv Hg Hp Hv Hl. destruct (log_key_entry kv vlog spec Hinv _ _ _ Hv Hl) as (Hkey & Hlen & Hrd & _).
  split; [|done]. unfold mica_batch_op, batch_loop, batch_step. cbn [map]. fold (is_get op). rewrite Hg, Hp.
  change (Z.of_nat (length [op]) <=? MICA_MAX_BATCH_SIZE) with true.
  cbn [in_bounds res_bind]. rewrite Hkey. cbn [res_bind]. by rewrite decide_True, Hlen by done.
Qed.

Lemma insert_then_get kv vlog spec op kv' op' :
  kv_inv kv vlog spec → op_ok op → mica_insert_one kv op = Ok kv' →
  is_get op' = true → op_key op' = op_key op →
  ∃ p, mica_batch_op kv' [op'] =
         Ok (add_stats kv' 1 0 0 0,
             [Resp MICA_RESP_GET_SUCCESS (op_val_len op) (Some p)]) ∧
    mread_n (ht_log kv') p (Z.to_nat (op_val_len op)) = op_val op.
Proof.
  intros Hinv Hop Hins Hg Hk. pose proof (lookup_inserted _ _ _ _ _ op' Hinv Hop Hins Hk) as Hp.
  pose proof (kv_inv_insert _ _ _ Hinv _ _ Hop Hins) as Hinv'.
  destruct (insert_one_mono _ _ _ (inv_wf _ _ _ Hinv) Hop Hins) as (_ & _ & Hc).
  assert (Hl : live kv' (log_head kv)).
  { destruct (bkt_of_lookup kv (op_key op) (inv_wf _ _ _ Hinv)) as [bk Hbk].
    destruct (insert_one_Ok kv op bk (inv_wf _ _ _ Hinv) Hop Hbk kv' Hins) as [_ Hi].
    pose proof Hop as (_ & Hvl & _). unfold MICA_MAX_VALUE, sizeof_mica_key in Hvl.
    destruct (next_head_facts kv (18 + op_val_len op) (inv_wf _ _ _ Hinv) ltac:(lia))
      as (_ & _ & Hlt & _).
    unfold live. rewrite (ins_head _ _ _ _ Hi), Hc. lia. }
  rewrite <-Hc in Hp. destruct (get_found kv' _ _ op' _ (op_val op) Hinv' Hg Hp) as [E Hrd]; [|done|].
  { rewrite Hk. apply lookup_insert_eq. }
  rewrite (length_op_val op Hop) in E. eexists. split; [exact E|].
  by replace (Z.to_nat (op_val_len op)) with (length (op_val op)) by (rewrite <-(length_op_val op Hop); lia).
Qed.

(** No two keys of the store share bucket and tag. *)
Definition tags_apart (kv : mica_kv) (spec : gmap mica_key (list Z)) : Prop :=
  ∀ k1 k2, is_Some (spec !! k1) → is_Some (spec !! k2) →
    bkt_of kv k1 = bkt_of kv k2 → key_tag k1 = key_tag k2 → k1 = k2.

(** Nothing is lost on the first lap without an eviction. *)
Lemma get_hits kv vlog spec op v :
  kv_inv kv vlog spec → indexed kv spec → num_index_evictions kv = 0 → log_head kv < log_cap kv →
  tags_apart kv spec → is_get op = true → spec !! op_key op = Some v →
  ∃ p, mica_batch_op kv [op] =
         Ok (add_stats kv 1 0 0 0, [Resp MICA_RESP_GET_SUCCESS (Z.of_nat (length v)) (Some p)]) ∧
    mread_n (ht_log kv) p (length v) = v.
Proof.
  intros Hinv [_ Hix] Hev Hlap Hapart Hg Hv. pose proof (inv_wf _ _ _ Hinv) as Hwf.
  destruct (Hix Hev (op_key op) ltac:(by eexists)) as (bk & j & s & Hb & Hj & Hin & Ht).
  destruct (find_tag (key_tag (op_key op)) bk) as [s'|] eqn:E.
  2:{ by destruct (find_tag_None _ _ _ _ E Hj Hin). }
  pose proof (find_tag_spec _ _ _ E) as (j' & Hj' & Hin' & Ht').
  destruct (inv_slot _ _ _ Hinv _ _ _ _ Hb Hj' Hin') as (k' & v' & Hv' & Hkt & Hkb & Hs').
  assert (k' = op_key op) as ->.
  { apply Hapart; [by eexists|by eexists| |congruence].
    pose proof (bkt_of_range kv k' Hwf). pose proof (bkt_of_range kv (op_key op) Hwf). lia. }
  rewrite Hv in Hs'. injection Hs' as <-.
  pose proof (slot_offset_range _ _ _ Hinv _ _ _ _ Hb Hj' Hin').
  eexists. eapply (get_found kv vlog spec op (slot_offset s')); [done|done| |done|unfold live; lia].
  unfold lookup_kv_ptr. fold (bkt_of kv (op_key op)). rewrite Hb. simpl. rewrite E.
  rewrite (u64_age _ _ _ Hinv _ _ _ _ Hb Hj' Hin'), (proj2 (Z.leb_gt _ _)) by lia. by rewrite wf_phys.
Qed.

(** A GET of a reachable store: what it returns is the value of the map, it
    changes nothing but statistics, and it misses only after an eviction, a
    wrap-around, or for a key that shares bucket and tag with another. *)
Definition get_agrees (kv : mica_kv) (spec : gmap mica_key (list Z)) (op : mica_op) : Prop :=
  ∃ kv' r, mica_batch_op kv [op] = Ok (kv', [r]) ∧
    ht_index kv' = ht_index kv ∧ ht_log kv' = ht_log kv ∧ log_head kv' = log_head kv ∧
    answer kv' spec op r ∧
    (num_index_evictions kv = 0 → log_head kv < log_cap kv → tags_apart kv spec →
     is_Some (spec !! op_key op) → resp_type r = MICA_RESP_GET_SUCCESS).

Lemma reach_get kv spec op : mica_reach kv spec → is_get op = true → get_agrees kv spec op.
Proof.
  intros [[vlog Hinv] Hix]%reach_all Hg.
  destruct (get_total kv vlog spec op Hinv Hg) as (kv' & r & H & Hi & Hl & Hh).
  assert (Hr : req_ok op) by (unfold req_ok; congruence).
  destruct (batch_one_inv kv vlog spec op kv' [r] Hinv Hr H) as (_ & r' & [= <-] & Ha).
  unfold spec_step in Ha. rewrite Hg in Ha.
  exists kv', r. repeat (split; [done|]). intros Hev Hlap Hap [v Hv].
  destruct (get_hits kv vlog spec op v) as (p & E & _); try done. rewrite H in E. by injection E as _ ->.
Qed.

(** The index alone, after any batch that returns. *)
Definition buckets_ok (kv : mica_kv) : Prop := ∀ b bk, ht_index kv !! b = Some bk → bkt_ok bk.

Lemma insert_one_buckets kv op kv' :
  kv_wf kv → buckets_ok kv → op_ok op → mica_insert_one kv op = Ok kv' → buckets_ok kv'.
Proof.
  intros Hwf Hb Hop Hins. destruct (bkt_of_lookup kv (op_key op) Hwf) as [bk Hbk].
  destruct (insert_one_Ok kv op bk Hwf Hop Hbk kv' Hins) as [_ Hi].
  intros b bk' Hb'. rewrite (ins_index _ _ _ _ Hi) in Hb'.
  apply list_lookup_insert_Some in Hb' as [(_ & <- & _)|[_ Hb']]; [|by eapply Hb].
  apply bkt_ok_insert; [by eapply Hb|apply key_tag_range|done|done].
Qed.

Lemma batch_step_buckets kv op ptr kv' r :
  kv_wf kv → buckets_ok kv → req_ok op → batch_step kv op ptr = Ok (kv', r) → buckets_ok kv'.
Proof.
  intros Hwf Hb Hop H. unfold batch_step in H. fold (is_get op) in H. inv_res.
  destruct a as [p|]; inv_res; destruct (is_get op) eqn:Hg; inv_res; try exact Hb.
  apply (insert_one_buckets kv op); auto.
Qed.

Lemma batch_loop_buckets ops : ∀ kv kv' rs,
  kv_wf kv → buckets_ok kv → Forall (λ x, req_ok x.1) ops → batch_loop kv ops = Ok (kv', rs) → buckets_ok kv'.
Proof.
  induction ops as [|[op p] ops IH]; intros kv kv' rs Hwf Hb Hok H; simpl in H; inv_res; [done|].
  apply list.Forall_cons in Hok as [Hop Hok]. destruct a as [kv1 r]. inv_res. destruct a as [kv2 rs']. inv_res.
  destruct (batch_step_mono kv op p kv1 r) as (Hwf1 & _); auto.
  eapply (IH kv1); [exact Hwf1|by apply (batch_step_buckets kv op p kv1 r)|done|done].
Qed.

Lemma batch_op_buckets kv ops kv' rs :
  kv_wf kv → buckets_ok kv → Forall req_ok ops → mica_batch_op kv ops = Ok (kv', rs) → buckets_ok kv'.
Proof.
  intros Hwf Hb Hok H. unfold mica_batch_op in H. inv_res. eapply batch_loop_buckets; [done|done| |exact H].
  by apply list.Forall_fmap.
Qed.

(** All states that initialisation, insertions and batches of any size can
    produce, on any lap. *)
Inductive mica_states : mica_kv → Prop :=
| states_init ix lg inst node nb cap kv :
    shm_ok ix nb → mica_init ix lg inst node nb cap = Ok kv → mica_states kv
| states_insert kv op kv' :
    mica_states kv → op_ok op → mica_insert_one kv op = Ok kv' → mica_states kv'
| states_batch kv ops kv' rs :
    mica_states kv → Forall req_ok ops → mica_batch_op kv ops = Ok (kv', rs) → mica_states kv'.

Lemma states_inv kv : mica_states kv → kv_wf kv ∧ buckets_ok kv.
Proof.
  induction 1 as [ix lg inst node nb cap kv Hs Hi|kv op kv' _ [Hwf Hb] Hop Hi|kv ops kv' rs _ [Hwf Hb] Hops Hr].
  - pose proof (kv_inv_init _ _ _ _ _ _ _ Hs Hi) as Hinv. split; [apply Hinv|exact (inv_bkt _ _ _ Hinv)].
  - split; [by apply (insert_one_mono kv op)|by eapply insert_one_buckets].
  - split; [by apply (batch_op_mono kv ops kv' rs)|by eapply batch_op_buckets].
Qed.
