(* ===== verification/MicaThms.v ===== *)
(** * Theorems about the MICA store

    Population of a store, the second lap of the log, and the properties of
    the store against its abstract map. *)

From stdpp Require Import base gmap list numbers.
From Stdlib Require Import ZArith Lia.
From S2P Require Import Prelude City Mica MicaProof MicaSpec.

(** The bytes that an entry with [n] bytes of value takes in the log. *)
Definition entry_size (n : Z) : Z := 8 * ((18 + n + 7) / 8).

Lemma entry_size_bounds n : 0 ≤ n ≤ 46 → 18 + n ≤ entry_size n ≤ 64.
Proof.
  intros. unfold entry_size. pose proof (Z.div_mod (18 + n + 7) 8 ltac:(done)).
  pose proof (Z.mod_pos_bound (18 + n + 7) 8 ltac:(done)).
  assert ((18 + n + 7) / 8 < 9) by (apply Z.div_lt_upper_bound; lia). lia.
Qed.

(** ** Sequences of insertions *)
Section InsertAll.
Context (len : Z) (Hlen : 0 ≤ len ≤ MICA_MAX_VALUE).

Definition fixed_len (op : mica_op) : Prop := op_ok op ∧ op_val_len op = len.

Lemma insert_all_first_lap ops : ∀ kv spec,
  mica_reach kv spec → Forall fixed_len ops →
  log_head kv + Z.of_nat (length ops) * entry_size len + 78 < log_cap kv →
  ∃ kv', insert_all kv ops = Ok kv' ∧
    log_head kv' = log_head kv + Z.of_nat (length ops) * entry_size len ∧
    log_cap kv' = log_cap kv ∧ num_put_op kv' = num_put_op kv + Z.of_nat (length ops) ∧
    mica_reach kv' (foldl (λ m op, <[op_key op := op_val op]> m) spec ops).
Proof using Hlen.
  unfold MICA_MAX_VALUE, sizeof_mica_key in Hlen.
  pose proof (entry_size_bounds len ltac:(lia)) as He.
  induction ops as [|op ops IH]; intros kv spec Hr Hok Hfit.
  { exists kv. simpl. repeat split; auto; lia. }
  apply list.Forall_cons in Hok as [[Hop Hl] Hok]. rewrite length_cons in Hfit.
  destruct (insert_first_lap kv op) as (bk & kv1 & E1 & Hi & Hwf1);
    [by eapply reach_wf|done|nia|].
  assert (Hh1 : log_head kv1 = log_head kv + entry_size len).
  { rewrite (ins_head _ _ _ _ Hi), Hl. unfold next_head, entry_size in *.
    rewrite (proj2 (Z.leb_gt _ _)), andb_false_r by nia. done. }
  destruct (ins_cfg _ _ _ _ Hi) as (_ & _ & Hc1 & _). destruct (ins_stats _ _ _ _ Hi) as [Hs1 _].
  destruct (IH kv1 (<[op_key op := op_val op]> spec)) as (kv' & E & Hh & Hc & Hs & Hr');
    [by eapply reach_insert|done|lia|].
  exists kv'. simpl insert_all. rewrite E1. cbn [res_bind]. rewrite length_cons.
  repeat split; auto; lia.
Qed.
End InsertAll.

(** ** Population *)
Lemma gen_keys_loop_ok n : ∀ i, returns (λ ks, length ks = n ∧ Forall u128_ok ks) (gen_keys_loop n i).
Proof.
  induction n as [|n IH]; intros i; cbn [gen_keys_loop]; [by split; [|constructor]|].
  eapply returns_bind.
  { apply CityHash128_returns; [apply le_bytes_range|lia..|]. by rewrite length_le_bytes. }
  intros h Hh. eapply returns_bind; [apply IH|]. intros hs [Hl Hf]. simpl.
  split; [lia|by constructor].
Qed.

(** The value that population stores for a key. *)
Definition populate_val (len : Z) (k : mica_key) : list Z :=
  replicate (Z.to_nat len) (u8 (key_w1 k .& 255)).

Lemma populate_op_ok junk len k :
  length junk = 46%nat → 0 < len ≤ MICA_MAX_VALUE → u128_ok k →
  fixed_len len (populate_op junk len k) ∧
  op_val (populate_op junk len k) = populate_val len (op_key (populate_op junk len k)).
Proof.
  unfold MICA_MAX_VALUE, sizeof_mica_key. intros Hj Hl [H1 H2].
  assert (Hu : u8 len = len) by (apply Z.mod_small; lia). split.
  - unfold fixed_len, op_ok, populate_op, MICA_MAX_VALUE, sizeof_mica_key. simpl. rewrite Hu.
    split; [|done]. split; [done|]. split; [lia|].
    rewrite length_app, length_replicate, length_drop. lia.
  - unfold op_val, populate_val, populate_op. simpl. rewrite Hu.
    apply take_app_length'. by rewrite length_replicate.
Qed.

Lemma foldl_insert_all (f : mica_key → list Z) ops : ∀ (m : gmap mica_key (list Z)) k,
  Forall (λ op, op_val op = f (op_key op)) ops →
  (k ∈ map op_key ops ∨ m !! k = Some (f k)) →
  foldl (λ m op, <[op_key op := op_val op]> m) m ops !! k = Some (f k).
Proof.
  induction ops as [|op ops IH]; intros m k Hf Hk; simpl.
  { destruct Hk as [Hk|Hk]; [by apply elem_of_nil in Hk|done]. }
  apply list.Forall_cons in Hf as [Hop Hf]. apply IH; [done|].
  destruct (decide (op_key op = k)) as [<-|Hne].
  - right. by rewrite lookup_insert_eq, Hop.
  - destruct Hk as [Hk|Hk]; [|right; by rewrite lookup_insert_ne].
    apply elem_of_cons in Hk as [->|Hk]; [done|by left].
Qed.

Lemma populate_total junk kv spec n len :
  mica_reach kv spec → length junk = 46%nat →
  0 < n ≤ M_1024 / 16 → 0 < len ≤ MICA_MAX_VALUE →
  num_put_op kv = 0 → num_index_evictions kv = 0 →
  log_head kv + n * entry_size len + 78 < log_cap kv →
  ∃ keys kv' spec',
    mica_gen_keys n = Ok keys ∧ Z.of_nat (length keys) = n ∧
    mica_populate_fixed_len junk kv n len = Ok kv' ∧
    log_head kv' = log_head kv + n * entry_size len ∧ log_cap kv' = log_cap kv ∧
    mica_reach kv' spec' ∧
    (∀ k, k ∈ keys → spec' !! Key (first k) (second k) =
                      Some (populate_val len (Key (first k) (second k)))).
Proof.
  intros Hr Hj Hn Hl Hp He Hfit. pose proof (gen_keys_loop_ok (Z.to_nat n) 0) as Hg.
  apply returns_Ok in Hg as (keys & Hk & Hkl & Hkf).
  assert (Hgen : mica_gen_keys n = Ok keys).
  { unfold mica_gen_keys. rewrite (proj2 (Z.ltb_lt 0 n)), (proj2 (Z.leb_le _ _)) by lia. done. }
  set (ops := map (populate_op junk len) keys).
  assert (Hops : Forall (λ op, fixed_len len op ∧ op_val op = populate_val len (op_key op)) ops).
  { apply list.Forall_fmap. eapply Forall_impl; [|exact Hkf]. intros k Hu.
    by apply populate_op_ok. }
  destruct (insert_all_first_lap len ltac:(lia) ops kv spec) as (kv' & E & Hh & Hc & Hs & Hr'); [done|..].
  { eapply Forall_impl; [|exact Hops]. by intros ? []. }
  { subst ops. rewrite length_map, Hkl, Z2Nat.id by lia. done. }
  subst ops. rewrite length_map, Hkl, Z2Nat.id in Hh, Hs by lia.
  exists keys, kv', (foldl (λ m op, <[op_key op := op_val op]> m) spec
                      (map (populate_op junk len) keys)).
  split; [done|]. split; [lia|]. split.
  { unfold mica_populate_fixed_len. rewrite Hp, He, Hgen.
    rewrite !(proj2 (Z.ltb_lt _ _)), (proj2 (Z.leb_le _ _)) by lia. cbn [andb cassert res_bind].
    simpl. rewrite E. cbn [res_bind]. rewrite Hs, Hp, Z.add_0_l, Z.eqb_refl. done. }
  split; [done|]. split; [done|]. split; [done|]. intros k Hin.
  apply foldl_insert_all.
  - eapply Forall_impl; [|exact Hops]. by intros ? [].
  - left. apply list_elem_of_fmap. exists (populate_op junk len k).
    split; [done|]. apply list_elem_of_fmap. by exists k.
Qed.

(** ** The second lap *)

(** HERD stores 32-byte values: 56-byte entries.  No power of two from
    2 MB to 1 GB is a multiple of 56. *)
Lemma pow2_mod56 m : 21 ≤ m ≤ 30 → 2 ^ m mod 56 ≠ 0.
Proof.
  intros Hm E. assert (H : forallb (λ i, negb (2 ^ Z.of_nat (i + 21) mod 56 =? 0)) (seq 0 10) = true)
    by (by vm_compute).
  eapply (forallb_seq _ _ (Z.to_nat (m - 21))) in H; [cbv beta in H|lia].
  replace (Z.of_nat (Z.to_nat (m - 21) + 21)) with m in H by lia.
  by rewrite (proj2 (Z.eqb_eq _ _) E) in H.
Qed.

Definition on_lap_grid (kv : mica_kv) : Prop :=
  (log_head kv + 78 < log_cap kv ∧ log_head kv mod 56 = 0) ∨
  (∃ j, log_head kv = log_cap kv + 56 * j ∧ 0 ≤ j ∧ 56 * j < log_cap kv).

Lemma grid_step kv op :
  kv_wf kv → fixed_len 32 op → on_lap_grid kv →
  mica_insert_one kv op = Fault OutOfBounds ∨
  ∃ kv', mica_insert_one kv op = Ok kv' ∧ kv_wf kv' ∧ on_lap_grid kv' ∧
    log_cap kv' = log_cap kv ∧ log_head kv + 56 ≤ log_head kv' < 2 * log_cap kv.
Proof.
  intros Hwf [Hop Hl] Hg. pose proof (wf_cap_bounds _ Hwf) as Hcap.
  destruct (wf_cap _ Hwf) as (m & Hm & Hcm). pose proof (pow2_mod56 m Hm) as H56. rewrite <-Hcm in H56.
  destruct (bkt_of_lookup kv (op_key op) Hwf) as [bk Hbk].
  destruct (insert_one_cases kv op bk Hwf Hop Hbk) as [(Hf & kv' & Hk & Hi)|[Hnf Hk]].
  - right. exists kv'. split; [done|]. split; [by eapply kv_wf_inserted|].
    destruct (ins_cfg _ _ _ _ Hi) as (_ & _ & Hc & _). pose proof (ins_head _ _ _ _ Hi) as Hh.
    destruct Hf as [_ Hf]. unfold next_head in Hh. rewrite Hl in *.
    change (8 * ((18 + 32 + 7) / 8)) with 56 in Hh. unfold on_lap_grid. rewrite Hc.
    destruct Hg as [[Hg1 Hg2]|(j & Hj & Hj0 & Hj1)].
    + rewrite (proj2 (Z.ltb_lt _ _)), andb_true_l in Hh by lia.
      destruct (log_cap kv - (log_head kv + 56) <=? 78) eqn:E;
        [apply Z.leb_le in E|apply Z.leb_gt in E]; (split; [|split; [done|lia]]).
      * right. exists 0. lia.
      * left. split; [lia|]. rewrite Hh, Z.add_mod, Hg2 by done. done.
    + rewrite (proj2 (Z.ltb_ge _ _)), andb_false_l in Hh by lia.
      rewrite Hj in Hf. replace (log_cap kv + 56 * j) with (56 * j + 1 * log_cap kv) in Hf by lia.
      rewrite Z.mod_add, Z.mod_small in Hf by lia.
      assert (log_cap kv ≠ 56 * (j + 1)).
      { intros E. apply H56. rewrite E, Z.mul_comm. by apply Z.mod_mul. }
      assert (56 * (j + 1) < log_cap kv).
      { pose proof (wf_cap_mod64 _ Hwf) as H64. apply Z.mod_divide in H64 as [q Hq]; [|done]. lia. }
      split; [right; exists (j + 1); lia|]. split; [done|lia].
  - left. rewrite Hk, Hl. rewrite (proj2 (Z.ltb_lt _ _)); [done|].
    destruct Hg as [[Hg1 Hg2]|(j & Hj & Hj0 & Hj1)]; lia.
Qed.

Lemma grid_overflow n : ∀ kv ops,
  kv_wf kv → on_lap_grid kv → Forall (fixed_len 32) ops →
  2 * log_cap kv - log_head kv ≤ 56 * Z.of_nat n → (n ≤ length ops)%nat →
  insert_all kv ops = Fault OutOfBounds.
Proof.
  induction n as [|n IH]; intros kv ops Hwf Hg Hops Hn Hlen.
  { exfalso. pose proof (wf_cap_bounds _ Hwf). destruct Hg as [[? ?]|(j & ? & ? & ?)]; lia. }
  destruct ops as [|op ops]; [simpl in Hlen; lia|].
  apply list.Forall_cons in Hops as [Hop Hops]. simpl.
  destruct (grid_step kv op Hwf Hop Hg) as [->|(kv' & -> & Hwf' & Hg' & Hc & Hh)]; [done|].
  cbn [res_bind]. apply IH; auto; [|simpl in Hlen; lia]. rewrite Hc. lia.
Qed.

(** ** A small store for the examples *)
Definition demo_index : list (list mica_slot) := replicate 8 (replicate 8 (Slot 0 0 0)).
Definition demo_kv : mica_kv :=
  Kv demo_index ∅ 0 0 8 7 M_2 (M_2 - 1) 0 0 0 0 0.
Definition demo_put (k : Z) (v : Z) : mica_op :=
  Op (Key k (2 ^ 50 * k + k)) MICA_OP_PUT 32 (replicate 46 v).
Definition demo_get (k : Z) : mica_op :=
  Op (Key k (2 ^ 50 * k + k)) MICA_OP_GET 0 (replicate 46 0).
Definition demo_kv1 : mica_kv :=
  match mica_insert_one demo_kv (demo_put 5 9) with Ok kv => kv | Fault _ => demo_kv end.

Lemma demo_shm : shm_ok demo_index 8.
Proof. split; [reflexivity|]. apply Forall_replicate. reflexivity. Qed.
Lemma demo_init : mica_init demo_index ∅ 0 0 8 M_2 = Ok demo_kv.
Proof. reflexivity. Qed.
Lemma demo_reach : mica_reach demo_kv ∅.
Proof. eapply reach_init; [apply demo_shm|apply demo_init]. Qed.
Lemma demo_put_ok k v : 0 ≤ k < 2 ^ 10 → fixed_len 32 (demo_put k v).
Proof.
  intros Hk. split; [|done]. split; [|by vm_compute].
  split; unfold w64; simpl; lia.
Qed.
Lemma demo_insert : mica_insert_one demo_kv (demo_put 5 9) = Ok demo_kv1.
Proof. by vm_compute. Qed.
Lemma demo_reach1 :
  mica_reach demo_kv1 (<[op_key (demo_put 5 9) := op_val (demo_put 5 9)]> ∅).
Proof.
  eapply reach_insert; [apply demo_reach|apply demo_put_ok; lia|apply demo_insert].
Qed.

(** ** Properties *)

(** C21: in every state that initialisation, insertions and batches can
    produce, on any lap of the log, a GET returns, leaves index and log alone,
    and answers with a miss or with a pointer to bytes inside the log that are
    the value last put for the key.  Batches of one request and batches on the
    first lap are unrestricted; a larger batch on a later lap must not
    overwrite an entry that it has itself looked up ([undisturbed]).  A key
    that was put is found as long as no index slot was evicted, the log is on
    its first lap and no two keys share bucket and tag. *)
Theorem mica_get_correct (kv : mica_kv) (spec : gmap mica_key (list Z)) (op : mica_op) :
  mica_reach kv spec → is_get op = true →
  ∃ kv' r, mica_batch_op kv [op] = Ok (kv', [r]) ∧
    ht_index kv' = ht_index kv ∧ ht_log kv' = ht_log kv ∧
    log_head kv' = log_head kv ∧ answer kv' spec op r ∧
    (num_index_evictions kv = 0 → log_head kv < log_cap kv → tags_apart kv spec →
     is_Some (spec !! op_key op) → resp_type r = MICA_RESP_GET_SUCCESS).
Proof. apply reach_get. Qed.

Lemma mica_get_correct_witness :
  ∃ kv' r, mica_batch_op demo_kv1 [demo_get 5] = Ok (kv', [r]) ∧
    ht_index kv' = ht_index demo_kv1 ∧ ht_log kv' = ht_log demo_kv1 ∧
    answer kv' (<[op_key (demo_put 5 9) := op_val (demo_put 5 9)]> ∅) (demo_get 5) r ∧
    resp_type r = MICA_RESP_GET_SUCCESS.
Proof.
  destruct (mica_get_correct demo_kv1 _ (demo_get 5) demo_reach1 eq_refl) as (kv' & r & H1 & H2 & H3 & _ & H4 & H5).
  exists kv', r. do 4 (split; [assumption|]).
  apply H5; [by vm_compute|by vm_compute| |].
  - intros k1 k2 Hk1 Hk2 _ _. rewrite lookup_insert_is_Some' in Hk1, Hk2. rewrite lookup_empty in Hk1, Hk2.
    destruct Hk1 as [<-|[? ?]]; [|done]. by destruct Hk2 as [<-|[? ?]].
  - rewrite lookup_insert_is_Some'. by left.
Defined.

(** Insert and look up: a GET of a key that was just inserted always
    hits (the tag is unique in the bucket and the entry is less than a lap
    old) and points to exactly the bytes that were put. *)
Theorem mica_insert_get_roundtrip (kv : mica_kv) (spec : gmap mica_key (list Z))
    (op : mica_op) (kv' : mica_kv) (op' : mica_op) :
  mica_reach kv spec → op_ok op → mica_insert_one kv op = Ok kv' →
  is_get op' = true → op_key op' = op_key op →
  ∃ p, mica_batch_op kv' [op'] =
         Ok (add_stats kv' 1 0 0 0,
             [Resp MICA_RESP_GET_SUCCESS (op_val_len op) (Some p)]) ∧
    mread_n (ht_log kv') p (Z.to_nat (op_val_len op)) = op_val op.
Proof. intros [vlog Hinv]%reach_inv. by apply (insert_then_get kv vlog spec). Qed.

Lemma mica_insert_get_roundtrip_witness :
  ∃ p, mica_batch_op demo_kv1 [demo_get 5] =
         Ok (add_stats demo_kv1 1 0 0 0,
             [Resp MICA_RESP_GET_SUCCESS (op_val_len (demo_put 5 9)) (Some p)]) ∧
    mread_n (ht_log demo_kv1) p (Z.to_nat (op_val_len (demo_put 5 9))) = op_val (demo_put 5 9).
Proof.
  apply (mica_insert_get_roundtrip demo_kv ∅ (demo_put 5 9) demo_kv1 (demo_get 5));
    [apply demo_reach|apply demo_put_ok; lia|apply demo_insert|reflexivity|reflexivity].
Defined.

(** C7: a batch of requests whose log stays within its first lap refines the
    sequential execution of the requests on the abstract map: the store
    agrees with the map after all requests, and every response is valid
    when the batch has ended: a successful GET points to the key's value in
    the final map, so a PUT that comes later in the same batch is visible
    through it. *)
Theorem mica_batch_refines (kv : mica_kv) (spec : gmap mica_key (list Z))
    (ops : list mica_op) (kv' : mica_kv) (rs : list mica_resp) :
  mica_reach kv spec → Forall req_ok ops → mica_batch_op kv ops = Ok (kv', rs) →
  log_head kv' < log_cap kv →
  mica_reach kv' (spec_run spec ops) ∧
  Forall2 (answer kv' (spec_run spec ops)) ops rs.
Proof.
  intros Hr Hops Hb Hhd. split; [by eapply reach_first_lap|].
  apply reach_inv in Hr as [vlog Hinv]. by eapply (batch_first_lap kv vlog spec).
Qed.

(** Two PUTs of one key with a GET between them: the GET sees the second. *)
Definition demo_batch : list mica_op := [demo_put 5 1; demo_get 5; demo_put 5 2; demo_put 6 3].
Definition demo_batch_result : mica_kv * list mica_resp :=
  match mica_batch_op demo_kv1 demo_batch with Ok x => x | Fault _ => (demo_kv, []) end.

Lemma mica_batch_refines_witness :
  mica_reach demo_batch_result.1
    (spec_run (<[op_key (demo_put 5 9) := op_val (demo_put 5 9)]> ∅) demo_batch) ∧
  Forall2 (answer demo_batch_result.1
    (spec_run (<[op_key (demo_put 5 9) := op_val (demo_put 5 9)]> ∅) demo_batch))
    demo_batch demo_batch_result.2.
Proof.
  apply (mica_batch_refines demo_kv1 _ demo_batch);
    [apply demo_reach1| |by vm_compute|by vm_compute].
  repeat constructor; intros Hg; try discriminate; apply demo_put_ok; lia.
Defined.

(** C33: in every state that initialisation, insertions and batches of any
    size can produce, on any lap of the log, the buckets have 8 slots, the
    slots in use are the last ones of the array (the loop in
    [mica_insert_one] has no [break] and fills a bucket from its end), and no
    two slots in use have the same tag. *)
Theorem mica_bucket_shape (kv : mica_kv) (b : nat) (bk : list mica_slot) :
  mica_states kv → ht_index kv !! b = Some bk →
  length bk = 8%nat ∧
  (∀ i j si sj, (i < j)%nat → bk !! i = Some si → bk !! j = Some sj →
     slot_in_use si = 1 → slot_in_use sj = 1) ∧
  (∀ i j si sj, bk !! i = Some si → bk !! j = Some sj →
     slot_in_use si = 1 → slot_in_use sj = 1 → slot_tag si = slot_tag sj → i = j).
Proof.
  intros [_ Hok]%states_inv Hb. destruct (Hok _ _ Hb) as (? & _ & ? & ?). done.
Qed.

(** After the insertion and the batch of two keys. *)
Lemma demo_states : mica_states demo_batch_result.1.
Proof.
  apply (states_batch demo_kv1 demo_batch _ demo_batch_result.2).
  - eapply states_insert; [|apply (demo_put_ok 5 9); lia|apply demo_insert].
    eapply states_init; [apply demo_shm|apply demo_init].
  - repeat constructor; intros Hg; try discriminate; apply demo_put_ok; lia.
  - by vm_compute.
Qed.

Lemma mica_bucket_shape_witness :
  let bk := replicate 7 (Slot 0 0 0) ++ [Slot 1 24 56] in
  length bk = 8%nat ∧
  (∀ i j si sj, (i < j)%nat → bk !! i = Some si → bk !! j = Some sj →
     slot_in_use si = 1 → slot_in_use sj = 1) ∧
  (∀ i j si sj, bk !! i = Some si → bk !! j = Some sj →
     slot_in_use si = 1 → slot_in_use sj = 1 → slot_tag si = slot_tag sj → i = j).
Proof. apply (mica_bucket_shape demo_batch_result.1 6 _ demo_states). by vm_compute. Defined.

(** An insertion into a reachable store whose head has not passed the
    first wrap-around succeeds for every legal value length: no assertion
    fails and the copy stays inside the log. *)
Theorem mica_insert_first_lap_safe (kv : mica_kv) (spec : gmap mica_key (list Z)) (op : mica_op) :
  mica_reach kv spec → op_ok op → log_head kv ≤ log_cap kv →
  ∃ kv', mica_insert_one kv op = Ok kv' ∧
    log_head kv + 18 + op_val_len op ≤ log_head kv' ∧ log_head kv' mod 8 = 0.
Proof.
  intros Hr%reach_wf Hop Hh. destruct (insert_first_lap kv op Hr Hop Hh) as (bk & kv' & H & Hi & Hw).
  exists kv'. split; [done|]. split; [|apply Hw]. rewrite (ins_head _ _ _ _ Hi).
  destruct Hop as (_ & Hv & _). unfold MICA_MAX_VALUE, sizeof_mica_key in Hv.
  destruct (next_head_facts kv (18 + op_val_len op) Hr ltac:(lia)) as (? & _). lia.
Qed.

Lemma mica_insert_first_lap_safe_witness :
  ∃ kv', mica_insert_one demo_kv1 (demo_put 6 3) = Ok kv' ∧
    log_head demo_kv1 + 18 + op_val_len (demo_put 6 3) ≤ log_head kv' ∧ log_head kv' mod 8 = 0.
Proof.
  eapply mica_insert_first_lap_safe; [apply demo_reach1|apply demo_put_ok; lia|by vm_compute].
Defined.

(** Populating a store with [n] keys succeeds when the entries fit the
    first lap; it advances the log by [n] entries and afterwards the value
    of the [i]-th CityHash key consists of copies of its least significant
    byte, as the comment of [mica_populate_fixed_len] says. *)
Theorem mica_populate_correct (junk : list Z) (kv : mica_kv)
    (spec : gmap mica_key (list Z)) (n len : Z) :
  mica_reach kv spec → length junk = 46%nat →
  0 < n ≤ M_1024 / 16 → 0 < len ≤ MICA_MAX_VALUE →
  num_put_op kv = 0 → num_index_evictions kv = 0 →
  log_head kv + n * entry_size len + 78 < log_cap kv →
  ∃ keys kv' spec',
    mica_gen_keys n = Ok keys ∧ Z.of_nat (length keys) = n ∧
    mica_populate_fixed_len junk kv n len = Ok kv' ∧
    log_head kv' = log_head kv + n * entry_size len ∧ log_cap kv' = log_cap kv ∧
    mica_reach kv' spec' ∧
    (∀ k, k ∈ keys → spec' !! Key (first k) (second k) =
                      Some (populate_val len (Key (first k) (second k)))).
Proof. apply populate_total. Qed.

Lemma mica_populate_correct_witness :
  ∃ keys kv' spec',
    mica_gen_keys 4 = Ok keys ∧ Z.of_nat (length keys) = 4 ∧
    mica_populate_fixed_len (replicate 46 0) demo_kv 4 32 = Ok kv' ∧
    log_head kv' = log_head demo_kv + 4 * entry_size 32 ∧ log_cap kv' = log_cap demo_kv ∧
    mica_reach kv' spec' ∧
    (∀ k, k ∈ keys → spec' !! Key (first k) (second k) =
                      Some (populate_val 32 (Key (first k) (second k)))).
Proof.
  apply (mica_populate_correct (replicate 46 0) demo_kv ∅ 4 32);
    [apply demo_reach|reflexivity|by vm_compute|by vm_compute|reflexivity|reflexivity|by vm_compute].
Defined.

(** C40: the wrap-around test works for the first lap only.  After it,
    [log_cap - log_head] is negative, as an unsigned number it is huge, and
    the head is never moved to the start of the log again.  So for every
    legal configuration, inserting enough keys with HERD's 32-byte values
    makes [memcpy] write past the end of the log. *)
Theorem mica_second_lap_overflow (ix : list (list mica_slot)) (lg : gmap Z Z)
    (inst node nb cap : Z) (kv : mica_kv) :
  shm_ok ix nb → mica_init ix lg inst node nb cap = Ok kv →
  ∃ n, ∀ ops, Forall (fixed_len 32) ops → (n ≤ length ops)%nat →
    insert_all kv ops = Fault OutOfBounds.
Proof.
  intros Hs Hi. destruct (kv_wf_init _ _ _ _ _ _ _ Hs Hi) as (Hwf & Hh & Hc & _).
  pose proof (wf_cap_bounds _ Hwf).
  exists (Z.to_nat (2 * cap)). intros ops Hops Hlen.
  apply (grid_overflow (Z.to_nat (2 * cap))); auto; [|lia].
  left. rewrite Hh. split; [lia|done].
Qed.

Lemma mica_second_lap_overflow_witness :
  ∃ n, ∀ ops, Forall (fixed_len 32) ops → (n ≤ length ops)%nat →
    insert_all demo_kv ops = Fault OutOfBounds.
Proof. exact (mica_second_lap_overflow demo_index ∅ 0 0 8 M_2 demo_kv demo_shm demo_init). Defined.

(** The chain of comparisons in [is_power_of_2] accepts exactly the
    powers of two of the type [int]. *)
Theorem is_power_of_2_correct (x : Z) :
  x < 2 ^ 31 → is_power_of_2 x = true ↔ ∃ n, 0 ≤ n ∧ x = 2 ^ n.
Proof.
  intros Hx. rewrite is_power_of_2_spec. split; intros (n & Hn & ->); exists n.
  - split; [lia|done].
  - split; [|done]. split; [done|]. apply Z.pow_lt_mono_r_iff in Hx; lia.
Qed.

Lemma is_power_of_2_correct_witness :
  is_power_of_2 4096 = true ↔ ∃ n, 0 ≤ n ∧ 4096 = 2 ^ n.
Proof. apply is_power_of_2_correct. lia. Defined.
