(* ===== verification/Alloc.v ===== *)
(** * MICA's segregated-fit allocator (src/mica/alloc/alloc.h, alloc.c)

    The reserved memory is word addressed: a finite map from addresses to
    64-bit words, where a word that was never written is zero (the
    [memset] of [mica_alloc_init]).  Chunk addresses are absolute, so that
    NULL is 0 and the links in free chunks are ordinary words.  Loads and
    stores outside the reserved memory, or at an address that is not a
    multiple of 8, are faults. *)

From stdpp Require Import base gmap list numbers.
From Stdlib Require Import ZArith Lia.
From S2P Require Import Prelude.

Definition MICA_ALLOC_NUM_CLASSES : Z := 32.
Definition MICA_ALLOC_CLASS_INCREMENT : Z := 8.
Definition MICA_ALLOC_INSUFFICIENT_SPACE : Z := u64 (-1).
Definition MICA_ALLOC_FREE : Z := 0.
Definition MICA_ALLOC_OCCUPIED : Z := 1.
Definition MICA_ALLOC_TAG_SIZE (vec : Z) : Z := vec .& (2 ^ 63 - 1).
Definition MICA_ALLOC_TAG_STATUS (vec : Z) : Z := vec .>> 63.
Definition MICA_ALLOC_TAG_VEC (size status : Z) : Z := size .| (status <<64 63).
Definition MICA_ROUNDUP8 (x : Z) : Z := (x +64 7) .& u64 (Z.lnot 7).
Definition MICA_ROUNDUP2M (x : Z) : Z := (x +64 2097151) .& u64 (Z.lnot 2097151).
Definition MICA_ALLOC_OVERHEAD : Z := 16.
Definition MICA_ALLOC_MIN_SIZE : Z := 32.
Definition MICA_ALLOC_MAX_SIZE : Z := 2 ^ 40 - 1.

Record mica_alloc : Type := Alloc
  { al_lock : Z;
    al_size : Z;
    al_data : Z;
    al_free_head : list Z;
    al_mem : gmap Z Z }.

Definition set_mem (al : mica_alloc) (m : gmap Z Z) : mica_alloc :=
  Alloc (al_lock al) (al_size al) (al_data al) (al_free_head al) m.
Definition set_free_head (al : mica_alloc) (hs : list Z) : mica_alloc :=
  Alloc (al_lock al) (al_size al) (al_data al) hs (al_mem al).

(** ** Memory accesses *)
Definition word_ok (al : mica_alloc) (a : Z) : bool :=
  (al_data al <=? a) && (a + 8 <=? al_data al + al_size al) && (a mod 8 =? 0).

Definition load64 (al : mica_alloc) (a : Z) : res Z :=
  in_bounds (word_ok al a) ;! Ok (mread (al_mem al) a).

Definition store64 (al : mica_alloc) (a w : Z) : res mica_alloc :=
  in_bounds (word_ok al a) ;! Ok (set_mem al (<[a := w]> (al_mem al))).

Definition get_head (al : mica_alloc) (c : Z) : res Z :=
  match al_free_head al !! Z.to_nat c with
  | Some h => Ok h
  | None => Fault OutOfBounds
  end.

Definition put_head (al : mica_alloc) (c h : Z) : res mica_alloc :=
  in_bounds (c <? Z.of_nat (length (al_free_head al))) ;!
  Ok (set_free_head al (<[Z.to_nat c := h]> (al_free_head al))).

(** ** Size classes *)
Definition mica_alloc_size_to_class_roundup (size : Z) : res Z :=
  cassert (size <=? MICA_ALLOC_MAX_SIZE) ;!
  Ok (if size <=? MICA_ALLOC_MIN_SIZE +
                  (MICA_ALLOC_NUM_CLASSES - 1) * MICA_ALLOC_CLASS_INCREMENT
      then ((size -64 MICA_ALLOC_MIN_SIZE +64 MICA_ALLOC_CLASS_INCREMENT) -64 1)
           / MICA_ALLOC_CLASS_INCREMENT
      else MICA_ALLOC_NUM_CLASSES - 1).

Definition mica_alloc_size_to_class_rounddown (size : Z) : res Z :=
  cassert (size <=? MICA_ALLOC_MAX_SIZE) ;!
  cassert (MICA_ALLOC_MIN_SIZE <=? size) ;!
  Ok (if size <? MICA_ALLOC_MIN_SIZE + MICA_ALLOC_NUM_CLASSES * MICA_ALLOC_CLASS_INCREMENT
      then (size -64 MICA_ALLOC_MIN_SIZE) / MICA_ALLOC_CLASS_INCREMENT
      else MICA_ALLOC_NUM_CLASSES - 1).

(** ** Free lists *)
Definition mica_alloc_insert_free_chunk (al : mica_alloc) (chunk_start chunk_size : Z)
    : res mica_alloc :=
  let! chunk_class := mica_alloc_size_to_class_rounddown chunk_size in
  let tag := MICA_ALLOC_TAG_VEC chunk_size MICA_ALLOC_FREE in
  let! al := store64 al (chunk_start + chunk_size - 8) tag in
  let! al := store64 al chunk_start tag in
  let! al := store64 al (chunk_start + 8) 0 in
  let! head := get_head al chunk_class in
  let! al := store64 al (chunk_start + 16) head in
  let! al :=
    (if head =? 0 then Ok al
     else
       let! prev := load64 al (head + 8) in
       cassert (prev =? 0) ;!
       store64 al (head + 8) chunk_start) in
  put_head al chunk_class chunk_start.

Definition mica_alloc_remove_free_chunk_from_free_list (al : mica_alloc)
    (chunk_start chunk_size : Z) : res mica_alloc :=
  let! prev_chunk_start := load64 al (chunk_start + 8) in
  let! next_chunk_start := load64 al (chunk_start + 16) in
  let! al :=
    (if negb (prev_chunk_start =? 0) then
       store64 al (prev_chunk_start + 16) next_chunk_start
     else
       let! chunk_class := mica_alloc_size_to_class_rounddown chunk_size in
       let! head := get_head al chunk_class in
       cassert (head =? chunk_start) ;!
       put_head al chunk_class next_chunk_start) in
  if negb (next_chunk_start =? 0) then
    store64 al (next_chunk_start + 8) prev_chunk_start
  else Ok al.

(** The [for] loop over the classes from [c] on. *)
Fixpoint find_class (hs : list Z) (c : Z) : Z :=
  match hs with
  | [] => c
  | h :: hs => if negb (h =? 0) then c else find_class hs (c + 1)
  end.

(** [None] for [false], the chunk's start and size for [true]. *)
Definition mica_alloc_remove_free_chunk_from_head (al : mica_alloc)
    (minimum_chunk_size : Z) : res (mica_alloc * option (Z * Z)) :=
  let! c0 := mica_alloc_size_to_class_roundup minimum_chunk_size in
  let chunk_class := find_class (drop (Z.to_nat c0) (al_free_head al)) c0 in
  if chunk_class =? MICA_ALLOC_NUM_CLASSES then Ok (al, None)
  else
    let! chunk_start := get_head al chunk_class in
    let! tag := load64 al chunk_start in
    cassert (MICA_ALLOC_TAG_STATUS tag =? MICA_ALLOC_FREE) ;!
    let chunk_size := MICA_ALLOC_TAG_SIZE tag in
    cassert (minimum_chunk_size <=? chunk_size) ;!
    let! tag' := load64 al (chunk_start + chunk_size - 8) in
    cassert (tag =? tag') ;!
    let! al := mica_alloc_remove_free_chunk_from_free_list al chunk_start chunk_size in
    Ok (al, Some (chunk_start, chunk_size)).

Definition mica_alloc_reset (al : mica_alloc) : res mica_alloc :=
  let al := set_free_head al (replicate (Z.to_nat MICA_ALLOC_NUM_CLASSES) 0) in
  mica_alloc_insert_free_chunk al (al_data al) (al_size al).

(** [data] is what [malloc] returns. *)
Definition mica_alloc_init (data size numa_node : Z) : res mica_alloc :=
  cassert (size <=? MICA_ALLOC_MAX_SIZE) ;!
  cassert ((0 <=? numa_node) && (numa_node <=? 7)) ;!
  let size := MICA_ROUNDUP2M size in
  cassert (size <=? MICA_ALLOC_MAX_SIZE) ;!
  cassert (negb (data =? 0)) ;!
  mica_alloc_reset (Alloc 0 size data (replicate 32 0) ∅).

Definition mica_alloc_get_item (al : mica_alloc) (alloc_offset : Z) : Z :=
  al_data al + alloc_offset.

(** ** Coalescing: the new start and size of the chunk *)
Definition mica_alloc_coalese_free_chunk_left (al : mica_alloc) (chunk_start chunk_size : Z)
    : res (mica_alloc * (Z * Z)) :=
  if chunk_start =? al_data al then Ok (al, (chunk_start, chunk_size))
  else
    cassert (al_data al <? chunk_start) ;!
    let! tag := load64 al (chunk_start - 8) in
    if MICA_ALLOC_TAG_STATUS tag =? MICA_ALLOC_OCCUPIED
    then Ok (al, (chunk_start, chunk_size))
    else
      let adj_chunk_size := MICA_ALLOC_TAG_SIZE tag in
      let adj_chunk_start := chunk_start - adj_chunk_size in
      let! t1 := load64 al adj_chunk_start in
      let! t2 := load64 al (adj_chunk_start + adj_chunk_size - 8) in
      cassert (t1 =? t2) ;!
      let! al := mica_alloc_remove_free_chunk_from_free_list al adj_chunk_start adj_chunk_size in
      Ok (al, (adj_chunk_start, chunk_size +64 adj_chunk_size)).

Definition mica_alloc_coalese_free_chunk_right (al : mica_alloc) (chunk_start chunk_size : Z)
    : res (mica_alloc * (Z * Z)) :=
  if chunk_start + chunk_size =? al_data al + al_size al
  then Ok (al, (chunk_start, chunk_size))
  else
    cassert (chunk_start + chunk_size <? al_data al + al_size al) ;!
    let! tag := load64 al (chunk_start + chunk_size) in
    if MICA_ALLOC_TAG_STATUS tag =? MICA_ALLOC_OCCUPIED
    then Ok (al, (chunk_start, chunk_size))
    else
      let adj_chunk_start := chunk_start + chunk_size in
      let adj_chunk_size := MICA_ALLOC_TAG_SIZE tag in
      let! t1 := load64 al adj_chunk_start in
      let! t2 := load64 al (adj_chunk_start + adj_chunk_size - 8) in
      cassert (t1 =? t2) ;!
      let! al := mica_alloc_remove_free_chunk_from_free_list al adj_chunk_start adj_chunk_size in
      Ok (al, (chunk_start, chunk_size +64 adj_chunk_size)).

(** ** Allocation *)
Definition mica_alloc_allocate (al : mica_alloc) (item_size : Z) : res (mica_alloc * Z) :=
  cassert (8 <? item_size) ;!
  let minimum_chunk_size := MICA_ROUNDUP8 item_size +64 MICA_ALLOC_OVERHEAD in
  let! (al, found) := mica_alloc_remove_free_chunk_from_head al minimum_chunk_size in
  match found with
  | None => Ok (al, MICA_ALLOC_INSUFFICIENT_SPACE)
  | Some (chunk_start, chunk_size) =>
      let leftover_chunk_size := chunk_size -64 minimum_chunk_size in
      let! (al, chunk_size) :=
        (if MICA_ALLOC_MIN_SIZE <=? leftover_chunk_size then
           let! al := mica_alloc_insert_free_chunk al (chunk_start + minimum_chunk_size)
                        leftover_chunk_size in
           Ok (al, minimum_chunk_size)
         else Ok (al, chunk_size)) in
      let tag := MICA_ALLOC_TAG_VEC chunk_size MICA_ALLOC_OCCUPIED in
      let! al := store64 al (chunk_start + chunk_size - 8) tag in
      let! al := store64 al chunk_start tag in
      let alloc_item := chunk_start + 8 in
      let! al := store64 al alloc_item item_size in
      Ok (al, alloc_item -64 al_data al)
  end.

Definition mica_alloc_deallocate (al : mica_alloc) (alloc_offset : Z) : res mica_alloc :=
  let alloc_item := mica_alloc_get_item al alloc_offset in
  let chunk_start := alloc_item - 8 in
  let! tag := load64 al chunk_start in
  cassert (MICA_ALLOC_TAG_STATUS tag =? MICA_ALLOC_OCCUPIED) ;!
  let chunk_size := MICA_ALLOC_TAG_SIZE tag in
  let! (al, (chunk_start, chunk_size)) :=
    mica_alloc_coalese_free_chunk_left al chunk_start chunk_size in
  let! (al, (chunk_start, chunk_size)) :=
    mica_alloc_coalese_free_chunk_right al chunk_start chunk_size in
  mica_alloc_insert_free_chunk al chunk_start chunk_size.
