(* ===== verification/AllocProof.v ===== *)
(** * Invariants of the segregated-fit allocator

    The ghost state is the layout of the reserved memory, a map from chunk
    starts to size and status ([true] for free), and the contents of the 32
    free lists.  [ainv] relates it to the memory words; the set of its last
    argument holds the chunks that an operation has in hand, whose tags are
    not written yet. *)

From stdpp Require Import base gmap sets list numbers.
From Stdlib Require Import ZArith Lia.
From S2P Require Import Prelude Alloc.

(** ** Tags *)
Definition status (free : bool) : Z := if free then MICA_ALLOC_FREE else MICA_ALLOC_OCCUPIED.
Definition tagw (n : Z) (free : bool) : Z := MICA_ALLOC_TAG_VEC n (status free).

Lemma tagw_parts n f :
  0 ≤ n < 2 ^ 63 →
  MICA_ALLOC_TAG_SIZE (tagw n f) = n ∧ MICA_ALLOC_TAG_STATUS (tagw n f) = status f.
Proof.
  intros Hn. unfold tagw, MICA_ALLOC_TAG_SIZE, MICA_ALLOC_TAG_STATUS, MICA_ALLOC_TAG_VEC.
  rewrite Z.land_lor_distr_l, Z.shiftr_lor, u64_land_mask by lia.
  rewrite Z.mod_small by lia.
  replace (n .>> 63) with 0.
  2: { rewrite Z.shiftr_div_pow2 by lia. by rewrite Z.div_small. }
  rewrite Z.lor_0_l. destruct f.
  - change (status true <<64 63) with 0. rewrite Z.land_0_l, Z.lor_0_r. done.
  - change (status false <<64 63) with (2 ^ 63).
    change (Z.land (2 ^ 63) (2 ^ 63 - 1)) with 0. by rewrite Z.lor_0_r.
Qed.

(** ** Size classes *)
Definition cls (n : Z) : Z := if n <? 288 then (n - 32) / 8 else 31.

Lemma rounddown_cls n :
  32 ≤ n ≤ MICA_ALLOC_MAX_SIZE → mica_alloc_size_to_class_rounddown n = Ok (cls n).
Proof.
  intros Hn. unfold mica_alloc_size_to_class_rounddown, MICA_ALLOC_MIN_SIZE, MICA_ALLOC_MAX_SIZE in *.
  rewrite !(proj2 (Z.leb_le _ _)) by lia. cbn [cassert res_bind].
  rewrite u64_small by lia. done.
Qed.

Lemma cls_range n : 32 ≤ n → 0 ≤ cls n < 32.
Proof.
  intros Hn. unfold cls. destruct (n <? 288) eqn:E; [|lia]. apply Z.ltb_lt in E.
  split; [apply Z.div_pos; lia|apply Z.div_lt_upper_bound; lia].
Qed.

Lemma roundup_cls n :
  32 ≤ n ≤ MICA_ALLOC_MAX_SIZE → n mod 8 = 0 →
  mica_alloc_size_to_class_roundup n = Ok (cls n).
Proof.
  intros Hn H8. unfold mica_alloc_size_to_class_roundup, cls, MICA_ALLOC_MIN_SIZE,
    MICA_ALLOC_MAX_SIZE, MICA_ALLOC_NUM_CLASSES, MICA_ALLOC_CLASS_INCREMENT in *.
  rewrite (proj2 (Z.leb_le _ _)) by lia. cbn [cassert res_bind]. f_equal.
  pose proof (Z.div_mod n 8 ltac:(done)) as E.
  destruct (n <=? 32 + (32 - 1) * 8) eqn:E1; [apply Z.leb_le in E1|apply Z.leb_gt in E1].
  - rewrite (u64_small (n - 32)), (u64_small (n - 32 + 8)), u64_small by lia.
    rewrite (proj2 (Z.ltb_lt _ _)) by lia.
    replace (n - 32 + 8 - 1) with (7 + (n / 8 - 4) * 8) by lia.
    replace (n - 32) with ((n / 8 - 4) * 8) by lia.
    rewrite Z.div_add, Z.div_mul by done. done.
  - rewrite (proj2 (Z.ltb_ge _ _)) by lia. done.
Qed.

(** A chunk of a lower class is smaller. *)
Lemma cls_lt n m : n mod 8 = 0 → m mod 8 = 0 → 32 ≤ n → 32 ≤ m → cls n < cls m → n < m.
Proof.
  intros Hn Hm ? ? H. unfold cls in H.
  pose proof (Z.div_mod (n - 32) 8 ltac:(done)). pose proof (Z.mod_pos_bound (n - 32) 8 ltac:(done)).
  pose proof (Z.div_mod (m - 32) 8 ltac:(done)). pose proof (Z.mod_pos_bound (m - 32) 8 ltac:(done)).
  destruct (n <? 288) eqn:E1, (m <? 288) eqn:E2;
    rewrite ?Z.ltb_lt, ?Z.ltb_ge in *; lia.
Qed.

(** ** Layouts *)
Abbreviation layout := (gmap Z (Z * bool)).

Record lay (base size : Z) (C : layout) : Prop := {
  lay_chunk : ∀ a n f, C !! a = Some (n, f) →
    base ≤ a ∧ a + n ≤ base + size ∧ 32 ≤ n ∧ a mod 8 = 0 ∧ n mod 8 = 0;
  lay_disj : ∀ a b n f x, C !! a = Some (n, f) → C !! b = Some x → a < b → a + n ≤ b;
  lay_next : ∀ a n f, C !! a = Some (n, f) → a + n = base + size ∨ is_Some (C !! (a + n));
  lay_prev : ∀ a x, C !! a = Some x → a = base ∨ ∃ b n f, C !! b = Some (n, f) ∧ b + n = a;
  lay_base : is_Some (C !! base)
}.

Lemma lay_status base size C a n f f' :
  lay base size C → C !! a = Some (n, f) → lay base size (<[a := (n, f')]> C).
Proof.
  intros [H1 H2 H3 H4 H5] Ha.
  assert (Hold : ∀ b m g, <[a := (n, f')]> C !! b = Some (m, g) → ∃ g', C !! b = Some (m, g')).
  { intros b m g Hb. apply lookup_insert_Some in Hb as [[<- [= <- _]]|[_ Hb]]; eauto. }
  assert (Hnew : ∀ b, is_Some (C !! b) → is_Some (<[a := (n, f')]> C !! b)).
  { intros b Hb. apply lookup_insert_is_Some'. auto. }
  constructor.
  - intros b m g [g' Hb]%Hold. eauto.
  - intros b c m g [m' g''] [g' Hb]%Hold [? Hc]%Hold. eauto.
  - intros b m g [g' Hb]%Hold. destruct (H3 _ _ _ Hb); auto.
  - intros b [m g] [g' Hb]%Hold. destruct (H4 _ _ Hb) as [?|(c & m' & g'' & Hc & E)]; [auto|].
    right. destruct (decide (c = a)) as [->|Hne].
    + simplify_eq. exists a, n, f'. by rewrite lookup_insert_eq.
    + exists c, m', g''. by rewrite lookup_insert_ne.
  - auto.
Qed.

Lemma lay_merge base size C a n f m g h :
  lay base size C → C !! a = Some (n, f) → C !! (a + n) = Some (m, g) →
  lay base size (<[a := (n + m, h)]> (delete (a + n) C)).
Proof.
  intros [H1 H2 H3 H4 H5] Ha Hb.
  pose proof (H1 _ _ _ Ha) as (? & ? & ? & ? & Ha5).
  pose proof (H1 _ _ _ Hb) as (? & ? & ? & ? & Hb5).
  assert (Hold : ∀ b k e, <[a := (n + m, h)]> (delete (a + n) C) !! b = Some (k, e) →
    (b = a ∧ k = n + m) ∨ (b ≠ a ∧ b ≠ a + n ∧ C !! b = Some (k, e))).
  { intros b k e E. apply lookup_insert_Some in E as [[<- [= <- _]]|[Hne E]]; [auto|].
    apply lookup_delete_Some in E as [? ?]. auto. }
  assert (Hnew : ∀ b, b ≠ a + n → is_Some (C !! b) →
    is_Some (<[a := (n + m, h)]> (delete (a + n) C) !! b)).
  { intros b Hne Hs. apply lookup_insert_is_Some'. destruct (decide (a = b)); [auto|right].
    by rewrite lookup_delete_ne by done. }
  constructor.
  - intros b k e [[-> ->]|(_ & _ & E)]%Hold; [|eauto].
    repeat split; try lia. by rewrite Z.add_mod, Ha5, Hb5 by done.
  - intros b c k e [k' e'] [[-> ->]|(? & ? & Eb)]%Hold [[-> ->]|(? & ? & Ec)]%Hold Hlt; [lia|..].
    + pose proof (H2 _ _ _ _ _ Ha Ec Hlt). pose proof (H2 _ _ _ _ _ Hb Ec). lia.
    + eauto.
    + eauto.
  - intros b k e [[-> ->]|(? & ? & E)]%Hold.
    + destruct (H3 _ _ _ Hb) as [?|Hs]; [left; lia|right].
      replace (a + (n + m)) with (a + n + m) by lia. apply Hnew; [lia|done].
    + destruct (H3 _ _ _ E) as [?|Hs]; [auto|right]. apply Hnew; [|done].
      intros Heq. destruct (Z.lt_total b a) as [Hl|[->|Hl]]; [|done|].
      * pose proof (H2 _ _ _ _ _ E Ha Hl). lia.
      * pose proof (H2 _ _ _ _ _ Ha E Hl). pose proof (H1 _ _ _ E). lia.
  - intros b [k e] [[-> ->]|(? & ? & E)]%Hold.
    + destruct (H4 _ _ Ha) as [?|(c & k & e' & Hc & E)]; [auto|right].
      exists c, k, e'. split; [|done]. pose proof (H1 _ _ _ Hc).
      by rewrite lookup_insert_ne, lookup_delete_ne by lia.
    + destruct (H4 _ _ E) as [?|(c & k' & e' & Hc & E')]; [auto|right].
      destruct (decide (c = a + n)) as [->|].
      * exists a, (n + m), h. rewrite lookup_insert_eq. simplify_eq. split; [done|lia].
      * exists c, k', e'. split; [|done]. rewrite lookup_insert_ne, lookup_delete_ne; try done.
        intros ->. by simplify_eq.
  - apply Hnew; [lia|done].
Qed.

Lemma lay_split base size C a n f k g h :
  lay base size C → C !! a = Some (n, f) → 32 ≤ k → k mod 8 = 0 → 32 ≤ n - k →
  lay base size (<[a + k := (n - k, h)]> (<[a := (k, g)]> C)).
Proof.
  intros [H1 H2 H3 H4 H5] Ha Hk Hk8 Hnk. pose proof (H1 _ _ _ Ha) as (? & ? & ? & Ha4 & Ha5).
  assert (Hmid : ∀ b x, C !! b = Some x → b ≤ a ∨ a + n ≤ b).
  { intros b x Hb. destruct (Z.lt_total b a) as [?|[->|Hl]]; [lia..|].
    pose proof (H2 _ _ _ _ _ Ha Hb Hl). lia. }
  assert (Hold : ∀ b m e, <[a + k := (n - k, h)]> (<[a := (k, g)]> C) !! b = Some (m, e) →
    (b = a + k ∧ m = n - k) ∨ (b = a ∧ m = k) ∨ (b ≠ a ∧ b ≠ a + k ∧ C !! b = Some (m, e))).
  { intros b m e E. apply lookup_insert_Some in E as [[<- [= <- _]]|[Hne E]]; [auto|].
    apply lookup_insert_Some in E as [[<- [= <- _]]|[Hne' E]]; auto. }
  assert (Hnew : ∀ b, is_Some (C !! b) → is_Some (<[a + k := (n - k, h)]> (<[a := (k, g)]> C) !! b)).
  { intros b Hs. do 2 (apply lookup_insert_is_Some'; right). done. }
  constructor.
  - intros b m e [[-> ->]|[[-> ->]|(_ & _ & E)]]%Hold; [|lia|eauto].
    repeat split; try lia.
    + by rewrite Z.add_mod, Ha4, Hk8 by done.
    + by rewrite Zminus_mod, Ha5, Hk8.
  - intros b c m e [m' e'] Hb Hc Hlt.
    assert (Hb' : (b = a + k ∧ m = n - k) ∨ (b = a ∧ m = k) ∨ (b ≠ a ∧ C !! b = Some (m, e)))
      by (apply Hold in Hb; tauto).
    assert (Hc' : c = a + k ∨ c = a ∨ (c ≠ a ∧ is_Some (C !! c)))
      by (apply Hold in Hc as [[]|[[]|(? & ? & ?)]]; eauto).
    destruct Hb' as [[-> ->]|[[-> ->]|[? Eb]]], Hc' as [->|[->|[? [? Ec]]]]; try lia;
      try (pose proof (Hmid _ _ Ec); lia).
    + pose proof (H2 _ _ _ _ _ Eb Ha). pose proof (Hmid _ _ Eb). pose proof (H1 _ _ _ Eb). lia.
    + eauto.
    + eauto.
  - intros b m e [[-> ->]|[[-> ->]|(? & ? & E)]]%Hold.
    + destruct (H3 _ _ _ Ha) as [?|Hs]; [left; lia|right].
      replace (a + k + (n - k)) with (a + n) by lia. auto.
    + right. by rewrite lookup_insert_eq.
    + destruct (H3 _ _ _ E); auto.
  - intros b [m e] Hb.
    assert (Hpre : ∀ c m' e', C !! c = Some (m', e') → c + m' = b → b ≠ a + k →
      b = base ∨ ∃ b0 n0 f0, <[a + k:=(n - k, h)]> (<[a:=(k, g)]> C) !! b0 = Some (n0, f0) ∧ b0 + n0 = b).
    { intros c m' e' Hc Heq Hbk. right. destruct (decide (c = a)) as [->|Hca].
      - simplify_eq. exists (a + k), (n - k), h. rewrite lookup_insert_eq. split; [done|lia].
      - exists c, m', e'. split; [|done]. pose proof (Hmid _ _ Hc). 
        by rewrite !lookup_insert_ne by lia. }
    apply Hold in Hb as [[-> ->]|[[-> ->]|(? & ? & E)]].
    + right. exists a, k, g. rewrite lookup_insert_ne, lookup_insert_eq by lia. done.
    + destruct (H4 _ _ Ha) as [?|(c & m' & e' & Hc & Heq)]; [auto|]. eapply Hpre; eauto. lia.
    + destruct (H4 _ _ E) as [?|(c & m' & e' & Hc & Heq)]; [auto|]. by eapply Hpre.
  - auto.
Qed.

(** ** Doubly linked lists

    [dseg m p l n]: the nodes [l] are linked in memory [m]; the [prev] of
    the first is [p] and the [next] of the last is [n]. *)
Fixpoint dseg (m : gmap Z Z) (p : Z) (l : list Z) (n : Z) : Prop :=
  match l with
  | [] => True
  | a :: l => mread m (a + 8) = p ∧ mread m (a + 16) = hd n l ∧ dseg m a l n
  end.

Lemma dseg_frame m m' l : ∀ p n,
  (∀ a, a ∈ l → mread m' (a + 8) = mread m (a + 8) ∧ mread m' (a + 16) = mread m (a + 16)) →
  dseg m p l n → dseg m' p l n.
Proof.
  induction l as [|a l IH]; intros p n Hm; simpl; [done|]. intros (H1 & H2 & H3).
  destruct (Hm a) as [-> ->]; [left|]. split; [done|]. split; [done|].
  apply IH; [|done]. intros b Hb. apply Hm. by right.
Qed.

Definition lastd (p : Z) (l : list Z) : Z := default p (list.last l).

Lemma lastd_cons p a l : lastd p (a :: l) = lastd a l.
Proof. unfold lastd. rewrite last_cons. by destruct (list.last l). Qed.
Lemma lastd_snoc p l a : lastd p (l ++ [a]) = a.
Proof. unfold lastd. by rewrite last_snoc. Qed.
Lemma hd_app (n : Z) l1 l2 : hd n (l1 ++ l2) = hd (hd n l2) l1.
Proof. by destruct l1. Qed.

Lemma dseg_app m l1 l2 : ∀ p n,
  dseg m p (l1 ++ l2) n ↔ dseg m p l1 (hd n l2) ∧ dseg m (lastd p l1) l2 n.
Proof.
  induction l1 as [|a l1 IH]; intros p n; simpl; [tauto|].
  rewrite IH, hd_app, lastd_cons. tauto.
Qed.

(** Nodes are at least 32 bytes apart. *)
Definition far (l : list Z) : Prop :=
  ∀ a b, a ∈ l → b ∈ l → a ≠ b → a + 32 ≤ b ∨ b + 32 ≤ a.

Lemma mread_insert_ne (m : gmap Z Z) x w y : x ≠ y → mread (<[x := w]> m) y = mread m y.
Proof. intros. unfold mread. by rewrite lookup_insert_ne. Qed.
Lemma mread_insert_eq (m : gmap Z Z) x w : mread (<[x := w]> m) x = w.
Proof. unfold mread. by rewrite lookup_insert_eq. Qed.

Lemma dseg_set_prev m p p' a l n :
  far (a :: l) → NoDup (a :: l) → dseg m p (a :: l) n → dseg (<[a + 8 := p']> m) p' (a :: l) n.
Proof.
  intros Hf Hn (H1 & H2 & H3). apply list.NoDup_cons in Hn as [Hna _].
  split; [apply mread_insert_eq|]. split; [by rewrite mread_insert_ne by lia|].
  eapply dseg_frame; [|done]. intros b Hb.
  destruct (Hf a b) as [?|?]; [left|by right|by intros ->|..]; by rewrite !mread_insert_ne by lia.
Qed.

Lemma dseg_set_next m p l a n n' :
  far (l ++ [a]) → NoDup (l ++ [a]) → dseg m p (l ++ [a]) n →
  dseg (<[a + 16 := n']> m) p (l ++ [a]) n'.
Proof.
  intros Hf Hn [H1 (H2 & H3 & _)]%dseg_app. apply list.NoDup_app in Hn as (_ & Hd & _).
  apply dseg_app. split.
  - eapply dseg_frame; [|exact H1]. intros b Hb.
    destruct (Hf a b) as [?|?]; [set_solver..|intros ->; by apply (Hd b Hb); left| |];
      by rewrite !mread_insert_ne by lia.
  - split; [by rewrite mread_insert_ne by lia|]. split; [apply mread_insert_eq|done].
Qed.

(** Unlinking a node. *)
Definition unlink (m : gmap Z Z) (p n : Z) : gmap Z Z :=
  let m := if negb (p =? 0) then <[p + 16 := n]> m else m in
  if negb (n =? 0) then <[n + 8 := p]> m else m.

Lemma dseg_unlink m l1 a l2 :
  far (l1 ++ a :: l2) → NoDup (l1 ++ a :: l2) → (∀ b, b ∈ l1 ++ a :: l2 → b ≠ 0) →
  dseg m 0 (l1 ++ a :: l2) 0 →
  dseg (unlink m (lastd 0 l1) (hd 0 l2)) 0 (l1 ++ l2) 0.
Proof.
  intros Hf Hn H0 [H1 (_ & _ & H2)]%dseg_app. unfold unlink. simpl in H1.
  assert (Hsub : ∀ b, b ∈ l1 ∨ b ∈ l2 → b ∈ l1 ++ a :: l2) by set_solver.
  assert (Hd : ∀ b c, b ∈ l1 → c ∈ l2 → b + 32 ≤ c ∨ c + 32 ≤ b).
  { intros b c Hb Hc. apply Hf; [set_solver..|]. intros ->.
    apply list.NoDup_app in Hn as (_ & Hd & _). apply (Hd c Hb). by right. }
  apply list.NoDup_app in Hn as (Hn1 & _ & [_ Hn2]%list.NoDup_cons).
  assert (Hf1 : far l1) by (intros ????; apply Hf; auto).
  assert (Hf2 : far l2) by (intros ????; apply Hf; auto).
  apply dseg_app. split.
  - destruct l1 as [|p l1'] using rev_ind; [done|clear IHl1'].
    rewrite lastd_snoc. rewrite (proj2 (Z.eqb_neq p 0)) by (apply H0; set_solver). simpl negb.
    assert (Hs : dseg (<[p + 16 := hd 0 l2]> m) 0 (l1' ++ [p]) (hd 0 l2))
      by (by eapply dseg_set_next).
    destruct l2 as [|q l2']; [done|]. simpl hd.
    rewrite (proj2 (Z.eqb_neq q 0)) by (apply H0; set_solver). cbv beta iota delta [negb].
    eapply dseg_frame; [|exact Hs]. intros b Hb.
    destruct (Hd b q Hb) as [?|?]; [left|..]; by rewrite !(mread_insert_ne _ (q + 8)) by lia.
  - destruct l2 as [|q l2']; [done|]. simpl hd.
    rewrite (proj2 (Z.eqb_neq q 0)) by (apply H0; set_solver). cbv beta iota delta [negb].
    assert (Hs : ∀ m', (m' = m ∨ m' = <[lastd 0 l1 + 16 := q]> m ∧ lastd 0 l1 ∈ l1) →
      dseg (<[q + 8 := lastd 0 l1]> m') (lastd 0 l1) (q :: l2') 0).
    { intros m' [->|[-> Hin]]; (eapply dseg_set_prev; [done..|]); [done|].
      eapply dseg_frame; [|exact H2]. intros b Hb.
      destruct (Hd _ b Hin Hb); by rewrite !mread_insert_ne by lia. }
    apply Hs. destruct l1 as [|p l1'] using rev_ind; [by left|clear IHl1'].
    right. rewrite lastd_snoc, (proj2 (Z.eqb_neq p 0)) by (apply H0; set_solver).
    split; [done|set_solver].
Qed.

(** ** The invariant *)
Record geo (al : mica_alloc) : Prop := {
  geo_data : 0 < al_data al;
  geo_size : 0 < al_size al ≤ MICA_ALLOC_MAX_SIZE;
  geo_end : al_data al + al_size al < 2 ^ 64;
  geo_heads : length (al_free_head al) = 32%nat
}.

Record ainv (al : mica_alloc) (C : layout) (fl : Z → list Z) (X : gset Z) : Prop := {
  inv_geo : geo al;
  inv_lay : lay (al_data al) (al_size al) C;
  inv_hand : ∀ x, x ∈ X → ∃ n, C !! x = Some (n, false);
  inv_coal : ∀ a n m f, C !! a = Some (n, true) → C !! (a + n) = Some (m, f) → f = false;
  inv_tags : ∀ a n f, C !! a = Some (n, f) → a ∉ X →
    mread (al_mem al) a = tagw n f ∧ mread (al_mem al) (a + n - 8) = tagw n f;
  inv_head : ∀ c, 0 ≤ c < 32 → al_free_head al !! Z.to_nat c = Some (hd 0 (fl c));
  inv_list : ∀ c, 0 ≤ c < 32 → dseg (al_mem al) 0 (fl c) 0 ∧ NoDup (fl c);
  inv_mem : ∀ c a, 0 ≤ c < 32 → a ∈ fl c ↔ ∃ n, C !! a = Some (n, true) ∧ cls n = c
}.

Section Access.
Context (al : mica_alloc) (C : layout) (fl : Z → list Z) (X : gset Z).
Context (Hinv : ainv al C fl X).

Lemma chunk_bounds a n f : C !! a = Some (n, f) →
  al_data al ≤ a ∧ a + n ≤ al_data al + al_size al ∧ 32 ≤ n ≤ MICA_ALLOC_MAX_SIZE ∧
  a mod 8 = 0 ∧ n mod 8 = 0 ∧ 0 < a < 2 ^ 64.
Proof using Hinv.
  intros Ha. destruct (lay_chunk _ _ _ (inv_lay _ _ _ _ Hinv) _ _ _ Ha) as (? & ? & ? & ? & ?).
  destruct (inv_geo _ _ _ _ Hinv). repeat split; auto; lia.
Qed.

Lemma chunk_word a n f x : C !! a = Some (n, f) → 0 ≤ x → x + 8 ≤ n → x mod 8 = 0 →
  word_ok al (a + x) = true.
Proof using Hinv.
  intros Ha ? ? Hx. destruct (chunk_bounds _ _ _ Ha) as (? & ? & ? & Ha8 & ? & ?).
  unfold word_ok. rewrite !(proj2 (Z.leb_le _ _)) by lia.
  rewrite Z.add_mod, Ha8, Hx by done. done.
Qed.

Lemma load_chunk a n f x : C !! a = Some (n, f) → 0 ≤ x → x + 8 ≤ n → x mod 8 = 0 →
  load64 al (a + x) = Ok (mread (al_mem al) (a + x)).
Proof using Hinv. intros. unfold load64. by erewrite chunk_word. Qed.

Lemma far_chunks a b n f m g : C !! a = Some (n, f) → C !! b = Some (m, g) → a ≠ b →
  a + n ≤ b ∨ b + m ≤ a.
Proof using Hinv.
  intros Ha Hb Hne. pose proof (lay_disj _ _ _ (inv_lay _ _ _ _ Hinv)) as Hd.
  destruct (Z.lt_total a b) as [Hl|[?|Hl]]; [|done|]; eauto.
Qed.

Lemma in_list c a : 0 ≤ c < 32 → a ∈ fl c → ∃ n, C !! a = Some (n, true) ∧ cls n = c ∧ a ≠ 0.
Proof using Hinv.
  intros Hc (n & Ha & E)%(inv_mem _ _ _ _ Hinv); [|done]. exists n. split; [done|]. split; [done|].
  apply chunk_bounds in Ha. lia.
Qed.

Lemma far_list c : 0 ≤ c < 32 → far (fl c).
Proof using Hinv.
  intros Hc a b (n & Ha & _)%in_list (m & Hb & _)%in_list Hne; auto.
  pose proof (chunk_bounds _ _ _ Ha). pose proof (chunk_bounds _ _ _ Hb).
  destruct (far_chunks _ _ _ _ _ _ Ha Hb Hne); lia.
Qed.

Lemma tag_at a n f : C !! a = Some (n, f) → a ∉ X →
  load64 al a = Ok (tagw n f) ∧ load64 al (a + n - 8) = Ok (tagw n f) ∧
  MICA_ALLOC_TAG_SIZE (tagw n f) = n ∧ MICA_ALLOC_TAG_STATUS (tagw n f) = status f.
Proof using Hinv.
  intros Ha HX. destruct (inv_tags _ _ _ _ Hinv _ _ _ Ha HX) as [H1 H2].
  destruct (chunk_bounds _ _ _ Ha) as (? & ? & ? & ? & Hn8 & ?). unfold MICA_ALLOC_MAX_SIZE in *.
  split; [|split; [|by apply tagw_parts; lia]].
  - rewrite <-(Z.add_0_r a) at 1. erewrite load_chunk; [|done|lia|lia|done]. by rewrite Z.add_0_r, H1.
  - replace (a + n - 8) with (a + (n - 8)) by lia.
    erewrite load_chunk; [|done|lia|lia|by rewrite Zminus_mod, Hn8].
    replace (a + (n - 8)) with (a + n - 8) by lia. by rewrite H2.
Qed.

(** A word written at a link field is not a tag. *)
Lemma link_not_tag p k b n f x : C !! p = Some k → C !! b = Some (n, f) → x = 8 ∨ x = 16 →
  p + x ≠ b ∧ p + x ≠ b + n - 8.
Proof using Hinv.
  intros Hp Hb Hx. destruct k as [m g]. pose proof (chunk_bounds _ _ _ Hp).
  pose proof (chunk_bounds _ _ _ Hb). destruct (decide (p = b)) as [->|Hne]; [simplify_eq; lia|].
  destruct (far_chunks _ _ _ _ _ _ Hp Hb Hne); lia.
Qed.
End Access.

Lemma store_ok al a w : word_ok al a = true → store64 al a w = Ok (set_mem al (<[a := w]> (al_mem al))).
Proof. intros H. unfold store64. by rewrite H. Qed.

Lemma al_mem_set al m : al_mem (set_mem al m) = m.
Proof. done. Qed.

Lemma load_ok al a : word_ok al a = true → load64 al a = Ok (mread (al_mem al) a).
Proof. intros H. unfold load64. by rewrite H. Qed.

(** The words of the occupied chunks other than [a] are as before. *)
Definition kept (C : layout) (a : Z) (al al' : mica_alloc) : Prop :=
  ∀ b m x, C !! b = Some (m, false) → b ≠ a → b ≤ x < b + m →
    mread (al_mem al') x = mread (al_mem al) x.

(** ** Removing a chunk from its free list *)
Definition fl_upd (fl : Z → list Z) (c : Z) (l : list Z) : Z → list Z :=
  λ c', if decide (c' = c) then l else fl c'.

(** The allocator state without the node between [l1] and [l2]. *)
Definition removed (al : mica_alloc) (n : Z) (l1 l2 : list Z) : mica_alloc :=
  set_free_head (set_mem al (unlink (al_mem al) (lastd 0 l1) (hd 0 l2)))
    (if lastd 0 l1 =? 0 then <[Z.to_nat (cls n) := hd 0 l2]> (al_free_head al) else al_free_head al).

Section Remove.
Context (al : mica_alloc) (C : layout) (fl : Z → list Z) (X : gset Z).
Context (Hinv : ainv al C fl X) (a n : Z) (Ha : C !! a = Some (n, true)).
Context (l1 l2 : list Z) (Hl : fl (cls n) = l1 ++ a :: l2).

Lemma cls_ok : 0 ≤ cls n < 32.
Proof using Ha Hinv. apply cls_range. by apply (chunk_bounds _ _ _ _ Hinv) in Ha as (_ & _ & [? _] & _). Qed.

Lemma node_in b : b ∈ l1 ++ l2 → ∃ m, C !! b = Some (m, true) ∧ b ≠ 0 ∧ b ≠ a.
Proof using Ha Hinv Hl.
  intros Hb. pose proof cls_ok as Hc.
  destruct (in_list _ _ _ _ Hinv (cls n) b Hc) as (m & Hm & _ & H0); [rewrite Hl; set_solver|].
  exists m. split; [done|]. split; [done|]. intros ->.
  pose proof (proj2 (inv_list _ _ _ _ Hinv _ Hc)) as Hnd. rewrite Hl in Hnd.
  apply list.NoDup_app in Hnd as (_ & Hd & [Hd' _]%list.NoDup_cons).
  apply elem_of_app in Hb as [Hb|Hb]; [|done]. apply (Hd a Hb). left.
Qed.

Lemma prev_case : lastd 0 l1 = 0 ∨ lastd 0 l1 ∈ l1.
Proof using.
  clear. destruct l1 as [|p l] using rev_ind; [by left|]. right. rewrite lastd_snoc. set_solver.
Qed.
Lemma next_case : hd 0 l2 = 0 ∨ hd 0 l2 ∈ l2.
Proof using. clear. destruct l2; [by left|]. right. left. Qed.

Lemma prev_zero : lastd 0 l1 = 0 → l1 = [].
Proof using Ha Hinv Hl.
  pose proof node_in as Hin. destruct l1 as [|p l] using rev_ind; [done|]. rewrite lastd_snoc. intros ->.
  destruct (Hin 0) as (? & _ & ? & _); [set_solver|done].
Qed.

Lemma remove_run : mica_alloc_remove_free_chunk_from_free_list al a n = Ok (removed al n l1 l2).
Proof using Ha Hinv Hl.
  pose proof cls_ok as Hc. pose proof (chunk_bounds _ _ _ _ Hinv _ _ _ Ha) as (_ & _ & Hn & _).
  pose proof (proj1 (inv_list _ _ _ _ Hinv _ Hc)) as Hs. rewrite Hl in Hs.
  apply dseg_app in Hs as [_ (Hp & Hq & _)].
  unfold mica_alloc_remove_free_chunk_from_free_list.
  erewrite !(load_chunk al C fl X Hinv a n true) by (done || lia). cbn [res_bind]. rewrite Hp, Hq.
  assert (Hsn : ∀ al0, al_data al0 = al_data al → al_size al0 = al_size al → hd 0 l2 ≠ 0 →
    word_ok al0 (hd 0 l2 + 8) = true).
  { intros al0 E1 E2 Hne. destruct next_case as [?|Hin]; [done|].
    destruct (node_in (hd 0 l2)) as (m & Hm & _); [set_solver|].
    pose proof (chunk_bounds _ _ _ _ Hinv _ _ _ Hm).
    unfold word_ok. rewrite E1, E2. apply (chunk_word _ _ _ _ Hinv _ _ _ _ Hm); (done || lia). }
  unfold removed. unfold unlink. destruct (lastd 0 l1 =? 0) eqn:E0; cbn [negb].
  - apply Z.eqb_eq in E0. pose proof (prev_zero E0) as ->.
    rewrite rounddown_cls by lia. cbn [res_bind]. unfold get_head.
    rewrite (inv_head _ _ _ _ Hinv _ Hc), Hl. simpl hd. cbn [res_bind].
    rewrite Z.eqb_refl. cbn [cassert res_bind]. unfold put_head.
    rewrite (proj2 (Z.ltb_lt _ _)) by (rewrite (geo_heads _ (inv_geo _ _ _ _ Hinv)); lia).
    cbn [in_bounds res_bind]. destruct (hd 0 l2 =? 0) eqn:E1; cbn [negb]; [by destruct al|].
    apply Z.eqb_neq in E1. rewrite store_ok by (apply Hsn; done). done.
  - apply Z.eqb_neq in E0. destruct prev_case as [?|Hin]; [done|].
    destruct (node_in (lastd 0 l1)) as (m & Hm & _); [set_solver|].
    pose proof (chunk_bounds _ _ _ _ Hinv _ _ _ Hm).
    rewrite store_ok by (apply (chunk_word _ _ _ _ Hinv _ _ _ _ Hm); (done || lia)).
    cbn [res_bind]. destruct (hd 0 l2 =? 0) eqn:E1; cbn [negb]; [by destruct al|].
    apply Z.eqb_neq in E1. rewrite store_ok by (apply Hsn; done). by destruct al.
Qed.

(** The unlinking writes only link fields of free chunks. *)
Lemma unlink_read x :
  (∀ b m, C !! b = Some (m, true) → b ∈ l1 ++ l2 → x ≠ b + 8 ∧ x ≠ b + 16) →
  mread (al_mem (removed al n l1 l2)) x = mread (al_mem al) x.
Proof using Ha Hinv Hl.
  intros Hx. unfold removed. simpl. unfold unlink.
  assert (Hp : lastd 0 l1 ≠ 0 → lastd 0 l1 + 16 ≠ x).
  { intros Hne. destruct prev_case as [?|Hin]; [done|].
    destruct (node_in (lastd 0 l1)) as (m & Hm & _); [set_solver|].
    destruct (Hx _ _ Hm); [set_solver|]. congruence. }
  assert (Hq : hd 0 l2 ≠ 0 → hd 0 l2 + 8 ≠ x).
  { intros Hne. destruct next_case as [?|Hin]; [done|].
    destruct (node_in (hd 0 l2)) as (m & Hm & _); [set_solver|].
    destruct (Hx _ _ Hm); [set_solver|]. congruence. }
  destruct (lastd 0 l1 =? 0) eqn:E0, (hd 0 l2 =? 0) eqn:E1; cbn [negb];
    rewrite ?Z.eqb_eq, ?Z.eqb_neq in *; by rewrite ?mread_insert_ne by auto.
Qed.

Lemma remove_inv : ainv (removed al n l1 l2) (<[a := (n, false)]> C) (fl_upd fl (cls n) (l1 ++ l2)) ({[a]} ∪ X).
Proof using Ha Hinv Hl.
  pose proof cls_ok as Hc. constructor.
  - destruct (inv_geo _ _ _ _ Hinv). unfold removed. constructor; simpl; auto.
    destruct (lastd 0 l1 =? 0); by rewrite ?length_insert.
  - unfold removed. simpl. eapply lay_status; [apply Hinv|done].
  - intros x Hx. destruct (decide (x = a)) as [->|Hne]; [exists n; apply lookup_insert_eq|].
    destruct (inv_hand _ _ _ _ Hinv x) as [m Hm]; [set_solver|].
    exists m. by rewrite lookup_insert_ne.
  - intros b m k f Hb Hbn. apply lookup_insert_Some in Hb as [[_ [=]]|[_ Hb]].
    apply lookup_insert_Some in Hbn as [[_ [= _ <-]]|[_ Hbn]]; [done|].
    by eapply (inv_coal _ _ _ _ Hinv).
  - intros b m f Hb HX. apply lookup_insert_Some in Hb as [[-> _]|[_ Hb]]; [set_solver|].
    destruct (inv_tags _ _ _ _ Hinv b m f Hb) as [H1 H2]; [set_solver|].
    split; [rewrite <-H1|rewrite <-H2]; apply unlink_read; intros c k Hk _;
      pose proof (link_not_tag _ _ _ _ Hinv c _ b m f 8 Hk Hb ltac:(by left));
      pose proof (link_not_tag _ _ _ _ Hinv c _ b m f 16 Hk Hb ltac:(by right)); naive_solver.
  - intros c Hc'. unfold fl_upd. pose proof (inv_head _ _ _ _ Hinv c Hc') as Hh.
    unfold removed. simpl. destruct (decide (c = cls n)) as [->|Hne].
    + destruct (lastd 0 l1 =? 0) eqn:E0.
      * apply Z.eqb_eq in E0. pose proof (prev_zero E0) as ->. apply list_lookup_insert_eq.
        rewrite (geo_heads _ (inv_geo _ _ _ _ Hinv)). lia.
      * apply Z.eqb_neq in E0. rewrite Hl in Hh. rewrite Hh. by destruct l1.
    + destruct (lastd 0 l1 =? 0); [|done]. by rewrite list_lookup_insert_ne by lia.
  - intros c Hc'. unfold fl_upd. destruct (inv_list _ _ _ _ Hinv c Hc') as [Hs Hnd].
    destruct (decide (c = cls n)) as [->|Hne].
    + pose proof (far_list _ _ _ _ Hinv _ Hc) as Hf.
      assert (H0 : ∀ b, b ∈ fl (cls n) → b ≠ 0).
      { intros b Hb. by destruct (in_list _ _ _ _ Hinv _ _ Hc Hb) as (? & _ & _ & ?). }
      rewrite Hl in *. split; [by apply (dseg_unlink _ _ a)|].
      apply list.NoDup_app in Hnd as (Hn1 & Hd & [_ Hn2]%list.NoDup_cons).
      apply list.NoDup_app. split; [done|]. split; [|done]. intros b Hb Hb'. apply (Hd b Hb). by right.
    + split; [|done]. eapply dseg_frame; [|exact Hs]. intros b Hb.
      destruct (in_list _ _ _ _ Hinv _ _ Hc' Hb) as (m & Hm & Ecls & _).
      assert (Hsep : ∀ d k, C !! d = Some (k, true) → d ∈ l1 ++ l2 → d + 32 ≤ b ∨ b + 32 ≤ d).
      { intros d k Hd Hin. pose proof (chunk_bounds _ _ _ _ Hinv _ _ _ Hd).
        pose proof (chunk_bounds _ _ _ _ Hinv _ _ _ Hm).
        destruct (far_chunks _ _ _ _ Hinv _ _ _ _ _ _ Hd Hm); [|lia..]. intros ->.
        destruct (in_list _ _ _ _ Hinv (cls n) b Hc) as (? & ? & ? & _); [rewrite Hl; set_solver|].
        simplify_eq. }
      split; apply unlink_read; intros d k Hd Hin; pose proof (Hsep d k Hd Hin); lia.
  - intros c b Hc'. unfold fl_upd. pose proof (inv_mem _ _ _ _ Hinv c b Hc') as Hm.
    assert (Hiff : (∃ m, <[a:=(n, false)]> C !! b = Some (m, true) ∧ cls m = c) ↔
      (b ≠ a ∧ ∃ m, C !! b = Some (m, true) ∧ cls m = c)).
    { split.
      - intros (m & Hb & E). apply lookup_insert_Some in Hb as [[_ [=]]|[? Hb]]. eauto.
      - intros (Hne & m & Hb & E). exists m. by rewrite lookup_insert_ne. }
    rewrite Hiff, <-Hm. destruct (decide (c = cls n)) as [->|Hne].
    + rewrite Hl. split.
      * intros Hb. destruct (node_in b Hb) as (_ & _ & _ & ?). split; [done|set_solver].
      * set_solver.
    + split; [|by intros [_ ?]]. intros Hb. split; [|done]. intros ->.
      destruct (in_list _ _ _ _ Hinv _ _ Hc' Hb) as (m & ? & ? & _). simplify_eq.
Qed.
End Remove.

Lemma remove_spec al C fl X a n :
  ainv al C fl X → C !! a = Some (n, true) →
  ∃ al' fl', mica_alloc_remove_free_chunk_from_free_list al a n = Ok al' ∧
    ainv al' (<[a := (n, false)]> C) fl' ({[a]} ∪ X) ∧
    al_data al' = al_data al ∧ al_size al' = al_size al ∧ kept C a al al'.
Proof.
  intros Hinv Ha. pose proof (cls_ok _ _ _ _ Hinv _ _ Ha) as Hc.
  assert (Hin : a ∈ fl (cls n)) by (apply (inv_mem _ _ _ _ Hinv); eauto).
  apply list_elem_of_split in Hin as (l1 & l2 & Hl).
  eexists _, _. split; [by eapply remove_run|]. split; [by eapply remove_inv|]. split; [done|]. split; [done|].
  intros b m x Hb _ Hx. eapply unlink_read; [done..|]. intros d k Hd _.
  pose proof (chunk_bounds _ _ _ _ Hinv _ _ _ Hd).
  destruct (far_chunks _ _ _ _ Hinv _ _ _ _ _ _ Hd Hb); [|lia..]. intros ->. by simplify_eq.
Qed.

(** ** Inserting a chunk into its free list *)
Definition neighbours_used (C : layout) (a n : Z) : Prop :=
  (∀ m f, C !! (a + n) = Some (m, f) → f = false) ∧
  (∀ b m, C !! b = Some (m, true) → b + m ≠ a).

Definition inserted_mem (m : gmap Z Z) (a n h : Z) : gmap Z Z :=
  let t := tagw n true in
  let m := <[a + 16 := h]> (<[a + 8 := 0]> (<[a := t]> (<[a + n - 8 := t]> m))) in
  if h =? 0 then m else <[h + 8 := a]> m.

Definition inserted (al : mica_alloc) (a n h : Z) : mica_alloc :=
  set_free_head (set_mem al (inserted_mem (al_mem al) a n h))
    (<[Z.to_nat (cls n) := a]> (al_free_head al)).

Section Insert.
Context (al : mica_alloc) (C : layout) (fl : Z → list Z) (X : gset Z).
Context (Hinv : ainv al C fl X) (a n : Z) (Ha : C !! a = Some (n, false)) (HaX : a ∈ X).
Context (Hnb : neighbours_used C a n).
Local Abbreviation h := (hd 0 (fl (cls n))).

Lemma icls_ok : 0 ≤ cls n < 32.
Proof using Ha Hinv. apply cls_range. by apply (chunk_bounds _ _ _ _ Hinv) in Ha as (_ & _ & [? _] & _). Qed.

Lemma head_case : h = 0 ∨ ∃ m l, fl (cls n) = h :: l ∧ C !! h = Some (m, true) ∧ h ≠ 0 ∧ h ≠ a.
Proof using Ha Hinv.
  pose proof icls_ok as Hc. destruct (fl (cls n)) as [|b l] eqn:E; [by left|right].
  destruct (in_list _ _ _ _ Hinv (cls n) b Hc) as (m & Hm & _ & ?); [rewrite E; left|].
  exists m, l. repeat split; auto. simpl. intros ->. by simplify_eq.
Qed.

(** Reads outside the chunk and the head's [prev] field. *)
Lemma inserted_read x :
  (x < a ∨ a + n ≤ x) → (h ≠ 0 → x ≠ h + 8) →
  mread (inserted_mem (al_mem al) a n h) x = mread (al_mem al) x.
Proof using Ha Hinv.
  intros Hx Hh. pose proof (chunk_bounds _ _ _ _ Hinv _ _ _ Ha). unfold inserted_mem.
  destruct (h =? 0) eqn:E; [|apply Z.eqb_neq in E; rewrite (mread_insert_ne _ (h + 8)) by naive_solver];
    by rewrite !mread_insert_ne by lia.
Qed.

Lemma inserted_fields :
  mread (inserted_mem (al_mem al) a n h) a = tagw n true ∧
  mread (inserted_mem (al_mem al) a n h) (a + n - 8) = tagw n true ∧
  mread (inserted_mem (al_mem al) a n h) (a + 8) = 0 ∧
  mread (inserted_mem (al_mem al) a n h) (a + 16) = h.
Proof using Ha Hinv.
  pose proof (chunk_bounds _ _ _ _ Hinv _ _ _ Ha) as (? & ? & ? & _).
  assert (Hh : h ≠ 0 → h + 32 ≤ a ∨ a + n ≤ h).
  { intros Hz. destruct head_case as [?|(m & l & _ & Hm & _ & Hne)]; [done|].
    pose proof (chunk_bounds _ _ _ _ Hinv _ _ _ Hm).
    destruct (far_chunks _ _ _ _ Hinv _ _ _ _ _ _ Hm Ha Hne); lia. }
  unfold inserted_mem. destruct (h =? 0) eqn:E; [|apply Z.eqb_neq in E; specialize (Hh E)].
  - repeat split; rewrite ?mread_insert_eq; try done;
      repeat (rewrite mread_insert_ne by lia); rewrite ?mread_insert_eq; try done;
      repeat (rewrite mread_insert_ne by lia); by rewrite mread_insert_eq.
  - rewrite !(mread_insert_ne _ (h + 8)) by lia.
    repeat split; rewrite ?mread_insert_eq; try done;
      repeat (rewrite mread_insert_ne by lia); rewrite ?mread_insert_eq; try done;
      repeat (rewrite mread_insert_ne by lia); by rewrite mread_insert_eq.
Qed.

Lemma insert_run : mica_alloc_insert_free_chunk al a n = Ok (inserted al a n h).
Proof using Ha Hinv.
  pose proof icls_ok as Hc. pose proof (chunk_bounds _ _ _ _ Hinv _ _ _ Ha) as (? & ? & Hn & ? & Hn8 & _).
  unfold mica_alloc_insert_free_chunk. rewrite rounddown_cls by lia. cbn [res_bind].
  assert (Hw : ∀ x, 0 ≤ x → x + 8 ≤ n → x mod 8 = 0 → word_ok al (a + x) = true)
    by (intros; by eapply (chunk_word _ _ _ _ Hinv)).
  rewrite store_ok by (replace (a + n - 8) with (a + (n - 8)) by lia; apply Hw; [lia..|];
                       by rewrite Zminus_mod, Hn8).
  cbn [res_bind]. rewrite store_ok by (unfold word_ok in *; simpl; rewrite <-(Z.add_0_r a); apply Hw; done || lia).
  cbn [res_bind]. rewrite store_ok by (apply Hw; done || lia).
  cbn [res_bind]. unfold get_head. cbn [set_mem al_free_head].
  rewrite (inv_head _ _ _ _ Hinv _ Hc). cbn [res_bind].
  rewrite store_ok by (apply Hw; done || lia). cbn [res_bind set_mem al_mem al_lock al_size al_data].
  assert (Hput : ∀ al0, al_free_head al0 = al_free_head al →
    put_head al0 (cls n) a = Ok (set_free_head al0 (<[Z.to_nat (cls n) := a]> (al_free_head al)))).
  { intros al0 E. unfold put_head. rewrite E, (geo_heads _ (inv_geo _ _ _ _ Hinv)).
    rewrite (proj2 (Z.ltb_lt _ _)) by lia. done. }
  destruct head_case as [E|(m & l & El & Hm & Hz & Hne)].
  - unfold inserted, inserted_mem. rewrite E. simpl (0 =? 0). cbn [res_bind]. by rewrite Hput.
  - unfold inserted, inserted_mem. rewrite (proj2 (Z.eqb_neq h 0)) by done.
    pose proof (chunk_bounds _ _ _ _ Hinv _ _ _ Hm) as (? & ? & ? & ? & ? & _).
    assert (Hwh : word_ok al (h + 8) = true)
      by (apply (chunk_word _ _ _ _ Hinv _ _ _ _ Hm); done || lia).
    rewrite load_ok, al_mem_set by exact Hwh. cbn [res_bind].
    assert (Hp : mread (al_mem al) (h + 8) = 0).
    { pose proof (proj1 (inv_list _ _ _ _ Hinv _ Hc)) as Hs. rewrite El in Hs. by destruct Hs as [-> _]. }
    pose proof (far_chunks _ _ _ _ Hinv _ _ _ _ _ _ Hm Ha Hne).
    rewrite !mread_insert_ne, Hp by lia. simpl (0 =? 0). cbn [cassert res_bind].
    rewrite store_ok by exact Hwh. cbn [res_bind]. by rewrite Hput.
Qed.

Lemma insert_inv :
  ainv (inserted al a n h) (<[a := (n, true)]> C) (fl_upd fl (cls n) (a :: fl (cls n))) (X ∖ {[a]}).
Proof using Ha HaX Hinv Hnb.
  pose proof icls_ok as Hc. pose proof (chunk_bounds _ _ _ _ Hinv _ _ _ Ha) as (? & ? & Hn & ? & Hn8 & ?).
  pose proof inserted_fields as (Ft & Ft' & F8 & F16).
  assert (Hlist : ∀ c b, 0 ≤ c < 32 → b ∈ fl c →
    ∃ m, C !! b = Some (m, true) ∧ cls m = c ∧ (b + 32 ≤ a ∨ a + n ≤ b)).
  { intros c b Hc' Hb. destruct (in_list _ _ _ _ Hinv _ _ Hc' Hb) as (m & Hm & E & _).
    exists m. split; [done|]. split; [done|]. pose proof (chunk_bounds _ _ _ _ Hinv _ _ _ Hm).
    destruct (far_chunks _ _ _ _ Hinv _ _ _ _ _ _ Hm Ha); [|lia..]. intros ->. by simplify_eq. }
  constructor.
  - destruct (inv_geo _ _ _ _ Hinv). constructor; simpl; auto. by rewrite length_insert.
  - eapply lay_status; [apply Hinv|done].
  - intros x [Hx Hxa]%elem_of_difference. destruct (inv_hand _ _ _ _ Hinv x Hx) as [m Hm].
    exists m. rewrite lookup_insert_ne; [done|]. set_solver.
  - destruct Hnb as [Hr Hlft]. intros b m k f Hb Hbn.
    apply lookup_insert_Some in Hb as [[<- [= <-]]|[Hne Hb]].
    + rewrite lookup_insert_ne in Hbn by lia. by eapply Hr.
    + apply lookup_insert_Some in Hbn as [[E _]|[_ Hbn]]; [|by eapply (inv_coal _ _ _ _ Hinv)].
      exfalso. by eapply Hlft.
  - intros b m f Hb HX. apply lookup_insert_Some in Hb as [[<- [= <- <-]]|[Hne Hb]]; [done|].
    destruct (inv_tags _ _ _ _ Hinv b m f Hb) as [Ht1 Ht2]; [set_solver|].
    pose proof (chunk_bounds _ _ _ _ Hinv _ _ _ Hb).
    destruct (far_chunks _ _ _ _ Hinv _ _ _ _ _ _ Hb Ha ltac:(done));
      (split; [rewrite <-Ht1|rewrite <-Ht2]; (apply inserted_read; [lia|]; intros Hz;
        destruct head_case as [?|(k & l & _ & Hk & _)]; [done|];
        pose proof (link_not_tag _ _ _ _ Hinv h _ b m f 8 Hk Hb ltac:(by left)); lia)).
  - intros c Hc'. unfold fl_upd. simpl. destruct (decide (c = cls n)) as [->|Hne].
    + apply list_lookup_insert_eq. rewrite (geo_heads _ (inv_geo _ _ _ _ Hinv)). lia.
    + rewrite list_lookup_insert_ne by lia. by apply (inv_head _ _ _ _ Hinv).
  - intros c Hc'. unfold fl_upd. destruct (inv_list _ _ _ _ Hinv c Hc') as [Hs Hnd].
    destruct (decide (c = cls n)) as [->|Hne].
    + split.
      * split; [done|]. split; [done|]. destruct (fl (cls n)) as [|b l] eqn:E; [done|].
        unfold inserted, inserted_mem in *. cbn [hd al_mem set_mem set_free_head] in *.
        destruct (Hlist (cls n) b Hc) as (m & Hm & _ & Hb); [rewrite E; left|].
        pose proof (chunk_bounds _ _ _ _ Hinv _ _ _ Hm).
        rewrite (proj2 (Z.eqb_neq b 0)) in * by lia.
        pose proof (far_list _ _ _ _ Hinv _ Hc) as Hf. rewrite E in Hf.
        apply (dseg_set_prev _ 0); [done..|]. eapply dseg_frame; [|exact Hs].
        intros d Hd. destruct (Hlist (cls n) d Hc) as (k & _ & _ & Hdd); [by rewrite E|].
        by rewrite !mread_insert_ne by lia.
      * apply list.NoDup_cons. split; [|done]. intros Hin.
        destruct (Hlist _ _ Hc Hin) as (? & ? & _). by simplify_eq.
    + split; [|done]. eapply dseg_frame; [|exact Hs]. intros b Hb.
      destruct (Hlist _ _ Hc' Hb) as (m & Hm & Em & Hba). pose proof (chunk_bounds _ _ _ _ Hinv _ _ _ Hm).
      assert (Hh : h ≠ 0 → h + 32 ≤ b ∨ b + 32 ≤ h).
      { intros Hz. destruct head_case as [?|(k & l & El & Hk & _)]; [done|].
        pose proof (chunk_bounds _ _ _ _ Hinv _ _ _ Hk).
        destruct (far_chunks _ _ _ _ Hinv _ _ _ _ _ _ Hk Hm); [|lia..]. intros E.
        destruct (Hlist (cls n) h Hc) as (k' & Hk' & Ek & _); [rewrite El; left|].
        rewrite E in *. simplify_eq. }
      split; apply inserted_read; lia.
  - intros c b Hc'. unfold fl_upd. pose proof (inv_mem _ _ _ _ Hinv c b Hc') as Hm.
    destruct (decide (b = a)) as [->|Hba].
    + destruct (decide (c = cls n)) as [->|Hne].
      * split; [|left]. intros _. exists n. by rewrite lookup_insert_eq.
      * rewrite Hm. rewrite lookup_insert_eq. split; intros (m & Hx & E); simplify_eq.
    + rewrite lookup_insert_ne by done. destruct (decide (c = cls n)) as [->|Hne]; [|done].
      rewrite elem_of_cons, Hm. naive_solver.
Qed.
End Insert.

Lemma insert_spec al C fl X a n :
  ainv al C fl X → C !! a = Some (n, false) → a ∈ X → neighbours_used C a n →
  ∃ al' fl', mica_alloc_insert_free_chunk al a n = Ok al' ∧
    ainv al' (<[a := (n, true)]> C) fl' (X ∖ {[a]}) ∧
    al_data al' = al_data al ∧ al_size al' = al_size al ∧ kept C a al al'.
Proof.
  intros Hinv Ha HX Hnb. eexists _, _. split; [by eapply insert_run|].
  split; [by apply insert_inv|]. split; [done|]. split; [done|].
  intros b m x Hb Hne Hx. eapply (inserted_read al C fl X Hinv a n Ha).
  - destruct (far_chunks _ _ _ _ Hinv _ _ _ _ _ _ Hb Ha Hne); lia.
  - intros Hz. destruct (head_case al C fl X Hinv a n Ha) as [?|(k & l & _ & Hk & _)]; [done|].
    pose proof (chunk_bounds _ _ _ _ Hinv _ _ _ Hk).
    destruct (far_chunks _ _ _ _ Hinv _ _ _ _ _ _ Hk Hb); [|lia..]. intros E. rewrite E in Hk. by simplify_eq.
Qed.
