(* ===== verification/AllocThms.v ===== *)
(** * Theorems about the segregated-fit allocator

    Coalescing, allocation and deallocation against the layout, and the
    states that sequences of calls can reach. *)

From stdpp Require Import base gmap sets list numbers.
From Stdlib Require Import ZArith Lia.
From S2P Require Import Prelude Alloc AllocProof.

(** ** Merging and splitting chunks in hand *)
Lemma merge_inv al C fl X a n m :
  ainv al C fl X → a ∈ X → C !! a = Some (n, false) → C !! (a + n) = Some (m, false) →
  ainv al (<[a := (n + m, false)]> (delete (a + n) C)) fl (X ∖ {[a + n]}).
Proof.
  intros Hinv HX Ha Hb. pose proof (chunk_bounds _ _ _ _ Hinv _ _ _ Ha).
  assert (Hold : ∀ b k f, <[a := (n + m, false)]> (delete (a + n) C) !! b = Some (k, f) →
    (b = a ∧ k = n + m ∧ f = false) ∨ (b ≠ a ∧ b ≠ a + n ∧ C !! b = Some (k, f))).
  { intros b k f E. apply lookup_insert_Some in E as [[<- [= <- <-]]|[? E]]; [auto|].
    apply lookup_delete_Some in E as [? ?]. auto. }
  constructor; try apply Hinv.
  - eapply lay_merge; [apply Hinv|done..].
  - intros x [Hx Hne]%elem_of_difference. destruct (decide (x = a)) as [->|Hxa].
    + exists (n + m). apply lookup_insert_eq.
    + destruct (inv_hand _ _ _ _ Hinv x Hx) as [k Hk]. exists k.
      apply not_elem_of_singleton in Hne. by rewrite lookup_insert_ne, lookup_delete_ne by auto.
  - intros b k k' f [(_ & _ & [=])|(_ & _ & Hbk)]%Hold [(_ & _ & ->)|(_ & _ & Hn)]%Hold; [done|].
    by eapply (inv_coal _ _ _ _ Hinv).
  - intros b k f [(-> & _)|(Hba & Hbn & Hbk)]%Hold HnX; [set_solver by lia|].
    apply (inv_tags _ _ _ _ Hinv); [done|set_solver].
  - intros c b Hc. rewrite (inv_mem _ _ _ _ Hinv c b Hc). split; intros (k & Hk & E).
    + exists k. split; [|done]. rewrite lookup_insert_ne, lookup_delete_ne; [done|..];
        intros <-; by simplify_eq.
    + apply Hold in Hk as [(_ & _ & [=])|(_ & _ & Hk)]. eauto.
Qed.

Lemma split_inv al C fl X a n k :
  ainv al C fl X → a ∈ X → C !! a = Some (n, false) → 32 ≤ k → k mod 8 = 0 → 32 ≤ n - k →
  ainv al (<[a + k := (n - k, false)]> (<[a := (k, false)]> C)) fl ({[a + k]} ∪ X).
Proof.
  intros Hinv HX Ha Hk Hk8 Hnk.
  assert (Hfresh : C !! (a + k) = None).
  { destruct (C !! (a + k)) as [[m f]|] eqn:E; [|done].
    pose proof (chunk_bounds _ _ _ _ Hinv _ _ _ E).
    destruct (far_chunks _ _ _ _ Hinv _ _ _ _ _ _ Ha E); lia. }
  assert (Hold : ∀ b m f, <[a + k := (n - k, false)]> (<[a := (k, false)]> C) !! b = Some (m, f) →
    (b = a + k ∧ f = false) ∨ (b = a ∧ f = false) ∨ (b ≠ a ∧ b ≠ a + k ∧ C !! b = Some (m, f))).
  { intros b m f E. apply lookup_insert_Some in E as [[<- [= _ <-]]|[? E]]; [auto|].
    apply lookup_insert_Some in E as [[<- [= _ <-]]|[? E]]; auto. }
  constructor; try apply Hinv.
  - eapply lay_split; [apply Hinv|done..].
  - intros x Hx. destruct (decide (x = a + k)) as [->|Hxk]; [eexists; apply lookup_insert_eq|].
    rewrite lookup_insert_ne by done.
    destruct (decide (x = a)) as [->|Hxa]; [eexists; apply lookup_insert_eq|].
    rewrite lookup_insert_ne by done. apply (inv_hand _ _ _ _ Hinv). set_solver.
  - intros b m m' f [(_ & [=])|[(_ & [=])|(_ & _ & Hb)]]%Hold [(_ & ->)|[(_ & ->)|(_ & _ & Hn)]]%Hold;
      [done..|]. by eapply (inv_coal _ _ _ _ Hinv).
  - intros b m f [(-> & _)|[(-> & _)|(_ & _ & Hb)]]%Hold HnX; [set_solver..|].
    apply (inv_tags _ _ _ _ Hinv); [done|set_solver].
  - intros c b Hc. rewrite (inv_mem _ _ _ _ Hinv c b Hc). split; intros (m & Hm & E).
    + exists m. split; [|done]. rewrite !lookup_insert_ne; [done|..]; intros <-; by simplify_eq.
    + apply Hold in Hm as [(_ & [=])|[(_ & [=])|(_ & _ & Hm)]]. eauto.
Qed.

(** Memory changes inside chunks in hand. *)
Lemma hand_write_inv al C fl X a n x w :
  ainv al C fl X → a ∈ X → C !! a = Some (n, false) → a ≤ x < a + n →
  ainv (set_mem al (<[x := w]> (al_mem al))) C fl X.
Proof.
  intros Hinv HX Ha Hx.
  assert (Hother : ∀ b m f y, C !! b = Some (m, f) → b ≠ a → b ≤ y < b + m →
    mread (<[x := w]> (al_mem al)) y = mread (al_mem al) y).
  { intros b m f y Hb Hne Hy. destruct (far_chunks _ _ _ _ Hinv _ _ _ _ _ _ Hb Ha Hne);
      by rewrite mread_insert_ne by lia. }
  constructor; try apply Hinv.
  - destruct (inv_geo _ _ _ _ Hinv). constructor; done.
  - intros b m f Hb HnX. simpl. pose proof (chunk_bounds _ _ _ _ Hinv _ _ _ Hb).
    rewrite !(Hother b m f) by (done || lia || set_solver). by apply (inv_tags _ _ _ _ Hinv).
  - intros c Hc. destruct (inv_list _ _ _ _ Hinv c Hc) as [Hs Hnd]. split; [|done].
    eapply dseg_frame; [|exact Hs]. intros b Hb. simpl.
    destruct (in_list _ _ _ _ Hinv _ _ Hc Hb) as (m & Hm & _).
    pose proof (chunk_bounds _ _ _ _ Hinv _ _ _ Hm).
    assert (b ≠ a) by (intros ->; by simplify_eq).
    by rewrite !(Hother b m true) by (done || lia).
Qed.

(** A chunk in hand whose tags are written is an occupied chunk. *)
Lemma occupy_inv al C fl a n :
  ainv al C fl {[a]} → C !! a = Some (n, false) →
  mread (al_mem al) a = tagw n false → mread (al_mem al) (a + n - 8) = tagw n false →
  ainv al C fl ∅.
Proof.
  intros Hinv Ha H1 H2. constructor; try apply Hinv; [set_solver|].
  intros b m f Hb _. destruct (decide (b = a)) as [->|Hne]; [by simplify_eq|].
  apply (inv_tags _ _ _ _ Hinv); [done|set_solver].
Qed.

Lemma take_in_hand al C fl a n :
  ainv al C fl ∅ → C !! a = Some (n, false) → ainv al C fl {[a]}.
Proof.
  intros Hinv Ha. constructor; try apply Hinv.
  - intros x ->%elem_of_singleton. eauto.
  - intros b m f Hb _. apply (inv_tags _ _ _ _ Hinv); [done|set_solver].
Qed.

(** ** Coalescing *)

(** The occupied chunks of two layouts agree, except for [a] and [a']. *)
Definition same_used (C C' : layout) (a a' : Z) : Prop :=
  ∀ b m, b ≠ a → b ≠ a' → C' !! b = Some (m, false) ↔ C !! b = Some (m, false).

Section Coalesce.
Context (al : mica_alloc) (C : layout) (fl : Z → list Z) (a n : Z).
Context (Hinv : ainv al C fl {[a]}) (Ha : C !! a = Some (n, false)).

Lemma coalesce_left :
  ∃ al' C' fl' a' n',
    mica_alloc_coalese_free_chunk_left al a n = Ok (al', (a', n')) ∧
    ainv al' C' fl' {[a']} ∧ C' !! a' = Some (n', false) ∧ a' + n' = a + n ∧ a' ≤ a ∧
    al_data al' = al_data al ∧ al_size al' = al_size al ∧
    (∀ b m, C' !! b = Some (m, true) → b + m ≠ a') ∧
    (∀ b x, a < b → C' !! b = x ↔ C !! b = x) ∧
    (∀ b m, b ≠ a' → C' !! b = Some (m, false) → C !! b = Some (m, false) ∧ b ≠ a) ∧
    (∀ b m, b ≠ a → C !! b = Some (m, false) → C' !! b = Some (m, false) ∧ b ≠ a') ∧
    kept C a al al'.
Proof using Ha Hinv.
  pose proof (chunk_bounds _ _ _ _ Hinv _ _ _ Ha) as (Hd & He & Hn & _).
  pose proof (inv_lay _ _ _ _ Hinv) as Hlay.
  unfold mica_alloc_coalese_free_chunk_left. destruct (a =? al_data al) eqn:E0.
  { apply Z.eqb_eq in E0. exists al, C, fl, a, n. do 7 (split; [done || lia|]).
    split; [|do 3 (split; [naive_solver|]); done]. intros b m Hb. pose proof (chunk_bounds _ _ _ _ Hinv _ _ _ Hb). lia. }
  apply Z.eqb_neq in E0. rewrite (proj2 (Z.ltb_lt _ _)) by lia. cbn [cassert res_bind].
  destruct (lay_prev _ _ _ Hlay _ _ Ha) as [?|(b & m & f & Hb & Hbm)]; [done|].
  pose proof (chunk_bounds _ _ _ _ Hinv _ _ _ Hb) as (_ & _ & Hm & _).
  assert (Huniq : ∀ d k g, C !! d = Some (k, g) → d + k = a → d = b).
  { intros d k g Hdk Edk. pose proof (chunk_bounds _ _ _ _ Hinv _ _ _ Hdk).
    destruct (decide (d = b)); [done|].
    destruct (far_chunks _ _ _ _ Hinv _ _ _ _ _ _ Hdk Hb ltac:(done)); lia. }
  destruct (tag_at _ _ _ _ Hinv b m f Hb ltac:(set_solver by lia)) as (L1 & L2 & Tsz & Tst).
  replace (a - 8) with (b + m - 8) by lia. rewrite L2. cbn [res_bind]. rewrite Tst.
  destruct f; simpl (status _ =? _); cbv iota.
  2: { exists al, C, fl, a, n. do 7 (split; [done || lia|]).
       split; [|do 3 (split; [naive_solver|]); done]. intros d k Hdk Edk. rewrite (Huniq d k true Hdk Edk) in Hdk. simplify_eq. }
  rewrite Tsz. replace (a - m) with b by lia. rewrite L1. cbn [res_bind]. rewrite L2.
  cbn [res_bind]. rewrite Z.eqb_refl. cbn [cassert res_bind].
  destruct (remove_spec _ _ _ _ _ _ Hinv Hb) as (al1 & fl1 & -> & Hinv1 & D1 & S1 & K1). cbn [res_bind].
  pose proof (inv_geo _ _ _ _ Hinv) as Hg. destruct Hg as [? ? ? _]. unfold MICA_ALLOC_MAX_SIZE in *.
  rewrite u64_small by lia.
  set (C1 := <[b := (m, false)]> C) in *.
  assert (Ha1 : C1 !! (b + m) = Some (n, false)) by (subst C1; rewrite lookup_insert_ne, Hbm; [done|lia]).
  assert (Hb1 : C1 !! b = Some (m, false)) by apply lookup_insert_eq.
  pose proof (merge_inv al1 C1 fl1 _ b m n Hinv1 ltac:(set_solver) Hb1 Ha1) as Hinv2.
  assert (Hlook : ∀ d, d ≠ b → d ≠ a →
    <[b := (m + n, false)]> (delete (b + m) C1) !! d = C !! d).
  { intros d H1 H2. subst C1. by rewrite lookup_insert_ne, lookup_delete_ne, lookup_insert_ne by lia. }
  exists al1, (<[b := (m + n, false)]> (delete (b + m) C1)), fl1, b, (n + m).
  split; [done|]. split.
  { replace (({[b]} ∪ {[a]}) ∖ {[b + m]}) with ({[b]} : gset Z) in Hinv2; [done|].
    rewrite Hbm. apply set_eq. intros x. set_solver by lia. }
  split; [rewrite lookup_insert_eq; do 2 f_equal; lia|].
  split; [lia|]. split; [lia|]. split; [done|]. split; [done|]. split; [|split; [|split]].
  - intros d k Hdk Edk. apply lookup_insert_Some in Hdk as [[_ [=]]|[Hdb Hdk]].
    apply lookup_delete_Some in Hdk as [Hda Hdk]. subst C1. rewrite lookup_insert_ne in Hdk by done.
    rewrite <-Edk in Hb. by pose proof (inv_coal _ _ _ _ Hinv _ _ _ _ Hdk Hb).
  - intros d x Hlt. by rewrite Hlook by lia.
  - intros d k Hdb Hdk. assert (d ≠ a).
    { intros ->. rewrite lookup_insert_ne, <-Hbm, lookup_delete_eq in Hdk by done. done. }
    rewrite Hlook in Hdk by done. done.
  - split.
    + intros d k Hda Hdk. assert (d ≠ b) by (intros ->; simplify_eq). by rewrite Hlook.
    + intros d k x Hdk _. apply (K1 d k x Hdk). intros ->. by simplify_eq.
Qed.

Lemma coalesce_right :
  (∀ b m, C !! b = Some (m, true) → b + m ≠ a) →
  ∃ al' C' fl' n',
    mica_alloc_coalese_free_chunk_right al a n = Ok (al', (a, n')) ∧
    ainv al' C' fl' {[a]} ∧ C' !! a = Some (n', false) ∧
    al_data al' = al_data al ∧ al_size al' = al_size al ∧
    neighbours_used C' a n' ∧
    (∀ b m, b ≠ a → C' !! b = Some (m, false) ↔ C !! b = Some (m, false)) ∧ kept C a al al'.
Proof using Ha Hinv.
  intros Hleft. pose proof (chunk_bounds _ _ _ _ Hinv _ _ _ Ha) as (Hd & He & Hn & _).
  pose proof (inv_lay _ _ _ _ Hinv) as Hlay.
  unfold mica_alloc_coalese_free_chunk_right.
  destruct (a + n =? al_data al + al_size al) eqn:E0.
  { apply Z.eqb_eq in E0. exists al, C, fl, n. do 5 (split; [done|]). split; [split; [|done]|split; done].
    intros m f Hm. pose proof (chunk_bounds _ _ _ _ Hinv _ _ _ Hm). lia. }
  apply Z.eqb_neq in E0. rewrite (proj2 (Z.ltb_lt _ _)) by lia. cbn [cassert res_bind].
  destruct (lay_next _ _ _ Hlay _ _ _ Ha) as [?|[[m f] Hb]]; [done|].
  pose proof (chunk_bounds _ _ _ _ Hinv _ _ _ Hb) as (_ & ? & Hm & _).
  destruct (tag_at _ _ _ _ Hinv _ m f Hb ltac:(set_solver by lia)) as (L1 & L2 & Tsz & Tst).
  rewrite L1. cbn [res_bind]. rewrite Tst.
  destruct f; simpl (status _ =? _); cbv iota.
  2: { exists al, C, fl, n. do 5 (split; [done|]). split; [split; [|done]|split; done].
       intros k g Hk. by simplify_eq. }
  rewrite Tsz. cbn [res_bind]. rewrite L2. cbn [res_bind]. rewrite Z.eqb_refl. cbn [cassert res_bind].
  destruct (remove_spec _ _ _ _ _ _ Hinv Hb) as (al1 & fl1 & -> & Hinv1 & D1 & S1 & K1). cbn [res_bind].
  pose proof (inv_geo _ _ _ _ Hinv) as Hg. destruct Hg as [? ? ? _]. unfold MICA_ALLOC_MAX_SIZE in *.
  rewrite u64_small by lia.
  set (C1 := <[a + n := (m, false)]> C) in *.
  assert (Ha1 : C1 !! a = Some (n, false)) by (subst C1; by rewrite lookup_insert_ne by lia).
  assert (Hb1 : C1 !! (a + n) = Some (m, false)) by apply lookup_insert_eq.
  pose proof (merge_inv al1 C1 fl1 _ a n m Hinv1 ltac:(set_solver) Ha1 Hb1) as Hinv2.
  assert (Hlook : ∀ d, d ≠ a → d ≠ a + n →
    <[a := (n + m, false)]> (delete (a + n) C1) !! d = C !! d).
  { intros d H1 H2. subst C1. by rewrite lookup_insert_ne, lookup_delete_ne, lookup_insert_ne by lia. }
  assert (Hgone : <[a := (n + m, false)]> (delete (a + n) C1) !! (a + n) = None)
    by (rewrite lookup_insert_ne, lookup_delete_eq; [done|lia]).
  exists al1, (<[a := (n + m, false)]> (delete (a + n) C1)), fl1, (n + m).
  split; [done|]. split.
  { replace (({[a + n]} ∪ {[a]}) ∖ {[a + n]}) with ({[a]} : gset Z) in Hinv2; [done|].
    apply set_eq. intros x. set_solver by lia. }
  split; [apply lookup_insert_eq|]. split; [done|]. split; [done|]. split; [split|split].
  - intros k g Hk. replace (a + (n + m)) with (a + n + m) in Hk by lia.
    rewrite Hlook in Hk by lia. by eapply (inv_coal _ _ _ _ Hinv).
  - intros d k Hdk. assert (d ≠ a) by (intros ->; rewrite lookup_insert_eq in Hdk; done).
    assert (d ≠ a + n) by (intros ->; rewrite Hgone in Hdk; done).
    rewrite Hlook in Hdk by done. by eapply Hleft.
  - intros d k Hda. destruct (decide (d = a + n)) as [->|Hdn].
    + rewrite Hgone, Hb. split; intros [=].
    + by rewrite Hlook.
  - intros d k x Hdk _. apply (K1 d k x Hdk). intros ->. by simplify_eq.
Qed.
End Coalesce.

(** ** Deallocation *)
Lemma deallocate_spec al C fl a n :
  ainv al C fl ∅ → C !! a = Some (n, false) →
  ∃ al' C' fl', mica_alloc_deallocate al (a + 8 - al_data al) = Ok al' ∧ ainv al' C' fl' ∅ ∧
    al_data al' = al_data al ∧ al_size al' = al_size al ∧
    (∀ b m, C' !! b = Some (m, false) ↔ C !! b = Some (m, false) ∧ b ≠ a) ∧ kept C a al al'.
Proof.
  intros Hinv Ha. destruct (tag_at _ _ _ _ Hinv a n false Ha ltac:(set_solver)) as (L1 & _ & Tsz & Tst).
  unfold mica_alloc_deallocate, mica_alloc_get_item.
  replace (al_data al + (a + 8 - al_data al) - 8) with a by lia. rewrite L1. cbn [res_bind].
  rewrite Tst, Tsz. simpl (status false =? _). cbn [cassert res_bind].
  destruct (coalesce_left al C fl a n (take_in_hand _ _ _ _ _ Hinv Ha) Ha)
    as (al1 & C1 & fl1 & a1 & n1 & -> & Hinv1 & Ha1 & Hend & Hle & D1 & S1 & Hl1 & Hhi & Hu1 & Hu2 & K1).
  cbn [res_bind].
  destruct (coalesce_right al1 C1 fl1 a1 n1 Hinv1 Ha1 Hl1)
    as (al2 & C2 & fl2 & n2 & -> & Hinv2 & Ha2 & D2 & S2 & Hnb & Hu3 & K2).
  cbn [res_bind].
  destruct (insert_spec al2 C2 fl2 {[a1]} a1 n2 Hinv2 Ha2 ltac:(set_solver) Hnb)
    as (al3 & fl3 & -> & Hinv3 & D3 & S3 & K3).
  exists al3, (<[a1 := (n2, true)]> C2), fl3. split; [done|]. split.
  { by replace ({[a1]} ∖ {[a1]}) with (∅ : gset Z) in Hinv3 by set_solver. }
  split; [congruence|]. split; [congruence|]. split.
  2:{ intros b m x Hb Hne Hx. destruct (Hu2 b m Hne Hb) as [Hb1 Hne1].
      rewrite (K3 b m x (proj2 (Hu3 b m Hne1) Hb1) Hne1 Hx), (K2 b m x Hb1 Hne1 Hx). by apply (K1 b m). }
  intros b m. split.
  - intros Hb. apply lookup_insert_Some in Hb as [[_ [=]]|[Hne Hb]].
    apply Hu3 in Hb; [|done]. by apply Hu1.
  - intros [Hb Hne]. destruct (Hu2 b m Hne Hb) as [Hb' Hne']. rewrite lookup_insert_ne by done.
    by apply Hu3.
Qed.

(** ** Allocation *)
Lemma find_class_spec hs : ∀ c,
  let r := find_class hs c in
  (r = c + Z.of_nat (length hs) ∧ ∀ i, (i < length hs)%nat → hs !! i = Some 0) ∨
  (∃ i h, r = c + Z.of_nat i ∧ hs !! i = Some h ∧ h ≠ 0).
Proof.
  induction hs as [|h hs IH]; intros c; cbn zeta; simpl find_class.
  { left. split; [simpl; lia|]. intros i Hi. simpl in Hi. lia. }
  destruct (h =? 0) eqn:E; cbn [negb].
  - apply Z.eqb_eq in E as ->. destruct (IH (c + 1)) as [[-> Hz]|(i & h & -> & Hi & Hh)].
    + left. rewrite length_cons. split; [lia|]. intros [|i] Hi; [done|]. apply Hz. lia.
    + right. exists (S i), h. split; [lia|done].
  - apply Z.eqb_neq in E. right. exists 0%nat, h. split; [lia|done].
Qed.

(** The size of the chunk for an item: the item rounded up to 8 bytes plus
    the two tags. *)
Definition chunk_for (item_size : Z) : Z := 8 * ((item_size + 7) / 8) + 16.

Lemma chunk_for_bounds s : 8 < s < 2 ^ 32 →
  32 ≤ chunk_for s ∧ s + 16 ≤ chunk_for s ≤ s + 23 ∧ chunk_for s mod 8 = 0 ∧
  MICA_ROUNDUP8 s +64 MICA_ALLOC_OVERHEAD = chunk_for s.
Proof.
  intros Hs. unfold chunk_for. pose proof (Z.div_mod (s + 7) 8 ltac:(done)) as E.
  pose proof (Z.mod_pos_bound (s + 7) 8 ltac:(done)).
  split; [assert (2 ≤ (s + 7) / 8) by (apply Z.div_le_lower_bound; lia); lia|]. split; [lia|]. split.
  - replace (8 * ((s + 7) / 8) + 16) with (((s + 7) / 8 + 2) * 8) by lia. by apply Z.mod_mul.
  - unfold MICA_ROUNDUP8, MICA_ALLOC_OVERHEAD. rewrite (u64_small (s + 7)) by lia.
    change (Z.lnot 7) with (Z.lnot (2 ^ 3 - 1)). rewrite u64_land_lnot_mask by lia.
    change (2 ^ 3) with 8. rewrite u64_small by lia. lia.
Qed.

Section Allocate.
Context (al : mica_alloc) (C : layout) (fl : Z → list Z).
Context (Hinv : ainv al C fl ∅).

(** Which chunk is found. *)
Lemma from_head_cases k :
  32 ≤ k ≤ MICA_ALLOC_MAX_SIZE → k mod 8 = 0 →
  (mica_alloc_remove_free_chunk_from_head al k = Ok (al, None) ∧
   ∀ b m, C !! b = Some (m, true) → m < k) ∨
  (∃ a n, C !! a = Some (n, true) ∧
     ((n < k ∧ 280 < k ∧ 280 ≤ n ∧
       mica_alloc_remove_free_chunk_from_head al k = Fault AssertFail) ∨
      (k ≤ n ∧ ∃ al' fl',
       mica_alloc_remove_free_chunk_from_head al k = Ok (al', Some (a, n)) ∧
       ainv al' (<[a := (n, false)]> C) fl' {[a]} ∧
       al_data al' = al_data al ∧ al_size al' = al_size al ∧ kept C a al al'))).
Proof using Hinv.
  intros Hk Hk8. unfold mica_alloc_remove_free_chunk_from_head.
  rewrite roundup_cls by done. cbn [res_bind]. pose proof (cls_range k ltac:(lia)) as Hc.
  pose proof (geo_heads _ (inv_geo _ _ _ _ Hinv)) as Hlen.
  destruct (find_class_spec (drop (Z.to_nat (cls k)) (al_free_head al)) (cls k))
    as [[-> Hz]|(i & h & -> & Hi & Hh)].
  - rewrite length_drop, Hlen in *.
    replace (cls k + Z.of_nat (32 - Z.to_nat (cls k))) with 32 by lia. simpl (32 =? _).
    left. split; [done|]. intros b m Hb.
    pose proof (chunk_bounds _ _ _ _ Hinv _ _ _ Hb) as (_ & _ & Hm & _ & Hm8 & Hb0).
    apply cls_lt; try done; [lia..|]. pose proof (cls_range m ltac:(lia)) as Hcm.
    destruct (decide (cls m < cls k)); [done|]. exfalso.
    assert (Hin : b ∈ fl (cls m)) by (apply (inv_mem _ _ _ _ Hinv); eauto).
    specialize (Hz (Z.to_nat (cls m - cls k)) ltac:(lia)).
    rewrite lookup_drop in Hz. replace (Z.to_nat (cls k) + Z.to_nat (cls m - cls k))%nat
      with (Z.to_nat (cls m)) in Hz by lia.
    rewrite (inv_head _ _ _ _ Hinv _ Hcm) in Hz. injection Hz as Hz.
    destruct (fl (cls m)) as [|d l] eqn:E; [by apply elem_of_nil in Hin|]. simpl in Hz.
    destruct (in_list _ _ _ _ Hinv (cls m) d Hcm) as (? & _ & _ & ?); [rewrite E; left|done].
  - rewrite lookup_drop in Hi. pose proof (lookup_lt_Some _ _ _ Hi) as Hlt. rewrite Hlen in Hlt.
    set (c := cls k + Z.of_nat i) in *. assert (Hcc : 0 ≤ c < 32) by lia.
    replace (Z.to_nat (cls k) + i)%nat with (Z.to_nat c) in Hi by lia.
    rewrite (proj2 (Z.eqb_neq c _)) by (unfold MICA_ALLOC_NUM_CLASSES; lia).
    unfold get_head. rewrite Hi. cbn [res_bind].
    rewrite (inv_head _ _ _ _ Hinv _ Hcc) in Hi. injection Hi as Hi.
    destruct (fl c) as [|d l] eqn:E; [by subst h|]. simpl in Hi. subst d.
    destruct (in_list _ _ _ _ Hinv c h Hcc) as (n & Hn & Hcn & _); [rewrite E; left|].
    right. exists h, n. split; [done|].
    destruct (tag_at _ _ _ _ Hinv h n true Hn ltac:(set_solver)) as (-> & L2 & Tsz & Tst).
    cbn [res_bind]. rewrite Tst, Tsz. simpl (status true =? _). cbn [cassert res_bind].
    pose proof (chunk_bounds _ _ _ _ Hinv _ _ _ Hn) as (_ & _ & Hnn & _ & Hn8 & _).
    destruct (k <=? n) eqn:Ek; [apply Z.leb_le in Ek|apply Z.leb_gt in Ek].
    + right. split; [done|]. cbn [cassert res_bind]. rewrite L2. cbn [res_bind].
      rewrite Z.eqb_refl. cbn [cassert res_bind].
      destruct (remove_spec _ _ _ _ _ _ Hinv Hn) as (al1 & fl1 & -> & Hinv1 & D1 & S1 & K1).
      exists al1, fl1. split; [done|]. split; [|done].
      by replace ({[h]} ∪ ∅) with ({[h]} : gset Z) in Hinv1 by set_solver.
    + left. split; [done|]. assert (Hcls : cls k ≤ cls n) by lia.
      unfold cls in Hcls. pose proof (Z.div_mod (n - 32) 8 ltac:(done)).
      pose proof (Z.mod_pos_bound (n - 32) 8 ltac:(done)).
      pose proof (Z.div_mod (k - 32) 8 ltac:(done)). pose proof (Z.mod_pos_bound (k - 32) 8 ltac:(done)).
      assert ((n - 32) mod 8 = 0) by (by rewrite Zminus_mod, Hn8).
      assert ((k - 32) mod 8 = 0) by (by rewrite Zminus_mod, Hk8).
      destruct (k <? 288) eqn:E1, (n <? 288) eqn:E2; rewrite ?Z.ltb_lt, ?Z.ltb_ge in *;
        split_and?; try done; lia.
Qed.

(** Writing the tags and the item's size. *)
Definition finish (al : mica_alloc) (a n s : Z) : res (mica_alloc * Z) :=
  let! al := store64 al (a + n - 8) (tagw n false) in
  let! al := store64 al a (tagw n false) in
  let! al := store64 al (a + 8) s in
  Ok (al, (a + 8) -64 al_data al).
End Allocate.

Lemma finish_spec al C fl a n s :
  ainv al C fl {[a]} → C !! a = Some (n, false) →
  ∃ al', finish al a n s = Ok (al', a + 8 - al_data al) ∧ ainv al' C fl ∅ ∧
    al_data al' = al_data al ∧ al_size al' = al_size al ∧ mread (al_mem al') (a + 8) = s ∧ kept C a al al'.
Proof.
  intros Hinv Ha. pose proof (chunk_bounds _ _ _ _ Hinv _ _ _ Ha) as (? & ? & ? & ? & Hn8 & ?).
  pose proof (geo_end _ (inv_geo _ _ _ _ Hinv)). pose proof (geo_data _ (inv_geo _ _ _ _ Hinv)).
  unfold finish.
  assert (Hw : ∀ x, 0 ≤ x → x + 8 ≤ n → x mod 8 = 0 → word_ok al (a + x) = true)
    by (intros; by eapply (chunk_word _ _ _ _ Hinv)).
  assert (HX : a ∈ ({[a]} : gset Z)) by set_solver.
  rewrite store_ok by (replace (a + n - 8) with (a + (n - 8)) by lia; apply Hw; [lia..|];
                       by rewrite Zminus_mod, Hn8).
  cbn [res_bind].
  pose proof (hand_write_inv _ _ _ _ _ _ (a + n - 8) (tagw n false) Hinv HX Ha ltac:(lia)) as Hinv1.
  rewrite store_ok by (unfold word_ok in *; simpl; rewrite <-(Z.add_0_r a); apply Hw; done || lia).
  cbn [res_bind].
  pose proof (hand_write_inv _ _ _ _ _ _ a (tagw n false) Hinv1 HX Ha ltac:(lia)) as Hinv2.
  rewrite store_ok by (apply Hw; done || lia). cbn [res_bind].
  pose proof (hand_write_inv _ _ _ _ _ _ (a + 8) s Hinv2 HX Ha ltac:(lia)) as Hinv3.
  eexists. split; [do 2 f_equal; apply u64_small; simpl; lia|].
  split; [|split; [done|split; [done|split; [apply mread_insert_eq|]]]].
  2:{ intros b m x Hb Hne Hx. cbn [al_mem set_mem].
      destruct (far_chunks _ _ _ _ Hinv _ _ _ _ _ _ Hb Ha Hne); by rewrite !mread_insert_ne by lia. }
  eapply occupy_inv; [exact Hinv3|done|..]; cbn [al_mem set_mem].
  - by rewrite mread_insert_ne, mread_insert_eq by lia.
  - rewrite mread_insert_ne, mread_insert_ne, mread_insert_eq by lia. done.
Qed.

(** What an allocation may do. *)
Inductive alloc_result (al : mica_alloc) (C : layout) (s : Z) : res (mica_alloc * Z) → Prop :=
| alloc_none :
    (∀ b m, C !! b = Some (m, true) → m < chunk_for s) →
    alloc_result al C s (Ok (al, MICA_ALLOC_INSUFFICIENT_SPACE))
| alloc_some al' C' fl' a n :
    ainv al' C' fl' ∅ → C' !! a = Some (n, false) →
    al_data al' = al_data al → al_size al' = al_size al →
    chunk_for s ≤ n < chunk_for s + 32 → mread (al_mem al') (a + 8) = s →
    (∀ m, C !! a ≠ Some (m, false)) →
    (∀ b m, b ≠ a → C' !! b = Some (m, false) ↔ C !! b = Some (m, false)) → kept C a al al' →
    alloc_result al C s (Ok (al', a + 8 - al_data al))
| alloc_assert b m :
    280 < chunk_for s → C !! b = Some (m, true) → 280 ≤ m < chunk_for s →
    alloc_result al C s (Fault AssertFail).

Lemma allocate_spec al C fl s :
  ainv al C fl ∅ → 8 < s < 2 ^ 32 → alloc_result al C s (mica_alloc_allocate al s).
Proof.
  intros Hinv Hs. destruct (chunk_for_bounds s Hs) as (Hk & Hks & Hk8 & Hcode).
  unfold mica_alloc_allocate. rewrite (proj2 (Z.ltb_lt _ _)) by lia. cbn [cassert res_bind].
  rewrite Hcode. set (k := chunk_for s) in *.
  destruct (from_head_cases al C fl Hinv k ltac:(unfold MICA_ALLOC_MAX_SIZE; lia) Hk8)
    as [[-> Hno]|(a & n & Hn & [(H1 & H2 & H3 & ->)|(Hle & al1 & fl1 & -> & Hinv1 & D1 & S1 & K1)])];
    cbn [res_bind]; [by apply alloc_none|eapply alloc_assert; eauto; lia|].
  pose proof (chunk_bounds _ _ _ _ Hinv _ _ _ Hn) as (_ & _ & Hnn & _ & Hn8 & _).
  unfold MICA_ALLOC_MAX_SIZE in Hnn. rewrite u64_small by lia.
  set (C1 := <[a := (n, false)]> C) in *. assert (Ha1 : C1 !! a = Some (n, false)) by apply lookup_insert_eq.
  assert (HC1 : ∀ b, b ≠ a → C1 !! b = C !! b) by (intros; by apply lookup_insert_ne).
  assert (Hnew : ∀ m, C !! a ≠ Some (m, false)) by (intros m E; simplify_eq).
  destruct (MICA_ALLOC_MIN_SIZE <=? n - k) eqn:El; [apply Z.leb_le in El|apply Z.leb_gt in El];
    unfold MICA_ALLOC_MIN_SIZE in El.
  - pose proof (split_inv al1 C1 fl1 _ a n k Hinv1 ltac:(set_solver) Ha1 Hk Hk8 El) as Hinv2.
    set (C2 := <[a + k := (n - k, false)]> (<[a := (k, false)]> C1)) in *.
    assert (Hnb : neighbours_used C2 (a + k) (n - k)).
    { split.
      - intros m f Hm. replace (a + k + (n - k)) with (a + n) in Hm by lia.
        subst C2. rewrite !lookup_insert_ne, HC1 in Hm by lia. by eapply (inv_coal _ _ _ _ Hinv).
      - intros b m Hb Eb. subst C2. apply lookup_insert_Some in Hb as [[_ [=]]|[_ Hb]].
        apply lookup_insert_Some in Hb as [[_ [=]]|[Hba Hb]]. rewrite HC1 in Hb by done.
        pose proof (chunk_bounds _ _ _ _ Hinv _ _ _ Hb).
        destruct (far_chunks _ _ _ _ Hinv _ _ _ _ _ _ Hb Hn ltac:(done)); lia. }
    destruct (insert_spec al1 C2 fl1 _ (a + k) (n - k) Hinv2 ltac:(apply lookup_insert_eq)
                ltac:(set_solver) Hnb) as (al2 & fl2 & -> & Hinv3 & D2 & S2 & K2).
    cbn [res_bind]. replace (({[a + k]} ∪ {[a]}) ∖ {[a + k]}) with ({[a]} : gset Z) in Hinv3
      by (apply set_eq; intros x; set_solver by lia).
    assert (Ha3 : <[a + k := (n - k, true)]> C2 !! a = Some (k, false)).
    { subst C2. rewrite !lookup_insert_ne, lookup_insert_eq by lia. done. }
    destruct (finish_spec al2 _ fl2 a k s Hinv3 Ha3) as (al3 & Hf & Hinv4 & D3 & S3 & Hitem & K3).
    unfold finish, tagw in Hf. cbn [status] in Hf. rewrite Hf, D2, D1.
    assert (Hused : ∀ b m, b ≠ a → <[a + k := (n - k, true)]> C2 !! b = Some (m, false) ↔ C !! b = Some (m, false)).
    2:{ eapply alloc_some; [exact Hinv4|done|congruence|congruence|lia|done|done|exact Hused|].
        intros b m x Hb Hba Hx. pose proof (proj2 (Hused b m Hba) Hb) as Hb3.
        rewrite (K3 b m x Hb3 Hba Hx). apply lookup_insert_Some in Hb3 as [[_ [=]]|[Hbk Hb2]].
        rewrite (K2 b m x Hb2) by (done || lia). by apply (K1 b m). }
    intros b m Hba. rewrite <-(HC1 b Hba). subst C2.
    destruct (decide (b = a + k)) as [->|Hbk].
    + rewrite lookup_insert_eq. split; [intros [=]|]. rewrite HC1 by done. intros E.
      pose proof (chunk_bounds _ _ _ _ Hinv _ _ _ E).
      destruct (far_chunks _ _ _ _ Hinv _ _ _ _ _ _ Hn E); lia.
    + by rewrite !lookup_insert_ne by done.
  - cbn [res_bind].
    destruct (finish_spec al1 C1 fl1 a n s Hinv1 Ha1) as (al3 & Hf & Hinv4 & D3 & S3 & Hitem & K3).
    unfold finish, tagw in Hf. cbn [status] in Hf. rewrite Hf, D1.
    eapply alloc_some; [exact Hinv4|done|congruence|congruence|lia|done|done| |].
    + intros b m Hba. by rewrite HC1.
    + intros b m x Hb Hba Hx. rewrite (K3 b m x) by (by rewrite ?HC1). by apply (K1 b m).
Qed.

(** ** Initialisation *)
Lemma reset_inv data size :
  0 < data → data mod 8 = 0 → size mod 8 = 0 → 32 ≤ size ≤ MICA_ALLOC_MAX_SIZE →
  data + size < 2 ^ 64 →
  let al := Alloc 0 size data (replicate 32 0) ∅ in
  ainv al {[data := (size, false)]} (λ _, []) {[data]}.
Proof.
  intros Hd Hd8 Hs8 Hs He al. constructor; simpl.
  - constructor; simpl; done || lia.
  - constructor.
    + intros a n f [<- [= <- _]]%lookup_singleton_Some. repeat split; auto; lia.
    + intros a b n f x [<- _]%lookup_singleton_Some [<- _]%lookup_singleton_Some. lia.
    + intros a n f [<- [= <- _]]%lookup_singleton_Some. by left.
    + intros a x [<- _]%lookup_singleton_Some. by left.
    + rewrite lookup_singleton_eq. by eexists.
  - intros x ->%elem_of_singleton. exists size. apply lookup_singleton_eq.
  - intros a n m f [_ [=]]%lookup_singleton_Some.
  - intros a n f [<- _]%lookup_singleton_Some. set_solver.
  - intros c Hc. apply (lookup_replicate 32 0). split; [done|lia].
  - intros c Hc. split; [done|constructor].
  - intros c a Hc. split; [intros Hin; by apply elem_of_nil in Hin|].
    by intros (n & [_ [=]]%lookup_singleton_Some & _).
Qed.

Lemma init_inv data size numa al :
  0 < data → data mod 8 = 0 → data + 2 ^ 40 < 2 ^ 64 → 0 ≤ size →
  mica_alloc_init data size numa = Ok al →
  ∃ fl n, ainv al {[data := (n, true)]} fl ∅ ∧ al_data al = data ∧ al_size al = n ∧
    size ≤ n < size + 2097152.
Proof.
  intros Hd Hd8 He Hs0 H. unfold mica_alloc_init in H. inv_res.
  rewrite !Z.leb_le in *. unfold MICA_ALLOC_MAX_SIZE in *.
  unfold MICA_ROUNDUP2M in *. change (Z.lnot 2097151) with (Z.lnot (2 ^ 21 - 1)) in *.
  rewrite u64_small, u64_land_lnot_mask in * by lia. change (2 ^ 21) with 2097152 in *.
  set (n := size + 2097151 - (size + 2097151) mod 2097152) in *.
  pose proof (Z.mod_pos_bound (size + 2097151) 2097152 ltac:(done)) as Hm.
  pose proof (Z.div_mod (size + 2097151) 2097152 ltac:(done)) as Hdm.
  assert (Hn : n = 2097152 * ((size + 2097151) / 2097152)) by lia.
  change (mica_alloc_insert_free_chunk (Alloc 0 n data (replicate 32 0) ∅) data n = Ok al) in H.
  assert (32 ≤ n).
  { destruct (decide (size = 0)) as [->|]; [|lia].
    exfalso. unfold mica_alloc_insert_free_chunk, mica_alloc_size_to_class_rounddown in H.
    by vm_compute in H. }
  destruct (insert_spec (Alloc 0 n data (replicate 32 0) ∅) {[data := (n, false)]} (λ _, []) {[data]} data n)
    as (al' & fl' & E & Hinv & D & S & _).
  - apply reset_inv; [done|done| |unfold MICA_ALLOC_MAX_SIZE; lia|lia].
    rewrite Hn. replace 2097152 with (262144 * 8) at 1 by lia.
    rewrite (Z.mul_comm (262144 * 8)), Z.mul_assoc. by apply Z.mod_mul.
  - apply lookup_singleton_eq.
  - set_solver.
  - split; [|intros b m [_ [=]]%lookup_singleton_Some].
    intros m f [E _]%lookup_singleton_Some. lia.
  - rewrite E in H. injection H as <-. exists fl', n.
    rewrite insert_singleton_eq in Hinv.
    replace ({[data]} ∖ {[data]}) with (∅ : gset Z) in Hinv by set_solver.
    split; [done|]. split; [done|]. split; [done|lia].
Qed.

(** ** Reachable allocator states

    [used] maps the offset of each item that is allocated to its size.  The
    owner of an item may write its words up to the rounded-up size.  These
    are the [item_size] field and the data without its last 1 to 8 bytes: the
    chunk has room for [item_size] bytes between its tags, and the field takes
    8 of them, so the last bytes of [data] are the trailing tag.  A program
    that writes them, as src/mica/alloc/test.c does, destroys the tag
    ([alloc_item_overwrites_tag]); no guarantee is left then. *)
Definition payload (s : Z) : Z := 8 * ((s + 7) / 8).

Inductive alloc_reach : mica_alloc → gmap Z Z → Prop :=
| ar_init data size numa al :
    0 < data → data mod 8 = 0 → data + 2 ^ 40 < 2 ^ 64 → 0 ≤ size →
    mica_alloc_init data size numa = Ok al → alloc_reach al ∅
| ar_alloc al used s al' off :
    alloc_reach al used → 8 < s < 2 ^ 32 → mica_alloc_allocate al s = Ok (al', off) →
    off ≠ MICA_ALLOC_INSUFFICIENT_SPACE → alloc_reach al' (<[off := s]> used)
| ar_fail al used s al' :
    alloc_reach al used → 8 < s < 2 ^ 32 →
    mica_alloc_allocate al s = Ok (al', MICA_ALLOC_INSUFFICIENT_SPACE) → alloc_reach al' used
| ar_free al used off s al' :
    alloc_reach al used → used !! off = Some s → mica_alloc_deallocate al off = Ok al' →
    alloc_reach al' (delete off used)
| ar_write al used off s x w al' :
    alloc_reach al used → used !! off = Some s →
    al_data al + off ≤ x → x + 8 ≤ al_data al + off + payload s →
    store64 al x w = Ok al' → alloc_reach al' used.

Definition agrees (al : mica_alloc) (C : layout) (used : gmap Z Z) : Prop :=
  (∀ a m, C !! a = Some (m, false) →
     ∃ s, used !! (a + 8 - al_data al) = Some s) ∧
  (∀ off s, used !! off = Some s →
     8 < s < 2 ^ 32 ∧ ∃ m, C !! (al_data al + off - 8) = Some (m, false) ∧ chunk_for s ≤ m).

Lemma offset_range al C fl a n f :
  ainv al C fl ∅ → C !! a = Some (n, f) →
  a + 8 - al_data al ≠ MICA_ALLOC_INSUFFICIENT_SPACE.
Proof.
  intros Hinv Ha. pose proof (chunk_bounds _ _ _ _ Hinv _ _ _ Ha).
  destruct (inv_geo _ _ _ _ Hinv). unfold MICA_ALLOC_MAX_SIZE in *.
  change MICA_ALLOC_INSUFFICIENT_SPACE with (2 ^ 64 - 1). lia.
Qed.

Lemma agrees_alloc al C used al' C' a n s :
  agrees al C used → al_data al' = al_data al → C' !! a = Some (n, false) →
  8 < s < 2 ^ 32 → chunk_for s ≤ n →
  (∀ m, C !! a ≠ Some (m, false)) →
  (∀ b m, b ≠ a → C' !! b = Some (m, false) ↔ C !! b = Some (m, false)) →
  agrees al' C' (<[a + 8 - al_data al := s]> used).
Proof.
  intros [H1 H2] D Ha Hs Hn Hnew Hother. split; rewrite D.
  - intros b m Hb. destruct (decide (b = a)) as [->|Hne]; [rewrite lookup_insert_eq; eauto|].
    apply Hother in Hb; [|done]. rewrite lookup_insert_ne by lia. by eapply H1.
  - intros off s' Ho. apply lookup_insert_Some in Ho as [[<- <-]|[Hne Ho]].
    + split; [done|]. exists n. split; [|done]. by replace (_ + _ - 8) with a by lia.
    + destruct (H2 _ _ Ho) as (Hs' & m & Hm & Hk). split; [done|]. exists m. split; [|done].
      apply Hother; [|done]. intros E. rewrite E in Hm. by apply Hnew in Hm.
Qed.

Lemma alloc_reach_inv al used :
  alloc_reach al used → ∃ C fl, ainv al C fl ∅ ∧ agrees al C used.
Proof.
  induction 1 as [data size numa al Hd Hd8 He Hs Hi
    |al used s al' off _ (C & fl & Hinv & Hag) Hs Ha Hoff
    |al used s al' _ (C & fl & Hinv & Hag) Hs Ha
    |al used off s al' _ (C & fl & Hinv & Hag) Ho Hf
    |al used off s x w al' _ (C & fl & Hinv & Hag) Ho Hx1 Hx2 Hst].
  - destruct (init_inv _ _ _ _ Hd Hd8 He Hs Hi) as (fl & n & Hinv & _).
    exists {[data := (n, true)]}, fl. split; [done|]. split; [|done].
    by intros a m [_ [=]]%lookup_singleton_Some.
  - pose proof (allocate_spec _ _ _ s Hinv Hs) as Hr. rewrite Ha in Hr.
    inversion Hr as [|al2 C' fl' a n Hinv' Ha' D S Hn _ Hnew Hother _|]; subst; [done|].
    exists C', fl'. split; [done|]. eapply agrees_alloc; eauto. lia.
  - pose proof (allocate_spec _ _ _ s Hinv Hs) as Hr. rewrite Ha in Hr.
    inversion Hr as [|al2 C' fl' a n Hinv' Ha' D S Hn _ Hnew Hother _ E|]; subst; [by eauto|].
    exfalso. apply (offset_range _ _ _ _ _ _ Hinv' Ha'). by rewrite D.
  - destruct Hag as [H1 H2]. destruct (H2 _ _ Ho) as (Hs & m & Hm & _).
    destruct (deallocate_spec _ _ _ _ _ Hinv Hm) as (al2 & C' & fl' & E & Hinv' & D & S & Hu & _).
    replace (al_data al + off - 8 + 8 - al_data al) with off in E by lia.
    rewrite E in Hf. injection Hf as <-. exists C', fl'. split; [done|]. split; rewrite D.
    + intros b k [Hb Hne]%Hu. rewrite lookup_delete_ne by lia. by eapply H1.
    + intros off' s' [Hne Ho']%lookup_delete_Some. destruct (H2 _ _ Ho') as (Hs' & k & Hk & Hck).
      split; [done|]. exists k. split; [|done]. apply Hu. split; [done|lia].
  - destruct Hag as [H1 H2]. destruct (H2 _ _ Ho) as (Hs & m & Hm & Hk).
    unfold store64 in Hst. inv_res. exists C, fl. split; [|done].
    pose proof (take_in_hand _ _ _ _ _ Hinv Hm) as Hh.
    unfold chunk_for, payload in *. pose proof (chunk_bounds _ _ _ _ Hinv _ _ _ Hm).
    eapply occupy_inv; [eapply hand_write_inv; [exact Hh|by apply elem_of_singleton|exact Hm|lia]|exact Hm|..];
      cbn [al_mem set_mem]; rewrite mread_insert_ne by lia;
      by apply (inv_tags _ _ _ _ Hinv _ _ _ Hm).
Qed.

(** ** The chunks in memory, from the tags *)
Definition tag_of (al : mica_alloc) (a : Z) : Z := mread (al_mem al) a.

Inductive chunk_at (al : mica_alloc) : Z → Prop :=
| chunk_first : chunk_at al (al_data al)
| chunk_next a :
    chunk_at al a → a + MICA_ALLOC_TAG_SIZE (tag_of al a) < al_data al + al_size al →
    chunk_at al (a + MICA_ALLOC_TAG_SIZE (tag_of al a)).

(** A chunk of [n] bytes that is not allocated. *)
Definition free_chunk (al : mica_alloc) (a n : Z) : Prop :=
  chunk_at al a ∧ MICA_ALLOC_TAG_STATUS (tag_of al a) = MICA_ALLOC_FREE ∧
  MICA_ALLOC_TAG_SIZE (tag_of al a) = n.

Lemma chunk_tag al C fl a n f : ainv al C fl ∅ → C !! a = Some (n, f) →
  MICA_ALLOC_TAG_SIZE (tag_of al a) = n ∧ MICA_ALLOC_TAG_STATUS (tag_of al a) = status f.
Proof.
  intros Hinv Ha. destruct (tag_at _ _ _ _ Hinv a n f Ha ltac:(set_solver)) as (_ & _ & H1 & H2).
  unfold tag_of. by rewrite (proj1 (inv_tags _ _ _ _ Hinv _ _ _ Ha ltac:(set_solver))).
Qed.

Lemma chunk_at_layout al C fl a : ainv al C fl ∅ → chunk_at al a ↔ is_Some (C !! a).
Proof.
  intros Hinv. pose proof (inv_lay _ _ _ _ Hinv) as Hlay. split.
  - induction 1 as [|a _ [[n f] IH] Hlt]; [apply (lay_base _ _ _ Hlay)|].
    destruct (chunk_tag _ _ _ _ _ _ Hinv IH) as [E _]. rewrite E in *.
    destruct (lay_next _ _ _ Hlay _ _ _ IH) as [?|?]; [lia|done].
  - intros [x Ha]. remember (Z.to_nat (a - al_data al)) as k eqn:Ek. revert a x Ha Ek.
    induction k as [k IH] using lt_wf_ind. intros a x Ha ->. destruct x as [n f].
    pose proof (chunk_bounds _ _ _ _ Hinv _ _ _ Ha).
    destruct (lay_prev _ _ _ Hlay _ _ Ha) as [->|(b & m & g & Hb & Eb)]; [constructor|].
    pose proof (chunk_bounds _ _ _ _ Hinv _ _ _ Hb).
    destruct (chunk_tag _ _ _ _ _ _ Hinv Hb) as [E _].
    rewrite <-Eb. replace (b + m) with (b + MICA_ALLOC_TAG_SIZE (tag_of al b)) by congruence.
    constructor; [|rewrite E; lia]. eapply (IH (Z.to_nat (b - al_data al))); [lia|exact Hb|done].
Qed.

Lemma free_chunk_layout al C fl a n : ainv al C fl ∅ → free_chunk al a n ↔ C !! a = Some (n, true).
Proof.
  intros Hinv. unfold free_chunk. rewrite (chunk_at_layout _ _ _ _ Hinv). split.
  - intros ([[m f] Ha] & Hst & Hsz). destruct (chunk_tag _ _ _ _ _ _ Hinv Ha) as [E1 E2].
    rewrite E1 in Hsz. rewrite E2 in Hst. subst m. by destruct f.
  - intros Ha. destruct (chunk_tag _ _ _ _ _ _ Hinv Ha) as [E1 E2]. by repeat split; [eexists| |].
Qed.

(** With nothing allocated there is one chunk. *)
Lemma lay_free_single al C fl :
  ainv al C fl ∅ → (∀ a m, C !! a ≠ Some (m, false)) →
  C !! al_data al = Some (al_size al, true) ∧
  ∀ a, a ≠ al_data al → C !! a = None.
Proof.
  intros Hinv Hno. pose proof (inv_lay _ _ _ _ Hinv) as Hlay.
  destruct (lay_base _ _ _ Hlay) as [[n [|]] Hb]; [|by apply Hno in Hb].
  pose proof (chunk_bounds _ _ _ _ Hinv _ _ _ Hb) as (_ & He & Hn & _).
  assert (Hend : al_data al + n = al_data al + al_size al).
  { destruct (lay_next _ _ _ Hlay _ _ _ Hb) as [?|[[m f] Hm]]; [done|].
    pose proof (inv_coal _ _ _ _ Hinv _ _ _ _ Hb Hm) as ->. by apply Hno in Hm. }
  assert (n = al_size al) as -> by lia. split; [done|].
  intros a Ha. destruct (C !! a) as [[m f]|] eqn:E; [|done]. exfalso.
  pose proof (chunk_bounds _ _ _ _ Hinv _ _ _ E).
  destruct (far_chunks _ _ _ _ Hinv _ _ _ _ _ _ Hb E ltac:(done)); lia.
Qed.

(** ** Examples *)
Definition demo_alloc : mica_alloc :=
  match mica_alloc_init 4096 1 0 with Ok al => al | Fault _ => Alloc 0 0 0 [] ∅ end.
Definition demo_alloc1 : mica_alloc * Z :=
  match mica_alloc_allocate demo_alloc 100 with Ok x => x | Fault _ => (demo_alloc, 0) end.
Definition demo_alloc2 : mica_alloc * Z :=
  match mica_alloc_allocate demo_alloc1.1 20 with Ok x => x | Fault _ => (demo_alloc, 0) end.

Lemma demo_alloc_reach : alloc_reach demo_alloc ∅.
Proof. eapply (ar_init 4096 1 0); by vm_compute. Qed.
Lemma demo_alloc1_reach : alloc_reach demo_alloc1.1 (<[demo_alloc1.2 := 100]> ∅).
Proof. eapply ar_alloc; [apply demo_alloc_reach|lia|by vm_compute|by vm_compute]. Qed.
Lemma demo_alloc2_reach :
  alloc_reach demo_alloc2.1 (<[demo_alloc2.2 := 20]> (<[demo_alloc1.2 := 100]> ∅)).
Proof. eapply ar_alloc; [apply demo_alloc1_reach|lia|by vm_compute|by vm_compute]. Qed.

(** ** Properties *)

(** C9: after any sequence of allocations, deallocations and writes of the
    owners to their items, each item with its two tags lies inside the
    reserved memory, two items are disjoint, tags included, and neither an
    allocation nor the deallocation of another item changes a word of an item.
    An item is here its [item_size] field and its data up to the rounded-up
    size; the last 1 to 8 bytes of data are not part of it, they lie on the
    trailing tag, and owners do not write them.  (The library's [test.c] does
    write them; what becomes of the tag then is shown by a theorem below and
    is not covered here.) *)
Theorem alloc_items_disjoint (al : mica_alloc) (used : gmap Z Z) (off1 s1 : Z) :
  alloc_reach al used → used !! off1 = Some s1 →
  let same al' := ∀ x, al_data al + off1 ≤ x < al_data al + off1 + payload s1 →
    mread (al_mem al') x = mread (al_mem al) x in
  8 ≤ off1 ∧ off1 + payload s1 + 8 ≤ al_size al ∧
  (∀ off2 s2, used !! off2 = Some s2 → off1 ≠ off2 →
     off1 + payload s1 + 16 ≤ off2 ∨ off2 + payload s2 + 16 ≤ off1) ∧
  (∀ s al' off, 8 < s < 2 ^ 32 → mica_alloc_allocate al s = Ok (al', off) → same al') ∧
  (∀ off2 s2 al', used !! off2 = Some s2 → off1 ≠ off2 → mica_alloc_deallocate al off2 = Ok al' → same al').
Proof.
  intros (C & fl & Hinv & _ & H2)%alloc_reach_inv Ho1. cbv zeta. destruct (H2 _ _ Ho1) as (_ & m1 & Hm1 & Hk1).
  pose proof (chunk_bounds _ _ _ _ Hinv _ _ _ Hm1). unfold chunk_for, payload in *.
  split; [lia|]. split; [lia|]. split; [|split].
  - intros off2 s2 Ho2 Hne. destruct (H2 _ _ Ho2) as (_ & m2 & Hm2 & Hk2). unfold chunk_for in *.
    destruct (far_chunks _ _ _ _ Hinv _ _ _ _ _ _ Hm1 Hm2 ltac:(lia)); lia.
  - intros s al' off Hs E x Hx. pose proof (allocate_spec _ _ _ s Hinv Hs) as Hr. rewrite E in Hr.
    inversion Hr as [|al2 C' fl' a n _ _ _ _ _ _ Hnew _ Hkept|]; subst; [done|].
    apply (Hkept _ _ _ Hm1); [|lia]. intros <-. by apply Hnew in Hm1.
  - intros off2 s2 al' Ho2 Hne E x Hx. destruct (H2 _ _ Ho2) as (_ & m2 & Hm2 & _).
    destruct (deallocate_spec _ _ _ _ _ Hinv Hm2) as (al2 & C' & fl' & E2 & _ & _ & _ & _ & Hkept).
    replace (al_data al + off2 - 8 + 8 - al_data al) with off2 in E2 by lia. rewrite E in E2. injection E2 as <-.
    apply (Hkept _ _ _ Hm1); lia.
Qed.

Lemma alloc_items_disjoint_witness :
  8 + payload 100 + 8 ≤ al_size demo_alloc2.1 ∧
  (8 + payload 100 + 16 ≤ 128 ∨ 128 + payload 20 + 16 ≤ 8) ∧
  ∃ al', mica_alloc_deallocate demo_alloc2.1 128 = Ok al' ∧ mread (al_mem al') 4104 = 100.
Proof.
  destruct (alloc_items_disjoint demo_alloc2.1 _ 8 100 demo_alloc2_reach) as (_ & H1 & H2 & _ & H3); [by vm_compute|].
  split; [exact H1|]. split; [apply H2; by vm_compute|].
  destruct (mica_alloc_deallocate demo_alloc2.1 128) as [al'|] eqn:E; [|by vm_compute in E].
  exists al'. split; [reflexivity|]. transitivity (mread (al_mem demo_alloc2.1) 4104); [|by vm_compute].
  refine (H3 128 20 al' _ _ E 4104 _).
  - vm_compute. reflexivity.
  - discriminate.
  - split; vm_compute; [discriminate|reflexivity].
Defined.

(** C32: an allocation in a reachable state either reports that there is no
    space, then every free chunk of the memory is smaller than the chunk that
    the request needs (the item rounded up to 8 bytes, plus 16) and the state
    is unchanged; or returns the offset of a new item and stores the item's
    size there; or fails the assertion on the chunk size, which happens only
    for requests of more than 264 bytes and only if there is a free chunk of
    280 bytes or more that is too small. *)
Theorem alloc_outcomes (al : mica_alloc) (used : gmap Z Z) (s : Z) :
  alloc_reach al used → 8 < s < 2 ^ 32 →
  (mica_alloc_allocate al s = Ok (al, MICA_ALLOC_INSUFFICIENT_SPACE) ∧
     ∀ a n, free_chunk al a n → n < payload s + 16) ∨
  (∃ al' off, mica_alloc_allocate al s = Ok (al', off) ∧ used !! off = None ∧
     alloc_reach al' (<[off := s]> used) ∧ mread (al_mem al') (al_data al + off) = s) ∨
  (mica_alloc_allocate al s = Fault AssertFail ∧ 264 < s ∧
     ∃ a n, free_chunk al a n ∧ 280 ≤ n < payload s + 16).
Proof.
  intros Hr Hs. destruct (alloc_reach_inv _ _ Hr) as (C & fl & Hinv & _ & H2).
  destruct (chunk_for_bounds s Hs) as (_ & Hk & Hk8 & _).
  destruct (mica_alloc_allocate al s) as [[al' off]|f] eqn:E;
    pose proof (allocate_spec _ _ _ s Hinv Hs) as Hres; rewrite E in Hres;
    inversion Hres as [Hnone|al2 C' fl' a n Hinv' Ha' D S Hn Hitem Hnew Hother _|b m Hbig Hb Hm]; subst.
  - left. split; [done|]. intros a n Ha. apply (free_chunk_layout _ _ _ _ _ Hinv) in Ha. exact (Hnone _ _ Ha).
  - right. left. exists al', (a + 8 - al_data al). split; [done|]. split; [|split].
    + destruct (used !! _) as [s'|] eqn:Eu; [|done]. exfalso.
      destruct (H2 _ _ Eu) as (_ & m & Hm & _). replace (_ + _ - 8) with a in Hm by lia.
      by apply Hnew in Hm.
    + eapply ar_alloc; eauto. rewrite <-D. by eapply offset_range.
    + by replace (al_data al + (a + 8 - al_data al)) with (a + 8) by lia.
  - right. right. split; [done|]. split.
    + unfold chunk_for in *. pose proof (Z.div_mod (s + 7) 8 ltac:(done)).
      pose proof (Z.mod_pos_bound (s + 7) 8 ltac:(done)). lia.
    + exists b, m. split; [by apply (free_chunk_layout _ _ _ _ _ Hinv)|exact Hm].
Qed.

(** There is room for 50 bytes, and none for 2 MB. *)
Definition demo_room : bool :=
  match mica_alloc_allocate demo_alloc2.1 50 with Ok (_, off) => negb (off =? MICA_ALLOC_INSUFFICIENT_SPACE) | _ => false end.
Lemma demo_has_room : demo_room = true.
Proof. vm_compute. reflexivity. Qed.
Lemma demo_no_room : mica_alloc_allocate demo_alloc2.1 2097152 = Fault AssertFail.
Proof. vm_compute. reflexivity. Qed.

Lemma alloc_outcomes_witness :
  (∃ al' off, mica_alloc_allocate demo_alloc2.1 50 = Ok (al', off) ∧ mread (al_mem al') (al_data demo_alloc2.1 + off) = 50) ∧
  ∃ a n, free_chunk demo_alloc2.1 a n ∧ 280 ≤ n < payload 2097152 + 16.
Proof.
  split.
  - pose proof demo_has_room as Hroom. unfold demo_room in Hroom.
    destruct (alloc_outcomes demo_alloc2.1 _ 50 demo_alloc2_reach) as [[E _]|[(al' & off & E & _ & _ & H)|[_ [H _]]]].
    + split; reflexivity.
    + rewrite E in Hroom. discriminate Hroom.
    + exists al', off. split; assumption.
    + discriminate H.
  - pose proof demo_no_room as Hno.
    destruct (alloc_outcomes demo_alloc2.1 _ 2097152 demo_alloc2_reach) as [[E _]|[(al' & off & E & _)|(_ & _ & H)]].
    + split; reflexivity.
    + rewrite E in Hno. discriminate Hno.
    + rewrite E in Hno. discriminate Hno.
    + exact H.
Defined.

(** Deallocation of an allocated item always succeeds (every assertion
    on tags and list links holds) and leaves a reachable state in which
    only that item is gone. *)
Theorem dealloc_total (al : mica_alloc) (used : gmap Z Z) (off s : Z) :
  alloc_reach al used → used !! off = Some s →
  ∃ al', mica_alloc_deallocate al off = Ok al' ∧ alloc_reach al' (delete off used).
Proof.
  intros Hr Ho. destruct (alloc_reach_inv _ _ Hr) as (C & fl & Hinv & _ & H2).
  destruct (H2 _ _ Ho) as (_ & m & Hm & _).
  destruct (deallocate_spec _ _ _ _ _ Hinv Hm) as (al' & C' & fl' & E & _).
  replace (al_data al + off - 8 + 8 - al_data al) with off in E by lia.
  exists al'. split; [done|]. by eapply ar_free.
Qed.

Lemma dealloc_total_witness :
  ∃ al', mica_alloc_deallocate demo_alloc2.1 8 = Ok al' ∧
    alloc_reach al' (delete 8 (<[demo_alloc2.2 := 20]> (<[demo_alloc1.2 := 100]> ∅))).
Proof. apply (dealloc_total demo_alloc2.1 _ 8 100 demo_alloc2_reach). by vm_compute. Defined.

(** Coalescing is complete: when every item has been freed, in whatever
    order, the whole memory is one free chunk again (tags at both ends, the
    only chunk of the last free list, all other lists empty). *)
Theorem alloc_all_freed (al : mica_alloc) :
  alloc_reach al ∅ →
  mread (al_mem al) (al_data al) = al_size al ∧
  mread (al_mem al) (al_data al + al_size al - 8) = al_size al ∧
  (∀ c h, al_free_head al !! c = Some h →
     h = if decide (Z.of_nat c = cls (al_size al)) then al_data al else 0).
Proof.
  intros (C & fl & Hinv & H1 & _)%alloc_reach_inv.
  assert (Hno : ∀ a m, C !! a ≠ Some (m, false)) by (intros a m Ha; by destruct (H1 a m Ha)).
  destruct (lay_free_single _ _ _ Hinv Hno) as [Hb Hother].
  pose proof (chunk_bounds _ _ _ _ Hinv _ _ _ Hb) as (_ & _ & Hn & _). unfold MICA_ALLOC_MAX_SIZE in Hn.
  destruct (inv_tags _ _ _ _ Hinv _ _ _ Hb ltac:(set_solver)) as [T1 T2].
  assert (Htag : tagw (al_size al) true = al_size al)
    by (unfold tagw, MICA_ALLOC_TAG_VEC; simpl; apply Z.lor_0_r).
  split; [congruence|]. split; [congruence|]. intros c h Hh.
  pose proof (lookup_lt_Some _ _ _ Hh) as Hc. rewrite (geo_heads _ (inv_geo _ _ _ _ Hinv)) in Hc.
  pose proof (inv_head _ _ _ _ Hinv (Z.of_nat c) ltac:(lia)) as Hhd. rewrite Nat2Z.id, Hh in Hhd.
  injection Hhd as ->. pose proof (inv_mem _ _ _ _ Hinv (Z.of_nat c)) as Hm.
  destruct (fl (Z.of_nat c)) as [|d l] eqn:E; simpl.
  - case_decide as Ecls; [|done]. exfalso.
    assert (Hin : al_data al ∈ ([] : list Z)) by (apply Hm; [lia|eauto]). by apply elem_of_nil in Hin.
  - destruct (proj1 (Hm d ltac:(lia)) ltac:(left)) as (n & Hd & Ecls).
    destruct (decide (d = al_data al)) as [->|Hne]; [|by rewrite Hother in Hd].
    simplify_eq. by rewrite decide_True.
Qed.

Lemma alloc_all_freed_witness :
  mread (al_mem demo_alloc) (al_data demo_alloc) = al_size demo_alloc ∧
  mread (al_mem demo_alloc) (al_data demo_alloc + al_size demo_alloc - 8) = al_size demo_alloc ∧
  (∀ c h, al_free_head demo_alloc !! c = Some h →
     h = if decide (Z.of_nat c = cls (al_size demo_alloc)) then al_data demo_alloc else 0).
Proof. exact (alloc_all_freed demo_alloc demo_alloc_reach). Defined.

(** The last free list is not searched: it holds all chunks from 280
    bytes on, but only its head is tried, so a request for 288 bytes stops
    the program with a failed assertion when a 280-byte chunk is at the
    head, although more than a megabyte is free. *)
Theorem alloc_last_class_assert :
  (let! al := mica_alloc_init 4096 2097152 0 in
   let! (al, o1) := mica_alloc_allocate al 264 in
   let! (al, o2) := mica_alloc_allocate al 264 in
   let! (al, o3) := mica_alloc_allocate al 264 in
   let! al := mica_alloc_deallocate al o2 in
   Ok (mica_alloc_allocate al 272, mread (al_mem al) (4096 + 840)))
  = Ok (Fault AssertFail, 2097152 - 840).
Proof. vm_compute. reflexivity. Qed.

(** The 8-byte [item_size] header is not part of [MICA_ALLOC_OVERHEAD],
    so the last 8 data bytes of an item whose size is a multiple of 8 are
    the chunk's trailing tag: filling the first of two 16-byte items, as
    the allocator's own test does, makes the deallocation of the second
    one follow a forged tag out of the reserved memory. *)
Theorem alloc_item_overwrites_tag :
  (let! al := mica_alloc_init 4096 2097152 0 in
   let! (al, o1) := mica_alloc_allocate al 16 in
   let! (al, o2) := mica_alloc_allocate al 16 in
   let fill := 72340172838076673 in
   let! al := store64 al (4096 + o1 + 8) fill in
   let! al := store64 al (4096 + o1 + 16) fill in
   Ok (mica_alloc_deallocate al o2))
  = Ok (Fault OutOfBounds).
Proof. vm_compute. reflexivity. Qed.
