(* ===== verification/Verbs.v ===== *)
(** * The libraries that libhrd calls

    libibverbs, System V shared memory and libmemcached are not part of the
    repository: their functions are the fields of the classes [Verbs], [Shm]
    and [Memc] over a world [W], and what the code relies on is stated in
    [VerbsLaws], [ShmLaws] and [MemcLaws].  Pointers and handles are
    integers, NULL is 0.  [SimWorld] is a small device, memory and registry
    that satisfies the laws. *)

From stdpp Require Import base gmap list strings numbers.
From Stdlib Require Import ZArith Lia.
From S2P Require Import Prelude.

(** ** Constants of infiniband/verbs.h *)
Definition IBV_PORT_ACTIVE : Z := 4.
Definition IBV_PORT_ACTIVE_DEFER : Z := 5.
Definition IBV_QPT_RC : Z := 2.
Definition IBV_QPT_UC : Z := 3.
Definition IBV_QPT_UD : Z := 4.
Definition IBV_QPS_RESET : Z := 0.
Definition IBV_QPS_INIT : Z := 1.
Definition IBV_QPS_RTR : Z := 2.
Definition IBV_QPS_RTS : Z := 3.
Definition IBV_MTU_1024 : Z := 3.
Definition IBV_ACCESS_LOCAL_WRITE : Z := 1.
Definition IBV_ACCESS_REMOTE_WRITE : Z := 2.
Definition IBV_ACCESS_REMOTE_READ : Z := 4.
Definition IBV_ACCESS_REMOTE_ATOMIC : Z := 8.
Definition IBV_QP_STATE : Z := 2 ^ 0.
Definition IBV_QP_ACCESS_FLAGS : Z := 2 ^ 3.
Definition IBV_QP_PKEY_INDEX : Z := 2 ^ 4.
Definition IBV_QP_PORT : Z := 2 ^ 5.
Definition IBV_QP_QKEY : Z := 2 ^ 6.
Definition IBV_QP_AV : Z := 2 ^ 7.
Definition IBV_QP_PATH_MTU : Z := 2 ^ 8.
Definition IBV_QP_TIMEOUT : Z := 2 ^ 9.
Definition IBV_QP_RETRY_CNT : Z := 2 ^ 10.
Definition IBV_QP_RNR_RETRY : Z := 2 ^ 11.
Definition IBV_QP_RQ_PSN : Z := 2 ^ 12.
Definition IBV_QP_MAX_QP_RD_ATOMIC : Z := 2 ^ 13.
Definition IBV_QP_MIN_RNR_TIMER : Z := 2 ^ 15.
Definition IBV_QP_SQ_PSN : Z := 2 ^ 16.
Definition IBV_QP_MAX_DEST_RD_ATOMIC : Z := 2 ^ 17.
Definition IBV_QP_DEST_QPN : Z := 2 ^ 20.

(** ** Structures *)
Record port_attr : Type := PortAttr { pa_phys_state : Z; pa_lid : Z }.

Record qp_init_attr : Type := QpInitAttr
  { ia_send_cq : Z; ia_recv_cq : Z; ia_qp_type : Z; ia_max_send_wr : Z;
    ia_max_recv_wr : Z; ia_max_send_sge : Z; ia_max_recv_sge : Z; ia_max_inline_data : Z }.

Record qp_attr : Type := QpAttr
  { qa_state : Z; qa_pkey_index : Z; qa_port_num : Z; qa_qkey : Z; qa_access_flags : Z;
    qa_path_mtu : Z; qa_dest_qp_num : Z; qa_rq_psn : Z; qa_dlid : Z; qa_ah_port_num : Z;
    qa_sq_psn : Z; qa_max_dest_rd_atomic : Z; qa_min_rnr_timer : Z; qa_timeout : Z;
    qa_retry_cnt : Z; qa_rnr_retry : Z; qa_max_rd_atomic : Z }.
(** After [memset]. *)
Definition qp_attr0 : qp_attr := QpAttr 0 0 0 0 0 0 0 0 0 0 0 0 0 0 0 0 0.

Record wc : Type := Wc { wc_wr_id : Z; wc_status : Z; wc_imm_data : Z; wc_slid : Z }.

(** ** libibverbs *)
Class Verbs (W : Type) : Type := {
  ibv_get_device_list : eff W (option (list Z));
  ibv_open_device : Z → eff W Z;
  ibv_query_device : Z → eff W (Z * Z);
  ibv_query_port : Z → Z → eff W (Z * port_attr);
  ibv_close_device : Z → eff W Z;
  ibv_alloc_pd : Z → eff W Z;
  ibv_dealloc_pd : Z → eff W Z;
  ibv_create_cq : Z → Z → eff W Z;
  ibv_destroy_cq : Z → eff W Z;
  ibv_create_qp : Z → qp_init_attr → eff W Z;
  ibv_destroy_qp : Z → eff W Z;
  ibv_modify_qp : Z → qp_attr → Z → eff W Z;
  ibv_reg_mr : Z → Z → Z → Z → eff W Z;
  ibv_dereg_mr : Z → eff W Z;
  ibv_qp_num : Z → eff W Z;
  ibv_mr_rkey : Z → eff W Z;
  (** [ibv_poll_cq cq n]: the return value and the completions it wrote. *)
  ibv_poll_cq : Z → Z → eff W (Z * list wc)
}.

(** The attributes that [ibv_modify_qp] requires for a transition, from the
    table of its manual page. *)
Definition required_mask (ty st st' : Z) : option Z :=
  if (st =? IBV_QPS_RESET) && (st' =? IBV_QPS_INIT) then
    if ty =? IBV_QPT_UD
    then Some (IBV_QP_STATE .| IBV_QP_PKEY_INDEX .| IBV_QP_PORT .| IBV_QP_QKEY)
    else Some (IBV_QP_STATE .| IBV_QP_PKEY_INDEX .| IBV_QP_PORT .| IBV_QP_ACCESS_FLAGS)
  else if (st =? IBV_QPS_INIT) && (st' =? IBV_QPS_RTR) then
    if ty =? IBV_QPT_UD then Some IBV_QP_STATE
    else if ty =? IBV_QPT_UC
    then Some (IBV_QP_STATE .| IBV_QP_AV .| IBV_QP_PATH_MTU .| IBV_QP_DEST_QPN .| IBV_QP_RQ_PSN)
    else Some (IBV_QP_STATE .| IBV_QP_AV .| IBV_QP_PATH_MTU .| IBV_QP_DEST_QPN .| IBV_QP_RQ_PSN
                .| IBV_QP_MAX_DEST_RD_ATOMIC .| IBV_QP_MIN_RNR_TIMER)
  else if (st =? IBV_QPS_RTR) && (st' =? IBV_QPS_RTS) then
    if (ty =? IBV_QPT_UD) || (ty =? IBV_QPT_UC) then Some (IBV_QP_STATE .| IBV_QP_SQ_PSN)
    else Some (IBV_QP_STATE .| IBV_QP_SQ_PSN .| IBV_QP_TIMEOUT .| IBV_QP_RETRY_CNT
                .| IBV_QP_RNR_RETRY .| IBV_QP_MAX_QP_RD_ATOMIC)
  else None.

(** A queue pair: its type, its state, and the address it was connected to
    (destination queue pair number and LID). *)
Record qp_info : Type := QpInfo { qi_type : Z; qi_state : Z; qi_dest : Z * Z }.

Definition qi_move (i : qp_info) (a : qp_attr) : qp_info :=
  QpInfo (qi_type i) (qa_state a)
    (if qa_state a =? IBV_QPS_RTR then (qa_dest_qp_num a, qa_dlid a) else qi_dest i).

(** What the programs rely on.  [law_create_qp] holds of libmlx5 as modified
    for this repository with [qp_limit] 128 as long as no queue pair of the
    process has been destroyed, which is so during the start of the programs:
    [create_qp] (verbs.c) gives each queue pair an index below
    [MLX5_HRD_MAX_QPS] and never takes it back.  Completion queues, memory
    regions and protection domains are assumed to be available: a program
    whose creation call fails stops at the assertion behind it. *)
Class VerbsLaws (W : Type) `{Verbs W} : Type := {
  (** the devices of the machine and their ports, which do not change *)
  devs : list Z;
  dev_ports : Z → list port_attr;
  ctx_of : Z → Z;
  (** the queue pairs that exist, of which there can be [qp_limit], and the
      completions that wait in a queue *)
  qps : W → gmap Z qp_info;
  qp_limit : nat;
  pending : W → Z → list wc;
  law_list : ∀ w, runs ibv_get_device_list w (λ r w', r = Some devs ∧ qps w' = qps w);
  law_open : ∀ w d, d ∈ devs → ctx_of d ≠ 0 ∧
    runs (ibv_open_device d) w (λ r w', r = ctx_of d ∧ qps w' = qps w);
  law_query_device : ∀ w d, d ∈ devs →
    runs (ibv_query_device (ctx_of d)) w
      (λ r w', r = (0, Z.of_nat (length (dev_ports d))) ∧ qps w' = qps w);
  law_query_port : ∀ w d i p, d ∈ devs → dev_ports d !! i = Some p →
    runs (ibv_query_port (ctx_of d) (Z.of_nat i + 1)) w (λ r w', r = (0, p) ∧ qps w' = qps w);
  law_close : ∀ w d, d ∈ devs →
    runs (ibv_close_device (ctx_of d)) w (λ r w', r = 0 ∧ qps w' = qps w);
  law_create_cq : ∀ w ctx n, runs (ibv_create_cq ctx n) w (λ r w', r ≠ 0 ∧ qps w' = qps w);
  law_create_qp : ∀ w pd a, (size (qps w) < qp_limit)%nat →
    runs (ibv_create_qp pd a) w (λ q w', q ≠ 0 ∧ qps w !! q = None ∧
      qps w' = <[q := QpInfo (ia_qp_type a) IBV_QPS_RESET (0, 0)]> (qps w));
  law_modify : ∀ w q i a flags mask, qps w !! q = Some i →
    required_mask (qi_type i) (qi_state i) (qa_state a) = Some mask →
    flags .& mask = mask →
    runs (ibv_modify_qp q a flags) w (λ r w', r = 0 ∧ qps w' = <[q := qi_move i a]> (qps w));
  law_poll : ∀ w cq n, 0 < n →
    runs (ibv_poll_cq cq n) w (λ r w', ∃ k, r = (Z.of_nat k, take k (pending w cq)) ∧
      (k ≤ length (pending w cq))%nat ∧ Z.of_nat k ≤ n ∧
      (pending w cq ≠ [] → (0 < k)%nat) ∧
      pending w' cq = drop k (pending w cq) ∧ qps w' = qps w)
}.

(** The calls of the data path whose value is used. *)
Class DataVerbs (W : Type) : Type := {
  (** [ibv_create_ah pd dlid port_num] *)
  ibv_create_ah : Z → Z → Z → eff W Z;
  (** [ibv_post_recv qp addr length lkey] *)
  ibv_post_recv : Z → Z → Z → Z → eff W Z;
  ibv_mr_lkey : Z → eff W Z
}.

(** ** Shared memory, NUMA and heap *)
Class Shm (W : Type) : Type := {
  shmget : Z → Z → eff W Z;
  shmat : Z → eff W Z;
  mbind : Z → Z → Z → eff W Z;
  shmctl_rmid : Z → eff W Z;
  shmdt : Z → eff W Z;
  memalign : Z → Z → eff W Z;
  memset0 : Z → Z → eff W unit;
  free : Z → eff W unit
}.

(** ** libmemcached *)
Definition MEMCACHED_SUCCESS : Z := 0.
Definition MEMCACHED_NOTFOUND : Z := 16.

Class Memc (W : Type) : Type := {
  memcached_set : string → list Z → eff W Z;
  memcached_get : string → eff W (Z * option (list Z))
}.

Class MemcLaws (W : Type) `{Memc W} : Type := {
  registry : W → gmap string (list Z);
  law_set : ∀ w k v,
    runs (memcached_set k v) w (λ r w', r = MEMCACHED_SUCCESS ∧ registry w' = <[k := v]> (registry w));
  law_get : ∀ w k,
    runs (memcached_get k) w (λ r w', registry w' = registry w ∧
      r = match registry w !! k with
          | Some v => (MEMCACHED_SUCCESS, Some v)
          | None => (MEMCACHED_NOTFOUND, None)
          end)
}.

(** ** A simulated machine *)
Record SimWorld : Type := Sim
  { sim_next : Z; sim_qps : gmap Z qp_info; sim_cqs : gmap Z (list wc);
    sim_reg : gmap string (list Z); sim_room : gmap Z Z }.

Definition sim0 : SimWorld := Sim 1 ∅ ∅ ∅ ∅.

Definition sim_devs : list Z := [1; 2].
Definition sim_ports (d : Z) : list port_attr :=
  if d =? 1 then [PortAttr 2 7; PortAttr 5 8] else [PortAttr 5 9].

(** As many queue pairs as libmlx5 gives out ([MLX5_HRD_MAX_QPS]). *)
Definition sim_limit : nat := 128.

(** A fresh handle: larger than all queue pairs.  [sim_room] holds the free
    entries of the receive queues. *)
Definition sim_fresh (w : SimWorld) : Z :=
  1 + set_fold Z.max (Z.max 0 (sim_next w)) (dom (sim_qps w) ∪ dom (sim_room w)).

Definition sim_set_qps (w : SimWorld) (m : gmap Z qp_info) : SimWorld :=
  Sim (sim_next w) m (sim_cqs w) (sim_reg w) (sim_room w).

Definition sim_modify (q : Z) (a : qp_attr) (flags : Z) : eff SimWorld Z := λ w,
  match sim_qps w !! q with
  | Some i =>
      match required_mask (qi_type i) (qi_state i) (qa_state a) with
      | Some mask =>
          if flags .& mask =? mask
          then Ok (0, sim_set_qps w (<[q := qi_move i a]> (sim_qps w))) else Ok (22, w)
      | None => Ok (22, w)
      end
  | None => Ok (22, w)
  end.

Definition sim_poll (cq n : Z) : eff SimWorld (Z * list wc) := λ w,
  let l := default [] (sim_cqs w !! cq) in
  let k := Nat.min (Z.to_nat n) (length l) in
  Ok ((Z.of_nat k, take k l),
      Sim (sim_next w) (sim_qps w) (<[cq := drop k l]> (sim_cqs w)) (sim_reg w) (sim_room w)).

#[export] Instance sim_verbs : Verbs SimWorld := {|
  ibv_get_device_list := eff_ret (Some sim_devs);
  ibv_open_device := λ d, eff_ret (d + 100);
  ibv_query_device := λ c, eff_ret (0, Z.of_nat (length (sim_ports (c - 100))));
  ibv_query_port := λ c i,
    eff_ret (match sim_ports (c - 100) !! Z.to_nat (i - 1) with
             | Some p => (0, p) | None => (22, PortAttr 0 0) end);
  ibv_close_device := λ _, eff_ret 0;
  ibv_alloc_pd := λ _, eff_ret 1;
  ibv_dealloc_pd := λ _, eff_ret 0;
  ibv_create_cq := λ _ _, eff_ret 1;
  ibv_destroy_cq := λ _, eff_ret 0;
  ibv_create_qp := λ _ a w,
    if decide (size (sim_qps w) < sim_limit)%nat
    then Ok (sim_fresh w,
             Sim (sim_next w) (<[sim_fresh w := QpInfo (ia_qp_type a) IBV_QPS_RESET (0, 0)]> (sim_qps w))
               (sim_cqs w) (sim_reg w) (<[sim_fresh w := ia_max_recv_wr a]> (sim_room w)))
    else Ok (0, w);
  ibv_destroy_qp := λ q w, Ok (0, sim_set_qps w (delete q (sim_qps w)));
  ibv_modify_qp := sim_modify;
  ibv_reg_mr := λ _ _ _ _, eff_ret 1;
  ibv_dereg_mr := λ _, eff_ret 0;
  ibv_qp_num := λ q, eff_ret (q mod 2 ^ 24);
  ibv_mr_rkey := λ m, eff_ret (u32 m);
  ibv_poll_cq := sim_poll
|}.

(** The free entries of the receive queues go down to 0. *)
#[export] Instance sim_data : DataVerbs SimWorld := {|
  ibv_create_ah := λ _ _ _, eff_ret 1;
  ibv_post_recv := λ q _ _ _ w,
    match sim_room w !! q with
    | Some n =>
        if 0 <? n
        then Ok (0, Sim (sim_next w) (sim_qps w) (sim_cqs w) (sim_reg w) (<[q := n - 1]> (sim_room w)))
        else Ok (12, w)
    | None => Ok (22, w)
    end;
  ibv_mr_lkey := λ m, eff_ret (u32 m)
|}.

#[export] Instance sim_memc : Memc SimWorld := {|
  memcached_set := λ k v w,
    Ok (MEMCACHED_SUCCESS,
        Sim (sim_next w) (sim_qps w) (sim_cqs w) (<[k := v]> (sim_reg w)) (sim_room w));
  memcached_get := λ k w,
    Ok (match sim_reg w !! k with
        | Some v => (MEMCACHED_SUCCESS, Some v)
        | None => (MEMCACHED_NOTFOUND, None)
        end, w)
|}.

#[export] Instance sim_shm : Shm SimWorld := {|
  shmget := λ k _, eff_ret k;
  shmat := λ i, eff_ret (4096 * (1 + i mod 2 ^ 20));
  mbind := λ _ _ _, eff_ret 0;
  shmctl_rmid := λ _, eff_ret 0;
  shmdt := λ _, eff_ret 0;
  memalign := λ _ _, eff_ret 4096;
  memset0 := λ _ _, eff_ret tt;
  free := λ _, eff_ret tt
|}.

Lemma max_fold_ge (s : gset Z) b x : x ∈ s ∨ x ≤ b → x ≤ set_fold Z.max b s.
Proof.
  apply (set_fold_ind_L (λ r s, x ∈ s ∨ x ≤ b → x ≤ r)); [set_solver by lia|].
  intros y X r Hy IH Hx. destruct (decide (x = y)) as [->|Hne]; [lia|].
  assert (x ≤ r) by (apply IH; set_solver). lia.
Qed.

Lemma sim_fresh_spec w : 0 < sim_fresh w ∧ sim_qps w !! sim_fresh w = None ∧ sim_room w !! sim_fresh w = None.
Proof.
  assert (Hge := max_fold_ge (dom (sim_qps w) ∪ dom (sim_room w)) (Z.max 0 (sim_next w))). unfold sim_fresh.
  split; [pose proof (Hge 0 ltac:(right; lia)); lia|].
  split; apply not_elem_of_dom; intros E;
    [pose proof (Hge _ (or_introl (elem_of_union_l _ _ _ E)))|pose proof (Hge _ (or_introl (elem_of_union_r _ _ _ E)))]; lia.
Qed.

#[export] Program Instance sim_memc_laws : MemcLaws SimWorld := {| registry := sim_reg |}.
Next Obligation. intros w k v. by eexists _, _. Qed.
Next Obligation. intros w k. by eexists _, _. Qed.

#[export] Program Instance sim_laws : VerbsLaws SimWorld := {|
  devs := sim_devs; dev_ports := sim_ports; ctx_of := λ d, d + 100;
  qps := sim_qps; qp_limit := sim_limit; pending := λ w cq, default [] (sim_cqs w !! cq)
|}.
Next Obligation. intros w. by eexists _, _. Qed.
Next Obligation.
  intros w d Hd. split; [|by eexists _, _].
  unfold sim_devs in Hd. rewrite !elem_of_cons, elem_of_nil in Hd. lia.
Qed.
Next Obligation.
  intros w d Hd. eexists _, _. split; [reflexivity|]. by replace (d + 100 - 100) with d by lia.
Qed.
Next Obligation.
  intros w d i p Hd Hp. eexists _, _. split; [reflexivity|].
  replace (d + 100 - 100) with d by lia.
  replace (Z.to_nat (Z.of_nat i + 1 - 1)) with i by lia. by rewrite Hp.
Qed.
Next Obligation. intros w d Hd. by eexists _, _. Qed.
Next Obligation. intros w ctx n. by eexists _, _. Qed.
Next Obligation.
  intros w pd a Hl. destruct (sim_fresh_spec w) as (? & ? & ?). unfold runs. cbn [ibv_create_qp sim_verbs].
  rewrite decide_True by done. eexists _, _. split; [reflexivity|]. split; [lia|]. done.
Qed.
Next Obligation.
  intros w q i a flags mask Hq Hm Hf. simpl. unfold runs, sim_modify. rewrite Hq, Hm, Hf, Z.eqb_refl.
  by eexists _, _.
Qed.
Next Obligation.
  intros w cq n Hn. eexists _, _. split; [reflexivity|].
  set (l := default [] (sim_cqs w !! cq)). exists (Nat.min (Z.to_nat n) (length l)).
  split; [done|]. split; [lia|]. split; [lia|]. split.
  - intros Hne. destruct l; [done|simpl; lia].
  - split; [|done]. simpl. rewrite lookup_insert_eq. done.
Qed.

(** ** The whole environment of libhrd

    What initialisation and teardown of a control block rely on beyond the
    queue pairs: the other resources (domains, memory, memory regions) are
    available, numbers have the width of their types, and the libraries do not
    touch each other's state. *)
Class HrdLaws (W : Type) `{VerbsLaws W, MemcLaws W, Shm W} : Type := {
  qpn_of : Z → Z;
  rkey_of : Z → Z;
  law_qpn_range : ∀ q, 0 ≤ qpn_of q < 2 ^ 24;
  law_rkey_range : ∀ m, 0 ≤ rkey_of m < 2 ^ 32;
  law_lid_range : ∀ d p, d ∈ devs → p ∈ dev_ports d → 0 ≤ pa_lid p < 2 ^ 16;
  law_alloc_pd : ∀ w c, runs (ibv_alloc_pd c) w (λ r w', r ≠ 0 ∧ qps w' = qps w);
  law_dealloc_pd : ∀ w p, runs (ibv_dealloc_pd p) w (λ r w', r = 0 ∧ qps w' = qps w);
  law_close_ctx : ∀ w c, runs (ibv_close_device c) w (λ r w', r = 0 ∧ qps w' = qps w);
  law_destroy_qp : ∀ w q, runs (ibv_destroy_qp q) w (λ r w', r = 0 ∧ qps w' = delete q (qps w));
  law_destroy_cq : ∀ w c, runs (ibv_destroy_cq c) w (λ r w', r = 0 ∧ qps w' = qps w);
  law_reg_mr : ∀ w p a n f, runs (ibv_reg_mr p a n f) w (λ r w', r ≠ 0 ∧ qps w' = qps w);
  law_dereg_mr : ∀ w m, runs (ibv_dereg_mr m) w (λ r w', r = 0 ∧ qps w' = qps w);
  law_qp_num : ∀ w q, runs (ibv_qp_num q) w (λ r w', r = qpn_of q ∧ registry w' = registry w ∧ qps w' = qps w);
  law_rkey : ∀ w m, runs (ibv_mr_rkey m) w (λ r w', r = rkey_of m ∧ registry w' = registry w ∧ qps w' = qps w);
  law_query_port_reg : ∀ w d i p, d ∈ devs → dev_ports d !! i = Some p →
    runs (ibv_query_port (ctx_of d) (Z.of_nat i + 1)) w
      (λ r w', r = (0, p) ∧ registry w' = registry w);
  law_shmget : ∀ w k n, 0 < k → runs (shmget k n) w (λ r w', r ≠ -1 ∧ qps w' = qps w);
  law_shmat : ∀ w i, i ≠ -1 → runs (shmat i) w (λ r w', 0 < r < 2 ^ 64 ∧ qps w' = qps w);
  law_mbind : ∀ w a n m, runs (mbind a n m) w (λ r w', r = 0 ∧ qps w' = qps w);
  law_rmid : ∀ w i, runs (shmctl_rmid i) w (λ r w', r = 0 ∧ qps w' = qps w);
  law_shmdt : ∀ w a, runs (shmdt a) w (λ r w', r = 0 ∧ qps w' = qps w);
  law_memalign : ∀ w a n, runs (memalign a n) w (λ r w', 0 < r < 2 ^ 64 ∧ qps w' = qps w);
  law_memset : ∀ w a n, runs (memset0 a n) w (λ _ w', qps w' = qps w);
  law_free : ∀ w a, runs (free a) w (λ _ w', qps w' = qps w);
  law_query_qps : ∀ c i, keeps qps (ibv_query_port c i);
  law_set_qps : ∀ k v, keeps qps (memcached_set k v);
  law_get_qps : ∀ k, keeps qps (memcached_get k)
}.

#[export] Program Instance sim_hrd_laws : HrdLaws SimWorld :=
  {| qpn_of := λ q, q mod 2 ^ 24; rkey_of := u32 |}.
Next Obligation. intros. by apply Z.mod_pos_bound. Qed.
Next Obligation. intros. apply u32_range. Qed.
Next Obligation.
  intros d p Hd Hp. simpl in Hp. unfold sim_ports in Hp.
  destruct (d =? 1); rewrite !elem_of_cons, elem_of_nil in Hp; naive_solver lia.
Qed.
Next Obligation. intros. by eexists _, _. Qed.
Next Obligation. intros. by eexists _, _. Qed.
Next Obligation. intros. by eexists _, _. Qed.
Next Obligation. intros. by eexists _, _. Qed.
Next Obligation. intros. by eexists _, _. Qed.
Next Obligation. intros. by eexists _, _. Qed.
Next Obligation. intros. by eexists _, _. Qed.
Next Obligation. intros. by eexists _, _. Qed.
Next Obligation. intros. by eexists _, _. Qed.
Next Obligation.
  intros w d i p Hd Hp. eexists _, _. split; [reflexivity|].
  simpl in Hp. replace (ctx_of d - 100) with d by (simpl; lia).
  replace (Z.to_nat (Z.of_nat i + 1 - 1)) with i by lia. by rewrite Hp.
Qed.
Next Obligation. intros w k n Hk. eexists _, _. split; [reflexivity|]. split; [lia|done]. Qed.
Next Obligation.
  intros w i Hi. eexists _, _. split; [reflexivity|]. split; [|done].
  pose proof (Z.mod_pos_bound i (2 ^ 20) ltac:(done)). lia.
Qed.
Next Obligation. intros. by eexists _, _. Qed.
Next Obligation. intros. by eexists _, _. Qed.
Next Obligation. intros. by eexists _, _. Qed.
Next Obligation. intros. by eexists _, _. Qed.
Next Obligation. intros. by eexists _, _. Qed.
Next Obligation. intros. by eexists _, _. Qed.
Next Obligation. intros c i w a w' E. simpl in E. by injection E as _ <-. Qed.
Next Obligation. intros k v w a w' E. by injection E as _ <-. Qed.
Next Obligation. intros k w a w' E. by injection E as _ <-. Qed.
