(* ===== verification/HrdUtil.v ===== *)
(** * libhrd: utilities (src/libhrd/hrd.h, src/libhrd/hrd_util.c)

    Completion polling, the port resolution, shared memory and the QP
    registry.  The functions run over a world with the interfaces [Verbs],
    [Shm] and [Memc]. *)

From stdpp Require Import base gmap list strings numbers.
From Stdlib Require Import ZArith Lia.
From S2P Require Import Prelude Verbs.

Definition HRD_Q_DEPTH : Z := 128.
Definition HRD_DEFAULT_PSN : Z := 3185.
Definition HRD_DEFAULT_QKEY : Z := 0x11111111.
Definition HRD_QP_NAME_SIZE : Z := 200.
Definition HRD_RESERVED_NAME_PREFIX : string := "__HRD_RESERVED_NAME_PREFIX".
Definition HRD_MAX_INLINE : Z := 60.
Definition K_128 : Z := 131072.

Definition HRD_MOD_ADD (x N : Z) : Z := let x := x + 1 in if x =? N then 0 else x.

(** The new seed and the value. *)
Definition hrd_fastrand (seed : Z) : Z * Z :=
  let seed := seed *64 1103515245 +64 12345 in (seed, u32 (seed .>> 32)).

Definition hrd_is_power_of_2 (n : Z) : bool :=
  negb (n =? 0) && (n .& u32 (n - 1) =? 0).

(** ** Polling *)

(** Writes of [ibv_poll_cq] to [&wc[i]]. *)
Definition wc_write (arr : list wc) (i : Z) (es : list wc) : list wc :=
  take (Z.to_nat i) arr ++ es ++ drop (Z.to_nat i + length es) arr.

Section Poll.
Context {W : Type} `{Verbs W}.

Definition poll_once (cq num_comps comps : Z) (arr : list wc)
    : eff W (Z * list wc) :=
  let* (new_comps, es) := ibv_poll_cq cq (num_comps - comps) in
  eff_lift (in_bounds ((0 <=? comps) && (comps + Z.of_nat (length es) <=? Z.of_nat (length arr)))) ;*
  eff_ret (new_comps, wc_write arr comps es).

Definition bad_status (arr : list wc) (i : Z) : bool :=
  match arr !! Z.to_nat i with
  | Some c => negb (wc_status c =? 0)
  | None => false
  end.

(** [None]: a bad status was seen. The fuel bounds the number of polls. *)
Fixpoint poll_loop (fuel : nat) (cq num_comps comps : Z) (arr : list wc)
    : eff W (option (list wc)) :=
  if comps <? num_comps then
    match fuel with
    | O => eff_fault Stuck
    | S fuel =>
        let* (new_comps, arr) := poll_once cq num_comps comps arr in
        if negb (new_comps =? 0) then
          if bad_status arr comps then eff_ret None
          else poll_loop fuel cq num_comps (comps + new_comps) arr
        else poll_loop fuel cq num_comps comps arr
    end
  else eff_ret (Some arr).

Definition hrd_poll_cq (fuel : nat) (cq num_comps : Z) (arr : list wc) : eff W (list wc) :=
  let* r := poll_loop fuel cq num_comps 0 arr in
  match r with
  | Some arr => eff_ret arr
  | None => eff_fault (ExitCall 0)
  end.

Definition hrd_poll_cq_ret (fuel : nat) (cq num_comps : Z) (arr : list wc)
    : eff W (Z * option (list wc)) :=
  let* r := poll_loop fuel cq num_comps 0 arr in
  match r with
  | Some arr => eff_ret (0, Some arr)
  | None => eff_ret (-1, None)
  end.
End Poll.

(** ** Ports *)
Definition port_enabled (p : port_attr) : bool :=
  negb (negb (pa_phys_state p =? IBV_PORT_ACTIVE) &&
        negb (pa_phys_state p =? IBV_PORT_ACTIVE_DEFER)).

Section Ports.
Context {W : Type} `{Verbs W}.

(** The inner loop of [hrd_resolve_port_index]: the port that was found,
    or the number of enabled ports still to skip. [port_i] is a
    [uint8_t]. *)
Fixpoint port_loop (fuel : nat) (ctx phys_port_cnt port_i todo : Z) : eff W (Z + Z) :=
  if port_i <=? phys_port_cnt then
    match fuel with
    | O => eff_fault Stuck
    | S fuel =>
        let* (rc, attr) := ibv_query_port ctx port_i in
        exit_if (negb (rc =? 0)) (-1) ;*
        if negb (port_enabled attr) then port_loop fuel ctx phys_port_cnt (u8 (port_i + 1)) todo
        else if todo =? 0 then eff_ret (inl port_i)
        else port_loop fuel ctx phys_port_cnt (u8 (port_i + 1)) (todo - 1)
    end
  else eff_ret (inr todo).

(** The loop over the devices: the device, [device_id] and [dev_port_id]. *)
Fixpoint dev_loop (dev_list : list Z) (dev_i todo : Z) : eff W (option (Z * Z * Z)) :=
  match dev_list with
  | [] => eff_ret None
  | d :: dev_list =>
      let* ctx := ibv_open_device d in
      exit_if (ctx =? 0) 0 ;*
      let* (rc, phys_port_cnt) := ibv_query_device ctx in
      exit_if (negb (rc =? 0)) (-1) ;*
      let* found := port_loop 256 ctx phys_port_cnt 1 todo in
      let* rc := ibv_close_device ctx in
      eff_assert (rc =? 0) ;*
      match found with
      | inl port_i => eff_ret (Some (d, dev_i, port_i))
      | inr todo => dev_loop dev_list (dev_i + 1) todo
      end
  end.

Definition hrd_resolve_port_index (port_index : Z) : eff W (Z * Z * Z) :=
  eff_assert (0 <=? port_index) ;*
  let* l := ibv_get_device_list in
  match l with
  | None => eff_fault (ExitCall 0)
  | Some dev_list =>
      let* r := dev_loop dev_list 0 port_index in
      match r with
      | Some x => eff_ret x
      | None => eff_fault (ExitCall (-1))
      end
  end.

Definition hrd_get_local_lid (ctx dev_port_id : Z) : eff W Z :=
  eff_assert (negb (ctx =? 0) && (1 <=? dev_port_id)) ;*
  let* (rc, attr) := ibv_query_port ctx dev_port_id in
  eff_assert (rc =? 0) ;*
  eff_ret (pa_lid attr).
End Ports.

(** ** Shared memory *)
Section ShmFns.
Context {W : Type} `{Shm W}.

Definition hrd_malloc_socket (shm_key size socket_id : Z) : eff W Z :=
  let* shmid := shmget shm_key size in
  eff_assert (negb (shmid =? -1)) ;*
  let* buf := shmat shmid in
  exit_if (buf =? 0) (-1) ;*
  let nodemask := Z.shiftl 1 socket_id in
  let* ret := mbind buf size nodemask in
  exit_if (negb (ret =? 0)) (-1) ;*
  eff_ret buf.

Definition hrd_free (shm_key shm_buf : Z) : eff W Z :=
  let* shmid := shmget shm_key 0 in
  if shmid =? -1 then eff_ret (-1)
  else
    let* ret := shmctl_rmid shmid in
    exit_if (negb (ret =? 0)) (-1) ;*
    let* ret := shmdt shm_buf in
    exit_if (negb (ret =? 0)) (-1) ;*
    eff_ret 0.
End ShmFns.

(** ** Registry *)
Definition bytes_of_string (s : string) : list Z :=
  map (λ c, Z.of_nat (Ascii.nat_of_ascii c)) (String.list_ascii_of_string s).

(** A byte string as C reads it: up to the first NUL. *)
Fixpoint c_str (bs : list Z) : list Z :=
  match bs with
  | [] => []
  | b :: bs => if b =? 0 then [] else b :: c_str bs
  end.

Section Registry.
Context {W : Type} `{Memc W}.

Definition hrd_publish (key : string) (value : list Z) : eff W unit :=
  eff_assert (0 <? Z.of_nat (length value)) ;*
  let* rc := memcached_set key value in
  exit_if (negb (rc =? MEMCACHED_SUCCESS)) (-1).

(** The length, or -1, and the value. *)
Definition hrd_get_published (key : string) : eff W (Z * option (list Z)) :=
  let* (rc, value) := memcached_get key in
  if rc =? MEMCACHED_SUCCESS then
    eff_ret (Z.of_nat (length (default [] value)), value)
  else if rc =? MEMCACHED_NOTFOUND then
    eff_assert (match value with None => true | Some _ => false end) ;*
    eff_ret (-1, value)
  else eff_fault (ExitCall (-1)).

Definition strlen (s : string) : Z := Z.of_nat (String.length s).

(** The buffer [new_name] holds [2 * HRD_QP_NAME_SIZE] characters. *)
Definition ready_name (qp_name : string) : res string :=
  let new_name := (HRD_RESERVED_NAME_PREFIX +:+ qp_name)%string in
  in_bounds (strlen new_name <? 2 * HRD_QP_NAME_SIZE) ;!
  Ok new_name.

Definition hrd_publish_ready (qp_name : string) : eff W unit :=
  eff_assert (strlen qp_name <? HRD_QP_NAME_SIZE) ;*
  let* new_name := eff_lift (ready_name qp_name) in
  hrd_publish new_name (bytes_of_string "hrd_ready").

(** The polling loop; the fuel bounds the number of tries. [strcmp] sees
    the value up to its terminator, which [memcached_get] appends. *)
Fixpoint wait_loop (fuel : nat) (new_name : string) : eff W unit :=
  match fuel with
  | O => eff_fault Stuck
  | S fuel =>
      let* (ret, value) := hrd_get_published new_name in
      if (0 <? ret) && bool_decide (c_str <$> value = Some (bytes_of_string "hrd_ready"))
      then eff_ret tt
      else wait_loop fuel new_name
  end.

Definition hrd_wait_till_ready (fuel : nat) (qp_name : string) : eff W unit :=
  let* new_name := eff_lift (ready_name qp_name) in
  wait_loop fuel new_name.
End Registry.

(** One RECV with one buffer. *)
Definition hrd_post_dgram_recv {W} `{DataVerbs W} (qp buf_addr len lkey : Z) : eff W unit :=
  let* ret := ibv_post_recv qp buf_addr len lkey in
  exit_if (negb (ret =? 0)) (-1).

(** ** Lemmas *)

Lemma runs_lift_Ok {W A B} (a : A) (k : A → eff W B) w P :
  runs (k a) w P → runs (eff_bind (eff_lift (Ok a)) k) w P.
Proof. done. Qed.

Lemma wc_write_prefix (P arr0 : list wc) (c k : nat) :
  (c + k ≤ length P)%nat → (c + k ≤ length arr0)%nat →
  wc_write (take c P ++ drop c arr0) (Z.of_nat c) (take k (drop c P)) =
  take (c + k) P ++ drop (c + k) arr0.
Proof.
  intros HP Ha. unfold wc_write. rewrite Nat2Z.id.
  rewrite take_app_length' by (rewrite length_take; lia).
  rewrite length_take, length_drop, Nat.min_l by lia.
  rewrite drop_app, length_take, (drop_ge (take _ _)) by (rewrite length_take; lia).
  rewrite drop_drop, app_nil_l, app_assoc, Nat.min_l by lia. f_equal.
  - apply take_take_drop.
  - f_equal. lia.
Qed.

Section PollProof.
Context {W : Type} `{VerbsLaws W}.

Lemma poll_loop_ok fuel cq num arr0 (P : list wc) : ∀ c w arr,
  0 ≤ c ≤ num → num ≤ Z.of_nat (length arr) → length arr = length arr0 →
  num ≤ Z.of_nat (length P) → Forall (λ x, wc_status x = 0) (take (Z.to_nat num) P) →
  pending w cq = drop (Z.to_nat c) P →
  arr = take (Z.to_nat c) P ++ drop (Z.to_nat c) arr0 →
  num - c ≤ Z.of_nat fuel →
  runs (poll_loop fuel cq num c arr) w (λ r w',
    r = Some (take (Z.to_nat num) P ++ drop (Z.to_nat num) arr0) ∧
    pending w' cq = drop (Z.to_nat num) P).
Proof.
  induction fuel as [|fuel IH]; intros c w arr Hc Hn Hl HP Hst Hp Harr Hf; simpl;
    destruct (c <? num) eqn:E; [apply Z.ltb_lt in E; lia| |apply Z.ltb_lt in E|];
    try (apply Z.ltb_ge in E; assert (c = num) as -> by lia; apply runs_ret; by subst arr).
  unfold poll_once. eapply (runs_bind _ _ _ (λ x w', ∃ k, x = (Z.of_nat k,
      take (Z.to_nat (c + Z.of_nat k)) P ++ drop (Z.to_nat (c + Z.of_nat k)) arr0) ∧
      (0 < k)%nat ∧ c + Z.of_nat k ≤ num ∧ pending w' cq = drop (Z.to_nat (c + Z.of_nat k)) P)).
  { eapply runs_bind; [apply (law_poll w cq (num - c)); lia|]. intros [r es] w' Hr. cbv beta in Hr.
    destruct Hr as (k & [= -> ->] & Hk & Hkn & Hpos & Hp' & _).
    rewrite Hp, length_drop in Hk.
    assert (Hlen : length (take k (pending w cq)) = k) by (rewrite length_take, Hp, length_drop; lia).
    apply runs_bounds; [rewrite Hlen, !(proj2 (Z.leb_le _ _)); [done|lia..]|].
    apply runs_ret. exists k.
    replace (Z.to_nat (c + Z.of_nat k)) with (Z.to_nat c + k)%nat by lia.
    split; [|split; [|split; [lia|]]].
    - f_equal. rewrite Hp, Harr. pose proof (wc_write_prefix P arr0 (Z.to_nat c) k) as Hw.
      rewrite Z2Nat.id in Hw by lia. apply Hw; lia.
    - apply Hpos. rewrite Hp. intros E0. apply (f_equal length) in E0.
      rewrite length_drop in E0. simpl in E0. lia.
    - by rewrite Hp', Hp, drop_drop. }
  intros [r arr'] w' (k & [= -> ->] & Hk & Hkn & Hp').
  rewrite (proj2 (Z.eqb_neq _ 0)) by lia. cbn [negb].
  assert (Hbad : bad_status (take (Z.to_nat (c + Z.of_nat k)) P ++
    drop (Z.to_nat (c + Z.of_nat k)) arr0) c = false).
  { unfold bad_status. rewrite lookup_app_l by (rewrite length_take; lia).
    rewrite lookup_take_lt by lia. destruct (P !! Z.to_nat c) as [x|] eqn:Ex; [|done].
    rewrite (Forall_lookup_1 _ _ (Z.to_nat c) x Hst); [done|]. by rewrite lookup_take_lt by lia. }
  rewrite Hbad. apply IH; auto; try lia.
  - rewrite length_app, length_take, length_drop. lia.
  - rewrite length_app, length_take, length_drop. lia.
Qed.
End PollProof.

(** ** The ports that count *)

(** Numbers (1-based) of the enabled ports of a device. *)
Fixpoint enabled_from (ps : list port_attr) (i : Z) : list Z :=
  match ps with
  | [] => []
  | p :: ps => (if port_enabled p then [i] else []) ++ enabled_from ps (i + 1)
  end.

Section Enabled.
Context {W : Type} `{VerbsLaws W}.

(** Device, device index and port of all enabled ports of the machine. *)
Fixpoint enabled_ports (ds : list Z) (i : Z) : list (Z * Z * Z) :=
  match ds with
  | [] => []
  | d :: ds => map (λ p, (d, i, p)) (enabled_from (dev_ports d) 1) ++ enabled_ports ds (i + 1)
  end.

Lemma port_loop_ok d : d ∈ devs → Z.of_nat (length (dev_ports d)) < 255 →
  ∀ n j fuel todo w, (n + j = length (dev_ports d))%nat → (n ≤ fuel)%nat → 0 ≤ todo →
  runs (port_loop fuel (ctx_of d) (Z.of_nat (length (dev_ports d))) (Z.of_nat j + 1) todo) w
    (λ r w', qps w' = qps w ∧ let E := enabled_from (drop j (dev_ports d)) (Z.of_nat j + 1) in
      r = match E !! Z.to_nat todo with
          | Some p => inl p
          | None => inr (todo - Z.of_nat (length E))
          end).
Proof.
  intros Hd Hlen. induction n as [|n IH]; intros j fuel todo w Hj Hf Ht.
  - rewrite drop_ge by lia. simpl. assert (Hn : Z.of_nat j + 1 <=? Z.of_nat (length (dev_ports d)) = false)
      by (apply Z.leb_gt; lia).
    destruct fuel; cbn [port_loop]; rewrite Hn; apply runs_ret; (split; [done|simpl; f_equal; lia]).
  - destruct fuel as [|fuel]; [lia|]. cbn [port_loop]. rewrite (proj2 (Z.leb_le _ _)) by lia.
    destruct (dev_ports d !! j) as [p|] eqn:Ej; [|apply lookup_ge_None in Ej; lia].
    eapply runs_bind; [apply (law_query_port w d j p Hd Ej)|]. intros [rc attr] w1 [[= -> ->] <-].
    apply runs_exit_if; [done|]. rewrite (drop_S _ _ _ Ej). cbn [enabled_from].
    assert (Hu : u8 (Z.of_nat j + 1 + 1) = Z.of_nat (S j) + 1) by (unfold u8; rewrite Z.mod_small; lia).
    rewrite Hu. replace (Z.of_nat j + 1 + 1) with (Z.of_nat (S j) + 1) by lia.
    destruct (port_enabled p); cbn [negb app].
    + destruct (todo =? 0) eqn:E0; [apply Z.eqb_eq in E0 as ->; by apply runs_ret|].
      apply Z.eqb_neq in E0. eapply runs_mono; [apply (IH (S j) fuel (todo - 1) w1); lia|].
      intros r w2 [E2 ->]. split; [done|]. rewrite lookup_cons_ne_0 by lia.
      replace (Nat.pred (Z.to_nat todo)) with (Z.to_nat (todo - 1)) by lia.
      destruct (enabled_from _ _ !! _); [done|]. f_equal. rewrite length_cons. lia.
    + apply (IH (S j) fuel todo w1); lia.
Qed.

Lemma dev_loop_ok ds : (∀ d, d ∈ ds → d ∈ devs ∧ Z.of_nat (length (dev_ports d)) < 255) →
  ∀ i todo w, 0 ≤ todo →
  runs (dev_loop ds i todo) w (λ r w', r = enabled_ports ds i !! Z.to_nat todo ∧ qps w' = qps w).
Proof.
  induction ds as [|d ds IH]; intros Hds i todo w Ht; cbn [dev_loop enabled_ports].
  { apply runs_ret. by rewrite lookup_nil. }
  destruct (Hds d) as [Hd Hlen]; [left|]. destruct (law_open w d Hd) as [Hctx Hopen].
  eapply runs_bind; [exact Hopen|]. intros ctx w1 [-> E1].
  apply runs_exit_if; [by apply Z.eqb_neq|].
  eapply runs_bind; [apply (law_query_device w1 d Hd)|]. intros [rc cnt] w2 [[= -> ->] E2].
  apply runs_exit_if; [done|].
  eapply runs_bind; [apply (port_loop_ok d Hd Hlen (length (dev_ports d)) 0 256 todo w2); lia|].
  cbv beta. intros r w3 [E3 Hr]. eapply runs_bind; [apply (law_close w3 d Hd)|]. intros rc w4 [-> E4].
  apply runs_assert; [done|]. cbv zeta in Hr. rewrite drop_0 in Hr. change (Z.of_nat 0 + 1) with 1 in Hr.
  set (E := enabled_from (dev_ports d) 1) in *.
  destruct (E !! Z.to_nat todo) as [p|] eqn:Ep; subst r; cbv iota beta.
  - apply runs_ret. split; [|congruence]. symmetry. apply lookup_app_Some. left.
    apply list_lookup_fmap_Some. by exists p.
  - apply lookup_ge_None in Ep. eapply runs_mono; [apply IH|].
    + intros d' Hd'. apply Hds. by right.
    + lia.
    + intros r' w5 [-> E5]. split; [|congruence]. rewrite lookup_app_r by (rewrite length_map; lia).
      f_equal. rewrite length_map. lia.
Qed.
End Enabled.

(** ** Names *)
Lemma prefix_app (p s : string) : String.prefix p (p +:+ s) = true.
Proof.
  induction p as [|c p IH]; [by destruct s|]. simpl. by destruct (Ascii.ascii_dec c c).
Qed.

(** [strstr s sub != NULL]. *)
Fixpoint strstr (s sub : string) : bool :=
  String.prefix sub s || match s with EmptyString => false | String _ s => strstr s sub end.

Lemma strstr_prefix p s : strstr (p +:+ s) p = true.
Proof.
  destruct (p +:+ s) as [|c t] eqn:E; cbn [strstr]; rewrite <-E, prefix_app; done.
Qed.

Lemma string_length_app (p s : string) :
  String.length (p +:+ s) = (String.length p + String.length s)%nat.
Proof. induction p as [|c p IH]; [done|]. simpl. by rewrite IH. Qed.

Lemma ready_name_ok s :
  strlen s < HRD_QP_NAME_SIZE → ready_name s = Ok (HRD_RESERVED_NAME_PREFIX +:+ s).
Proof.
  intros Hs. unfold ready_name, strlen, HRD_QP_NAME_SIZE in *.
  rewrite (proj2 (Z.ltb_lt _ _)); [done|]. rewrite string_length_app.
  change (String.length HRD_RESERVED_NAME_PREFIX) with 26%nat. lia.
Qed.

Section RegistryProof.
Context {W : Type} `{MemcLaws W}.

Lemma publish_ok w k v : (0 < length v)%nat →
  runs (hrd_publish k v) w (λ _ w', registry w' = <[k := v]> (registry w)).
Proof.
  intros Hv. unfold hrd_publish. apply runs_assert; [apply Z.ltb_lt; lia|].
  eapply runs_bind; [apply law_set|]. intros rc w' [-> Hr]. by apply runs_ret.
Qed.

Lemma publish_ready_ok w name : strlen name < HRD_QP_NAME_SIZE →
  runs (hrd_publish_ready name) w (λ _ w',
    registry w' = <[HRD_RESERVED_NAME_PREFIX +:+ name := bytes_of_string "hrd_ready"]> (registry w)).
Proof.
  intros Hn. unfold hrd_publish_ready. rewrite ready_name_ok by done.
  apply runs_assert; [by apply Z.ltb_lt|]. apply runs_lift_Ok. apply publish_ok. vm_compute. lia.
Qed.

Lemma get_published_ok w k :
  runs (hrd_get_published k) w (λ r w', registry w' = registry w ∧
    r = match registry w !! k with
        | Some v => (Z.of_nat (length v), Some v)
        | None => (-1, None)
        end).
Proof.
  unfold hrd_get_published. eapply runs_bind; [apply law_get|]. intros [rc v] w' [Hr Hx].
  destruct (registry w !! k); simplify_eq; simpl.
  - by apply runs_ret.
  - apply runs_assert; [done|]. by apply runs_ret.
Qed.

Lemma wait_ready_ok fuel w name : strlen name < HRD_QP_NAME_SIZE →
  registry w !! (HRD_RESERVED_NAME_PREFIX +:+ name) = Some (bytes_of_string "hrd_ready") →
  runs (hrd_wait_till_ready (S fuel) name) w (λ _ w', registry w' = registry w).
Proof.
  intros Hn Hr. unfold hrd_wait_till_ready. rewrite ready_name_ok by done. apply runs_lift_Ok.
  cbn [wait_loop]. eapply runs_bind; [apply get_published_ok|]. cbv beta. intros [rc v] w1 [Hw1 Hx].
  rewrite Hr in Hx. injection Hx as -> ->. cbn [fmap option_fmap option_map].
  rewrite bool_decide_true by done. by apply runs_ret.
Qed.
End RegistryProof.

(** ** Properties *)

(** C36: when a queue holds at least [num] completions and the first [num]
    are successful, [hrd_poll_cq] returns after at most [num] polls,
    however many completions each poll delivers; it fills the first [num]
    entries of the array with them in order, leaves the others alone, and
    takes exactly [num] completions from the queue. *)
Theorem hrd_poll_cq_complete {W : Type} `{VerbsLaws W} (w : W) (cq num : Z) (arr : list wc) (fuel : nat) :
  0 ≤ num ≤ Z.of_nat (length arr) → num ≤ Z.of_nat (length (pending w cq)) →
  Forall (λ x, wc_status x = 0) (take (Z.to_nat num) (pending w cq)) → num ≤ Z.of_nat fuel →
  runs (hrd_poll_cq fuel cq num arr) w (λ arr' w',
    arr' = take (Z.to_nat num) (pending w cq) ++ drop (Z.to_nat num) arr ∧
    pending w' cq = drop (Z.to_nat num) (pending w cq)).
Proof.
  intros Hn Hp Hst Hf. unfold hrd_poll_cq. eapply runs_bind.
  - apply (poll_loop_ok fuel cq num arr (pending w cq) 0 w arr); auto; lia.
  - cbv beta. intros r w' [-> Hw']. by apply runs_ret.
Qed.

Definition demo_wc (i st : Z) : wc := Wc i st 0 0.
Definition demo_cq : SimWorld := Sim 1 ∅ {[7 := [demo_wc 1 0; demo_wc 2 0; demo_wc 3 5]]} ∅ ∅.

Lemma hrd_poll_cq_complete_witness :
  runs (hrd_poll_cq 2 7 2 (replicate 4 (demo_wc 0 0))) demo_cq (λ arr' w',
    arr' = take 2 (pending demo_cq 7) ++ drop 2 (replicate 4 (demo_wc 0 0)) ∧
    pending w' 7 = drop 2 (pending demo_cq 7)).
Proof.
  apply (hrd_poll_cq_complete demo_cq 7 2 (replicate 4 (demo_wc 0 0)) 2);
    [by vm_compute|by vm_compute| |by vm_compute]. repeat constructor.
Defined.

(** Only the first completion of each poll is checked: when one poll
    delivers a successful completion and a failed one, [hrd_poll_cq]
    returns normally and [hrd_poll_cq_ret] returns 0, although the second
    entry of the array has a bad status. *)
Theorem hrd_poll_cq_misses_error :
  let w := Sim 1 ∅ {[7 := [demo_wc 1 0; demo_wc 2 5]]} ∅ ∅ in
  let arr := replicate 4 (demo_wc 0 0) in
  let arr' := [demo_wc 1 0; demo_wc 2 5; demo_wc 0 0; demo_wc 0 0] in
  runs (hrd_poll_cq 2 7 2 arr) w (λ r _, r = arr') ∧
  runs (hrd_poll_cq_ret 2 7 2 arr) w (λ r _, r = (0, Some arr')) ∧
  bad_status arr' 1 = true.
Proof. split; [|split; [|done]]; by eexists _, _. Qed.

(** [hrd_resolve_port_index] finds the port with rank [port_index]
    among the enabled ports of all devices, in the order of the device
    list, and exits with -1 when there are not that many. *)
Theorem hrd_resolve_port_correct {W : Type} `{VerbsLaws W} (w : W) (port_index : Z) :
  0 ≤ port_index → (∀ d, d ∈ devs → Z.of_nat (length (dev_ports d)) < 255) →
  match enabled_ports devs 0 !! Z.to_nat port_index with
  | Some x => runs (hrd_resolve_port_index port_index) w (λ r _, r = x)
  | None => hrd_resolve_port_index port_index w = Fault (ExitCall (-1))
  end.
Proof.
  intros Hi Hlen. unfold hrd_resolve_port_index.
  assert (Hds : ∀ d, d ∈ devs → d ∈ devs ∧ Z.of_nat (length (dev_ports d)) < 255) by auto.
  destruct (law_list w) as (l & w1 & E1 & -> & _).
  destruct (dev_loop_ok devs Hds 0 port_index w1 Hi) as (r & w2 & E2 & -> & _).
  destruct (enabled_ports devs 0 !! Z.to_nat port_index) as [x|].
  - apply runs_assert; [by apply Z.leb_le|]. exists x, w2. unfold eff_bind.
    rewrite E1. cbn [res_bind fst snd]. by rewrite E2.
  - unfold eff_assert, eff_lift, eff_bind. rewrite (proj2 (Z.leb_le _ _)) by done.
    cbn [cassert res_bind fst snd]. rewrite E1. cbn [res_bind fst snd]. rewrite E2. done.
Qed.

Lemma hrd_resolve_port_correct_witness :
  runs (hrd_resolve_port_index 1) sim0 (λ r _, r = (2, 1, 1)).
Proof.
  refine (hrd_resolve_port_correct sim0 1 _ _); [lia|].
  intros d Hd. simpl. unfold sim_ports. destruct (d =? 1); by vm_compute.
Defined.

(** The bit trick of [hrd_is_power_of_2] is exact on 32-bit numbers. *)
Theorem hrd_is_power_of_2_correct (n : Z) :
  0 ≤ n < 2 ^ 32 → hrd_is_power_of_2 n = true ↔ ∃ k, 0 ≤ k ∧ n = 2 ^ k.
Proof.
  intros Hn. unfold hrd_is_power_of_2. rewrite andb_true_iff, negb_true_iff, Z.eqb_neq, Z.eqb_eq. split.
  - intros [H0 Hand]. rewrite u32_small in Hand by lia. exists (Z.log2 n).
    pose proof (Z.log2_spec n ltac:(lia)) as Hl. split; [apply Z.log2_nonneg|].
    destruct (decide (n = 2 ^ Z.log2 n)) as [E|Hne]; [done|]. exfalso.
    assert (0 < 2 ^ Z.log2 n) by (apply Z.pow_pos_nonneg; [lia|apply Z.log2_nonneg]).
    assert (Hb : Z.testbit (Z.land n (n - 1)) (Z.log2 n) = true).
    { rewrite Z.land_spec, Z.bit_log2 by lia. simpl.
      replace (Z.log2 n) with (Z.log2 (n - 1)); [apply Z.bit_log2; lia|].
      apply Z.log2_unique; [apply Z.log2_nonneg|lia]. }
    rewrite Hand, Z.testbit_0_l in Hb. done.
  - intros (k & Hk & ->). assert (0 < 2 ^ k) by lia. split; [lia|].
    rewrite u32_small, u64_land_mask by lia. by apply Z_mod_same_full.
Qed.

Lemma hrd_is_power_of_2_correct_witness :
  hrd_is_power_of_2 4096 = true ↔ ∃ k, 0 ≤ k ∧ 4096 = 2 ^ k.
Proof. apply hrd_is_power_of_2_correct. lia. Defined.

(** The ready handshake: once a queue pair's readiness is published, a
    waiter returns at its first try; the key that is published differs from
    every legal queue pair name (those do not contain the reserved prefix),
    so it never overwrites the entry of a queue pair. *)
Theorem hrd_ready_handshake {W : Type} `{MemcLaws W} (w : W) (qp_name : string) :
  strlen qp_name < HRD_QP_NAME_SIZE →
  runs (hrd_publish_ready qp_name ;* hrd_wait_till_ready 1 qp_name) w (λ _ w',
    ∀ name, strstr name HRD_RESERVED_NAME_PREFIX = false →
      registry w' !! name = registry w !! name).
Proof.
  intros Hn. eapply runs_bind; [by apply publish_ready_ok|]. cbv beta. intros _ w1 Hw1.
  eapply runs_mono; [apply (wait_ready_ok 0); [done|by rewrite Hw1, lookup_insert_eq]|].
  cbv beta. intros _ w2 Hw2 name Hname. rewrite Hw2, Hw1. apply lookup_insert_ne.
  intros <-. by rewrite strstr_prefix in Hname.
Qed.

Lemma hrd_ready_handshake_witness :
  runs (hrd_publish_ready "server-1" ;* hrd_wait_till_ready 1 "server-1") sim0 (λ _ w',
    ∀ name, strstr name HRD_RESERVED_NAME_PREFIX = false →
      registry w' !! name = registry sim0 !! name).
Proof. apply (hrd_ready_handshake sim0 "server-1"). by vm_compute. Defined.
