(* ===== verification/HrdConn.v ===== *)
(** * libhrd: control blocks and queue pairs (src/libhrd/hrd_conn.c)

    Creation, connection, publication and teardown of queue pairs, for the
    build with [HRD_CONNECT_IB_ATOMICS] 0.  An array that [malloc] returned
    is the list of the entries written so far. *)

From stdpp Require Import base gmap list strings numbers.
From Stdlib Require Import ZArith Lia.
From S2P Require Import Prelude Mica Verbs HrdUtil.

Record hrd_ctrl_blk : Type := Cb
  { local_hid : Z; cb_ctx : Z; port_index : Z; device_id : Z; dev_port_id : Z;
    numa_node_id : Z; cb_pd : Z;
    use_uc : Z; num_conn_qps : Z; conn_qp : list Z; conn_cq : list Z;
    conn_buf : Z; conn_buf_size : Z; conn_buf_shm_key : Z; conn_buf_mr : Z;
    num_dgram_qps : Z; dgram_qp : list Z; dgram_send_cq : list Z; dgram_recv_cq : list Z;
    dgram_buf : Z; dgram_buf_size : Z; dgram_buf_shm_key : Z; dgram_buf_mr : Z;
    cb_wc : list wc }.

Definition set_dgram (cb : hrd_ctrl_blk) (qp scq rcq : list Z) (buf mr : Z) : hrd_ctrl_blk :=
  Cb (local_hid cb) (cb_ctx cb) (port_index cb) (device_id cb) (dev_port_id cb)
     (numa_node_id cb) (cb_pd cb) (use_uc cb) (num_conn_qps cb) (conn_qp cb) (conn_cq cb)
     (conn_buf cb) (conn_buf_size cb) (conn_buf_shm_key cb) (conn_buf_mr cb)
     (num_dgram_qps cb) qp scq rcq buf (dgram_buf_size cb) (dgram_buf_shm_key cb) mr (cb_wc cb).
Definition set_conn (cb : hrd_ctrl_blk) (qp cq : list Z) (buf mr : Z) : hrd_ctrl_blk :=
  Cb (local_hid cb) (cb_ctx cb) (port_index cb) (device_id cb) (dev_port_id cb)
     (numa_node_id cb) (cb_pd cb) (use_uc cb) (num_conn_qps cb) qp cq
     buf (conn_buf_size cb) (conn_buf_shm_key cb) mr
     (num_dgram_qps cb) (dgram_qp cb) (dgram_send_cq cb) (dgram_recv_cq cb) (dgram_buf cb)
     (dgram_buf_size cb) (dgram_buf_shm_key cb) (dgram_buf_mr cb) (cb_wc cb).

(** [while (reg_size < size) reg_size += K_128]. *)
Fixpoint round_loop (fuel : nat) (reg_size size : Z) : res Z :=
  if reg_size <? size then
    match fuel with
    | O => Fault Stuck
    | S fuel => round_loop fuel (s32 (reg_size + K_128)) size
    end
  else Ok reg_size.

(** [M_1024] holds 8192 times [K_128]. *)
Definition reg_size_of (size : Z) : res Z := round_loop (Z.to_nat 8193) 0 size.

(** ** Queue pair attributes *)
Definition ud_init_attr (dev_port : Z) : qp_attr :=
  QpAttr IBV_QPS_INIT 0 dev_port HRD_DEFAULT_QKEY 0 0 0 0 0 0 0 0 0 0 0 0 0.
Definition ud_rtr_attr : qp_attr :=
  QpAttr IBV_QPS_RTR 0 0 0 0 0 0 0 0 0 0 0 0 0 0 0 0.
Definition ud_rts_attr : qp_attr :=
  QpAttr IBV_QPS_RTS 0 0 0 0 0 0 0 0 0 HRD_DEFAULT_PSN 0 0 0 0 0 0.

Definition conn_init_attr (dev_port uc : Z) : qp_attr :=
  QpAttr IBV_QPS_INIT 0 dev_port 0
    (if uc =? 1 then IBV_ACCESS_REMOTE_WRITE
     else IBV_ACCESS_REMOTE_WRITE .| IBV_ACCESS_REMOTE_READ .| IBV_ACCESS_REMOTE_ATOMIC)
    0 0 0 0 0 0 0 0 0 0 0 0.
Definition conn_rtr_attr (dev_port uc qpn lid : Z) : qp_attr :=
  QpAttr IBV_QPS_RTR 0 0 0 0 IBV_MTU_1024 qpn HRD_DEFAULT_PSN lid dev_port 0
    (if uc =? 0 then 16 else 0) (if uc =? 0 then 12 else 0) 0 0 0 0.
Definition conn_rts_attr (uc : Z) : qp_attr :=
  QpAttr IBV_QPS_RTS 0 0 0 0 0 0 0 0 0 HRD_DEFAULT_PSN
    (if uc =? 0 then 16 else 0) 0 (if uc =? 0 then 14 else 0)
    (if uc =? 0 then 7 else 0) (if uc =? 0 then 7 else 0) (if uc =? 0 then 16 else 0).

Definition rtr_flags (uc : Z) : Z :=
  let f := IBV_QP_STATE .| IBV_QP_AV .| IBV_QP_PATH_MTU .| IBV_QP_DEST_QPN .| IBV_QP_RQ_PSN in
  if uc =? 0 then f .| (IBV_QP_MAX_DEST_RD_ATOMIC .| IBV_QP_MIN_RNR_TIMER) else f.
Definition rts_flags (uc : Z) : Z :=
  let f := IBV_QP_STATE .| IBV_QP_SQ_PSN in
  if uc =? 0 then f .| (IBV_QP_TIMEOUT .| IBV_QP_RETRY_CNT .| IBV_QP_RNR_RETRY
                        .| IBV_QP_MAX_QP_RD_ATOMIC) else f.

Section Create.
Context {W : Type} `{Verbs W}.

(** One iteration of [hrd_create_dgram_qps]: the two completion queues,
    the queue pair, and whether the loop goes on ([return] when the
    transition to INIT fails). *)
Definition create_dgram_one (cb : hrd_ctrl_blk) : eff W (Z * Z * Z * bool) :=
  let* scq := ibv_create_cq (cb_ctx cb) HRD_Q_DEPTH in
  eff_assert (negb (scq =? 0)) ;*
  let* rcq := ibv_create_cq (cb_ctx cb) HRD_Q_DEPTH in
  eff_assert (negb (rcq =? 0)) ;*
  let* qp := ibv_create_qp (cb_pd cb)
    (QpInitAttr scq rcq IBV_QPT_UD HRD_Q_DEPTH HRD_Q_DEPTH 1 1 HRD_MAX_INLINE) in
  eff_assert (negb (qp =? 0)) ;*
  let* rc := ibv_modify_qp qp (ud_init_attr (dev_port_id cb))
    (IBV_QP_STATE .| IBV_QP_PKEY_INDEX .| IBV_QP_PORT .| IBV_QP_QKEY) in
  if negb (rc =? 0) then eff_ret (scq, rcq, qp, false)
  else
    let* rc := ibv_modify_qp qp ud_rtr_attr IBV_QP_STATE in
    exit_if (negb (rc =? 0)) (-1) ;*
    let* rc := ibv_modify_qp qp ud_rts_attr (IBV_QP_STATE .| IBV_QP_SQ_PSN) in
    exit_if (negb (rc =? 0)) (-1) ;*
    eff_ret (scq, rcq, qp, true).

Fixpoint dgram_loop (n : nat) (cb : hrd_ctrl_blk) : eff W (list (Z * Z * Z)) :=
  match n with
  | O => eff_ret []
  | S n =>
      let* (x, go_on) := create_dgram_one cb in
      if go_on : bool then
        let* xs := dgram_loop n cb in
        eff_ret (x :: xs)
      else eff_ret [x]
  end.

Definition hrd_create_dgram_qps (cb : hrd_ctrl_blk) : eff W (list (Z * Z * Z)) :=
  eff_assert (negb (cb_pd cb =? 0) && negb (cb_ctx cb =? 0)) ;*
  eff_assert ((1 <=? num_dgram_qps cb) && (1 <=? dev_port_id cb)) ;*
  dgram_loop (Z.to_nat (num_dgram_qps cb)) cb.

Definition create_conn_one (cb : hrd_ctrl_blk) : eff W (Z * Z) :=
  let* cq := ibv_create_cq (cb_ctx cb) HRD_Q_DEPTH in
  eff_assert (negb (cq =? 0)) ;*
  let* qp := ibv_create_qp (cb_pd cb)
    (QpInitAttr cq cq (if use_uc cb =? 1 then IBV_QPT_UC else IBV_QPT_RC)
       HRD_Q_DEPTH 1 1 1 HRD_MAX_INLINE) in
  eff_assert (negb (qp =? 0)) ;*
  let* rc := ibv_modify_qp qp (conn_init_attr (dev_port_id cb) (use_uc cb))
    (IBV_QP_STATE .| IBV_QP_PKEY_INDEX .| IBV_QP_PORT .| IBV_QP_ACCESS_FLAGS) in
  exit_if (negb (rc =? 0)) (-1) ;*
  eff_ret (cq, qp).

Fixpoint conn_loop (n : nat) (cb : hrd_ctrl_blk) : eff W (list (Z * Z)) :=
  match n with
  | O => eff_ret []
  | S n =>
      let* x := create_conn_one cb in
      let* xs := conn_loop n cb in
      eff_ret (x :: xs)
  end.

Definition hrd_create_conn_qps (cb : hrd_ctrl_blk) : eff W (list (Z * Z)) :=
  eff_assert (negb (cb_pd cb =? 0) && negb (cb_ctx cb =? 0)) ;*
  eff_assert ((1 <=? num_conn_qps cb) && (1 <=? dev_port_id cb)) ;*
  conn_loop (Z.to_nat (num_conn_qps cb)) cb.

(** [qpn] and [lid] are the fields of [remote_qp_attr]. *)
Definition hrd_connect_qp (cb : hrd_ctrl_blk) (n qpn lid : Z) : eff W unit :=
  eff_assert ((0 <=? n) && (n <? num_conn_qps cb)) ;*
  match conn_qp cb !! Z.to_nat n with
  | None => eff_fault OutOfBounds
  | Some qp =>
      eff_assert (negb (qp =? 0)) ;*
      eff_assert (1 <=? dev_port_id cb) ;*
      let* rc := ibv_modify_qp qp (conn_rtr_attr (dev_port_id cb) (use_uc cb) qpn lid)
                   (rtr_flags (use_uc cb)) in
      eff_assert (rc =? 0) ;*
      let* rc := ibv_modify_qp qp (conn_rts_attr (use_uc cb)) (rts_flags (use_uc cb)) in
      eff_assert (rc =? 0)
  end.
End Create.

(** ** Control block *)
Section CtrlBlk.
Context {W : Type} `{Verbs W, Shm W}.

Definition ib_flags : Z :=
  IBV_ACCESS_LOCAL_WRITE .| IBV_ACCESS_REMOTE_READ .|
  IBV_ACCESS_REMOTE_WRITE .| IBV_ACCESS_REMOTE_ATOMIC.

(** A buffer of [size] bytes: hugepages on a NUMA node or heap memory. *)
Definition alloc_buf (numa shm_key size : Z) : eff W (Z * Z) :=
  if 0 <=? numa then
    let* reg_size := eff_lift (reg_size_of size) in
    eff_assert ((1 <=? shm_key) && (shm_key <=? 128)) ;*
    let* buf := hrd_malloc_socket shm_key reg_size numa in
    eff_ret (buf, reg_size)
  else
    let* buf := memalign 4096 size in
    eff_ret (buf, size).

Definition init_dgram (cb : hrd_ctrl_blk) : eff W hrd_ctrl_blk :=
  if 1 <=? num_dgram_qps cb then
    let* qs := hrd_create_dgram_qps cb in
    let* (buf, reg_size) := alloc_buf (numa_node_id cb) (dgram_buf_shm_key cb) (dgram_buf_size cb) in
    eff_assert (negb (buf =? 0)) ;*
    memset0 buf reg_size ;*
    let* mr := ibv_reg_mr (cb_pd cb) buf reg_size ib_flags in
    eff_assert (negb (mr =? 0)) ;*
    eff_ret (set_dgram cb (map (λ x, x.2) qs) (map (λ x, x.1.1) qs) (map (λ x, x.1.2) qs) buf mr)
  else eff_ret cb.

Definition init_conn (cb : hrd_ctrl_blk) (prealloc_conn_buf : Z) : eff W hrd_ctrl_blk :=
  if 1 <=? num_conn_qps cb then
    let* qs := hrd_create_conn_qps cb in
    if prealloc_conn_buf =? 0 then
      let* (buf, reg_size) := alloc_buf (numa_node_id cb) (conn_buf_shm_key cb) (conn_buf_size cb) in
      eff_assert ((0 <=? numa_node_id cb) || negb (buf =? 0)) ;*
      memset0 buf reg_size ;*
      let* mr := ibv_reg_mr (cb_pd cb) buf reg_size ib_flags in
      eff_assert (negb (mr =? 0)) ;*
      eff_ret (set_conn cb (map snd qs) (map fst qs) buf mr)
    else
      let* mr := ibv_reg_mr (cb_pd cb) prealloc_conn_buf (conn_buf_size cb) ib_flags in
      eff_assert (negb (mr =? 0)) ;*
      eff_ret (set_conn cb (map snd qs) (map fst qs) prealloc_conn_buf mr)
  else eff_ret cb.

Definition hrd_ctrl_blk_init (hid port numa nconn uc prealloc_conn_buf cbuf_size cbuf_key
    ndgram dbuf_size dbuf_key : Z) : eff W hrd_ctrl_blk :=
  eff_assert ((0 <=? port) && (port <=? 16)) ;*
  eff_assert ((-1 <=? numa) && (numa <=? 8)) ;*
  eff_assert (0 <=? nconn) ;*
  eff_assert ((uc =? 0) || (uc =? 1)) ;*
  eff_assert ((0 <=? cbuf_size) && (cbuf_size <=? M_1024)) ;*
  eff_assert ((prealloc_conn_buf =? 0) || (cbuf_key =? -1)) ;*
  eff_assert ((0 <=? ndgram) && (ndgram <=? M_2)) ;*
  eff_assert ((0 <=? dbuf_size) && (dbuf_size <=? M_1024)) ;*
  eff_assert (negb ((nconn =? 0) && (ndgram =? 0))) ;*
  let* (ib_dev, dev_id, dev_port) := hrd_resolve_port_index port in
  exit_if (ib_dev =? 0) 0 ;*
  let* ctx := ibv_open_device ib_dev in
  exit_if (ctx =? 0) 0 ;*
  let* pd := ibv_alloc_pd ctx in
  exit_if (pd =? 0) 0 ;*
  let cb := Cb hid ctx port dev_id dev_port numa pd uc nconn [] [] 0 cbuf_size cbuf_key 0
               ndgram [] [] [] 0 dbuf_size dbuf_key 0
               (replicate (Z.to_nat HRD_Q_DEPTH) (Wc 0 0 0 0)) in
  let* cb := init_dgram cb in
  init_conn cb prealloc_conn_buf.

(** Teardown: [None] for the early [return -1]. *)
Definition destroyed (rc : Z) (k : eff W Z) : eff W Z :=
  if negb (rc =? 0) then eff_ret (-1) else k.

Fixpoint destroy_dgram (l : list (Z * Z * Z)) (k : eff W Z) : eff W Z :=
  match l with
  | [] => k
  | (scq, rcq, qp) :: l =>
      eff_assert (negb (scq =? 0) && negb (rcq =? 0)) ;*
      eff_assert (negb (qp =? 0)) ;*
      let* rc := ibv_destroy_qp qp in
      destroyed rc (let* rc := ibv_destroy_cq scq in
      destroyed rc (let* rc := ibv_destroy_cq rcq in
      destroyed rc (destroy_dgram l k)))
  end.

Fixpoint destroy_conn (l : list (Z * Z)) (k : eff W Z) : eff W Z :=
  match l with
  | [] => k
  | (cq, qp) :: l =>
      eff_assert (negb (cq =? 0) && negb (qp =? 0)) ;*
      let* rc := ibv_destroy_qp qp in
      destroyed rc (let* rc := ibv_destroy_cq cq in
      destroyed rc (destroy_conn l k))
  end.

(** Memory region and buffer; a failure of [hrd_free] is only printed. *)
Definition destroy_buf (n numa mr buf key : Z) (k : eff W Z) : eff W Z :=
  if 0 <? n then
    let* rc := ibv_dereg_mr mr in
    destroyed rc
      ((if 0 <=? numa then hrd_free key buf ;* eff_ret tt else free buf) ;* k)
  else k.

Definition hrd_ctrl_blk_destroy (cb : hrd_ctrl_blk) : eff W Z :=
  eff_lift (in_bounds ((num_dgram_qps cb <=? Z.of_nat (length (dgram_qp cb))) &&
                       (num_conn_qps cb <=? Z.of_nat (length (conn_qp cb))))) ;*
  destroy_dgram (zip (zip (dgram_send_cq cb) (dgram_recv_cq cb)) (dgram_qp cb))
    (destroy_conn (zip (conn_cq cb) (conn_qp cb))
      (eff_assert ((num_dgram_qps cb <=? 0) || (negb (dgram_buf_mr cb =? 0) && negb (dgram_buf cb =? 0))) ;*
       destroy_buf (num_dgram_qps cb) (numa_node_id cb) (dgram_buf_mr cb) (dgram_buf cb)
         (dgram_buf_shm_key cb)
         (eff_assert ((num_conn_qps cb <=? 0) || negb (conn_buf_mr cb =? 0)) ;*
          destroy_buf (num_conn_qps cb) (numa_node_id cb) (conn_buf_mr cb) (conn_buf cb)
            (conn_buf_shm_key cb)
            (let* rc := ibv_dealloc_pd (cb_pd cb) in
             destroyed rc
               (let* rc := ibv_close_device (cb_ctx cb) in
                destroyed rc (eff_ret 0)))))).
End CtrlBlk.

(** ** Publication *)
Record hrd_qp_attr : Type := HrdQpAttr
  { at_name : list Z; at_buf_addr : Z; at_buf_size : Z; at_rkey : Z; at_lid : Z; at_qpn : Z }.
Definition sizeof_qp_attr : Z := 224.

(** The bytes of the structure; [junk] is what the stack held before. *)
Definition attr_bytes (junk : list Z) (name : string) (bufpart : list Z) (lid qpn : Z) : list Z :=
  let nm := bytes_of_string name ++ [0] in
  nm ++ drop (length nm) (take 200 junk) ++ bufpart ++
  le_bytes 4 (u32 lid) ++ le_bytes 4 (u32 qpn).

Definition attr_of_bytes (bs : list Z) : hrd_qp_attr :=
  let word (o n : nat) := le_word (take n (drop o bs)) in
  HrdQpAttr (c_str (take 200 bs)) (word 200 8)%nat (word 208 4)%nat (word 212 4)%nat
    (s32 (word 216 4)%nat) (s32 (word 220 4)%nat).

(** The checks on a name: length, reserved prefix, no spaces. *)
Fixpoint has_space (s : string) : bool :=
  match s with
  | EmptyString => false
  | String c s => (Ascii.nat_of_ascii c =? 32)%nat || has_space s
  end.

Section Publish.
Context {W : Type} `{Verbs W, Memc W}.

Definition check_qp_name (qp_name : string) : eff W unit :=
  eff_assert (strlen qp_name <? HRD_QP_NAME_SIZE - 1) ;*
  eff_assert (negb (strstr qp_name HRD_RESERVED_NAME_PREFIX)) ;*
  exit_if (has_space qp_name) (-1).

Definition hrd_publish_conn_qp (junk : list Z) (cb : hrd_ctrl_blk) (n : Z) (qp_name : string)
    : eff W unit :=
  eff_assert ((0 <=? n) && (n <? num_conn_qps cb)) ;*
  check_qp_name qp_name ;*
  match conn_qp cb !! Z.to_nat n with
  | None => eff_fault OutOfBounds
  | Some qp =>
      let* rkey := ibv_mr_rkey (conn_buf_mr cb) in
      let* lid := hrd_get_local_lid (cb_ctx cb) (dev_port_id cb) in
      let* qpn := ibv_qp_num qp in
      hrd_publish qp_name
        (attr_bytes junk qp_name
           (le_bytes 8 (conn_buf cb) ++ le_bytes 4 (u32 (conn_buf_size cb)) ++ le_bytes 4 (u32 rkey))
           lid qpn)
  end.

Definition hrd_publish_dgram_qp (junk : list Z) (cb : hrd_ctrl_blk) (n : Z) (qp_name : string)
    : eff W unit :=
  eff_assert ((0 <=? n) && (n <? num_dgram_qps cb)) ;*
  check_qp_name qp_name ;*
  match dgram_qp cb !! Z.to_nat n with
  | None => eff_fault OutOfBounds
  | Some qp =>
      let* lid := hrd_get_local_lid (cb_ctx cb) (dev_port_id cb) in
      let* qpn := ibv_qp_num qp in
      hrd_publish qp_name (attr_bytes junk qp_name (take 16 (drop 200 junk)) lid qpn)
  end.

(** [None] for NULL. *)
Definition hrd_get_published_qp (qp_name : string) : eff W (option (list Z)) :=
  check_qp_name qp_name ;*
  let* (ret_len, value) := hrd_get_published qp_name in
  eff_assert ((ret_len =? sizeof_qp_attr) || (ret_len =? -1)) ;*
  eff_ret value.
End Publish.

(** ** Lemmas *)
Definition ud_ready : qp_info := QpInfo IBV_QPT_UD IBV_QPS_RTS (0, 0).
Definition conn_type (uc : Z) : Z := if uc =? 1 then IBV_QPT_UC else IBV_QPT_RC.

Section CreateProof.
Context {W : Type} `{VerbsLaws W}.

(** [fresh_ext m m' ls i]: [m'] is [m] with new queue pairs [ls], all in
    state [i]. *)
Definition fresh_ext (m m' : gmap Z qp_info) (ls : list Z) (i : qp_info) : Prop :=
  NoDup ls ∧ (∀ q, q ∈ ls → q ≠ 0 ∧ m !! q = None ∧ m' !! q = Some i) ∧
  (∀ q, q ∉ ls → m' !! q = m !! q).

Lemma fresh_ext_nil m i : fresh_ext m m [] i.
Proof. split; [constructor|]. split; [|done]. intros q Hq. by apply elem_of_nil in Hq. Qed.

Lemma fresh_ext_size m m' ls i : fresh_ext m m' ls i → size m' = (size m + length ls)%nat.
Proof.
  intros (Hnd & Hin & Hout). rewrite <-!(size_dom (D := gset Z)), <-(size_list_to_set (C := gset Z) ls) by done.
  rewrite <-size_union.
  - f_equal. apply set_eq. intros q. rewrite elem_of_union, elem_of_list_to_set, !elem_of_dom.
    destruct (decide (q ∈ ls)) as [Hq|Hq]; [|rewrite Hout by done; tauto].
    destruct (Hin q Hq) as (_ & _ & ->). split; [by right|by eexists].
  - intros q Hq Hls. rewrite elem_of_list_to_set in Hls. apply elem_of_dom in Hq.
    destruct (Hin q Hls) as (_ & Hn & _). rewrite Hn in Hq. by destruct Hq.
Qed.

Lemma fresh_ext_cons m m1 m2 q ls i :
  q ≠ 0 → m !! q = None → m1 = <[q := i]> m → fresh_ext m1 m2 ls i →
  fresh_ext m m2 (q :: ls) i.
Proof.
  intros Hz Hq -> (Hnd & Hin & Hout).
  assert (Hnq : q ∉ ls).
  { intros Hls. destruct (Hin q Hls) as (_ & Hn & _). by rewrite lookup_insert_eq in Hn. }
  split; [by apply list.NoDup_cons|]. split.
  - intros q' [->|Hls]%elem_of_cons.
    + split; [done|]. split; [done|]. by rewrite Hout, lookup_insert_eq.
    + destruct (Hin q' Hls) as (? & Hn & ?). rewrite lookup_insert_ne in Hn; [done|].
      intros ->. done.
  - intros q' Hq'. apply not_elem_of_cons in Hq' as [Hne Hq']. rewrite Hout by done.
    by apply lookup_insert_ne.
Qed.

Lemma create_dgram_one_ok cb w : (size (qps w) < qp_limit)%nat →
  runs (create_dgram_one cb) w (λ r w', ∃ scq rcq q, r = (scq, rcq, q, true) ∧
    scq ≠ 0 ∧ rcq ≠ 0 ∧ q ≠ 0 ∧ qps w !! q = None ∧ qps w' = <[q := ud_ready]> (qps w)).
Proof.
  intros Hroom. unfold create_dgram_one.
  eapply runs_bind; [apply law_create_cq|]. intros scq w1 [Hs E1].
  apply runs_assert; [by apply negb_true_iff, Z.eqb_neq|].
  eapply runs_bind; [apply law_create_cq|]. intros rcq w2 [Hr E2].
  apply runs_assert; [by apply negb_true_iff, Z.eqb_neq|].
  eapply runs_bind; [apply law_create_qp; by rewrite E2, E1|]. intros q w3 (Hq & Hn & E3). cbn [ia_qp_type] in E3.
  apply runs_assert; [by apply negb_true_iff, Z.eqb_neq|].
  eapply runs_bind; [eapply law_modify; [rewrite E3; apply lookup_insert_eq|reflexivity|reflexivity]|].
  intros rc w4 [-> E4]. simpl negb. cbv iota.
  eapply runs_bind; [eapply law_modify; [rewrite E4; apply lookup_insert_eq|reflexivity|reflexivity]|].
  intros rc w5 [-> E5]. apply runs_exit_if; [done|].
  eapply runs_bind; [eapply law_modify; [rewrite E5; apply lookup_insert_eq|reflexivity|reflexivity]|].
  intros rc w6 [-> E6]. apply runs_exit_if; [done|]. apply runs_ret.
  exists scq, rcq, q. rewrite E2, E1 in *. do 5 (split; [done|]).
  rewrite E6, E5, E4, E3, !insert_insert_eq. done.
Qed.

Lemma dgram_loop_ok cb n : ∀ w, (size (qps w) + n ≤ qp_limit)%nat →
  runs (dgram_loop n cb) w (λ xs w', length xs = n ∧
    Forall (λ x, x.1.1 ≠ 0 ∧ x.1.2 ≠ 0) xs ∧
    fresh_ext (qps w) (qps w') (map snd xs) ud_ready).
Proof.
  induction n as [|n IH]; intros w Hroom; cbn [dgram_loop].
  { apply runs_ret. split; [done|]. split; [constructor|apply fresh_ext_nil]. }
  eapply runs_bind; [apply create_dgram_one_ok; lia|].
  cbv beta. intros [[[scq rcq] q] b] w1 (? & ? & ? & [= <- <- <- ->] & Hs & Hr & Hq & Hn & E).
  eapply runs_bind; [apply IH; rewrite E, map_size_insert_None by done; lia|]. cbv beta. intros xs w2 (Hl & Hf & Hx). apply runs_ret.
  split; [simpl; lia|]. split; [by constructor|]. simpl. by eapply fresh_ext_cons.
Qed.

Lemma create_conn_one_ok cb w : (size (qps w) < qp_limit)%nat →
  runs (create_conn_one cb) w (λ r w', ∃ cq q, r = (cq, q) ∧ cq ≠ 0 ∧ q ≠ 0 ∧ qps w !! q = None ∧
    qps w' = <[q := QpInfo (conn_type (use_uc cb)) IBV_QPS_INIT (0, 0)]> (qps w)).
Proof.
  intros Hroom. unfold create_conn_one.
  eapply runs_bind; [apply law_create_cq|]. intros cq w1 [Hs E1].
  apply runs_assert; [by apply negb_true_iff, Z.eqb_neq|].
  eapply runs_bind; [apply law_create_qp; by rewrite E1|]. intros q w2 (Hq & Hn & E2). cbn [ia_qp_type] in E2.
  apply runs_assert; [by apply negb_true_iff, Z.eqb_neq|].
  fold (conn_type (use_uc cb)) in E2.
  eapply runs_bind; [eapply law_modify; [rewrite E2; apply lookup_insert_eq| |]|].
  - unfold conn_type. destruct (use_uc cb =? 1); reflexivity.
  - reflexivity.
  - cbv beta. intros rc w3 [-> E3]. apply runs_exit_if; [done|]. apply runs_ret.
    exists cq, q. rewrite E1 in *. do 4 (split; [done|]). rewrite E3, E2, insert_insert_eq. done.
Qed.

Lemma conn_loop_ok cb n : ∀ w, (size (qps w) + n ≤ qp_limit)%nat →
  runs (conn_loop n cb) w (λ xs w', length xs = n ∧ Forall (λ x, x.1 ≠ 0) xs ∧
    fresh_ext (qps w) (qps w') (map snd xs) (QpInfo (conn_type (use_uc cb)) IBV_QPS_INIT (0, 0))).
Proof.
  induction n as [|n IH]; intros w Hroom; cbn [conn_loop].
  { apply runs_ret. split; [done|]. split; [constructor|apply fresh_ext_nil]. }
  eapply runs_bind; [apply create_conn_one_ok; lia|].
  cbv beta. intros [cq q] w1 (? & ? & [= <- <-] & Hs & Hq & Hn & E).
  eapply runs_bind; [apply IH; rewrite E, map_size_insert_None by done; lia|]. cbv beta. intros xs w2 (Hl & Hf & Hx). apply runs_ret.
  split; [simpl; lia|]. split; [by constructor|]. simpl. by eapply fresh_ext_cons.
Qed.

Lemma connect_ok cb n q qpn lid w d :
  conn_qp cb !! Z.to_nat n = Some q → 0 ≤ n < num_conn_qps cb → q ≠ 0 → 1 ≤ dev_port_id cb →
  (use_uc cb = 0 ∨ use_uc cb = 1) →
  qps w !! q = Some (QpInfo (conn_type (use_uc cb)) IBV_QPS_INIT d) →
  runs (hrd_connect_qp cb n qpn lid) w (λ _ w',
    qps w' = <[q := QpInfo (conn_type (use_uc cb)) IBV_QPS_RTS (qpn, lid)]> (qps w)).
Proof.
  intros Hq Hn Hz Hp Huc Hi. unfold hrd_connect_qp.
  apply runs_assert; [rewrite (proj2 (Z.leb_le _ _)), (proj2 (Z.ltb_lt _ _)); [done|lia..]|].
  rewrite Hq. apply runs_assert; [by apply negb_true_iff, Z.eqb_neq|].
  apply runs_assert; [by apply Z.leb_le|].
  destruct Huc as [E|E]; rewrite E in *;
    (eapply runs_bind; [eapply law_modify; [exact Hi|reflexivity|reflexivity]|];
     intros rc w1 [-> E1]; apply runs_assert; [done|];
     eapply runs_bind; [eapply law_modify; [rewrite E1; apply lookup_insert_eq|reflexivity|reflexivity]|];
     intros rc w2 [-> E2]; apply (runs_ret tt); rewrite E2, E1, insert_insert_eq; reflexivity).
Qed.
End CreateProof.

(** ** Buffer sizes *)
Lemma round_loop_ok fuel : ∀ r size,
  0 ≤ r → r mod K_128 = 0 → 0 ≤ size ≤ M_1024 → r < size + K_128 → size - r ≤ K_128 * Z.of_nat fuel →
  ∃ n, round_loop fuel r size = Ok n ∧ size ≤ n < Z.max (r + 1) (size + K_128) ∧ n mod K_128 = 0.
Proof.
  unfold K_128, M_1024. induction fuel as [|fuel IH]; intros r size Hr Hr8 Hs Hlt Hf; cbn [round_loop].
  - rewrite (proj2 (Z.ltb_ge _ _)) by lia. exists r. split; [done|]. split; [lia|done].
  - destruct (r <? size) eqn:E; [apply Z.ltb_lt in E|apply Z.ltb_ge in E; exists r; split; [done|]; split; [lia|done]].
    assert (Hs32 : s32 (r + K_128) = r + 131072).
    { unfold s32, K_128. rewrite Z.mod_small; lia. }
    rewrite Hs32. destruct (IH (r + 131072) size) as (n & Hn & Hb & Hm); [lia| |lia..|].
    + replace (r + 131072) with (r + 1 * 131072) by lia. by rewrite Z.mod_add.
    + exists n. split; [done|]. split; [lia|done].
Qed.

Lemma reg_size_ok size : 0 ≤ size ≤ M_1024 →
  ∃ n, reg_size_of size = Ok n ∧ size ≤ n < size + K_128 ∧ n mod K_128 = 0.
Proof.
  intros Hs. destruct (round_loop_ok (Z.to_nat 8193) 0 size) as (n & Hn & Hb & Hm);
    unfold K_128, M_1024 in *; try done; try lia.
  exists n. split; [done|]. split; [lia|done].
Qed.

Section InitProof.
Context {W : Type} `{HrdLaws W}.

Lemma alloc_buf_ok numa key size w :
  0 ≤ size ≤ M_1024 → (0 ≤ numa → 1 ≤ key ≤ 128) →
  runs (alloc_buf numa key size) w (λ r w', 0 < r.1 < 2 ^ 64 ∧ qps w' = qps w).
Proof.
  intros Hs Hk. unfold alloc_buf. destruct (0 <=? numa) eqn:E.
  - apply Z.leb_le in E. specialize (Hk E). destruct (reg_size_ok size Hs) as (n & -> & _).
    apply runs_lift_Ok. apply runs_assert; [rewrite !(proj2 (Z.leb_le _ _)); [done|lia..]|].
    unfold hrd_malloc_socket. eapply runs_bind.
    + eapply runs_bind; [apply law_shmget; lia|]. intros id w1 [Hid E1].
      apply runs_assert; [by apply negb_true_iff, Z.eqb_neq|].
      eapply runs_bind; [by apply law_shmat|]. intros a w2 [Ha E2].
      apply runs_exit_if; [apply Z.eqb_neq; lia|].
      eapply runs_bind; [apply law_mbind|]. intros rc w3 [-> E3].
      apply runs_exit_if; [done|]. apply (runs_ret _ _ (λ r w', 0 < r < 2 ^ 64 ∧ qps w' = qps w)).
      split; [done|congruence].
    + intros a w1 [Ha E1]. by apply runs_ret.
  - eapply runs_bind; [apply law_memalign|]. intros a w1 [Ha E1]. by apply runs_ret.
Qed.

Definition buf_args_ok (n numa key size : Z) : Prop :=
  0 ≤ size ≤ M_1024 ∧ (1 ≤ n → 0 ≤ numa → 1 ≤ key ≤ 128).

Lemma init_dgram_ok cb w :
  cb_pd cb ≠ 0 → cb_ctx cb ≠ 0 → 1 ≤ dev_port_id cb → 0 ≤ num_dgram_qps cb → dgram_qp cb = [] →
  buf_args_ok (num_dgram_qps cb) (numa_node_id cb) (dgram_buf_shm_key cb) (dgram_buf_size cb) →
  (size (qps w) + Z.to_nat (num_dgram_qps cb) ≤ qp_limit)%nat →
  runs (init_dgram cb) w (λ cb' w', ∃ qs sc rc buf mr, cb' = set_dgram cb qs sc rc buf mr ∧
    Z.of_nat (length qs) = num_dgram_qps cb ∧ fresh_ext (qps w) (qps w') qs ud_ready).
Proof.
  intros Hpd Hctx Hp Hn Hq [Hsz Hkey] Hroom. unfold init_dgram.
  destruct (1 <=? num_dgram_qps cb) eqn:E; [apply Z.leb_le in E|apply Z.leb_gt in E].
  - eapply runs_bind.
    { unfold hrd_create_dgram_qps.
      apply runs_assert; [by rewrite !(proj2 (Z.eqb_neq _ _))|].
      apply runs_assert; [rewrite !(proj2 (Z.leb_le _ _)); [done|lia..]|]. by apply dgram_loop_ok. }
    cbv beta. intros xs w1 (Hl & _ & Hx).
    eapply runs_bind; [apply alloc_buf_ok; auto|]. intros [buf rs] w2 [Hb E2].
    apply runs_assert; [apply negb_true_iff, Z.eqb_neq; simpl in Hb; lia|].
    eapply runs_bind; [apply law_memset|]. cbv beta. intros _ w3 E3.
    eapply runs_bind; [apply law_reg_mr|]. intros mr w4 [Hm E4].
    apply runs_assert; [by apply negb_true_iff, Z.eqb_neq|]. apply runs_ret.
    do 5 eexists. split; [reflexivity|]. rewrite length_map. split; [lia|].
    by rewrite E4, E3, E2.
  - apply runs_ret. exists (dgram_qp cb), (dgram_send_cq cb), (dgram_recv_cq cb), (dgram_buf cb), (dgram_buf_mr cb).
    split; [by destruct cb|]. rewrite Hq. split; [simpl; lia|]. apply fresh_ext_nil.
Qed.

Lemma init_conn_ok cb pre w :
  cb_pd cb ≠ 0 → cb_ctx cb ≠ 0 → 1 ≤ dev_port_id cb → 0 ≤ num_conn_qps cb → conn_qp cb = [] →
  (pre = 0 → buf_args_ok (num_conn_qps cb) (numa_node_id cb) (conn_buf_shm_key cb) (conn_buf_size cb)) →
  (size (qps w) + Z.to_nat (num_conn_qps cb) ≤ qp_limit)%nat →
  runs (init_conn cb pre) w (λ cb' w', ∃ qs cq buf mr, cb' = set_conn cb qs cq buf mr ∧
    Z.of_nat (length qs) = num_conn_qps cb ∧
    (1 ≤ num_conn_qps cb → if pre =? 0 then 0 < buf < 2 ^ 64 else buf = pre) ∧
    fresh_ext (qps w) (qps w') qs (QpInfo (conn_type (use_uc cb)) IBV_QPS_INIT (0, 0))).
Proof.
  intros Hpd Hctx Hp Hn Hq Hbuf Hroom. unfold init_conn.
  destruct (1 <=? num_conn_qps cb) eqn:E; [apply Z.leb_le in E|apply Z.leb_gt in E].
  - eapply runs_bind.
    { unfold hrd_create_conn_qps.
      apply runs_assert; [by rewrite !(proj2 (Z.eqb_neq _ _))|].
      apply runs_assert; [rewrite !(proj2 (Z.leb_le _ _)); [done|lia..]|]. by apply conn_loop_ok. }
    cbv beta. intros xs w1 (Hl & _ & Hx). destruct (pre =? 0) eqn:Epre.
    + apply Z.eqb_eq in Epre. destruct (Hbuf Epre) as [Hsz Hkey].
      eapply runs_bind; [apply alloc_buf_ok; auto|]. intros [buf rs] w2 [Hb E2].
      apply runs_assert; [rewrite orb_true_iff; right; apply negb_true_iff, Z.eqb_neq; simpl in Hb; lia|].
      eapply runs_bind; [apply law_memset|]. cbv beta. intros _ w3 E3.
      eapply runs_bind; [apply law_reg_mr|]. intros mr w4 [Hm E4].
      apply runs_assert; [by apply negb_true_iff, Z.eqb_neq|]. apply runs_ret.
      do 4 eexists. split; [reflexivity|]. rewrite length_map. split; [lia|]. split; [done|]. by rewrite E4, E3, E2.
    + eapply runs_bind; [apply law_reg_mr|]. intros mr w2 [Hm E2].
      apply runs_assert; [by apply negb_true_iff, Z.eqb_neq|]. apply runs_ret.
      do 4 eexists. split; [reflexivity|]. rewrite length_map. split; [lia|]. split; [done|]. by rewrite E2.
  - apply runs_ret. exists (conn_qp cb), (conn_cq cb), (conn_buf cb), (conn_buf_mr cb).
    split; [by destruct cb|]. rewrite Hq. split; [simpl; lia|]. split; [lia|]. apply fresh_ext_nil.
Qed.

Lemma enabled_from_pos ps : ∀ i p, 1 ≤ i → p ∈ enabled_from ps i → 1 ≤ p.
Proof.
  induction ps as [|x ps IH]; intros i p Hi Hp; [by apply elem_of_nil in Hp|]. simpl in Hp.
  apply elem_of_app in Hp as [Hp|Hp]; [|eapply IH; [|done]; lia].
  destruct (port_enabled x); [|by apply elem_of_nil in Hp].
  apply list_elem_of_singleton in Hp. lia.
Qed.

Lemma enabled_from_port ps : ∀ i p, p ∈ enabled_from ps (Z.of_nat i + 1) →
  ∃ j pa, p = Z.of_nat (i + j) + 1 ∧ ps !! j = Some pa.
Proof.
  induction ps as [|x ps IH]; intros i p Hp; [by apply elem_of_nil in Hp|]. simpl in Hp.
  apply elem_of_app in Hp as [Hp|Hp].
  - destruct (port_enabled x); [|by apply elem_of_nil in Hp].
    apply list_elem_of_singleton in Hp as ->. exists 0%nat, x. split; [lia|done].
  - replace (Z.of_nat i + 1 + 1) with (Z.of_nat (S i) + 1) in Hp by lia.
    destruct (IH _ _ Hp) as (j & pa & -> & Hj). exists (S j), pa. split; [lia|done].
Qed.

Lemma enabled_ports_port ds : ∀ k d di p, (d, di, p) ∈ enabled_ports ds k →
  ∃ i pa, p = Z.of_nat i + 1 ∧ dev_ports d !! i = Some pa.
Proof.
  induction ds as [|x ds IH]; intros k d di p Hp; [by apply elem_of_nil in Hp|]. simpl in Hp.
  apply elem_of_app in Hp as [Hp|Hp]; [|by eapply IH].
  apply list_elem_of_fmap in Hp as (p' & [= -> -> ->] & Hp').
  destruct (enabled_from_port (dev_ports x) 0 p') as (j & pa & -> & Hj); [done|]. by exists j, pa.
Qed.

Lemma enabled_ports_dev ds : ∀ i d di p, (d, di, p) ∈ enabled_ports ds i → d ∈ ds ∧ 1 ≤ p.
Proof.
  induction ds as [|x ds IH]; intros i d di p Hp; [by apply elem_of_nil in Hp|]. simpl in Hp.
  apply elem_of_app in Hp as [Hp|Hp].
  - apply list_elem_of_fmap in Hp as (p' & [= -> -> ->] & Hp'). split; [left|].
    eapply enabled_from_pos; [|done]. lia.
  - apply IH in Hp as [? ?]. split; [by right|done].
Qed.
End InitProof.

(** ** Teardown *)
Section DestroyProof.
Context {W : Type} `{HrdLaws W}.

Definition gone (m m' : gmap Z qp_info) (ls : list Z) : Prop :=
  ∀ q, m' !! q = if decide (q ∈ ls) then None else m !! q.

Lemma gone_cons m m1 m2 q ls : m1 = delete q m → gone m1 m2 ls → gone m m2 (q :: ls).
Proof.
  intros -> Hg q'. rewrite Hg. destruct (decide (q' ∈ ls)) as [Hin|Hin].
  - by rewrite decide_True by (by right).
  - destruct (decide (q' = q)) as [->|Hne].
    + by rewrite lookup_delete_eq, decide_True by left.
    + rewrite lookup_delete_ne, decide_False; [done| |done]. by apply not_elem_of_cons.
Qed.

Lemma gone_app m m1 m2 l1 l2 : gone m m1 l1 → gone m1 m2 l2 → gone m m2 (l1 ++ l2).
Proof.
  intros G1 G2 q. rewrite G2, G1. repeat case_decide; try done; set_solver.
Qed.

Lemma destroy_dgram_ok l : ∀ w k P,
  Forall (λ x, x.1.1 ≠ 0 ∧ x.1.2 ≠ 0 ∧ x.2 ≠ 0) l →
  (∀ w', gone (qps w) (qps w') (map snd l) → runs k w' P) →
  runs (destroy_dgram l k) w P.
Proof.
  induction l as [|[[scq rcq] q] l IH]; intros w k P Hf Hk; cbn [destroy_dgram].
  { apply Hk. intros q. by rewrite decide_False by (intros Hq; by apply elem_of_nil in Hq). }
  apply list.Forall_cons in Hf as [(Hs & Hr & Hq) Hf]. cbn [fst snd] in *.
  apply runs_assert; [by rewrite !(proj2 (Z.eqb_neq _ _))|].
  apply runs_assert; [by rewrite !(proj2 (Z.eqb_neq _ _))|].
  eapply runs_bind; [apply law_destroy_qp|]. intros rc w1 [-> E1]. unfold destroyed at 1. simpl negb. cbv iota.
  eapply runs_bind; [apply law_destroy_cq|]. intros rc w2 [-> E2]. unfold destroyed at 1. simpl negb. cbv iota.
  eapply runs_bind; [apply law_destroy_cq|]. intros rc w3 [-> E3]. unfold destroyed at 1. simpl negb. cbv iota.
  apply IH; [done|]. intros w4 Hg. apply Hk. simpl. eapply gone_cons; [|done]. congruence.
Qed.

Lemma destroy_conn_ok l : ∀ w k P,
  Forall (λ x, x.1 ≠ 0 ∧ x.2 ≠ 0) l →
  (∀ w', gone (qps w) (qps w') (map snd l) → runs k w' P) →
  runs (destroy_conn l k) w P.
Proof.
  induction l as [|[cq q] l IH]; intros w k P Hf Hk; cbn [destroy_conn].
  { apply Hk. intros q. by rewrite decide_False by (intros Hq; by apply elem_of_nil in Hq). }
  apply list.Forall_cons in Hf as [(Hs & Hq) Hf]. cbn [fst snd] in *.
  apply runs_assert; [by rewrite !(proj2 (Z.eqb_neq _ _))|].
  eapply runs_bind; [apply law_destroy_qp|]. intros rc w1 [-> E1]. unfold destroyed at 1. simpl negb. cbv iota.
  eapply runs_bind; [apply law_destroy_cq|]. intros rc w2 [-> E2]. unfold destroyed at 1. simpl negb. cbv iota.
  apply IH; [done|]. intros w3 Hg. apply Hk. simpl. eapply gone_cons; [|done]. congruence.
Qed.

Lemma hrd_free_ok key buf w : 0 < key → runs (hrd_free key buf) w (λ _ w', qps w' = qps w).
Proof.
  intros Hk. unfold hrd_free. eapply runs_bind; [by apply law_shmget|]. intros id w1 [Hid E1].
  rewrite (proj2 (Z.eqb_neq _ _)) by done.
  eapply runs_bind; [apply law_rmid|]. intros rc w2 [-> E2]. apply runs_exit_if; [done|].
  eapply runs_bind; [apply law_shmdt|]. intros rc w3 [-> E3]. apply runs_exit_if; [done|].
  apply runs_ret. congruence.
Qed.

Lemma destroy_buf_ok n numa mr buf key w k P :
  (0 < n → 0 ≤ numa → 0 < key) →
  (∀ w', qps w' = qps w → runs k w' P) → runs (destroy_buf n numa mr buf key k) w P.
Proof.
  intros Hkey Hk. unfold destroy_buf. destruct (0 <? n) eqn:E; [|by apply Hk]. apply Z.ltb_lt in E.
  eapply runs_bind; [apply law_dereg_mr|]. intros rc w1 [-> E1]. unfold destroyed. simpl negb. cbv iota.
  eapply (runs_bind _ _ _ (λ _ w', qps w' = qps w)); [|intros _ w2 E2; by apply Hk].
  destruct (0 <=? numa) eqn:En.
  - apply Z.leb_le in En. eapply runs_bind; [apply hrd_free_ok; auto|]. cbv beta. intros _ w2 E2.
    apply runs_ret. congruence.
  - eapply runs_mono; [apply law_free|]. cbv beta. intros _ w2 E2. congruence.
Qed.
End DestroyProof.

(** ** Examples *)
Definition demo_cb : hrd_ctrl_blk :=
  Cb 0 101 1 0 2 0 1 1 2 [] [] 0 4096 3 0 3 [] [] [] 0 4096 4 0 [].
Definition demo_cb_conn : hrd_ctrl_blk := set_conn demo_cb [5; 6] [1; 1] 4096 1.
Definition demo_world : SimWorld :=
  Sim 1 {[5 := QpInfo IBV_QPT_UC IBV_QPS_INIT (0, 0); 6 := QpInfo IBV_QPT_UC IBV_QPS_INIT (0, 0)]} ∅ ∅ ∅.

(** ** Properties *)

(** [hrd_create_dgram_qps] creates [num_dgram_qps] new queue pairs and
    takes each through INIT and RTR to RTS with the attribute masks that
    [ibv_modify_qp] requires for datagram queue pairs; queue pairs that
    existed before keep their state.  There must be room for them. *)
Theorem hrd_create_dgram_qps_rts {W : Type} `{VerbsLaws W} (cb : hrd_ctrl_blk) (w : W) :
  cb_pd cb ≠ 0 → cb_ctx cb ≠ 0 → 1 ≤ num_dgram_qps cb → 1 ≤ dev_port_id cb →
  (size (qps w) + Z.to_nat (num_dgram_qps cb) ≤ qp_limit)%nat →
  runs (hrd_create_dgram_qps cb) w (λ qs w',
    Z.of_nat (length qs) = num_dgram_qps cb ∧
    fresh_ext (qps w) (qps w') (map snd qs) (QpInfo IBV_QPT_UD IBV_QPS_RTS (0, 0))).
Proof.
  intros Hpd Hctx Hn Hp Hroom. unfold hrd_create_dgram_qps.
  apply runs_assert; [by rewrite !(proj2 (Z.eqb_neq _ _))|].
  apply runs_assert; [rewrite !(proj2 (Z.leb_le _ _)); [done|lia..]|].
  eapply runs_mono; [by apply dgram_loop_ok|]. cbv beta. intros xs w' (Hl & _ & Hx). split; [lia|done].
Qed.

Lemma hrd_create_dgram_qps_rts_witness :
  runs (hrd_create_dgram_qps demo_cb) sim0 (λ qs w',
    Z.of_nat (length qs) = 3 ∧
    fresh_ext (qps sim0) (qps w') (map snd qs) (QpInfo IBV_QPT_UD IBV_QPS_RTS (0, 0))).
Proof. apply (hrd_create_dgram_qps_rts demo_cb sim0); first [done|apply (bool_decide_unpack _); vm_compute; reflexivity]. Defined.

(** C8: [hrd_connect_qp] takes queue pair [n] of a control block from INIT
    through RTR to RTS, connected to the remote queue pair number and LID,
    for unreliable and for reliable connections; no other queue pair
    changes. *)
Theorem hrd_connect_qp_rts {W : Type} `{VerbsLaws W} (cb : hrd_ctrl_blk) (n q qpn lid : Z) (w : W) (d : Z * Z) :
  conn_qp cb !! Z.to_nat n = Some q → 0 ≤ n < num_conn_qps cb → q ≠ 0 → 1 ≤ dev_port_id cb →
  (use_uc cb = 0 ∨ use_uc cb = 1) →
  qps w !! q = Some (QpInfo (conn_type (use_uc cb)) IBV_QPS_INIT d) →
  runs (hrd_connect_qp cb n qpn lid) w (λ _ w',
    qps w' = <[q := QpInfo (conn_type (use_uc cb)) IBV_QPS_RTS (qpn, lid)]> (qps w)).
Proof. apply connect_ok. Qed.

Lemma hrd_connect_qp_rts_witness :
  runs (hrd_connect_qp demo_cb_conn 1 77 9) demo_world (λ _ w',
    qps w' = <[6 := QpInfo IBV_QPT_UC IBV_QPS_RTS (77, 9)]> (qps demo_world)).
Proof.
  apply (hrd_connect_qp_rts demo_cb_conn 1 6 77 9 demo_world (0, 0));
    [reflexivity|by vm_compute|done|by vm_compute|by right|reflexivity].
Defined.

(** What [hrd_ctrl_blk_init] makes of the world [w]: a control block for
    port [p] of device [d], with queue pairs that did not exist before. *)
Record cb_made {W : Type} `{HrdLaws W} (w w' : W) (cb : hrd_ctrl_blk) (nconn uc pre ndgram d di p : Z)
    : Prop := {
  cm_dev : device_id cb = di;
  cm_port : dev_port_id cb = p;
  cm_dlen : Z.of_nat (length (dgram_qp cb)) = ndgram;
  cm_clen : Z.of_nat (length (conn_qp cb)) = nconn;
  cm_dgram : ∀ q, q ∈ dgram_qp cb → qps w' !! q = Some (QpInfo IBV_QPT_UD IBV_QPS_RTS (0, 0));
  cm_conn : ∀ q, q ∈ conn_qp cb → qps w' !! q = Some (QpInfo (conn_type uc) IBV_QPS_INIT (0, 0));
  cm_args : cb_ctx cb = ctx_of d ∧ use_uc cb = uc ∧ num_conn_qps cb = nconn ∧ num_dgram_qps cb = ndgram;
  cm_buf : 1 ≤ nconn → if pre =? 0 then 0 < conn_buf cb < 2 ^ 64 else conn_buf cb = pre;
  cm_fresh : ∀ q, q ∈ conn_qp cb → q ≠ 0 ∧ qps w !! q = None;
  cm_nodup : NoDup (conn_qp cb);
  cm_size : size (qps w') = (size (qps w) + Z.to_nat nconn + Z.to_nat ndgram)%nat;
  cm_old : ∀ q, is_Some (qps w !! q) → qps w' !! q = qps w !! q
}.

Lemma ctrl_blk_init_ok {W : Type} `{HrdLaws W} (w : W)
    (hid port numa nconn uc pre cbuf_size cbuf_key ndgram dbuf_size dbuf_key d di p : Z) :
  0 ≤ port ≤ 16 → -1 ≤ numa ≤ 8 → 0 ≤ nconn → uc = 0 ∨ uc = 1 →
  (pre = 0 ∨ cbuf_key = -1) → 0 ≤ ndgram ≤ M_2 → 0 < nconn + ndgram →
  0 ≤ cbuf_size ≤ M_1024 →
  (pre = 0 → buf_args_ok nconn numa cbuf_key cbuf_size) →
  buf_args_ok ndgram numa dbuf_key dbuf_size →
  (∀ d, d ∈ devs → d ≠ 0 ∧ Z.of_nat (length (dev_ports d)) < 255) →
  enabled_ports devs 0 !! Z.to_nat port = Some (d, di, p) →
  (size (qps w) + Z.to_nat nconn + Z.to_nat ndgram ≤ qp_limit)%nat →
  runs (hrd_ctrl_blk_init hid port numa nconn uc pre cbuf_size cbuf_key ndgram dbuf_size dbuf_key) w
    (λ cb w', cb_made w w' cb nconn uc pre ndgram d di p ∧ conn_buf_size cb = cbuf_size).
Proof.
  intros Hport Hnuma Hnc Huc Hpre Hnd Hsum Hcs Hcb Hdb Hdevs Hen Hroom. unfold hrd_ctrl_blk_init.
  assert (Hdb' := Hdb). destruct Hdb' as [Hds _].
  destruct (enabled_ports_dev devs 0 d di p) as [Hd Hp]; [by eapply list_elem_of_lookup_2|].
  destruct (Hdevs d Hd) as [Hd0 _].
  do 9 (apply runs_assert; [repeat (rewrite ?andb_true_iff, ?orb_true_iff, ?negb_true_iff,
    ?andb_false_iff, ?Z.leb_le, ?Z.eqb_eq, ?Z.eqb_neq); lia|]).
  eapply runs_bind.
  { assert (Hds' : ∀ d, d ∈ devs → d ∈ devs ∧ Z.of_nat (length (dev_ports d)) < 255)
      by (intros d' Hd'; split; [done|apply (Hdevs d' Hd')]).
    unfold hrd_resolve_port_index. apply runs_assert; [apply Z.leb_le; lia|].
    eapply runs_bind; [apply law_list|]. cbv beta. intros l w1 [-> E1].
    eapply runs_bind; [apply (dev_loop_ok devs Hds' 0 port w1); lia|]. cbv beta. intros r w2 [-> E2].
    rewrite Hen. apply (runs_ret _ _ (λ r w', r = (d, di, p) ∧ qps w' = qps w)). split; [done|congruence]. }
  cbv beta. intros r w1 [-> E1]. cbv iota beta. apply runs_exit_if; [by apply Z.eqb_neq|].
  destruct (law_open w1 d Hd) as [Hctx Hopen].
  eapply runs_bind; [exact Hopen|]. cbv beta. intros c w2 [-> E2]. apply runs_exit_if; [by apply Z.eqb_neq|].
  eapply runs_bind; [apply law_alloc_pd|]. cbv beta. intros pd w3 [Hpd E3]. apply runs_exit_if; [by apply Z.eqb_neq|].
  cbv zeta. eapply runs_bind; [apply init_dgram_ok; simpl; (done || rewrite ?E3, ?E2, ?E1; lia)|].
  cbv beta. intros cb1 w4 (qs & sc & rc & buf & mr & -> & Hl1 & Hf1). rewrite E3, E2, E1 in Hf1.
  pose proof (fresh_ext_size _ _ _ _ Hf1) as Sz1. simpl in Hl1.
  eapply runs_mono; [apply init_conn_ok; simpl; (done || lia)|].
  cbv beta. intros cb2 w5 (qs2 & cq & buf2 & mr2 & -> & Hl2 & Hb2 & Hf2). pose proof (fresh_ext_size _ _ _ _ Hf2) as Sz2. simpl in *.
  destruct Hf1 as (_ & Hin1 & Hout1), Hf2 as (Hnd2 & Hin2 & Hout2).
  assert (Hold : ∀ q, is_Some (qps w !! q) → qps w4 !! q = qps w !! q).
  { intros q Hs. apply Hout1. intros Hq. destruct (Hin1 q Hq) as (_ & Hn & _). rewrite Hn in Hs. by destruct Hs. }
  assert (Hnew2 : ∀ q, is_Some (qps w4 !! q) → qps w5 !! q = qps w4 !! q).
  { intros q Hs. apply Hout2. intros Hq. destruct (Hin2 q Hq) as (_ & Hn & _). rewrite Hn in Hs. by destruct Hs. }
  split; [constructor; simpl|done]; try done.
  - intros q Hq. destruct (Hin1 q Hq) as (_ & _ & Hi). rewrite Hnew2 by (by rewrite Hi). done.
  - intros q Hq. by destruct (Hin2 q Hq) as (_ & _ & ?).
  - intros q Hq. destruct (Hin2 q Hq) as (Hq0 & Hn & _). split; [done|].
    destruct (qps w !! q) eqn:E; [|done]. rewrite Hold in Hn; [by rewrite E in Hn|by rewrite E].
  - lia.
  - intros q Hs. rewrite Hnew2; rewrite Hold by done; done.
Qed.

(** With legal arguments, a port index that names an enabled port and
    the resources available, [hrd_ctrl_blk_init] returns a control block
    for that port whose datagram queue pairs are all in RTS and whose
    connected queue pairs are all in INIT, as many as were asked for. *)
Theorem hrd_ctrl_blk_init_ready {W : Type} `{HrdLaws W} (w : W)
    (hid port numa nconn uc pre cbuf_size cbuf_key ndgram dbuf_size dbuf_key d di p : Z) :
  0 ≤ port ≤ 16 → -1 ≤ numa ≤ 8 → 0 ≤ nconn → uc = 0 ∨ uc = 1 →
  (pre = 0 ∨ cbuf_key = -1) → 0 ≤ ndgram ≤ M_2 → 0 < nconn + ndgram →
  0 ≤ cbuf_size ≤ M_1024 →
  (pre = 0 → buf_args_ok nconn numa cbuf_key cbuf_size) →
  buf_args_ok ndgram numa dbuf_key dbuf_size →
  (∀ d, d ∈ devs → d ≠ 0 ∧ Z.of_nat (length (dev_ports d)) < 255) →
  enabled_ports devs 0 !! Z.to_nat port = Some (d, di, p) →
  (size (qps w) + Z.to_nat nconn + Z.to_nat ndgram ≤ qp_limit)%nat →
  runs (hrd_ctrl_blk_init hid port numa nconn uc pre cbuf_size cbuf_key ndgram dbuf_size dbuf_key) w
    (λ cb w', device_id cb = di ∧ dev_port_id cb = p ∧
      Z.of_nat (length (dgram_qp cb)) = ndgram ∧ Z.of_nat (length (conn_qp cb)) = nconn ∧
      (∀ q, q ∈ dgram_qp cb → qps w' !! q = Some (QpInfo IBV_QPT_UD IBV_QPS_RTS (0, 0))) ∧
      (∀ q, q ∈ conn_qp cb → qps w' !! q = Some (QpInfo (conn_type uc) IBV_QPS_INIT (0, 0)))).
Proof.
  intros. eapply runs_mono; [apply (ctrl_blk_init_ok w hid port numa nconn uc pre cbuf_size cbuf_key ndgram
    dbuf_size dbuf_key d di p); assumption|]. cbv beta. intros cb w' [[] _]. done.
Qed.

Lemma hrd_ctrl_blk_init_ready_witness :
  runs (hrd_ctrl_blk_init 0 1 0 2 1 0 4096 3 1 100 4) sim0
    (λ cb w', device_id cb = 1 ∧ dev_port_id cb = 1 ∧
      Z.of_nat (length (dgram_qp cb)) = 1 ∧ Z.of_nat (length (conn_qp cb)) = 2 ∧
      (∀ q, q ∈ dgram_qp cb → qps w' !! q = Some (QpInfo IBV_QPT_UD IBV_QPS_RTS (0, 0))) ∧
      (∀ q, q ∈ conn_qp cb → qps w' !! q = Some (QpInfo (conn_type 1) IBV_QPS_INIT (0, 0)))).
Proof.
  apply (hrd_ctrl_blk_init_ready sim0 0 1 0 2 1 0 4096 3 1 100 4 2 1 1);
    unfold buf_args_ok, M_1024, M_2; try lia; try reflexivity;
    [|apply (bool_decide_unpack _); vm_compute; reflexivity].
  intros d Hd. simpl in Hd. unfold sim_devs in Hd.
  rewrite !elem_of_cons, elem_of_nil in Hd. simpl. unfold sim_ports.
  destruct Hd as [->|[->|[]]]; by vm_compute.
Defined.

(** [hrd_ctrl_blk_destroy] of a complete control block returns 0, and
    exactly the block's queue pairs are gone. *)
Theorem hrd_ctrl_blk_destroy_ok {W : Type} `{HrdLaws W} (cb : hrd_ctrl_blk) (w : W) :
  Z.of_nat (length (dgram_qp cb)) = num_dgram_qps cb → Z.of_nat (length (conn_qp cb)) = num_conn_qps cb →
  length (dgram_send_cq cb) = length (dgram_qp cb) → length (dgram_recv_cq cb) = length (dgram_qp cb) →
  length (conn_cq cb) = length (conn_qp cb) →
  Forall (λ x, x ≠ 0) (dgram_qp cb ++ dgram_send_cq cb ++ dgram_recv_cq cb ++ conn_qp cb ++ conn_cq cb) →
  (0 < num_dgram_qps cb → dgram_buf_mr cb ≠ 0 ∧ dgram_buf cb ≠ 0 ∧
     (0 ≤ numa_node_id cb → 0 < dgram_buf_shm_key cb)) →
  (0 < num_conn_qps cb → conn_buf_mr cb ≠ 0 ∧ (0 ≤ numa_node_id cb → 0 < conn_buf_shm_key cb)) →
  runs (hrd_ctrl_blk_destroy cb) w (λ r w', r = 0 ∧
    ∀ q, qps w' !! q = if decide (q ∈ dgram_qp cb ++ conn_qp cb) then None else qps w !! q).
Proof.
  intros Hd Hc Hs Hr Hq Hall Hdb Hcb. unfold hrd_ctrl_blk_destroy.
  rewrite !list.Forall_app in Hall. destruct Hall as (F1 & F2 & F3 & F4 & F5).
  apply runs_bounds; [rewrite !(proj2 (Z.leb_le _ _)); [done|lia..]|].
  apply destroy_dgram_ok.
  { apply list.Forall_forall. intros [[a b] c] Hin. apply elem_of_zip_l in Hin as Hin1.
    apply elem_of_zip_r in Hin as Hin2. apply elem_of_zip_l in Hin1 as Hin3.
    apply elem_of_zip_r in Hin1 as Hin4. simpl.
    rewrite list.Forall_forall in F1, F2, F3. split; [by apply F2|]. split; [by apply F3|by apply F1]. }
  intros w1 G1. apply destroy_conn_ok.
  { apply list.Forall_forall. intros [a b] Hin. apply elem_of_zip_l in Hin as Hin1.
    apply elem_of_zip_r in Hin as Hin2. rewrite list.Forall_forall in F4, F5. simpl. auto. }
  intros w2 G2.
  apply runs_assert.
  { apply orb_true_iff. destruct (decide (num_dgram_qps cb ≤ 0)) as [?|Hpos]; [left; by apply Z.leb_le|right].
    destruct Hdb as (? & ? & _); [lia|]. by rewrite !(proj2 (Z.eqb_neq _ _)). }
  apply destroy_buf_ok; [intros ?; by apply Hdb|]. intros w3 E3.
  apply runs_assert.
  { apply orb_true_iff. destruct (decide (num_conn_qps cb ≤ 0)) as [?|Hpos]; [left; by apply Z.leb_le|right].
    destruct Hcb as (? & _); [lia|]. by apply negb_true_iff, Z.eqb_neq. }
  apply destroy_buf_ok; [intros ?; by apply Hcb|]. intros w4 E4.
  eapply runs_bind; [apply law_dealloc_pd|]. cbv beta. intros rc w5 [-> E5]. unfold destroyed at 1. simpl negb. cbv iota.
  eapply runs_bind; [apply law_close_ctx|]. cbv beta. intros rc w6 [-> E6]. unfold destroyed at 1. simpl negb. cbv iota.
  apply runs_ret. split; [done|]. rewrite E6, E5, E4, E3.
  rewrite <-(snd_zip (zip (dgram_send_cq cb) (dgram_recv_cq cb)) (dgram_qp cb)) by (rewrite length_zip; lia).
  rewrite <-(snd_zip (conn_cq cb) (conn_qp cb)) by lia. by eapply gone_app.
Qed.

Definition demo_cb_full : hrd_ctrl_blk :=
  set_dgram demo_cb_conn [7; 8; 9] [1; 1; 1] [1; 1; 1] 8192 1.

Lemma hrd_ctrl_blk_destroy_ok_witness :
  runs (hrd_ctrl_blk_destroy demo_cb_full) demo_world (λ r w', r = 0 ∧
    ∀ q, qps w' !! q = if decide (q ∈ dgram_qp demo_cb_full ++ conn_qp demo_cb_full)
                       then None else qps demo_world !! q).
Proof.
  apply (hrd_ctrl_blk_destroy_ok demo_cb_full demo_world); try (by vm_compute).
  repeat constructor; done.
Defined.

(** A failing transition to INIT is reported but not handled: when the
    device rejects it, [hrd_create_dgram_qps] returns normally with the
    remaining entries of its arrays never written, and the caller goes on
    with three queue pairs of which one exists, in RESET. *)
Theorem hrd_create_dgram_init_failure :
  let bad := Build_Verbs SimWorld ibv_get_device_list ibv_open_device ibv_query_device
    ibv_query_port ibv_close_device ibv_alloc_pd ibv_dealloc_pd ibv_create_cq ibv_destroy_cq
    ibv_create_qp ibv_destroy_qp (λ _ _ _, eff_ret 22) ibv_reg_mr ibv_dereg_mr ibv_qp_num
    ibv_mr_rkey ibv_poll_cq in
  num_dgram_qps demo_cb = 3 ∧
  runs (@hrd_create_dgram_qps SimWorld bad demo_cb) sim0 (λ qs w',
    map snd qs = [2] ∧ qps w' = {[2 := QpInfo IBV_QPT_UD IBV_QPS_RESET (0, 0)]}).
Proof. split; [done|]. by eexists _, _. Qed.

(** ** Publication of queue pairs *)
Lemma length_bytes_of_string s : length (bytes_of_string s) = String.length s.
Proof. unfold bytes_of_string. rewrite length_map. induction s; simpl; auto. Qed.

Lemma s32_u32 x : - 2 ^ 31 ≤ x < 2 ^ 31 → s32 (u32 x) = x.
Proof.
  intros Hx. unfold s32, u32. rewrite Zplus_mod_idemp_l, Z.mod_small by lia. lia.
Qed.

Section AttrBytes.
Context (junk : list Z) (name : string) (b : list Z) (lid qpn : Z).
Context (Hj : length junk = 224%nat) (Hn : strlen name < 199) (Hb : length b = 16%nat).

Definition name_part : list Z :=
  (bytes_of_string name ++ [0]) ++ drop (length (bytes_of_string name ++ [0])) (take 200 junk).

Lemma length_name_part : length name_part = 200%nat.
Proof using Hj Hn.
  clear Hb. unfold name_part, strlen in *. pose proof (length_bytes_of_string name).
  rewrite length_app, length_drop, length_take, Hj, !length_app. simpl. lia.
Qed.

Lemma attr_bytes_eq :
  attr_bytes junk name b lid qpn =
  name_part ++ b ++ le_bytes 4 (u32 lid) ++ le_bytes 4 (u32 qpn).
Proof using. unfold attr_bytes, name_part. by rewrite <-!app_assoc. Qed.

Lemma length_attr_bytes : length (attr_bytes junk name b lid qpn) = 224%nat.
Proof using Hb Hj Hn.
  rewrite attr_bytes_eq, !length_app, length_name_part, Hb, !length_le_bytes. done.
Qed.

Lemma attr_of_attr_bytes :
  - 2 ^ 31 ≤ lid < 2 ^ 31 → - 2 ^ 31 ≤ qpn < 2 ^ 31 →
  let a := attr_of_bytes (attr_bytes junk name b lid qpn) in
  at_buf_addr a = le_word (take 8 b) ∧ at_buf_size a = le_word (take 4 (drop 8 b)) ∧
  at_rkey a = le_word (drop 12 b) ∧ at_lid a = lid ∧ at_qpn a = qpn.
Proof using Hb Hj Hn.
  intros Hl Hq. unfold attr_of_bytes. cbn [at_buf_addr at_buf_size at_rkey at_lid at_qpn].
  rewrite attr_bytes_eq. pose proof length_name_part as Hnp.
  assert (Hdrop : ∀ k, drop (200 + k) (name_part ++ b ++ le_bytes 4 (u32 lid) ++ le_bytes 4 (u32 qpn))
    = drop k (b ++ le_bytes 4 (u32 lid) ++ le_bytes 4 (u32 qpn))).
  { intros k. by rewrite <-Hnp, drop_app_add. }
  pose proof (Hdrop 0%nat) as D0. pose proof (Hdrop 8%nat) as D8. pose proof (Hdrop 12%nat) as D12.
  pose proof (Hdrop 16%nat) as D16. pose proof (Hdrop 20%nat) as D20.
  cbn [Nat.add] in D0, D8, D12, D16, D20. rewrite D0, D8, D12, D16, D20.
  rewrite drop_0. set (X := le_bytes 4 (u32 lid) ++ le_bytes 4 (u32 qpn)).
  split; [by rewrite take_app_le by lia|].
  split; [by rewrite drop_app_le, take_app_le by (rewrite ?length_drop; lia)|].
  split; [by rewrite drop_app_le, take_app_length' by (rewrite ?length_drop; lia)|].
  subst X.
  pose proof (u32_range lid). pose proof (u32_range qpn).
  assert (Hw : ∀ x y, 0 ≤ x < 2 ^ 32 → le_word (take 4 (le_bytes 4 x ++ y)) = x).
  { intros x y Hx. rewrite take_app_length' by (by rewrite length_le_bytes).
    rewrite le_word_bytes. by apply Z.mod_small. }
  split.
  - rewrite drop_app_length', (Hw (u32 lid)) by done. by apply s32_u32.
  - change 20%nat with (16 + 4)%nat. rewrite <-drop_drop, drop_app_length' by done.
    rewrite drop_app_length' by (by rewrite length_le_bytes).
    rewrite <-(app_nil_r (le_bytes 4 (u32 qpn))), Hw by done. by apply s32_u32.
Qed.
End AttrBytes.

Section PublishProof.
Context {W : Type} `{HrdLaws W}.

Definition name_ok (s : string) : Prop :=
  strlen s < HRD_QP_NAME_SIZE - 1 ∧ strstr s HRD_RESERVED_NAME_PREFIX = false ∧ has_space s = false.

Lemma check_name_ok {B} s (k : eff W B) w P :
  name_ok s → runs k w P → runs (check_qp_name s ;* k) w P.
Proof.
  intros (Hl & Hs & Hsp) (b & w' & E & HP). exists b, w'. split; [|done].
  unfold check_qp_name, eff_bind, eff_assert, eff_lift, exit_if.
  rewrite (proj2 (Z.ltb_lt _ _)) by done. simpl. by rewrite Hs, Hsp.
Qed.

Lemma get_published_qp_ok s v w :
  name_ok s → registry w !! s = Some v → length v = 224%nat →
  runs (hrd_get_published_qp s) w (λ r w', r = Some v ∧ registry w' = registry w).
Proof.
  intros Hs Hv Hl. unfold hrd_get_published_qp. apply check_name_ok; [done|].
  eapply runs_bind; [apply get_published_ok|]. cbv beta. intros [n x] w' [Ereg E].
  rewrite Hv in E. injection E as -> ->. rewrite Hl. apply runs_assert; [done|]. by apply runs_ret.
Qed.

Lemma local_lid_ok d i p w :
  d ∈ devs → ctx_of d ≠ 0 → dev_ports d !! i = Some p →
  runs (hrd_get_local_lid (ctx_of d) (Z.of_nat i + 1)) w
    (λ r w', r = pa_lid p ∧ registry w' = registry w).
Proof.
  intros Hd Hc Hp. unfold hrd_get_local_lid.
  apply runs_assert; [rewrite (proj2 (Z.eqb_neq _ _)), (proj2 (Z.leb_le _ _)); [done|lia|done]|].
  eapply runs_bind; [by apply law_query_port_reg|]. cbv beta. intros [rc a] w' [[= -> ->] E].
  apply runs_assert; [done|]. by apply runs_ret.
Qed.

(** The published structure [v] decodes to these fields. *)
Definition attr_is (v : list Z) (addr size rkey lid qpn : Z) : Prop :=
  length v = 224%nat ∧ let a := attr_of_bytes v in
  at_buf_addr a = addr ∧ at_buf_size a = size ∧ at_rkey a = rkey ∧ at_lid a = lid ∧ at_qpn a = qpn.

Lemma publish_conn_ok junk cb n q d i p name w :
  length junk = 224%nat → 0 ≤ n < num_conn_qps cb → conn_qp cb !! Z.to_nat n = Some q →
  name_ok name → d ∈ devs → cb_ctx cb = ctx_of d → dev_port_id cb = Z.of_nat i + 1 →
  dev_ports d !! i = Some p → 0 ≤ conn_buf cb < 2 ^ 64 → 0 ≤ conn_buf_size cb < 2 ^ 31 →
  runs (hrd_publish_conn_qp junk cb n name) w (λ _ w', ∃ v, registry w' = <[name := v]> (registry w) ∧
    attr_is v (conn_buf cb) (conn_buf_size cb) (rkey_of (conn_buf_mr cb)) (pa_lid p) (qpn_of q)).
Proof.
  intros Hj Hn Hq Hname Hd Hctx Hport Hp Hbuf Hsz.
  destruct (law_open w d Hd) as [Hc0 _]. unfold hrd_publish_conn_qp.
  set (b := λ rk, le_bytes 8 (conn_buf cb) ++ le_bytes 4 (u32 (conn_buf_size cb)) ++ le_bytes 4 (u32 rk)).
  assert (Hb : ∀ rk, length (b rk) = 16%nat).
  { intros rk. subst b. cbv beta. by rewrite !length_app, !length_le_bytes. }
  assert (Hstr : strlen name < 199) by apply Hname.
  apply runs_assert; [rewrite (proj2 (Z.leb_le _ _)), (proj2 (Z.ltb_lt _ _)); [done|lia..]|].
  apply check_name_ok; [done|]. rewrite Hq.
  eapply runs_bind; [apply law_rkey|]. cbv beta. intros rk w1 (-> & E1 & _).
  rewrite Hctx, Hport. eapply runs_bind; [by apply local_lid_ok|]. cbv beta. intros lid w2 [-> E2].
  eapply runs_bind; [apply law_qp_num|]. cbv beta. intros qn w3 (-> & E3 & _).
  eapply runs_mono; [apply publish_ok; rewrite length_attr_bytes; [lia|done|done|apply Hb]|].
  cbv beta. intros _ w4 ->.
  exists (attr_bytes junk name (b (rkey_of (conn_buf_mr cb))) (pa_lid p) (qpn_of q)).
  split; [by rewrite E3, E2, E1|].
  pose proof (law_qpn_range q). pose proof (law_rkey_range (conn_buf_mr cb)).
  pose proof (law_lid_range d p Hd (list_elem_of_lookup_2 _ _ _ Hp)).
  split; [by apply length_attr_bytes|]. cbv zeta.
  destruct (attr_of_attr_bytes junk name (b (rkey_of (conn_buf_mr cb))) (pa_lid p) (qpn_of q))
    as (-> & -> & -> & -> & ->); try done; try lia.
  subst b. cbv beta.
  rewrite take_app_length' by (by rewrite length_le_bytes).
  rewrite drop_app_length' by (by rewrite length_le_bytes).
  rewrite take_app_length' by (by rewrite length_le_bytes).
  replace 12%nat with (8 + 4)%nat by lia.
  rewrite <-drop_drop, drop_app_length' by (by rewrite length_le_bytes).
  rewrite drop_app_length' by (by rewrite length_le_bytes).
  rewrite !le_word_bytes. change (8 * Z.of_nat 8) with 64. change (8 * Z.of_nat 4) with 32.
  unfold u32. rewrite !Z.mod_mod by lia. rewrite !Z.mod_small by lia. done.
Qed.

Lemma publish_dgram_ok junk cb n q d i p name w :
  length junk = 224%nat → 0 ≤ n < num_dgram_qps cb → dgram_qp cb !! Z.to_nat n = Some q →
  name_ok name → d ∈ devs → cb_ctx cb = ctx_of d → dev_port_id cb = Z.of_nat i + 1 →
  dev_ports d !! i = Some p →
  runs (hrd_publish_dgram_qp junk cb n name) w (λ _ w', ∃ v, registry w' = <[name := v]> (registry w) ∧
    length v = 224%nat ∧ at_lid (attr_of_bytes v) = pa_lid p ∧ at_qpn (attr_of_bytes v) = qpn_of q).
Proof.
  intros Hj Hn Hq Hname Hd Hctx Hport Hp.
  destruct (law_open w d Hd) as [Hc0 _]. unfold hrd_publish_dgram_qp.
  assert (Hb : length (take 16 (drop 200 junk)) = 16%nat) by (rewrite length_take, length_drop; lia).
  assert (Hstr : strlen name < 199) by apply Hname.
  apply runs_assert; [rewrite (proj2 (Z.leb_le _ _)), (proj2 (Z.ltb_lt _ _)); [done|lia..]|].
  apply check_name_ok; [done|]. rewrite Hq, Hctx, Hport.
  eapply runs_bind; [by apply local_lid_ok|]. cbv beta. intros lid w2 [-> E2].
  eapply runs_bind; [apply law_qp_num|]. cbv beta. intros qn w3 (-> & E3 & _).
  eapply runs_mono; [apply publish_ok; rewrite length_attr_bytes; [lia|done..]|].
  cbv beta. intros _ w4 ->. eexists. split; [by rewrite E3, E2|].
  pose proof (law_qpn_range q). pose proof (law_lid_range d p Hd (list_elem_of_lookup_2 _ _ _ Hp)).
  split; [by apply length_attr_bytes|].
  destruct (attr_of_attr_bytes junk name (take 16 (drop 200 junk)) (pa_lid p) (qpn_of q))
    as (_ & _ & _ & -> & ->); try done; lia.
Qed.
End PublishProof.

(** What a server publishes about a connected queue pair is what a
    client reads back: buffer address, buffer size, remote key, LID and
    queue pair number survive the 224-byte structure in the registry,
    whatever the uninitialised bytes of the structure hold. *)
Theorem hrd_publish_conn_roundtrip {W : Type} `{HrdLaws W} (junk : list Z) (cb : hrd_ctrl_blk)
    (n q d : Z) (i : nat) (p : port_attr) (name : string) (w : W) :
  length junk = 224%nat → 0 ≤ n < num_conn_qps cb → conn_qp cb !! Z.to_nat n = Some q →
  name_ok name → d ∈ devs → cb_ctx cb = ctx_of d → dev_port_id cb = Z.of_nat i + 1 →
  dev_ports d !! i = Some p → 0 ≤ conn_buf cb < 2 ^ 64 → 0 ≤ conn_buf_size cb < 2 ^ 31 →
  runs (hrd_publish_conn_qp junk cb n name ;* hrd_get_published_qp name) w (λ r _,
    ∃ bs, r = Some bs ∧ let a := attr_of_bytes bs in
    at_buf_addr a = conn_buf cb ∧ at_buf_size a = conn_buf_size cb ∧
    at_rkey a = rkey_of (conn_buf_mr cb) ∧ at_lid a = pa_lid p ∧ at_qpn a = qpn_of q).
Proof.
  intros Hj Hn Hq Hname Hd Hctx Hport Hp Hbuf Hsz.
  eapply runs_bind; [by eapply publish_conn_ok|]. cbv beta. intros _ w1 (v & E & Hl & Hv).
  eapply runs_mono; [apply (get_published_qp_ok name v); [done|by rewrite E, lookup_insert_eq|done]|].
  cbv beta. intros r w2 [-> _]. by exists v.
Qed.

Lemma hrd_publish_conn_roundtrip_witness :
  runs (hrd_publish_conn_qp (replicate 224 255) demo_cb_conn 1 "server-0" ;*
        hrd_get_published_qp "server-0") demo_world (λ r _,
    ∃ bs, r = Some bs ∧ let a := attr_of_bytes bs in
    at_buf_addr a = 4096 ∧ at_buf_size a = 4096 ∧ at_rkey a = 1 ∧ at_lid a = 8 ∧ at_qpn a = 6).
Proof.
  eapply runs_mono.
  - apply (hrd_publish_conn_roundtrip (replicate 224 255) demo_cb_conn 1 6 1 1 (PortAttr 5 8)
             "server-0" demo_world); try (by vm_compute). left.
  - intros r w' Hr. exact Hr.
Defined.
