(* ===== verification/Signal.v ===== *)
(** * Selective signalling

    All senders of the repository leave most work requests unsignaled: the
    request number [n] of a send queue is signaled when
    [(n & UNSIG_BATCH_) == 0], and before request [n] with
    [(n & UNSIG_BATCH_) == UNSIG_BATCH_] one completion is polled.  Requests
    are queued in user space and posted in batches.

    The send queue itself belongs to the device.  What its documentation
    says of capacity is [sq_step]: the slots of a request and of all earlier
    ones are free again once a completion of it has been polled, a poll of a
    queue with no signaled request waits for ever, and a post of more
    requests than there are free slots fails. *)

From stdpp Require Import base list numbers.
From Stdlib Require Import ZArith Lia ZifyNat.
From S2P Require Import Prelude.

Local Ltac Zify.zify_post_hook ::= Z.to_euclidean_division_equations.

Definition UNSIG_BATCH : Z := 64.
Definition UNSIG_BATCH_ : Z := UNSIG_BATCH - 1.

(** ** The queue *)
Inductive sq_act : Type :=
| SqPoll
| SqPost (signaled : list bool).
#[global] Instance sq_act_eq_dec : EqDecision sq_act.
Proof. solve_decision. Defined.

Fixpoint release (out : list bool) : option (list bool) :=
  match out with
  | [] => None
  | true :: out => Some out
  | false :: out => release out
  end.

(** [out]: the requests that hold a slot, oldest first. *)
Definition sq_step (depth : nat) (out : list bool) (a : sq_act) : option (list bool) :=
  match a with
  | SqPoll => release out
  | SqPost fs =>
      if decide (length (out ++ fs) ≤ depth)%nat then Some (out ++ fs) else None
  end.

Fixpoint sq_run (depth : nat) (out : list bool) (acts : list sq_act) : option (list bool) :=
  match acts with
  | [] => Some out
  | a :: acts => sq_step depth out a ≫= λ out, sq_run depth out acts
  end.

(** ** The pattern of the senders *)
Definition is_signaled (nb_tx : Z) : bool := nb_tx .& UNSIG_BATCH_ =? 0.
Definition must_poll (nb_tx : Z) : bool := nb_tx .& UNSIG_BATCH_ =? UNSIG_BATCH_.

Definition queue_acts (nb_tx : Z) : list sq_act := if must_poll nb_tx then [SqPoll] else [].

(** Queueing [k] requests that start with number [n], then posting them. *)
Definition batch_queue (n k : nat) : list sq_act :=
  flat_map (λ i, queue_acts (Z.of_nat i)) (seq n k).
Definition batch_flags (n k : nat) : list bool :=
  map (λ i, is_signaled (Z.of_nat i)) (seq n k).
Definition batch_acts (n k : nat) : list sq_act :=
  batch_queue n k ++ (if decide (k = 0)%nat then [] else [SqPost (batch_flags n k)]).

Fixpoint schedule (n : nat) (ks : list nat) : list sq_act :=
  match ks with
  | [] => []
  | k :: ks => batch_acts n k ++ schedule (n + k) ks
  end.

(** ** The queue between batches *)

(** Number of the oldest request that holds a slot after [n] requests. *)
Definition oldest (n : nat) : nat :=
  if decide (n < 64)%nat then 0%nat else (64 * (n / 64 - 1) + 1)%nat.
Definition waiting (n : nat) : list bool := batch_flags (oldest n) (n - oldest n).

Lemma land_63 n : n .& UNSIG_BATCH_ = n mod 64.
Proof. change UNSIG_BATCH_ with (Z.ones 6). by apply Z.land_ones. Qed.

Lemma is_signaled_mod (i : nat) : is_signaled (Z.of_nat i) = true ↔ (i mod 64 = 0)%nat.
Proof. unfold is_signaled. rewrite land_63, Z.eqb_eq. lia. Qed.

Lemma must_poll_mod (i : nat) : must_poll (Z.of_nat i) = true ↔ (i mod 64 = 63)%nat.
Proof. unfold must_poll. rewrite land_63, Z.eqb_eq. change UNSIG_BATCH_ with 63. lia. Qed.

Lemma batch_flags_app n k j :
  batch_flags n (k + j) = batch_flags n k ++ batch_flags (n + k) j.
Proof. unfold batch_flags. by rewrite seq_app, map_app. Qed.

Lemma length_batch_flags n k : length (batch_flags n k) = k.
Proof. unfold batch_flags. by rewrite length_map, length_seq. Qed.

Lemma sq_run_app depth out a1 a2 :
  sq_run depth out (a1 ++ a2) = sq_run depth out a1 ≫= λ out, sq_run depth out a2.
Proof.
  revert out. induction a1 as [|a a1 IH]; intros out; [done|]. simpl.
  destruct (sq_step depth out a); simpl; [apply IH|done].
Qed.

(** Unsignaled requests are skipped by a release. *)
Lemma release_unsignaled n k : ∀ l,
  (∀ i, (n ≤ i < n + k)%nat → (i mod 64 ≠ 0)%nat) →
  release (batch_flags n k ++ l) = release l.
Proof.
  revert n. induction k as [|k IH]; intros n l Hn; [done|]. cbn.
  destruct (is_signaled (Z.of_nat n)) eqn:E.
  - apply is_signaled_mod in E. exfalso. apply (Hn n); [lia|done].
  - apply (IH (S n)). intros i Hi. apply Hn. lia.
Qed.

(** Polling at request [64 q + 63] gives the slots back of all requests up
    to the signaled one, [64 q], if that one was posted. *)
Lemma release_waiting q m :
  (64 * q < m ≤ 64 * q + 63)%nat →
  release (waiting m) = Some (batch_flags (64 * q + 1) (m - (64 * q + 1))).
Proof.
  intros Hm. unfold waiting.
  assert (Ho : (oldest m ≤ 64 * q)%nat ∧ ∀ i, (oldest m ≤ i < 64 * q)%nat → (i mod 64 ≠ 0)%nat).
  { unfold oldest. destruct (decide _); [split; [lia|intros i Hi; lia]|].
    assert (m / 64 = q)%nat as -> by lia. split; [lia|intros i Hi; lia]. }
  replace (m - oldest m)%nat with ((64 * q - oldest m) + (1 + (m - (64 * q + 1))))%nat by lia.
  rewrite batch_flags_app, release_unsignaled; [|intros; apply Ho; lia].
  replace (oldest m + (64 * q - oldest m))%nat with (64 * q)%nat by lia.
  rewrite batch_flags_app. cbn [batch_flags seq map app].
  rewrite (proj2 (is_signaled_mod (64 * q))) by lia. done.
Qed.

(** What a batch does to the slots before it is posted. *)
Lemma queue_batch depth n k : (k ≤ 63)%nat →
  sq_run depth (waiting n) (batch_queue n k) =
  Some (batch_flags (oldest (n + k)) (n - oldest (n + k))).
Proof.
  intros Hk. induction k as [|k IH].
  - rewrite Nat.add_0_r. done.
  - unfold batch_queue. rewrite seq_S, flat_map_app, sq_run_app.
    fold (batch_queue n k). rewrite IH by lia. cbn [mbind option_bind flat_map].
    rewrite app_nil_r. unfold queue_acts.
    destruct (must_poll (Z.of_nat (n + k))) eqn:E.
    + apply must_poll_mod in E. set (q := ((n + k) / 64)%nat).
      assert (Hold : oldest (n + k) = oldest n).
      { unfold oldest. do 2 destruct (decide _); lia. }
      rewrite Hold. change (batch_flags (oldest n) (n - oldest n)) with (waiting n).
      cbn [sq_run sq_step]. rewrite (release_waiting q n) by lia. cbn [mbind option_bind].
      replace (oldest (n + S k)) with (64 * q + 1)%nat; [done|].
      unfold oldest. destruct (decide _); lia.
    + cbn [sq_run]. do 2 f_equal.
      * unfold oldest. assert ((n + k) mod 64 ≠ 63)%nat
          by (intros Hm; apply must_poll_mod in Hm; congruence).
        do 2 destruct (decide _); lia.
      * assert ((n + k) mod 64 ≠ 63)%nat
          by (intros Hm; apply must_poll_mod in Hm; congruence).
        unfold oldest. do 2 destruct (decide _); lia.
Qed.

Lemma oldest_le n k : (k ≤ 63 → oldest (n + k) ≤ n)%nat.
Proof. intros. unfold oldest. destruct (decide _); lia. Qed.

Lemma waiting_bound n : (length (waiting n) ≤ 126)%nat.
Proof.
  unfold waiting. rewrite length_batch_flags. unfold oldest. destruct (decide _); lia.
Qed.

(** A batch of at most 63 requests: no wait for ever, no full queue. *)
Lemma batch_ok depth n k : (126 ≤ depth)%nat → (k ≤ 63)%nat →
  sq_run depth (waiting n) (batch_acts n k) = Some (waiting (n + k)).
Proof.
  intros Hd Hk. unfold batch_acts. rewrite sq_run_app, queue_batch by done.
  assert (Hw : batch_flags (oldest (n + k)) (n - oldest (n + k)) ++ batch_flags n k = waiting (n + k)).
  { unfold waiting. pose proof (oldest_le n k Hk).
    replace (n + k - oldest (n + k))%nat with ((n - oldest (n + k)) + k)%nat by lia.
    rewrite batch_flags_app. do 2 f_equal. lia. }
  cbn [mbind option_bind]. destruct (decide (k = 0)%nat) as [->|Hne]; cbn [sq_run].
  - rewrite <-Hw. cbn. by rewrite app_nil_r.
  - unfold sq_step. rewrite Hw. rewrite decide_True; [done|].
    pose proof (waiting_bound (n + k)). lia.
Qed.

Lemma schedule_ok depth ks : ∀ n, (126 ≤ depth)%nat → Forall (λ k, k ≤ 63)%nat ks →
  sq_run depth (waiting n) (schedule n ks) = Some (waiting (n + sum_list ks)).
Proof.
  induction ks as [|k ks IH]; intros n Hd Hks; cbn [schedule].
  - cbn. by rewrite Nat.add_0_r.
  - apply list.Forall_cons in Hks as [Hk Hks]. rewrite sq_run_app, batch_ok by done.
    cbn [mbind option_bind]. rewrite IH by done. do 2 f_equal. cbn. lia.
Qed.
