(* ===== verification/Herd.v ===== *)
(** * HERD: data path (src/herd/main.h, worker.c, client.c)

    Clients write requests with RDMA into the request region; workers poll
    it, run batches on their MICA instance and answer with datagrams.

    The verbs calls of the data path return nothing that the code uses
    (an error stops the process), so a step returns the calls it makes as a
    list of [act] and the device is not modelled here.  The request region
    is a map from indices of [struct mica_op] to their contents. *)

From stdpp Require Import base gmap list numbers.
From Stdlib Require Import ZArith Lia.
From S2P Require Import Prelude City Mica HrdUtil Signal.

Definition HERD_MICA_OFFSET : Z := 10.
Definition HERD_OP_GET : Z := MICA_OP_GET + HERD_MICA_OFFSET.
Definition HERD_OP_PUT : Z := MICA_OP_PUT + HERD_MICA_OFFSET.
Definition HERD_NUM_BKTS : Z := 2 * 1024 * 1024.
Definition HERD_LOG_CAP : Z := 1024 * 1024 * 1024.
Definition HERD_NUM_KEYS : Z := 8 * 1024 * 1024.
Definition HERD_VALUE_SIZE : Z := 32.
Definition HERD_GET_REQ_SIZE : Z := 16 + 1.
Definition HERD_PUT_REQ_SIZE : Z := 16 + 1 + 1 + HERD_VALUE_SIZE.
Definition MAX_SERVER_PORTS : Z := 4.
Definition NUM_WORKERS : Z := 12.
Definition NUM_CLIENTS : Z := 70.
Definition WINDOW_SIZE : Z := 32.
Definition NUM_UD_QPS : Z := 1.
Definition MASTER_SHM_KEY : Z := 24.
Definition RR_SIZE : Z := 16 * 1024 * 1024.
Definition sizeof_mica_op : Z := 64.
Definition OFFSET (wn cn ws : Z) : Z :=
  wn * NUM_CLIENTS * WINDOW_SIZE + cn * WINDOW_SIZE + ws.
Definition M_4 : Z := 4194304.
Definition K_512 : Z := 524288.

Definition IBV_WR_RDMA_WRITE : Z := 0.
Definition IBV_WR_SEND_WITH_IMM : Z := 3.
Definition IBV_SEND_SIGNALED : Z := 2.
Definition IBV_SEND_INLINE : Z := 8.

(** ** The request region *)
Definition op0 : mica_op := Op (Key 0 0) 0 0 (replicate 46 0).
Abbreviation region := (gmap Z mica_op).

Definition rr_get (rr : region) (off : Z) : res mica_op :=
  in_bounds ((0 <=? off) && (off <? RR_SIZE / sizeof_mica_op)) ;!
  Ok (default op0 (rr !! off)).

Definition set_opcode (op : mica_op) (c : Z) : mica_op :=
  Op (op_key op) c (op_val_len op) (op_value op).

(** ** Work requests *)

(** [next] is an index into the array of work requests, [sg_list] one into
    the array of scatter/gather entries. *)
Record send_wr : Type := SendWr
  { wr_next : option Z; wr_ah : Z; wr_remote_qpn : Z; wr_remote_qkey : Z; wr_opcode : Z;
    wr_num_sge : Z; wr_sg_list : Z; wr_imm_data : Z; wr_send_flags : Z }.
Definition wr0 : send_wr := SendWr None 0 0 0 0 0 0 0 0.
Definition set_next (w : send_wr) (n : option Z) : send_wr :=
  SendWr n (wr_ah w) (wr_remote_qpn w) (wr_remote_qkey w) (wr_opcode w) (wr_num_sge w)
    (wr_sg_list w) (wr_imm_data w) (wr_send_flags w).

(** Address (in the log of the store, [None] for NULL) and length. *)
Record sge : Type := Sge { sge_addr : option Z; sge_length : Z }.

(** The verbs calls of a worker: [hrd_poll_cq] of one completion on the send
    queue of a control block, and [ibv_post_send] of a list of work requests
    with the bytes that they gather. *)
Inductive act : Type :=
| APoll (cb_i ud_qp_i : Z)
| APost (cb_i ud_qp_i : Z) (wrs : list (send_wr * list Z)).

(** ** Worker *)
Record worker_cfg : Type := Cfg
  { wrkr_lid : Z; num_server_ports : Z; postlist : Z; ah : list Z; clt_qpn : list Z }.

(** The local variables of [run_worker]; [broke] tells that the polling loop
    was left by [break]. *)
Record worker : Type := Worker
  { kv : mica_kv; ws : list Z; cb_i : Z; clt_i : Z; poll_i : Z; broke : bool; wr_i : Z;
    nb_new_req : list Z; op_ptr_arr : list Z; wr : list send_wr; sgl : list sge;
    first_send_wr : list (option Z); last_send_wr : list (option Z);
    nb_tx : list (list Z); ud_qp_i : Z;
    rolling_iter : Z; nb_tx_tot : Z; nb_post_send : Z }.

(** [ws], [first_send_wr], [last_send_wr] and [nb_tx] are initialised in the
    source.  [op_ptr_arr], [wr] and [sgl] are not: an iteration writes the
    elements below [wr_i] before it reads them, and what the model puts into
    them is of no consequence. *)
Definition worker_init (k : mica_kv) : worker :=
  Worker k (replicate 70 0) (-1) (-1) 0 false 0 (replicate 4 0) (replicate 70 0)
    (replicate 70 wr0) (replicate 70 (Sge None 0)) (replicate 4 None) (replicate 4 None)
    (replicate 4 [0]) 0 0 0 0.

(** Start of an iteration of the outer loop. *)
Definition begin_iter (w : worker) : worker :=
  let reset := M_4 <=? rolling_iter w in
  Worker (kv w) (ws w) (cb_i w) (clt_i w) 0 false 0 (replicate 4 0) (op_ptr_arr w)
    (wr w) (sgl w) (first_send_wr w) (last_send_wr w) (nb_tx w) (ud_qp_i w)
    (if reset then 0 else rolling_iter w) (if reset then 0 else nb_tx_tot w)
    (if reset then 0 else nb_post_send w).

(** The two list heads and the work requests after linking [wr_i] in. *)
Definition link_wr (wrs : list send_wr) (first last : list (option Z)) (nb : list Z) (cb_i wr_i : Z)
    : res (list send_wr * list (option Z) * list (option Z)) :=
  let! n := arr_get nb cb_i in
  if n =? 0 then
    let! first := arr_set first cb_i (Some wr_i) in
    let! last := arr_set last cb_i (Some wr_i) in
    Ok (wrs, first, last)
  else
    let! l := arr_get last cb_i in
    match l with
    | None => Fault NullDeref
    | Some l =>
        let! x := arr_get wrs l in
        let! wrs := arr_set wrs l (set_next x (Some wr_i)) in
        let! last := arr_set last cb_i (Some wr_i) in
        Ok (wrs, first, last)
    end.

(** Array elements that the code reads and writes back. *)
Definition arr_upd {A} (l : list A) (i : Z) (f : A → A) : res (list A) :=
  let! a := arr_get l i in arr_set l i (f a).

(** [wr[wr_i]] after "Fill in the work request"; the [next] field stays. *)
Definition fill_wr (cfg : worker_cfg) (clt_i wr_i tx : Z) (old : send_wr) : res send_wr :=
  let! a := arr_get (ah cfg) clt_i in
  let! q := arr_get (clt_qpn cfg) clt_i in
  Ok (SendWr (wr_next old) a q HRD_DEFAULT_QKEY IBV_WR_SEND_WITH_IMM 1 wr_i (wrkr_lid cfg)
        ((if is_signaled tx then IBV_SEND_SIGNALED else 0) .| IBV_SEND_INLINE)).

(** One iteration of the polling loop. *)
Definition poll_step (cfg : worker_cfg) (w : worker) (rr : region)
    : res (worker * region * list act) :=
  let clt := HRD_MOD_ADD (clt_i w) NUM_CLIENTS in
  let cb := HRD_MOD_ADD (cb_i w) (num_server_ports cfg) in
  let! slot := arr_get (ws w) clt in
  let req_offset := OFFSET (wrkr_lid cfg) clt slot in
  let! op := rr_get rr req_offset in
  if op_opcode op <? HERD_OP_GET then
    Ok (Worker (kv w) (ws w) cb clt (poll_i w + 1) false (wr_i w) (nb_new_req w)
          (op_ptr_arr w) (wr w) (sgl w) (first_send_wr w) (last_send_wr w) (nb_tx w)
          (ud_qp_i w) (rolling_iter w) (nb_tx_tot w) (nb_post_send w), rr, [])
  else
    let rr := <[req_offset := set_opcode op (u8 (op_opcode op - HERD_MICA_OFFSET))]> rr in
    let! ptrs := arr_set (op_ptr_arr w) (wr_i w) req_offset in
    let! (wrs, first, last) :=
      link_wr (wr w) (first_send_wr w) (last_send_wr w) (nb_new_req w) cb (wr_i w) in
    let! txs := arr_get (nb_tx w) cb in
    let! tx := arr_get txs (ud_qp_i w) in
    let! old := arr_get wrs (wr_i w) in
    let! new := fill_wr cfg clt (wr_i w) tx old in
    let! wrs := arr_set wrs (wr_i w) new in
    let acts := if must_poll tx then [APoll cb (ud_qp_i w)] else [] in
    let! ws' := arr_set (ws w) clt (HRD_MOD_ADD slot WINDOW_SIZE) in
    let! txs' := arr_upd txs (ud_qp_i w) (λ n, n + 1) in
    let! nb_tx' := arr_set (nb_tx w) cb txs' in
    let! nb := arr_upd (nb_new_req w) cb (λ n, n + 1) in
    let wr_i' := wr_i w + 1 in
    let brk := wr_i' =? postlist cfg in
    Ok (Worker (kv w) ws' cb clt (if brk then poll_i w else poll_i w + 1) brk wr_i' nb
          ptrs wrs (sgl w) first last nb_tx' (ud_qp_i w)
          (rolling_iter w + 1) (nb_tx_tot w + 1) (nb_post_send w), rr, acts).

Definition polling (w : worker) : bool := negb (broke w) && (poll_i w <? NUM_CLIENTS).

(** The polling loop; [fuel] counts the iterations that are left. *)
Fixpoint poll_pass (fuel : nat) (cfg : worker_cfg) (w : worker) (rr : region)
    : res (worker * region * list act) :=
  if polling w then
    match fuel with
    | O => Fault Stuck
    | S fuel =>
        let! (w, rr, a1) := poll_step cfg w rr in
        let! (w, rr, a2) := poll_pass fuel cfg w rr in
        Ok (w, rr, a1 ++ a2)
    end
  else Ok (w, rr, []).

(** The requests that [op_ptr_arr] points to. *)
Fixpoint load_ops (rr : region) (ptrs : list Z) : res (list mica_op) :=
  match ptrs with
  | [] => Ok []
  | p :: ptrs =>
      let! op := rr_get rr p in
      let! ops := load_ops rr ptrs in
      Ok (op :: ops)
  end.

(** The loop that fills in the [val_ptr]s, from index [i] on. *)
Fixpoint fill_sgl (resps : list mica_resp) (i : Z) (l : list sge) : res (list sge) :=
  match resps with
  | [] => Ok l
  | r :: resps =>
      let! l := arr_set l i (Sge (resp_val_ptr r) (resp_val_len r)) in
      fill_sgl resps (i + 1) l
  end.

(** The inline data of a work request: the device gathers [length] bytes at
    [addr] while [ibv_post_send] runs. *)
Definition gather (k : mica_kv) (s : sge) : res (list Z) :=
  match sge_addr s with
  | None => if sge_length s =? 0 then Ok [] else Fault NullDeref
  | Some a => log_load k a (Z.to_nat (sge_length s))
  end.

(** The list that starts at [i], as the device walks it. *)
Fixpoint chain (fuel : nat) (k : mica_kv) (wrs : list send_wr) (l : list sge) (i : option Z)
    : res (list (send_wr * list Z)) :=
  match i with
  | None => Ok []
  | Some i =>
      match fuel with
      | O => Fault Stuck
      | S fuel =>
          let! x := arr_get wrs i in
          let! s := arr_get l (wr_sg_list x) in
          let! d := gather k s in
          let! xs := chain fuel k wrs l (wr_next x) in
          Ok ((x, d) :: xs)
      end
  end.

Definition set_wr (w : worker) (wrs : list send_wr) (posted : Z) : worker :=
  Worker (kv w) (ws w) (cb_i w) (clt_i w) (poll_i w) (broke w) (wr_i w)
    (nb_new_req w) (op_ptr_arr w) wrs (sgl w) (first_send_wr w) (last_send_wr w)
    (nb_tx w) (ud_qp_i w) (rolling_iter w) (nb_tx_tot w) posted.

(** The loop over the ports, [n] of them left, [i] the next one. *)
Fixpoint post_loop (n : nat) (w : worker) (i : Z) : res (worker * list act) :=
  match n with
  | O => Ok (w, [])
  | S n =>
      let! nb := arr_get (nb_new_req w) i in
      if nb =? 0 then post_loop n w (i + 1)
      else
        let! l := arr_get (last_send_wr w) i in
        match l with
        | None => Fault NullDeref
        | Some l =>
            let! wrs := arr_upd (wr w) l (λ x, set_next x None) in
            let! first := arr_get (first_send_wr w) i in
            let! ms := chain 70 (kv w) wrs (sgl w) first in
            let w := set_wr w wrs (nb_post_send w + 1) in
            let! (w', acts) := post_loop n w (i + 1) in
            Ok (w', APost i (ud_qp_i w) ms :: acts)
        end
  end.

Definition set_store (w : worker) (k : mica_kv) (l : list sge) : worker :=
  Worker k (ws w) (cb_i w) (clt_i w) (poll_i w) (broke w) (wr_i w)
    (nb_new_req w) (op_ptr_arr w) (wr w) l (first_send_wr w) (last_send_wr w)
    (nb_tx w) (ud_qp_i w) (rolling_iter w) (nb_tx_tot w) (nb_post_send w).

(** "Use a different UD QP for the next postlist". *)
Definition next_ud_qp (w : worker) : worker :=
  Worker (kv w) (ws w) (cb_i w) (clt_i w) (poll_i w) (broke w) (wr_i w)
    (nb_new_req w) (op_ptr_arr w) (wr w) (sgl w) (first_send_wr w) (last_send_wr w)
    (nb_tx w) (HRD_MOD_ADD (ud_qp_i w) NUM_UD_QPS) (rolling_iter w) (nb_tx_tot w)
    (nb_post_send w).

(** The rest of an iteration: run the batch and post the responses. *)
Definition flush (cfg : worker_cfg) (w : worker) (rr : region) : res (worker * list act) :=
  let! ops := load_ops rr (take (Z.to_nat (wr_i w)) (op_ptr_arr w)) in
  let! (k, resps) := mica_batch_op (kv w) ops in
  let! l := fill_sgl resps 0 (sgl w) in
  let w := set_store w k l in
  let! (w, acts) := post_loop (Z.to_nat (num_server_ports cfg)) w 0 in
  Ok (next_ud_qp w, acts).

(** One iteration of [while (1)]. *)
Definition worker_iter (cfg : worker_cfg) (w : worker) (rr : region)
    : res (worker * region * list act) :=
  let! (w, rr, a1) := poll_pass 70 cfg (begin_iter w) rr in
  let! (w, a2) := flush cfg w rr in
  Ok (w, rr, a1 ++ a2).

(** ** Client *)

(** The first loop of [get_random_permutation]. *)
Fixpoint skip_rand (n : nat) (seed : Z) : Z :=
  match n with
  | O => seed
  | S n => skip_rand n (hrd_fastrand seed).1
  end.

(** The shuffle: [i] counts down to 1. *)
Fixpoint shuffle (i : nat) (seed : Z) (log : list Z) : res (Z * list Z) :=
  match i with
  | O => Ok (seed, log)
  | S i' =>
      let '(seed, r) := hrd_fastrand seed in
      let j := r mod (Z.of_nat i + 1) in
      let! temp := arr_get log (Z.of_nat i) in
      let! x := arr_get log j in
      let! log := arr_set log (Z.of_nat i) x in
      let! log := arr_set log j temp in
      shuffle i' seed log
  end.

Definition get_random_permutation (n clt_gid seed : Z) : res (Z * list Z) :=
  cassert (0 <? n) ;!
  let seed := skip_rand (Z.to_nat (clt_gid * HERD_NUM_KEYS)) seed in
  let log := map Z.of_nat (seq 0 (Z.to_nat n)) in
  shuffle (Z.to_nat (n - 1)) seed log.

(** The verbs calls of a client. *)
Inductive clt_act : Type :=
| CPostRecv (n : Z)
| CPollRecv (n : Z)
| CPollSend
| CWrite (signaled : bool) (off len : Z) (req : mica_op).

Record client_cfg : Type := CltCfg
  { clt_gid : Z; update_percentage : Z; key_arr : list Z }.

Record client : Type := Client
  { c_seed : Z; c_ws : list Z; c_req_buf : mica_op; c_rolling_iter : Z; c_nb_tx : Z }.

Definition client_init (seed : Z) (junk : mica_op) : client :=
  Client seed (replicate 12 0) junk 0 0.

(** Does this iteration wait for the responses of the last window? *)
Definition window_full (c : client) : bool :=
  (c_nb_tx c mod WINDOW_SIZE =? 0) && (0 <? c_nb_tx c).

(** The forged request; the value is what the buffer held. *)
Definition forge (h : uint128) (is_update : bool) (old : mica_op) : mica_op :=
  Op (Key (first h) (second h)) (if is_update then HERD_OP_PUT else HERD_OP_GET)
     (u8 (if is_update then HERD_VALUE_SIZE else -1)) (op_value old).

(** One iteration of [while (1)]. [remote_addr] is given as the index of a
    [struct mica_op] in the region. *)
Definition client_iter (cfg : client_cfg) (c : client) : res (client * list clt_act) :=
  let rolling := if K_512 <=? c_rolling_iter c then 0 else c_rolling_iter c in
  let refill := if window_full c then [CPostRecv WINDOW_SIZE; CPollRecv WINDOW_SIZE] else [] in
  let '(seed, r) := hrd_fastrand (c_seed c) in
  let wn := r mod NUM_WORKERS in
  let '(seed, r) := hrd_fastrand seed in
  let is_update := r mod 100 <? u32 (update_percentage cfg) in
  let '(seed, r) := hrd_fastrand seed in
  let key_i := r mod HERD_NUM_KEYS in
  let! k := arr_get (key_arr cfg) key_i in
  let! h := CityHash128 (le_bytes 4 k) 0 4 in
  let req := forge h is_update (c_req_buf c) in
  let len := if is_update then HERD_PUT_REQ_SIZE else HERD_GET_REQ_SIZE in
  let poll := if must_poll (c_nb_tx c) then [CPollSend] else [] in
  let! slot := arr_get (c_ws c) wn in
  let write := CWrite (is_signaled (c_nb_tx c)) (OFFSET wn (clt_gid cfg) slot) len req in
  let! ws := arr_set (c_ws c) wn (HRD_MOD_ADD slot WINDOW_SIZE) in
  Ok (Client seed ws req (rolling + 1) (c_nb_tx c + 1), refill ++ poll ++ [write]).
