(* ===== verification/HerdProof.v ===== *)
(** * HERD worker: invariant of the polling loop and of the postlists

    [winv] describes the local variables of [run_worker] during a pass over
    the clients; [clts] is the list of clients whose requests are in the
    batch.  Each polling step keeps it, and posting turns the linked lists
    of work requests into the messages for exactly those clients. *)

From stdpp Require Import base gmap list numbers.
From Stdlib Require Import ZArith Lia.
From S2P Require Import Prelude City Mica HrdUtil Signal Herd.

(** ** Configurations that pass the assertions of [run_worker] *)
Record cfg_ok (cfg : worker_cfg) : Prop := {
  cfg_lid : 0 ≤ wrkr_lid cfg < NUM_WORKERS;
  cfg_ports : 1 ≤ num_server_ports cfg < MAX_SERVER_PORTS;
  cfg_div : NUM_CLIENTS mod num_server_ports cfg = 0;
  cfg_postlist : 1 ≤ postlist cfg ≤ MICA_MAX_BATCH_SIZE;
  cfg_ah : length (ah cfg) = 70%nat;
  cfg_qpn : length (clt_qpn cfg) = 70%nat
}.

(** ** The work requests of a port *)

(** Indices, from [i] on, of the clients of [clts] that port [p] serves. *)
Fixpoint idx_from (nsp p : Z) (clts : list Z) (i : nat) : list nat :=
  match clts with
  | [] => []
  | c :: clts => (if c mod nsp =? p then [i] else []) ++ idx_from nsp p clts (S i)
  end.
Definition idx (nsp p : Z) (clts : list Z) : list nat := idx_from nsp p clts 0.

Lemma idx_from_snoc nsp p clts c : ∀ i,
  idx_from nsp p (clts ++ [c]) i =
  idx_from nsp p clts i ++ (if c mod nsp =? p then [i + length clts]%nat else []).
Proof.
  induction clts as [|d clts IH]; intros i; simpl.
  - rewrite Nat.add_0_r. by rewrite app_nil_r.
  - rewrite IH, <-app_assoc. do 3 f_equal. case_match; [f_equal; lia|done].
Qed.

Lemma idx_snoc nsp p clts c :
  idx nsp p (clts ++ [c]) = idx nsp p clts ++ (if c mod nsp =? p then [length clts] else []).
Proof. apply idx_from_snoc. Qed.

Lemma idx_from_lookup nsp p clts j : ∀ i,
  j ∈ idx_from nsp p clts i ↔ (i ≤ j)%nat ∧ ∃ c, clts !! (j - i)%nat = Some c ∧ c mod nsp = p.
Proof.
  induction clts as [|d clts IH]; intros i; simpl.
  - rewrite elem_of_nil. split; [done|]. intros (_ & c & Hc & _). by rewrite lookup_nil in Hc.
  - rewrite elem_of_app, IH. split.
    + intros [Hj|(Hj & c & Hc & Hp)].
      * destruct (d mod nsp =? p) eqn:E; [|by apply elem_of_nil in Hj].
        apply list_elem_of_singleton in Hj as ->. apply Z.eqb_eq in E.
        split; [lia|]. exists d. by rewrite Nat.sub_diag.
      * split; [lia|]. exists c. replace (j - i)%nat with (S (j - S i)) by lia. done.
    + intros (Hj & c & Hc & Hp). destruct (decide (j = i)) as [->|Hne].
      * rewrite Nat.sub_diag in Hc. injection Hc as ->. left.
        rewrite (proj2 (Z.eqb_eq _ _) Hp). by apply list_elem_of_singleton.
      * right. split; [lia|]. exists c. replace (j - i)%nat with (S (j - S i)) in Hc by lia. done.
Qed.

Lemma elem_of_idx nsp p clts j :
  j ∈ idx nsp p clts ↔ ∃ c, clts !! j = Some c ∧ c mod nsp = p.
Proof.
  unfold idx. rewrite idx_from_lookup, Nat.sub_0_r. split; [by intros [_ ?]|].
  intros ?. split; [lia|done].
Qed.

Lemma idx_lt nsp p clts j : j ∈ idx nsp p clts → (j < length clts)%nat.
Proof. intros (c & Hc & _)%elem_of_idx. by apply lookup_lt_Some in Hc. Qed.

Lemma idx_length nsp p clts : (length (idx nsp p clts) ≤ length clts)%nat.
Proof.
  unfold idx. generalize 0%nat. induction clts as [|c clts IH]; intros i; simpl; [lia|].
  rewrite length_app. specialize (IH (S i)). destruct (c mod nsp =? p); simpl; lia.
Qed.

(** ** Linked lists *)
Definition links (wrs : list send_wr) (ix : list nat) : Prop :=
  ∀ j a b, ix !! j = Some a → ix !! S j = Some b →
    ∃ x, wrs !! a = Some x ∧ wr_next x = Some (Z.of_nat b).

(** Head and tail pointers of the list of port [p]. *)
Definition heads (first last : list (option Z)) (p : nat) (ix : list nat) : Prop :=
  ix ≠ [] → first !! p = Some (Z.of_nat <$> head ix) ∧ last !! p = Some (Z.of_nat <$> list.last ix).

Lemma links_insert wrs ix k x :
  k ∉ ix → links wrs ix → links (<[k := x]> wrs) ix.
Proof.
  intros Hk Hl j a b Ha Hb. destruct (Hl j a b Ha Hb) as (y & Hy & E).
  exists y. split; [|done]. rewrite list_lookup_insert_ne; [done|].
  intros ->. apply Hk. by eapply list_elem_of_lookup_2.
Qed.

Lemma links_snoc wrs ix l x k :
  list.last ix = Some l → wrs !! l = Some x → NoDup ix →
  links wrs ix → links (<[l := set_next x (Some (Z.of_nat k))]> wrs) (ix ++ [k]).
Proof.
  intros Hl Hx Hnd Hlk j a b Ha Hb. rewrite last_lookup in Hl.
  pose proof (lookup_lt_Some _ _ _ Hl) as Hlen.
  apply lookup_snoc_Some in Hb as [[Hj Hb]|[Hj <-]].
  - rewrite lookup_app_l in Ha by lia. destruct (Hlk j a b Ha Hb) as (y & Hy & E).
    exists y. split; [|done]. rewrite list_lookup_insert_ne; [done|].
    intros <-. pose proof (NoDup_lookup _ _ _ _ Hnd Ha Hl). lia.
  - rewrite lookup_app_l in Ha by lia. replace (pred (length ix)) with j in Hl by lia.
    rewrite Ha in Hl. injection Hl as ->. exists (set_next x (Some (Z.of_nat k))).
    split; [|done]. apply list_lookup_insert_eq. by eapply lookup_lt_Some.
Qed.

Lemma idx_from_lower nsp p clts : ∀ i, Forall (λ j, (i ≤ j)%nat) (idx_from nsp p clts i).
Proof.
  induction clts as [|c clts IH]; intros i; simpl; [constructor|].
  apply list.Forall_app. split.
  - case_match; [|constructor]. repeat constructor.
  - eapply Forall_impl; [|apply IH]. intros j. cbv beta. lia.
Qed.

Lemma idx_NoDup nsp p clts : NoDup (idx nsp p clts).
Proof.
  unfold idx. generalize 0%nat. induction clts as [|c clts IH]; intros i; simpl; [constructor|].
  case_match; simpl; [|apply IH]. constructor; [|apply IH].
  intros Hi. pose proof (idx_from_lower nsp p clts (S i)) as Hf.
  rewrite list.Forall_forall in Hf. specialize (Hf _ Hi). lia.
Qed.

(** ** The invariant *)

(** The work request number [k] of a batch, [tx] its number on its queue. *)
Definition wr_for (cfg : worker_cfg) (c tx : Z) (k : nat) (x : send_wr) : Prop :=
  ah cfg !! Z.to_nat c = Some (wr_ah x) ∧ clt_qpn cfg !! Z.to_nat c = Some (wr_remote_qpn x) ∧
  wr_remote_qkey x = HRD_DEFAULT_QKEY ∧ wr_opcode x = IBV_WR_SEND_WITH_IMM ∧
  wr_num_sge x = 1 ∧ wr_sg_list x = Z.of_nat k ∧ wr_imm_data x = wrkr_lid cfg ∧
  wr_send_flags x = ((if is_signaled tx then IBV_SEND_SIGNALED else 0) .| IBV_SEND_INLINE).

(** How many polls ago client [c] was polled last. *)
Definition ago (w : worker) (c : Z) : Z := (clt_i w - c) mod NUM_CLIENTS.

Record winv (cfg : worker_cfg) (tx0 : Z → Z) (clts : list Z) (w : worker) : Prop := {
  wi_ws : length (ws w) = 70%nat;
  wi_ws_range : Forall (λ s, 0 ≤ s < WINDOW_SIZE) (ws w);
  wi_pos : clt_i w = -1 ∧ cb_i w = -1 ∧ clts = [] ∨
           0 ≤ clt_i w < NUM_CLIENTS ∧ cb_i w = clt_i w mod num_server_ports cfg;
  wi_poll : 0 ≤ poll_i w ≤ NUM_CLIENTS;
  wi_wr_i : wr_i w = Z.of_nat (length clts);
  wi_post : Z.of_nat (length clts) ≤ postlist cfg;
  wi_broke : broke w = (Z.of_nat (length clts) =? postlist cfg);
  wi_nodup : NoDup clts;
  wi_recent : ∀ c, c ∈ clts → 0 ≤ c < NUM_CLIENTS ∧
                ago w c < poll_i w + (if broke w then 1 else 0);
  wi_ptrs : length (op_ptr_arr w) = 70%nat;
  wi_ptr : ∀ k c, clts !! k = Some c → ∃ s, 0 ≤ s < WINDOW_SIZE ∧
             op_ptr_arr w !! k = Some (OFFSET (wrkr_lid cfg) c s) ∧
             ws w !! Z.to_nat c = Some (HRD_MOD_ADD s WINDOW_SIZE);
  wi_wrs : length (wr w) = 70%nat;
  wi_wr : ∀ k c, clts !! k = Some c → ∃ x, wr w !! k = Some x ∧
            let p := c mod num_server_ports cfg in
            wr_for cfg c (tx0 p + Z.of_nat (length (idx (num_server_ports cfg) p (take k clts)))) k x;
  wi_sgl : length (sgl w) = 70%nat;
  wi_first : length (first_send_wr w) = 4%nat;
  wi_last : length (last_send_wr w) = 4%nat;
  wi_new : length (nb_new_req w) = 4%nat;
  wi_txs : length (nb_tx w) = 4%nat;
  wi_ud : ud_qp_i w = 0;
  wi_port : ∀ p, 0 ≤ p < num_server_ports cfg →
    let ix := idx (num_server_ports cfg) p clts in
    nb_new_req w !! Z.to_nat p = Some (Z.of_nat (length ix)) ∧
    nb_tx w !! Z.to_nat p = Some [tx0 p + Z.of_nat (length ix)] ∧
    heads (first_send_wr w) (last_send_wr w) (Z.to_nat p) ix ∧
    links (wr w) ix
}.

(** ** The cycling of [clt_i] and [cb_i] *)
Lemma mod_add_range x n : -1 ≤ x < n → 0 < n → 0 ≤ HRD_MOD_ADD x n < n.
Proof.
  intros Hx Hn. unfold HRD_MOD_ADD. cbv zeta. destruct (x + 1 =? n) eqn:E; [lia|].
  apply Z.eqb_neq in E. lia.
Qed.

Lemma mod_add_mod x n : 0 ≤ x < n → HRD_MOD_ADD x n = (x + 1) mod n.
Proof.
  intros Hx. unfold HRD_MOD_ADD. cbv zeta. destruct (x + 1 =? n) eqn:E.
  - apply Z.eqb_eq in E. rewrite E. by rewrite Z.mod_same by lia.
  - apply Z.eqb_neq in E. by rewrite Z.mod_small by lia.
Qed.

(** [cb_i == clt_i % num_server_ports], the assertion that is commented out. *)
Lemma cycle_ports nsp clt cb : 1 ≤ nsp → NUM_CLIENTS mod nsp = 0 →
  clt = -1 ∧ cb = -1 ∨ 0 ≤ clt < NUM_CLIENTS ∧ cb = clt mod nsp →
  let c := HRD_MOD_ADD clt NUM_CLIENTS in 0 ≤ c < NUM_CLIENTS ∧ HRD_MOD_ADD cb nsp = c mod nsp.
Proof.
  intros Hn Hd [(-> & ->)|[Hclt ->]]; cbv zeta.
  - split; [done|]. change (HRD_MOD_ADD (-1) NUM_CLIENTS) with 0. rewrite Z.mod_0_l by lia.
    unfold HRD_MOD_ADD. cbv zeta. by destruct (-1 + 1 =? _).
  - split; [apply mod_add_range; unfold NUM_CLIENTS in *; lia|].
    pose proof (Z.mod_pos_bound clt nsp ltac:(lia)).
    rewrite !mod_add_mod by lia. rewrite Zplus_mod_idemp_l.
    apply Z.mod_divide in Hd; [|lia].
    by rewrite Z.mod_mod_divide.
Qed.

Lemma cycle_cb cfg w tx0 clts : cfg_ok cfg → winv cfg tx0 clts w →
  let clt := HRD_MOD_ADD (clt_i w) NUM_CLIENTS in
  0 ≤ clt < NUM_CLIENTS ∧ HRD_MOD_ADD (cb_i w) (num_server_ports cfg) = clt mod num_server_ports cfg.
Proof.
  intros Hc Hw. apply cycle_ports; [apply (cfg_ports _ Hc)|apply (cfg_div _ Hc)|].
  destruct (wi_pos _ _ _ _ Hw) as [(? & ? & _)|?]; auto.
Qed.

(** ** Linking a work request *)
Lemma links_insert_last wrs ix k x :
  k ∉ ix → links wrs (ix ++ [k]) → links (<[k := x]> wrs) (ix ++ [k]).
Proof.
  intros Hk Hl j a b Ha Hb. destruct (Hl j a b Ha Hb) as (y & Hy & E).
  exists y. split; [|done]. rewrite list_lookup_insert_ne; [done|]. intros ->.
  pose proof (lookup_lt_Some _ _ _ Hb) as Hlt. rewrite length_app in Hlt. simpl in Hlt.
  rewrite lookup_app_l in Ha by lia. apply Hk. by eapply list_elem_of_lookup_2.
Qed.

Lemma wr_for_next cfg c tx k x n : wr_for cfg c tx k x → wr_for cfg c tx k (set_next x n).
Proof. done. Qed.

Lemma last_in {A} (l : list A) a : list.last l = Some a → a ∈ l.
Proof. intros H. rewrite last_lookup in H. by eapply list_elem_of_lookup_2. Qed.

Lemma link_wr_ok wrs first last nb (p k : nat) ix :
  nb !! p = Some (Z.of_nat (length ix)) → (p < length first)%nat → (p < length last)%nat →
  heads first last p ix → links wrs ix → NoDup ix → (∀ i, i ∈ ix → (i < length wrs)%nat) →
  ∃ wrs' first' last',
    link_wr wrs first last nb (Z.of_nat p) (Z.of_nat k) = Ok (wrs', first', last') ∧
    length wrs' = length wrs ∧ length first' = length first ∧ length last' = length last ∧
    (∀ q, q ≠ p → first' !! q = first !! q ∧ last' !! q = last !! q) ∧
    heads first' last' p (ix ++ [k]) ∧ links wrs' (ix ++ [k]) ∧
    (∀ ix', (∀ i, i ∈ ix → i ∉ ix') → links wrs ix' → links wrs' ix') ∧
    (∀ j x, wrs !! j = Some x → ∃ n, wrs' !! j = Some (set_next x n)).
Proof.
  intros Hnb Hf Hla Hh Hl Hnd Hin. unfold link_wr. rewrite (arr_get_Ok _ _ _ Hnb). cbn [res_bind].
  destruct ix as [|i0 ix0] eqn:Eix.
  - cbn [length Z.of_nat Z.eqb]. rewrite !arr_set_Ok by lia. cbn [res_bind]. rewrite Nat2Z.id.
    eexists wrs, _, _. split; [reflexivity|]. rewrite !length_insert.
    split; [done|]. split; [done|]. split; [done|]. split; [|split; [|split; [|split]]].
    + intros q Hq. by rewrite !list_lookup_insert_ne.
    + intros _. by rewrite !list_lookup_insert_eq.
    + intros j a b Ha Hb. by destruct j.
    + auto.
    + intros j x Hx. exists (wr_next x). by destruct x.
  - rewrite <-Eix in *. assert (Hne : ix ≠ []) by (by rewrite Eix).
    rewrite (proj2 (Z.eqb_neq _ _)) by (rewrite Eix; simpl; lia).
    destruct (Hh Hne) as [Hfp Hlp]. destruct (list.last ix) as [l|] eqn:El;
      [|by apply last_None in El].
    cbn [fmap option_fmap option_map] in Hlp. rewrite (arr_get_Ok _ _ _ Hlp). cbn [res_bind].
    pose proof (Hin l (last_in _ _ El)) as Hll.
    destruct (lookup_lt_is_Some_2 wrs l Hll) as [x Hx]. rewrite (arr_get_Ok _ _ _ Hx). cbn [res_bind].
    rewrite !arr_set_Ok by lia. cbn [res_bind]. rewrite !Nat2Z.id.
    eexists _, first, _. split; [reflexivity|]. rewrite !length_insert.
    split; [done|]. split; [done|]. split; [done|]. split; [|split; [|split; [|split]]].
    + intros q Hq. by rewrite list_lookup_insert_ne.
    + intros _. rewrite list_lookup_insert_eq by done. rewrite last_snoc. split; [|done].
      rewrite Hfp, Eix. done.
    + by eapply links_snoc.
    + intros ix' Hd Hl'. apply links_insert; [|done]. apply Hd. by apply last_in.
    + intros j y Hy. destruct (decide (j = l)) as [->|Hj].
      * rewrite list_lookup_insert_eq by done. rewrite Hx in Hy. injection Hy as ->. by eexists.
      * rewrite list_lookup_insert_ne by done. exists (wr_next y). rewrite Hy. by destruct y.
Qed.

(** ** The region *)
Lemma OFFSET_bounds wn cn s :
  0 ≤ wn < NUM_WORKERS → 0 ≤ cn < NUM_CLIENTS → 0 ≤ s < WINDOW_SIZE →
  0 ≤ OFFSET wn cn s < RR_SIZE / sizeof_mica_op.
Proof.
  unfold OFFSET, NUM_WORKERS, NUM_CLIENTS, WINDOW_SIZE. intros.
  change (RR_SIZE / sizeof_mica_op) with 262144. lia.
Qed.

Lemma OFFSET_inj wn cn s wn' cn' s' :
  0 ≤ cn < NUM_CLIENTS → 0 ≤ s < WINDOW_SIZE → 0 ≤ cn' < NUM_CLIENTS → 0 ≤ s' < WINDOW_SIZE →
  OFFSET wn cn s = OFFSET wn' cn' s' → wn = wn' ∧ cn = cn' ∧ s = s'.
Proof. unfold OFFSET, NUM_CLIENTS, WINDOW_SIZE. intros. lia. Qed.

Lemma rr_get_Ok rr off : 0 ≤ off < RR_SIZE / sizeof_mica_op → rr_get rr off = Ok (default op0 (rr !! off)).
Proof.
  intros H. unfold rr_get. by rewrite (proj2 (Z.leb_le _ _)), (proj2 (Z.ltb_lt _ _)) by lia.
Qed.

(** ** Recency *)
Lemma ago_step x c : 0 ≤ x < NUM_CLIENTS → 0 ≤ c < NUM_CLIENTS →
  (x - c) mod NUM_CLIENTS < 69 →
  (HRD_MOD_ADD x NUM_CLIENTS - c) mod NUM_CLIENTS = (x - c) mod NUM_CLIENTS + 1.
Proof.
  intros Hx Hc. rewrite mod_add_mod by done. rewrite Zminus_mod_idemp_l.
  unfold NUM_CLIENTS in *. lia.
Qed.

Lemma next_not_recent cfg tx0 clts w : winv cfg tx0 clts w → polling w = true →
  HRD_MOD_ADD (clt_i w) NUM_CLIENTS ∉ clts.
Proof.
  intros Hw Hp Hin. unfold polling in Hp. apply andb_true_iff in Hp as [Hb Hp].
  apply negb_true_iff in Hb. apply Z.ltb_lt in Hp.
  destruct (wi_pos _ _ _ _ Hw) as [(_ & _ & E)|[Hclt _]];
    [rewrite E in Hin; by apply elem_of_nil in Hin|].
  destruct (wi_recent _ _ _ _ Hw _ Hin) as [_ Ha]. rewrite Hb in Ha. unfold ago in Ha.
  rewrite mod_add_mod in Ha by done. rewrite Zminus_mod_idemp_r in Ha.
  replace (clt_i w - (clt_i w + 1)) with (-1) in Ha by lia.
  change (-1 mod NUM_CLIENTS) with 69 in Ha. unfold NUM_CLIENTS in *. lia.
Qed.

Lemma recent_step cfg tx0 clts w c : winv cfg tx0 clts w → polling w = true → c ∈ clts →
  0 ≤ c < NUM_CLIENTS ∧ (HRD_MOD_ADD (clt_i w) NUM_CLIENTS - c) mod NUM_CLIENTS < poll_i w + 1.
Proof.
  intros Hw Hp Hin. pose proof (next_not_recent _ _ _ _ Hw Hp) as Hn.
  unfold polling in Hp. apply andb_true_iff in Hp as [Hb Hp].
  apply negb_true_iff in Hb. apply Z.ltb_lt in Hp.
  destruct (wi_pos _ _ _ _ Hw) as [(_ & _ & E)|[Hclt _]];
    [rewrite E in Hin; by apply elem_of_nil in Hin|].
  destruct (wi_recent _ _ _ _ Hw _ Hin) as [Hc Ha]. rewrite Hb in Ha. unfold ago in Ha.
  split; [done|]. unfold NUM_CLIENTS in *. rewrite ago_step; unfold NUM_CLIENTS; lia.
Qed.

Lemma polling_inv cfg tx0 clts w : winv cfg tx0 clts w → polling w = true →
  broke w = false ∧ 0 ≤ poll_i w < NUM_CLIENTS ∧ Z.of_nat (length clts) < postlist cfg.
Proof.
  intros Hw Hp. unfold polling in Hp. apply andb_true_iff in Hp as [Hb Hp].
  apply negb_true_iff in Hb. apply Z.ltb_lt in Hp. pose proof (wi_broke _ _ _ _ Hw) as Hbr.
  rewrite Hb in Hbr. symmetry in Hbr. apply Z.eqb_neq in Hbr.
  pose proof (wi_post _ _ _ _ Hw). pose proof (wi_poll _ _ _ _ Hw). split; [done|lia].
Qed.

(** ** One polling step *)
Section PollStep.
Context (cfg : worker_cfg) (Hc : cfg_ok cfg) (tx0 : Z → Z) (clts : list Z) (w : worker).
Context (Hw : winv cfg tx0 clts w) (Hp : polling w = true) (rr : region).
Local Abbreviation c := (HRD_MOD_ADD (clt_i w) NUM_CLIENTS).
Local Abbreviation p := (c mod num_server_ports cfg).

Lemma poll_slot : ∃ s, ws w !! Z.to_nat c = Some s ∧ 0 ≤ s < WINDOW_SIZE ∧ 0 ≤ c < NUM_CLIENTS ∧
  arr_get (ws w) c = Ok s ∧
  rr_get rr (OFFSET (wrkr_lid cfg) c s) = Ok (default op0 (rr !! OFFSET (wrkr_lid cfg) c s)).
Proof using Hc Hw.
  destruct (cycle_cb _ _ _ _ Hc Hw) as [Hr _].
  destruct (arr_get_lt (ws w) c) as (s & Hs & Hl).
  { rewrite (wi_ws _ _ _ _ Hw). unfold NUM_CLIENTS in *. lia. }
  pose proof (Forall_lookup_1 _ _ _ _ (wi_ws_range _ _ _ _ Hw) Hl) as Hsr.
  exists s. split; [done|]. split; [done|]. split; [done|]. split; [done|].
  apply rr_get_Ok, OFFSET_bounds; auto. apply Hc.
Qed.

(** No request: the pass goes on with the next client. *)
Lemma poll_step_skip s :
  ws w !! Z.to_nat c = Some s →
  op_opcode (default op0 (rr !! OFFSET (wrkr_lid cfg) c s)) < HERD_OP_GET →
  ∃ w', poll_step cfg w rr = Ok (w', rr, []) ∧ winv cfg tx0 clts w' ∧
    clt_i w' = c ∧ ws w' = ws w ∧ kv w' = kv w ∧ op_ptr_arr w' = op_ptr_arr w.
Proof using Hc Hw Hp.
  intros Hs Hop. destruct poll_slot as (s' & Hs' & Hsr & Hcr & Hg & Hrr).
  assert (s' = s) as -> by congruence.
  destruct (cycle_cb _ _ _ _ Hc Hw) as [_ Hcb].
  destruct (polling_inv _ _ _ _ Hw Hp) as (Hbr & Hpi & Hlt).
  unfold poll_step. rewrite Hg. cbn [res_bind]. rewrite Hrr. cbn [res_bind].
  rewrite (proj2 (Z.ltb_lt _ _) Hop). eexists. split; [reflexivity|].
  split; [|done]. destruct Hw. constructor; try done; cbn.
  - right. rewrite <-Hcb. split; [done|congruence].
  - lia.
  - by rewrite (proj2 (Z.eqb_neq _ _)) by lia.
  - intros c' Hc'. destruct (recent_step _ _ _ _ _ Hw Hp Hc'). unfold ago. cbn. lia.
Qed.

Lemma port_range : 0 ≤ p < num_server_ports cfg.
Proof using Hc.
  pose proof (cfg_ports _ Hc). unfold MAX_SERVER_PORTS in *. apply Z.mod_pos_bound. lia.
Qed.

Lemma port_nat : Z.of_nat (Z.to_nat p) = p ∧ (Z.to_nat p < 4)%nat.
Proof using Hc.
  pose proof (cfg_ports _ Hc). pose proof port_range. unfold MAX_SERVER_PORTS in *. lia.
Qed.

Local Abbreviation ix := (idx (num_server_ports cfg) p clts).
Local Abbreviation tx := (tx0 p + Z.of_nat (length ix)).

(** What the step computes when it finds a request. *)
Lemma poll_step_eq s op :
  ws w !! Z.to_nat c = Some s → default op0 (rr !! OFFSET (wrkr_lid cfg) c s) = op →
  HERD_OP_GET ≤ op_opcode op →
  ∃ wrs first last x, 
    link_wr (wr w) (first_send_wr w) (last_send_wr w) (nb_new_req w) p
      (Z.of_nat (length clts)) = Ok (wrs, first, last) ∧
    wr_for cfg c tx (length clts) x ∧
    let brk := Z.of_nat (length clts) + 1 =? postlist cfg in
    poll_step cfg w rr = Ok (
      Worker (kv w) (<[Z.to_nat c := HRD_MOD_ADD s WINDOW_SIZE]> (ws w)) p c
        (if brk then poll_i w else poll_i w + 1) brk (Z.of_nat (length clts) + 1)
        (<[Z.to_nat p := Z.of_nat (length ix) + 1]> (nb_new_req w))
        (<[length clts := OFFSET (wrkr_lid cfg) c s]> (op_ptr_arr w))
        (<[length clts := x]> wrs) (sgl w) first last
        (<[Z.to_nat p := [tx + 1]]> (nb_tx w)) 0
        (rolling_iter w + 1) (nb_tx_tot w + 1) (nb_post_send w),
      <[OFFSET (wrkr_lid cfg) c s := set_opcode op (u8 (op_opcode op - HERD_MICA_OFFSET))]> rr,
      if must_poll tx then [APoll p 0] else []).
Proof using Hc Hw Hp.
  intros Hs <- Hop. destruct poll_slot as (s' & Hs' & Hsr & Hcr & Hg & Hrr).
  assert (s' = s) as -> by congruence.
  destruct (cycle_cb _ _ _ _ Hc Hw) as [_ Hcb].
  destruct (polling_inv _ _ _ _ Hw Hp) as (Hbr & Hpi & Hlt).
  pose proof (cfg_postlist _ Hc) as Hpl. unfold MICA_MAX_BATCH_SIZE in Hpl.
  assert (Hc70 : 0 ≤ c < 70) by exact Hcr.
  destruct (wi_port _ _ _ _ Hw p port_range) as (Hnb & Htx & Hhd & Hlk).
  destruct port_nat as [Hpn Hp4].
  destruct (link_wr_ok (wr w) (first_send_wr w) (last_send_wr w) (nb_new_req w) (Z.to_nat p)
    (length clts) ix) as (wrs & first & last & Hlink & Hlw & _); auto.
  { by rewrite (wi_first _ _ _ _ Hw). }
  { by rewrite (wi_last _ _ _ _ Hw). }
  { apply idx_NoDup. }
  { intros i Hi. apply idx_lt in Hi. rewrite (wi_wrs _ _ _ _ Hw). lia. }
  rewrite Hpn in Hlink. rewrite (wi_wrs _ _ _ _ Hw) in Hlw.
  destruct (arr_get_lt (ah cfg) c) as (a & Ha & Ha'); [rewrite (cfg_ah _ Hc); lia|].
  destruct (arr_get_lt (clt_qpn cfg) c) as (q & Hq & Hq'); [rewrite (cfg_qpn _ Hc); lia|].
  destruct (lookup_lt_is_Some_2 wrs (length clts)) as [old Hold]; [lia|].
  exists wrs, first, last, (SendWr (wr_next old) a q HRD_DEFAULT_QKEY IBV_WR_SEND_WITH_IMM 1
    (Z.of_nat (length clts)) (wrkr_lid cfg)
    ((if is_signaled tx then IBV_SEND_SIGNALED else 0) .| IBV_SEND_INLINE)).
  split; [exact Hlink|]. split; [|].
  2:{ cbv zeta. pose proof port_range as Hpr. unfold poll_step. rewrite Hg. cbn [res_bind]. rewrite Hrr. cbn [res_bind].
    rewrite (proj2 (Z.ltb_ge _ _)) by done. rewrite Hcb, (wi_wr_i _ _ _ _ Hw), (wi_ud _ _ _ _ Hw).
    rewrite arr_set_Ok by (rewrite (wi_ptrs _ _ _ _ Hw); lia). cbn [res_bind].
    rewrite Hlink. cbn [res_bind].
    rewrite (arr_get_Z _ _ _ (proj1 Hpr) Htx). cbn [res_bind].
    change (arr_get [tx] 0) with (Ok tx). cbn [res_bind].
    rewrite (arr_get_Ok _ _ _ Hold). cbn [res_bind].
    unfold fill_wr at 1. rewrite Ha. cbn [res_bind]. rewrite Hq. cbn [res_bind].
    rewrite arr_set_Ok by lia. cbn [res_bind].
    rewrite arr_set_Ok by (rewrite (wi_ws _ _ _ _ Hw); lia). cbn [res_bind].
    change (arr_upd [tx] 0 (λ n, n + 1)) with (Ok [tx + 1]). cbn [res_bind]. unfold arr_upd.
    rewrite arr_set_Ok by (rewrite (wi_txs _ _ _ _ Hw); lia). cbn [res_bind].
    rewrite (arr_get_Z _ _ _ (proj1 Hpr) Hnb). cbn [res_bind].
    rewrite arr_set_Ok by (rewrite (wi_new _ _ _ _ Hw); lia). cbn [res_bind].
    rewrite !Nat2Z.id. reflexivity. }
  repeat split; done.
Qed.

(** A request: it joins the batch. *)
Lemma poll_step_hit s op :
  ws w !! Z.to_nat c = Some s → default op0 (rr !! OFFSET (wrkr_lid cfg) c s) = op →
  HERD_OP_GET ≤ op_opcode op →
  ∃ w', poll_step cfg w rr = Ok (w',
      <[OFFSET (wrkr_lid cfg) c s := set_opcode op (u8 (op_opcode op - HERD_MICA_OFFSET))]> rr,
      (if must_poll tx then [APoll p 0] else [])) ∧
    winv cfg tx0 (clts ++ [c]) w' ∧ c ∉ clts ∧ clt_i w' = c ∧ kv w' = kv w ∧
    ws w' = <[Z.to_nat c := HRD_MOD_ADD s WINDOW_SIZE]> (ws w) ∧
    op_ptr_arr w' = <[length clts := OFFSET (wrkr_lid cfg) c s]> (op_ptr_arr w).
Proof using Hc Hw Hp.
  intros Hs Hrr Hop. destruct (poll_step_eq s op Hs Hrr Hop) as (wrs & first & last & x & Hlink & Hx & Hst).
  cbv zeta in Hst. eexists. split; [exact Hst|]. cbn [clt_i kv ws op_ptr_arr].
  pose proof (next_not_recent _ _ _ _ Hw Hp) as Hfresh.
  split; [|done]. destruct (polling_inv _ _ _ _ Hw Hp) as (Hbr & Hpi & Hlt).
  destruct (cycle_cb _ _ _ _ Hc Hw) as [Hcr _]. pose proof port_range as Hpr.
  destruct port_nat as [Hpn Hp4]. pose proof (cfg_postlist _ Hc) as Hpl. unfold MICA_MAX_BATCH_SIZE in Hpl.
  pose proof (Forall_lookup_1 _ _ _ _ (wi_ws_range _ _ _ _ Hw) Hs) as Hsr. cbv beta in Hsr.
  destruct (wi_port _ _ _ _ Hw p Hpr) as (Hnb & Htx & Hhd & Hlk).
  destruct (link_wr_ok (wr w) (first_send_wr w) (last_send_wr w) (nb_new_req w) (Z.to_nat p)
    (length clts) ix) as (wrs' & first' & last' & Hlink' & Hlw & Hlf & Hll & Hoth & Hhd' & Hlk' & Hlk2 & Hnx); auto.
  { by rewrite (wi_first _ _ _ _ Hw). }
  { by rewrite (wi_last _ _ _ _ Hw). }
  { apply idx_NoDup. }
  { intros i Hi. apply idx_lt in Hi. rewrite (wi_wrs _ _ _ _ Hw). lia. }
  rewrite Hpn, Hlink in Hlink'. injection Hlink' as <- <- <-.
  assert (Hidx : idx (num_server_ports cfg) p (clts ++ [c]) = ix ++ [length clts])
    by (rewrite idx_snoc, Z.eqb_refl; done).
  assert (Hidx' : ∀ q, q ≠ p → idx (num_server_ports cfg) q (clts ++ [c]) = idx (num_server_ports cfg) q clts).
  { intros q Hq. rewrite idx_snoc, (proj2 (Z.eqb_neq _ _)) by done. apply app_nil_r. }
  assert (Hout : ∀ q, length clts ∉ idx (num_server_ports cfg) q clts).
  { intros q Hq. apply idx_lt in Hq. lia. }
  pose proof Hw as Hw0. destruct Hw0. constructor; cbn; rewrite ?length_insert, ?length_app; cbn [length]; auto; try congruence; try lia.
  - apply Forall_insert; [done|]. pose proof (mod_add_range s WINDOW_SIZE ltac:(lia) ltac:(done)). lia.
  - destruct (_ =? postlist cfg); lia.
  - f_equal. lia.
  - apply list.NoDup_app. split; [done|]. split; [|apply NoDup_singleton].
    by intros y Hy ->%list_elem_of_singleton.
  - intros c' [Hc'| ->%list_elem_of_singleton]%elem_of_app; unfold ago; cbn.
    + destruct (recent_step _ _ _ _ _ Hw Hp Hc'). destruct (_ =? postlist cfg); lia.
    + rewrite Z.sub_diag. change (0 mod NUM_CLIENTS) with 0. destruct (_ =? postlist cfg); lia.
  - intros k c' [[Hk Hl]|[Hk <-]]%lookup_snoc_Some.
    + destruct (wi_ptr0 k c' Hl) as (s' & Hs' & Hpt & Hws). exists s'. split; [done|].
      rewrite !list_lookup_insert_ne; [done| |lia]. intros E.
      apply Hfresh. replace c with c'; [by eapply list_elem_of_lookup_2|].
      destruct (wi_recent0 c' ltac:(by eapply list_elem_of_lookup_2)). lia.
    + exists s. split; [done|]. subst k.
      by rewrite !list_lookup_insert_eq by (unfold NUM_CLIENTS in *; lia).
  - intros k c' [[Hk Hl]|[Hk <-]]%lookup_snoc_Some.
    + destruct (wi_wr0 k c' Hl) as (y & Hy & Hfor). destruct (Hnx k y Hy) as [n Hn].
      exists (set_next y n). rewrite list_lookup_insert_ne by lia. split; [done|].
      apply wr_for_next. by rewrite take_app_le by lia.
    + exists x. subst k. rewrite list_lookup_insert_eq by lia. split; [done|].
      by rewrite take_app_length.
  - intros q Hq. destruct (decide (q = p)) as [->|Hne].
    + rewrite Hidx, length_app, !list_lookup_insert_eq by lia. cbn [length].
      rewrite Nat2Z.inj_add, Z.add_assoc. split; [done|]. split; [done|]. split; [done|].
      by apply links_insert_last.
    + destruct (wi_port0 q Hq) as (H1 & H2 & H3 & H4). rewrite Hidx' by done.
      rewrite !list_lookup_insert_ne by lia. split; [done|]. split; [done|]. split.
      * intros Hi. destruct (Hoth (Z.to_nat q)) as [-> ->]; [lia|]. by apply H3.
      * apply links_insert; [done|]. apply Hlk2; [|done]. intros i Hi1 Hi2.
        apply elem_of_idx in Hi1 as (? & ? & ?). apply elem_of_idx in Hi2 as (? & ? & ?). congruence.
Qed.
End PollStep.

(** ** Walking and posting the lists *)
Lemma chain_spec k wrs sg ix : ∀ fuel, (length ix ≤ fuel)%nat → links wrs ix →
  (∀ i, i ∈ ix → ∃ x s, wrs !! i = Some x ∧ wr_sg_list x = Z.of_nat i ∧ sg !! i = Some s) →
  (∀ l, list.last ix = Some l → ∃ x, wrs !! l = Some x ∧ wr_next x = None) →
  (∃ ms, chain fuel k wrs sg (Z.of_nat <$> head ix) = Ok ms ∧
     Forall2 (λ i m, wrs !! i = Some m.1 ∧ ∃ s, sg !! i = Some s ∧ gather k s = Ok m.2) ix ms) ∨
  (∃ f i s, chain fuel k wrs sg (Z.of_nat <$> head ix) = Fault f ∧ i ∈ ix ∧
     sg !! i = Some s ∧ gather k s = Fault f).
Proof.
  induction ix as [|i ix IH]; intros fuel Hf Hl Hx Hlast.
  - left. exists []. split; [by destruct fuel|constructor].
  - destruct fuel as [|fuel]; [simpl in Hf; lia|]. cbn [head fmap option_fmap option_map chain].
    destruct (Hx i ltac:(left)) as (x & s & Hxi & Hsg & Hs).
    rewrite (arr_get_Ok _ _ _ Hxi). cbn [res_bind]. rewrite Hsg, (arr_get_Ok _ _ _ Hs). cbn [res_bind].
    destruct (gather k s) as [d|f] eqn:Hd; cbn [res_bind];
      [|right; exists f, i, s; split; [done|]; split; [left|done]].
    assert (Hn : wr_next x = Z.of_nat <$> head ix).
    { destruct ix as [|i' ix]; cbn.
      - destruct (Hlast i eq_refl) as (y & Hy & E). congruence.
      - destruct (Hl 0%nat i i' eq_refl eq_refl) as (y & Hy & E). congruence. }
    rewrite Hn. destruct (IH fuel) as [(ms & -> & Hf2)|(f & j & sj & -> & Hj & Hsj & Hgj)].
    + simpl in Hf. lia.
    + intros j a b Ha Hb. apply (Hl (S j) a b); done.
    + intros i' Hi'. apply Hx. by right.
    + intros l Hl'. apply Hlast. destruct ix; [done|]. by rewrite last_cons_cons.
    + left. exists ((x, d) :: ms). split; [done|]. constructor; [|done]. cbn. eauto.
    + right. exists f, j, sj. split; [done|]. split; [by right|done].
Qed.

(** Ending the list of a port leaves the invariant. *)
Lemma winv_end_list cfg tx0 clts w p l x n :
  winv cfg tx0 clts w → list.last (idx (num_server_ports cfg) p clts) = Some l → wr w !! l = Some x →
  winv cfg tx0 clts (set_wr w (<[l := set_next x None]> (wr w)) n).
Proof.
  intros Hw Hl Hx. pose proof (lookup_lt_Some _ _ _ Hx) as Hlt.
  pose proof (last_in _ _ Hl) as Hin. destruct Hw. constructor; try assumption; cbn [set_wr wr].
  - by rewrite length_insert.
  - intros k c Hk. destruct (wi_wr0 k c Hk) as (y & Hy & Hf).
    destruct (decide (k = l)) as [->|Hne].
    + rewrite list_lookup_insert_eq by done. eexists. split; [done|]. apply wr_for_next. congruence.
    + rewrite list_lookup_insert_ne by done. eauto.
  - intros q Hq. destruct (wi_port0 q Hq) as (H1 & H2 & H3 & H4).
    split; [done|]. split; [done|]. split; [done|]. cbn [set_wr wr].
    destruct (decide (q = p)) as [->|Hne].
    + destruct (exists_last (l := idx (num_server_ports cfg) p clts)) as (ix & l' & E);
        [intros E; by rewrite E in Hl|].
      rewrite E in *. rewrite last_snoc in Hl. injection Hl as ->.
      apply links_insert_last; [|done]. pose proof (idx_NoDup (num_server_ports cfg) p clts) as Hnd.
      rewrite E in Hnd. apply list.NoDup_app in Hnd as (_ & Hnd & _).
      intros Hi. apply (Hnd _ Hi). by apply list_elem_of_singleton.
    + apply links_insert; [|done]. intros Hi.
      apply elem_of_idx in Hin as (? & ? & ?). apply elem_of_idx in Hi as (? & ? & ?). congruence.
Qed.

(** The message of work request [i] of a batch. *)
Definition msg_for (cfg : worker_cfg) (tx0 : Z → Z) (clts : list Z) (k : mica_kv) (sg : list sge)
    (i : nat) (m : send_wr * list Z) : Prop :=
  ∃ c s, clts !! i = Some c ∧ sg !! i = Some s ∧ gather k s = Ok m.2 ∧
    let p := c mod num_server_ports cfg in
    wr_for cfg c (tx0 p + Z.of_nat (length (idx (num_server_ports cfg) p (take i clts)))) i m.1.

(** The calls that post the lists of [n] ports from [i] on. *)
Fixpoint posts (nsp : Z) (clts : list Z) (msgs : Z → list (send_wr * list Z)) (n : nat) (i : Z)
    : list act :=
  match n with
  | O => []
  | S n =>
      (if decide (idx nsp i clts = []) then [] else [APost i 0 (msgs i)]) ++
      posts nsp clts msgs n (i + 1)
  end.

Lemma posts_ext nsp clts msgs msgs' n : ∀ i, (∀ j, i ≤ j → msgs j = msgs' j) →
  posts nsp clts msgs n i = posts nsp clts msgs' n i.
Proof.
  induction n as [|n IH]; intros i Hm; [done|]. cbn [posts]. rewrite Hm by lia.
  f_equal. apply IH. intros j Hj. apply Hm. lia.
Qed.

Lemma post_loop_spec cfg tx0 clts : cfg_ok cfg → ∀ n w i,
  winv cfg tx0 clts w → 0 ≤ i → i + Z.of_nat n = num_server_ports cfg →
  (∃ wrs np msgs, post_loop n w i = Ok (set_wr w wrs np,
      posts (num_server_ports cfg) clts msgs n i) ∧
    winv cfg tx0 clts (set_wr w wrs np) ∧
    ∀ p, i ≤ p < num_server_ports cfg →
      Forall2 (msg_for cfg tx0 clts (kv w) (sgl w)) (idx (num_server_ports cfg) p clts) (msgs p)) ∨
  (∃ f j s, post_loop n w i = Fault f ∧ (j < length clts)%nat ∧ sgl w !! j = Some s ∧
    gather (kv w) s = Fault f).
Proof.
  intros Hc. induction n as [|n IH]; intros w i Hw Hi Hn.
  { left. exists (wr w), (nb_post_send w), (λ _, []). split; [by destruct w|]. split; [by destruct w|lia]. }
  cbn [post_loop posts]. destruct (wi_port _ _ _ _ Hw i ltac:(lia)) as (Hnb & _ & Hh & Hlk).
  rewrite (arr_get_Z _ _ _ Hi Hnb). cbn [res_bind].
  destruct (decide (idx (num_server_ports cfg) i clts = [])) as [E|Hne].
  - rewrite E. cbn [length Z.of_nat Z.eqb app].
    destruct (IH w (i + 1) Hw ltac:(lia) ltac:(lia)) as [(wrs & np & msgs & Hp & Hw' & Hm)|Hbad];
      [|by right].
    left. rewrite Hp. exists wrs, np, (λ p, if decide (p = i) then [] else msgs p). split.
    + do 2 f_equal. apply posts_ext. intros j Hj. by rewrite decide_False by lia.
    + split; [done|]. intros p Hpr. destruct (decide (p = i)) as [->|]; [by rewrite E|].
      apply Hm. lia.
  - rewrite (proj2 (Z.eqb_neq _ _)) by (destruct (idx _ _ _); [done|simpl; lia]).
    destruct (Hh Hne) as [Hf Hl]. destruct (list.last _) as [l|] eqn:El; [|by apply last_None in El].
    cbn [fmap option_fmap option_map] in Hl. rewrite (arr_get_Z _ _ _ Hi Hl). cbn [res_bind].
    destruct (lookup_lt_is_Some_2 clts l (idx_lt _ _ _ _ (last_in _ _ El))) as [cl Hcl].
    destruct (wi_wr _ _ _ _ Hw l cl Hcl) as (x & Hx & _).
    unfold arr_upd. rewrite (arr_get_Ok _ _ _ Hx). cbn [res_bind].
    pose proof (lookup_lt_Some _ _ _ Hx) as Hlw. rewrite arr_set_Ok by lia. cbn [res_bind].
    rewrite Nat2Z.id, (arr_get_Z _ _ _ Hi Hf). cbn [res_bind].
    pose proof (winv_end_list _ _ _ _ _ _ _ (nb_post_send w + 1) Hw El Hx) as Hw1.
    set (w1 := set_wr w (<[l := set_next x None]> (wr w)) (nb_post_send w + 1)) in *.
    change (<[l := set_next x None]> (wr w)) with (wr w1). change (kv w) with (kv w1).
    change (sgl w) with (sgl w1). change (set_wr w (wr w1) (nb_post_send w + 1)) with w1.
    destruct (chain_spec (kv w1) (wr w1) (sgl w1) (idx (num_server_ports cfg) i clts) 70)
      as [(ms & -> & Hf2)|(f & j & s & -> & Hj%idx_lt & Hs & Hg)].
    + pose proof (idx_length (num_server_ports cfg) i clts). pose proof (wi_post _ _ _ _ Hw).
      pose proof (cfg_postlist _ Hc). unfold MICA_MAX_BATCH_SIZE in *. lia.
    + by apply (wi_port _ _ _ _ Hw1 i ltac:(lia)).
    + intros j Hj%idx_lt. destruct (lookup_lt_is_Some_2 clts j Hj) as [cj Hcj].
      destruct (wi_wr _ _ _ _ Hw1 j cj Hcj) as (y & Hy & Hyf).
      pose proof (wi_post _ _ _ _ Hw). pose proof (cfg_postlist _ Hc). unfold MICA_MAX_BATCH_SIZE in *.
      destruct (lookup_lt_is_Some_2 (sgl w1) j) as [s Hs]; [rewrite (wi_sgl _ _ _ _ Hw1); lia|].
      exists y, s. split; [done|]. split; [apply Hyf|done].
    + intros l' Hl'. rewrite El in Hl'. injection Hl' as <-. exists (set_next x None).
      split; [|done]. subst w1. cbn. by rewrite list_lookup_insert_eq by done.
    + cbn [res_bind]. destruct (IH w1 (i + 1) Hw1 ltac:(lia) ltac:(lia))
        as [(wrs & np & msgs & -> & Hw' & Hm)|(f & j & s & -> & Hbad)];
        [|right; exists f, j, s; split; [done|exact Hbad]].
      left. exists wrs, np, (λ p, if decide (p = i) then ms else msgs p). split.
      * rewrite decide_True by done. rewrite (wi_ud _ _ _ _ Hw1). cbn [res_bind]. do 2 f_equal.
        cbn [app]. f_equal. apply posts_ext. intros j Hj. by rewrite decide_False by lia.
      * split; [done|]. intros p Hpr. destruct (decide (p = i)) as [->|]; [|apply Hm; lia].
        eapply Forall2_impl; [|exact (Forall2_in_l _ _ _ Hf2)]. intros j m (Hj'%idx_lt & Hj & s & Hs & Hd).
        destruct (lookup_lt_is_Some_2 clts j Hj') as [cj Hcj].
        destruct (wi_wr _ _ _ _ Hw1 j cj Hcj) as (y & Hy & Hyf).
        exists cj, s. split; [done|]. split; [done|]. split; [done|].
        assert (y = m.1) as <- by congruence. exact Hyf.
    + right. exists f, j, s. split; [done|]. split; [done|]. split; [done|done].
Qed.

(** ** The end of an iteration *)

(** The bytes that a response carries, and that they can be read. *)
Definition payload (k : mica_kv) (r : mica_resp) : list Z :=
  match resp_val_ptr r with
  | None => []
  | Some a => mread_n (ht_log k) a (Z.to_nat (resp_val_len r))
  end.
Definition readable (k : mica_kv) (r : mica_resp) : Prop :=
  gather k (Sge (resp_val_ptr r) (resp_val_len r)) = Ok (payload k r).

(** The message with response [i] of the batch: to the client that asked,
    with the bytes of the response. *)
Definition resp_msg (cfg : worker_cfg) (tx0 : Z → Z) (clts : list Z) (k : mica_kv)
    (resps : list mica_resp) (i : nat) (m : send_wr * list Z) : Prop :=
  ∃ c r, clts !! i = Some c ∧ resps !! i = Some r ∧ m.2 = payload k r ∧
    let p := c mod num_server_ports cfg in
    wr_for cfg c (tx0 p + Z.of_nat (length (idx (num_server_ports cfg) p (take i clts)))) i m.1.

Lemma batch_loop_length ops : ∀ kv kv' rs,
  batch_loop kv ops = Ok (kv', rs) → length rs = length ops.
Proof.
  induction ops as [|[op p] ops IH]; intros kv kv' rs H; simpl in H; inv_res; [done|].
  destruct a as [kv1 r]. inv_res. destruct a as [kv2 rs1]. inv_res. simpl. f_equal. eauto.
Qed.

Lemma batch_op_length kv ops kv' rs :
  mica_batch_op kv ops = Ok (kv', rs) → length rs = length ops.
Proof.
  unfold mica_batch_op. intros H. inv_res. apply batch_loop_length in H. by rewrite length_map in H.
Qed.

Lemma fill_sgl_ok resps : ∀ (i : nat) l, (i + length resps ≤ length l)%nat →
  ∃ l', fill_sgl resps (Z.of_nat i) l = Ok l' ∧ length l' = length l ∧
    (∀ j, (j < i)%nat → l' !! j = l !! j) ∧
    ∀ j r, resps !! j = Some r → l' !! (i + j)%nat = Some (Sge (resp_val_ptr r) (resp_val_len r)).
Proof.
  induction resps as [|r resps IH]; intros i l Hl.
  - exists l. repeat split; auto. intros j r Hj. by rewrite lookup_nil in Hj.
  - cbn [length] in Hl. cbn [fill_sgl]. rewrite arr_set_Ok by lia. cbn [res_bind]. rewrite Nat2Z.id.
    replace (Z.of_nat i + 1) with (Z.of_nat (S i)) by lia.
    destruct (IH (S i) (<[i := Sge (resp_val_ptr r) (resp_val_len r)]> l)) as (l' & E & Hlen & Hlo & Hhi).
    { rewrite length_insert. lia. }
    exists l'. split; [done|]. split; [by rewrite Hlen, length_insert|]. split.
    + intros j Hj. rewrite Hlo by lia. by rewrite list_lookup_insert_ne by lia.
    + intros [|j] r' Hr.
      * injection Hr as <-. rewrite Nat.add_0_r, Hlo by lia. apply list_lookup_insert_eq. lia.
      * rewrite <-Nat.add_succ_comm. by apply Hhi.
Qed.

Definition batch_ops (w : worker) (rr : region) : list mica_op :=
  map (λ off, default op0 (rr !! off)) (take (Z.to_nat (wr_i w)) (op_ptr_arr w)).

Lemma load_ops_ok rr ptrs :
  Forall (λ off, 0 ≤ off < RR_SIZE / sizeof_mica_op) ptrs →
  load_ops rr ptrs = Ok (map (λ off, default op0 (rr !! off)) ptrs).
Proof.
  induction 1 as [|p ptrs Hp Hps IH]; [done|]. cbn [load_ops map].
  rewrite rr_get_Ok by done. cbn [res_bind]. by rewrite IH.
Qed.

Lemma winv_ptr_bounds cfg tx0 clts w : cfg_ok cfg → winv cfg tx0 clts w →
  Forall (λ off, 0 ≤ off < RR_SIZE / sizeof_mica_op) (take (Z.to_nat (wr_i w)) (op_ptr_arr w)).
Proof.
  intros Hc Hw. apply Forall_lookup. intros i off Hi. rewrite (wi_wr_i _ _ _ _ Hw), Nat2Z.id in Hi.
  apply lookup_take_Some in Hi as [Hi Hlt]. destruct (lookup_lt_is_Some_2 clts i Hlt) as [c Hci].
  destruct (wi_ptr _ _ _ _ Hw i c Hci) as (s & Hs & Hp & _). rewrite Hi in Hp. injection Hp as ->.
  apply OFFSET_bounds; auto; [apply Hc|]. apply (wi_recent _ _ _ _ Hw). by eapply list_elem_of_lookup_2.
Qed.

Lemma batch_ops_length cfg tx0 clts w rr : cfg_ok cfg → winv cfg tx0 clts w →
  length (batch_ops w rr) = length clts.
Proof.
  intros Hc Hw. unfold batch_ops. rewrite length_map, length_take, (wi_wr_i _ _ _ _ Hw), (wi_ptrs _ _ _ _ Hw).
  pose proof (wi_post _ _ _ _ Hw). pose proof (cfg_postlist _ Hc). unfold MICA_MAX_BATCH_SIZE in *. lia.
Qed.

Lemma winv_set_store cfg tx0 clts w k l :
  winv cfg tx0 clts w → length l = 70%nat → winv cfg tx0 clts (set_store w k l).
Proof. intros [] Hl. by constructor. Qed.

Lemma winv_next_ud cfg tx0 clts w : winv cfg tx0 clts w → winv cfg tx0 clts (next_ud_qp w).
Proof. intros []. constructor; try assumption. cbn. by rewrite wi_ud0. Qed.

Lemma gather_payload k r d :
  gather k (Sge (resp_val_ptr r) (resp_val_len r)) = Ok d → d = payload k r.
Proof.
  unfold gather, payload, log_load. cbn. destruct (resp_val_ptr r); [|case_match]; intros Hd; inv_res; done.
Qed.

(** Once the store has answered, posting sends every response to its client
    unless a response cannot be read. *)
Lemma flush_spec cfg tx0 clts w rr k resps : cfg_ok cfg → winv cfg tx0 clts w →
  mica_batch_op (kv w) (batch_ops w rr) = Ok (k, resps) →
  (∃ w' msgs, flush cfg w rr = Ok (w',
      posts (num_server_ports cfg) clts msgs (Z.to_nat (num_server_ports cfg)) 0) ∧
    winv cfg tx0 clts w' ∧ kv w' = k ∧ ws w' = ws w ∧ clt_i w' = clt_i w ∧
    ∀ p, 0 ≤ p < num_server_ports cfg →
      Forall2 (resp_msg cfg tx0 clts k resps) (idx (num_server_ports cfg) p clts) (msgs p)) ∨
  (∃ f, flush cfg w rr = Fault f ∧ ¬ Forall (readable k) resps).
Proof.
  intros Hc Hw Hb. unfold flush.
  rewrite load_ops_ok by (by eapply winv_ptr_bounds). cbn [res_bind].
  change (map _ _) with (batch_ops w rr). rewrite Hb. cbn [res_bind].
  pose proof (batch_op_length _ _ _ _ Hb) as Hlen. rewrite (batch_ops_length _ _ _ _ _ Hc Hw) in Hlen.
  pose proof (wi_post _ _ _ _ Hw). pose proof (cfg_postlist _ Hc). unfold MICA_MAX_BATCH_SIZE in *.
  destruct (fill_sgl_ok resps 0 (sgl w)) as (l & Hfl & Hll & _ & Hl).
  { rewrite (wi_sgl _ _ _ _ Hw). lia. }
  change (Z.of_nat 0) with 0 in Hfl. rewrite Hfl. cbn [res_bind]. rewrite (wi_sgl _ _ _ _ Hw) in Hll.
  pose proof (cfg_ports _ Hc).
  destruct (post_loop_spec cfg tx0 clts Hc (Z.to_nat (num_server_ports cfg)) (set_store w k l) 0)
    as [(wrs & np & msgs & -> & Hw' & Hm)|(f & j & s & -> & Hj & Hs & Hg)];
    [by apply winv_set_store|lia|lia| |].
  - left. cbn [res_bind]. eexists _, msgs. split; [reflexivity|]. split; [by apply winv_next_ud|].
    split; [done|]. split; [done|]. split; [done|].
    intros p Hp. eapply Forall2_impl; [|exact (Forall2_in_l _ _ _ (Hm p Hp))].
    intros j m (Hj%idx_lt & c & s & Hcj & Hs & Hg & Hfor). cbn [set_store kv sgl] in *.
    destruct (lookup_lt_is_Some_2 resps j) as [r Hrj]; [lia|].
    exists c, r. split; [done|]. split; [done|]. split; [|done].
    specialize (Hl j r Hrj). rewrite Nat.add_0_l in Hl. rewrite Hl in Hs. injection Hs as <-.
    by apply gather_payload.
  - right. exists f. split; [done|]. intros Hr. cbn [set_store kv sgl] in *.
    destruct (lookup_lt_is_Some_2 resps j) as [r Hrj]; [lia|].
    specialize (Hl j r Hrj). rewrite Nat.add_0_l in Hl. rewrite Hl in Hs. injection Hs as <-.
    pose proof (Forall_lookup_1 _ _ _ _ Hr Hrj) as Hrd. unfold readable in Hrd. congruence.
Qed.

(** The next iteration starts with an empty batch. *)
Definition tx_next (cfg : worker_cfg) (tx0 : Z → Z) (clts : list Z) (p : Z) : Z :=
  tx0 p + Z.of_nat (length (idx (num_server_ports cfg) p clts)).

Lemma winv_begin cfg tx0 clts w : cfg_ok cfg → winv cfg tx0 clts w →
  winv cfg (tx_next cfg tx0 clts) [] (begin_iter w).
Proof.
  intros Hc Hw. pose proof (cfg_postlist _ Hc). destruct Hw. constructor; try done; cbn [begin_iter ws clt_i cb_i poll_i
    wr_i op_ptr_arr nb_new_req nb_tx wr sgl first_send_wr last_send_wr ud_qp_i broke length].
  - destruct wi_pos0 as [(? & ? & _)|?]; auto.
  - simpl. lia.
  - by rewrite (proj2 (Z.eqb_neq _ _)) by (simpl; lia).
  - constructor.
  - intros c Hin. by apply elem_of_nil in Hin.
  - intros p Hp. destruct (wi_port0 p Hp) as (_ & Htx & _ & _). cbn [idx idx_from length].
    split; [|split; [|split; [done|]]].
    + pose proof (cfg_ports _ Hc). unfold MAX_SERVER_PORTS in *.
      rewrite lookup_replicate_2 by lia. done.
    + rewrite Htx. do 2 f_equal. unfold tx_next. simpl. lia.
    + intros j a b Ha. by rewrite lookup_nil in Ha.
Qed.

Lemma winv_init cfg k : cfg_ok cfg → winv cfg (λ _, 0) [] (worker_init k).
Proof.
  intros Hc. pose proof (cfg_postlist _ Hc). constructor; try done; cbn [worker_init ws clt_i cb_i poll_i
    wr_i op_ptr_arr nb_new_req nb_tx wr sgl first_send_wr last_send_wr ud_qp_i broke length].
  - by apply Forall_replicate.
  - by left.
  - simpl. lia.
  - by rewrite (proj2 (Z.eqb_neq _ _)) by (simpl; lia).
  - constructor.
  - intros c Hin. by apply elem_of_nil in Hin.
  - intros p Hp. pose proof (cfg_ports _ Hc). unfold MAX_SERVER_PORTS in *. cbn [idx idx_from length].
    rewrite !lookup_replicate_2 by lia. split; [done|]. split; [done|]. split; [done|].
    intros j a b Ha. by rewrite lookup_nil in Ha.
Qed.
