(* ===== verification/HerdEnv.v ===== *)
(** * HERD worker in an arbitrary environment

    [wreach] is a worker whose request region may be changed in any way
    between its steps: the polling steps and the postings of a run, with the
    verbs calls that they make.  Whatever the clients write, the worker's
    use of its send queues is correct and its polling loop never leaves its
    arrays. *)

From stdpp Require Import base gmap list numbers.
From Stdlib Require Import ZArith Lia ZifyBool.
From S2P Require Import Prelude City Mica HrdUtil Signal Herd HerdProof.

(** ** Runs *)
Inductive wreach (cfg : worker_cfg) : worker → region → list act → Prop :=
| wreach_start k rr : wreach cfg (begin_iter (worker_init k)) rr []
| wreach_env w rr rr' tr : wreach cfg w rr tr → wreach cfg w rr' tr
| wreach_poll w rr tr w' rr' a :
    wreach cfg w rr tr → polling w = true → poll_step cfg w rr = Ok (w', rr', a) →
    wreach cfg w' rr' (tr ++ a)
| wreach_flush w rr tr w' a :
    wreach cfg w rr tr → polling w = false → flush cfg w rr = Ok (w', a) →
    wreach cfg (begin_iter w') rr (tr ++ a).

(** The calls of a trace on the send queue of port [p]. *)
Definition wr_signaled (x : send_wr) : bool := negb (wr_send_flags x .& IBV_SEND_SIGNALED =? 0).

Definition sq_of (p : Z) (a : act) : list sq_act :=
  match a with
  | APoll q _ => if q =? p then [SqPoll] else []
  | APost q _ ms => if q =? p then [SqPost (map (λ m, wr_signaled m.1) ms)] else []
  end.
Definition sq_trace (p : Z) (tr : list act) : list sq_act := flat_map (sq_of p) tr.

Lemma sq_trace_app p a b : sq_trace p (a ++ b) = sq_trace p a ++ sq_trace p b.
Proof. apply flat_map_app. Qed.

(** ** The flags of a posted list *)
Lemma idx_take nsp p clts j i :
  idx nsp p clts !! j = Some i → length (idx nsp p (take i clts)) = j.
Proof.
  revert j i. induction clts as [|c clts IH] using rev_ind; intros j i H; [by destruct j|].
  rewrite idx_snoc in H. assert (Hi : (i < length (clts ++ [c]))%nat).
  { apply (idx_lt nsp p). rewrite idx_snoc. by eapply list_elem_of_lookup_2. }
  rewrite length_app in Hi. simpl in Hi. rewrite take_app_le by lia.
  destruct (c mod nsp =? p); [|rewrite app_nil_r in H; by apply IH].
  apply lookup_snoc_Some in H as [[_ H]|[-> <-]]; [by apply IH|]. by rewrite firstn_all.
Qed.

Lemma flags_signaled (s : bool) :
  negb (((if s then IBV_SEND_SIGNALED else 0) .| IBV_SEND_INLINE) .& IBV_SEND_SIGNALED =? 0) = s.
Proof. by destruct s. Qed.

Lemma posted_flags cfg tx0 clts k resps p n ms :
  tx0 p = Z.of_nat n → 
  Forall2 (resp_msg cfg tx0 clts k resps) (idx (num_server_ports cfg) p clts) ms →
  map (λ m, wr_signaled m.1) ms = batch_flags n (length (idx (num_server_ports cfg) p clts)).
Proof.
  intros Hn Hf. apply list_eq. intros j. rewrite list_lookup_fmap.
  unfold batch_flags. rewrite list_lookup_fmap.
  destruct (idx (num_server_ports cfg) p clts !! j) as [i|] eqn:Ei.
  - destruct (Forall2_lookup_l _ _ _ _ _ Hf Ei) as (m & Hm & c & r & Hc & _ & _ & Hfor).
    rewrite Hm, lookup_seq_lt by (by eapply lookup_lt_Some). cbn. f_equal.
    assert (Hp : c mod num_server_ports cfg = p).
    { apply list_elem_of_lookup_2, elem_of_idx in Ei as (c' & Hc' & <-). congruence. }
    cbv zeta in Hfor. rewrite Hp, (idx_take _ _ _ _ _ Ei) in Hfor.
    destruct Hfor as (_ & _ & _ & _ & _ & _ & _ & Hfl). unfold wr_signaled. rewrite Hfl, flags_signaled.
    f_equal. lia.
  - rewrite (proj2 (lookup_ge_None ms j)); [|rewrite <-(Forall2_length Hf); by apply lookup_ge_None].
    rewrite lookup_seq_ge; [done|]. by apply lookup_ge_None.
Qed.

Lemma sq_trace_posts p nsp clts msgs n : ∀ i,
  sq_trace p (posts nsp clts msgs n i) =
  if (i <=? p) && (p <? i + Z.of_nat n) then
    (if decide (idx nsp p clts = []) then [] else [SqPost (map (λ m, wr_signaled m.1) (msgs p))])
  else [].
Proof.
  induction n as [|n IH]; intros i.
  - cbn [posts sq_trace flat_map]. destruct ((i <=? p) && (p <? i + Z.of_nat 0)) eqn:E; [lia|done].
  - cbn [posts]. rewrite sq_trace_app, IH. destruct (decide (p = i)) as [->|Hne].
    + replace ((i + 1 <=? i) && (i <? i + 1 + Z.of_nat n)) with false by lia.
      replace ((i <=? i) && (i <? i + Z.of_nat (S n))) with true by lia. rewrite app_nil_r.
      destruct (decide (idx nsp i clts = [])); [done|]. cbn. by rewrite Z.eqb_refl.
    + replace ((i <=? p) && (p <? i + Z.of_nat (S n))) with
        ((i + 1 <=? p) && (p <? i + 1 + Z.of_nat n)) by lia.
      destruct (decide (idx nsp i clts = [])); [done|]. cbn [sq_trace flat_map sq_of app].
      by rewrite (proj2 (Z.eqb_neq i p)) by done.
Qed.

(** ** The invariant of a run *)
Definition trace_ok (cfg : worker_cfg) (tx0 : Z → Z) (clts : list Z) (tr : list act) : Prop :=
  ∀ p, 0 ≤ p < num_server_ports cfg → ∃ n, tx0 p = Z.of_nat n ∧
    sq_run (Z.to_nat HRD_Q_DEPTH) [] (sq_trace p tr) =
    sq_run (Z.to_nat HRD_Q_DEPTH) (waiting n) (batch_queue n (length (idx (num_server_ports cfg) p clts))).

Lemma batch_queue_S n k : batch_queue n (S k) = batch_queue n k ++ queue_acts (Z.of_nat (n + k)).
Proof. unfold batch_queue. rewrite seq_S, flat_map_app. cbn. by rewrite app_nil_r. Qed.

Lemma trace_ok_poll cfg tx0 clts tr c : trace_ok cfg tx0 clts tr →
  let p := c mod num_server_ports cfg in
  trace_ok cfg tx0 (clts ++ [c]) (tr ++
    (if must_poll (tx0 p + Z.of_nat (length (idx (num_server_ports cfg) p clts)))
     then [APoll p 0] else [])).
Proof.
  intros Ht p q Hq. destruct (Ht q Hq) as (n & Hn & E). exists n. split; [done|].
  rewrite sq_trace_app, sq_run_app, E, idx_snoc. fold p. destruct (p =? q) eqn:Epq.
  - apply Z.eqb_eq in Epq. subst q. rewrite length_app, Nat.add_1_r, batch_queue_S, sq_run_app.
    rewrite Hn, <-Nat2Z.inj_add. unfold queue_acts. destruct (must_poll _); [|done].
    cbn. by rewrite Z.eqb_refl.
  - rewrite app_nil_r. replace (sq_trace q _) with ([] : list sq_act).
    + by destruct (sq_run _ (waiting n) _).
    + destruct (must_poll _); [|done]. cbn. by rewrite Epq.
Qed.

Lemma idx_bound cfg tx0 clts w p : cfg_ok cfg → winv cfg tx0 clts w →
  (length (idx (num_server_ports cfg) p clts) ≤ 63)%nat.
Proof.
  intros Hc Hw. pose proof (idx_length (num_server_ports cfg) p clts).
  pose proof (wi_post _ _ _ _ Hw). pose proof (cfg_postlist _ Hc). unfold MICA_MAX_BATCH_SIZE in *. lia.
Qed.

Lemma trace_ok_flush cfg tx0 clts w tr k resps msgs : cfg_ok cfg → winv cfg tx0 clts w →
  trace_ok cfg tx0 clts tr →
  (∀ p, 0 ≤ p < num_server_ports cfg →
    Forall2 (resp_msg cfg tx0 clts k resps) (idx (num_server_ports cfg) p clts) (msgs p)) →
  trace_ok cfg (tx_next cfg tx0 clts) [] (tr ++
    posts (num_server_ports cfg) clts msgs (Z.to_nat (num_server_ports cfg)) 0).
Proof.
  intros Hc Hw Ht Hm p Hp. destruct (Ht p Hp) as (n & Hn & E).
  exists (n + length (idx (num_server_ports cfg) p clts))%nat.
  split; [unfold tx_next; lia|]. rewrite sq_trace_app, sq_run_app, E, sq_trace_posts.
  replace ((0 <=? p) && (p <? 0 + Z.of_nat (Z.to_nat (num_server_ports cfg)))) with true by lia.
  rewrite (posted_flags _ _ _ _ _ _ _ _ Hn (Hm p Hp)).
  pose proof (batch_ok (Z.to_nat HRD_Q_DEPTH) n (length (idx (num_server_ports cfg) p clts))
    ltac:(unfold HRD_Q_DEPTH; lia) (idx_bound _ _ _ _ p Hc Hw)) as Hb.
  unfold batch_acts in Hb. rewrite sq_run_app in Hb. cbn [idx idx_from length batch_queue seq flat_map sq_run].
  rewrite <-Hb. f_equal. destruct (idx _ _ _); done.
Qed.

Lemma trace_ok_sq cfg tx0 clts w tr p : cfg_ok cfg → winv cfg tx0 clts w →
  trace_ok cfg tx0 clts tr → 0 ≤ p < num_server_ports cfg →
  ∃ out, sq_run (Z.to_nat HRD_Q_DEPTH) [] (sq_trace p tr) = Some out ∧ (length out ≤ 126)%nat.
Proof.
  intros Hc Hw Ht Hp. destruct (Ht p Hp) as (n & _ & ->).
  rewrite queue_batch by (by eapply idx_bound). eexists. split; [reflexivity|].
  rewrite length_batch_flags. unfold oldest. destruct (decide _); lia.
Qed.

Lemma flush_batch cfg tx0 clts w rr w' a : cfg_ok cfg → winv cfg tx0 clts w →
  flush cfg w rr = Ok (w', a) → ∃ k resps, mica_batch_op (kv w) (batch_ops w rr) = Ok (k, resps).
Proof.
  intros Hc Hw H. unfold flush in H.
  rewrite load_ops_ok in H by (by eapply winv_ptr_bounds). cbn [res_bind] in H.
  change (map _ _) with (batch_ops w rr) in H.
  destruct (mica_batch_op (kv w) (batch_ops w rr)) as [[k resps]|]; [by eauto|done].
Qed.

(** What a successful posting does. *)
Lemma flush_inv cfg tx0 clts w rr w' a : cfg_ok cfg → winv cfg tx0 clts w →
  flush cfg w rr = Ok (w', a) →
  ∃ k resps msgs, mica_batch_op (kv w) (batch_ops w rr) = Ok (k, resps) ∧
    a = posts (num_server_ports cfg) clts msgs (Z.to_nat (num_server_ports cfg)) 0 ∧
    winv cfg tx0 clts w' ∧ kv w' = k ∧ ws w' = ws w ∧ clt_i w' = clt_i w ∧
    ∀ p, 0 ≤ p < num_server_ports cfg →
      Forall2 (resp_msg cfg tx0 clts k resps) (idx (num_server_ports cfg) p clts) (msgs p).
Proof.
  intros Hc Hw H. destruct (flush_batch _ _ _ _ _ _ _ Hc Hw H) as (k & resps & Hb).
  destruct (flush_spec _ _ _ _ _ _ _ Hc Hw Hb) as [(w1 & msgs & E & Hrest)|(f & E & _)]; [|congruence].
  rewrite E in H. injection H as <- <-. by exists k, resps, msgs.
Qed.

(** A polling step from a state with the invariant, in both cases. *)
Lemma poll_inv cfg tx0 clts w rr : cfg_ok cfg → winv cfg tx0 clts w → polling w = true →
  let c := HRD_MOD_ADD (clt_i w) NUM_CLIENTS in
  let p := c mod num_server_ports cfg in
  ∃ s w', ws w !! Z.to_nat c = Some s ∧ 0 ≤ s < WINDOW_SIZE ∧ 0 ≤ c < NUM_CLIENTS ∧
    let off := OFFSET (wrkr_lid cfg) c s in
    let op := default op0 (rr !! off) in
    clt_i w' = c ∧ kv w' = kv w ∧
    (op_opcode op < HERD_OP_GET ∧ poll_step cfg w rr = Ok (w', rr, []) ∧
       winv cfg tx0 clts w' ∧ ws w' = ws w ∧ op_ptr_arr w' = op_ptr_arr w ∨
     HERD_OP_GET ≤ op_opcode op ∧ c ∉ clts ∧
       poll_step cfg w rr = Ok (w', <[off := set_opcode op (u8 (op_opcode op - HERD_MICA_OFFSET))]> rr,
         (if must_poll (tx0 p + Z.of_nat (length (idx (num_server_ports cfg) p clts)))
          then [APoll p 0] else [])) ∧
       winv cfg tx0 (clts ++ [c]) w' ∧
       ws w' = <[Z.to_nat c := HRD_MOD_ADD s WINDOW_SIZE]> (ws w) ∧
       op_ptr_arr w' = <[length clts := off]> (op_ptr_arr w)).
Proof.
  intros Hc Hw Hp. cbv zeta.
  destruct (poll_slot cfg Hc tx0 clts w Hw rr) as (s & Hs & Hsr & Hcr & _ & _).
  destruct (Z_lt_le_dec (op_opcode (default op0 (rr !! OFFSET (wrkr_lid cfg)
    (HRD_MOD_ADD (clt_i w) NUM_CLIENTS) s))) HERD_OP_GET) as [Hlt|Hge].
  - destruct (poll_step_skip cfg Hc tx0 clts w Hw Hp rr s Hs Hlt) as (w' & E & Hw' & H1 & H2 & H3 & H4).
    exists s, w'. do 5 (split; [done|]). by left.
  - destruct (poll_step_hit cfg Hc tx0 clts w Hw Hp rr s _ Hs eq_refl Hge)
      as (w' & E & Hw' & Hf & H1 & H2 & H3 & H4).
    exists s, w'. do 5 (split; [done|]). by right.
Qed.

Lemma wreach_inv cfg w rr tr : cfg_ok cfg → wreach cfg w rr tr →
  ∃ tx0 clts, winv cfg tx0 clts w ∧ trace_ok cfg tx0 clts tr.
Proof.
  intros Hc. induction 1 as [k rr|w rr rr' tr _ IH|w rr tr w' rr' a _ IH Hp Hst|w rr tr w' a _ IH Hp Hst].
  - exists (tx_next cfg (λ _, 0) []), []. split; [apply winv_begin, winv_init; done|].
    intros p Hp. by exists 0%nat.
  - done.
  - destruct IH as (tx0 & clts & Hw & Ht).
    destruct (poll_inv _ _ _ _ rr Hc Hw Hp) as (s & w1 & _ & _ & _ & _ & _ & [Hskip|Hhit]).
    + destruct Hskip as (_ & E & Hw' & _). rewrite E in Hst. injection Hst as <- <- <-.
      rewrite app_nil_r. eauto.
    + destruct Hhit as (_ & _ & E & Hw' & _). rewrite E in Hst. injection Hst as <- <- <-.
      eexists _, _. split; [exact Hw'|]. by apply trace_ok_poll.
  - destruct IH as (tx0 & clts & Hw & Ht).
    destruct (flush_inv _ _ _ _ _ _ _ Hc Hw Hst) as (k & resps & msgs & _ & -> & Hw' & _ & _ & _ & Hm).
    eexists _, _. split; [by apply winv_begin|]. by eapply trace_ok_flush.
Qed.
