(* ===== verification/HerdSys.v ===== *)
(** * HERD: the whole system

    Twelve workers, seventy clients, the request region and the network
    between them.  [step] interleaves iterations of clients, the arrival of
    RDMA writes, polling steps of workers and postings of responses.  The
    history variables record what each client sent to each worker and what
    each worker executed.

    The network is lossless here and keeps the order of the writes of one
    queue pair; a write of a request (at most 50 bytes, inlined) becomes
    visible at once.  A response takes a posted RECV or is dropped. *)

From stdpp Require Import base gmap list numbers.
From Stdlib Require Import ZArith Lia.
From S2P Require Import Prelude City Mica MicaProof MicaSpec HrdUtil Signal Herd HerdProof HerdEnv.

(** ** RDMA writes *)
Definition op_of_bytes (bs : list Z) : mica_op :=
  Op (Key (le_word (take 8 bs)) (le_word (take 8 (drop 8 bs))))
     (default 0 (bs !! 16%nat)) (default 0 (bs !! 17%nat)) (drop 18 bs).

(** The first [len] bytes of [req] arrive at the address of [old]. *)
Definition rdma_write (old req : mica_op) (len : Z) : mica_op :=
  op_of_bytes (take (Z.to_nat len) (op_bytes req) ++ drop (Z.to_nat len) (op_bytes old)).

Definition write_region (rr : region) (off len : Z) (req : mica_op) : region :=
  <[off := rdma_write (default op0 (rr !! off)) req len]> rr.

(** ** The client's side of the device *)
Record cdev : Type := CDev
  { d_recvs : Z;            (** RECVs that were posted *)
    d_arrived : Z;          (** responses that took a RECV *)
    d_polled : Z;           (** of which the client has polled *)
    d_dropped : Z;          (** responses that found no RECV *)
    d_fly : list (Z * Z * mica_op);  (** writes under way, oldest first *)
    d_sq : list sq_act }.   (** calls on the send queue *)

(** [None]: [hrd_poll_cq] does not return yet. *)
Definition dev_act (a : clt_act) (d : cdev) : option cdev :=
  match a with
  | CPostRecv n =>
      Some (CDev (d_recvs d + n) (d_arrived d) (d_polled d) (d_dropped d) (d_fly d) (d_sq d))
  | CPollRecv n =>
      if d_arrived d - d_polled d <? n then None
      else Some (CDev (d_recvs d) (d_arrived d) (d_polled d + n) (d_dropped d) (d_fly d) (d_sq d))
  | CPollSend =>
      Some (CDev (d_recvs d) (d_arrived d) (d_polled d) (d_dropped d) (d_fly d) (d_sq d ++ [SqPoll]))
  | CWrite sg off len req =>
      Some (CDev (d_recvs d) (d_arrived d) (d_polled d) (d_dropped d)
              (d_fly d ++ [(off, len, req)]) (d_sq d ++ [SqPost [sg]]))
  end.

Fixpoint dev_acts (acts : list clt_act) (d : cdev) : option cdev :=
  match acts with
  | [] => Some d
  | a :: acts => dev_act a d ≫= dev_acts acts
  end.

Definition dev_arrive (d : cdev) : cdev :=
  if d_arrived d <? d_recvs d
  then CDev (d_recvs d) (d_arrived d + 1) (d_polled d) (d_dropped d) (d_fly d) (d_sq d)
  else CDev (d_recvs d) (d_arrived d) (d_polled d) (d_dropped d + 1) (d_fly d) (d_sq d).

(** After "Fill the RECV queue". *)
Definition dev_init : cdev := CDev WINDOW_SIZE 0 0 0 [] [].

(** ** Responses under way to client [c] *)
Definition addressed (cfg : worker_cfg) (c : nat) (m : send_wr * list Z) : bool :=
  bool_decide (ah cfg !! c = Some (wr_ah m.1) ∧ clt_qpn cfg !! c = Some (wr_remote_qpn m.1)).

Definition act_msgs (a : act) : list (send_wr * list Z) :=
  match a with APoll _ _ => [] | APost _ _ ms => ms end.

Definition arrivals (cfg : worker_cfg) (c : nat) (acts : list act) : nat :=
  length (filter (λ m, addressed cfg c m = true) (flat_map act_msgs acts)).

(** ** States and steps *)
Record sys : Type := Sys
  { s_rr : region;
    s_wk : list worker;
    s_clt : list client;
    s_dev : list cdev;
    (** history: requests of client [c] to worker [w], operations that
        worker [w] executed, with the client of each *)
    s_sent : nat → nat → list mica_op;
    s_log : nat → list (Z * mica_op) }.

(** The worker, and the client, of an offset into the region. *)
Definition off_worker (off : Z) : Z := off / (NUM_CLIENTS * WINDOW_SIZE).
Definition off_client (off : Z) : Z := off / WINDOW_SIZE mod NUM_CLIENTS.

Definition record_sent (sent : nat → nat → list mica_op) (c : nat) (acts : list clt_act)
    : nat → nat → list mica_op := λ w c',
  sent w c' ++
  if decide (c' = c) then
    omap (λ a, match a with
               | CWrite _ off _ req => if decide (off_worker off = Z.of_nat w) then Some req else None
               | _ => None
               end) acts
  else [].

(** The batch of a worker, with the client of each operation. *)
Definition batch_log (w : worker) (rr : region) : list (Z * mica_op) :=
  map (λ off, (off_client off, default op0 (rr !! off))) (take (Z.to_nat (wr_i w)) (op_ptr_arr w)).

Section System.
Context (wcfg : nat → worker_cfg) (ccfg : nat → client_cfg) (kvs : list mica_kv).

Inductive step : sys → sys → Prop :=
| step_client s c cl cl' d d' acts :
    s_clt s !! c = Some cl → s_dev s !! c = Some d →
    client_iter (ccfg c) cl = Ok (cl', acts) → dev_acts acts d = Some d' →
    step s (Sys (s_rr s) (s_wk s) (<[c := cl']> (s_clt s)) (<[c := d']> (s_dev s))
              (record_sent (s_sent s) c acts) (s_log s))
| step_deliver s c d off len req fly :
    s_dev s !! c = Some d → d_fly d = (off, len, req) :: fly →
    step s (Sys (write_region (s_rr s) off len req) (s_wk s) (s_clt s)
              (<[c := CDev (d_recvs d) (d_arrived d) (d_polled d) (d_dropped d) fly (d_sq d)]> (s_dev s))
              (s_sent s) (s_log s))
| step_poll s w wk wk' rr acts :
    s_wk s !! w = Some wk → polling wk = true →
    poll_step (wcfg w) wk (s_rr s) = Ok (wk', rr, acts) →
    step s (Sys rr (<[w := wk']> (s_wk s)) (s_clt s) (s_dev s) (s_sent s) (s_log s))
| step_flush s w wk wk' acts :
    s_wk s !! w = Some wk → polling wk = false →
    flush (wcfg w) wk (s_rr s) = Ok (wk', acts) →
    step s (Sys (s_rr s) (<[w := begin_iter wk']> (s_wk s)) (s_clt s)
              (imap (λ c d, Nat.iter (arrivals (wcfg w) c acts) dev_arrive d) (s_dev s))
              (s_sent s)
              (λ w', s_log s w' ++ (if decide (w' = w) then batch_log wk (s_rr s) else []))).

(** The master has cleared the region, the workers have populated their
    stores, every client has its RECVs. *)
Definition initial (s : sys) : Prop :=
  s_rr s = ∅ ∧
  s_wk s = map (λ k, begin_iter (worker_init k)) kvs ∧
  (∃ seeds, length seeds = 70%nat ∧
     s_clt s = map (λ x : Z * mica_op, client_init x.1 x.2) seeds ∧
     Forall (λ x, length (op_value x.2) = 46%nat) seeds) ∧
  s_dev s = replicate 70 dev_init ∧
  (∀ w c, s_sent s w c = []) ∧ (∀ w, s_log s w = []).

Inductive reach : sys → Prop :=
| reach_start s : initial s → reach s
| reach_step s s' : reach s → step s s' → reach s'.
End System.

(** ** Requests *)

(** As [client_iter] forges them. *)
Definition valid_req (r : mica_op) : Prop :=
  key_ok (op_key r) ∧ length (op_value r) = 46%nat ∧
  (op_opcode r = HERD_OP_GET ∨ op_opcode r = HERD_OP_PUT ∧ op_val_len r = HERD_VALUE_SIZE).

Definition req_len (r : mica_op) : Z :=
  if op_opcode r =? HERD_OP_PUT then HERD_PUT_REQ_SIZE else HERD_GET_REQ_SIZE.

(** What must arrive of a request for it to be executed faithfully. *)
Definition carries (r op : mica_op) : Prop :=
  op_key op = op_key r ∧
  (op_opcode r = HERD_OP_PUT → op_val_len op = op_val_len r ∧
     take 32 (op_value op) = take 32 (op_value r)).
Definition holds (r op : mica_op) : Prop := carries r op ∧ op_opcode op = op_opcode r.
Definition executes (r op : mica_op) : Prop :=
  carries r op ∧ op_opcode op = op_opcode r - HERD_MICA_OFFSET.

Definition op_wf (op : mica_op) : Prop := key_ok (op_key op) ∧ length (op_value op) = 46%nat.

Lemma op0_wf : op_wf op0.
Proof. repeat split; unfold w64; simpl; lia. Qed.

Lemma op_of_bytes_parts k1 k2 a b v : w64 k1 → w64 k2 →
  op_of_bytes (le_bytes 8 k1 ++ le_bytes 8 k2 ++ [a; b] ++ v) = Op (Key k1 k2) a b v.
Proof.
  intros H1 H2. unfold op_of_bytes. rewrite take_app_length' by (by rewrite length_le_bytes).
  rewrite drop_app_length' by (by rewrite length_le_bytes).
  rewrite take_app_length' by (by rewrite length_le_bytes). rewrite !le_word_bytes.
  rewrite !Z.mod_small by assumption. reflexivity.
Qed.

Lemma rdma_write_spec old r : op_wf old → valid_req r →
  holds r (rdma_write old r (req_len r)) ∧ op_wf (rdma_write old r (req_len r)).
Proof.
  intros [Hko Hlo] ([Hk0 Hk1] & Hlr & Hop). destruct old as [ko co lo vo], r as [[r0 r1] cr lr vr].
  cbn in *. unfold rdma_write, req_len. cbn [op_opcode].
  destruct Hop as [->|[-> ->]]; cbn [Z.eqb].
  - change (Z.to_nat _) with 17%nat.
    change (take 17 _ ++ _) with (le_bytes 8 r0 ++ le_bytes 8 r1 ++ [HERD_OP_GET; lo] ++ vo).
    rewrite op_of_bytes_parts by done. split; [|done]. by split; [split; [done|]|].
  - change (Z.to_nat _) with 50%nat.
    change (take 50 _ ++ _) with (le_bytes 8 r0 ++ le_bytes 8 r1 ++
      [HERD_OP_PUT; HERD_VALUE_SIZE] ++ take 32 vr ++ drop 32 vo).
    rewrite op_of_bytes_parts by done.
    assert (Hv : take 32 (take 32 vr ++ drop 32 vo) = take 32 vr).
    { rewrite take_app_le by (rewrite length_take; lia). by rewrite take_take. }
    split; [by split; [split; [done|intros _; split; [done|exact Hv]]|]|].
    split; [done|]. cbn [op_value]. rewrite length_app, length_take, length_drop. lia.
Qed.
