(* ===== verification/HerdRing.v ===== *)
(** * HERD: the slots of one client at one worker

    The 32 slots that the region has for a client and a worker form a ring
    with three pointers: sent by the client, arrived in the region, taken by
    the worker.  [ring] relates the slots to the history; the lemmas are the
    moves of the three pointers. *)

From stdpp Require Import base gmap list numbers.
From Stdlib Require Import ZArith Lia ZifyNat ZifyBool.
From S2P Require Import Prelude City Mica MicaProof MicaSpec HrdUtil Signal Herd HerdProof HerdEnv HerdSys.

Local Ltac Zify.zify_post_hook ::= Z.to_euclidean_division_equations.

Definition rr_at (rr : region) (off : Z) : mica_op := default op0 (rr !! off).
(** The slot of request number [j]. *)
Definition slot (w c : Z) (j : nat) : Z := OFFSET w c (Z.of_nat j mod WINDOW_SIZE).

Definition fly_to (w : Z) (fly : list (Z * Z * mica_op)) : list (Z * Z * mica_op) :=
  filter (λ x, off_worker x.1.1 = w) fly.

(** The writes of the requests from number [j] on. *)
Fixpoint writes_from (w c : Z) (j : nat) (rs : list mica_op) : list (Z * Z * mica_op) :=
  match rs with
  | [] => []
  | r :: rs => (slot w c j, req_len r, r) :: writes_from w c (S j) rs
  end.

(** [arr]: the number of requests that have arrived; [batched]: the oldest
    one that is not executed is in the worker's batch. *)
Record ring (w c : Z) (rr : region) (sent done : list mica_op) (batched : bool)
    (fly : list (Z * Z * mica_op)) (arr : nat) : Prop := {
  ring_taken : (length done + (if batched then 1 else 0) ≤ arr)%nat;
  ring_arr : (arr ≤ length sent)%nat;
  ring_cap : (length sent ≤ length done + 32)%nat;
  ring_valid : Forall valid_req sent;
  ring_done : Forall2 executes (take (length done) sent) done;
  ring_batch : batched = true → ∀ r, sent !! length done = Some r →
    executes r (rr_at rr (slot w c (length done)));
  ring_full : ∀ j r, (length done + (if batched then 1 else 0) ≤ j < arr)%nat →
    sent !! j = Some r → holds r (rr_at rr (slot w c j));
  ring_free : ∀ s, 0 ≤ s < WINDOW_SIZE →
    (∀ j, (length done + (if batched then 1 else 0) ≤ j < arr)%nat → Z.of_nat j mod WINDOW_SIZE ≠ s) →
    op_opcode (rr_at rr (OFFSET w c s)) < HERD_OP_GET;
  ring_fly : fly_to w fly = writes_from w c arr (drop arr sent)
}.

Lemma mod_window j : 0 ≤ Z.of_nat j mod WINDOW_SIZE < WINDOW_SIZE.
Proof. apply Z.mod_pos_bound. done. Qed.

Lemma slot_inj w c j j' : (j - j' < 32)%nat → (j' - j < 32)%nat → slot w c j = slot w c j' → j = j'.
Proof.
  unfold slot, OFFSET, WINDOW_SIZE. intros H1 H2 E. lia.
Qed.

(** ** The two kinds of moves that do not concern this ring *)
Definition same_slots (w c : Z) (rr rr' : region) : Prop :=
  ∀ s, 0 ≤ s < WINDOW_SIZE → rr_at rr' (OFFSET w c s) = rr_at rr (OFFSET w c s).

Lemma ring_frame w c rr rr' sent done b fly fly' arr :
  same_slots w c rr rr' → fly_to w fly' = fly_to w fly →
  ring w c rr sent done b fly arr → ring w c rr' sent done b fly' arr.
Proof.
  intros Hs Hf []. constructor; auto; unfold slot in *.
  - intros Hb r Hr. rewrite Hs by apply mod_window. eauto.
  - intros j r Hj Hr. rewrite Hs by apply mod_window. eauto.
  - intros s Hs' Hj. rewrite Hs by done. eauto.
  - by rewrite Hf.
Qed.

Lemma same_slots_insert w c rr w' c' s' op :
  0 ≤ c < NUM_CLIENTS → 0 ≤ c' < NUM_CLIENTS → 0 ≤ s' < WINDOW_SIZE → (w, c) ≠ (w', c') →
  same_slots w c rr (<[OFFSET w' c' s' := op]> rr).
Proof.
  intros Hc Hc' Hs' Hne s Hs. unfold rr_at. rewrite lookup_insert_ne; [done|].
  intros E. apply OFFSET_inj in E as (-> & -> & _); auto.
Qed.

Lemma rr_at_insert rr off op : rr_at (<[off := op]> rr) off = op.
Proof. unfold rr_at. by rewrite lookup_insert_eq. Qed.

Lemma rr_at_insert_ne rr off off' op : off ≠ off' → rr_at (<[off := op]> rr) off' = rr_at rr off'.
Proof. intros H. unfold rr_at. by rewrite lookup_insert_ne. Qed.

(** ** Moves *)
Lemma ring_init w c rr : (∀ off, rr_at rr off = op0) → ring w c rr [] [] false [] 0.
Proof.
  intros Hrr. constructor; simpl; auto; try lia; try done.
  intros s _ _. rewrite Hrr. done.
Qed.

Lemma writes_from_snoc w c r rs : ∀ j,
  writes_from w c j (rs ++ [r]) =
  writes_from w c j rs ++ [(slot w c (j + length rs), req_len r, r)].
Proof.
  induction rs as [|r' rs IH]; intros j; simpl.
  - by rewrite Nat.add_0_r.
  - rewrite IH. by replace (j + S (length rs))%nat with (S j + length rs)%nat by lia.
Qed.

Lemma off_worker_OFFSET w c s : 0 ≤ c < NUM_CLIENTS → 0 ≤ s < WINDOW_SIZE →
  off_worker (OFFSET w c s) = w ∧ off_client (OFFSET w c s) = c.
Proof. unfold off_worker, off_client, OFFSET, NUM_CLIENTS, WINDOW_SIZE. lia. Qed.

Lemma fly_to_app w l l' : fly_to w (l ++ l') = fly_to w l ++ fly_to w l'.
Proof. apply list.filter_app. Qed.

Lemma fly_to_slot w w' c j n r : 0 ≤ c < NUM_CLIENTS →
  fly_to w [(slot w' c j, n, r)] = if decide (w' = w) then [(slot w' c j, n, r)] else [].
Proof.
  intros Hc. unfold fly_to, slot. rewrite filter_cons. cbn [fst].
  destruct (off_worker_OFFSET w' c (Z.of_nat j mod WINDOW_SIZE)) as [-> _]; [done|apply mod_window|].
  by destruct (decide (w' = w)).
Qed.

(** The client sends. *)
Lemma ring_send w c rr sent done b fly arr r :
  0 ≤ c < NUM_CLIENTS →
  ring w c rr sent done b fly arr → (length sent < length done + 32)%nat → valid_req r →
  ring w c rr (sent ++ [r]) done b (fly ++ [(slot w c (length sent), req_len r, r)]) arr.
Proof.
  intros Hc [] Hroom Hr. constructor; auto.
  - rewrite length_app. lia.
  - rewrite length_app. simpl. lia.
  - apply list.Forall_app. auto.
  - rewrite take_app_le by lia. done.
  - intros Hb x Hx. subst b. rewrite lookup_app_l in Hx by lia. auto.
  - intros j x Hj Hx. rewrite lookup_app_l in Hx by lia. eauto.
  - rewrite fly_to_app, fly_to_slot, decide_True, ring_fly0 by done.
    rewrite drop_app_le by lia. rewrite writes_from_snoc, length_drop.
    replace (arr + (length sent - arr))%nat with (length sent) by lia. done.
Qed.

(** The oldest write arrives. *)
Lemma ring_deliver w c rr sent done b off len r fly arr :
  (∀ off, op_wf (rr_at rr off)) →
  off_worker off = w → ring w c rr sent done b ((off, len, r) :: fly) arr →
  off = slot w c arr ∧ valid_req r ∧ len = req_len r ∧ sent !! arr = Some r ∧
  op_opcode (rr_at rr off) < HERD_OP_GET ∧
  ring w c (write_region rr off len r) sent done b fly (S arr).
Proof.
  intros Hwf Hw [].
  assert (Hf : fly_to w ((off, len, r) :: fly) = (off, len, r) :: fly_to w fly).
  { unfold fly_to. rewrite filter_cons. cbn. by rewrite decide_True. }
  rewrite Hf in ring_fly0. destruct (drop arr sent) as [|r' rest] eqn:Ed; [done|].
  cbn in ring_fly0. injection ring_fly0 as -> -> -> Hrest.
  assert (Hr : sent !! arr = Some r').
  { rewrite <-(Nat.add_0_r arr), <-lookup_drop, Ed. done. }
  pose proof (lookup_lt_Some _ _ _ Hr) as Hlt.
  pose proof (Forall_lookup_1 _ _ _ _ ring_valid0 Hr) as Hv.
  assert (Hother : ∀ j, (length done ≤ j < arr)%nat → slot w c arr ≠ slot w c j).
  { intros j Hj E. apply slot_inj in E; lia. }
  split; [done|]. split; [done|]. split; [done|]. split; [done|]. split.
  { apply ring_free0; [apply mod_window|]. intros j Hj E. apply (Hother j); [lia|].
    unfold slot. by rewrite E. }
  unfold write_region. constructor; auto; try lia.
  - intros Hb x Hx. subst b. rewrite rr_at_insert_ne by (apply Hother; lia). eauto.
  - intros j x Hj Hx. destruct (decide (j = arr)) as [->|Hne].
    + rewrite rr_at_insert. rewrite Hr in Hx. injection Hx as <-. apply rdma_write_spec; [apply Hwf|done].
    + rewrite rr_at_insert_ne by (apply Hother; lia). apply ring_full0; [lia|done].
  - intros s Hs Hj. rewrite rr_at_insert_ne.
    + apply ring_free0; [done|]. intros j Hj'. apply Hj. lia.
    + intros E. apply (Hj arr); [lia|]. unfold slot, OFFSET in E. lia.
  - rewrite (drop_S _ _ _ Hr) in Ed. injection Ed as ->. done.
Qed.

(** The worker takes the oldest request. *)
Lemma ring_take w c rr sent done fly arr :
  let off := slot w c (length done) in
  ring w c rr sent done false fly arr → HERD_OP_GET ≤ op_opcode (rr_at rr off) →
  ring w c (<[off := set_opcode (rr_at rr off) (u8 (op_opcode (rr_at rr off) - HERD_MICA_OFFSET))]> rr)
    sent done true fly arr.
Proof.
  intros off [] Hop. rewrite !Nat.add_0_r in *.
  assert (Hlt : (length done < arr)%nat).
  { destruct (decide (length done < arr)%nat) as [|Hn]; [done|]. exfalso.
    enough (op_opcode (rr_at rr off) < HERD_OP_GET) by lia.
    apply ring_free0; [apply mod_window|]. intros j Hj. lia. }
  destruct (lookup_lt_is_Some_2 sent (length done)) as [r Hr]; [lia|].
  destruct (ring_full0 _ r ltac:(split; [apply Nat.le_refl|done]) Hr) as [Hcar Hopr].
  pose proof (Forall_lookup_1 _ _ _ _ ring_valid0 Hr) as (_ & _ & Hv).
  assert (Hu : u8 (op_opcode (rr_at rr off) - HERD_MICA_OFFSET) = op_opcode r - HERD_MICA_OFFSET).
  { unfold off. rewrite Hopr. by destruct Hv as [->|[-> _]]. }
  assert (Hother : ∀ j, (length done < j < arr)%nat → off ≠ slot w c j).
  { intros j Hj E. apply slot_inj in E; lia. }
  rewrite Hu. constructor; rewrite ?Nat.add_1_r; auto.
  - intros _ r' Hr'. rewrite Hr in Hr'. injection Hr' as <-. fold off.
    rewrite rr_at_insert. split; [exact Hcar|done].
  - intros j r' Hj Hr'. rewrite rr_at_insert_ne by (apply Hother; lia). apply ring_full0; [lia|done].
  - intros s Hs Hj. destruct (decide (OFFSET w c s = off)) as [->|Hne].
    + rewrite rr_at_insert. cbn. destruct Hv as [->|[-> _]]; done.
    + rewrite rr_at_insert_ne by congruence. apply ring_free0; [done|]. intros j Hj'.
      destruct (decide (j = length done)) as [->|]; [|apply Hj; lia].
      intros E. apply Hne. unfold off, slot. by rewrite E.
Qed.

(** The batch is executed. *)
Lemma ring_execute w c rr sent done fly arr :
  ring w c rr sent done true fly arr →
  ring w c rr sent (done ++ [rr_at rr (slot w c (length done))]) false fly arr.
Proof.
  intros []. destruct (lookup_lt_is_Some_2 sent (length done)) as [r Hr]; [lia|].
  constructor; rewrite ?length_app; cbn [length]; rewrite ?Nat.add_0_r; auto; try lia; try done.
  rewrite Nat.add_1_r, (take_S_r _ _ _ Hr). apply Forall2_app; [done|].
  constructor; [auto|constructor].
Qed.

(** What MICA needs of an operation. *)
Lemma executes_req_ok r op : valid_req r → executes r op → op_wf op → req_ok op.
Proof.
  intros (_ & _ & Hv) [[_ Hp] Ho] [Hk Hl] Hg. split; [done|]. split; [|by rewrite Hl].
  destruct Hv as [E|[E El]].
  - rewrite E in Ho. unfold is_get in Hg. by rewrite Ho in Hg.
  - destruct (Hp E) as [-> _]. rewrite El. done.
Qed.
