(* ===== verification/HerdInv.v ===== *)
(** * HERD: the invariant of the system

    [sys_inv] puts the ring of every client at every worker together with
    the windows of the clients and the local invariants of the workers;
    every step of the system keeps it. *)

From stdpp Require Import base gmap list numbers.
From Stdlib Require Import ZArith Lia.
From S2P Require Import Prelude City Mica MicaProof MicaSpec HrdUtil Signal Herd HerdProof HerdEnv HerdSys HerdRing.

(** ** Sums over the workers *)
Definition total (f : nat → nat) : nat := sum_list (map f (seq 0 12)).

Lemma sum_map_ext (f g : nat → nat) l : (∀ w, w ∈ l → f w = g w) → sum_list (map f l) = sum_list (map g l).
Proof.
  induction l as [|x l IH]; intros H; [done|]. cbn. rewrite (H x) by left.
  f_equal. apply IH. intros w Hw. apply H. by right.
Qed.

Lemma sum_map_incr (f g : nat → nat) l w0 : NoDup l → w0 ∈ l → g w0 = S (f w0) →
  (∀ w, w ≠ w0 → g w = f w) → sum_list (map g l) = S (sum_list (map f l)).
Proof.
  induction 1 as [|x l Hx Hnd IH]; intros Hin Hg Hf; [by apply elem_of_nil in Hin|].
  cbn. apply elem_of_cons in Hin as [->|Hin].
  - rewrite Hg. cbn. do 2 f_equal. apply sum_map_ext. intros w Hw. apply Hf. set_solver.
  - rewrite (Hf x) by set_solver. specialize (IH Hin Hg Hf). cbn in IH. lia.
Qed.

Lemma sum_map_diff (f g : nat → nat) l w0 : (∀ w, w ∈ l → g w ≤ f w)%nat → w0 ∈ l →
  (f w0 + sum_list (map g l) ≤ g w0 + sum_list (map f l))%nat.
Proof.
  induction l as [|x l IH]; intros Hle Hin; [by apply elem_of_nil in Hin|]. cbn.
  assert (Hl : (sum_list (map g l) ≤ sum_list (map f l))%nat).
  { clear -Hle. induction l as [|y l IH]; [done|]. cbn.
    pose proof (Hle y ltac:(set_solver)).
    assert (sum_list (map g l) ≤ sum_list (map f l))%nat by (apply IH; set_solver). lia. }
  pose proof (Hle x ltac:(left)). apply elem_of_cons in Hin as [->|Hin]; [cbn in *; lia|].
  specialize (IH ltac:(set_solver) Hin). cbn in *. lia.
Qed.

Lemma total_ext f g : (∀ w, (w < 12)%nat → f w = g w) → total f = total g.
Proof. intros H. apply sum_map_ext. intros w Hw%elem_of_seq. apply H. lia. Qed.

Lemma total_incr f g w0 : (w0 < 12)%nat → g w0 = S (f w0) → (∀ w, w ≠ w0 → g w = f w) →
  total g = S (total f).
Proof.
  intros H. apply sum_map_incr; [apply NoDup_seq|]. apply elem_of_seq. lia.
Qed.

Lemma total_diff f g w0 : (∀ w, (w < 12)%nat → (g w ≤ f w)%nat) → (w0 < 12)%nat →
  (f w0 + total g ≤ g w0 + total f)%nat.
Proof.
  intros H Hw. apply sum_map_diff; [|apply elem_of_seq; lia].
  intros w Hw'%elem_of_seq. apply H. lia.
Qed.

(** ** The invariant *)
Definition done_of (log : list (Z * mica_op)) (c : nat) : list mica_op :=
  omap (λ x, if decide (x.1 = Z.of_nat c) then Some x.2 else None) log.

(** Responses polled by a client that has sent [n] requests. *)
Definition window_start (n : Z) : Z := WINDOW_SIZE * ((n - 1) / WINDOW_SIZE).
Definition polled_of (n : Z) : Z := if n =? 0 then 0 else window_start n.

Definition pair_ok (w c : nat) (rr : region) (sent done : list mica_op) (b : bool)
    (fly : list (Z * Z * mica_op)) (wslot cslot : option Z) : Prop :=
  ∃ arr, ring (Z.of_nat w) (Z.of_nat c) rr sent done b fly arr ∧
    wslot = Some (Z.of_nat (length done + (if b then 1 else 0)) mod WINDOW_SIZE) ∧
    cslot = Some (Z.of_nat (length sent) mod WINDOW_SIZE).

Record client_ok (sent done : nat → nat) (cl : client) (d : cdev) : Prop := {
  co_tx : c_nb_tx cl = Z.of_nat (total sent);
  co_ws : length (c_ws cl) = 12%nat;
  co_buf : length (op_value (c_req_buf cl)) = 46%nat;
  co_arrived : d_arrived d = Z.of_nat (total done);
  co_dropped : d_dropped d = 0;
  co_polled : d_polled d = polled_of (c_nb_tx cl);
  co_recvs : d_recvs d = WINDOW_SIZE + d_polled d;
  co_window : d_polled d ≤ d_arrived d;
  co_fly : Forall (λ x, 0 ≤ off_worker x.1.1 < NUM_WORKERS) (d_fly d);
  co_sq : sq_run (Z.to_nat HRD_Q_DEPTH) [] (d_sq d) = Some (waiting (total sent))
}.

Lemma mod_add_nat n : HRD_MOD_ADD (Z.of_nat n mod WINDOW_SIZE) WINDOW_SIZE = Z.of_nat (n + 1) mod WINDOW_SIZE.
Proof.
  rewrite mod_add_mod by apply mod_window. rewrite Zplus_mod_idemp_l. f_equal. lia.
Qed.

Lemma op_wf_insert rr off op : (∀ off, op_wf (rr_at rr off)) → op_wf op →
  ∀ off', op_wf (rr_at (<[off := op]> rr) off').
Proof.
  intros Hrr Hop off'. destruct (decide (off = off')) as [<-|Hne].
  - by rewrite rr_at_insert.
  - by rewrite rr_at_insert_ne.
Qed.

Lemma clt_range c : (c < 70)%nat → 0 ≤ Z.of_nat c < NUM_CLIENTS.
Proof. unfold NUM_CLIENTS. lia. Qed.

Lemma fly_to_cons_ne w off len r fly : off_worker off ≠ w →
  fly_to w ((off, len, r) :: fly) = fly_to w fly.
Proof. intros H. unfold fly_to. rewrite filter_cons. cbn [fst]. by rewrite decide_False. Qed.

Lemma client_ok_fly sent done cl d fly :
  client_ok sent done cl d → Forall (λ x, 0 ≤ off_worker x.1.1 < NUM_WORKERS) fly →
  client_ok sent done cl (CDev (d_recvs d) (d_arrived d) (d_polled d) (d_dropped d) fly (d_sq d)).
Proof. intros [] ?. by constructor. Qed.

(** ** An iteration of a client *)
Lemma client_iter_inv cfg cl cl' acts :
  length (op_value (c_req_buf cl)) = 46%nat → client_iter cfg cl = Ok (cl', acts) →
  ∃ w s r, (w < 12)%nat ∧ c_ws cl !! w = Some s ∧ valid_req r ∧
    acts = (if window_full cl then [CPostRecv WINDOW_SIZE; CPollRecv WINDOW_SIZE] else []) ++
           (if must_poll (c_nb_tx cl) then [CPollSend] else []) ++
           [CWrite (is_signaled (c_nb_tx cl)) (OFFSET (Z.of_nat w) (clt_gid cfg) s) (req_len r) r] ∧
    c_ws cl' = <[w := HRD_MOD_ADD s WINDOW_SIZE]> (c_ws cl) ∧
    c_nb_tx cl' = c_nb_tx cl + 1 ∧ c_req_buf cl' = r.
Proof.
  intros Hbuf H. unfold client_iter in H.
  destruct (hrd_fastrand (c_seed cl)) as [s1 r1]. destruct (hrd_fastrand s1) as [s2 r2].
  destruct (hrd_fastrand s2) as [s3 r3]. inv_res.
  apply arr_get_inv in H2 as [Hw Hs]. pose proof (Z.mod_pos_bound r1 NUM_WORKERS ltac:(done)) as Hr1.
  unfold arr_set in H3. inv_res. unfold NUM_WORKERS in Hr1.
  assert (Hh : u128_ok a0).
  { pose proof (CityHash128_returns (le_bytes 4 a) 0 4) as Hret. rewrite H1 in Hret. apply Hret.
    - eapply Forall_impl; [|apply le_bytes_range]. done.
    - done.
    - lia.
    - by rewrite length_le_bytes. }
  set (upd := r2 mod 100 <? u32 (update_percentage cfg)) in *.
  exists (Z.to_nat (r1 mod NUM_WORKERS)), a1, (forge a0 upd (c_req_buf cl)).
  split; [clear -Hr1; unfold NUM_WORKERS; lia|]. split; [done|]. split.
  - split; [exact Hh|]. split; [done|]. destruct upd; [by right|by left].
  - rewrite Z2Nat.id by done. cbn. split; [|done]. do 2 f_equal. unfold req_len, forge. cbn. by destruct upd.
Qed.

(** The device after an iteration that did not have to wait for ever. *)
Lemma dev_acts_iter cl d d' sg off len r :
  dev_acts ((if window_full cl then [CPostRecv WINDOW_SIZE; CPollRecv WINDOW_SIZE] else []) ++
            (if must_poll (c_nb_tx cl) then [CPollSend] else []) ++ [CWrite sg off len r]) d = Some d' →
  let n := if window_full cl then WINDOW_SIZE else 0 in
  (window_full cl = true → WINDOW_SIZE ≤ d_arrived d - d_polled d) ∧
  d' = CDev (d_recvs d + n) (d_arrived d) (d_polled d + n) (d_dropped d) (d_fly d ++ [(off, len, r)])
         ((d_sq d ++ queue_acts (c_nb_tx cl)) ++ [SqPost [sg]]).
Proof.
  intros H. unfold queue_acts. destruct (window_full cl).
  - cbn [app dev_acts dev_act mbind option_bind] in H. cbn [d_arrived d_polled] in H.
    destruct (d_arrived d - d_polled d <? WINDOW_SIZE) eqn:E; [done|]. apply Z.ltb_ge in E.
    cbn [mbind option_bind] in H. split; [done|].
    destruct (must_poll _); cbn in H; injection H as <-; cbn; by rewrite ?app_nil_r.
  - cbn [app] in H. split; [done|]. rewrite !Z.add_0_r.
    destruct (must_poll _); cbn in H; injection H as <-; cbn; by rewrite ?app_nil_r.
Qed.

(** The window after one more request. *)
Lemma polled_of_step n : 0 ≤ n →
  polled_of (n + 1) = polled_of n + (if (n mod WINDOW_SIZE =? 0) && (0 <? n) then WINDOW_SIZE else 0).
Proof.
  intros Hn. unfold polled_of, window_start, WINDOW_SIZE.
  rewrite (proj2 (Z.eqb_neq (n + 1) 0)) by lia. replace (n + 1 - 1) with n by lia.
  destruct (n =? 0) eqn:E0; [apply Z.eqb_eq in E0; by subst|]. apply Z.eqb_neq in E0.
  rewrite (proj2 (Z.ltb_lt 0 n)), andb_true_r by lia.
  destruct (n mod 32 =? 0) eqn:E1; [apply Z.eqb_eq in E1|apply Z.eqb_neq in E1];
    Z.to_euclidean_division_equations; lia.
Qed.

Lemma polled_of_room n : 0 ≤ n → polled_of n ≤ n ≤ polled_of n + WINDOW_SIZE ∧
  ((n mod WINDOW_SIZE =? 0) && (0 <? n) = false → n < polled_of n + WINDOW_SIZE).
Proof.
  intros Hn. unfold polled_of, window_start, WINDOW_SIZE.
  destruct (n =? 0) eqn:E0; [apply Z.eqb_eq in E0; subst; split; [lia|intros; lia]|]. apply Z.eqb_neq in E0.
  rewrite (proj2 (Z.ltb_lt 0 n)), andb_true_r, Z.eqb_neq by lia.
  split; [|intros ?]; Z.to_euclidean_division_equations; lia.
Qed.

Lemma client_ok_ext f f' g g' cl d : (∀ w, f' w = f w) → (∀ w, g' w = g w) →
  client_ok f g cl d → client_ok f' g' cl d.
Proof.
  intros Hf Hg []. assert (total f' = total f) as E by (by apply total_ext).
  assert (total g' = total g) as E' by (by apply total_ext). by constructor; rewrite ?E, ?E'.
Qed.

(** What an iteration adds to the history. *)
Lemma record_sent_iter sent c w j r (win pol sg : bool) w' c' : (c < 70)%nat →
  record_sent sent c
    ((if win then [CPostRecv WINDOW_SIZE; CPollRecv WINDOW_SIZE] else []) ++
     (if pol then [CPollSend] else []) ++
     [CWrite sg (slot (Z.of_nat w) (Z.of_nat c) j) (req_len r) r]) w' c' =
  sent w' c' ++ (if decide ((w', c') = (w, c)) then [r] else []).
Proof.
  intros Hc. unfold record_sent. f_equal. destruct (decide (c' = c)) as [->|Hne].
  - replace (omap _ _) with (if decide (w' = w) then [r] else []).
    + destruct (decide (w' = w)) as [->|Hne]; [by rewrite decide_True|]. rewrite decide_False by congruence. done.
    + destruct (off_worker_OFFSET (Z.of_nat w) (Z.of_nat c) (Z.of_nat j mod WINDOW_SIZE)) as [E _];
        [by apply clt_range|apply mod_window|].
      destruct win, pol; cbn -[decide]; unfold slot; rewrite E;
        (destruct (decide (w' = w)) as [->|Hne];
          [by rewrite decide_True by done|by rewrite decide_False by (intros ?%Nat2Z.inj; congruence)]).
  - rewrite decide_False by congruence. done.
Qed.

(** The send queue of a client posts one request at a time. *)
Lemma client_sq_step acts n :
  sq_run (Z.to_nat HRD_Q_DEPTH) [] acts = Some (waiting n) →
  sq_run (Z.to_nat HRD_Q_DEPTH) []
    ((acts ++ queue_acts (Z.of_nat n)) ++ [SqPost [is_signaled (Z.of_nat n)]]) = Some (waiting (n + 1)).
Proof.
  intros H. rewrite <-app_assoc, sq_run_app, H. cbn [mbind option_bind].
  pose proof (batch_ok (Z.to_nat HRD_Q_DEPTH) n 1 ltac:(unfold HRD_Q_DEPTH; lia) ltac:(lia)) as Hb.
  unfold batch_acts, batch_queue, batch_flags in Hb. cbn [seq flat_map map] in Hb.
  rewrite app_nil_r in Hb. exact Hb.
Qed.

(** ** The responses of a batch *)
Lemma filter_length_Forall2 {A B} (P : A → Prop) (Q : B → Prop)
    `{∀ x, Decision (P x), ∀ y, Decision (Q y)} (R : A → B → Prop) l k :
  Forall2 R l k → (∀ x y, R x y → (P x ↔ Q y)) → length (filter P l) = length (filter Q k).
Proof.
  intros Hf HR. induction Hf as [|x y l k Hxy Hlk IH]; [done|]. rewrite !filter_cons.
  specialize (HR x y Hxy). destruct (decide (P x)), (decide (Q y)); cbn; try tauto; congruence.
Qed.

Lemma zip_addr_inj {A B} (l : list A) (k : list B) i j a b :
  NoDup (zip l k) → l !! i = Some a → k !! i = Some b → l !! j = Some a → k !! j = Some b → i = j.
Proof.
  intros Hnd H1 H2 H3 H4. eapply (NoDup_lookup _ i j (a, b) Hnd);
    apply lookup_zip_with_Some; eexists _, _; eauto.
Qed.

Lemma addressed_iff cfg tx0 clts k resps i m (c : nat) :
  NoDup (zip (ah cfg) (clt_qpn cfg)) → Forall (λ c, 0 ≤ c) clts →
  resp_msg cfg tx0 clts k resps i m → (clts !! i = Some (Z.of_nat c) ↔ addressed cfg c m = true).
Proof.
  intros Hnd Hpos (c' & r & Hc & _ & _ & Ha & Hq & _). unfold addressed. rewrite bool_decide_eq_true.
  pose proof (Forall_lookup_1 _ _ _ _ Hpos Hc) as Hc'. cbv beta in Hc'. split.
  - rewrite Hc. intros [= ->]. by rewrite Nat2Z.id in *.
  - intros [Ha' Hq']. pose proof (zip_addr_inj _ _ _ _ _ _ Hnd Ha Hq Ha' Hq'). rewrite Hc. f_equal. lia.
Qed.

Lemma idx_filter_one nsp p clts (c : nat) : NoDup clts →
  length (filter (λ i, clts !! i = Some (Z.of_nat c)) (idx nsp p clts)) =
  if decide (Z.of_nat c ∈ clts ∧ Z.of_nat c mod nsp = p) then 1%nat else 0%nat.
Proof.
  intros Hnd. destruct (decide _) as [[Hin Hp]|Hn].
  - apply list_elem_of_lookup in Hin as [i Hi].
    assert (Hperm : filter (λ i, clts !! i = Some (Z.of_nat c)) (idx nsp p clts) ≡ₚ [i]).
    { apply list.NoDup_Permutation; [apply list.NoDup_filter, idx_NoDup|apply NoDup_singleton|].
      intros j. rewrite list_elem_of_filter, list_elem_of_singleton, elem_of_idx. split.
      - intros [Hj _]. by eapply NoDup_lookup.
      - intros ->. eauto. }
    by rewrite Hperm.
  - destruct (filter _ _) as [|j l] eqn:E; [done|]. exfalso. apply Hn.
    assert (Hj : j ∈ filter (λ i, clts !! i = Some (Z.of_nat c)) (idx nsp p clts)) by (rewrite E; left).
    apply list_elem_of_filter in Hj as [Hc (x & Hx & Hp)%elem_of_idx].
    rewrite Hc in Hx. injection Hx as <-. split; [by eapply list_elem_of_lookup_2|done].
Qed.

Lemma arrivals_app cfg c a b : arrivals cfg c (a ++ b) = (arrivals cfg c a + arrivals cfg c b)%nat.
Proof. unfold arrivals. by rewrite flat_map_app, list.filter_app, length_app. Qed.

(** Every client of the batch gets one response, the others none. *)
Lemma arrivals_posts cfg tx0 clts k resps msgs c n : ∀ i,
  NoDup (zip (ah cfg) (clt_qpn cfg)) → NoDup clts → Forall (λ c, 0 ≤ c) clts →
  (∀ p, i ≤ p < i + Z.of_nat n →
    Forall2 (resp_msg cfg tx0 clts k resps) (idx (num_server_ports cfg) p clts) (msgs p)) →
  arrivals cfg c (posts (num_server_ports cfg) clts msgs n i) =
  if decide (Z.of_nat c ∈ clts ∧ i ≤ Z.of_nat c mod num_server_ports cfg < i + Z.of_nat n)
  then 1%nat else 0%nat.
Proof.
  induction n as [|n IH]; intros i Hz Hnd Hpos Hm; cbn [posts].
  - rewrite decide_False by lia. done.
  - rewrite arrivals_app, IH; auto; [|intros p Hp; apply Hm; lia].
    assert (E : arrivals cfg c (if decide (idx (num_server_ports cfg) i clts = []) then [] else [APost i 0 (msgs i)])
      = length (filter (λ m, addressed cfg c m = true) (msgs i))).
    { pose proof (Hm i ltac:(lia)) as Hi. destruct (decide _) as [E|_].
      - rewrite E in Hi. apply Forall2_nil_inv_l in Hi. by rewrite Hi.
      - unfold arrivals. cbn. by rewrite app_nil_r. }
    rewrite E, <-(filter_length_Forall2 (λ j, clts !! j = Some (Z.of_nat c))
      (λ m, addressed cfg c m = true) _ _ _ (Hm i ltac:(lia))).
    + rewrite idx_filter_one by done.
      repeat case_decide; cbn; intuition lia.
    + intros j m Hjm. by eapply addressed_iff.
Qed.

Lemma mod_add_inj s n : 0 ≤ s < WINDOW_SIZE →
  HRD_MOD_ADD s WINDOW_SIZE = Z.of_nat (n + 1) mod WINDOW_SIZE → s = Z.of_nat n mod WINDOW_SIZE.
Proof.
  intros Hs. rewrite mod_add_mod by done. unfold WINDOW_SIZE in *. intros E.
  Z.to_euclidean_division_equations. lia.
Qed.

(** The batch, operation by operation. *)
Lemma batch_log_eq cfg tx0 clts wk rr w (A : Z → nat) : winv cfg tx0 clts wk → wrkr_lid cfg = w →
  (length clts ≤ 70)%nat →
  (∀ c, c ∈ clts → ws wk !! Z.to_nat c = Some (Z.of_nat (A c + 1) mod WINDOW_SIZE)) →
  batch_log wk rr = map (λ c, (c, rr_at rr (slot w c (A c)))) clts.
Proof.
  intros Hw Hlid Hlen HA. unfold batch_log. rewrite (wi_wr_i _ _ _ _ Hw), Nat2Z.id. apply list_eq. intros k.
  rewrite !list_lookup_fmap. destruct (clts !! k) as [c|] eqn:Ec.
  - rewrite lookup_take_lt by (by eapply lookup_lt_Some).
    destruct (wi_ptr _ _ _ _ Hw k c Ec) as (s & Hs & -> & Hws).
    assert (Hin : c ∈ clts) by (by eapply list_elem_of_lookup_2).
    destruct (wi_recent _ _ _ _ Hw c Hin) as [Hc _].
    rewrite (HA c Hin) in Hws. injection Hws as Hws. symmetry in Hws. apply mod_add_inj in Hws; [|done].
    cbn. rewrite Hlid. destruct (off_worker_OFFSET w c s Hc Hs) as [_ ->].
    unfold slot. by rewrite Hws.
  - rewrite lookup_take_ge; [done|]. by apply lookup_ge_None.
Qed.

Lemma done_of_map (f : Z → mica_op) clts (c : nat) : NoDup clts →
  done_of (map (λ x, (x, f x)) clts) c = if decide (Z.of_nat c ∈ clts) then [f (Z.of_nat c)] else [].
Proof.
  induction 1 as [|x l Hx Hnd IH]; [done|]. cbn [map]. unfold done_of in *. cbn -[decide].
  destruct (decide (x = Z.of_nat c)) as [->|Hne].
  - rewrite decide_True by left. rewrite IH, decide_False by done. done.
  - rewrite IH. destruct (decide (Z.of_nat c ∈ l)).
    + rewrite decide_True by (by right). done.
    + rewrite decide_False by set_solver. done.
Qed.

Section Inv.
Context (wcfg : nat → worker_cfg) (ccfg : nat → client_cfg) (kvs : list mica_kv).

(** Worker [w] runs with identifier [w] and knows the clients by distinct
    addresses; client [c] runs with identifier [c]. *)
Record setup_ok : Prop := {
  so_kvs : length kvs = 12%nat;
  so_cfg : ∀ w, (w < 12)%nat → cfg_ok (wcfg w);
  so_lid : ∀ w, (w < 12)%nat → wrkr_lid (wcfg w) = Z.of_nat w;
  so_addr : ∀ w, (w < 12)%nat → NoDup (zip (ah (wcfg w)) (clt_qpn (wcfg w)));
  so_gid : ∀ c, (c < 70)%nat → clt_gid (ccfg c) = Z.of_nat c
}.

Record sys_inv (clts : nat → list Z) (s : sys) : Prop := {
  si_wk : length (s_wk s) = 12%nat;
  si_clt : length (s_clt s) = 70%nat;
  si_dev : length (s_dev s) = 70%nat;
  si_rr : ∀ off, op_wf (rr_at (s_rr s) off);
  si_worker : ∀ w wk, s_wk s !! w = Some wk → ∃ tx0, winv (wcfg w) tx0 (clts w) wk;
  si_pair : ∀ w c wk cl d, s_wk s !! w = Some wk → s_clt s !! c = Some cl → s_dev s !! c = Some d →
    pair_ok w c (s_rr s) (s_sent s w c) (done_of (s_log s w) c)
      (bool_decide (Z.of_nat c ∈ clts w)) (d_fly d) (ws wk !! c) (c_ws cl !! w);
  si_client : ∀ c cl d, s_clt s !! c = Some cl → s_dev s !! c = Some d →
    client_ok (λ w, length (s_sent s w c)) (λ w, length (done_of (s_log s w) c)) cl d
}.

Lemma inv_initial s : setup_ok → initial kvs s → sys_inv (λ _, []) s.
Proof.
  intros Hso (Hrr & Hwk & (seeds & Hs & Hclt & Hbuf) & Hdev & Hsent & Hlog).
  assert (Hat : ∀ off, rr_at (s_rr s) off = op0).
  { intros off. rewrite Hrr. done. }
  pose proof (so_kvs Hso) as Hk. constructor.
  - by rewrite Hwk, length_map.
  - by rewrite Hclt, length_map.
  - by rewrite Hdev.
  - intros off. rewrite Hat. apply op0_wf.
  - intros w wk E. assert (w < 12)%nat by (rewrite <-Hk; apply lookup_lt_Some in E; by rewrite Hwk, length_map in E).
    rewrite Hwk in E. apply list_lookup_fmap_Some in E as (k & -> & _).
    eexists. apply winv_begin; [by apply so_cfg|]. apply winv_init. by apply so_cfg.
  - intros w c wk cl d Ew Ec Ed. rewrite Hsent, Hlog. cbn [done_of omap list_omap].
    rewrite Hdev in Ed. apply lookup_replicate in Ed as [-> Hc].
    exists 0%nat. split; [rewrite bool_decide_eq_false_2 by (by intros ?%elem_of_nil); by apply ring_init|].
    rewrite bool_decide_eq_false_2 by (by intros ?%elem_of_nil).
    assert (w < 12)%nat by (rewrite <-Hk; apply lookup_lt_Some in Ew; by rewrite Hwk, length_map in Ew).
    rewrite Hwk in Ew. apply list_lookup_fmap_Some in Ew as (k & -> & _).
    rewrite Hclt in Ec. apply list_lookup_fmap_Some in Ec as (x & -> & _).
    cbn [begin_iter worker_init ws client_init c_ws]. by rewrite !lookup_replicate_2 by done.
  - intros c cl d Ec Ed. rewrite Hdev in Ed. apply lookup_replicate in Ed as [-> Hc].
    rewrite Hclt in Ec. apply list_lookup_fmap_Some in Ec as (x & -> & Hx).
    assert (Ht : total (λ w, length (s_sent s w c)) = 0%nat).
    { rewrite (total_ext _ (λ _, 0%nat)); [done|]. intros. by rewrite Hsent. }
    assert (Ht' : total (λ w, length (done_of (s_log s w) c)) = 0%nat).
    { rewrite (total_ext _ (λ _, 0%nat)); [done|]. intros. by rewrite Hlog. }
    constructor; rewrite ?Ht, ?Ht'; try done.
    exact (Forall_lookup_1 _ _ _ _ Hbuf Hx).
Qed.

(** A polling step. *)
Lemma inv_poll clts s w wk wk' rr acts : setup_ok → sys_inv clts s →
  s_wk s !! w = Some wk → polling wk = true →
  poll_step (wcfg w) wk (s_rr s) = Ok (wk', rr, acts) →
  ∃ clts', sys_inv clts' (Sys rr (<[w := wk']> (s_wk s)) (s_clt s) (s_dev s) (s_sent s) (s_log s)).
Proof.
  intros Hso Hinv Ewk Hp Hst. pose proof (lookup_lt_Some _ _ _ Ewk) as Hw.
  rewrite (si_wk _ _ Hinv) in Hw. destruct (si_worker _ _ Hinv _ _ Ewk) as [tx0 Hwi].
  destruct (poll_inv _ _ _ _ (s_rr s) (so_cfg Hso w Hw) Hwi Hp)
    as (sl & w1 & Hsl & Hslr & Hcr & _ & _ & Hcase). cbv zeta in *.
  rewrite (so_lid Hso w Hw) in Hcase. set (cc := HRD_MOD_ADD (clt_i wk) NUM_CLIENTS) in *. clearbody cc.
  destruct Hcase as [(_ & E & Hw' & Hws & _)|(Hop & Hnew & E & Hw' & Hws & _)];
    rewrite E in Hst; injection Hst as <- <- <-.
  - exists clts. destruct Hinv. constructor; cbn; auto.
    + by rewrite length_insert.
    + intros w2 wk2 E2. apply list_lookup_insert_Some in E2 as [(<- & <- & _)|[_ E2]]; eauto.
    + intros w2 c2 wk2 cl d E2. apply list_lookup_insert_Some in E2 as [(<- & <- & _)|[_ E2]]; eauto.
      rewrite Hws. eauto.
  - destruct (Z_of_nat_complete cc) as [c Hcc]; [lia|].
    assert (Hc : (c < 70)%nat) by (unfold NUM_CLIENTS in Hcr; lia).
    rewrite Hcc, Nat2Z.id in Hws, Hsl.
    exists (λ w', if decide (w' = w) then clts w ++ [cc] else clts w').
    pose proof Hinv as Hinv0. destruct Hinv0. constructor; cbn; auto.
    + by rewrite length_insert.
    + apply op_wf_insert; [done|]. specialize (si_rr0 (OFFSET (Z.of_nat w) cc sl)).
      destruct si_rr0. by split.
    + intros w2 wk2 E2. apply list_lookup_insert_Some in E2 as [(<- & <- & _)|[Hne E2]].
      * rewrite decide_True by done. eauto.
      * rewrite decide_False by done. eauto.
    + intros w2 c2 wk2 cl d E2 Ec Ed.
      destruct (decide (w2 = w)) as [->|Hne].
      * rewrite list_lookup_insert_eq in E2 by lia. injection E2 as <-.
        destruct (si_pair0 w c2 wk cl d Ewk Ec Ed) as (arr & Hring & Hwsl & Hcsl).
        destruct (decide (c2 = c)) as [->|Hnc].
        -- rewrite Hcc in Hnew. rewrite bool_decide_eq_false_2 in Hring, Hwsl by done.
           rewrite bool_decide_eq_true_2 by (rewrite Hcc; set_solver).
           rewrite Hsl, Nat.add_0_r in Hwsl. injection Hwsl as Hslv.
           exists arr. split; [|split; [|done]].
           ++ rewrite Hcc, Hslv in *. apply ring_take; done.
           ++ rewrite Hws, list_lookup_insert_eq by (by rewrite (wi_ws _ _ _ _ Hwi)).
              by rewrite Hslv, mod_add_nat.
        -- rewrite (bool_decide_ext _ (Z.of_nat c2 ∈ clts w)) by (rewrite Hcc, elem_of_app, list_elem_of_singleton, (inj_iff Z.of_nat); naive_solver).
           exists arr. rewrite Hws, list_lookup_insert_ne by done. split; [|done].
           eapply ring_frame; [|done|exact Hring]. apply lookup_lt_Some in Ec.
           rewrite (si_clt _ _ Hinv) in Ec. rewrite Hcc.
           apply same_slots_insert; [by apply clt_range|by apply clt_range|done|].
           by intros [= ?%Nat2Z.inj].
      * rewrite list_lookup_insert_ne in E2 by done.
        destruct (si_pair0 w2 c2 wk2 cl d E2 Ec Ed) as (arr & Hring & Hwsl & Hcsl).
        exists arr. split; [|done]. eapply ring_frame; [|done|exact Hring]. apply lookup_lt_Some in Ec.
        rewrite (si_clt _ _ Hinv) in Ec. rewrite Hcc.
        apply same_slots_insert; [by apply clt_range|by apply clt_range|done|].
        by intros [= ?%Nat2Z.inj _].
Qed.

(** The slot that a write arrives at, and who it is for. *)
Lemma deliver_target clts s c d off len req fly : sys_inv clts s →
  s_dev s !! c = Some d → d_fly d = (off, len, req) :: fly →
  ∃ w wk cl, off_worker off = Z.of_nat w ∧ s_wk s !! w = Some wk ∧ s_clt s !! c = Some cl ∧
    (c < 70)%nat ∧ Forall (λ x, 0 ≤ off_worker x.1.1 < NUM_WORKERS) fly.
Proof.
  intros Hinv Ed Hfly. pose proof (lookup_lt_Some _ _ _ Ed) as Hc. rewrite (si_dev _ _ Hinv) in Hc.
  destruct (lookup_lt_is_Some_2 (s_clt s) c) as [cl Ec]; [by rewrite (si_clt _ _ Hinv)|].
  pose proof (co_fly _ _ _ _ (si_client _ _ Hinv c cl d Ec Ed)) as Hf. rewrite Hfly in Hf.
  apply list.Forall_cons in Hf as [Hw Hf]. cbn in Hw. unfold NUM_WORKERS in Hw.
  destruct (Z_of_nat_complete (off_worker off)) as [w Ew]; [lia|].
  destruct (lookup_lt_is_Some_2 (s_wk s) w) as [wk Ewk]; [rewrite (si_wk _ _ Hinv); lia|].
  by exists w, wk, cl.
Qed.

(** The arrival of a write. *)
Lemma inv_deliver clts s c d off len req fly : sys_inv clts s →
  s_dev s !! c = Some d → d_fly d = (off, len, req) :: fly →
  sys_inv clts (Sys (write_region (s_rr s) off len req) (s_wk s) (s_clt s)
    (<[c := CDev (d_recvs d) (d_arrived d) (d_polled d) (d_dropped d) fly (d_sq d)]> (s_dev s))
    (s_sent s) (s_log s)).
Proof.
  intros Hinv Ed Hfly.
  destruct (deliver_target _ _ _ _ _ _ _ _ Hinv Ed Hfly) as (w & wk & cl & Ew & Ewk & Ec & Hc & Hf).
  destruct (si_pair _ _ Hinv w c wk cl d Ewk Ec Ed) as (arr & Hring & Hwsl & Hcsl). rewrite Hfly in Hring.
  destruct (ring_deliver _ _ _ _ _ _ _ _ _ _ _ (si_rr _ _ Hinv) Ew Hring)
    as (Hoff & Hv & Hlen & _ & _ & Hring').
  assert (Hsame : ∀ w' c', (c' < 70)%nat → (w', c') ≠ (w, c) →
    same_slots (Z.of_nat w') (Z.of_nat c') (s_rr s) (write_region (s_rr s) off len req)).
  { intros w' c' Hc' Hne. unfold write_region. rewrite Hoff. unfold slot.
    apply same_slots_insert; [by apply clt_range|by apply clt_range|apply mod_window|].
    intros [= ->%Nat2Z.inj ->%Nat2Z.inj]. done. }
  pose proof Hinv as Hinv0. destruct Hinv0. constructor; cbn; auto.
  - by rewrite length_insert.
  - unfold write_region. apply op_wf_insert; [done|]. rewrite Hlen.
    apply rdma_write_spec; [apply si_rr0|done].
  - intros w2 c2 wk2 cl2 d2 E2 Ec2 Ed2.
    pose proof (lookup_lt_Some _ _ _ Ec2) as Hc2. rewrite si_clt0 in Hc2.
    apply list_lookup_insert_Some in Ed2 as [(<- & <- & _)|[Hne Ed2]].
    + rewrite Ec in Ec2. injection Ec2 as <-. cbn [d_fly]. destruct (decide (w2 = w)) as [->|Hnw].
      * rewrite Ewk in E2. injection E2 as <-. by exists (S arr).
      * destruct (si_pair0 w2 c wk2 cl d E2 Ec Ed) as (arr2 & Hring2 & Hrest).
        exists arr2. split; [|done]. eapply ring_frame; [| |exact Hring2].
        -- apply Hsame; [done|]. congruence.
        -- rewrite Hfly, fly_to_cons_ne; [done|]. rewrite Ew. intros ?%Nat2Z.inj. done.
    + destruct (si_pair0 w2 c2 wk2 cl2 d2 E2 Ec2 Ed2) as (arr2 & Hring2 & Hrest).
      exists arr2. split; [|done]. eapply ring_frame; [|done|exact Hring2].
      apply Hsame; [done|]. congruence.
  - intros c2 cl2 d2 Ec2 Ed2. apply list_lookup_insert_Some in Ed2 as [(<- & <- & _)|[Hne Ed2]]; eauto.
    apply client_ok_fly; [by apply si_client0|done].
Qed.

Lemma pair_lengths clts s w c cl d : sys_inv clts s → (w < 12)%nat →
  s_clt s !! c = Some cl → s_dev s !! c = Some d →
  (length (done_of (s_log s w) c) ≤ length (s_sent s w c))%nat.
Proof.
  intros Hinv Hw Ec Ed.
  destruct (lookup_lt_is_Some_2 (s_wk s) w) as [wk Ew]; [by rewrite (si_wk _ _ Hinv)|].
  destruct (si_pair _ _ Hinv w c wk cl d Ew Ec Ed) as (arr & Hr & _).
  pose proof (ring_taken _ _ _ _ _ _ _ _ Hr). pose proof (ring_arr _ _ _ _ _ _ _ _ Hr). lia.
Qed.

(** A client that does not wait has fewer than 32 requests at any worker. *)
Lemma send_room clts s w c cl d : sys_inv clts s → (w < 12)%nat →
  s_clt s !! c = Some cl → s_dev s !! c = Some d →
  (window_full cl = true → WINDOW_SIZE ≤ d_arrived d - d_polled d) →
  (length (s_sent s w c) < length (done_of (s_log s w) c) + 32)%nat.
Proof.
  intros Hinv Hw Ec Ed Hwin.
  pose proof (total_diff (λ w, length (s_sent s w c)) (λ w, length (done_of (s_log s w) c)) w
    (λ w' Hw', pair_lengths _ _ _ _ _ _ Hinv Hw' Ec Ed) Hw) as Hd. cbv beta in Hd.
  destruct (si_client _ _ Hinv c cl d Ec Ed) as [Htx _ _ Harr _ Hpol _ Hle _ _].
  destruct (polled_of_room (c_nb_tx cl)) as [Hroom Hlt]; [lia|].
  unfold window_full in Hwin. unfold WINDOW_SIZE in *.
  destruct ((c_nb_tx cl mod 32 =? 0) && (0 <? c_nb_tx cl)).
  - specialize (Hwin eq_refl). lia.
  - specialize (Hlt eq_refl). lia.
Qed.

(** An iteration of a client. *)
Lemma inv_client clts s c cl cl' d d' acts : setup_ok → sys_inv clts s →
  s_clt s !! c = Some cl → s_dev s !! c = Some d →
  client_iter (ccfg c) cl = Ok (cl', acts) → dev_acts acts d = Some d' →
  sys_inv clts (Sys (s_rr s) (s_wk s) (<[c := cl']> (s_clt s)) (<[c := d']> (s_dev s))
                  (record_sent (s_sent s) c acts) (s_log s)).
Proof.
  intros Hso Hinv Ec Ed Hit Hact. pose proof (si_client _ _ Hinv c cl d Ec Ed) as Hco.
  pose proof (lookup_lt_Some _ _ _ Ec) as Hc. rewrite (si_clt _ _ Hinv) in Hc.
  destruct (client_iter_inv _ _ _ _ (co_buf _ _ _ _ Hco) Hit)
    as (w & sl & r & Hw & Hsl & Hv & -> & Hws & Htx & Hbuf).
  rewrite (so_gid Hso c Hc) in *.
  destruct (lookup_lt_is_Some_2 (s_wk s) w) as [wk Ew]; [by rewrite (si_wk _ _ Hinv)|].
  destruct (si_pair _ _ Hinv w c wk cl d Ew Ec Ed) as (arr & Hring & Hwsl & Hcsl).
  rewrite Hsl in Hcsl. injection Hcsl as ->.
  change (OFFSET _ _ _) with (slot (Z.of_nat w) (Z.of_nat c) (length (s_sent s w c))) in *.
  destruct (dev_acts_iter _ _ _ _ _ _ _ Hact) as [Hwin ->]. clear Hact Hit.
  pose proof (send_room _ _ _ _ _ _ Hinv Hw Ec Ed Hwin) as Hroom.
  pose proof Hinv as Hinv0. destruct Hinv0. constructor; cbn; auto.
  - by rewrite length_insert.
  - by rewrite length_insert.
  - intros w2 c2 wk2 cl2 d2 E2 Ec2 Ed2. rewrite record_sent_iter by done.
    destruct (decide (c2 = c)) as [->|Hnc].
    + rewrite list_lookup_insert_eq in Ec2 by (by rewrite si_clt0). injection Ec2 as <-.
      rewrite list_lookup_insert_eq in Ed2 by (by rewrite si_dev0). injection Ed2 as <-.
      cbn [d_fly]. rewrite Hws. destruct (decide (w2 = w)) as [->|Hnw].
      * rewrite decide_True by done. rewrite Ew in E2. injection E2 as <-.
        exists arr. split; [|split; [done|]].
        -- apply ring_send; auto. by apply clt_range.
        -- rewrite list_lookup_insert_eq by (by rewrite (co_ws _ _ _ _ Hco)).
           by rewrite length_app, mod_add_nat.
      * rewrite decide_False by congruence. rewrite app_nil_r, list_lookup_insert_ne by done.
        destruct (si_pair0 w2 c wk2 cl d E2 Ec Ed) as (arr2 & Hring2 & Hrest).
        exists arr2. split; [|done]. eapply ring_frame; [by intros ??| |exact Hring2].
        rewrite fly_to_app, fly_to_slot by (by apply clt_range).
        rewrite decide_False by (intros ?%Nat2Z.inj; done). apply app_nil_r.
    + rewrite decide_False by congruence. rewrite app_nil_r.
      rewrite list_lookup_insert_ne in Ec2 by done. rewrite list_lookup_insert_ne in Ed2 by done. eauto.
  - intros c2 cl2 d2 Ec2 Ed2. destruct (decide (c2 = c)) as [->|Hnc].
    + rewrite list_lookup_insert_eq in Ec2 by (by rewrite si_clt0). injection Ec2 as <-.
      rewrite list_lookup_insert_eq in Ed2 by (by rewrite si_dev0). injection Ed2 as <-.
      match goal with |- client_ok ?f _ _ _ =>
        assert (Ht : total f = S (total (λ w', length (s_sent s w' c)))) end.
      { apply (total_incr _ _ w Hw); [|intros w' Hw']; rewrite record_sent_iter by done.
        - rewrite decide_True by done. rewrite length_app. cbn. lia.
        - rewrite decide_False by congruence. by rewrite app_nil_r. }
      destruct Hco. constructor; rewrite ?Ht; cbn [d_recvs d_arrived d_polled d_dropped d_fly d_sq]; auto.
      * rewrite Htx, co_tx0. lia.
      * by rewrite Hws, length_insert.
      * rewrite Hbuf. apply Hv.
      * rewrite Htx, polled_of_step by lia. by rewrite co_polled0.
      * rewrite co_recvs0. unfold WINDOW_SIZE. lia.
      * specialize (Hwin). unfold WINDOW_SIZE in *. destruct (window_full cl); lia.
      * apply list.Forall_app. split; [done|]. constructor; [|constructor]. cbn.
        unfold slot. destruct (off_worker_OFFSET (Z.of_nat w) (Z.of_nat c)
          (Z.of_nat (length (s_sent s w c)) mod WINDOW_SIZE)) as [-> _];
          [by apply clt_range|apply mod_window|]. unfold NUM_WORKERS. lia.
      * rewrite co_tx0. replace (S (total _)) with (total (λ w, length (s_sent s w c)) + 1)%nat by lia.
        by apply client_sq_step.
    + rewrite list_lookup_insert_ne in Ec2 by done. rewrite list_lookup_insert_ne in Ed2 by done.
      eapply client_ok_ext; [|done|by apply si_client0].
      intros w'. cbv beta. rewrite record_sent_iter by done. rewrite decide_False by congruence.
      by rewrite app_nil_r.
Qed.

Lemma done_of_app l l' c : done_of (l ++ l') c = done_of l c ++ done_of l' c.
Proof. apply omap_app. Qed.

Lemma batch_size w wk tx0 l : setup_ok → (w < 12)%nat → winv (wcfg w) tx0 l wk → (length l ≤ 32)%nat.
Proof.
  intros Hso Hw Hwi. pose proof (wi_post _ _ _ _ Hwi). pose proof (cfg_postlist _ (so_cfg Hso w Hw)).
  unfold MICA_MAX_BATCH_SIZE in *. lia.
Qed.

(** The batch in terms of the rings: the oldest request of each client. *)
Lemma batch_done clts s w wk tx0 c : setup_ok → sys_inv clts s → s_wk s !! w = Some wk →
  winv (wcfg w) tx0 (clts w) wk → 
  done_of (batch_log wk (s_rr s)) c =
    if decide (Z.of_nat c ∈ clts w)
    then [rr_at (s_rr s) (slot (Z.of_nat w) (Z.of_nat c) (length (done_of (s_log s w) c)))] else [].
Proof.
  intros Hso Hinv Ew Hwi. pose proof (lookup_lt_Some _ _ _ Ew) as Hw. rewrite (si_wk _ _ Hinv) in Hw.
  rewrite (batch_log_eq _ _ _ _ (s_rr s) (Z.of_nat w) (λ c, length (done_of (s_log s w) (Z.to_nat c))) Hwi
    (so_lid Hso w Hw)).
  - rewrite (done_of_map (λ c, rr_at (s_rr s) (slot (Z.of_nat w) c (length (done_of (s_log s w) (Z.to_nat c)))))).
    + by rewrite Nat2Z.id.
    + apply Hwi.
  - pose proof (batch_size _ _ _ _ Hso Hw Hwi). lia.
  - intros c' Hin. destruct (wi_recent _ _ _ _ Hwi c' Hin) as [Hc' _].
    destruct (Z_of_nat_complete c') as [n ->]; [lia|]. rewrite Nat2Z.id.
    assert (Hn : (n < 70)%nat) by (unfold NUM_CLIENTS in Hc'; lia).
    destruct (lookup_lt_is_Some_2 (s_clt s) n) as [cl Ec]; [by rewrite (si_clt _ _ Hinv)|].
    destruct (lookup_lt_is_Some_2 (s_dev s) n) as [d Ed]; [by rewrite (si_dev _ _ Hinv)|].
    destruct (si_pair _ _ Hinv w n wk cl d Ew Ec Ed) as (arr & _ & -> & _).
    by rewrite bool_decide_eq_true_2.
Qed.

(** A response that is under way finds a RECV. *)
Lemma arrive_room clts s w wk c cl d : sys_inv clts s → s_wk s !! w = Some wk →
  s_clt s !! c = Some cl → s_dev s !! c = Some d → Z.of_nat c ∈ clts w →
  d_arrived d < d_recvs d.
Proof.
  intros Hinv Ew Ec Ed Hin. pose proof (lookup_lt_Some _ _ _ Ew) as Hw. rewrite (si_wk _ _ Hinv) in Hw.
  pose proof (total_diff (λ w, length (s_sent s w c)) (λ w, length (done_of (s_log s w) c)) w
    (λ w' Hw', pair_lengths _ _ _ _ _ _ Hinv Hw' Ec Ed) Hw) as Hd. cbv beta in Hd.
  destruct (si_pair _ _ Hinv w c wk cl d Ew Ec Ed) as (arr & Hr & _).
  rewrite bool_decide_eq_true_2 in Hr by done.
  pose proof (ring_taken _ _ _ _ _ _ _ _ Hr) as H1. pose proof (ring_arr _ _ _ _ _ _ _ _ Hr) as H2.
  destruct (si_client _ _ Hinv c cl d Ec Ed) as [Htx _ _ Harr _ Hpol Hrec _ _ _].
  destruct (polled_of_room (c_nb_tx cl)) as [Hroom _]; [lia|]. unfold WINDOW_SIZE in *. cbn in H1. lia.
Qed.

(** Posting the responses of a batch. *)
Lemma inv_flush clts s w wk wk' acts : setup_ok → sys_inv clts s →
  s_wk s !! w = Some wk → flush (wcfg w) wk (s_rr s) = Ok (wk', acts) →
  sys_inv (λ w', if decide (w' = w) then [] else clts w')
    (Sys (s_rr s) (<[w := begin_iter wk']> (s_wk s)) (s_clt s)
      (imap (λ c d, Nat.iter (arrivals (wcfg w) c acts) dev_arrive d) (s_dev s)) (s_sent s)
      (λ w', s_log s w' ++ (if decide (w' = w) then batch_log wk (s_rr s) else []))).
Proof.
  intros Hso Hinv Ew Hfl. pose proof (lookup_lt_Some _ _ _ Ew) as Hw. rewrite (si_wk _ _ Hinv) in Hw.
  destruct (si_worker _ _ Hinv _ _ Ew) as [tx0 Hwi]. pose proof (so_cfg Hso w Hw) as Hcfg.
  destruct (flush_inv _ _ _ _ _ _ _ Hcfg Hwi Hfl) as (k & resps & msgs & _ & -> & Hwi' & _ & Hws & _ & Hm).
  assert (Harr : ∀ c, arrivals (wcfg w) c (posts (num_server_ports (wcfg w)) (clts w) msgs
      (Z.to_nat (num_server_ports (wcfg w))) 0) = if decide (Z.of_nat c ∈ clts w) then 1%nat else 0%nat).
  { intros c. pose proof (cfg_ports _ Hcfg) as Hpt.
    rewrite (arrivals_posts _ tx0 _ k resps); [| by apply so_addr|apply Hwi| |].
    - pose proof (Z.mod_pos_bound (Z.of_nat c) (num_server_ports (wcfg w)) ltac:(lia)) as Hb.
      rewrite Z2Nat.id by lia. repeat case_decide; intuition.
    - apply list.Forall_forall. intros c' Hc'. by apply (wi_recent _ _ _ _ Hwi).
    - intros p Hp. apply Hm. lia. }
  assert (Hdone : ∀ w' c, done_of (s_log s w' ++ (if decide (w' = w) then batch_log wk (s_rr s) else [])) c =
    done_of (s_log s w') c ++ (if decide (w' = w ∧ Z.of_nat c ∈ clts w) then
      [rr_at (s_rr s) (slot (Z.of_nat w) (Z.of_nat c) (length (done_of (s_log s w) c)))] else [])).
  { intros w' c. rewrite done_of_app. f_equal. destruct (decide (w' = w)) as [->|Hne].
    - rewrite (batch_done _ _ _ _ _ _ Hso Hinv Ew Hwi). repeat case_decide; tauto.
    - rewrite decide_False by tauto. done. }
  pose proof Hinv as Hinv0. destruct Hinv0. constructor; cbn [s_rr s_wk s_clt s_dev s_sent s_log]; auto.
  - by rewrite length_insert.
  - by rewrite length_imap.
  - intros w2 wk2 E2. apply list_lookup_insert_Some in E2 as [(<- & <- & _)|[Hne E2]].
    + rewrite decide_True by done. eexists. by eapply winv_begin.
    + rewrite decide_False by done. eauto.
  - intros w2 c wk2 cl d E2 Ec Ed. rewrite list_lookup_imap in Ed.
    destruct (s_dev s !! c) as [d0|] eqn:Ed0; [|done]. cbn in Ed. injection Ed as <-. rewrite Harr, Hdone.
    assert (Hfly : d_fly (Nat.iter (if decide (Z.of_nat c ∈ clts w) then 1%nat else 0%nat) dev_arrive d0) = d_fly d0).
    { destruct (decide _); [|done]. cbn. unfold dev_arrive. by destruct (_ <? _). }
    rewrite Hfly. destruct (decide (w2 = w)) as [->|Hne].
    + rewrite list_lookup_insert_eq in E2 by (by rewrite si_wk0). injection E2 as <-.
      rewrite bool_decide_eq_false_2 by (by intros ?%elem_of_nil).
      destruct (si_pair0 w c wk cl d0 Ew Ec Ed0) as (arr & Hring & Hwsl & Hcsl). exists arr.
      cbn [begin_iter ws]. rewrite Hws. destruct (decide (Z.of_nat c ∈ clts w)) as [Hin|Hnin].
      * rewrite decide_True by done. rewrite bool_decide_eq_true_2 in Hring, Hwsl by done.
        split; [by apply ring_execute|]. split; [|done]. rewrite length_app, Nat.add_0_r. done.
      * rewrite decide_False by tauto. rewrite app_nil_r.
        by rewrite bool_decide_eq_false_2 in Hring, Hwsl by done.
    + rewrite (decide_False (P := w2 = w ∧ _)) by tauto. rewrite app_nil_r.
      rewrite list_lookup_insert_ne in E2 by done. eauto.
  - intros c cl d Ec Ed. rewrite list_lookup_imap in Ed.
    destruct (s_dev s !! c) as [d0|] eqn:Ed0; [|done]. cbn in Ed. injection Ed as <-. rewrite Harr.
    pose proof (si_client0 c cl d0 Ec Ed0) as Hco. destruct (decide (Z.of_nat c ∈ clts w)) as [Hin|Hnin].
    + change (Nat.iter 1 dev_arrive d0) with (dev_arrive d0). unfold dev_arrive.
      rewrite (proj2 (Z.ltb_lt _ _) (arrive_room _ _ _ _ _ _ _ Hinv Ew Ec Ed0 Hin)).
      match goal with |- client_ok _ ?g _ _ =>
        assert (Ht : total g = S (total (λ w', length (done_of (s_log s w') c)))) end.
      { apply (total_incr _ _ w Hw); [|intros w' Hw']; rewrite Hdone.
        - rewrite decide_True by done. rewrite length_app. cbn. lia.
        - rewrite decide_False by tauto. by rewrite app_nil_r. }
      destruct Hco. constructor; rewrite ?Ht; cbn [d_recvs d_arrived d_polled d_dropped d_fly d_sq]; auto; lia.
    + change (Nat.iter 0 dev_arrive d0) with d0. eapply client_ok_ext; [done| |exact Hco]. intros w'. cbv beta. rewrite Hdone.
      rewrite decide_False by tauto. by rewrite app_nil_r.
Qed.

Theorem reach_sys_inv s : setup_ok → reach wcfg ccfg kvs s → ∃ clts, sys_inv clts s.
Proof.
  intros Hso. induction 1 as [s Hi|s s' _ [clts IH] Hst].
  - eexists. by apply inv_initial.
  - destruct Hst as [s c cl cl' d d' acts Ec Ed Hit Ha|s c d off len req fly Ed Hf
      |s w wk wk' rr acts Ew Hp Hst|s w wk wk' acts Ew Hp Hst].
    + eexists. by eapply inv_client.
    + eexists. by eapply inv_deliver.
    + by eapply inv_poll.
    + eexists. by eapply inv_flush.
Qed.
End Inv.
