(* ===== verification/HerdStore.v ===== *)
(** * HERD: the stores of the workers

    In every reachable state the store of a worker is the MICA store that
    results from the operations in the worker's history, and the responses
    of a batch answer the requests of the clients. *)

From stdpp Require Import base gmap list numbers.
From Stdlib Require Import ZArith Lia.
From S2P Require Import Prelude City Mica MicaProof MicaSpec HrdUtil Signal Herd HerdProof HerdEnv HerdSys HerdRing HerdInv.

(** [answer]s can be read by the device. *)
Lemma answer_readable k spec op r : answer k spec op r → readable k r.
Proof.
  unfold answer, readable. destruct (is_get op).
  - intros [->|(v & p & _ & -> & Hp & Hcap & _)]; [done|].
    unfold gather, payload, log_load. cbn [sge_addr sge_length resp_val_ptr resp_val_len].
    rewrite Nat2Z.id, (proj2 (Z.leb_le _ _) Hp), (proj2 (Z.leb_le _ _) Hcap). done.
  - by intros ->.
Qed.

Lemma answers_readable k spec ops rs : Forall2 (answer k spec) ops rs → Forall (readable k) rs.
Proof. induction 1; constructor; eauto using answer_readable. Qed.

Section Store.
Context (wcfg : nat → worker_cfg) (ccfg : nat → client_cfg) (kvs : list mica_kv).
Context (Hso : setup_ok wcfg ccfg kvs).

Lemma batch_log_ops wk rr : (batch_log wk rr).*2 = batch_ops wk rr.
Proof. unfold batch_log, batch_ops. rewrite <-list_fmap_compose. done. Qed.

(** The operations of a batch are requests that some client sent. *)
Lemma batch_op_sent clts s w wk i op : sys_inv wcfg clts s → s_wk s !! w = Some wk →
  batch_ops wk (s_rr s) !! i = Some op →
  ∃ (c : nat) r, (c < 70)%nat ∧ clts w !! i = Some (Z.of_nat c) ∧ r ∈ s_sent s w c ∧
    valid_req r ∧ executes r op ∧ op_wf op.
Proof.
  intros Hinv Ew Hop. pose proof (lookup_lt_Some _ _ _ Ew) as Hw. rewrite (si_wk _ _ _ Hinv) in Hw.
  destruct (si_worker _ _ _ Hinv _ _ Ew) as [tx0 Hwi].
  pose proof (so_cfg _ _ _ Hso w Hw) as Hcfg.
  pose proof (batch_ops_length _ _ _ _ (s_rr s) Hcfg Hwi) as Hlen.
  assert (Hi : (i < length (clts w))%nat) by (rewrite <-Hlen; by eapply lookup_lt_Some).
  destruct (lookup_lt_is_Some_2 _ _ Hi) as [cz Hcz].
  assert (Hin : cz ∈ clts w) by (by eapply list_elem_of_lookup_2).
  destruct (wi_recent _ _ _ _ Hwi cz Hin) as [Hcr _].
  destruct (Z_of_nat_complete cz) as [c ->]; [lia|].
  assert (Hc : (c < 70)%nat) by (unfold NUM_CLIENTS in Hcr; lia).
  destruct (lookup_lt_is_Some_2 (s_clt s) c) as [cl Ec]; [by rewrite (si_clt _ _ _ Hinv)|].
  destruct (lookup_lt_is_Some_2 (s_dev s) c) as [d Ed]; [by rewrite (si_dev _ _ _ Hinv)|].
  destruct (si_pair _ _ _ Hinv w c wk cl d Ew Ec Ed) as (arr & Hring & Hwsl & _).
  rewrite bool_decide_eq_true_2 in Hring, Hwsl by done.
  destruct (wi_ptr _ _ _ _ Hwi i _ Hcz) as (sl & Hsl & Hptr & Hws).
  rewrite Nat2Z.id, Hwsl in Hws. injection Hws as Hws. symmetry in Hws. apply mod_add_inj in Hws; [|done].
  unfold batch_ops in Hop. apply list_lookup_fmap_Some in Hop as (off & -> & Hoff).
  apply lookup_take_Some in Hoff as [Hoff _]. rewrite Hptr in Hoff. injection Hoff as <-.
  rewrite (so_lid _ _ _ Hso w Hw), Hws.
  pose proof (ring_taken _ _ _ _ _ _ _ _ Hring) as H1. pose proof (ring_arr _ _ _ _ _ _ _ _ Hring) as H2.
  cbv iota in H1. destruct (lookup_lt_is_Some_2 (s_sent s w c) (length (done_of (s_log s w) c))) as [r Hr]; [lia|].
  exists c, r. split; [done|]. split; [done|]. split; [by eapply list_elem_of_lookup_2|].
  split; [exact (Forall_lookup_1 _ _ _ _ (ring_valid _ _ _ _ _ _ _ _ Hring) Hr)|].
  split; [by apply (ring_batch _ _ _ _ _ _ _ _ Hring)|apply (si_rr _ _ _ Hinv)].
Qed.

Lemma batch_req_ok clts s w wk : sys_inv wcfg clts s → s_wk s !! w = Some wk →
  Forall req_ok (batch_ops wk (s_rr s)).
Proof using Hso.
  intros Hinv Ew. apply Forall_lookup. intros i op Hop.
  destruct (batch_op_sent _ _ _ _ _ _ Hinv Ew Hop) as (c & r & _ & _ & _ & Hv & He & Hwf).
  by eapply executes_req_ok.
Qed.

(** ** Stores along a run *)
Context (spec0 : nat → gmap mica_key (list Z)).
Context (Hkvs : ∀ w k, kvs !! w = Some k → mica_reach k (spec0 w)).

(** The store is well formed on any lap, and on the first lap it is the
    store that the history describes. *)
Definition store_ok (s : sys) : Prop := ∀ w wk, s_wk s !! w = Some wk →
  kv_wf (kv wk) ∧
  (log_head (kv wk) < log_cap (kv wk) →
   mica_reach (kv wk) (spec_run (spec0 w) (s_log s w).*2)).

Lemma poll_step_kv clts s w wk wk' rr acts : sys_inv wcfg clts s → s_wk s !! w = Some wk →
  polling wk = true → poll_step (wcfg w) wk (s_rr s) = Ok (wk', rr, acts) → kv wk' = kv wk.
Proof using Hso.
  intros Hinv Ew Hp Hst. pose proof (lookup_lt_Some _ _ _ Ew) as Hw. rewrite (si_wk _ _ _ Hinv) in Hw.
  destruct (si_worker _ _ _ Hinv _ _ Ew) as [tx0 Hwi].
  destruct (poll_inv _ _ _ _ (s_rr s) (so_cfg _ _ _ Hso w Hw) Hwi Hp)
    as (sl & w1 & _ & _ & _ & _ & Hkv & Hcase). cbv zeta in Hcase.
  destruct Hcase as [(_ & E & _)|(_ & _ & E & _)]; rewrite E in Hst; by injection Hst as <- _ _.
Qed.

Lemma reach_store_ok s : reach wcfg ccfg kvs s → store_ok s.
Proof using Hso Hkvs.
  induction 1 as [s Hi|s s' Hreach IH Hst].
  - destruct Hi as (_ & Hwk & _ & _ & _ & Hlog). intros w wk E. rewrite Hwk in E.
    apply list_lookup_fmap_Some in E as (k & -> & Hk). cbn [begin_iter worker_init kv].
    pose proof (Hkvs w k Hk) as Hr. split; [by eapply reach_wf|]. by rewrite Hlog.
  - destruct (reach_sys_inv _ _ _ _ Hso Hreach) as [clts Hinv].
    destruct Hst as [s c cl cl' d d' acts Ec Ed Hit Ha|s c d off len req fly Ed Hf
      |s w wk wk' rr acts Ew Hp Hst|s w wk wk' acts Ew Hp Hst]; [exact IH|exact IH| |].
    + intros w2 wk2 E2. apply list_lookup_insert_Some in E2 as [(<- & <- & _)|[_ E2]]; [|by apply IH].
      rewrite (poll_step_kv _ _ _ _ _ _ _ Hinv Ew Hp Hst). by apply IH.
    + intros w2 wk2 E2. apply list_lookup_insert_Some in E2 as [(<- & <- & _)|[Hne E2]].
      2:{ cbn [s_log]. rewrite decide_False, app_nil_r by done. by apply IH. }
      cbn [s_log begin_iter kv]. rewrite decide_True, fmap_app, batch_log_ops by done.
      pose proof (lookup_lt_Some _ _ _ Ew) as Hw. rewrite (si_wk _ _ _ Hinv) in Hw.
      destruct (si_worker _ _ _ Hinv _ _ Ew) as [tx0 Hwi].
      destruct (flush_inv _ _ _ _ _ _ _ (so_cfg _ _ _ Hso w Hw) Hwi Hst)
        as (k & resps & msgs & Hb & _ & _ & -> & _).
      destruct (IH w wk Ew) as [Hwf Hr]. pose proof (batch_req_ok _ _ _ _ Hinv Ew) as Hok.
      destruct (batch_op_mono _ _ _ _ Hwf Hok Hb) as (Hwf' & Hh & Hcap).
      split; [done|]. intros Hlap. unfold spec_run. rewrite foldl_app.
      eapply reach_first_lap; [apply Hr; lia|done|done|lia].
Qed.
End Store.
