(* ===== verification/HerdThms.v ===== *)
(** * Theorems about HERD *)

From stdpp Require Import base gmap list numbers.
From Stdlib Require Import ZArith Lia.
From S2P Require Import Prelude City Mica MicaProof MicaSpec MicaThms HrdUtil Signal Herd HerdProof HerdEnv HerdSys HerdRing HerdInv HerdStore.

(** ** Running the system *)

(** One step of the system, chosen by a command. *)
Inductive cmd : Type :=
| DoClient (c : nat)
| DoDeliver (c : nat)
| DoWorker (w : nat).

Definition do_client (ccfg : nat → client_cfg) (s : sys) (c : nat) : option sys :=
  match s_clt s !! c, s_dev s !! c with
  | Some cl, Some d =>
      match client_iter (ccfg c) cl with
      | Ok (cl', acts) =>
          match dev_acts acts d with
          | Some d' =>
              Some (Sys (s_rr s) (s_wk s) (<[c := cl']> (s_clt s)) (<[c := d']> (s_dev s))
                      (record_sent (s_sent s) c acts) (s_log s))
          | None => None
          end
      | Fault _ => None
      end
  | _, _ => None
  end.

Definition do_deliver (s : sys) (c : nat) : option sys :=
  match s_dev s !! c with
  | Some d =>
      match d_fly d with
      | (off, len, req) :: fly =>
          Some (Sys (write_region (s_rr s) off len req) (s_wk s) (s_clt s)
                  (<[c := CDev (d_recvs d) (d_arrived d) (d_polled d) (d_dropped d) fly (d_sq d)]> (s_dev s))
                  (s_sent s) (s_log s))
      | [] => None
      end
  | None => None
  end.

Definition do_worker (wcfg : nat → worker_cfg) (s : sys) (w : nat) : option sys :=
  match s_wk s !! w with
  | Some wk =>
      if polling wk then
        match poll_step (wcfg w) wk (s_rr s) with
        | Ok (wk', rr, _) =>
            Some (Sys rr (<[w := wk']> (s_wk s)) (s_clt s) (s_dev s) (s_sent s) (s_log s))
        | Fault _ => None
        end
      else
        match flush (wcfg w) wk (s_rr s) with
        | Ok (wk', acts) =>
            Some (Sys (s_rr s) (<[w := begin_iter wk']> (s_wk s)) (s_clt s)
                    (imap (λ c d, Nat.iter (arrivals (wcfg w) c acts) dev_arrive d) (s_dev s))
                    (s_sent s)
                    (λ w', s_log s w' ++ (if decide (w' = w) then batch_log wk (s_rr s) else [])))
        | Fault _ => None
        end
  | None => None
  end.

Definition do_cmd (wcfg : nat → worker_cfg) (ccfg : nat → client_cfg) (s : sys) (x : cmd) : option sys :=
  match x with
  | DoClient c => do_client ccfg s c
  | DoDeliver c => do_deliver s c
  | DoWorker w => do_worker wcfg s w
  end.

(** Commands that are not enabled do nothing. *)
Fixpoint do_cmds (wcfg : nat → worker_cfg) (ccfg : nat → client_cfg) (s : sys) (l : list cmd) : sys :=
  match l with
  | [] => s
  | x :: l => do_cmds wcfg ccfg (default s (do_cmd wcfg ccfg s x)) l
  end.

Lemma do_cmd_step wcfg ccfg s x s' : do_cmd wcfg ccfg s x = Some s' → step wcfg ccfg s s'.
Proof.
  destruct x as [c|c|w]; cbn [do_cmd].
  - unfold do_client. intros H.
    destruct (s_clt s !! c) as [cl|] eqn:Ec; [|done]. destruct (s_dev s !! c) as [d|] eqn:Ed; [|done].
    destruct (client_iter (ccfg c) cl) as [[cl' acts]|] eqn:Ei; [|done].
    destruct (dev_acts acts d) as [d'|] eqn:Ea; [|done]. injection H as <-. by eapply step_client.
  - unfold do_deliver. intros H. destruct (s_dev s !! c) as [d|] eqn:Ed; [|done].
    destruct (d_fly d) as [|[[off len] req] fly] eqn:Ef; [done|]. injection H as <-. by eapply step_deliver.
  - unfold do_worker. intros H. destruct (s_wk s !! w) as [wk|] eqn:Ew; [|done].
    destruct (polling wk) eqn:Ep.
    + destruct (poll_step _ _ _) as [[[wk' rr] a]|] eqn:Es; [|done]. injection H as <-. by eapply step_poll.
    + destruct (flush _ _ _) as [[wk' acts]|] eqn:Es; [|done]. injection H as <-. by eapply step_flush.
Qed.

Lemma do_cmds_reach wcfg ccfg kvs l : ∀ s,
  reach wcfg ccfg kvs s → reach wcfg ccfg kvs (do_cmds wcfg ccfg s l).
Proof.
  induction l as [|x l IH]; intros s Hr; [done|]. cbn. apply IH.
  destruct (do_cmd wcfg ccfg s x) as [s'|] eqn:E; [|done]. cbn.
  eapply reach_step; [done|]. by eapply do_cmd_step.
Qed.

(** ** An example run *)
Definition demo_addrs : list Z := map Z.of_nat (seq 100 70).
Definition demo_wcfg (w : nat) : worker_cfg := Cfg (Z.of_nat w) 2 16 demo_addrs demo_addrs.
Definition demo_ccfg (c : nat) : client_cfg := CltCfg (Z.of_nat c) 100 [7; 8; 9].
Definition demo_kvs : list mica_kv := replicate 12 demo_kv.
(** A seed whose third random number is 1. *)
Definition demo_seed : Z := 7514466350141275453.
Definition demo_sys0 : sys :=
  Sys ∅ (map (λ k, begin_iter (worker_init k)) demo_kvs)
    (map (λ x, client_init x.1 x.2) (replicate 70 (demo_seed, op0)))
    (replicate 70 dev_init) (λ _ _, []) (λ _, []).

Lemma demo_setup : setup_ok demo_wcfg demo_ccfg demo_kvs.
Proof.
  constructor; [done| |done| |done].
  - intros w Hw. constructor; try done; cbn; unfold NUM_WORKERS, MAX_SERVER_PORTS, MICA_MAX_BATCH_SIZE; lia.
  - intros w _. apply (bool_decide_unpack _). by vm_compute.
Qed.

Lemma demo_initial : initial demo_kvs demo_sys0.
Proof.
  split; [done|]. split; [done|]. split; [|done].
  exists (replicate 70 (demo_seed, op0)). split; [done|]. split; [done|]. by apply Forall_replicate.
Qed.

(** Client 5 sends one request to worker 3, which arrives and is served. *)
Definition demo_cmds : list cmd := DoClient 5 :: DoDeliver 5 :: replicate 71 (DoWorker 3).
Definition demo_sys (n : nat) : sys := do_cmds demo_wcfg demo_ccfg demo_sys0 (take n demo_cmds).

Lemma demo_reach_sys n : reach demo_wcfg demo_ccfg demo_kvs (demo_sys n).
Proof. apply do_cmds_reach, reach_start, demo_initial. Qed.

Lemma demo_kvs_reach w k : demo_kvs !! w = Some k → mica_reach k ∅.
Proof. intros [-> _]%lookup_replicate. apply demo_reach. Qed.

(** ** Properties *)

(** C1: whatever the interleaving of clients, network and workers, the
    operations that a worker has executed for a client are the first
    requests that the client sent to it, in order, each once, with the key,
    the opcode and the value that the client wrote; at most 32 requests are
    on their way.  The 32 slots of shared memory implement a FIFO channel. *)
Theorem herd_requests_fifo (wcfg : nat → worker_cfg) (ccfg : nat → client_cfg)
    (kvs : list mica_kv) (s : sys) (w c : nat) :
  setup_ok wcfg ccfg kvs → reach wcfg ccfg kvs s → (w < 12)%nat → (c < 70)%nat →
  let done := done_of (s_log s w) c in
  (length done ≤ length (s_sent s w c) ≤ length done + 32)%nat ∧
  Forall2 executes (take (length done) (s_sent s w c)) done.
Proof.
  intros Hso Hr Hw Hc. destruct (reach_sys_inv _ _ _ _ Hso Hr) as [clts Hinv].
  destruct (lookup_lt_is_Some_2 (s_wk s) w) as [wk Ew]; [by rewrite (si_wk _ _ _ Hinv)|].
  destruct (lookup_lt_is_Some_2 (s_clt s) c) as [cl Ec]; [by rewrite (si_clt _ _ _ Hinv)|].
  destruct (lookup_lt_is_Some_2 (s_dev s) c) as [d Ed]; [by rewrite (si_dev _ _ _ Hinv)|].
  destruct (si_pair _ _ _ Hinv w c wk cl d Ew Ec Ed) as (arr & [] & _). split; [lia|done].
Qed.

Lemma herd_requests_fifo_witness :
  length (done_of (s_log (demo_sys 73) 3%nat) 5) = 1%nat ∧
  Forall2 executes (take 1 (s_sent (demo_sys 73) 3%nat 5%nat)) (done_of (s_log (demo_sys 73) 3%nat) 5).
Proof.
  assert (E : length (done_of (s_log (demo_sys 73) 3%nat) 5) = 1%nat) by (by vm_compute).
  split; [exact E|]. rewrite <-E.
  apply (herd_requests_fifo _ _ _ (demo_sys 73) 3 5 demo_setup (demo_reach_sys 73)); lia.
Defined.

(** C29: a write that arrives never destroys a request: its slot is inside
    the region, holds no request that waits to be polled, and no worker's
    current batch points to it. *)
Theorem herd_no_overwrite (wcfg : nat → worker_cfg) (ccfg : nat → client_cfg)
    (kvs : list mica_kv) (s : sys) (c : nat) (d : cdev) (off len : Z) (req : mica_op)
    (fly : list (Z * Z * mica_op)) :
  setup_ok wcfg ccfg kvs → reach wcfg ccfg kvs s →
  s_dev s !! c = Some d → d_fly d = (off, len, req) :: fly →
  0 ≤ off < RR_SIZE / sizeof_mica_op ∧ op_opcode (rr_at (s_rr s) off) < HERD_OP_GET ∧
  ∀ w wk k, s_wk s !! w = Some wk → Z.of_nat k < wr_i wk → op_ptr_arr wk !! k ≠ Some off.
Proof.
  intros Hso Hr Ed Hfly. destruct (reach_sys_inv _ _ _ _ Hso Hr) as [clts Hinv].
  destruct (deliver_target _ ccfg _ _ _ _ _ _ _ _ Hinv Ed Hfly) as (w & wk & cl & Hw & Ew & Ec & Hc & _).
  destruct (si_pair _ _ _ Hinv w c wk cl d Ew Ec Ed) as (arr & Hring & Hwsl & _). rewrite Hfly in Hring.
  destruct (ring_deliver _ _ _ _ _ _ _ _ _ _ _ (si_rr _ _ _ Hinv) Hw Hring) as (Hoff & _ & _ & Hsent & Hfree & _).
  pose proof (lookup_lt_Some _ _ _ Ew) as Hw12. rewrite (si_wk _ _ _ Hinv) in Hw12.
  split; [|split; [done|]].
  { rewrite Hoff. apply OFFSET_bounds; [unfold NUM_WORKERS; lia|by apply clt_range|apply mod_window]. }
  intros w' wk' k Ew' Hk Hptr. destruct (si_worker _ _ _ Hinv _ _ Ew') as [tx0 Hwi].
  pose proof (lookup_lt_Some _ _ _ Ew') as Hw'. rewrite (si_wk _ _ _ Hinv) in Hw'.
  rewrite (wi_wr_i _ _ _ _ Hwi) in Hk.
  destruct (lookup_lt_is_Some_2 (clts w') k) as [c' Hc']; [lia|].
  assert (Hin : c' ∈ clts w') by (by eapply list_elem_of_lookup_2).
  destruct (wi_recent _ _ _ _ Hwi c' Hin) as [Hcr _].
  destruct (wi_ptr _ _ _ _ Hwi k c' Hc') as (sl & Hsl & Hp & Hws). rewrite Hptr in Hp. injection Hp as Hp.
  rewrite Hoff in Hp. unfold slot in Hp.
  apply OFFSET_inj in Hp as (E1 & E2 & E3); [|by apply clt_range|apply mod_window|done|done].
  rewrite (so_lid _ _ _ Hso w' Hw') in E1. apply Nat2Z.inj in E1 as <-. subst c'.
  rewrite Ew in Ew'. injection Ew' as <-. rewrite bool_decide_eq_true_2 in Hring, Hwsl by done.
  rewrite Nat2Z.id, Hwsl, <-E3 in Hws. injection Hws as Hws. rewrite mod_add_nat in Hws.
  pose proof (lookup_lt_Some _ _ _ Hsent). destruct Hring. unfold WINDOW_SIZE in Hws.
  Z.to_euclidean_division_equations. lia.
Qed.

Lemma herd_no_overwrite_witness :
  ∃ d x fly, s_dev (demo_sys 1) !! 5%nat = Some d ∧ d_fly d = x :: fly ∧
    op_opcode (rr_at (s_rr (demo_sys 1)) x.1.1) < HERD_OP_GET.
Proof.
  destruct (s_dev (demo_sys 1) !! 5%nat) as [d|] eqn:Ed; [|by vm_compute in Ed].
  destruct (d_fly d) as [|[[off len] req] fly] eqn:Ef.
  { vm_compute in Ed. injection Ed as <-. by vm_compute in Ef. }
  exists d, (off, len, req), fly. split; [done|]. split; [done|].
  apply (herd_no_overwrite _ _ _ (demo_sys 1) 5 d off len req fly demo_setup (demo_reach_sys 1) Ed Ef).
Defined.

(** The window of a client: between its iterations a client has at most
    32 requests without a response, the RECVs for all of them are posted and
    the next refill fits the receive queue, so that no response is ever
    dropped; and its send queue neither overflows nor is polled in vain. *)
Theorem herd_window (wcfg : nat → worker_cfg) (ccfg : nat → client_cfg)
    (kvs : list mica_kv) (s : sys) (c : nat) (cl : client) (d : cdev) :
  setup_ok wcfg ccfg kvs → reach wcfg ccfg kvs s →
  s_clt s !! c = Some cl → s_dev s !! c = Some d →
  0 ≤ c_nb_tx cl - d_arrived d ≤ WINDOW_SIZE ∧ d_dropped d = 0 ∧
  c_nb_tx cl ≤ d_recvs d ∧ d_recvs d - d_arrived d + WINDOW_SIZE ≤ HRD_Q_DEPTH ∧
  ∃ out, sq_run (Z.to_nat HRD_Q_DEPTH) [] (d_sq d) = Some out ∧ (length out ≤ 126)%nat.
Proof.
  intros Hso Hr Ec Ed. destruct (reach_sys_inv _ _ _ _ Hso Hr) as [clts Hinv].
  pose proof (total_diff (λ w, length (s_sent s w c)) (λ w, length (done_of (s_log s w) c)) 0
    (λ w Hw, pair_lengths _ ccfg _ _ _ _ _ _ Hinv Hw Ec Ed) ltac:(lia)) as Hd. cbv beta in Hd.
  pose proof (pair_lengths _ ccfg _ _ 0%nat _ _ _ Hinv ltac:(lia) Ec Ed) as H0.
  destruct (si_client _ _ _ Hinv c cl d Ec Ed) as [Htx _ _ Harr Hdr Hpol Hrec Hle _ Hsq].
  destruct (polled_of_room (c_nb_tx cl)) as [Hroom _]; [lia|]. unfold WINDOW_SIZE, HRD_Q_DEPTH in *.
  split; [lia|]. split; [done|]. split; [lia|]. split; [lia|].
  eexists. split; [exact Hsq|apply waiting_bound].
Qed.

Lemma herd_window_witness :
  ∃ d, s_dev (demo_sys 73) !! 5%nat = Some d ∧ d_arrived d = 1 ∧ d_dropped d = 0.
Proof.
  destruct (s_clt (demo_sys 73) !! 5%nat) as [cl|] eqn:Ec; [|by vm_compute in Ec].
  destruct (s_dev (demo_sys 73) !! 5%nat) as [d|] eqn:Ed; [|by vm_compute in Ed].
  exists d. split; [done|].
  split; [|apply (herd_window _ _ _ _ _ _ _ demo_setup (demo_reach_sys 73) Ec Ed)].
  vm_compute in Ed. by injection Ed as <-.
Defined.

(** C3: as long as its log is on the first lap, the store of a worker holds
    what the executed operations of all clients, in the order of the worker's
    history, make of the populated store: a GET of any key returns without
    changing index or log, and answers with a miss or with the bytes of the
    value that this map has for the key; and if no index slot was evicted and
    no two keys share bucket and tag, every key of the map is found. *)
Theorem herd_store_refines (wcfg : nat → worker_cfg) (ccfg : nat → client_cfg)
    (kvs : list mica_kv) (spec0 : nat → gmap mica_key (list Z)) (s : sys) (w : nat) (wk : worker) (op : mica_op) :
  setup_ok wcfg ccfg kvs → (∀ w k, kvs !! w = Some k → mica_reach k (spec0 w)) →
  reach wcfg ccfg kvs s → s_wk s !! w = Some wk → log_head (kv wk) < log_cap (kv wk) → is_get op = true →
  let spec := spec_run (spec0 w) (s_log s w).*2 in
  ∃ kv' r, mica_batch_op (kv wk) [op] = Ok (kv', [r]) ∧
    ht_index kv' = ht_index (kv wk) ∧ ht_log kv' = ht_log (kv wk) ∧ log_head kv' = log_head (kv wk) ∧
    answer kv' spec op r ∧
    (num_index_evictions (kv wk) = 0 → tags_apart (kv wk) spec →
     is_Some (spec !! op_key op) → resp_type r = MICA_RESP_GET_SUCCESS).
Proof.
  intros Hso Hk Hr Ew Hlap Hg. cbv zeta.
  pose proof (proj2 (reach_store_ok _ _ _ Hso _ Hk s Hr w wk Ew) Hlap) as Hkv.
  destruct (reach_get _ _ op Hkv Hg) as (kv' & r & H1 & H2 & H3 & H4 & H5 & H6).
  exists kv', r. repeat (split; [assumption|]). auto.
Qed.

(** The key that client 5 has put, and its value. *)
Definition demo_key : mica_key := Key 221610838515665802 12956791207346503200.
Definition demo_get_key : mica_op := Op demo_key MICA_OP_GET 0 [].
Definition demo_value : list Z := default [] (op_val <$> (s_log (demo_sys 73) 3%nat).*2 !! 0%nat).

Lemma demo_history : spec_run ∅ (s_log (demo_sys 73) 3%nat).*2 = {[demo_key := demo_value]}.
Proof. apply (bool_decide_unpack _). by vm_compute. Qed.

Lemma herd_store_refines_witness :
  ∃ wk k r, s_wk (demo_sys 73) !! 3%nat = Some wk ∧ mica_batch_op (kv wk) [demo_get_key] = Ok (k, [r]) ∧
    answer k {[demo_key := demo_value]} demo_get_key r ∧ resp_type r = MICA_RESP_GET_SUCCESS.
Proof.
  destruct (s_wk (demo_sys 73) !! 3%nat) as [wk|] eqn:Ew; [|by vm_compute in Ew].
  destruct (herd_store_refines demo_wcfg demo_ccfg demo_kvs (λ _, ∅) (demo_sys 73) 3 wk demo_get_key demo_setup demo_kvs_reach
    (demo_reach_sys 73) Ew) as (k & r & H1 & _ & _ & _ & H2 & H3);
    [vm_compute in Ew; injection Ew as <-; by vm_compute|reflexivity|].
  rewrite demo_history in H2, H3. exists wk, k, r. do 3 (split; [done|]). apply H3.
  - vm_compute in Ew. injection Ew as <-. by vm_compute.
  - intros k1 k2 [? [<- _]%lookup_singleton_Some] [? [<- _]%lookup_singleton_Some] _ _. done.
  - exists demo_value. apply lookup_singleton_eq.
Defined.

(** The one message for a client of the batch. *)
Lemma posted_message cfg tx0 clts k resps msgs (c : nat) i r : cfg_ok cfg →
  NoDup (zip (ah cfg) (clt_qpn cfg)) → NoDup clts → Forall (λ c, 0 ≤ c) clts →
  (∀ p, 0 ≤ p < num_server_ports cfg →
    Forall2 (resp_msg cfg tx0 clts k resps) (idx (num_server_ports cfg) p clts) (msgs p)) →
  clts !! i = Some (Z.of_nat c) → resps !! i = Some r →
  ∃ x, filter (λ m, addressed cfg c m = true) (flat_map act_msgs
    (posts (num_server_ports cfg) clts msgs (Z.to_nat (num_server_ports cfg)) 0)) = [(x, payload k r)].
Proof.
  intros Hc Hz Hnd Hpos Hm Hi Hr. pose proof (cfg_ports _ Hc).
  assert (Hone : arrivals cfg c (posts (num_server_ports cfg) clts msgs
    (Z.to_nat (num_server_ports cfg)) 0) = 1%nat).
  { rewrite (arrivals_posts _ tx0 _ k resps); auto; [|intros p Hp; apply Hm; lia].
    rewrite decide_True; [done|]. split; [by eapply list_elem_of_lookup_2|].
    pose proof (Z.mod_pos_bound (Z.of_nat c) (num_server_ports cfg)). lia. }
  unfold arrivals in Hone. destruct (filter _ _) as [|[x d] [|]] eqn:E; try done.
  exists x. assert (Hin : (x, d) ∈ filter (λ m, addressed cfg c m = true) (flat_map act_msgs
    (posts (num_server_ports cfg) clts msgs (Z.to_nat (num_server_ports cfg)) 0))) by (rewrite E; left).
  apply list_elem_of_filter in Hin as [Ha Hin].
  assert (Hposts : ∀ n i m, m ∈ flat_map act_msgs (posts (num_server_ports cfg) clts msgs n i) →
    ∃ p, i ≤ p < i + Z.of_nat n ∧ m ∈ msgs p).
  { clear. induction n as [|n IH]; intros i m Hm; [by apply elem_of_nil in Hm|].
    cbn [posts] in Hm. rewrite flat_map_app in Hm. apply elem_of_app in Hm as [Hm|Hm].
    - destruct (decide _); [by apply elem_of_nil in Hm|]. cbn in Hm. rewrite app_nil_r in Hm.
      exists i. split; [lia|done].
    - destruct (IH _ _ Hm) as (p & Hp & Hmp). exists p. split; [lia|done]. }
  destruct (Hposts _ _ _ Hin) as (p & Hp & Hmp). apply list_elem_of_lookup in Hmp as [j Hj].
  destruct (Forall2_lookup_r _ _ _ _ _ (Hm p ltac:(lia)) Hj) as (l & _ & Hmsg).
  pose proof (proj2 (addressed_iff _ _ _ _ _ _ _ c Hz Hpos Hmsg) Ha) as Hl.
  pose proof (NoDup_lookup _ _ _ _ Hnd Hl Hi) as ->.
  destruct Hmsg as (c' & r' & _ & Hr' & Hpay & _). rewrite Hr in Hr'. injection Hr' as <-.
  cbn in Hpay. by rewrite Hpay.
Qed.

(** C2: when a worker posts the responses of a batch and its log is still on
    the first lap, posting succeeds, the responses answer the batch in the
    abstract store, and each client of the batch gets exactly one message,
    which carries its own response. *)
Theorem herd_responses (wcfg : nat → worker_cfg) (ccfg : nat → client_cfg)
    (kvs : list mica_kv) (spec0 : nat → gmap mica_key (list Z)) (s : sys) (w : nat) (wk : worker)
    (k : mica_kv) (resps : list mica_resp) :
  setup_ok wcfg ccfg kvs → (∀ w k, kvs !! w = Some k → mica_reach k (spec0 w)) →
  reach wcfg ccfg kvs s → s_wk s !! w = Some wk →
  mica_batch_op (kv wk) (batch_log wk (s_rr s)).*2 = Ok (k, resps) → log_head k < log_cap k →
  let spec := spec_run (spec0 w) ((s_log s w).*2 ++ (batch_log wk (s_rr s)).*2) in
  ∃ wk' acts, flush (wcfg w) wk (s_rr s) = Ok (wk', acts) ∧ kv wk' = k ∧
    Forall2 (answer k spec) (batch_log wk (s_rr s)).*2 resps ∧
    ∀ i (c : nat) op r, batch_log wk (s_rr s) !! i = Some (Z.of_nat c, op) → resps !! i = Some r →
      ∃ x, filter (λ m, addressed (wcfg w) c m = true) (flat_map act_msgs acts) = [(x, payload k r)].
Proof.
  cbv zeta. intros Hso Hk Hr Ew Hb Hlap. destruct (reach_sys_inv _ _ _ _ Hso Hr) as [clts Hinv].
  pose proof (lookup_lt_Some _ _ _ Ew) as Hw. rewrite (si_wk _ _ _ Hinv) in Hw.
  destruct (si_worker _ _ _ Hinv _ _ Ew) as [tx0 Hwi]. pose proof (so_cfg _ _ _ Hso w Hw) as Hcfg.
  destruct (reach_store_ok _ _ _ Hso _ Hk s Hr w wk Ew) as [Hwf Hst].
  rewrite batch_log_ops in *. pose proof (batch_req_ok _ _ _ Hso _ _ _ _ Hinv Ew) as Hok.
  destruct (batch_op_mono _ _ _ _ Hwf Hok Hb) as (_ & Hh & Hcap).
  destruct (reach_inv _ _ (Hst ltac:(lia))) as [vlog Hkv].
  destruct (batch_first_lap _ _ _ _ _ _ Hkv Hok Hb ltac:(lia)) as [_ Hans].
  unfold spec_run in Hans. rewrite <-foldl_app in Hans.
  destruct (flush_spec _ _ _ _ _ _ _ Hcfg Hwi Hb) as [(wk' & msgs & Hfl & _ & Hkv' & _ & _ & Hm)|(f & _ & Hn)].
  2:{ destruct Hn. by eapply answers_readable. }
  eexists wk', _. split; [exact Hfl|]. split; [done|]. split; [exact Hans|].
  intros i c op r Hi Hri.
  assert (Hci : clts w !! i = Some (Z.of_nat c)).
  { destruct (lookup_lt_is_Some_2 (batch_ops wk (s_rr s)) i) as [op' Hop'].
    { rewrite <-batch_log_ops, length_fmap. by eapply lookup_lt_Some. }
    destruct (batch_op_sent _ _ _ Hso _ _ _ _ _ _ Hinv Ew Hop') as (c' & _ & _ & Hc' & _).
    rewrite Hc'. unfold batch_log in Hi. apply list_lookup_fmap_Some in Hi as (off & [= -> _] & Hoff).
    destruct (wi_ptr _ _ _ _ Hwi i _ Hc') as (sl & Hsl & Hptr & _).
    apply lookup_take_Some in Hoff as [Hoff _]. rewrite Hptr in Hoff. injection Hoff as <-.
    destruct (wi_recent _ _ _ _ Hwi (Z.of_nat c') ltac:(by eapply list_elem_of_lookup_2)) as [Hcr _].
    destruct (off_worker_OFFSET (wrkr_lid (wcfg w)) _ _ Hcr Hsl) as [_ E]. by rewrite E. }
  eapply posted_message; eauto; [by eapply so_addr|apply Hwi|].
  apply list.Forall_forall. intros c' Hc'. by apply (wi_recent _ _ _ _ Hwi).
Qed.

Definition demo_wk (n : nat) : worker := default (worker_init demo_kv) (s_wk (demo_sys n) !! 3%nat).
Definition demo_batch_72 : mica_kv * list mica_resp :=
  match mica_batch_op (kv (demo_wk 72)) (batch_log (demo_wk 72) (s_rr (demo_sys 72))).*2 with
  | Ok x => x
  | Fault _ => (demo_kv, [])
  end.

Lemma herd_responses_witness :
  length demo_batch_72.2 = 1%nat ∧
  ∃ wk' acts, flush (demo_wcfg 3) (demo_wk 72) (s_rr (demo_sys 72)) = Ok (wk', acts) ∧
    kv wk' = demo_batch_72.1.
Proof.
  split; [by vm_compute|].
  destruct (herd_responses demo_wcfg demo_ccfg demo_kvs (λ _, ∅) (demo_sys 72) 3 (demo_wk 72)
    demo_batch_72.1 demo_batch_72.2 demo_setup demo_kvs_reach (demo_reach_sys 72))
    as (wk' & acts & H1 & H2 & _); [by vm_compute|by vm_compute|by vm_compute|].
  exists wk', acts. split; [exact H1|exact H2].
Defined.

(** C18: selective signalling of a worker: whatever the clients write into the
    region and whenever they do it, the calls that a worker makes on the send
    queue of a port never wait for a completion that cannot come and never
    overflow the 128 slots of the queue; at most 126 are in use. *)
Theorem herd_worker_signaling (cfg : worker_cfg) (w : worker) (rr : region) (tr : list act) (p : Z) :
  cfg_ok cfg → wreach cfg w rr tr → 0 ≤ p < num_server_ports cfg →
  ∃ out, sq_run (Z.to_nat HRD_Q_DEPTH) [] (sq_trace p tr) = Some out ∧ (length out ≤ 126)%nat.
Proof.
  intros Hc Hr Hp. destruct (wreach_inv _ _ _ _ Hc Hr) as (tx0 & clts & Hw & Ht).
  by eapply trace_ok_sq.
Qed.

Lemma demo_cfg_ok w : (w < 12)%nat → cfg_ok (demo_wcfg w).
Proof. apply demo_setup. Qed.

(** [n] steps of a worker on a region that nobody else writes to, with the
    calls that it makes. *)
Fixpoint run_trace (n : nat) (cfg : worker_cfg) (w : worker) (rr : region) : worker * region * list act :=
  match n with
  | O => (w, rr, [])
  | S n =>
      if polling w then
        match poll_step cfg w rr with
        | Ok (w1, rr1, a) => let '(w2, rr2, tr) := run_trace n cfg w1 rr1 in (w2, rr2, a ++ tr)
        | Fault _ => (w, rr, [])
        end
      else
        match flush cfg w rr with
        | Ok (w1, a) => let '(w2, rr2, tr) := run_trace n cfg (begin_iter w1) rr in (w2, rr2, a ++ tr)
        | Fault _ => (w, rr, [])
        end
  end.

Lemma run_trace_reach n cfg : ∀ w rr tr0, wreach cfg w rr tr0 →
  wreach cfg (run_trace n cfg w rr).1.1 (run_trace n cfg w rr).1.2 (tr0 ++ (run_trace n cfg w rr).2).
Proof.
  induction n as [|n IH]; intros w rr tr0 Hr; cbn [run_trace]; [by rewrite app_nil_r|].
  destruct (polling w) eqn:Hp.
  - destruct (poll_step cfg w rr) as [[[w1 rr1] a]|] eqn:E; [|by rewrite app_nil_r].
    specialize (IH w1 rr1 (tr0 ++ a) (wreach_poll _ _ _ _ _ _ _ Hr Hp E)).
    destruct (run_trace n cfg w1 rr1) as [[w2 rr2] tr]. cbn in *. by rewrite (assoc_L (++)).
  - destruct (flush cfg w rr) as [[w1 a]|] eqn:E; [|by rewrite app_nil_r].
    specialize (IH (begin_iter w1) rr (tr0 ++ a) (wreach_flush _ _ _ _ _ _ Hr Hp E)).
    destruct (run_trace n cfg (begin_iter w1) rr) as [[w2 rr2] tr]. cbn in *. by rewrite (assoc_L (++)).
Qed.

(** Two requests from each of the 70 clients, of which 128 are served, in 8 batches. *)
Definition demo_busy_rr : region :=
  list_to_map (flat_map (λ c, map (λ s, (OFFSET 3 (Z.of_nat c) s, set_opcode op0 HERD_OP_GET)) [0; 1]) (seq 0 70)).
Definition demo_busy : worker * region * list act :=
  run_trace 150 (demo_wcfg 3) (begin_iter (worker_init demo_kv)) demo_busy_rr.

Lemma run_trace_start n cfg k rr (w := begin_iter (worker_init k)) :
  wreach cfg (run_trace n cfg w rr).1.1 (run_trace n cfg w rr).1.2 (run_trace n cfg w rr).2.
Proof. exact (run_trace_reach n cfg w rr [] (wreach_start cfg k rr)). Qed.

Lemma demo_busy_reach : wreach (demo_wcfg 3) demo_busy.1.1 demo_busy.1.2 demo_busy.2.
Proof. exact (run_trace_start 150 (demo_wcfg 3) demo_kv demo_busy_rr). Qed.

Lemma herd_worker_signaling_witness :
  SqPoll ∈ sq_trace 1 demo_busy.2 ∧
  length (concat (omap (λ a, match a with SqPost fs => Some fs | SqPoll => None end) (sq_trace 1 demo_busy.2))) = 64%nat ∧
  ∃ out, sq_run (Z.to_nat HRD_Q_DEPTH) [] (sq_trace 1 demo_busy.2) = Some out ∧ (length out ≤ 126)%nat.
Proof.
  split; [apply (bool_decide_unpack _); by vm_compute|]. split; [by vm_compute|].
  apply (herd_worker_signaling (demo_wcfg 3) demo_busy.1.1 demo_busy.1.2 demo_busy.2 1).
  - apply demo_cfg_ok. lia.
  - exact demo_busy_reach.
  - cbn. lia.
Defined.

(** A worker does not stop by itself: in every environment a polling step
    stays inside all arrays and inside the request region, and posting
    succeeds whenever the store has answered the batch with responses that
    can be read. *)
Theorem herd_worker_safe (cfg : worker_cfg) (w : worker) (rr : region) (tr : list act) :
  cfg_ok cfg → wreach cfg w rr tr →
  if polling w then ∃ r, poll_step cfg w rr = Ok r
  else ∀ k resps, mica_batch_op (kv w) (batch_ops w rr) = Ok (k, resps) →
       Forall (readable k) resps → ∃ r, flush cfg w rr = Ok r.
Proof.
  intros Hc Hr. destruct (wreach_inv _ _ _ _ Hc Hr) as (tx0 & clts & Hw & _).
  destruct (polling w) eqn:Hp.
  - destruct (poll_inv _ _ _ _ rr Hc Hw Hp) as (s & w' & _ & _ & _ & _ & _ & [(_ & E & _)|(_ & _ & E & _)]);
      rewrite E; by eexists.
  - intros k resps Hb Hrd. destruct (flush_spec _ _ _ _ _ _ _ Hc Hw Hb) as [(w' & msgs & E & _)|(f & _ & Hn)].
    + rewrite E. by eexists.
    + done.
Qed.

Lemma herd_worker_safe_witness :
  polling (begin_iter (worker_init demo_kv)) = true ∧
  ∃ r, poll_step (demo_wcfg 3) (begin_iter (worker_init demo_kv)) ∅ = Ok r.
Proof.
  split; [done|].
  apply (herd_worker_safe (demo_wcfg 3) (begin_iter (worker_init demo_kv)) ∅ []).
  - apply demo_cfg_ok. lia.
  - apply wreach_start.
Defined.

(** ** Fairness of the polling order *)

(** The clients that a run of a worker polls, over any number of iterations
    and in any environment. *)
Inductive wpolls (cfg : worker_cfg) : worker → list Z → worker → Prop :=
| wpolls_nil w : wpolls cfg w [] w
| wpolls_poll w rr w1 rr1 a cs w2 :
    polling w = true → poll_step cfg w rr = Ok (w1, rr1, a) →
    wpolls cfg w1 cs w2 → wpolls cfg w (clt_i w1 :: cs) w2
| wpolls_flush w rr w1 a cs w2 :
    polling w = false → flush cfg w rr = Ok (w1, a) →
    wpolls cfg (begin_iter w1) cs w2 → wpolls cfg w cs w2.

Lemma wpolls_cycle cfg w cs w' : cfg_ok cfg → wpolls cfg w cs w' → ∀ tx0 clts, winv cfg tx0 clts w →
  ∀ j c, cs !! j = Some c → c = (clt_i w + 1 + Z.of_nat j) mod NUM_CLIENTS.
Proof.
  intros Hc. induction 1 as [w|w rr w1 rr1 a cs w2 Hp Hst _ IH|w rr w1 a cs w2 Hp Hst _ IH];
    intros tx0 clts Hw j c Hj; [by rewrite lookup_nil in Hj| |].
  - destruct (poll_inv _ _ _ _ rr Hc Hw Hp) as (s & w' & _ & _ & Hcr & Hclt & _ & Hcase). cbv zeta in Hcase.
    assert (Hw1 : w' = w1 ∧ ∃ clts', winv cfg tx0 clts' w1).
    { destruct Hcase as [(_ & E & Hwi & _)|(_ & _ & E & Hwi & _)]; rewrite E in Hst;
        injection Hst as <- _ _; eauto. }
    destruct Hw1 as [-> [clts' Hwi]].
    assert (Hnext : clt_i w1 = (clt_i w + 1) mod NUM_CLIENTS).
    { rewrite Hclt. destruct (wi_pos _ _ _ _ Hw) as [(-> & _)|[Hr _]]; [done|]. by apply mod_add_mod. }
    destruct j as [|j].
    + injection Hj as <-. by rewrite Z.add_0_r.
    + cbn in Hj. rewrite (IH _ _ Hwi _ _ Hj), Hnext.
      rewrite <-Z.add_assoc, Zplus_mod_idemp_l. f_equal. lia.
  - destruct (flush_inv _ _ _ _ _ _ _ Hc Hw Hst) as (k & resps & msgs & _ & _ & Hw1 & _ & _ & Hclt & _).
    rewrite (IH _ _ (winv_begin _ _ _ _ Hc Hw1) _ _ Hj). cbn [begin_iter clt_i]. by rewrite Hclt.
Qed.

(** C39: the polling order is fair: any 70 consecutive polls of a worker,
    across [break]s, iterations and whatever the clients do, poll every client
    exactly once. *)
Theorem herd_polls_fair (cfg : worker_cfg) (w w' : worker) (rr : region) (tr : list act) (cs : list Z) :
  cfg_ok cfg → wreach cfg w rr tr → wpolls cfg w cs w' → length cs = 70%nat →
  cs ≡ₚ map Z.of_nat (seq 0 70).
Proof.
  intros Hc Hr Hp Hlen. destruct (wreach_inv _ _ _ _ Hc Hr) as (tx0 & clts & Hw & _).
  pose proof (wpolls_cycle _ _ _ _ Hc Hp _ _ Hw) as Hcyc.
  apply submseteq_length_Permutation; [|by rewrite Hlen].
  apply NoDup_submseteq.
  - apply NoDup_alt. intros i j c Hi Hj.
    pose proof (lookup_lt_Some _ _ _ Hi). pose proof (lookup_lt_Some _ _ _ Hj).
    pose proof (Hcyc _ _ Hi) as Ei. rewrite (Hcyc _ _ Hj) in Ei. clear - Ei H H0 Hlen.
    unfold NUM_CLIENTS in Ei. Z.to_euclidean_division_equations. lia.
  - intros c Hin. apply list_elem_of_lookup in Hin as [i Hi]. rewrite (Hcyc _ _ Hi).
    pose proof (Z.mod_pos_bound (clt_i w + 1 + Z.of_nat i) NUM_CLIENTS ltac:(done)) as Hb.
    apply list_elem_of_fmap. eexists (Z.to_nat _). split; [rewrite Z2Nat.id by apply Hb; done|].
    apply elem_of_seq. unfold NUM_CLIENTS in *. lia.
Qed.

(** [n] steps of a worker on a region that nobody writes to. *)
Fixpoint run_polls (n : nat) (cfg : worker_cfg) (w : worker) (rr : region) : option (list Z * worker) :=
  match n with
  | O => Some ([], w)
  | S n =>
      if polling w then
        match poll_step cfg w rr with
        | Ok (w1, rr1, _) => (λ x, (clt_i w1 :: x.1, x.2)) <$> run_polls n cfg w1 rr1
        | Fault _ => None
        end
      else
        match flush cfg w rr with
        | Ok (w1, _) => run_polls n cfg (begin_iter w1) rr
        | Fault _ => None
        end
  end.

Lemma run_polls_ok n cfg : ∀ w rr cs w', run_polls n cfg w rr = Some (cs, w') → wpolls cfg w cs w'.
Proof.
  induction n as [|n IH]; intros w rr cs w' H; cbn [run_polls] in H.
  - injection H as <- <-. constructor.
  - destruct (polling w) eqn:Hp.
    + destruct (poll_step cfg w rr) as [[[w1 rr1] a]|] eqn:E; [|done].
      apply fmap_Some in H as ([cs1 w2] & Hrun & [= -> ->]). by eapply wpolls_poll; eauto.
    + destruct (flush cfg w rr) as [[w1 a]|] eqn:E; [|done]. by eapply wpolls_flush; eauto.
Qed.

(** With requests from clients 0 to 19, so that a pass is left by [break]. *)
Definition demo_rr : region :=
  list_to_map (map (λ c, (OFFSET 3 (Z.of_nat c) 0, set_opcode op0 HERD_OP_GET)) (seq 0 20)).
Definition demo_polls : list Z * worker :=
  default ([], worker_init demo_kv)
    (run_polls 71 (demo_wcfg 3) (begin_iter (worker_init demo_kv)) demo_rr).

Lemma herd_polls_fair_witness : demo_polls.1 ≡ₚ map Z.of_nat (seq 0 70).
Proof.
  apply (herd_polls_fair (demo_wcfg 3) (begin_iter (worker_init demo_kv)) demo_polls.2 demo_rr []).
  - apply demo_cfg_ok. lia.
  - apply wreach_start.
  - apply (run_polls_ok 71 _ _ demo_rr). by vm_compute.
  - by vm_compute.
Defined.

(** ** The permutation of a client's keys *)
Lemma swap_perm (l : list Z) i j x y : l !! i = Some x → l !! j = Some y →
  <[j := x]> (<[i := y]> l) ≡ₚ l.
Proof.
  intros Hi Hj. destruct (decide (i = j)) as [->|Hne].
  - rewrite Hi in Hj. injection Hj as <-. rewrite list_insert_insert_eq. by rewrite list_insert_id.
  - by apply Permutation_insert_swap.
Qed.

Lemma shuffle_ok i : ∀ seed log, (i < length log)%nat →
  returns (λ x, x.2 ≡ₚ log) (shuffle i seed log).
Proof.
  induction i as [|i IH]; intros seed log Hi; [cbn; reflexivity|]. cbn [shuffle].
  destruct (hrd_fastrand seed) as [seed' r].
  pose proof (Z.mod_pos_bound r (Z.of_nat (S i) + 1) ltac:(lia)) as Hj.
  destruct (arr_get_lt log (Z.of_nat (S i))) as (x & -> & Hx); [lia|]. cbn [res_bind].
  destruct (arr_get_lt log (r mod (Z.of_nat (S i) + 1))) as (y & -> & Hy); [lia|]. cbn [res_bind].
  rewrite arr_set_Ok by lia. cbn [res_bind]. rewrite arr_set_Ok by (rewrite length_insert; lia).
  cbn [res_bind]. eapply returns_mono; [apply IH; rewrite !length_insert; lia|].
  intros [s' l'] Hl. cbn in *. rewrite Hl. by apply swap_perm.
Qed.

Lemma random_permutation_ok (n clt_gid seed : Z) : 0 < n →
  ∃ seed' log, get_random_permutation n clt_gid seed = Ok (seed', log) ∧
    log ≡ₚ map Z.of_nat (seq 0 (Z.to_nat n)).
Proof.
  intros Hn. unfold get_random_permutation. rewrite (proj2 (Z.ltb_lt _ _) Hn). cbn [cassert res_bind].
  set (sd := skip_rand _ _). clearbody sd.
  assert (Hs := shuffle_ok (Z.to_nat (n - 1)) sd (map Z.of_nat (seq 0 (Z.to_nat n)))).
  apply returns_Ok in Hs as ([s' l] & E & Hl); [by exists s', l|].
  rewrite length_map, length_seq. lia.
Qed.

(** [get_random_permutation] returns, for every seed and every client, a
    permutation of the numbers below [n]. *)
Theorem random_permutation_correct (n clt_gid seed : Z) : 0 < n →
  ∃ seed' log, get_random_permutation n clt_gid seed = Ok (seed', log) ∧
    log ≡ₚ map Z.of_nat (seq 0 (Z.to_nat n)).
Proof. apply random_permutation_ok. Qed.

Lemma random_permutation_correct_witness :
  ∃ seed' log, get_random_permutation 100 0 3735928559 = Ok (seed', log) ∧
    log ≡ₚ map Z.of_nat (seq 0 100).
Proof. apply (random_permutation_correct 100 0 3735928559). lia. Defined.
