(* ===== verification/HerdMain.v ===== *)
(** * HERD: start-up (src/herd/main.c, master.c, worker.c, client.c)

    The arguments of [main] and the threads that it starts, and what the
    master, the workers and the clients do before their loops.  The command
    line is given as the list of options that [getopt_long] returns, with
    the value that [atoi] makes of each argument. *)

From stdpp Require Import base gmap list strings numbers pretty.
From Stdlib Require Import ZArith Lia Ascii.
From S2P Require Import Prelude City Mica Verbs HrdUtil HrdConn Signal Herd.

(** ** main *)
Record thread_params : Type := Params
  { tp_id : Z; tp_base_port_index : Z; tp_num_server_ports : Z; tp_num_client_ports : Z;
    tp_update_percentage : Z; tp_postlist : Z }.

Record main_args : Type := Args
  { is_master : Z; num_threads : Z; is_client : Z; machine_id : Z; a_postlist : Z;
    a_update_percentage : Z; base_port_index : Z; a_num_server_ports : Z; num_client_ports : Z }.
Definition args0 : main_args := Args (-1) (-1) (-1) (-1) (-1) (-1) (-1) (-1) (-1).

(** The [switch] on the option character. *)
Definition parse_opt (a : main_args) (c : Ascii.ascii) (v : Z) : res main_args :=
  if Ascii.eqb c "M"%char then
    cassert (v =? 1) ;!
    Ok (Args v (num_threads a) (is_client a) (machine_id a) (a_postlist a)
          (a_update_percentage a) (base_port_index a) (a_num_server_ports a) (num_client_ports a))
  else if Ascii.eqb c "t"%char then
    Ok (Args (is_master a) v (is_client a) (machine_id a) (a_postlist a)
          (a_update_percentage a) (base_port_index a) (a_num_server_ports a) (num_client_ports a))
  else if Ascii.eqb c "b"%char then
    Ok (Args (is_master a) (num_threads a) (is_client a) (machine_id a) (a_postlist a)
          (a_update_percentage a) v (a_num_server_ports a) (num_client_ports a))
  else if Ascii.eqb c "N"%char then
    Ok (Args (is_master a) (num_threads a) (is_client a) (machine_id a) (a_postlist a)
          (a_update_percentage a) (base_port_index a) v (num_client_ports a))
  else if Ascii.eqb c "n"%char then
    Ok (Args (is_master a) (num_threads a) (is_client a) (machine_id a) (a_postlist a)
          (a_update_percentage a) (base_port_index a) (a_num_server_ports a) v)
  else if Ascii.eqb c "c"%char then
    Ok (Args (is_master a) (num_threads a) v (machine_id a) (a_postlist a)
          (a_update_percentage a) (base_port_index a) (a_num_server_ports a) (num_client_ports a))
  else if Ascii.eqb c "u"%char then
    Ok (Args (is_master a) (num_threads a) (is_client a) (machine_id a) (a_postlist a)
          v (base_port_index a) (a_num_server_ports a) (num_client_ports a))
  else if Ascii.eqb c "m"%char then
    Ok (Args (is_master a) (num_threads a) (is_client a) v (a_postlist a)
          (a_update_percentage a) (base_port_index a) (a_num_server_ports a) (num_client_ports a))
  else if Ascii.eqb c "p"%char then
    Ok (Args (is_master a) (num_threads a) (is_client a) (machine_id a) v
          (a_update_percentage a) (base_port_index a) (a_num_server_ports a) (num_client_ports a))
  else Fault AssertFail.

Fixpoint parse_opts (a : main_args) (opts : list (Ascii.ascii * Z)) : res main_args :=
  match opts with
  | [] => Ok a
  | (c, v) :: opts => let! a := parse_opt a c v in parse_opts a opts
  end.

(** What [main] starts: the master thread, or workers, or clients. *)
Inductive threads : Type :=
| Master (p : thread_params)
| Workers (ps : list thread_params)
| Clients (ps : list thread_params).

(** [junk] is what the uninitialised fields of a [thread_params] hold. *)
Definition client_params (a : main_args) (i : Z) : thread_params :=
  Params (s32 (machine_id a * num_threads a + i)) (base_port_index a) (a_num_server_ports a)
    (num_client_ports a) (a_update_percentage a) (a_postlist a).
Definition worker_params (junk : Z) (a : main_args) (i : Z) : thread_params :=
  Params i (base_port_index a) (a_num_server_ports a) (num_client_ports a) junk (a_postlist a).
Definition master_params (junk : Z) (a : main_args) : thread_params :=
  Params junk (base_port_index a) (a_num_server_ports a) junk junk junk.

Definition herd_main (junk : Z) (opts : list (Ascii.ascii * Z)) : res threads :=
  cassert (HRD_Q_DEPTH =? 128) ;!
  cassert (sizeof_mica_op * NUM_CLIENTS * NUM_WORKERS * WINDOW_SIZE <? RR_SIZE) ;!
  cassert (WINDOW_SIZE <=? UNSIG_BATCH) ;!
  cassert (2 * UNSIG_BATCH <=? HRD_Q_DEPTH) ;!
  let! a := parse_opts args0 opts in
  cassert ((0 <=? base_port_index a) && (base_port_index a <=? 8)) ;!
  cassert ((1 <=? a_num_server_ports a) && (a_num_server_ports a <=? 8)) ;!
  if is_master a =? 1 then Ok (Master (master_params junk a))
  else
    cassert ((is_client a =? 0) || (is_client a =? 1)) ;!
    if is_client a =? 1 then
      cassert ((1 <=? num_client_ports a) && (num_client_ports a <=? 8)) ;!
      cassert (1 <=? num_threads a) ;!
      cassert (0 <=? machine_id a) ;!
      cassert ((0 <=? a_update_percentage a) && (a_update_percentage a <=? 100)) ;!
      cassert (a_postlist a =? -1) ;!
      Ok (Clients (map (λ i, client_params a (Z.of_nat i)) (seq 0 (Z.to_nat (num_threads a)))))
    else
      cassert (num_threads a =? -1) ;!
      cassert (machine_id a =? -1) ;!
      cassert (a_update_percentage a =? -1) ;!
      cassert (1 <=? a_postlist a) ;!
      Ok (Workers (map (λ i, worker_params junk a (Z.of_nat i)) (seq 0 (Z.to_nat NUM_WORKERS)))).

(** ** Names *)
Definition name_master (p c : Z) : string := "master-" +:+ pretty p +:+ "-" +:+ pretty c.
Definition name_clt_conn (c : Z) : string := "client-conn-" +:+ pretty c.
Definition name_clt_dgram (c : Z) : string := "client-dgram-" +:+ pretty c.

Section Setup.
Context {W : Type} `{Verbs W, Shm W, Memc W, DataVerbs W}.

(** [while (qp == NULL) qp = hrd_get_published_qp(name)]; the fuel bounds
    the number of tries. *)
Fixpoint wait_qp (fuel : nat) (name : string) : eff W hrd_qp_attr :=
  match fuel with
  | O => eff_fault Stuck
  | S fuel =>
      let* r := hrd_get_published_qp name in
      match r with
      | Some bs => eff_ret (attr_of_bytes bs)
      | None => wait_qp fuel name
      end
  end.

(** ** Worker *)

(** The control blocks of [n] ports from index [i] on, with [nuq] datagram
    queue pairs each. *)
Fixpoint worker_ports (n : nat) (nuq lid base i : Z) : eff W (list hrd_ctrl_blk) :=
  match n with
  | O => eff_ret []
  | S n =>
      let* cb := hrd_ctrl_blk_init lid (base + i) (-1) 0 0 0 0 (-1) nuq 4096 (-1) in
      let* cbs := worker_ports n nuq lid base (i + 1) in
      eff_ret (cb :: cbs)
  end.

(** Address handle and queue pair number of [n] clients from [i] on. *)
Fixpoint worker_clients (n fuel : nat) (cbs : list hrd_ctrl_blk) (nsp base i : Z)
    : eff W (list (Z * Z)) :=
  match n with
  | O => eff_ret []
  | S n =>
      let cb_i := i mod nsp in
      let local_port_i := base + cb_i in
      let* q := wait_qp fuel (name_clt_dgram i) in
      let* cb := eff_lift (arr_get cbs cb_i) in
      let* a := ibv_create_ah (cb_pd cb) (at_lid q) (local_port_i + 1) in
      eff_assert (negb (a =? 0)) ;*
      let* l := worker_clients n fuel cbs nsp base (i + 1) in
      eff_ret ((a, at_qpn q) :: l)
  end.

(** The rest of the set-up: the request region of [rr_size] bytes, and the
    clients. *)
Definition worker_attach (rr_size : Z) (fuel : nat) (cbs : list hrd_ctrl_blk) (nsp base : Z)
    : eff W (list (Z * Z)) :=
  let* sid := shmget MASTER_SHM_KEY rr_size in
  eff_assert (negb (sid =? -1)) ;*
  let* req_buf := shmat sid in
  eff_assert (negb (req_buf =? -1)) ;*
  worker_clients (Z.to_nat NUM_CLIENTS) fuel cbs nsp base 0.

(** [run_worker] before its loop; [shm_index], [shm_log] and [junk] as in
    [mica_init] and [mica_populate_fixed_len]. *)
Definition worker_setup (fuel : nat) (shm_index : list (list mica_slot)) (shm_log : gmap Z Z)
    (junk : list Z) (p : thread_params) : eff W (worker_cfg * list hrd_ctrl_blk * mica_kv) :=
  let lid := tp_id p in
  let nsp := tp_num_server_ports p in
  let base := tp_base_port_index p in
  eff_assert (tp_postlist p <=? MICA_MAX_BATCH_SIZE) ;*
  eff_assert (HERD_VALUE_SIZE <=? MICA_MAX_VALUE) ;*
  eff_assert (tp_postlist p <=? UNSIG_BATCH) ;*
  eff_assert (tp_postlist p <=? NUM_CLIENTS) ;*
  let* kv := eff_lift (mica_init shm_index shm_log lid 0 HERD_NUM_BKTS HERD_LOG_CAP) in
  let* kv := eff_lift (mica_populate_fixed_len junk kv HERD_NUM_KEYS HERD_VALUE_SIZE) in
  eff_assert (nsp <? MAX_SERVER_PORTS) ;*
  let* cbs := worker_ports (Z.to_nat nsp) NUM_UD_QPS lid base 0 in
  let* l := worker_attach RR_SIZE fuel cbs nsp base in
  eff_assert (NUM_CLIENTS mod nsp =? 0) ;*
  eff_ret (Cfg lid nsp (tp_postlist p) (map fst l) (map snd l), cbs, kv).

(** ** Master *)
Fixpoint publish_all (n : nat) (junk : list Z) (cb : hrd_ctrl_blk) (i j : Z) : eff W unit :=
  match n with
  | O => eff_ret tt
  | S n =>
      hrd_publish_conn_qp junk cb j (name_master i j) ;*
      publish_all n junk cb i (j + 1)
  end.

(** The control blocks of [n] ports from [i] on; [buf0] is [cb[0]->conn_buf]
    once the first block exists, [rr_size] the size of the region. *)
Fixpoint master_ports (n : nat) (rr_size : Z) (junk : list Z) (base i buf0 : Z) : eff W (list hrd_ctrl_blk) :=
  match n with
  | O => eff_ret []
  | S n =>
      let prealloc := if i =? 0 then 0 else buf0 in
      let shm_key := if i =? 0 then MASTER_SHM_KEY else -1 in
      let* cb := hrd_ctrl_blk_init (-22 + i) (base + i) 0 NUM_CLIENTS 1 prealloc rr_size shm_key 0 0 (-1) in
      memset0 (conn_buf cb) rr_size ;*
      publish_all (Z.to_nat NUM_CLIENTS) junk cb i 0 ;*
      let* cbs := master_ports n rr_size junk base (i + 1) (if i =? 0 then conn_buf cb else buf0) in
      eff_ret (cb :: cbs)
  end.

Fixpoint master_clients (n fuel : nat) (cbs : list hrd_ctrl_blk) (nsp i : Z) : eff W unit :=
  match n with
  | O => eff_ret tt
  | S n =>
      let* q := wait_qp fuel (name_clt_conn i) in
      let cb_i := i mod nsp in
      let* cb := eff_lift (arr_get cbs cb_i) in
      hrd_connect_qp cb i (at_qpn q) (at_lid q) ;*
      hrd_publish_ready (name_master cb_i i) ;*
      master_clients n fuel cbs nsp (i + 1)
  end.

(** [run_master] up to its final [sleep]. *)
Definition master_run (rr_size : Z) (fuel : nat) (junk : list Z) (nsp base : Z) : eff W (list hrd_ctrl_blk) :=
  let* cbs := master_ports (Z.to_nat nsp) rr_size junk base 0 0 in
  master_clients (Z.to_nat NUM_CLIENTS) fuel cbs nsp 0 ;*
  eff_ret cbs.

Definition run_master (fuel : nat) (junk : list Z) (p : thread_params) : eff W (list hrd_ctrl_blk) :=
  master_run RR_SIZE fuel junk (tp_num_server_ports p) (tp_base_port_index p).

(** ** Client *)

(** The control block, and what the master published. *)
Definition client_connect (fuel : nat) (junk : list Z) (clt_gid base nsp ncp : Z)
    : eff W (hrd_ctrl_blk * hrd_qp_attr) :=
  let ib_port_index := base + Z.rem clt_gid ncp in
  let srv_virt_port_index := Z.rem clt_gid nsp in
  let* cb := hrd_ctrl_blk_init clt_gid ib_port_index (-1) 1 1 0 4096 (-1) 1 4096 (-1) in
  hrd_publish_conn_qp junk cb 0 (name_clt_conn clt_gid) ;*
  hrd_publish_dgram_qp junk cb 0 (name_clt_dgram clt_gid) ;*
  let* mstr_qp := wait_qp fuel (name_master srv_virt_port_index clt_gid) in
  hrd_connect_qp cb 0 (at_qpn mstr_qp) (at_lid mstr_qp) ;*
  hrd_wait_till_ready fuel (name_master srv_virt_port_index clt_gid) ;*
  eff_ret (cb, mstr_qp).

(** [run_client] before its loop, with the seed and the configuration. *)
Definition client_setup (fuel : nat) (junk : list Z) (p : thread_params)
    : eff W (hrd_ctrl_blk * hrd_qp_attr * Z * client_cfg) :=
  let clt_gid := tp_id p in
  let* (cb, mstr_qp) := client_connect fuel junk clt_gid (tp_base_port_index p)
                          (tp_num_server_ports p) (tp_num_client_ports p) in
  let* (seed, key_arr) := eff_lift (get_random_permutation HERD_NUM_KEYS clt_gid 3735928559) in
  eff_ret (cb, mstr_qp, seed, CltCfg clt_gid (tp_update_percentage p) key_arr).
End Setup.
