(* ===== verification/HerdSetup.v ===== *)
(** * HERD: start-up proofs

    The device and shared-memory calls leave the registry alone, and so does
    everything that libhrd builds from them; with it the set-up of a worker
    is shown to succeed and to establish what the proofs about the data path
    assume. *)

From stdpp Require Import base gmap list strings numbers pretty.
From Stdlib Require Import ZArith Lia Ascii.
From S2P Require Import Prelude City Mica MicaProof MicaSpec MicaThms Verbs HrdUtil HrdConn Signal Herd HerdProof HerdMain.

(** ** Frames *)

(** The calls of the device and of shared memory. *)
Inductive dev_call {W : Type} `{Verbs W, Shm W} : ∀ A, eff W A → Prop :=
| call_list : dev_call _ ibv_get_device_list
| call_open d : dev_call _ (ibv_open_device d)
| call_query_device c : dev_call _ (ibv_query_device c)
| call_query_port c i : dev_call _ (ibv_query_port c i)
| call_close c : dev_call _ (ibv_close_device c)
| call_alloc_pd c : dev_call _ (ibv_alloc_pd c)
| call_create_cq c n : dev_call _ (ibv_create_cq c n)
| call_create_qp p a : dev_call _ (ibv_create_qp p a)
| call_modify q a f : dev_call _ (ibv_modify_qp q a f)
| call_reg_mr p a n f : dev_call _ (ibv_reg_mr p a n f)
| call_shmget k n : dev_call _ (shmget k n)
| call_shmat i : dev_call _ (shmat i)
| call_mbind a n m : dev_call _ (mbind a n m)
| call_memalign a n : dev_call _ (memalign a n)
| call_memset a n : dev_call _ (memset0 a n).

(** What the start-up relies on in addition to [HrdLaws]: device and memory
    calls do not change the registry and do not fill receive queues, a new
    queue pair has the receive queue that was asked for, RECVs can be posted
    while there is room, and address handles can be created. *)
Class HerdLaws (W : Type) `{HrdLaws W, DataVerbs W} : Type := {
  (** the free entries of the receive queues *)
  room : W → gmap Z Z;
  law_frame : ∀ A (m : eff W A), dev_call A m → keeps registry m;
  law_grows : ∀ A (m : eff W A), dev_call A m → within (λ w w', room w ⊆ room w') m;
  law_create_room : ∀ w pd a q w', ibv_create_qp pd a w = Ok (q, w') → q ≠ 0 →
    room w' !! q = Some (ia_max_recv_wr a);
  law_post_recv : ∀ w q n addr len lkey, room w !! q = Some n → 0 < n →
    runs (ibv_post_recv q addr len lkey) w (λ r w', r = 0 ∧ room w' = <[q := n - 1]> (room w) ∧
      qps w' = qps w ∧ registry w' = registry w);
  law_lkey : ∀ w m, runs (ibv_mr_lkey m) w (λ _ w', w' = w);
  law_create_ah : ∀ w pd dlid port,
    runs (ibv_create_ah pd dlid port) w (λ r w', r ≠ 0 ∧ registry w' = registry w ∧ qps w' = qps w)
}.

#[export] Hint Extern 1 (keeps registry _) => (apply law_frame; constructor) : within.

Section Frame.
Context {W : Type} `{HerdLaws W}.

Lemma keeps_port_loop fuel : ∀ c n i t, keeps registry (port_loop fuel c n i t).
Proof. induction fuel as [|fuel IH]; intros; cbn [port_loop]; within_tac; auto. Qed.

Lemma keeps_dev_loop ds : ∀ i t, keeps registry (dev_loop ds i t).
Proof.
  induction ds as [|d ds IH]; intros; cbn [dev_loop]; [within_tac|].
  repeat (within_step || apply keeps_port_loop || apply IH).
Qed.

Lemma keeps_dgram_loop n cb : keeps registry (dgram_loop n cb).
Proof.
  induction n as [|n IH]; cbn [dgram_loop]; [within_tac|]. unfold create_dgram_one.
  repeat (within_step || apply IH).
Qed.

Lemma keeps_conn_loop n cb : keeps registry (conn_loop n cb).
Proof.
  induction n as [|n IH]; cbn [conn_loop]; [within_tac|]. unfold create_conn_one.
  repeat (within_step || apply IH).
Qed.

Lemma keeps_ctrl_blk_init hid port numa nconn uc pre cs ck nd ds dk :
  keeps registry (hrd_ctrl_blk_init hid port numa nconn uc pre cs ck nd ds dk).
Proof.
  unfold hrd_ctrl_blk_init, hrd_resolve_port_index, init_dgram, init_conn, hrd_create_dgram_qps,
    hrd_create_conn_qps, alloc_buf, hrd_malloc_socket.
  repeat (within_step || apply keeps_dev_loop || apply keeps_dgram_loop || apply keeps_conn_loop).
Qed.
End Frame.

(** ** Names *)
Definition name_okb (s : string) : bool :=
  (strlen s <? HRD_QP_NAME_SIZE - 1) && negb (strstr s HRD_RESERVED_NAME_PREFIX) && negb (has_space s).

Lemma name_okb_ok s : name_okb s = true → name_ok s.
Proof.
  unfold name_okb. rewrite !andb_true_iff, !negb_true_iff, Z.ltb_lt. intros [[? ?] ?]. by split_and!.
Qed.

Lemma clt_dgram_name_ok i : (i < 70)%nat → name_ok (name_clt_dgram (Z.of_nat i)).
Proof.
  intros Hi. apply name_okb_ok.
  assert (Hall : forallb (λ i, name_okb (name_clt_dgram (Z.of_nat i))) (seq 0 70) = true) by (by vm_compute).
  by apply (forallb_seq (λ i, name_okb (name_clt_dgram (Z.of_nat i))) 70 i).
Qed.

(** ** The set-up of a worker *)
Section WorkerSetup.
Context {W : Type} `{HerdLaws W}.

(** Every client has published its datagram queue pair. *)
Definition clients_published (reg : gmap string (list Z)) (q : nat → hrd_qp_attr) : Prop :=
  ∀ c, (c < 70)%nat → ∃ v, reg !! name_clt_dgram (Z.of_nat c) = Some v ∧
    length v = 224%nat ∧ attr_of_bytes v = q c.

(** The ports that a worker uses exist. *)
Definition ports_enabled (base : Z) (n : nat) : Prop :=
  0 ≤ base ∧ base + Z.of_nat n ≤ 17 ∧
  (∀ d, d ∈ devs → d ≠ 0 ∧ Z.of_nat (length (dev_ports d)) < 255) ∧
  ∀ i, (i < n)%nat → is_Some (enabled_ports devs 0 !! (Z.to_nat base + i)%nat).

Lemma worker_ports_ok nuq lid base m : 1 ≤ nuq ≤ 8 → ports_enabled base m → ∀ n i w, (i + n = m)%nat →
  (size (qps w) + n * Z.to_nat nuq ≤ qp_limit)%nat →
  runs (worker_ports n nuq lid base (Z.of_nat i)) w (λ cbs w', length cbs = n ∧
    Forall (λ cb, Z.of_nat (length (dgram_qp cb)) = nuq) cbs ∧ registry w' = registry w).
Proof.
  intros Hnuq (Hb & Hmax & Hdevs & Hen). induction n as [|n IH]; intros i w Him Hroom; cbn [worker_ports].
  { apply runs_ret. split; [done|]. by split; [constructor|]. }
  destruct (Hen i ltac:(lia)) as [[[d di] p] Hp].
  eapply runs_bind.
  { apply (runs_keeps registry); [apply keeps_ctrl_blk_init|].
    apply (ctrl_blk_init_ok w lid (base + Z.of_nat i) (-1) 0 0 0 0 (-1) nuq 4096 (-1) d di p);
      unfold M_2, M_1024, buf_args_ok; try lia; try done; try (by left).
    by replace (Z.to_nat (base + Z.of_nat i)) with (Z.to_nat base + i)%nat by lia. }
  cbv beta. intros cb w1 ([Hmade _] & Hreg). pose proof (cm_dlen _ _ _ _ _ _ _ _ _ _ Hmade) as Hq.
  pose proof (cm_size _ _ _ _ _ _ _ _ _ _ Hmade) as Hsz.
  replace (Z.of_nat i + 1) with (Z.of_nat (S i)) by lia.
  eapply runs_bind; [apply IH; lia|]. cbv beta. intros cbs w2 (Hl & Hf & Hreg2).
  apply runs_ret. split; [simpl; lia|]. split; [|congruence]. by constructor.
Qed.

Lemma wait_qp_ok fuel name v w : name_ok name → registry w !! name = Some v → length v = 224%nat →
  runs (wait_qp (S fuel) name) w (λ q w', q = attr_of_bytes v ∧ registry w' = registry w).
Proof.
  intros Hn Hv Hl. cbn [wait_qp]. eapply runs_bind; [by eapply get_published_qp_ok|].
  cbv beta. intros r w1 [-> E]. by apply runs_ret.
Qed.

Lemma worker_clients_ok fuel cbs nsp base q : 0 < nsp → Z.of_nat (length cbs) = nsp →
  ∀ n i w, (i + n = 70)%nat → clients_published (registry w) q →
  runs (worker_clients n (S fuel) cbs nsp base (Z.of_nat i)) w (λ l _, length l = n ∧
    ∀ j, (j < n)%nat → ∃ a, a ≠ 0 ∧ l !! j = Some (a, at_qpn (q (i + j)%nat))).
Proof.
  intros Hnsp Hcbs. induction n as [|n IH]; intros i w Hi Hpub; cbn [worker_clients].
  { apply runs_ret. split; [done|lia]. }
  destruct (Hpub i ltac:(lia)) as (v & Hv & Hl & Hq).
  eapply runs_bind; [apply (wait_qp_ok fuel _ v); [apply clt_dgram_name_ok; lia|done|done]|].
  cbv beta. intros x w1 [-> E1].
  pose proof (Z.mod_pos_bound (Z.of_nat i) nsp Hnsp).
  destruct (arr_get_lt cbs (Z.of_nat i mod nsp)) as (cb & -> & _); [lia|]. apply runs_lift_Ok.
  eapply runs_bind; [apply law_create_ah|]. cbv beta. intros a w2 (Ha & E2 & _).
  apply runs_assert; [by apply negb_true_iff, Z.eqb_neq|].
  replace (Z.of_nat i + 1) with (Z.of_nat (S i)) by lia.
  eapply runs_bind; [apply IH; [lia|by rewrite E2, E1]|]. cbv beta. intros l w3 [Hll Hj].
  apply runs_ret. split; [simpl; lia|]. intros [|j] Hjn.
  - exists a. rewrite Nat.add_0_r, Hq. done.
  - destruct (Hj j ltac:(lia)) as (a' & Ha' & Hlj). exists a'. rewrite <-Nat.add_succ_comm. done.
Qed.

Lemma worker_attach_ok rr_size fuel cbs nsp base q w : 0 < nsp → Z.of_nat (length cbs) = nsp →
  clients_published (registry w) q →
  runs (worker_attach rr_size (S fuel) cbs nsp base) w (λ l _, length l = 70%nat ∧
    ∀ j, (j < 70)%nat → ∃ a, a ≠ 0 ∧ l !! j = Some (a, at_qpn (q j))).
Proof.
  intros Hn Hl Hpub. unfold worker_attach.
  eapply runs_bind; [apply (runs_keeps registry); [apply law_frame; constructor|apply law_shmget; done]|].
  cbv beta. intros sid w2 [[Hsid _] E2].
  apply runs_assert; [by apply negb_true_iff, Z.eqb_neq|].
  eapply runs_bind; [apply (runs_keeps registry); [apply law_frame; constructor|by apply law_shmat]|].
  cbv beta. intros rb w3 [[Hrb _] E3]. apply runs_assert; [apply negb_true_iff, Z.eqb_neq; lia|].
  apply (worker_clients_ok fuel cbs nsp base q Hn Hl 70 0 w3); [lia|]. by rewrite E3, E2.
Qed.

(** What the data path assumes about a worker. *)
Definition params_ok (p : thread_params) : Prop :=
  0 ≤ tp_id p < NUM_WORKERS ∧ 1 ≤ tp_num_server_ports p < MAX_SERVER_PORTS ∧
  NUM_CLIENTS mod tp_num_server_ports p = 0 ∧ 1 ≤ tp_postlist p ≤ MICA_MAX_BATCH_SIZE.

Lemma worker_setup_ok fuel ix lg junk p q w :
  params_ok p → shm_ok ix HERD_NUM_BKTS → length junk = 46%nat →
  ports_enabled (tp_base_port_index p) (Z.to_nat (tp_num_server_ports p)) →
  clients_published (registry w) q →
  (size (qps w) + Z.to_nat (tp_num_server_ports p) * Z.to_nat NUM_UD_QPS ≤ qp_limit)%nat →
  runs (worker_setup (S fuel) ix lg junk p) w (λ r _, ∃ cfg cbs kv, r = (cfg, cbs, kv) ∧
    cfg_ok cfg ∧ wrkr_lid cfg = tp_id p ∧ Z.of_nat (length cbs) = num_server_ports cfg ∧
    (∀ c, (c < 70)%nat → clt_qpn cfg !! c = Some (at_qpn (q c))) ∧
    ∃ keys spec, mica_gen_keys HERD_NUM_KEYS = Ok keys ∧ mica_reach kv spec ∧
      log_head kv < log_cap kv ∧
      ∀ k, k ∈ keys → spec !! Key (first k) (second k) =
                        Some (populate_val HERD_VALUE_SIZE (Key (first k) (second k)))).
Proof.
  intros (Hid & Hnsp & Hdiv & Hpl) Hix Hj Hports Hpub Hroom. unfold worker_setup. cbv zeta.
  unfold MAX_SERVER_PORTS, MICA_MAX_BATCH_SIZE, NUM_CLIENTS, UNSIG_BATCH, NUM_WORKERS in *.
  do 4 (apply runs_assert; [apply Z.leb_le; (done || lia)|]).
  assert (Hinit : ∃ kv0, mica_init ix lg (tp_id p) 0 HERD_NUM_BKTS HERD_LOG_CAP = Ok kv0 ∧
    log_head kv0 = 0 ∧ log_cap kv0 = HERD_LOG_CAP ∧ num_put_op kv0 = 0 ∧ num_index_evictions kv0 = 0).
  { unfold mica_init. cbn [Z.eqb orb cassert res_bind]. eexists. split; [reflexivity|done]. }
  destruct Hinit as (kv0 & Hkv0 & Hh & Hcap & Hp0 & He0). rewrite Hkv0. apply runs_lift_Ok.
  assert (Hr0 : mica_reach kv0 ∅) by (by eapply reach_init).
  destruct (populate_total junk kv0 ∅ HERD_NUM_KEYS HERD_VALUE_SIZE Hr0 Hj)
    as (keys & kv & spec & Hkeys & _ & Hpop & Hh' & Hcap' & Hr & Hspec);
    [by vm_compute|by vm_compute|done|done|rewrite Hh, Hcap; by vm_compute|].
  rewrite Hpop. apply runs_lift_Ok.
  assert (Hkv : ∃ keys spec, mica_gen_keys HERD_NUM_KEYS = Ok keys ∧ mica_reach kv spec ∧
    log_head kv < log_cap kv ∧
    ∀ k, k ∈ keys → spec !! Key (first k) (second k) =
                      Some (populate_val HERD_VALUE_SIZE (Key (first k) (second k)))).
  { exists keys, spec. split; [done|]. split; [done|]. split; [|done].
    rewrite Hh', Hh, Hcap', Hcap. by vm_compute. }
  clear Hpop Hkeys Hspec Hr Hh Hh' Hcap Hcap' Hr0 Hkv0 Hp0 He0 kv0 keys spec.
  apply runs_assert; [apply Z.ltb_lt, Hnsp|].
  eapply runs_bind; [apply (worker_ports_ok NUM_UD_QPS (tp_id p) _ _ ltac:(done) Hports (Z.to_nat (tp_num_server_ports p)) 0 w); lia|].
  cbv beta. intros cbs w1 (Hlen & _ & E1).
  eapply runs_bind; [apply (worker_attach_ok RR_SIZE fuel cbs (tp_num_server_ports p) (tp_base_port_index p) q);
    [lia|lia|by rewrite E1]|].
  cbv beta. intros l w4 [Hll Hlj]. apply runs_assert; [by apply Z.eqb_eq|]. apply runs_ret.
  eexists _, cbs, kv. split; [reflexivity|]. split; [|split; [done|split; [cbn; lia|split]]].
  - constructor; cbn; unfold NUM_WORKERS, MAX_SERVER_PORTS, MICA_MAX_BATCH_SIZE; try done; try lia;
      by rewrite length_map.
  - intros c Hc. cbn [clt_qpn]. destruct (Hlj c Hc) as (a & _ & Hc').
    by rewrite list_lookup_fmap, Hc'.
  - exact Hkv.
Qed.
End WorkerSetup.
