(* ===== verification/HerdStart.v ===== *)
(** * HERD: theorems about the start-up

    The identifiers that [main] gives to the clients of several machines,
    the workers that it starts, and the set-up of such a worker. *)

From stdpp Require Import base gmap list strings numbers pretty.
From Stdlib Require Import ZArith Lia Ascii.
From S2P Require Import Prelude City Mica MicaProof MicaSpec MicaThms Verbs HrdUtil HrdConn Signal Herd HerdProof HerdMain HerdSetup.

(** ** What main accepts *)
Lemma parse_opts_snoc opts c v : ∀ a,
  parse_opts a (opts ++ [(c, v)]) = (let! a := parse_opts a opts in parse_opt a c v).
Proof.
  induction opts as [|[c' v'] opts IH]; intros a; cbn [parse_opts app].
  { cbn [res_bind]. by destruct (parse_opt a c v). }
  rewrite res_bind_assoc. destruct (parse_opt a c' v'); [apply IH|done].
Qed.

Lemma herd_main_inv junk opts r : herd_main junk opts = Ok r →
  ∃ a, parse_opts args0 opts = Ok a ∧ 1 ≤ a_num_server_ports a ≤ 8 ∧
    match r with
    | Master p => p = master_params junk a
    | Clients ps => 1 ≤ num_threads a ∧ 0 ≤ machine_id a ∧
        ps = map (λ i, client_params a (Z.of_nat i)) (seq 0 (Z.to_nat (num_threads a)))
    | Workers ps => 1 ≤ a_postlist a ∧
        ps = map (λ i, worker_params junk a (Z.of_nat i)) (seq 0 (Z.to_nat NUM_WORKERS))
    end.
Proof.
  unfold herd_main. cbn [cassert res_bind]. intros H.
  do 4 (apply res_bind_Ok in H as (? & _ & H)).
  apply res_bind_Ok in H as (a & Ha & H). exists a. split; [done|].
  apply res_bind_Ok in H as (? & _ & H). apply res_bind_Ok in H as (? & Hn & H).
  apply cassert_Ok, andb_true_iff in Hn as [?%Z.leb_le ?%Z.leb_le]. split; [lia|].
  destruct (is_master a =? 1); [by injection H as <-|].
  apply res_bind_Ok in H as (? & _ & H).
  destruct (is_client a =? 1); inv_res; repeat match goal with
    | E : (_ <=? _) = true |- _ => apply Z.leb_le in E end; done.
Qed.

Lemma herd_main_workers junk opts ps p : herd_main junk opts = Ok (Workers ps) → p ∈ ps →
  0 ≤ tp_id p < NUM_WORKERS ∧ 1 ≤ tp_num_server_ports p ∧ 1 ≤ tp_postlist p.
Proof.
  intros (a & _ & Hn & Hp & ->)%herd_main_inv (i & -> & Hi)%list_elem_of_fmap.
  apply elem_of_seq in Hi. unfold NUM_WORKERS in *. cbn [worker_params tp_id tp_num_server_ports tp_postlist]. lia.
Qed.

(** The identifiers of the clients of one machine. *)
Lemma client_ids_machine a t m : num_threads a = t → machine_id a = m → 0 ≤ m → 0 ≤ t →
  (m + 1) * t ≤ 2 ^ 31 →
  map tp_id (map (λ i, client_params a (Z.of_nat i)) (seq 0 (Z.to_nat t))) = seqZ (m * t) t.
Proof.
  intros <- <- Hm Ht Hmax. rewrite map_map. unfold seqZ. apply map_ext_in.
  intros i Hi%in_seq. cbn [client_params tp_id]. unfold s32. rewrite Z.mod_small by lia. lia.
Qed.

(** The identifiers of several machines. *)
Lemma client_ids_all (t : Z) (ids : Z → list Z) k : 0 ≤ t → (∀ m, 0 ≤ m < k → ids m = seqZ (m * t) t) →
  0 ≤ k → concat (map ids (seqZ 0 k)) = seqZ 0 (k * t).
Proof.
  intros Ht Hids Hk. revert Hids. pattern k. revert k Hk. apply natlike_ind; [done|].
  intros k Hk IH Hids. rewrite <-Z.add_1_r, (seqZ_app 0 k 1), map_app, concat_app, IH by (done || lia || intros; apply Hids; lia).
  change (seqZ (0 + k) 1) with [0 + 0 + (0 + k)]. cbn [map concat]. rewrite app_nil_r, Hids by lia.
  replace (0 + 0 + (0 + k)) with k by lia.
  rewrite Z.mul_add_distr_r, Z.mul_1_l, (seqZ_app 0 (k * t) t) by nia. done.
Qed.

(** The clients of a deployment have different identifiers, and all
    identifiers are used: when [k] machines run [main] with the same options
    up to their machine identifiers 0 to [k - 1], each starts the same number
    [t] of clients, and the identifiers of all clients, machine by machine,
    are 0, 1, ..., [k * t - 1]. *)
Theorem herd_main_client_ids (junk k : Z) (opts : list (Ascii.ascii * Z)) (ps : Z → list thread_params) :
  0 < k →
  (∀ m, 0 ≤ m < k → herd_main junk (opts ++ [("m"%char, m)]) = Ok (Clients (ps m))) →
  ∃ t, 1 ≤ t ∧ (k * t ≤ 2 ^ 31 → concat (map (λ m, map tp_id (ps m)) (seqZ 0 k)) = seqZ 0 (k * t)).
Proof.
  intros Hk Hmain.
  assert (Hall : ∃ a, 1 ≤ num_threads a ∧ ∀ m, 0 ≤ m < k → ps m =
    map (λ i, client_params (Args (is_master a) (num_threads a) (is_client a) m (a_postlist a)
      (a_update_percentage a) (base_port_index a) (a_num_server_ports a) (num_client_ports a)) (Z.of_nat i))
      (seq 0 (Z.to_nat (num_threads a)))).
  { destruct (parse_opts args0 opts) as [a|f] eqn:Ha.
    - exists a. assert (Hm : ∀ m, parse_opts args0 (opts ++ [("m"%char, m)]) = parse_opt a "m"%char m)
        by (intros m; by rewrite parse_opts_snoc, Ha). split.
      + destruct (herd_main_inv _ _ _ (Hmain 0 ltac:(lia))) as (a' & E & _ & Ht & _).
        rewrite Hm in E. injection E as <-. exact Ht.
      + intros m Hmk. destruct (herd_main_inv _ _ _ (Hmain m Hmk)) as (a' & E & _ & _ & _ & ->).
        rewrite Hm in E. by injection E as <-.
    - destruct (herd_main_inv _ _ _ (Hmain 0 ltac:(lia))) as (a' & E & _).
      by rewrite parse_opts_snoc, Ha in E. }
  destruct Hall as (a & Ht & Hps). exists (num_threads a). split; [done|].
  intros Hmax. apply client_ids_all; [lia| |lia].
  intros m Hm. rewrite Hps by done. apply client_ids_machine; done || nia.
Qed.

(** The options of the script that starts the clients. *)
Definition demo_opts : list (Ascii.ascii * Z) :=
  [("t"%char, 14); ("b"%char, 0); ("N"%char, 2); ("n"%char, 2); ("c"%char, 1); ("u"%char, 5)].
Definition demo_clients (m : Z) : list thread_params :=
  map (λ i, client_params (Args (-1) 14 1 m (-1) 5 0 2 2) (Z.of_nat i)) (seq 0 14).

Lemma herd_main_client_ids_witness :
  ∃ t, 1 ≤ t ∧ (5 * t ≤ 2 ^ 31 →
    concat (map (λ m, map tp_id (demo_clients m)) (seqZ 0 5)) = seqZ 0 (5 * t)).
Proof.
  apply (herd_main_client_ids 0 5 demo_opts demo_clients); [lia|].
  intros m Hm. assert (Hc : m = 0 ∨ m = 1 ∨ m = 2 ∨ m = 3 ∨ m = 4) by lia.
  destruct Hc as [->|[->|[->|[->| ->]]]]; reflexivity.
Defined.

(** Nothing bounds the identifier of a client: a sixth machine with 14
    threads is accepted and starts a client with identifier 70, although
    [NUM_CLIENTS] is 70, and the slots that this client writes for worker 0
    are the slots of client 0 for worker 1. *)
Theorem herd_client_id_unchecked :
  ∃ ps p, herd_main 0 (demo_opts ++ [("m"%char, 5)]) = Ok (Clients ps) ∧ p ∈ ps ∧
    tp_id p = NUM_CLIENTS ∧ ∀ s, OFFSET 0 (tp_id p) s = OFFSET 1 0 s.
Proof.
  exists (demo_clients 5), (client_params (Args (-1) 14 1 5 (-1) 5 0 2 2) 0).
  split; [reflexivity|]. split; [left|]. split; [reflexivity|]. intros s. reflexivity.
Qed.

(** ** The set-up of a worker *)

(** A worker that [main] starts, with at most 16 requests in a postlist
    and one or two server ports that exist, and with room for one more queue
    pair per port, completes its set-up once every
    client has published its datagram queue pair: no assertion fails, no wait
    is endless, and the configuration meets what the theorems about the data
    path assume, with one control block for each port, the queue pair number
    of each client, and a store that holds all 8 M keys of HERD with their
    values. *)
Theorem herd_worker_starts {W : Type} `{HerdLaws W} (junk0 : Z) (opts : list (Ascii.ascii * Z))
    (ps : list thread_params) (p : thread_params) (fuel : nat) (ix : list (list mica_slot))
    (lg : gmap Z Z) (junk : list Z) (q : nat → hrd_qp_attr) (w : W) :
  herd_main junk0 opts = Ok (Workers ps) → p ∈ ps →
  tp_num_server_ports p = 1 ∨ tp_num_server_ports p = 2 → tp_postlist p ≤ MICA_MAX_BATCH_SIZE →
  shm_ok ix HERD_NUM_BKTS → length junk = 46%nat →
  ports_enabled (tp_base_port_index p) (Z.to_nat (tp_num_server_ports p)) →
  clients_published (registry w) q →
  (size (qps w) + Z.to_nat (tp_num_server_ports p) * Z.to_nat NUM_UD_QPS ≤ qp_limit)%nat →
  runs (worker_setup (S fuel) ix lg junk p) w (λ r _, ∃ cfg cbs kv, r = (cfg, cbs, kv) ∧
    cfg_ok cfg ∧ wrkr_lid cfg = tp_id p ∧ Z.of_nat (length cbs) = num_server_ports cfg ∧
    (∀ c, (c < 70)%nat → clt_qpn cfg !! c = Some (at_qpn (q c))) ∧
    ∃ keys spec, mica_gen_keys HERD_NUM_KEYS = Ok keys ∧ mica_reach kv spec ∧
      log_head kv < log_cap kv ∧
      ∀ k, k ∈ keys → spec !! Key (first k) (second k) =
                        Some (populate_val HERD_VALUE_SIZE (Key (first k) (second k)))).
Proof.
  intros Hm Hp Hn Hpl Hix Hj Hports Hpub Hroom. apply worker_setup_ok; [|done..].
  destruct (herd_main_workers _ _ _ _ Hm Hp) as (Hid & _ & Hpl1).
  unfold params_ok, MAX_SERVER_PORTS. split; [done|]. split; [lia|]. split; [|lia].
  destruct Hn as [-> | ->]; reflexivity.
Qed.

#[export] Program Instance sim_herd_laws : HerdLaws SimWorld := {| room := sim_room |}.
Next Obligation.
  intros A m Hm. destruct Hm; intros w0 a0 w' E; simpl in E; try (by injection E as _ <-).
  - case_decide; by injection E as _ <-.
  - unfold sim_modify in E. repeat case_match; by injection E as _ <-.
Qed.
Next Obligation.
  intros A m Hm. destruct Hm; intros w0 a0 w' E; simpl in E; try (by injection E as _ <-).
  - case_decide; injection E as _ <-; [apply insert_subseteq, sim_fresh_spec|done].
  - unfold sim_modify in E. repeat case_match; by injection E as _ <-.
Qed.
Next Obligation.
  intros w pd a q w' E Hq. cbn [ibv_create_qp sim_verbs] in E. case_decide; [|by injection E as <- _].
  injection E as <- <-. apply lookup_insert_eq.
Qed.
Next Obligation.
  intros w q n addr len lkey Hq Hn. simpl. unfold runs. rewrite Hq, (proj2 (Z.ltb_lt _ _)) by done.
  by eexists _, _.
Qed.
Next Obligation. intros. by eexists _, _. Qed.
Next Obligation. intros. by eexists _, _. Qed.

Definition demo_attr : list Z := replicate 224 0.
Definition demo_registry : SimWorld :=
  Sim 1 ∅ ∅ (list_to_map (map (λ c, (name_clt_dgram (Z.of_nat c), demo_attr)) (seq 0 70))) ∅.
Definition demo_worker_opts : list (Ascii.ascii * Z) :=
  [("b"%char, 0); ("N"%char, 2); ("c"%char, 0); ("p"%char, 16)].
Definition demo_worker (i : Z) : thread_params := Params i 0 2 (-1) 0 16.
Definition herd_index : list (list mica_slot) :=
  replicate (Z.to_nat HERD_NUM_BKTS) (replicate 8 (Slot 0 0 0)).

Lemma demo_registry_lookup c : (c < 70)%nat →
  sim_reg demo_registry !! name_clt_dgram (Z.of_nat c) = Some demo_attr.
Proof.
  intros Hc. eapply bool_decide_eq_true_1.
  apply (forallb_seq (λ c, bool_decide
    (sim_reg demo_registry !! name_clt_dgram (Z.of_nat c) = Some demo_attr)) 70 c); [by vm_compute|done].
Qed.

Lemma sim_ports_enabled : ports_enabled 0 2.
Proof.
  split; [done|]. split; [done|]. split.
  - intros d Hd. simpl in Hd. unfold sim_devs in Hd.
    rewrite !elem_of_cons, elem_of_nil in Hd. destruct Hd as [->|[->|[]]]; by vm_compute.
  - intros [|[|i]] Hi; [by eexists|by eexists|lia].
Qed.

Lemma herd_worker_starts_witness :
  runs (worker_setup 1 herd_index ∅ (replicate 46 0) (demo_worker 3)) demo_registry
    (λ r _, ∃ cfg cbs kv, r = (cfg, cbs, kv) ∧
    cfg_ok cfg ∧ wrkr_lid cfg = 3 ∧ Z.of_nat (length cbs) = num_server_ports cfg ∧
    (∀ c, (c < 70)%nat → clt_qpn cfg !! c = Some (at_qpn (attr_of_bytes demo_attr))) ∧
    ∃ keys spec, mica_gen_keys HERD_NUM_KEYS = Ok keys ∧ mica_reach kv spec ∧
      log_head kv < log_cap kv ∧
      ∀ k, k ∈ keys → spec !! Key (first k) (second k) =
                        Some (populate_val HERD_VALUE_SIZE (Key (first k) (second k)))).
Proof.
  apply (herd_worker_starts 0 demo_worker_opts (map (λ i, demo_worker (Z.of_nat i)) (seq 0 12))
           (demo_worker 3) 0 herd_index ∅ (replicate 46 0) (λ _, attr_of_bytes demo_attr)
           demo_registry).
  - reflexivity.
  - apply list_elem_of_fmap. exists 3%nat. split; [reflexivity|]. apply elem_of_seq. lia.
  - by right.
  - discriminate.
  - split; [unfold herd_index; rewrite length_replicate; apply Z2Nat.id; discriminate|].
    unfold herd_index. apply Forall_replicate. reflexivity.
  - reflexivity.
  - exact sim_ports_enabled.
  - intros c Hc. exists demo_attr. split; [by apply demo_registry_lookup|]. by split.
  - apply (bool_decide_unpack _). vm_compute. reflexivity.
Defined.
