(* ===== verification/HerdConnect.v ===== *)
(** * HERD: the master and the clients connect

    The set-up of the master and of a client ([HerdMain]) against the laws
    of the libraries: the master publishes and connects a queue pair for
    every client, and a client finds what the master has left in the
    registry.  The sequencer of [WsMain] runs the same code. *)

From stdpp Require Import base gmap list strings numbers pretty.
From Stdlib Require Import ZArith Lia Ascii.
From S2P Require Import Prelude City Mica MicaSpec Verbs HrdUtil HrdConn Signal Herd HerdProof HerdThms HerdMain HerdSetup HerdStart.

(** ** Names *)
Lemma clt_conn_name_ok c : (c < 70)%nat → name_ok (name_clt_conn (Z.of_nat c)).
Proof.
  intros Hc. apply name_okb_ok.
  apply (forallb_seq (λ c, name_okb (name_clt_conn (Z.of_nat c))) 70 c); [by vm_compute|done].
Qed.

(** The name with number [k] among those of 8 ports. *)
Definition master_name_at (k : nat) : string := name_master (Z.of_nat (k / 70)) (Z.of_nat (k mod 70)).

Lemma master_name_at_eq a b : (b < 70)%nat →
  master_name_at (70 * a + b) = name_master (Z.of_nat a) (Z.of_nat b).
Proof.
  intros Hb. unfold master_name_at. rewrite (Nat.mul_comm 70 a), (Nat.add_comm _ b).
  rewrite Nat.div_add, Nat.Div0.mod_add, Nat.div_small, Nat.mod_small by lia. done.
Qed.

Lemma master_name_ok a b : (a < 8)%nat → (b < 70)%nat → name_ok (name_master (Z.of_nat a) (Z.of_nat b)).
Proof.
  intros Ha Hb. apply name_okb_ok. rewrite <-master_name_at_eq by done.
  apply (forallb_seq (λ k, name_okb (master_name_at k)) 560); [by vm_compute|lia].
Qed.

Lemma master_names_nodup : NoDup (map master_name_at (seq 0 560)).
Proof. apply (bool_decide_unpack _). by vm_compute. Qed.

Lemma master_name_inj a b a' b' : (a < 8)%nat → (b < 70)%nat → (a' < 8)%nat → (b' < 70)%nat →
  name_master (Z.of_nat a) (Z.of_nat b) = name_master (Z.of_nat a') (Z.of_nat b') → a = a' ∧ b = b'.
Proof.
  intros Ha Hb Ha' Hb' E. rewrite <-!master_name_at_eq in E by done.
  assert (H : (70 * a + b = 70 * a' + b')%nat); [|lia].
  apply (NoDup_lookup _ _ _ (master_name_at (70 * a + b)) master_names_nodup).
  - by rewrite list_lookup_fmap, lookup_seq_lt by lia.
  - by rewrite E, list_lookup_fmap, lookup_seq_lt by lia.
Qed.

(** ** Frames: the registry calls leave the queue pairs alone *)
Section QpsFrame.
Context {W : Type} `{HerdLaws W}.

Lemma keeps_qps_qp_num q : keeps qps (ibv_qp_num q).
Proof. eapply within_of_runs; [intros w; apply (law_qp_num w q)|]. unfold sees. naive_solver. Qed.
Lemma keeps_qps_rkey m : keeps qps (ibv_mr_rkey m).
Proof. eapply within_of_runs; [intros w; apply (law_rkey w m)|]. unfold sees. naive_solver. Qed.

Local Hint Resolve keeps_qps_qp_num keeps_qps_rkey : within.
Local Hint Extern 1 (keeps qps _) =>
  (apply law_query_qps || apply law_set_qps || apply law_get_qps) : within.

Lemma keeps_qps_publish_conn junk cb n s : keeps qps (hrd_publish_conn_qp junk cb n s).
Proof. unfold hrd_publish_conn_qp, check_qp_name, hrd_get_local_lid, hrd_publish. within_tac. Qed.
Lemma keeps_qps_publish_dgram junk cb n s : keeps qps (hrd_publish_dgram_qp junk cb n s).
Proof. unfold hrd_publish_dgram_qp, check_qp_name, hrd_get_local_lid, hrd_publish. within_tac. Qed.
Lemma keeps_qps_publish_ready s : keeps qps (hrd_publish_ready s).
Proof. unfold hrd_publish_ready, hrd_publish. within_tac. Qed.
Lemma keeps_qps_wait_qp fuel s : keeps qps (wait_qp fuel s).
Proof.
  induction fuel as [|fuel IH]; cbn [wait_qp]; [within_tac|].
  unfold hrd_get_published_qp, check_qp_name, hrd_get_published. repeat (within_step || apply IH).
Qed.
Lemma keeps_qps_wait_ready fuel s : keeps qps (hrd_wait_till_ready fuel s).
Proof.
  unfold hrd_wait_till_ready. within_step; [within_tac|]. revert a.
  induction fuel as [|fuel IH]; intros s'; cbn [wait_loop]; [within_tac|].
  unfold hrd_get_published. repeat (within_step || apply IH).
Qed.

Lemma keeps_reg_connect cb n qpn lid : keeps registry (hrd_connect_qp cb n qpn lid).
Proof. unfold hrd_connect_qp. within_tac. Qed.
End QpsFrame.

(** ** The master *)
Definition uc_init : qp_info := QpInfo IBV_QPT_UC IBV_QPS_INIT (0, 0).

(** [master_entry reg a b buf q]: the registry names queue pair [q] as the
    one of port [a] for client [b], with the region at [buf]. *)
Definition master_entry {W : Type} `{HrdLaws W} (reg : gmap string (list Z)) (a b : nat) (buf q : Z) : Prop :=
  ∃ v, reg !! name_master (Z.of_nat a) (Z.of_nat b) = Some v ∧ length v = 224%nat ∧
    at_buf_addr (attr_of_bytes v) = buf ∧ at_qpn (attr_of_bytes v) = qpn_of q.

(** A control block of the master, with the region at [buf]. *)
Record master_blk (buf : Z) (cb : hrd_ctrl_blk) : Prop := {
  mb_num : num_conn_qps cb = 70;
  mb_uc : use_uc cb = 1;
  mb_port : 1 ≤ dev_port_id cb;
  mb_len : length (conn_qp cb) = 70%nat;
  mb_buf : conn_buf cb = buf
}.

Section Master.
Context {W : Type} `{HerdLaws W} (junk : list Z) (rr_size base : Z) (m : nat).
Context (Hj : length junk = 224%nat) (Hrr : 0 ≤ rr_size ≤ M_1024) (Hm : (m ≤ 8)%nat).

Lemma publish_all_ok a cb d i pa : (a < 8)%nat → master_blk (conn_buf cb) cb → 0 < conn_buf cb < 2 ^ 64 →
  conn_buf_size cb = rr_size → d ∈ devs → cb_ctx cb = ctx_of d → dev_port_id cb = Z.of_nat i + 1 →
  dev_ports d !! i = Some pa →
  ∀ n j w, (j + n = 70)%nat → runs (publish_all n junk cb (Z.of_nat a) (Z.of_nat j)) w (λ _ w',
    qps w' = qps w ∧
    (∀ b q, (j ≤ b)%nat → conn_qp cb !! b = Some q → master_entry (registry w') a b (conn_buf cb) q) ∧
    ∀ s, (∀ b, (j ≤ b < 70)%nat → s ≠ name_master (Z.of_nat a) (Z.of_nat b)) → registry w' !! s = registry w !! s).
Proof.
  intros Ha [Hnum _ _ Hlen _] Hbuf Hsz Hd Hctx Hport Hpa. induction n as [|n IH]; intros j w Hjn; cbn [publish_all].
  { apply runs_ret. split; [done|]. split; [|done]. intros b q Hb Hq%lookup_lt_Some. lia. }
  destruct (lookup_lt_is_Some_2 (conn_qp cb) j) as [q Hq]; [lia|].
  unfold M_1024 in *. eapply runs_bind.
  { apply (runs_keeps qps); [apply keeps_qps_publish_conn|].
    apply (publish_conn_ok junk cb (Z.of_nat j) q d i pa); try done; try lia; [by rewrite Nat2Z.id|].
    apply master_name_ok; lia. }
  cbv beta. intros _ w1 [(v & E1 & Hv) Eq1]. replace (Z.of_nat j + 1) with (Z.of_nat (S j)) by lia.
  eapply runs_mono; [apply IH; lia|]. cbv beta. intros _ w2 (Eq2 & Hent & Hfr).
  split; [congruence|]. split.
  - intros b q' Hb Hq'. destruct (decide (b = j)) as [->|Hne]; [|apply Hent; [lia|done]].
    rewrite Hq in Hq'. injection Hq' as <-. destruct Hv as (Hl & Hv1 & _ & _ & _ & Hv2). exists v.
    split; [|done]. rewrite Hfr; [by rewrite E1, lookup_insert_eq|].
    intros b Hb' E. apply master_name_inj in E as [_ <-]; lia.
  - intros s Hs. rewrite Hfr by (intros; apply Hs; lia). rewrite E1. apply lookup_insert_ne.
    intros <-. apply (Hs j); [lia|done].
Qed.

(** What is known after the control blocks of ports [i] to [m - 1] were made. *)
Record ports_made (w w' : W) (i : nat) (buf : Z) (cbs : list hrd_ctrl_blk) : Prop := {
  pm_blk : ∀ k cb, cbs !! k = Some cb → master_blk buf cb;
  pm_qp : ∀ k cb b q, cbs !! k = Some cb → conn_qp cb !! b = Some q →
    q ≠ 0 ∧ qps w !! q = None ∧ qps w' !! q = Some uc_init ∧ master_entry (registry w') (i + k) b buf q;
  pm_inj : ∀ k k' cb cb' b b' q, cbs !! k = Some cb → cbs !! k' = Some cb' →
    conn_qp cb !! b = Some q → conn_qp cb' !! b' = Some q → k = k' ∧ b = b';
  pm_old : ∀ q, is_Some (qps w !! q) → qps w' !! q = qps w !! q;
  pm_reg : ∀ s, (∀ a b, (i ≤ a < m)%nat → (b < 70)%nat → s ≠ name_master (Z.of_nat a) (Z.of_nat b)) →
    registry w' !! s = registry w !! s
}.

Lemma ports_made_cons w w1 w2 i buf cb cbs d di p pre (Hi : (i < m)%nat) :
  cb_made w w1 cb 70 1 pre 0 d di p → master_blk buf cb →
  (∀ b q, conn_qp cb !! b = Some q → master_entry (registry w1) i b buf q) →
  (∀ s, (∀ b, (b < 70)%nat → s ≠ name_master (Z.of_nat i) (Z.of_nat b)) → registry w1 !! s = registry w !! s) →
  ports_made w1 w2 (S i) buf cbs → ports_made w w2 i buf (cb :: cbs).
Proof.
  intros Hmade Hblk Hent Hreg [Pblk Pqp Pinj Pold Preg].
  destruct Hmade as [_ _ _ _ _ Hconn _ _ Hfresh Hnd _ Hold].
  assert (Hhead : ∀ b q, conn_qp cb !! b = Some q → qps w1 !! q = Some uc_init).
  { intros b q Hq. apply Hconn. by eapply list_elem_of_lookup_2. }
  assert (Hdisj : ∀ b q k cb' b', conn_qp cb !! b = Some q → cbs !! k = Some cb' → conn_qp cb' !! b' = Some q → False).
  { intros b q k cb' b' Hq Hk Hq'. destruct (Pqp _ _ _ _ Hk Hq') as (_ & Hn & _). by rewrite (Hhead b) in Hn. }
  constructor.
  - intros [|k] cb' Hk; [by injection Hk as <-|by eapply Pblk].
  - intros [|k] cb' b q Hk Hq.
    + injection Hk as <-. destruct (Hfresh q) as [Hq0 Hn]; [by eapply list_elem_of_lookup_2|].
      split; [done|]. split; [done|]. pose proof (Hhead b q Hq) as Hi1. split; [by rewrite Pold by (by rewrite Hi1)|].
      rewrite Nat.add_0_r. destruct (Hent b q Hq) as (v & Hv & Hrest). exists v. split; [|done].
      rewrite Preg; [done|]. intros a b' Ha Hb' E.
      assert (b < 70)%nat by (rewrite <-(mb_len _ _ Hblk); by eapply lookup_lt_Some).
      apply master_name_inj in E as [-> _]; lia.
    + destruct (Pqp _ _ _ _ Hk Hq) as (Hq0 & Hn & Hi2 & He). split; [done|]. split; [|split; [done|]].
      * destruct (qps w !! q) eqn:E; [|done]. rewrite Hold in Hn by (by rewrite E). by rewrite E in Hn.
      * by rewrite <-Nat.add_succ_comm.
  - intros [|k] [|k'] cb1 cb2 b b' q Hk Hk' Hq Hq'; simpl in Hk, Hk'.
    + injection Hk as <-. injection Hk' as <-. split; [done|]. by eapply NoDup_lookup.
    + injection Hk as <-. exfalso. by eapply (Hdisj b q k').
    + injection Hk' as <-. exfalso. by eapply (Hdisj b' q k).
    + destruct (Pinj _ _ _ _ _ _ _ Hk Hk' Hq Hq') as [-> ->]. done.
  - intros q Hq. rewrite Pold; rewrite Hold by done; done.
  - intros s Hs. rewrite Preg by (intros; apply Hs; lia). apply Hreg. intros. apply Hs; lia.
Qed.

Lemma master_ports_ok : ports_enabled base m → ∀ n i buf0 w, (i + n = m)%nat →
  (i ≠ 0%nat → 0 < buf0 < 2 ^ 64) → (size (qps w) + 70 * n ≤ qp_limit)%nat →
  runs (master_ports n rr_size junk base (Z.of_nat i) buf0) w (λ cbs w', length cbs = n ∧
    ∃ buf, (i ≠ 0%nat → buf = buf0) ∧ ports_made w w' i buf cbs).
Proof.
  intros (Hb & Hmax & Hdevs & Hen). induction n as [|n IH]; intros i buf0 w Hi Hbuf0 Hroom; cbn [master_ports].
  { apply runs_ret. split; [done|]. exists buf0. split; [done|]. constructor; done || (intros; done). }
  destruct (Hen i ltac:(lia)) as [[[d di] p] Hp].
  assert (Hin : (d, di, p) ∈ enabled_ports devs 0) by (by eapply list_elem_of_lookup_2).
  destruct (enabled_ports_dev devs 0 d di p Hin) as [Hd Hp1].
  destruct (enabled_ports_port devs 0 d di p Hin) as (pi & pa & -> & Hpa).
  replace (Z.of_nat i =? 0) with ((i =? 0)%nat) by (by destruct i).
  set (pre := if (i =? 0)%nat then 0 else buf0).
  unfold M_1024 in *.
  assert (Hpre : (pre =? 0) = (i =? 0)%nat).
  { subst pre. destruct i; [done|]. apply Z.eqb_neq. cbn. specialize (Hbuf0 ltac:(done)). lia. }
  eapply runs_bind.
  { apply (runs_keeps registry); [apply keeps_ctrl_blk_init|].
    apply (ctrl_blk_init_ok w (-22 + Z.of_nat i) (base + Z.of_nat i) 0 NUM_CLIENTS 1 pre rr_size
      (if (i =? 0)%nat then MASTER_SHM_KEY else -1) 0 0 (-1) d di (Z.of_nat pi + 1));
      unfold buf_args_ok, M_2, M_1024, NUM_CLIENTS, MASTER_SHM_KEY; try lia; try done; try (by right).
    - subst pre. destruct i; [by left|by right].
    - intros E. rewrite E in Hpre. split; [lia|]. intros _ _. rewrite <-Hpre. cbn. lia.
    - by replace (Z.to_nat (base + Z.of_nat i)) with (Z.to_nat base + i)%nat by lia. }
  cbv beta. intros cb w1 [[Hmade Hsz] Hreg1].
  pose proof (cm_size _ _ _ _ _ _ _ _ _ _ Hmade) as Hsz1. unfold NUM_CLIENTS in Hsz1.
  set (buf := conn_buf cb).
  assert (Hbuf : 0 < buf < 2 ^ 64 ∧ (i ≠ 0%nat → buf = buf0)).
  { pose proof (cm_buf _ _ _ _ _ _ _ _ _ _ Hmade ltac:(done)) as Hb'. rewrite Hpre in Hb'. subst buf pre.
    destruct i; cbn in Hb'; [done|]. rewrite Hb'. split; [by apply Hbuf0|done]. }
  assert (Hblk : master_blk buf cb).
  { destruct Hmade as [_ Hport _ Hlen _ _ (_ & ? & ? & _) _ _ _ _ _]. constructor; try done; [lia|].
    unfold NUM_CLIENTS in Hlen. lia. }
  eapply runs_bind; [apply (runs_keeps registry); [apply law_frame; constructor|apply law_memset]|].
  cbv beta. intros _ w2 [Eq2 Er2].
  eapply runs_bind.
  { apply (publish_all_ok i cb d pi pa) with (j := 0%nat); try done; try lia; try apply Hbuf;
      apply Hmade. }
  cbv beta. intros _ w3 (Eq3 & Hent & Hfr).
  replace (Z.of_nat i + 1) with (Z.of_nat (S i)) by lia.
  eapply runs_bind.
  { apply (IH (S i) (if (i =? 0)%nat then buf else buf0)); [lia| |rewrite Eq3, Eq2; lia]. intros _.
    destruct i; cbn; [apply Hbuf|by apply Hbuf0]. }
  cbv beta. intros cbs w4 (Hlen & buf' & Hb' & Hpm). apply runs_ret. split; [simpl; lia|].
  assert (buf' = buf) as ->.
  { rewrite Hb' by done. destruct i; [done|]. symmetry. by apply Hbuf. }
  exists buf. split; [apply Hbuf|].
  eapply (ports_made_cons w w3); [lia| |done|intros; apply Hent; [lia|done]| |done].
  - destruct Hmade. constructor; rewrite ?Eq3, ?Eq2; done.
  - intros s Hs. rewrite Hfr by (intros; apply Hs; lia). congruence.
Qed.
End Master.

(** ** The clients of the master *)

(** Every client has published its connected queue pair. *)
Definition conns_published (q : nat → hrd_qp_attr) (reg : gmap string (list Z)) : Prop :=
  ∀ c, (c < 70)%nat → ∃ v, reg !! name_clt_conn (Z.of_nat c) = Some v ∧
    length v = 224%nat ∧ attr_of_bytes v = q c.

Section MasterClients.
Context {W : Type} `{HerdLaws W} (cbs : list hrd_ctrl_blk) (m : nat) (buf : Z).
Context (Hm : (1 ≤ m ≤ 8)%nat) (Hlen : length cbs = m) (Hblk : ∀ k cb, cbs !! k = Some cb → master_blk buf cb).

(** The queue pair of the master for client [c]. *)
Definition mqp (c : nat) : Z := default 0 (cb ← cbs !! (c mod m)%nat; conn_qp cb !! c).

Lemma mqp_lookup c : (c < 70)%nat → ∃ cb, cbs !! (c mod m)%nat = Some cb ∧ master_blk buf cb ∧
  conn_qp cb !! c = Some (mqp c).
Proof.
  intros Hc. destruct (lookup_lt_is_Some_2 cbs (c mod m)%nat) as [cb Hcb].
  { rewrite Hlen. apply Nat.mod_upper_bound. lia. }
  pose proof (Hblk _ _ Hcb) as Hb. exists cb. split; [done|]. split; [done|].
  unfold mqp. rewrite Hcb. cbn. destruct (lookup_lt_is_Some_2 (conn_qp cb) c) as [x Hx].
  - by rewrite (mb_len _ _ Hb).
  - by rewrite Hx.
Qed.

Definition rts_to (a : hrd_qp_attr) : qp_info := QpInfo IBV_QPT_UC IBV_QPS_RTS (at_qpn a, at_lid a).
Definition ready_key (c : nat) : string :=
  HRD_RESERVED_NAME_PREFIX +:+ name_master (Z.of_nat (c mod m)) (Z.of_nat c).
Definition ready_val : list Z := bytes_of_string "hrd_ready".

Lemma master_clients_ok q fuel : (∀ a b, (a < 70)%nat → (b < 70)%nat → mqp a = mqp b → a = b) →
  ∀ n i w, (i + n = 70)%nat → conns_published q (registry w) →
  (∀ c, (i ≤ c < 70)%nat → mqp c ≠ 0 ∧ qps w !! mqp c = Some uc_init) →
  runs (master_clients n (S fuel) cbs (Z.of_nat m) (Z.of_nat i)) w (λ _ w',
    (∀ c, (i ≤ c < 70)%nat → qps w' !! mqp c = Some (rts_to (q c)) ∧
       registry w' !! ready_key c = Some ready_val) ∧
    (∀ x, (∀ c, (i ≤ c < 70)%nat → x ≠ mqp c) → qps w' !! x = qps w !! x) ∧
    (∀ s, strstr s HRD_RESERVED_NAME_PREFIX = false → registry w' !! s = registry w !! s) ∧
    ∀ s, registry w !! s = Some ready_val → registry w' !! s = Some ready_val).
Proof.
  intros Hinj. induction n as [|n IH]; intros i w Hi Hpub Hqp; cbn [master_clients].
  { apply runs_ret. split; [intros; lia|done]. }
  destruct (Hpub i ltac:(lia)) as (v & Hv & Hvl & Hvq).
  eapply runs_bind; [apply (runs_keeps qps); [apply keeps_qps_wait_qp|];
    apply (wait_qp_ok fuel _ v); [apply clt_conn_name_ok; lia|done|done]|].
  cbv beta. intros a w1 [[-> Er1] Eq1]. rewrite Hvq.
  destruct (mqp_lookup i ltac:(lia)) as (cb & Hcb & [Hnum Huc Hport Hl Hbuf] & Hci).
  rewrite <-Nat2Z.inj_mod. rewrite (arr_get_Z cbs (Z.of_nat (i mod m)) cb) by (lia || by rewrite Nat2Z.id).
  apply runs_lift_Ok. destruct (Hqp i ltac:(lia)) as [Hq0 Hqi].
  eapply runs_bind; [apply (runs_keeps registry); [apply keeps_reg_connect|];
    apply (connect_ok cb (Z.of_nat i) (mqp i) _ _ w1 (0, 0)); try done; try lia;
    [by rewrite Nat2Z.id|by rewrite Huc, Eq1]|].
  cbv beta. rewrite Huc. intros _ w2 [Eq2 Er2].
  eapply runs_bind; [apply (runs_keeps qps); [apply keeps_qps_publish_ready|]; apply publish_ready_ok|].
  { destruct (master_name_ok (i mod m) i) as [Hs _]; [|lia|unfold HRD_QP_NAME_SIZE in *; lia].
    pose proof (Nat.mod_upper_bound i m). lia. }
  cbv beta. intros _ w3 [Er3 Eq3]. replace (Z.of_nat i + 1) with (Z.of_nat (S i)) by lia.
  assert (Hreg : ∀ s, strstr s HRD_RESERVED_NAME_PREFIX = false → registry w3 !! s = registry w !! s).
  { intros s Hs. rewrite Er3, Er2, Er1. apply lookup_insert_ne. intros <-. by rewrite strstr_prefix in Hs. }
  assert (Hrdy : ∀ s, registry w !! s = Some ready_val → registry w3 !! s = Some ready_val).
  { intros s Hs. rewrite Er3, Er2, Er1. destruct (decide (s = ready_key i)) as [->|Hne].
    - apply lookup_insert_eq.
    - by rewrite lookup_insert_ne. }
  eapply runs_mono; [apply (IH (S i) w3); [lia| |]|].
  - intros c Hc. destruct (Hpub c Hc) as (v' & Hv' & Hv2). exists v'. split; [|done].
    rewrite Hreg; [done|]. by apply (clt_conn_name_ok c Hc).
  - intros c Hc. destruct (Hqp c ltac:(lia)) as [Hc0 Hci0]. split; [done|].
    rewrite Eq3, Eq2, Eq1. rewrite lookup_insert_ne; [done|]. intros E. apply Hinj in E; lia.
  - cbv beta. intros _ w4 (Hdone & Hfr & Hreg4 & Hrdy4). split; [|split; [|split]].
    + intros c Hc. destruct (decide (c = i)) as [->|Hne]; [|apply Hdone; lia]. split.
      * rewrite Hfr by (intros c' Hc' E; apply Hinj in E; lia). rewrite Eq3, Eq2. apply lookup_insert_eq.
      * apply Hrdy4. rewrite Er3. apply lookup_insert_eq.
    + intros x Hx. rewrite Hfr by (intros; apply Hx; lia). rewrite Eq3, Eq2, Eq1.
      apply lookup_insert_ne. intros <-. apply (Hx i); [lia|done].
    + intros s Hs. rewrite Hreg4 by done. by apply Hreg.
    + intros s Hs. by apply Hrdy4, Hrdy.
Qed.
End MasterClients.

Lemma ports_made_mqp_inj {W : Type} `{HerdLaws W} (w w' : W) m m' i buf cbs : (1 ≤ m ≤ 8)%nat → length cbs = m →
  ports_made m' w w' i buf cbs → ∀ a b, (a < 70)%nat → (b < 70)%nat → mqp cbs m a = mqp cbs m b → a = b.
Proof.
  intros Hm Hlen Hpm a b Ha Hb E.
  destruct (mqp_lookup cbs m buf Hm Hlen (pm_blk _ _ _ _ _ _ Hpm) a Ha) as (cb & Hcb & _ & Hqa).
  destruct (mqp_lookup cbs m buf Hm Hlen (pm_blk _ _ _ _ _ _ Hpm) b Hb) as (cb' & Hcb' & _ & Hqb).
  rewrite <-E in Hqb. by destruct (pm_inj _ _ _ _ _ _ Hpm _ _ _ _ _ _ _ Hcb Hcb' Hqa Hqb).
Qed.

Lemma master_run_ok {W : Type} `{HerdLaws W} rr_size fuel junk nsp base q (w : W) :
  1 ≤ nsp ≤ 8 → 0 ≤ rr_size ≤ M_1024 → length junk = 224%nat → ports_enabled base (Z.to_nat nsp) →
  conns_published q (registry w) → (size (qps w) + 70 * Z.to_nat nsp ≤ qp_limit)%nat →
  runs (master_run rr_size (S fuel) junk nsp base) w (λ cbs w', Z.of_nat (length cbs) = nsp ∧
    ∃ buf, ∀ c, (c < 70)%nat → ∃ cb qp, cbs !! (c mod Z.to_nat nsp)%nat = Some cb ∧ conn_buf cb = buf ∧
      conn_qp cb !! c = Some qp ∧ qps w' !! qp = Some (rts_to (q c)) ∧
      master_entry (registry w') (c mod Z.to_nat nsp) c buf qp ∧
      registry w' !! ready_key (Z.to_nat nsp) c = Some ready_val).
Proof.
  intros Hn Hrr Hj Hports Hpub Hroom. unfold master_run. set (m := Z.to_nat nsp) in *.
  assert (Hm : (1 ≤ m ≤ 8)%nat) by lia. replace nsp with (Z.of_nat m) by lia.
  eapply runs_bind; [apply (master_ports_ok junk rr_size base m Hj Hrr ltac:(lia) Hports m 0 0 w); [lia|done|done]|].
  cbv beta. intros cbs w1 (Hlen & buf & _ & Hpm).
  pose proof (ports_made_mqp_inj _ _ _ _ _ _ _ Hm Hlen Hpm) as Hinj.
  pose proof (mqp_lookup cbs m buf Hm Hlen (pm_blk _ _ _ _ _ _ Hpm)) as Hmq.
  eapply runs_bind; [apply (master_clients_ok cbs m buf Hm Hlen (pm_blk _ _ _ _ _ _ Hpm) q fuel Hinj 70 0 w1); [lia| |]|].
  - intros c Hc. destruct (Hpub c Hc) as (v & Hv & Hv'). exists v. split; [|done].
    rewrite (pm_reg _ _ _ _ _ _ Hpm); [done|]. by intros.
  - intros c Hc. destruct (Hmq c ltac:(lia)) as (cb & Hcb & _ & Hqc).
    by destruct (pm_qp _ _ _ _ _ _ Hpm _ _ _ _ Hcb Hqc) as (? & _ & ? & _).
  - cbv beta. intros _ w2 (Hdone & _ & Hreg & _). apply runs_ret. split; [lia|]. exists buf.
    intros c Hc. destruct (Hmq c Hc) as (cb & Hcb & Hblk & Hqc). exists cb, (mqp cbs m c).
    destruct (Hdone c ltac:(lia)) as [Hq2 Hr2].
    destruct (pm_qp _ _ _ _ _ _ Hpm _ _ _ _ Hcb Hqc) as (_ & _ & _ & v & Hv & Hv').
    split; [done|]. split; [apply Hblk|]. split; [done|]. split; [done|]. split; [|done].
    exists v. split; [|done]. rewrite Hreg; [done|].
    pose proof (Nat.mod_upper_bound c m). destruct (master_name_ok (c mod m) c) as (_ & Hs & _); [lia|done|].
    exact Hs.
Qed.

(** C30: where queue pairs can still be created for all its clients on all its
    ports ([70 * num_server_ports], and the other creation and registration
    calls of the verbs succeed), the master that [main] starts connects all
    clients: once every client has published its connected queue pair,
    [run_master] returns (up to its final sleep) with one control block per
    port; the queue pair of client [c] is number [c] of block
    [c mod num_server_ports], it is in RTS and connected to what the client
    published; and the registry holds for the client an entry with the queue
    pair number and the address of the one request region that all ports
    share, and the ready flag.  With the 128 queue pairs that libmlx5 of this
    repository gives to a process this is the case for one port only: see
    the theorem on two ports below. *)
Theorem herd_master_connects {W : Type} `{HerdLaws W} (junk0 : Z) (opts : list (Ascii.ascii * Z))
    (p : thread_params) (fuel : nat) (junk : list Z) (q : nat → hrd_qp_attr) (w : W) :
  herd_main junk0 opts = Ok (Master p) → length junk = 224%nat →
  ports_enabled (tp_base_port_index p) (Z.to_nat (tp_num_server_ports p)) →
  conns_published q (registry w) →
  (size (qps w) + 70 * Z.to_nat (tp_num_server_ports p) ≤ qp_limit)%nat →
  runs (run_master (S fuel) junk p) w (λ cbs w', Z.of_nat (length cbs) = tp_num_server_ports p ∧
    ∃ buf, ∀ c, (c < 70)%nat → ∃ cb qp, let k := (c mod Z.to_nat (tp_num_server_ports p))%nat in
      cbs !! k = Some cb ∧ conn_buf cb = buf ∧ conn_qp cb !! c = Some qp ∧
      qps w' !! qp = Some (QpInfo IBV_QPT_UC IBV_QPS_RTS (at_qpn (q c), at_lid (q c))) ∧
      master_entry (registry w') k c buf qp ∧
      registry w' !! (HRD_RESERVED_NAME_PREFIX +:+ name_master (Z.of_nat k) (Z.of_nat c)) =
        Some (bytes_of_string "hrd_ready")).
Proof.
  intros (a & _ & Hn & ->)%herd_main_inv Hj Hports Hpub Hroom.
  apply (master_run_ok RR_SIZE); [done|by vm_compute|done..].
Qed.

Definition demo_conns : SimWorld :=
  Sim 1 ∅ ∅ (list_to_map (map (λ c, (name_clt_conn (Z.of_nat c), demo_attr)) (seq 0 70))) ∅.

Lemma demo_conns_lookup c : (c < 70)%nat →
  sim_reg demo_conns !! name_clt_conn (Z.of_nat c) = Some demo_attr.
Proof.
  intros Hc. eapply bool_decide_eq_true_1.
  apply (forallb_seq (λ c, bool_decide
    (sim_reg demo_conns !! name_clt_conn (Z.of_nat c) = Some demo_attr)) 70 c); [by vm_compute|done].
Qed.

Lemma herd_master_connects_witness :
  runs (run_master 1 (replicate 224 255) (Params 0 0 1 0 0 0)) demo_conns (λ cbs w', Z.of_nat (length cbs) = 1 ∧
    ∃ buf, ∀ c, (c < 70)%nat → ∃ cb qp, let k := (c mod 1)%nat in
      cbs !! k = Some cb ∧ conn_buf cb = buf ∧ conn_qp cb !! c = Some qp ∧
      qps w' !! qp = Some (QpInfo IBV_QPT_UC IBV_QPS_RTS (0, 0)) ∧
      master_entry (registry w') k c buf qp ∧
      registry w' !! (HRD_RESERVED_NAME_PREFIX +:+ name_master (Z.of_nat k) (Z.of_nat c)) =
        Some (bytes_of_string "hrd_ready")).
Proof.
  apply (herd_master_connects 0 [("M"%char, 1); ("b"%char, 0); ("N"%char, 1)] (Params 0 0 1 0 0 0) 0
    (replicate 224 255) (λ _, attr_of_bytes demo_attr) demo_conns).
  - reflexivity.
  - reflexivity.
  - destruct sim_ports_enabled as (H1 & H2 & H3 & H4). split; [done|]. split; [done|]. split; [done|].
    intros i Hi. apply H4. cbn in Hi. lia.
  - intros c Hc. exists demo_attr. split; [by apply demo_conns_lookup|]. by split.
  - apply (bool_decide_unpack _). vm_compute. reflexivity.
Defined.

(** The master for two ports, as [run-servers.sh] starts it, asks for 140
    queue pairs.  Where there are 128, the 129th is NULL, and the assertion of
    [hrd_create_conn_qps] stops the program. *)
Theorem herd_master_two_ports_stop :
  herd_main 0 [("M"%char, 1); ("b"%char, 0); ("N"%char, 2)] = Ok (Master (Params 0 0 2 0 0 0)) ∧
  run_master 1 (replicate 224 255) (Params 0 0 2 0 0 0) demo_conns = Fault AssertFail.
Proof. split; [reflexivity|]. vm_compute. reflexivity. Qed.

(** ** A client *)
Section Client.
Context {W : Type} `{HerdLaws W}.

Lemma client_connect_ok fuel junk base nsp ncp c v (w : W) :
  (c < 70)%nat → 1 ≤ nsp ≤ 8 → length junk = 224%nat →
  ports_enabled (base + Z.rem (Z.of_nat c) ncp) 1 →
  registry w !! name_master (Z.of_nat (c mod Z.to_nat nsp)) (Z.of_nat c) = Some v → length v = 224%nat →
  registry w !! ready_key (Z.to_nat nsp) c = Some ready_val → (size (qps w) + 2 ≤ qp_limit)%nat →
  runs (client_connect (S fuel) junk (Z.of_nat c) base nsp ncp) w (λ r w', ∃ cb qp dq vc vd,
    r = (cb, attr_of_bytes v) ∧ conn_qp cb = [qp] ∧ dgram_qp cb = [dq] ∧
    qps w' !! qp = Some (rts_to (attr_of_bytes v)) ∧ qps w' !! dq = Some ud_ready ∧
    registry w' = <[name_clt_dgram (Z.of_nat c) := vd]> (<[name_clt_conn (Z.of_nat c) := vc]> (registry w)) ∧
    length vc = 224%nat ∧ at_qpn (attr_of_bytes vc) = qpn_of qp ∧
    length vd = 224%nat ∧ at_qpn (attr_of_bytes vd) = qpn_of dq).
Proof.
  intros Hc Hn Hj (Hb & Hmax & Hdevs & Hen) Hv Hvl Hrdy Hroom. unfold client_connect. cbv zeta.
  set (port := base + Z.rem (Z.of_nat c) ncp) in *.
  rewrite Z.rem_mod_nonneg by lia. replace nsp with (Z.of_nat (Z.to_nat nsp)) at 1 3 by lia.
  set (m := Z.to_nat nsp) in *. assert (Hm : (1 ≤ m ≤ 8)%nat) by lia.
  replace nsp with (Z.of_nat m) by lia. rewrite <-Nat2Z.inj_mod.
  assert (Hcm : (c mod m < 8)%nat) by (pose proof (Nat.mod_upper_bound c m); lia).
  pose proof (master_name_ok (c mod m) c Hcm Hc) as Hmn.
  destruct (Hen 0%nat ltac:(lia)) as [[[d di] p] Hp]. rewrite Nat.add_0_r in Hp.
  assert (Hin : (d, di, p) ∈ enabled_ports devs 0) by (by eapply list_elem_of_lookup_2).
  destruct (enabled_ports_dev devs 0 d di p Hin) as [Hd Hp1].
  destruct (enabled_ports_port devs 0 d di p Hin) as (pi & pa & -> & Hpa).
  eapply runs_bind.
  { apply (runs_keeps registry); [apply keeps_ctrl_blk_init|].
    apply (ctrl_blk_init_ok w (Z.of_nat c) port (-1) 1 1 0 4096 (-1) 1 4096 (-1) d di (Z.of_nat pi + 1));
      unfold buf_args_ok, M_2, M_1024; try lia; done. }
  cbv beta. intros cb w1 [[Hmade Hsz] Er1].
  pose proof (cm_buf _ _ _ _ _ _ _ _ _ _ Hmade ltac:(done)) as Hbuf. cbn in Hbuf.
  destruct Hmade as [_ Hport Hdl Hcl Hdq Hcq (Hctx & Huc & Hnc & Hnd) _ Hfresh _ _ _].
  destruct (conn_qp cb) as [|qp [|]] eqn:Ecq; simpl in Hcl; try lia.
  destruct (dgram_qp cb) as [|dq [|]] eqn:Edq; simpl in Hdl; try lia.
  specialize (Hdq dq ltac:(left)). specialize (Hcq qp ltac:(left)). destruct (Hfresh qp ltac:(left)) as [Hq0 _].
  eapply runs_bind; [apply (runs_keeps qps); [apply keeps_qps_publish_conn|];
    apply (publish_conn_ok junk cb 0 qp d pi pa); try done; try lia; [by rewrite Ecq|by apply clt_conn_name_ok]|].
  cbv beta. intros _ w2 [(vc & Er2 & Hvc) Eq2].
  eapply runs_bind; [apply (runs_keeps qps); [apply keeps_qps_publish_dgram|];
    apply (publish_dgram_ok junk cb 0 dq d pi pa); try done; try lia; [by rewrite Edq|by apply clt_dgram_name_ok]|].
  cbv beta. intros _ w3 [(vd & Er3 & Hvd) Eq3].
  assert (Hkeep : ∀ s, s ≠ name_clt_dgram (Z.of_nat c) → s ≠ name_clt_conn (Z.of_nat c) →
    registry w3 !! s = registry w !! s).
  { intros s Hs1 Hs2. by rewrite Er3, lookup_insert_ne, Er2, lookup_insert_ne, Er1 by done. }
  eapply runs_bind; [apply (runs_keeps qps); [apply keeps_qps_wait_qp|];
    apply (wait_qp_ok fuel _ v); [done|by rewrite Hkeep|done]|].
  cbv beta. intros a w4 [[-> Er4] Eq4].
  eapply runs_bind; [apply (runs_keeps registry); [apply keeps_reg_connect|];
    apply (connect_ok cb 0 qp _ _ w4 (0, 0)); try done; try lia;
    [by rewrite Ecq|by rewrite Eq4, Eq3, Eq2, Hcq, Huc]|].
  cbv beta. rewrite Huc. intros _ w5 [Eq5 Er5].
  eapply runs_bind; [apply (runs_keeps qps); [apply keeps_qps_wait_ready|]; apply wait_ready_ok|].
  { destruct Hmn as [Hs _]. unfold HRD_QP_NAME_SIZE in *. lia. }
  { rewrite Er5, Er4, Hkeep by done. exact Hrdy. }
  cbv beta. intros _ w6 [Er6 Eq6]. apply runs_ret. exists cb, qp, dq, vc, vd.
  rewrite Eq6, Eq5, Er6, Er5, Er4, Er3, Er2, Er1.
  assert (Hne : qp ≠ dq) by (intros ->; by rewrite Hcq in Hdq).
  rewrite lookup_insert_eq, lookup_insert_ne, Eq4, Eq3, Eq2 by done.
  do 6 (split; [done|]). split; [apply Hvc|]. split; [apply Hvc|]. split; apply Hvd.
Qed.
End Client.

(** A client that [main] starts, with an identifier below 70 and a port
    that exists, completes its set-up against a registry in which the master
    has left its entry and the ready flag: its connected queue pair is in RTS
    and connected to what the master published, its datagram queue pair is in
    RTS, exactly its two entries are added to the registry and they hold the
    numbers of these queue pairs, and its key array is a permutation of all
    keys. *)
Theorem herd_client_starts {W : Type} `{HerdLaws W} (junk0 : Z) (opts : list (Ascii.ascii * Z))
    (ps : list thread_params) (p : thread_params) (c fuel : nat) (junk v : list Z) (w : W) :
  herd_main junk0 opts = Ok (Clients ps) → p ∈ ps → tp_id p = Z.of_nat c → (c < 70)%nat →
  length junk = 224%nat → ports_enabled (tp_base_port_index p + Z.rem (tp_id p) (tp_num_client_ports p)) 1 →
  let k := (c mod Z.to_nat (tp_num_server_ports p))%nat in
  registry w !! name_master (Z.of_nat k) (Z.of_nat c) = Some v → length v = 224%nat →
  registry w !! (HRD_RESERVED_NAME_PREFIX +:+ name_master (Z.of_nat k) (Z.of_nat c)) =
    Some (bytes_of_string "hrd_ready") → (size (qps w) + 2 ≤ qp_limit)%nat →
  runs (client_setup (S fuel) junk p) w (λ r w', ∃ cb qp dq vc vd seed key_arr,
    r = (cb, attr_of_bytes v, seed, CltCfg (tp_id p) (tp_update_percentage p) key_arr) ∧
    conn_qp cb = [qp] ∧ dgram_qp cb = [dq] ∧
    qps w' !! qp = Some (QpInfo IBV_QPT_UC IBV_QPS_RTS (at_qpn (attr_of_bytes v), at_lid (attr_of_bytes v))) ∧
    qps w' !! dq = Some (QpInfo IBV_QPT_UD IBV_QPS_RTS (0, 0)) ∧
    registry w' = <[name_clt_dgram (tp_id p) := vd]> (<[name_clt_conn (tp_id p) := vc]> (registry w)) ∧
    at_qpn (attr_of_bytes vc) = qpn_of qp ∧ at_qpn (attr_of_bytes vd) = qpn_of dq ∧
    length vc = 224%nat ∧ length vd = 224%nat ∧
    key_arr ≡ₚ map Z.of_nat (seq 0 (Z.to_nat HERD_NUM_KEYS))).
Proof.
  intros (a & _ & Hn & _ & _ & Hps)%herd_main_inv Hp Hid Hc Hj Hport k Hv Hvl Hrdy Hroom.
  assert (Hnsp : tp_num_server_ports p = a_num_server_ports a).
  { rewrite Hps in Hp. by apply list_elem_of_fmap in Hp as (i & -> & _). }
  clear Hps Hp. unfold client_setup. cbv zeta. rewrite Hid in *.
  eapply runs_bind; [apply (client_connect_ok fuel junk _ _ _ c v); done || lia|].
  cbv beta. intros r w1 (cb & qp & dq & vc & vd & -> & Hqp & Hdq & Hqc & Hqd & Hreg & Hl1 & Hc1 & Hl2 & Hd1).
  destruct (random_permutation_ok HERD_NUM_KEYS (Z.of_nat c) 3735928559 ltac:(done)) as (seed & log & -> & Hperm).
  apply runs_lift_Ok, runs_ret. exists cb, qp, dq, vc, vd, seed, log. repeat (split; [done|]). done.
Qed.

Definition demo_ready : SimWorld :=
  Sim 1 ∅ ∅ (<["master-1-3"%string := demo_attr]>
    (<[HRD_RESERVED_NAME_PREFIX +:+ "master-1-3" := bytes_of_string "hrd_ready"]> ∅)) ∅.
Definition demo_client : thread_params := client_params (Args (-1) 14 1 0 (-1) 5 0 2 2) 3.

Lemma herd_client_starts_witness :
  runs (client_setup 1 (replicate 224 255) demo_client) demo_ready (λ r w', ∃ cb qp dq vc vd seed key_arr,
    r = (cb, attr_of_bytes demo_attr, seed, CltCfg 3 5 key_arr) ∧
    conn_qp cb = [qp] ∧ dgram_qp cb = [dq] ∧
    qps w' !! qp = Some (QpInfo IBV_QPT_UC IBV_QPS_RTS (0, 0)) ∧
    qps w' !! dq = Some (QpInfo IBV_QPT_UD IBV_QPS_RTS (0, 0)) ∧
    registry w' = <["client-dgram-3"%string := vd]> (<["client-conn-3"%string := vc]> (registry demo_ready)) ∧
    at_qpn (attr_of_bytes vc) = qpn_of qp ∧ at_qpn (attr_of_bytes vd) = qpn_of dq ∧
    length vc = 224%nat ∧ length vd = 224%nat ∧
    key_arr ≡ₚ map Z.of_nat (seq 0 (Z.to_nat HERD_NUM_KEYS))).
Proof.
  apply (herd_client_starts 0 (demo_opts ++ [("m"%char, 0)]) (demo_clients 0) demo_client 3 0
    (replicate 224 255) demo_attr demo_ready).
  - reflexivity.
  - apply list_elem_of_fmap. exists 3%nat. split; [reflexivity|]. apply elem_of_seq. lia.
  - reflexivity.
  - lia.
  - reflexivity.
  - split; [done|]. split; [done|]. split; [apply sim_ports_enabled|].
    intros [|i] Hi; [by eexists|lia].
  - by vm_compute.
  - reflexivity.
  - by vm_compute.
  - apply (bool_decide_unpack _). vm_compute. reflexivity.
Defined.
