(* ===== verification/SsSeq.v ===== *)
(** * The SEND/SEND sequencer (src/ss-sequencer)

    Clients ask a server thread for a number with a header-only SEND; the
    threads of a server take numbers from one shared counter with an atomic
    fetch-and-add and answer with a SEND.  A request carries, as immediate
    data, the upper half of the counter that the client expects; if the
    guess is right, the answer carries the lower half as immediate data,
    otherwise it carries the whole counter as payload.

    What the device returns is an argument of the steps: the completions of
    [ibv_poll_cq], the handles of [ibv_create_ah], the completion that
    [hrd_poll_cq] stores and the contents of the receive buffer. *)

From stdpp Require Import base gmap list numbers.
From Stdlib Require Import ZArith Lia Ascii.
From S2P Require Import Prelude Mica HrdUtil Signal Herd.

Definition ss_NUM_UD_QPS : Z := 3.
Definition NUM_SERVER_THREADS : Z := 10.
Definition MAX_NUM_CLIENTS : Z := 70.
Definition BUF_SIZE : Z := 4096.
Definition CACHELINE_SIZE : Z := 64.
Definition MAX_POSTLIST : Z := 128.
Definition HRD_MAX_LID : Z := 256.
Definition IBV_WR_SEND : Z := 2.
Definition IBV_WC_WITH_IMM : Z := 2.

(** ** Work completions and buffers *)
Record recv_wc : Type := RecvWc { rwc_slid : Z; rwc_src_qp : Z; rwc_imm_data : Z; rwc_flags : Z }.
Definition rwc0 : recv_wc := RecvWc 0 0 0 0.

(** An address in [dgram_buf], or that of an element of [resp_buf]. *)
Inductive buf_ref : Type :=
| DgramBuf (off : Z)
| RespBuf (i : Z).
Record ss_sge : Type := SsSge { sse_addr : buf_ref; sse_length : Z }.

(** A receive request: index of its scatter/gather entry and [next]. *)
Record recv_wr : Type := RecvWr { rwr_sg_list : Z; rwr_next : option Z }.

(** The verbs calls of a thread. *)
Inductive ss_act : Type :=
| SPostRecv (bufs : list ss_sge)
| SCreateAh (lid : Z)
| SPollSend (qp_i : Z)
| SPostSend (qp_i : Z) (wrs : list (send_wr * list Z)).

(** ** Server *)

(** The local variables of [run_server]. *)
Record server : Type := Server
  { s_ah : list Z; s_wr : list send_wr; s_recv_wr : list recv_wr; s_wc : list recv_wc;
    s_sgl : list ss_sge; s_resp_buf : list Z; s_rolling_iter : Z; s_nb_tx : list Z;
    s_nb_tx_tot : Z; s_nb_post_send : Z; s_qp_i : Z }.

(** [wrs], [rwrs], [wcs] and [sges] are what the uninitialised arrays hold. *)
Definition server_init (wrs : list send_wr) (rwrs : list recv_wr) (wcs : list recv_wc)
    (sges : list ss_sge) : server :=
  Server (replicate 256 0) wrs rwrs wcs sges (replicate 128 0) 0 (replicate 3 0) 0 0 0.

(** [ibv_poll_cq] stores the completions from index [i] on. *)
Fixpoint store_wc (wcs : list recv_wc) (i : Z) (comps : list recv_wc) : res (list recv_wc) :=
  match comps with
  | [] => Ok wcs
  | c :: comps =>
      let! wcs := arr_set wcs i c in
      store_wc wcs (i + 1) comps
  end.

(** "Post a batch of RECVs": [n] iterations from [w_i] on. *)
Fixpoint fill_recv (n : nat) (num_comps w_i : Z) (rwrs : list recv_wr) (sges : list ss_sge)
    : res (list recv_wr * list ss_sge) :=
  match n with
  | O => Ok (rwrs, sges)
  | S n =>
      let! sges := arr_set sges w_i (SsSge (DgramBuf 0) CACHELINE_SIZE) in
      let! rwrs := arr_set rwrs w_i
        (RecvWr w_i (if w_i =? num_comps - 1 then None else Some (w_i + 1))) in
      fill_recv n num_comps (w_i + 1) rwrs sges
  end.

(** The address handle for a LID, created on demand. *)
Definition get_ah (mk_ah : Z → Z) (ahs : list Z) (lid : Z) : res (list Z * Z * list ss_act) :=
  let! a := arr_get ahs lid in
  if a =? 0 then
    cassert (negb (mk_ah lid =? 0)) ;!
    let! ahs := arr_set ahs lid (mk_ah lid) in
    Ok (ahs, mk_ah lid, [SCreateAh lid])
  else Ok (ahs, a, []).

(** Is the client's guess of the upper half right? *)
Definition guess_ok (c : recv_wc) (resp_val : Z) : bool :=
  rwc_imm_data c =? u32 (resp_val .>> 32).

(** The body of the loop over the requests; [polled] is the completion that
    [hrd_poll_cq] stores in [wc[0]]. *)
Definition respond (mk_ah : Z → Z) (polled : recv_wc) (base num_comps w_i : Z) (s : server)
    : res (server * list ss_act) :=
  let! c := arr_get (s_wc s) w_i in
  let! (ahs, a, acts) := get_ah mk_ah (s_ah s) (rwc_slid c) in
  let! old := arr_get (s_wr s) w_i in
  let! tx := arr_get (s_nb_tx s) (s_qp_i s) in
  let resp_val := u64 (base + w_i) in
  let ok := guess_ok c resp_val in
  let new := SendWr (if w_i =? num_comps - 1 then None else Some (w_i + 1)) a (rwc_src_qp c)
    HRD_DEFAULT_QKEY (if ok then IBV_WR_SEND_WITH_IMM else IBV_WR_SEND) 1 w_i
    (if ok then u32 (resp_val .& 0xffffffff) else wr_imm_data old)
    ((if is_signaled tx then IBV_SEND_SIGNALED else 0) .| IBV_SEND_INLINE) in
  let! wrs := arr_set (s_wr s) w_i new in
  let! sges := arr_set (s_sgl s) w_i (SsSge (RespBuf w_i) (if ok then 0 else 8)) in
  let! bufs := if ok then Ok (s_resp_buf s) else arr_set (s_resp_buf s) w_i resp_val in
  let! wcs := if must_poll tx then arr_set (s_wc s) 0 polled else Ok (s_wc s) in
  let! txs := arr_set (s_nb_tx s) (s_qp_i s) (tx + 1) in
  Ok (Server ahs wrs (s_recv_wr s) wcs sges bufs (s_rolling_iter s + 1) txs (s_nb_tx_tot s + 1)
        (s_nb_post_send s) (s_qp_i s),
      acts ++ (if must_poll tx then [SPollSend (s_qp_i s)] else [])).

Fixpoint respond_loop (n : nat) (mk_ah : Z → Z) (polled : recv_wc) (base num_comps w_i : Z) (s : server)
    : res (server * list ss_act) :=
  match n with
  | O => Ok (s, [])
  | S n =>
      let! (s, a1) := respond mk_ah polled base num_comps w_i s in
      let! (s, a2) := respond_loop n mk_ah polled base num_comps (w_i + 1) s in
      Ok (s, a1 ++ a2)
  end.

(** The bytes that a scatter/gather entry names, gathered by [ibv_post_send]. *)
Definition ss_gather (s : server) (x : send_wr) : res (send_wr * list Z) :=
  let! e := arr_get (s_sgl s) (wr_sg_list x) in
  match sse_addr e with
  | RespBuf i => let! v := arr_get (s_resp_buf s) i in
                 Ok (x, take (Z.to_nat (sse_length e)) (le_bytes 8 v))
  | DgramBuf _ => Fault OutOfBounds
  end.

Fixpoint gather_all (s : server) (xs : list send_wr) : res (list (send_wr * list Z)) :=
  match xs with
  | [] => Ok []
  | x :: xs =>
      let! m := ss_gather s x in
      let! ms := gather_all s xs in
      Ok (m :: ms)
  end.

Fixpoint recv_bufs (sges : list ss_sge) (xs : list recv_wr) : res (list ss_sge) :=
  match xs with
  | [] => Ok []
  | x :: xs =>
      let! e := arr_get sges (rwr_sg_list x) in
      let! es := recv_bufs sges xs in
      Ok (e :: es)
  end.

(** One iteration of [while (1)]: [comps] is what [ibv_poll_cq] delivers,
    [counter] the shared counter. *)
Definition server_iter (mk_ah : Z → Z) (polled : recv_wc) (comps : list recv_wc) (counter : Z) (s : server)
    : res (server * Z * list ss_act) :=
  let rolling := if M_4 <=? s_rolling_iter s then 0 else s_rolling_iter s in
  let num_comps := Z.of_nat (length comps) in
  let! wcs := store_wc (s_wc s) 0 comps in
  let s := Server (s_ah s) (s_wr s) (s_recv_wr s) wcs (s_sgl s) (s_resp_buf s) rolling
             (s_nb_tx s) (s_nb_tx_tot s) (s_nb_post_send s) (s_qp_i s) in
  if num_comps =? 0 then Ok (s, counter, [])
  else
    let base := counter in
    let counter := u64 (counter + num_comps) in
    let! (rwrs, sges) := fill_recv (length comps) num_comps 0 (s_recv_wr s) (s_sgl s) in
    let! rs := walk rwr_next 128 rwrs (Some 0) in
    let! bufs := recv_bufs sges rs in
    let s := Server (s_ah s) (s_wr s) rwrs wcs sges (s_resp_buf s) rolling (s_nb_tx s)
               (s_nb_tx_tot s) (s_nb_post_send s) (s_qp_i s) in
    let! (s, acts) := respond_loop (length comps) mk_ah polled base num_comps 0 s in
    let! xs := walk wr_next 128 (s_wr s) (Some 0) in
    let! ms := gather_all s xs in
    Ok (Server (s_ah s) (s_wr s) (s_recv_wr s) (s_wc s) (s_sgl s) (s_resp_buf s) (s_rolling_iter s)
          (s_nb_tx s) (s_nb_tx_tot s) (s_nb_post_send s + 1) (HRD_MOD_ADD (s_qp_i s) ss_NUM_UD_QPS),
        counter, SPostRecv bufs :: acts ++ [SPostSend (s_qp_i s) ms]).

(** ** Client *)
Record ss_client : Type := SsClient
  { sc_nb_tx : Z; sc_rolling_iter : Z; sc_tot_non_zero : Z; sc_req_wi : Z; sc_resp_wi : Z;
    sc_reqs_to_send : Z; sc_counter_hi : Z }.
Definition ss_client_init (postlist : Z) : ss_client := SsClient 0 0 0 0 0 postlist 0.

(** The calls of a client: a RECV for a part of [dgram_buf], a poll of the
    send queue, a list of requests (signaled or not, immediate data). *)
Inductive sc_act : Type :=
| CRecv (off len : Z)
| CPoll
| CSend (reqs : list (bool * Z)).

(** The loop that posts RECVs and prepares [n] requests; the requests are
    linked from each to the next and so posted in order. *)
Fixpoint send_loop (n : nat) (postlist : Z) (c : ss_client) : ss_client * list sc_act * list (bool * Z) :=
  match n with
  | O => (c, [], [])
  | S n =>
      let tx := sc_nb_tx c in
      let recv := CRecv (sc_req_wi c * CACHELINE_SIZE) 48 in
      let poll := if must_poll tx then [CPoll] else [] in
      let req := (is_signaled tx, u32 (sc_counter_hi c .>> 32)) in
      let c := SsClient (tx + 1) (sc_rolling_iter c + 1) (sc_tot_non_zero c)
                 (HRD_MOD_ADD (sc_req_wi c) postlist) (sc_resp_wi c) (sc_reqs_to_send c)
                 (sc_counter_hi c) in
      let '(c, acts, reqs) := send_loop n postlist c in
      (c, recv :: poll ++ acts, req :: reqs)
  end.

(** The first half of an iteration of [while (1)]. *)
Definition client_send (postlist : Z) (c : ss_client) : res (ss_client * list sc_act) :=
  let rolling := if K_512 <=? sc_rolling_iter c then 0 else sc_rolling_iter c in
  let c := SsClient (sc_nb_tx c) rolling (sc_tot_non_zero c) (sc_req_wi c) (sc_resp_wi c)
             (sc_reqs_to_send c) (sc_counter_hi c) in
  cassert (0 <? sc_reqs_to_send c) ;!
  let '(c, acts, reqs) := send_loop (Z.to_nat (sc_reqs_to_send c)) postlist c in
  Ok (c, acts ++ [CSend reqs]).

(** The body of the loop over the responses; [buf] is [dgram_buf]. *)
Definition decode (buf : gmap Z Z) (postlist i : Z) (w : recv_wc) (c : ss_client) : res (ss_client * Z) :=
  let resp_wi := HRD_MOD_ADD (sc_resp_wi c) postlist in
  if rwc_flags w .& IBV_WC_WITH_IMM =? 0 then
    let off := i * CACHELINE_SIZE + 40 in
    in_bounds ((0 <=? off) && (off + 8 <=? BUF_SIZE)) ;!
    let resp_counter := le_word (mread_n buf off 8) in
    Ok (SsClient (sc_nb_tx c) (sc_rolling_iter c) (sc_tot_non_zero c + 1) (sc_req_wi c) resp_wi
          (sc_reqs_to_send c) ((resp_counter .>> 32) <<64 32), resp_counter)
  else
    Ok (SsClient (sc_nb_tx c) (sc_rolling_iter c) (sc_tot_non_zero c) (sc_req_wi c) resp_wi
          (sc_reqs_to_send c) (sc_counter_hi c), u64 (sc_counter_hi c + rwc_imm_data w)).

Fixpoint decode_loop (buf : gmap Z Z) (postlist i : Z) (wcs : list recv_wc) (c : ss_client)
    : res (ss_client * list Z) :=
  match wcs with
  | [] => Ok (c, [])
  | w :: wcs =>
      let! (c, v) := decode buf postlist i w c in
      let! (c, vs) := decode_loop buf postlist (i + 1) wcs c in
      Ok (c, v :: vs)
  end.

(** The second half of an iteration: the counters that are received. *)
Definition client_recv (buf : gmap Z Z) (postlist : Z) (wcs : list recv_wc) (c : ss_client)
    : res (ss_client * list Z) :=
  let c := SsClient (sc_nb_tx c) (sc_rolling_iter c) (sc_tot_non_zero c) (sc_req_wi c) (sc_resp_wi c)
             (Z.of_nat (length wcs)) (sc_counter_hi c) in
  decode_loop buf postlist 0 wcs c.

(** ** main *)

(** The parameters of a thread; the pointers to the statistics and to the
    counter are the same for all threads. *)
Record ss_params : Type := SsParams { sp_id : Z; sp_dual_port : Z; sp_postlist : Z; sp_num_threads : Z }.

Record ss_args : Type := SsArgs
  { sa_num_threads : Z; sa_dual_port : Z; sa_is_client : Z; sa_machine_id : Z; sa_postlist : Z }.
Definition ss_args0 : ss_args := SsArgs (-1) (-1) (-1) (-1) (-1).

(** The [switch] on the option character. *)
Definition ss_parse_opt (a : ss_args) (c : Ascii.ascii) (v : Z) : res ss_args :=
  if Ascii.eqb c "t"%char then
    Ok (SsArgs v (sa_dual_port a) (sa_is_client a) (sa_machine_id a) (sa_postlist a))
  else if Ascii.eqb c "d"%char then
    Ok (SsArgs (sa_num_threads a) v (sa_is_client a) (sa_machine_id a) (sa_postlist a))
  else if Ascii.eqb c "c"%char then
    Ok (SsArgs (sa_num_threads a) (sa_dual_port a) v (sa_machine_id a) (sa_postlist a))
  else if Ascii.eqb c "m"%char then
    Ok (SsArgs (sa_num_threads a) (sa_dual_port a) (sa_is_client a) v (sa_postlist a))
  else if Ascii.eqb c "p"%char then
    Ok (SsArgs (sa_num_threads a) (sa_dual_port a) (sa_is_client a) (sa_machine_id a) v)
  else Fault AssertFail.

Fixpoint ss_parse_opts (a : ss_args) (opts : list (Ascii.ascii * Z)) : res ss_args :=
  match opts with
  | [] => Ok a
  | (c, v) :: opts => let! a := ss_parse_opt a c v in ss_parse_opts a opts
  end.

Inductive ss_threads : Type :=
| SsServers (ps : list ss_params)
| SsClients (ps : list ss_params).

(** [junk] is what the uninitialised [num_threads] of a server's parameters
    holds. *)
Definition ss_main (junk : Z) (opts : list (Ascii.ascii * Z)) : res ss_threads :=
  let! a := ss_parse_opts ss_args0 opts in
  cassert ((sa_dual_port a =? 0) || (sa_dual_port a =? 1)) ;!
  cassert ((sa_is_client a =? 0) || (sa_is_client a =? 1)) ;!
  cassert ((1 <=? sa_postlist a) && (sa_postlist a <=? MAX_POSTLIST)) ;!
  cassert (2 * sa_postlist a <=? UNSIG_BATCH) ;!
  if sa_is_client a =? 1 then
    cassert (1 <=? sa_num_threads a) ;!
    cassert (0 <=? sa_machine_id a) ;!
    Ok (SsClients (map (λ i, SsParams (s32 (sa_machine_id a * sa_num_threads a + Z.of_nat i))
          (sa_dual_port a) (sa_postlist a) (sa_num_threads a)) (seq 0 (Z.to_nat (sa_num_threads a)))))
  else
    cassert (sa_num_threads a =? -1) ;!
    cassert (sa_machine_id a =? -1) ;!
    Ok (SsServers (map (λ i, SsParams (Z.of_nat i) (sa_dual_port a) (sa_postlist a) junk)
          (seq 0 (Z.to_nat NUM_SERVER_THREADS)))).

(** The assertions at the start of [run_client]. *)
Definition ss_client_checks (p : ss_params) : res unit :=
  let max_clients_per_server_thread := (MAX_NUM_CLIENTS + NUM_SERVER_THREADS - 1) / NUM_SERVER_THREADS in
  cassert (max_clients_per_server_thread * sp_postlist p <? HRD_Q_DEPTH) ;!
  cassert (sp_id p <? MAX_NUM_CLIENTS) ;!
  cassert (sp_postlist p * CACHELINE_SIZE <? BUF_SIZE).
