(* ===== verification/SsProof.v ===== *)
(** * The SEND/SEND sequencer: one iteration of a server thread

    [sinv] is the invariant of the thread's arrays; an iteration keeps it,
    uses its send queue as [Signal] requires and posts one reply to each
    request, in order, with consecutive numbers. *)

From stdpp Require Import base gmap list numbers.
From Stdlib Require Import ZArith Lia ZifyBool.
From S2P Require Import Prelude Mica HrdUtil Signal Herd HerdProof HerdEnv SsSeq.

(** ** Lists in arrays *)
Lemma walk_ok {A} (next : A → option Z) arr n : (n ≤ length arr)%nat →
  (∀ j x, (j < n)%nat → arr !! j = Some x →
     next x = if decide (S j = n) then None else Some (Z.of_nat (S j))) →
  ∀ k i fuel, (i + k = n)%nat → (0 < k ≤ fuel)%nat →
  walk next fuel arr (Some (Z.of_nat i)) = Ok (take k (drop i arr)).
Proof.
  intros Hlen Hnext. induction k as [|k IH]; intros i fuel Hik Hf; [lia|].
  destruct fuel as [|fuel]; [lia|]. cbn [walk].
  destruct (lookup_lt_is_Some_2 arr i ltac:(lia)) as [x Hx].
  rewrite (arr_get_Ok _ _ _ Hx). cbn [res_bind]. rewrite (Hnext i x ltac:(lia) Hx).
  rewrite (drop_S _ _ _ Hx). cbn [take]. destruct (decide (S i = n)) as [Hn|Hn].
  - assert (k = 0)%nat as -> by lia. by destruct fuel.
  - rewrite IH by lia. done.
Qed.

Lemma arr_set_loop {A B} (f : list A → Z → list B → res (list A)) (g : nat → B → A) :
  (∀ l i, f l i [] = Ok l) →
  (∀ l i b bs, f l i (b :: bs) = (let! l := arr_set l i (g (Z.to_nat i) b) in f l (i + 1) bs)) →
  ∀ bs i l, (i + length bs ≤ length l)%nat →
  ∃ l', f l (Z.of_nat i) bs = Ok l' ∧ length l' = length l ∧
    (∀ j b, bs !! j = Some b → l' !! (i + j)%nat = Some (g (i + j)%nat b)) ∧
    (∀ j, (j < i)%nat → l' !! j = l !! j).
Proof.
  intros Hnil Hcons. induction bs as [|b bs IH]; intros i l Hl.
  { exists l. rewrite Hnil. repeat split; auto. intros j b Hj. by rewrite lookup_nil in Hj. }
  cbn [length] in Hl. rewrite Hcons, arr_set_Ok by lia. cbn [res_bind]. rewrite Nat2Z.id.
  replace (Z.of_nat i + 1) with (Z.of_nat (S i)) by lia.
  destruct (IH (S i) (<[i := g i b]> l)) as (l' & E & Hlen & Hin & Hout); [rewrite length_insert; lia|].
  exists l'. split; [done|]. split; [by rewrite Hlen, length_insert|]. split.
  - intros [|j] b' Hj.
    + injection Hj as <-. rewrite Nat.add_0_r, Hout by lia. rewrite list_lookup_insert_eq; [done|lia].
    + rewrite <-Nat.add_succ_comm. by apply Hin.
  - intros j Hj. rewrite Hout by lia. by rewrite list_lookup_insert_ne by lia.
Qed.

Lemma store_wc_ok comps wcs : (length comps ≤ length wcs)%nat →
  ∃ wcs', store_wc wcs 0 comps = Ok wcs' ∧ length wcs' = length wcs ∧
    ∀ j c, comps !! j = Some c → wcs' !! j = Some c.
Proof.
  intros Hl. destruct (arr_set_loop store_wc (λ _ c, c) ltac:(done) ltac:(done) comps 0 wcs Hl)
    as (l' & E & Hlen & Hin & _). by exists l'.
Qed.

Lemma fill_recv_ok n num : ∀ i rwrs sges, (i + n ≤ length rwrs)%nat → (i + n ≤ length sges)%nat →
  ∃ rwrs' sges', fill_recv n num (Z.of_nat i) rwrs sges = Ok (rwrs', sges') ∧
    length rwrs' = length rwrs ∧ length sges' = length sges ∧
    (∀ j, (i ≤ j < i + n)%nat → sges' !! j = Some (SsSge (DgramBuf 0) CACHELINE_SIZE) ∧
       rwrs' !! j = Some (RecvWr (Z.of_nat j) (if Z.of_nat j =? num - 1 then None else Some (Z.of_nat j + 1)))) ∧
    (∀ j, (j < i)%nat → sges' !! j = sges !! j ∧ rwrs' !! j = rwrs !! j).
Proof.
  induction n as [|n IH]; intros i rwrs sges Hr Hs; cbn [fill_recv].
  { eexists _, _. split; [reflexivity|]. do 2 (split; [done|]). split; [intros; lia|done]. }
  rewrite !arr_set_Ok by lia. cbn [res_bind]. rewrite !Nat2Z.id.
  replace (Z.of_nat i + 1) with (Z.of_nat (S i)) by lia.
  match goal with |- context [fill_recv n num _ ?r ?s] =>
    destruct (IH (S i) r s) as (r' & s' & E & Hlr & Hls & Hin & Hout); [rewrite length_insert; lia..|] end.
  rewrite E. eexists _, _. split; [reflexivity|]. rewrite !length_insert in Hlr. rewrite !length_insert in Hls.
  split; [done|]. split; [done|]. split.
  - intros j Hj. destruct (decide (j = i)) as [->|]; [|apply Hin; lia].
    destruct (Hout i ltac:(lia)) as [-> ->]. rewrite !list_lookup_insert_eq by lia.
    replace (Z.of_nat i + 1) with (Z.of_nat (S i)) by lia. done.
  - intros j Hj. destruct (Hout j ltac:(lia)) as [-> ->]. by rewrite !list_lookup_insert_ne by lia.
Qed.

Lemma recv_bufs_ok sges xs e : Forall (λ x, ∃ j, rwr_sg_list x = Z.of_nat j ∧ sges !! j = Some e) xs →
  recv_bufs sges xs = Ok (replicate (length xs) e).
Proof.
  induction 1 as [|x xs (j & Hj & He) _ IH]; [done|]. cbn [recv_bufs length replicate].
  rewrite Hj, (arr_get_Ok _ _ _ He). cbn [res_bind]. by rewrite IH.
Qed.

(** ** The invariant *)
Record sinv (mk_ah : Z → Z) (s : server) : Prop := {
  si_ah : length (s_ah s) = 256%nat;
  si_ah_val : ∀ l a, s_ah s !! l = Some a → a = 0 ∨ a = mk_ah (Z.of_nat l);
  si_wr : length (s_wr s) = 128%nat;
  si_rwr : length (s_recv_wr s) = 128%nat;
  si_wc : length (s_wc s) = 128%nat;
  si_sgl : length (s_sgl s) = 128%nat;
  si_buf : length (s_resp_buf s) = 128%nat;
  si_tx : length (s_nb_tx s) = 3%nat;
  si_qp : 0 ≤ s_qp_i s < ss_NUM_UD_QPS
}.

(** Requests that the thread can answer. *)
Definition lid_ok (c : recv_wc) : Prop := 0 ≤ rwc_slid c < HRD_MAX_LID.

(** The work request of reply [j], and the entries that it uses. *)
Record reply_wr (mk_ah : Z → Z) (base tx num : Z) (j : nat) (c : recv_wc) (s : server) : Prop := {
  rp_wr : ∃ x, s_wr s !! j = Some x ∧
    wr_next x = (if Z.of_nat j =? num - 1 then None else Some (Z.of_nat j + 1)) ∧
    wr_ah x = mk_ah (rwc_slid c) ∧ wr_remote_qpn x = rwc_src_qp c ∧
    wr_remote_qkey x = HRD_DEFAULT_QKEY ∧ wr_sg_list x = Z.of_nat j ∧ wr_num_sge x = 1 ∧
    wr_signaled x = is_signaled (tx + Z.of_nat j) ∧
    wr_opcode x = (if guess_ok c (u64 (base + Z.of_nat j)) then IBV_WR_SEND_WITH_IMM else IBV_WR_SEND) ∧
    (guess_ok c (u64 (base + Z.of_nat j)) = true → wr_imm_data x = u32 (base + Z.of_nat j));
  rp_sge : s_sgl s !! j = Some (SsSge (RespBuf (Z.of_nat j))
             (if guess_ok c (u64 (base + Z.of_nat j)) then 0 else 8));
  rp_buf : guess_ok c (u64 (base + Z.of_nat j)) = false → s_resp_buf s !! j = Some (u64 (base + Z.of_nat j))
}.

Lemma reply_wr_frame mk_ah base tx num j c s s' :
  s_wr s' !! j = s_wr s !! j → s_sgl s' !! j = s_sgl s !! j → s_resp_buf s' !! j = s_resp_buf s !! j →
  reply_wr mk_ah base tx num j c s → reply_wr mk_ah base tx num j c s'.
Proof. intros E1 E2 E3 []. constructor; rewrite ?E1, ?E2, ?E3; done. Qed.

Lemma get_ah_ok mk_ah ahs lid : (∀ l, mk_ah l ≠ 0) → length ahs = 256%nat → 0 ≤ lid < HRD_MAX_LID →
  (∀ l a, ahs !! l = Some a → a = 0 ∨ a = mk_ah (Z.of_nat l)) →
  ∃ ahs' acts, get_ah mk_ah ahs lid = Ok (ahs', mk_ah lid, acts) ∧ length ahs' = 256%nat ∧
    (∀ l a, ahs' !! l = Some a → a = 0 ∨ a = mk_ah (Z.of_nat l)) ∧
    Forall (λ a, ∃ l, a = SCreateAh l) acts.
Proof.
  intros Hmk Hlen Hl Hv. unfold HRD_MAX_LID in Hl. unfold get_ah.
  destruct (arr_get_lt ahs lid) as (a & -> & Ha); [lia|]. cbn [res_bind].
  destruct (a =? 0) eqn:E.
  - rewrite (proj2 (negb_true_iff _)) by (by apply Z.eqb_neq). cbn [cassert res_bind].
    rewrite arr_set_Ok by lia. cbn [res_bind]. eexists _, _. split; [reflexivity|].
    split; [by rewrite length_insert|]. split.
    + intros l b Hb. destruct (decide (l = Z.to_nat lid)) as [->|Hne].
      * rewrite list_lookup_insert_eq in Hb by lia. injection Hb as <-. right. f_equal. lia.
      * rewrite list_lookup_insert_ne in Hb by done. by apply Hv.
    + repeat constructor. by eexists.
  - apply Z.eqb_neq in E. eexists ahs, []. destruct (Hv _ _ Ha) as [?|E']; [done|].
    rewrite E', Z2Nat.id by lia. split; [done|]. split; [done|]. split; [done|constructor].
Qed.

(** The calls of a loop: handles are created, and the send queue is polled. *)
Definition queue_only (qp : Z) (acts : list ss_act) : Prop :=
  Forall (λ a, (∃ l, a = SCreateAh l) ∨ a = SPollSend qp) acts.

(** The calls of a trace on the send queue of queue pair [q]. *)
Definition ss_sq_of (q : Z) (a : ss_act) : list sq_act :=
  match a with
  | SPollSend p => if p =? q then [SqPoll] else []
  | SPostSend p ms => if p =? q then [SqPost (map (λ m, wr_signaled m.1) ms)] else []
  | _ => []
  end.
Definition ss_sq_trace (q : Z) (tr : list ss_act) : list sq_act := flat_map (ss_sq_of q) tr.

Lemma ss_sq_trace_app q a b : ss_sq_trace q (a ++ b) = ss_sq_trace q a ++ ss_sq_trace q b.
Proof. apply flat_map_app. Qed.

Lemma ss_sq_create q acts : Forall (λ a, ∃ l, a = SCreateAh l) acts → ss_sq_trace q acts = [].
Proof. induction 1 as [|a acts (l & ->) _ IH]; [done|exact IH]. Qed.

Lemma low_half x : u32 (u64 x .& 0xffffffff) = u32 x.
Proof.
  change 0xffffffff with (2 ^ 32 - 1). rewrite u64_land_mask by lia.
  unfold u32, u64. rewrite Z.mod_mod by lia. by rewrite Z.mod_mod_divide by (by exists (2 ^ 32)).
Qed.

(** ** One reply *)
Lemma respond_ok mk_ah polled base tx num (w : nat) c s : (∀ l, mk_ah l ≠ 0) → sinv mk_ah s →
  (w < 128)%nat → s_wc s !! w = Some c → lid_ok c →
  s_nb_tx s !! Z.to_nat (s_qp_i s) = Some (tx + Z.of_nat w) →
  ∃ s' acts, respond mk_ah polled base num (Z.of_nat w) s = Ok (s', acts) ∧ sinv mk_ah s' ∧
    s_qp_i s' = s_qp_i s ∧ reply_wr mk_ah base tx num w c s' ∧
    s_nb_tx s' = <[Z.to_nat (s_qp_i s) := tx + Z.of_nat (S w)]> (s_nb_tx s) ∧
    (∀ j, j ≠ 0%nat → s_wc s' !! j = s_wc s !! j) ∧
    (∀ j, j ≠ w → s_wr s' !! j = s_wr s !! j ∧ s_sgl s' !! j = s_sgl s !! j ∧
       s_resp_buf s' !! j = s_resp_buf s !! j) ∧
    ∀ q, ss_sq_trace q acts = if s_qp_i s =? q then queue_acts (tx + Z.of_nat w) else [].
Proof.
  intros Hmk [] Hw Hc Hlid Htx. unfold respond. rewrite (arr_get_Ok _ _ _ Hc). cbn [res_bind].
  destruct (get_ah_ok mk_ah (s_ah s) (rwc_slid c) Hmk si_ah0 Hlid si_ah_val0)
    as (ahs & acts & -> & Hal & Hav & Hacts). cbn [res_bind].
  destruct (lookup_lt_is_Some_2 (s_wr s) w ltac:(lia)) as [old Hold].
  rewrite (arr_get_Ok _ _ _ Hold). cbn [res_bind].
  rewrite (arr_get_Z _ _ _ (proj1 si_qp0) Htx). cbn [res_bind]. unfold ss_NUM_UD_QPS in *.
  set (ok := guess_ok c (u64 (base + Z.of_nat w))).
  rewrite (arr_set_Ok (s_wr s)) by lia. cbn [res_bind].
  rewrite (arr_set_Ok (s_sgl s)) by lia. cbn [res_bind]. rewrite Nat2Z.id.
  replace (if ok then Ok (s_resp_buf s) else _) with
    (Ok (if ok then s_resp_buf s else <[w := u64 (base + Z.of_nat w)]> (s_resp_buf s)))
    by (destruct ok; [done|]; rewrite arr_set_Ok by lia; by rewrite Nat2Z.id).
  cbn [res_bind]. set (tx' := tx + Z.of_nat w) in *.
  replace (if must_poll tx' then arr_set (s_wc s) 0 polled else Ok (s_wc s)) with
    (Ok (if must_poll tx' then <[0%nat := polled]> (s_wc s) else s_wc s))
    by (destruct (must_poll tx'); [by rewrite arr_set_Ok by lia|done]).
  cbn [res_bind]. rewrite arr_set_Ok by lia. cbn [res_bind]. eexists _, _. split; [reflexivity|].
  split; [|split; [done|split; [|split; [|split; [|split]]]]].
  - constructor; cbn; rewrite ?length_insert; auto; destruct ok, (must_poll tx'); rewrite ?length_insert; auto.
  - constructor; cbn.
    + eexists. rewrite list_lookup_insert_eq by lia. split; [reflexivity|]. cbn.
      do 6 (split; [done|]). split; [unfold wr_signaled; cbn [wr_send_flags]; apply flags_signaled|].
      split; [done|]. fold ok. intros ->. apply low_half.
    + by rewrite list_lookup_insert_eq by lia.
    + fold ok. intros ->. by rewrite list_lookup_insert_eq by lia.
  - cbn. f_equal. subst tx'. lia.
  - intros j Hj. cbn. destruct (must_poll tx'); [|done]. by rewrite list_lookup_insert_ne.
  - intros j Hj. cbn. rewrite !list_lookup_insert_ne by done. split; [done|]. split; [done|].
    destruct ok; [done|]. by rewrite list_lookup_insert_ne by done.
  - intros q. rewrite ss_sq_trace_app, (ss_sq_create q acts Hacts). unfold queue_acts.
    destruct (must_poll tx'); cbn; by destruct (s_qp_i s =? q).
Qed.

(** ** The replies of a batch *)
Lemma respond_loop_ok mk_ah polled base tx num comps : (∀ l, mk_ah l ≠ 0) → 0 ≤ tx →
  Forall lid_ok comps → (length comps ≤ 128)%nat →
  ∀ n w s, (w + n = length comps)%nat → sinv mk_ah s →
  (∀ j c, (w ≤ j)%nat → comps !! j = Some c → s_wc s !! j = Some c) →
  s_nb_tx s !! Z.to_nat (s_qp_i s) = Some (tx + Z.of_nat w) →
  ∃ s' acts, respond_loop n mk_ah polled base num (Z.of_nat w) s = Ok (s', acts) ∧ sinv mk_ah s' ∧
    s_qp_i s' = s_qp_i s ∧
    (∀ j c, (w ≤ j)%nat → comps !! j = Some c → reply_wr mk_ah base tx num j c s') ∧
    (∀ j, (j < w)%nat → s_wr s' !! j = s_wr s !! j ∧ s_sgl s' !! j = s_sgl s !! j ∧
       s_resp_buf s' !! j = s_resp_buf s !! j) ∧
    s_nb_tx s' = <[Z.to_nat (s_qp_i s) := tx + Z.of_nat (length comps)]> (s_nb_tx s) ∧
    ∀ q, ss_sq_trace q acts = if s_qp_i s =? q then batch_queue (Z.to_nat tx + w) n else [].
Proof.
  intros Hmk Htx0 Hlids Hlen. induction n as [|n IH]; intros w s Hwn Hs Hwc Htx; cbn [respond_loop].
  { eexists _, _. split; [reflexivity|]. split; [done|]. split; [done|]. split; [|split; [done|split]].
    - intros j c Hj Hc. apply lookup_lt_Some in Hc. lia.
    - replace (length comps) with w by lia. symmetry. by apply list_insert_id.
    - intros q. by destruct (_ =? q). }
  destruct (lookup_lt_is_Some_2 comps w ltac:(lia)) as [c Hc].
  destruct (respond_ok mk_ah polled base tx num w c s Hmk Hs ltac:(lia) (Hwc w c ltac:(lia) Hc)
    (Forall_lookup_1 _ _ _ _ Hlids Hc) Htx)
    as (s1 & a1 & -> & Hs1 & Hq1 & Hr1 & Ht1 & Hwc1 & Hfr1 & Hsq1). cbn [res_bind].
  replace (Z.of_nat w + 1) with (Z.of_nat (S w)) by lia. pose proof (lookup_lt_Some _ _ _ Htx) as Hqlt.
  destruct (IH (S w) s1 ltac:(lia) Hs1) as (s2 & a2 & -> & Hs2 & Hq2 & Hr2 & Hfr2 & Ht2 & Hsq2).
  { intros j c' Hj Hc'. rewrite Hwc1 by lia. apply Hwc; [lia|done]. }
  { rewrite Ht1, Hq1. by rewrite list_lookup_insert_eq by done. }
  cbn [res_bind]. eexists _, _. split; [reflexivity|]. split; [done|]. split; [congruence|].
  split; [|split; [|split]].
  - intros j c' Hj Hc'. destruct (decide (j = w)) as [->|Hne]; [|apply Hr2; [lia|done]].
    assert (c' = c) as -> by congruence. destruct (Hfr2 w ltac:(lia)) as (? & ? & ?).
    by eapply reply_wr_frame.
  - intros j Hj. destruct (Hfr2 j ltac:(lia)) as (-> & -> & ->). apply Hfr1. lia.
  - rewrite Ht2, Ht1, Hq1. apply list_insert_insert_eq.
  - intros q. rewrite ss_sq_trace_app, Hsq1, Hsq2, Hq1. destruct (s_qp_i s =? q); [|done].
    unfold batch_queue. cbn [seq flat_map]. rewrite <-Nat.add_succ_r. f_equal. f_equal. lia.
Qed.

(** ** An iteration *)

(** Reply number [j] of a batch: to the client that asked, with the value
    [base + j], the whole of it or its lower half. *)
Definition ss_reply (mk_ah : Z → Z) (base tx : Z) (j : nat) (c : recv_wc) (m : send_wr * list Z) : Prop :=
  let v := u64 (base + Z.of_nat j) in
  wr_ah m.1 = mk_ah (rwc_slid c) ∧ wr_remote_qpn m.1 = rwc_src_qp c ∧
  wr_signaled m.1 = is_signaled (tx + Z.of_nat j) ∧
  if guess_ok c v then wr_opcode m.1 = IBV_WR_SEND_WITH_IMM ∧ wr_imm_data m.1 = u32 v ∧ m.2 = []
  else wr_opcode m.1 = IBV_WR_SEND ∧ m.2 = le_bytes 8 v.

Lemma u32_u64 x : u32 (u64 x) = u32 x.
Proof. unfold u32, u64. by rewrite Z.mod_mod_divide by (by exists (2 ^ 32)). Qed.

Lemma gather_all_ok s xs : (∀ x, x ∈ xs → ∃ d, ss_gather s x = Ok (x, d)) →
  ∃ ms, gather_all s xs = Ok ms ∧ Forall2 (λ x m, ss_gather s x = Ok m ∧ m.1 = x) xs ms.
Proof.
  induction xs as [|x xs IH]; intros H; [by exists []|]. cbn [gather_all].
  destruct (H x ltac:(left)) as [d Hd]. rewrite Hd. cbn [res_bind].
  destruct IH as (ms & -> & Hms); [intros y Hy; apply H; by right|].
  eexists. split; [reflexivity|]. by constructor.
Qed.

Lemma reply_gather mk_ah base tx num j c s x : sinv mk_ah s → (j < 128)%nat →
  reply_wr mk_ah base tx num j c s → s_wr s !! j = Some x →
  ∃ d, ss_gather s x = Ok (x, d) ∧ ss_reply mk_ah base tx j c (x, d).
Proof.
  intros [] Hj [(x' & Hx' & _ & Ha & Hq & _ & Hsg & _ & Hsig & Hop & Himm) Hsge Hbuf] Hx.
  assert (x' = x) as -> by congruence. unfold ss_gather. rewrite Hsg, (arr_get_Ok _ _ _ Hsge).
  cbn [res_bind sse_addr sse_length]. unfold ss_reply. cbv zeta. cbn [fst snd].
  destruct (guess_ok c (u64 (base + Z.of_nat j))) eqn:E.
  - destruct (lookup_lt_is_Some_2 (s_resp_buf s) j ltac:(lia)) as [v Hv].
    rewrite (arr_get_Ok _ _ _ Hv). cbn [res_bind]. eexists. split; [reflexivity|].
    rewrite u32_u64. repeat split; auto.
  - rewrite (arr_get_Ok _ _ _ (Hbuf eq_refl)). cbn [res_bind]. eexists. split; [reflexivity|].
    do 4 (split; [done|]). apply take_ge. by rewrite length_le_bytes.
Qed.

Lemma reply_links mk_ah base tx comps s : (length comps ≤ 128)%nat → sinv mk_ah s →
  (∀ j c, comps !! j = Some c → reply_wr mk_ah base tx (Z.of_nat (length comps)) j c s) →
  (0 < length comps)%nat →
  walk wr_next 128 (s_wr s) (Some 0) = Ok (take (length comps) (s_wr s)).
Proof.
  intros Hlen Hs Hr Hpos. change (Some 0) with (Some (Z.of_nat 0)).
  rewrite (walk_ok wr_next (s_wr s) (length comps)) with (k := length comps) (i := 0%nat); try done; try lia.
  - rewrite (si_wr _ _ Hs). done.
  - intros j x Hj Hx. destruct (lookup_lt_is_Some_2 comps j Hj) as [c Hc].
    destruct (Hr j c Hc) as [(x' & Hx' & Hn & _) _ _].
    assert (x' = x) as -> by congruence. rewrite Hn. destruct (decide (S j = length comps)); case_match; try lia; [done|].
    f_equal. lia.
Qed.

(** The messages that are posted. *)
Definition sends (acts : list ss_act) : list (send_wr * list Z) :=
  flat_map (λ a, match a with SPostSend _ ms => ms | _ => [] end) acts.

Lemma sends_app a b : sends (a ++ b) = sends a ++ sends b.
Proof. apply flat_map_app. Qed.

(** No reply is posted before the end of the loop. *)
Lemma get_ah_silent mk_ah ahs lid r : get_ah mk_ah ahs lid = Ok r → sends r.2 = [].
Proof.
  unfold get_ah. intros H. inv_res. destruct (a =? 0); inv_res; done.
Qed.

Lemma respond_silent mk_ah polled base num w s r : respond mk_ah polled base num w s = Ok r → sends r.2 = [].
Proof.
  unfold respond. intros H. apply res_bind_Ok in H as (c & _ & H).
  apply res_bind_Ok in H as ([[ahs a] acts] & Ha & H). apply get_ah_silent in Ha. cbn [snd] in Ha.
  repeat (apply res_bind_Ok in H as (? & _ & H)). injection H as <-. cbn [snd].
  rewrite sends_app, Ha. by destruct (must_poll _).
Qed.

Lemma respond_loop_silent n mk_ah polled base num : ∀ w s r,
  respond_loop n mk_ah polled base num w s = Ok r → sends r.2 = [].
Proof.
  induction n as [|n IH]; intros w s r H; cbn [respond_loop] in H; [by injection H as <-|].
  apply res_bind_Ok in H as ([s1 a1] & H1 & H). apply res_bind_Ok in H as ([s2 a2] & H2 & H).
  injection H as <-. cbn [snd]. rewrite sends_app. apply respond_silent in H1. apply IH in H2.
  cbn [snd] in *. by rewrite H1, H2.
Qed.

(** A thread that finds no request changes nothing but its statistics. *)
Lemma server_iter_idle mk_ah polled counter s : sinv mk_ah s →
  ∃ s', server_iter mk_ah polled [] counter s = Ok (s', counter, []) ∧ sinv mk_ah s' ∧
    s_nb_tx s' = s_nb_tx s ∧ s_qp_i s' = s_qp_i s.
Proof. intros []. eexists. split; [reflexivity|]. by split; [constructor|]. Qed.

Lemma server_iter_ok mk_ah polled comps counter tx s : (∀ l, mk_ah l ≠ 0) → sinv mk_ah s →
  comps ≠ [] → (length comps ≤ 128)%nat → Forall lid_ok comps →
  s_nb_tx s !! Z.to_nat (s_qp_i s) = Some tx → 0 ≤ tx →
  ∃ s' acts ms, server_iter mk_ah polled comps counter s =
      Ok (s', u64 (counter + Z.of_nat (length comps)),
          SPostRecv (replicate (length comps) (SsSge (DgramBuf 0) CACHELINE_SIZE)) ::
          acts ++ [SPostSend (s_qp_i s) ms]) ∧
    sinv mk_ah s' ∧ s_qp_i s' = HRD_MOD_ADD (s_qp_i s) ss_NUM_UD_QPS ∧
    s_nb_tx s' = <[Z.to_nat (s_qp_i s) := tx + Z.of_nat (length comps)]> (s_nb_tx s) ∧
    sends acts = [] ∧ length ms = length comps ∧
    (∀ j c m, comps !! j = Some c → ms !! j = Some m → ss_reply mk_ah counter tx j c m) ∧
    ∀ q, ss_sq_trace q acts = if s_qp_i s =? q then batch_queue (Z.to_nat tx) (length comps) else [].
Proof.
  intros Hmk Hs Hne Hlen Hlids Htx Htx0. assert (Hpos : (0 < length comps)%nat) by (destruct comps; [done|simpl; lia]).
  unfold server_iter. destruct (store_wc_ok comps (s_wc s)) as (wcs & -> & Hwl & Hwc); [by rewrite (si_wc _ _ Hs)|].
  cbn [res_bind]. cbv zeta. rewrite (proj2 (Z.eqb_neq _ _)) by lia. cbn [s_recv_wr s_sgl s_ah s_wr s_resp_buf s_nb_tx
    s_nb_tx_tot s_nb_post_send s_qp_i].
  destruct (fill_recv_ok (length comps) (Z.of_nat (length comps)) 0 (s_recv_wr s) (s_sgl s))
    as (rwrs & sges & E & Hrl & Hsl & Hin & _); [rewrite ?(si_rwr _ _ Hs), ?(si_sgl _ _ Hs); lia..|].
  change (Z.of_nat 0) with 0 in E. rewrite E. cbn [res_bind].
  rewrite (si_rwr _ _ Hs) in Hrl. rewrite (si_sgl _ _ Hs) in Hsl. rewrite (si_wc _ _ Hs) in Hwl.
  assert (Hwalk : walk rwr_next 128 rwrs (Some 0) = Ok (take (length comps) rwrs)).
  { change (Some 0) with (Some (Z.of_nat 0)).
    rewrite (walk_ok rwr_next rwrs (length comps)) with (k := length comps) (i := 0%nat); try done; try lia.
    intros j x Hj Hx. destruct (Hin j ltac:(lia)) as [_ Hr]. rewrite Hr in Hx. injection Hx as <-. cbn.
    destruct (decide (S j = length comps)); case_match; try lia; [done|]. f_equal. lia. }
  rewrite Hwalk. cbn [res_bind].
  rewrite (recv_bufs_ok _ _ (SsSge (DgramBuf 0) CACHELINE_SIZE)).
  2:{ apply Forall_lookup. intros j x Hx. apply lookup_take_Some in Hx as [Hx Hj].
      destruct (Hin j ltac:(lia)) as [Hsj Hr]. rewrite Hr in Hx. injection Hx as <-. by exists j. }
  cbn [res_bind]. rewrite length_take, Hrl, Nat.min_l by done.
  match goal with |- context [respond_loop _ _ _ _ _ 0 ?s0] => set (s1 := s0) end.
  assert (Hs1 : sinv mk_ah s1) by (destruct Hs; by constructor).
  destruct (respond_loop_ok mk_ah polled counter tx (Z.of_nat (length comps)) comps Hmk Htx0 Hlids Hlen
    (length comps) 0 s1 ltac:(lia) Hs1) as (s2 & acts & E2 & Hs2 & Hq2 & Hr2 & _ & Ht2 & Hsq2).
  { intros j c _ Hc. by apply Hwc. }
  { subst s1. cbn [s_nb_tx s_qp_i]. rewrite Htx. f_equal. lia. }
  change (Z.of_nat 0) with 0 in E2. rewrite E2. cbn [res_bind].
  rewrite (reply_links mk_ah counter tx comps) by (try done; intros; apply Hr2; first [lia | done]). cbn [res_bind].
  destruct (gather_all_ok s2 (take (length comps) (s_wr s2))) as (ms & Hms & Hf).
  { intros x (j & Hj)%list_elem_of_lookup_1. apply lookup_take_Some in Hj as [Hx Hj].
    destruct (lookup_lt_is_Some_2 comps j Hj) as [c Hc].
    destruct (reply_gather mk_ah counter tx _ j c s2 x Hs2 ltac:(lia) (Hr2 j c ltac:(lia) Hc) Hx) as (d & Hd & _).
    by exists d. }
  rewrite Hms. cbn [res_bind]. eexists _, acts, ms. rewrite Hq2. cbn [s1 s_qp_i] in *.
  split; [reflexivity|].
  split; [|split; [done|split; [done|split; [by apply respond_loop_silent in E2|split; [|split]]]]].
  - pose proof (si_qp _ _ Hs) as Hqr. destruct Hs2. constructor; try done. cbn. 
    unfold ss_NUM_UD_QPS in *. apply mod_add_range; lia.
  - apply Forall2_length in Hf. rewrite length_take, (si_wr _ _ Hs2), Nat.min_l in Hf by done. done.
  - intros j c m Hc Hm. destruct (Forall2_lookup_r _ _ _ _ _ Hf Hm) as (x & Hx & Hg & Ex).
    apply lookup_take_Some in Hx as [Hx Hj].
    destruct (reply_gather mk_ah counter tx _ j c s2 x Hs2 ltac:(lia) (Hr2 j c ltac:(lia) Hc) Hx) as (d & Hd & Hrep).
    rewrite Hg in Hd. injection Hd as ->. done.
  - intros q. rewrite Hsq2, Nat.add_0_r. done.
Qed.
