(* ===== verification/SsThms.v ===== *)
(** * Theorems about the SEND/SEND sequencer *)

From stdpp Require Import base gmap list numbers.
From Stdlib Require Import ZArith Lia ZifyBool Ascii.
From S2P Require Import Prelude Mica HrdUtil Signal Herd HerdProof HerdEnv SsSeq SsProof.

(** ** The server process

    Its threads share the counter and nothing else; the only access of an
    iteration to it is the fetch-and-add, so iterations can be taken one at
    a time.  [ss_asked] and [ss_log] are ghosts: the queue pairs from which
    requests were taken, and the replies (queue pair and number). *)
Record ss_sys : Type := SsSys
  { ss_servers : list server; ss_counter : Z; ss_asked : list Z; ss_log : list (Z * Z);
    ss_traces : list (list ss_act) }.

(** The number that a reply stands for: the whole counter, or its lower half
    together with the upper half that the client sent along. *)
Definition reply_value (c : recv_wc) (m : send_wr * list Z) : Z :=
  if wr_opcode m.1 =? IBV_WR_SEND_WITH_IMM then rwc_imm_data c * 2 ^ 32 + wr_imm_data m.1
  else le_word m.2.

Definition replies (comps : list recv_wc) (acts : list ss_act) : list (Z * Z) :=
  zip_with (λ c m, (wr_remote_qpn m.1, reply_value c m)) comps (sends acts).

Inductive ss_step (mk_ah : Z → Z) (postlist : Z) : ss_sys → ss_sys → Prop :=
| ss_run st i s tr polled comps s' counter' acts :
    ss_servers st !! i = Some s → ss_traces st !! i = Some tr →
    Z.of_nat (length comps) ≤ postlist → Forall lid_ok comps →
    server_iter mk_ah polled comps (ss_counter st) s = Ok (s', counter', acts) →
    ss_step mk_ah postlist st
      (SsSys (<[i := s']> (ss_servers st)) counter' (ss_asked st ++ map rwc_src_qp comps)
         (ss_log st ++ replies comps acts) (<[i := tr ++ acts]> (ss_traces st))).

(** Arrays as [run_server] declares them. *)
Definition fresh (s : server) : Prop := ∃ wrs rwrs wcs sges,
  s = server_init wrs rwrs wcs sges ∧ length wrs = 128%nat ∧ length rwrs = 128%nat ∧
  length wcs = 128%nat ∧ length sges = 128%nat.

Inductive ss_reach (mk_ah : Z → Z) (postlist : Z) : ss_sys → Prop :=
| ss_start ss : Forall fresh ss →
    ss_reach mk_ah postlist (SsSys ss 0 [] [] (map (λ _, []) ss))
| ss_next st st' : ss_reach mk_ah postlist st → ss_step mk_ah postlist st st' →
    ss_reach mk_ah postlist st'.

(** ** Facts about replies *)
Lemma reply_value_ok mk_ah base tx j c m : ss_reply mk_ah base tx j c m →
  0 ≤ base + Z.of_nat j < 2 ^ 64 → reply_value c m = base + Z.of_nat j.
Proof.
  unfold ss_reply, reply_value. cbv zeta. intros (_ & _ & _ & H) Hr.
  rewrite u64_small in H by done. set (v := base + Z.of_nat j) in *.
  destruct (guess_ok c v) eqn:E.
  - destruct H as (-> & -> & _). unfold guess_ok in E. apply Z.eqb_eq in E. rewrite E, Z.eqb_refl.
    rewrite Z.shiftr_div_pow2 by lia. unfold u32.
    rewrite (Z.mod_small (v / 2 ^ 32)) by (split; [apply Z.div_pos; lia|apply Z.div_lt_upper_bound; lia]).
    rewrite Z.mul_comm. symmetry. apply Z.div_mod. lia.
  - destruct H as (-> & ->). change (IBV_WR_SEND =? IBV_WR_SEND_WITH_IMM) with false. cbn iota.
    rewrite le_word_bytes. change (8 * Z.of_nat 8) with 64. by apply Z.mod_small.
Qed.


(** ** The invariant *)
Definition thread_ok (mk_ah : Z → Z) (s : server) (tr : list ss_act) : Prop :=
  sinv mk_ah s ∧ ∀ q, 0 ≤ q < ss_NUM_UD_QPS → ∃ n, s_nb_tx s !! Z.to_nat q = Some (Z.of_nat n) ∧
    sq_run (Z.to_nat HRD_Q_DEPTH) [] (ss_sq_trace q tr) = Some (waiting n).

Record ss_inv (mk_ah : Z → Z) (st : ss_sys) : Prop := {
  sv_len : length (ss_traces st) = length (ss_servers st);
  sv_counter : ss_counter st = u64 (Z.of_nat (length (ss_log st)));
  sv_asked : map fst (ss_log st) = ss_asked st;
  sv_values : Z.of_nat (length (ss_log st)) < 2 ^ 64 →
    map snd (ss_log st) = seqZ 0 (Z.of_nat (length (ss_log st)));
  sv_threads : ∀ i s tr, ss_servers st !! i = Some s → ss_traces st !! i = Some tr → thread_ok mk_ah s tr
}.

Lemma fresh_ok mk_ah s : fresh s → thread_ok mk_ah s [].
Proof.
  intros (wrs & rwrs & wcs & sges & -> & H1 & H2 & H3 & H4). split.
  - constructor; try done. intros l a Ha. left. cbn [server_init s_ah] in Ha.
    by apply lookup_replicate in Ha as [-> _].
  - intros q Hq. unfold ss_NUM_UD_QPS in Hq. exists 0%nat. cbn [server_init s_nb_tx].
    by rewrite lookup_replicate_2 by lia.
Qed.

Lemma ss_sq_recv q l a : ss_sq_trace q (SPostRecv l :: a) = ss_sq_trace q a.
Proof. done. Qed.

Section Run.
Context (mk_ah : Z → Z) (Hmk : ∀ l, mk_ah l ≠ 0).

(** What an iteration with requests does to a thread and what it replies. *)
Lemma thread_iter s tr polled comps counter : thread_ok mk_ah s tr → comps ≠ [] →
  (length comps ≤ 63)%nat → Forall lid_ok comps →
  ∃ s' acts, server_iter mk_ah polled comps counter s =
      Ok (s', u64 (counter + Z.of_nat (length comps)), acts) ∧
    thread_ok mk_ah s' (tr ++ acts) ∧ length (sends acts) = length comps ∧
    ∃ tx, ∀ j c m, comps !! j = Some c → sends acts !! j = Some m → ss_reply mk_ah counter tx j c m.
Proof using Hmk.
  intros [Hs Hq] Hne Hlen Hlids. destruct (Hq (s_qp_i s) (si_qp _ _ Hs)) as (n & Htx & Hrun).
  destruct (server_iter_ok mk_ah polled comps counter (Z.of_nat n) s Hmk Hs Hne ltac:(lia) Hlids Htx ltac:(lia))
    as (s' & acts & ms & E & Hs' & Hq' & Ht' & Hsil & Hml & Hrep & Hsq).
  assert (Hsends : sends (SPostRecv (replicate (length comps) (SsSge (DgramBuf 0) CACHELINE_SIZE)) ::
      acts ++ [SPostSend (s_qp_i s) ms]) = ms).
  { change (sends (acts ++ [SPostSend (s_qp_i s) ms]) = ms). rewrite sends_app, Hsil. apply app_nil_r. }
  eexists _, _. split; [exact E|]. rewrite Hsends. split; [|split; [done|by exists (Z.of_nat n)]].
  split; [done|]. intros q Hqr.
  rewrite ss_sq_trace_app, ss_sq_recv, ss_sq_trace_app, Hsq, Ht'. cbn [ss_sq_trace flat_map ss_sq_of].
  pose proof (si_qp _ _ Hs) as Hqp. pose proof (lookup_lt_Some _ _ _ Htx) as Hlt.
  destruct (s_qp_i s =? q) eqn:Eq.
  - apply Z.eqb_eq in Eq. subst q. exists (n + length comps)%nat.
    rewrite list_lookup_insert_eq by done. split; [f_equal; lia|].
    rewrite sq_run_app, Hrun. cbn [mbind option_bind]. rewrite Nat2Z.id.
    rewrite <-(batch_ok (Z.to_nat HRD_Q_DEPTH) n (length comps)) by (unfold HRD_Q_DEPTH; lia).
    unfold batch_acts. rewrite decide_False by (destruct comps; done). do 4 f_equal.
    rewrite app_nil_r. do 2 f_equal.
    apply list_eq. intros j. rewrite list_lookup_fmap. unfold batch_flags. rewrite list_lookup_fmap.
    destruct (ms !! j) as [m|] eqn:Em.
    + pose proof (lookup_lt_Some _ _ _ Em). destruct (lookup_lt_is_Some_2 comps j ltac:(lia)) as [c Hc].
      destruct (Hrep j c m Hc Em) as (_ & _ & Hsg & _). rewrite lookup_seq_lt by lia. cbn. f_equal.
      rewrite Hsg. f_equal. lia.
    + apply lookup_ge_None in Em. rewrite lookup_seq_ge by lia. done.
  - apply Z.eqb_neq in Eq. destruct (Hq q Hqr) as (k & Hk & Hrun'). exists k.
    rewrite list_lookup_insert_ne by (unfold ss_NUM_UD_QPS in *; lia). split; [done|].
    by rewrite app_nil_r.
Qed.

Lemma thread_idle s tr polled counter : thread_ok mk_ah s tr →
  ∃ s', server_iter mk_ah polled [] counter s = Ok (s', counter, []) ∧ thread_ok mk_ah s' tr.
Proof using.
  intros [Hs Hq]. destruct (server_iter_idle mk_ah polled counter s Hs) as (s' & E & Hs' & Ht & _).
  exists s'. split; [done|]. split; [done|]. rewrite Ht. exact Hq.
Qed.

(** The replies of an iteration carry consecutive numbers. *)
Lemma replies_ok comps acts base tx : length (sends acts) = length comps →
  (∀ j c m, comps !! j = Some c → sends acts !! j = Some m → ss_reply mk_ah base tx j c m) →
  map fst (replies comps acts) = map rwc_src_qp comps ∧
  (0 ≤ base → base + Z.of_nat (length comps) < 2 ^ 64 →
   map snd (replies comps acts) = seqZ base (Z.of_nat (length comps))).
Proof using.
  intros Hlen Hrep. split.
  - apply list_eq. intros j. rewrite !list_lookup_fmap. unfold replies. rewrite lookup_zip_with.
    destruct (comps !! j) as [c|] eqn:Ec; [|done].
    destruct (lookup_lt_is_Some_2 (sends acts) j) as [m Hm]; [rewrite Hlen; by eapply lookup_lt_Some|].
    rewrite Hm. cbn. f_equal. by destruct (Hrep j c m Ec Hm) as (_ & -> & _).
  - intros Hb Hmax. apply list_eq. intros j. rewrite list_lookup_fmap. unfold replies. rewrite lookup_zip_with.
    destruct (comps !! j) as [c|] eqn:Ec.
    + pose proof (lookup_lt_Some _ _ _ Ec).
      destruct (lookup_lt_is_Some_2 (sends acts) j) as [m Hm]; [lia|]. rewrite Hm. cbn.
      rewrite lookup_seqZ_lt by lia. f_equal. apply (reply_value_ok mk_ah base tx); [by apply Hrep|lia].
    + apply lookup_ge_None in Ec. rewrite lookup_seqZ_ge by lia. done.
Qed.

Lemma ss_reach_inv postlist st : postlist ≤ 63 → ss_reach mk_ah postlist st → ss_inv mk_ah st.
Proof using Hmk.
  intros Hpl. induction 1 as [ss Hss|st st' Hr IH Hst].
  { constructor; cbn; try done; [by rewrite length_map|]. intros i s tr Hs Ht.
    rewrite list_lookup_fmap, Hs in Ht. injection Ht as <-. apply fresh_ok. by eapply Forall_lookup_1. }
  destruct IH as [Hlen Hctr Hask Hval Hth]. destruct Hst as [st i s tr polled comps s' c' acts Hs Ht Hc Hl E].
  specialize (Hth i s tr Hs Ht) as Hok.
  assert (Hkey : thread_ok mk_ah s' (tr ++ acts) ∧ c' = u64 (ss_counter st + Z.of_nat (length comps)) ∧
    length (sends acts) = length comps ∧
    ∃ tx, ∀ j c m, comps !! j = Some c → sends acts !! j = Some m → ss_reply mk_ah (ss_counter st) tx j c m).
  { destruct (decide (comps = [])) as [->|Hne].
    - destruct (thread_idle s tr polled (ss_counter st) Hok) as (s1 & E1 & Hok1).
      rewrite E1 in E. injection E as <- <- <-. rewrite app_nil_r. split; [done|].
      split; [|split; [done|by exists 0]]. rewrite Hctr. cbn [length Z.of_nat]. by rewrite Z.add_0_r, u64_u64.
    - destruct (thread_iter s tr polled comps (ss_counter st) Hok Hne ltac:(lia) Hl) as (s1 & a1 & E1 & Hok1 & Hrest).
      rewrite E1 in E. injection E as <- <- <-. done. }
  destruct Hkey as (Hok' & -> & Hsl & tx & Hrep).
  destruct (replies_ok comps acts _ tx Hsl Hrep) as [Hf Hv].
  assert (Hrl : length (replies comps acts) = length comps).
  { unfold replies. rewrite length_zip_with. lia. }
  constructor; cbn.
  - by rewrite !length_insert.
  - rewrite Hctr, length_app, Hrl. unfold u64. rewrite Zplus_mod_idemp_l. f_equal. lia.
  - by rewrite map_app, Hask, Hf.
  - rewrite length_app, Hrl, Nat2Z.inj_add. intros Hmax. rewrite map_app, Hval by lia.
    rewrite seqZ_app by lia. f_equal. rewrite Z.add_0_l.
    rewrite u64_small in Hctr by lia. rewrite Hv; [by rewrite Hctr|lia..].
  - intros k sk tk Hsk Htk. destruct (decide (k = i)) as [->|Hne].
    + rewrite list_lookup_insert_eq in Hsk by (by eapply lookup_lt_Some). injection Hsk as <-.
      rewrite list_lookup_insert_eq in Htk by (by eapply lookup_lt_Some). by injection Htk as <-.
    + rewrite list_lookup_insert_ne in Hsk by done. rewrite list_lookup_insert_ne in Htk by done.
      by apply (Hth k).
Qed.
End Run.

(** ** A run *)
Definition demo_server : server :=
  server_init (replicate 128 wr0) (replicate 128 (RecvWr 0 None)) (replicate 128 rwc0)
    (replicate 128 (SsSge (DgramBuf 0) 0)).
Definition demo_mk_ah (lid : Z) : Z := Z.abs lid + 1.
(** Three requests from two queue pairs, the second with a wrong guess. *)
Definition demo_comps : list recv_wc := [RecvWc 7 100 0 2; RecvWc 9 101 5 2; RecvWc 7 100 0 2].

Definition run_iter (i : nat) (comps : list recv_wc) (st : ss_sys) : option ss_sys :=
  match ss_servers st !! i, ss_traces st !! i with
  | Some s, Some tr =>
      match server_iter demo_mk_ah rwc0 comps (ss_counter st) s with
      | Ok (s', c', acts) =>
          Some (SsSys (<[i := s']> (ss_servers st)) c' (ss_asked st ++ map rwc_src_qp comps)
                  (ss_log st ++ replies comps acts) (<[i := tr ++ acts]> (ss_traces st)))
      | Fault _ => None
      end
  | _, _ => None
  end.
Definition demo_ss0 : ss_sys := SsSys [demo_server; demo_server] 0 [] [] [[]; []].
Definition demo_ss1 : ss_sys := default demo_ss0 (run_iter 0 demo_comps demo_ss0).
Definition demo_ss2 : ss_sys := default demo_ss1 (run_iter 1 demo_comps demo_ss1).

Lemma demo_fresh : fresh demo_server.
Proof. eexists _, _, _, _. split; [reflexivity|]. done. Qed.

Lemma run_iter_step i comps st st' : run_iter i comps st = Some st' → (length comps ≤ 3)%nat →
  Forall lid_ok comps → ss_step demo_mk_ah 32 st st'.
Proof.
  unfold run_iter. intros H Hl Hc. destruct (ss_servers st !! i) as [s|] eqn:Es; [|done].
  destruct (ss_traces st !! i) as [tr|] eqn:Et; [|done].
  destruct (server_iter _ _ _ _ _) as [[[s' c'] acts]|] eqn:E; [|done].
  injection H as <-. econstructor; eauto. lia.
Qed.

Lemma demo_comps_ok : Forall lid_ok demo_comps.
Proof. repeat constructor; done. Qed.

Lemma demo_ss_reach : ss_reach demo_mk_ah 32 demo_ss2.
Proof.
  eapply ss_next; [eapply ss_next; [apply (ss_start _ _ [demo_server; demo_server]); repeat constructor; apply demo_fresh|]|].
  - apply (run_iter_step 0 demo_comps); [|simpl; lia|apply demo_comps_ok]. unfold demo_ss1. by vm_compute.
  - apply (run_iter_step 1 demo_comps); [|simpl; lia|apply demo_comps_ok]. by vm_compute.
Qed.

(** The postlist of a server thread that [main] starts. *)
Lemma ss_main_servers junk opts ps p : ss_main junk opts = Ok (SsServers ps) → p ∈ ps →
  1 ≤ sp_postlist p ≤ 32.
Proof.
  unfold ss_main, UNSIG_BATCH, MAX_POSTLIST. intros H Hp. inv_res.
  destruct (sa_is_client a =? 1); inv_res.
  rewrite !elem_of_cons, elem_of_nil in Hp. destruct_or!; by (subst p; cbn; lia).
Qed.

Definition demo_ss_opts : list (Ascii.ascii * Z) := [("d"%char, 0); ("c"%char, 0); ("p"%char, 32)].
Definition demo_ss_params (i : Z) : ss_params := SsParams i 0 32 0.

(** C19: the sequencer is a sequencer.  However the threads of a server take
    turns and whatever upper halves the clients guess, the numbers that the
    replies stand for are 0, 1, 2, ... in the order of the fetch-and-adds,
    without gap or repetition, one for each request and sent to the queue
    pair that asked, until the 64-bit counter overflows. *)
Theorem ss_numbers_unique (junk : Z) (opts : list (Ascii.ascii * Z)) (ps : list ss_params) (p : ss_params)
    (mk_ah : Z → Z) (st : ss_sys) :
  ss_main junk opts = Ok (SsServers ps) → p ∈ ps →
  (∀ l, mk_ah l ≠ 0) → ss_reach mk_ah (sp_postlist p) st →
  Z.of_nat (length (ss_log st)) < 2 ^ 64 →
  map snd (ss_log st) = seqZ 0 (Z.of_nat (length (ss_log st))) ∧ NoDup (map snd (ss_log st)) ∧
  map fst (ss_log st) = ss_asked st ∧ ss_counter st = Z.of_nat (length (ss_asked st)).
Proof.
  intros Hm Hp Hmk Hr Hmax. pose proof (ss_main_servers _ _ _ _ Hm Hp) as Hpl.
  destruct (ss_reach_inv mk_ah Hmk (sp_postlist p) st ltac:(lia) Hr) as [_ Hc Ha Hv _].
  rewrite Hv by done. split; [done|]. split; [apply NoDup_seqZ|]. split; [done|].
  rewrite Hc, u64_small by lia. by rewrite <-Ha, length_map.
Qed.

Lemma ss_numbers_unique_witness :
  map snd (ss_log demo_ss2) = seqZ 0 6 ∧ NoDup (map snd (ss_log demo_ss2)) ∧
  map fst (ss_log demo_ss2) = [100; 101; 100; 100; 101; 100] ∧ ss_counter demo_ss2 = 6.
Proof.
  destruct (ss_numbers_unique 0 demo_ss_opts (map (λ i, demo_ss_params (Z.of_nat i)) (seq 0 10))
    (demo_ss_params 0) demo_mk_ah demo_ss2) as (H1 & H2 & H3 & H4);
    [reflexivity|left|intros l; unfold demo_mk_ah; lia|apply demo_ss_reach|by vm_compute|].
  split; [exact H1|]. split; [exact H2|]. split; [by rewrite H3; vm_compute|by rewrite H4; vm_compute].
Defined.

(** A server thread never fails and never waits for ever.  In every
    reachable state and for every batch of requests whose LIDs fit the table
    of address handles, the iteration returns; and on each of its send
    queues, at any time, the calls that were made respect the queue: no poll
    for a completion that cannot come and at most 126 of the 128 slots in
    use. *)
Theorem ss_server_safe (junk : Z) (opts : list (Ascii.ascii * Z)) (ps : list ss_params) (p : ss_params)
    (mk_ah : Z → Z) (st : ss_sys) (i : nat) (s : server)
    (tr : list ss_act) (polled : recv_wc) (comps : list recv_wc) (q : Z) :
  ss_main junk opts = Ok (SsServers ps) → p ∈ ps →
  (∀ l, mk_ah l ≠ 0) → ss_reach mk_ah (sp_postlist p) st →
  ss_servers st !! i = Some s → ss_traces st !! i = Some tr →
  Z.of_nat (length comps) ≤ sp_postlist p → Forall lid_ok comps → 0 ≤ q < ss_NUM_UD_QPS →
  (∃ r, server_iter mk_ah polled comps (ss_counter st) s = Ok r) ∧
  ∃ out, sq_run (Z.to_nat HRD_Q_DEPTH) [] (ss_sq_trace q tr) = Some out ∧ (length out ≤ 126)%nat.
Proof.
  intros Hm Hp Hmk Hr Hs Ht Hlen Hl Hq. pose proof (ss_main_servers _ _ _ _ Hm Hp) as Hpl.
  pose proof (sv_threads _ _ (ss_reach_inv mk_ah Hmk (sp_postlist p) st ltac:(lia) Hr) i s tr Hs Ht) as Hok. split.
  - destruct (decide (comps = [])) as [->|Hne].
    + destruct (thread_idle mk_ah s tr polled (ss_counter st) Hok) as (s' & E & _). by eexists.
    + destruct (thread_iter mk_ah Hmk s tr polled comps (ss_counter st) Hok Hne ltac:(lia) Hl)
        as (s' & acts & E & _). by eexists.
  - destruct Hok as [_ Hok]. destruct (Hok q Hq) as (n & _ & ->). eexists. split; [reflexivity|].
    apply waiting_bound.
Qed.

Lemma ss_server_safe_witness :
  (∃ r, server_iter demo_mk_ah rwc0 demo_comps 6 (nth 0 (ss_servers demo_ss2) demo_server) = Ok r) ∧
  ∃ out, sq_run (Z.to_nat HRD_Q_DEPTH) [] (ss_sq_trace 0 (nth 0 (ss_traces demo_ss2) [])) = Some out ∧
    (length out ≤ 126)%nat.
Proof.
  apply (ss_server_safe 0 demo_ss_opts (map (λ i, demo_ss_params (Z.of_nat i)) (seq 0 10))
    (demo_ss_params 0) demo_mk_ah demo_ss2 0 _ _ rwc0 demo_comps 0);
    [reflexivity|left|intros l; unfold demo_mk_ah; lia|apply demo_ss_reach|by vm_compute|by vm_compute|simpl; lia|
     apply demo_comps_ok|done].
Defined.

(** ** From the server to the client *)

(** How a reply arrives: its payload behind the 40 bytes of the global
    routing header in the buffer of a RECV, and the completion. *)
Definition arrive (buf : gmap Z Z) (off : Z) (m : send_wr * list Z) : gmap Z Z := mwrite_n buf (off + 40) m.2.
Definition arrive_wc (m : send_wr * list Z) : recv_wc :=
  RecvWc 0 0 (wr_imm_data m.1) (if wr_opcode m.1 =? IBV_WR_SEND_WITH_IMM then IBV_WC_WITH_IMM else 0).

(** A value of [counter_hi]: a multiple of 2^32. *)
Definition hi_ok (hi : Z) : Prop := 0 ≤ hi < 2 ^ 64 ∧ hi mod 2 ^ 32 = 0.

Lemma hi_split hi v : hi_ok hi → 0 ≤ v < 2 ^ 64 → u32 (hi .>> 32) = u32 (v .>> 32) → u64 (hi + u32 v) = v.
Proof.
  intros [Hr Hm] Hv. rewrite !Z.shiftr_div_pow2 by lia. unfold u32. 
  rewrite !(Z.mod_small (_ / _)) by (split; [apply Z.div_pos; lia|apply Z.div_lt_upper_bound; lia]).
  intros E. pose proof (Z.div_mod hi (2 ^ 32) ltac:(lia)). pose proof (Z.div_mod v (2 ^ 32) ltac:(lia)).
  replace (hi + v mod 2 ^ 32) with v by lia. by apply u64_small.
Qed.

Lemma hi_of_value v : 0 ≤ v < 2 ^ 64 → (v .>> 32) <<64 32 = v - v mod 2 ^ 32 ∧ hi_ok ((v .>> 32) <<64 32).
Proof.
  intros Hv. rewrite Z.shiftr_div_pow2, Z.shiftl_mul_pow2 by lia.
  pose proof (Z.div_mod v (2 ^ 32) ltac:(lia)). pose proof (Z.mod_pos_bound v (2 ^ 32) ltac:(lia)).
  rewrite u64_small by lia. split; [lia|]. split; [lia|]. by rewrite Z.mod_mul by lia.
Qed.

(** C31: request and reply fit together.  If the client's request carried the
    upper half of its [counter_hi] and [counter_hi] has not changed when the
    reply is decoded from the buffer of the RECV that it used, the client
    computes exactly the number that the server took, whether the reply is
    the short or the long one, and afterwards the short form will work for
    all numbers with the same upper half. *)
Theorem ss_counter_roundtrip (mk_ah : Z → Z) (polled : recv_wc) (comps : list recv_wc) (counter tx : Z)
    (s : server) (j : nat) (rq : recv_wc) (buf : gmap Z Z) (postlist i : Z) (c : ss_client) :
  (∀ l, mk_ah l ≠ 0) → sinv mk_ah s → (length comps ≤ 128)%nat → Forall lid_ok comps →
  s_nb_tx s !! Z.to_nat (s_qp_i s) = Some tx → 0 ≤ tx →
  0 ≤ counter → counter + Z.of_nat (length comps) < 2 ^ 64 → comps !! j = Some rq →
  hi_ok (sc_counter_hi c) → rwc_imm_data rq = u32 (sc_counter_hi c .>> 32) → 0 ≤ i < 64 →
  let v := counter + Z.of_nat j in
  ∃ s' counter' acts m c', server_iter mk_ah polled comps counter s = Ok (s', counter', acts) ∧
    sends acts !! j = Some m ∧ wr_remote_qpn m.1 = rwc_src_qp rq ∧
    decode (arrive buf (i * CACHELINE_SIZE) m) postlist i (arrive_wc m) c = Ok (c', v) ∧
    sc_counter_hi c' = v - v mod 2 ^ 32 ∧ hi_ok (sc_counter_hi c').
Proof.
  intros Hmk Hs Hlen Hl Htx Htx0 Hc0 Hcm Hrq Hhi Himm Hi v. pose proof (lookup_lt_Some _ _ _ Hrq) as Hj.
  assert (Hv : 0 ≤ v < 2 ^ 64) by (subst v; lia).
  destruct (server_iter_ok mk_ah polled comps counter tx s Hmk Hs ltac:(by intros ->) Hlen Hl Htx Htx0)
    as (s' & acts & ms & E & _ & _ & _ & Hsil & Hml & Hrep & _).
  destruct (lookup_lt_is_Some_2 ms j ltac:(lia)) as [m Hm].
  destruct (hi_of_value v Hv) as [Hh1 Hh2].
  destruct (Hrep j rq m Hrq Hm) as (_ & Hqpn & _ & Hval). cbv zeta in Hval.
  fold v in Hval. rewrite u64_small in Hval by done.
  assert (Hdec : ∃ c', decode (arrive buf (i * CACHELINE_SIZE) m) postlist i (arrive_wc m) c = Ok (c', v) ∧
    sc_counter_hi c' = (v .>> 32) <<64 32).
  { unfold decode, arrive_wc, arrive, CACHELINE_SIZE, BUF_SIZE. cbn [rwc_flags rwc_imm_data].
    destruct (guess_ok rq v) eqn:G.
    - destruct Hval as (-> & -> & _). rewrite Z.eqb_refl. cbn iota.
      change (IBV_WC_WITH_IMM .& IBV_WC_WITH_IMM =? 0) with false. cbn iota.
      unfold guess_ok in G. apply Z.eqb_eq in G. rewrite hi_split by congruence. eexists. split; [reflexivity|]. cbn.
      rewrite Hh1. pose proof (hi_split (sc_counter_hi c) v Hhi Hv ltac:(congruence)) as Hsp.
      destruct Hhi as [Hr Hm0]. pose proof (u32_range v).
      pose proof (Z.div_mod (sc_counter_hi c) (2 ^ 32) ltac:(lia)).
      rewrite u64_small in Hsp by (split; [lia|]; nia). unfold u32 in Hsp. lia.
    - destruct Hval as (-> & ->). change (IBV_WR_SEND =? IBV_WR_SEND_WITH_IMM) with false. cbn iota.
      change (0 .& IBV_WC_WITH_IMM =? 0) with true. cbn iota.
      rewrite (proj2 (andb_true_iff _ _)) by lia. cbn [in_bounds res_bind].
      pose proof (mread_n_mwrite_eq buf (i * 64 + 40) (le_bytes 8 v)) as Hrd. rewrite length_le_bytes in Hrd.
      rewrite Hrd, le_word_bytes. change (8 * Z.of_nat 8) with 64. rewrite Z.mod_small by done.
      eexists. split; reflexivity. }
  destruct Hdec as (c' & Hdec & Hc'). eexists _, _, _, m, c'. split; [exact E|].
  split; [|split; [done|split; [done|split; [by rewrite Hc'|by rewrite Hc']]]].
  change (sends (acts ++ [SPostSend (s_qp_i s) ms]) !! j = Some m).
  rewrite sends_app, Hsil. cbn. by rewrite app_nil_r.
Qed.

Lemma ss_counter_roundtrip_witness :
  ∃ s' counter' acts m c', server_iter demo_mk_ah rwc0 demo_comps (2 ^ 32 - 2) demo_server = Ok (s', counter', acts) ∧
    sends acts !! 2%nat = Some m ∧ wr_remote_qpn m.1 = 100 ∧
    decode (arrive ∅ (5 * CACHELINE_SIZE) m) 8 5 (arrive_wc m) (ss_client_init 8) = Ok (c', 2 ^ 32) ∧
    sc_counter_hi c' = 2 ^ 32 - 2 ^ 32 mod 2 ^ 32 ∧ hi_ok (sc_counter_hi c').
Proof.
  apply (ss_counter_roundtrip demo_mk_ah rwc0 demo_comps (2 ^ 32 - 2) 0 demo_server 2 (RecvWc 7 100 0 2) ∅ 8 5
           (ss_client_init 8)); try (by vm_compute); try lia.
  - intros l. unfold demo_mk_ah. lia.
  - apply (fresh_ok demo_mk_ah demo_server demo_fresh).
  - simpl. lia.
  - apply demo_comps_ok.
Defined.

(** Replies that overtake each other are decoded wrongly.  The numbers
    2^32 - 1 and 2^32, both asked for with [counter_hi] = 0, are sent as a
    short and as a long reply; when the long one is polled first, the client
    takes the short one for 2^33 - 1, a number that was never handed out. *)
Theorem ss_reordered_replies :
  ∃ s' acts m0 m1 c', server_iter demo_mk_ah rwc0 [RecvWc 7 100 0 2; RecvWc 7 100 0 2] (2 ^ 32 - 1) demo_server
      = Ok (s', 2 ^ 32 + 1, acts) ∧
    sends acts = [m0; m1] ∧ reply_value (RecvWc 7 100 0 2) m0 = 2 ^ 32 - 1 ∧
    reply_value (RecvWc 7 100 0 2) m1 = 2 ^ 32 ∧
    client_recv (arrive (arrive ∅ 0 m1) 64 m0) 2 [arrive_wc m1; arrive_wc m0] (ss_client_init 2)
      = Ok (c', [2 ^ 32; 2 ^ 33 - 1]).
Proof.
  eexists _, _, _, _, _. split; [vm_compute; reflexivity|]. split; [vm_compute; reflexivity|].
  split; [vm_compute; reflexivity|]. split; vm_compute; reflexivity.
Qed.

(** The client looks for a long reply in the buffer with the index of the
    completion in the current poll, not in the buffer of the RECV that the
    reply used: two long replies that are polled one at a time arrive in the
    buffers at 0 and 64, and the client reads the first one twice. *)
Theorem ss_wrong_buffer :
  let m v := (SendWr None 8 100 HRD_DEFAULT_QKEY IBV_WR_SEND 1 0 0 IBV_SEND_INLINE, le_bytes 8 v) in
  let buf := arrive (arrive ∅ 0 (m (2 ^ 32))) 64 (m (2 ^ 32 + 1)) in
  ∃ c1 c2, client_recv buf 2 [arrive_wc (m (2 ^ 32))] (ss_client_init 2) = Ok (c1, [2 ^ 32]) ∧
    client_recv buf 2 [arrive_wc (m (2 ^ 32 + 1))] c1 = Ok (c2, [2 ^ 32]).
Proof. eexists _, _. split; [vm_compute; reflexivity|]. vm_compute. reflexivity. Qed.
