(* ===== verification/SsMain.v ===== *)
(** * The SEND/SEND sequencer: start-up (src/ss-sequencer/server.c, client.c)

    What the threads do before their loops: the control block, the RECVs of
    a server, the publication of the queue pair, and the address of the
    server that a client looks up. *)

From stdpp Require Import base gmap list strings numbers pretty.
From Stdlib Require Import ZArith Lia ZifyBool Ascii.
From S2P Require Import Prelude Mica MicaSpec Verbs HrdUtil HrdConn Signal Herd HerdProof HerdMain HerdSetup HerdStart HerdConnect SsSeq SsProof SsThms.

Definition ss_name_server (s : Z) : string := "server-" +:+ pretty s.
Definition ss_name_client (c : Z) : string := "client-" +:+ pretty c.

(** The port of server thread [s]. *)
Definition ss_port (dual_port s : Z) : Z := if dual_port =? 0 then 0 else Z.rem s 2.

Section SsSetup.
Context {W : Type} `{Verbs W, Shm W, Memc W, DataVerbs W}.

Fixpoint ss_post_recvs (n : nat) (qp buf lkey : Z) : eff W unit :=
  match n with
  | O => eff_ret tt
  | S n => hrd_post_dgram_recv qp buf CACHELINE_SIZE lkey ;* ss_post_recvs n qp buf lkey
  end.

(** [run_server] before its loop. *)
Definition ss_server_setup (junk : list Z) (p : ss_params) : eff W hrd_ctrl_blk :=
  let srv_gid := sp_id p in
  let* cb := hrd_ctrl_blk_init srv_gid (ss_port (sp_dual_port p) srv_gid) (-1) 0 0 0 0 (-1)
               ss_NUM_UD_QPS BUF_SIZE (-1) in
  memset0 (dgram_buf cb) BUF_SIZE ;*
  let* qp := eff_lift (arr_get (dgram_qp cb) 0) in
  let* lkey := ibv_mr_lkey (dgram_buf_mr cb) in
  ss_post_recvs (Z.to_nat HRD_Q_DEPTH) qp (dgram_buf cb) lkey ;*
  hrd_publish_dgram_qp junk cb 0 (ss_name_server srv_gid) ;*
  eff_ret cb.

(** [run_client] before its loop: the control block, what the server
    published, and the address handle. *)
Definition ss_client_setup (fuel : nat) (junk : list Z) (p : ss_params)
    : eff W (hrd_ctrl_blk * hrd_qp_attr * Z) :=
  eff_lift (ss_client_checks p) ;*
  let clt_gid := sp_id p in
  let clt_local_hid := Z.rem clt_gid (sp_num_threads p) in
  let srv_gid := Z.rem clt_gid NUM_SERVER_THREADS in
  let* cb := hrd_ctrl_blk_init clt_local_hid (ss_port (sp_dual_port p) srv_gid) (-1) 0 0 0 0 (-1)
               1 BUF_SIZE (-1) in
  memset0 (dgram_buf cb) BUF_SIZE ;*
  hrd_publish_dgram_qp junk cb 0 (ss_name_client clt_gid) ;*
  let* srv_qp := wait_qp fuel (ss_name_server srv_gid) in
  let* ah := ibv_create_ah (cb_pd cb) (at_lid srv_qp) (dev_port_id cb) in
  eff_assert (negb (ah =? 0)) ;*
  eff_ret (cb, srv_qp, ah).
End SsSetup.

(** ** Names *)
Lemma ss_server_name_ok s : (s < 10)%nat → name_ok (ss_name_server (Z.of_nat s)).
Proof.
  intros Hs. apply name_okb_ok.
  apply (forallb_seq (λ s, name_okb (ss_name_server (Z.of_nat s))) 10 s); [by vm_compute|done].
Qed.
Lemma ss_client_name_ok c : (c < 70)%nat → name_ok (ss_name_client (Z.of_nat c)).
Proof.
  intros Hc. apply name_okb_ok.
  apply (forallb_seq (λ c, name_okb (ss_name_client (Z.of_nat c))) 70 c); [by vm_compute|done].
Qed.

(** ** Room for RECVs *)
Section Room.
Context {W : Type} `{HerdLaws W}.

Definition grows (w w' : W) : Prop := room w ⊆ room w'.
#[export] Instance grows_preorder : PreOrder grows.
Proof. unfold grows. split; [by intros w|intros w1 w2 w3 E1 E2; by etrans]. Qed.

Local Hint Extern 1 (within grows _) => (apply law_grows; constructor) : within.

Lemma dgram_loop_grows n cb : within grows (dgram_loop n cb).
Proof.
  induction n as [|n IH]; cbn [dgram_loop]; [within_tac|]. unfold create_dgram_one.
  repeat (within_step || apply IH).
Qed.

Lemma create_dgram_room cb w r w' : create_dgram_one cb w = Ok (r, w') → room w' !! r.1.2 = Some HRD_Q_DEPTH.
Proof.
  unfold create_dgram_one. intros E.
  do 4 (apply eff_bind_Ok in E as (? & ? & _ & E)).
  apply eff_bind_Ok in E as (q & w1 & Eq & E).
  assert (Hq : q ≠ 0).
  { intros ->. by apply eff_bind_Ok in E as (? & ? & [=] & _). }
  pose proof (law_create_room _ _ _ _ _ Eq Hq) as Hr. cbn [ia_max_recv_wr] in Hr.
  assert (Hrest : room w' !! q = Some HRD_Q_DEPTH ∧ r.1.2 = q); [|by destruct Hrest as [? ->]].
  split.
  - refine (lookup_weaken _ _ _ _ Hr _). revert E. generalize r w1 w'.
    match goal with |- ∀ r w1 w', ?m w1 = Ok (r, w') → _ =>
      change (∀ r w1 w', m w1 = Ok (r, w') → grows w1 w'); enough (Hw : within grows m) by (intros r0 a b; apply Hw) end.
    within_tac.
  - apply eff_bind_Ok in E as (_ & w2 & _ & E). apply eff_bind_Ok in E as (rc & w3 & _ & E).
    destruct (negb (rc =? 0)); [by injection E as <- _|].
    do 4 (apply eff_bind_Ok in E as (? & ? & _ & E)). by injection E as <- _.
Qed.

Lemma init_dgram_room cb w cb' w' : 1 ≤ num_dgram_qps cb → init_dgram cb w = Ok (cb', w') →
  ∃ q l, dgram_qp cb' = q :: l ∧ room w' !! q = Some HRD_Q_DEPTH.
Proof.
  intros Hn. unfold init_dgram. rewrite (proj2 (Z.leb_le _ _) Hn). intros E.
  apply eff_bind_Ok in E as (qs & w1 & E1 & E). unfold hrd_create_dgram_qps in E1.
  do 2 (apply eff_bind_Ok in E1 as (? & ? & _ & E1)).
  destruct (Z.to_nat (num_dgram_qps cb)) as [|n] eqn:En; [lia|]. cbn [dgram_loop] in E1.
  apply eff_bind_Ok in E1 as ([[[scq rcq] q] b] & w2 & E2 & E1). apply create_dgram_room in E2. cbn in E2.
  assert (Hqs : ∃ l, qs = (scq, rcq, q) :: l ∧ grows w2 w1).
  { destruct b; [|injection E1 as <- <-; by exists []].
    apply eff_bind_Ok in E1 as (xs & w3 & E3 & E1). injection E1 as <- <-. exists xs. split; [done|].
    by eapply dgram_loop_grows. }
  destruct Hqs as (l & -> & Hg). exists q.
  assert (Hg2 : grows w1 w' ∧ ∃ l, dgram_qp cb' = q :: l).
  { split.
    - revert E. generalize cb' w1 w'.
      match goal with |- ∀ r w1 w', ?m w1 = Ok (r, w') → _ =>
        enough (Hw : within grows m) by (intros r0 a c; apply Hw) end.
      unfold alloc_buf, hrd_malloc_socket. within_tac.
    - apply eff_bind_Ok in E as ([buf rs] & w3 & _ & E).
      do 4 (apply eff_bind_Ok in E as (? & ? & _ & E)). injection E as <- _. by eexists. }
  destruct Hg2 as [Hg2 [l' Hl']]. exists l'. split; [done|].
  refine (lookup_weaken _ _ _ _ (lookup_weaken _ _ _ _ E2 Hg) Hg2).
Qed.
End Room.

(** ** The set-ups succeed *)
Section SsSetupProof.
Context {W : Type} `{HerdLaws W}.

Lemma ctrl_blk_room hid port nd ds w cb w' : 1 ≤ nd →
  hrd_ctrl_blk_init hid port (-1) 0 0 0 0 (-1) nd ds (-1) w = Ok (cb, w') →
  ∃ q l, dgram_qp cb = q :: l ∧ room w' !! q = Some HRD_Q_DEPTH.
Proof.
  intros Hn E. unfold hrd_ctrl_blk_init in E. do 9 (apply eff_bind_Ok in E as (? & ? & _ & E)).
  apply eff_bind_Ok in E as ([[ib di] dp] & ? & _ & E). do 5 (apply eff_bind_Ok in E as (? & ? & _ & E)).
  cbv zeta in E. apply eff_bind_Ok in E as (cb1 & w1 & E1 & E).
  pose proof E1 as E2. unfold init_dgram in E2. cbn [num_dgram_qps] in E2.
  rewrite (proj2 (Z.leb_le _ _) Hn) in E2. apply eff_bind_Ok in E2 as (? & ? & _ & E2).
  apply eff_bind_Ok in E2 as ([? ?] & ? & _ & E2). do 4 (apply eff_bind_Ok in E2 as (? & ? & _ & E2)).
  injection E2 as E2 _. apply init_dgram_room in E1; [|done].
  assert (Hn0 : num_conn_qps cb1 = 0) by (by rewrite <-E2). clear E2.
  unfold init_conn in E. rewrite Hn0 in E. injection E as <- <-. exact E1.
Qed.

Lemma post_recvs_ok qp buf lkey n : ∀ k w, room w !! qp = Some k → Z.of_nat n ≤ k →
  runs (ss_post_recvs n qp buf lkey) w (λ _ w', qps w' = qps w ∧ registry w' = registry w).
Proof.
  induction n as [|n IH]; intros k w Hk Hn; cbn [ss_post_recvs]; [by apply runs_ret|].
  eapply (runs_bind _ _ _ (λ _ w', room w' = <[qp := k - 1]> (room w) ∧ qps w' = qps w ∧ registry w' = registry w)).
  - unfold hrd_post_dgram_recv. eapply runs_bind; [apply (law_post_recv w qp k); [done|lia]|].
    cbv beta. intros r w1 (-> & Hw1). by apply (runs_ret tt).
  - cbv beta. intros _ w1 (E1 & E2 & E3).
    eapply runs_mono; [apply (IH (k - 1) w1); [by rewrite E1, lookup_insert_eq|lia]|].
    cbv beta. intros _ w2 [-> ->]. done.
Qed.

(** A control block with datagram queue pairs only. *)
Lemma dgram_blk_ok hid k nd ds (w : W) : 0 ≤ k < 2 → ports_enabled 0 2 → 1 ≤ nd ≤ M_2 → 0 ≤ ds ≤ M_1024 →
  (size (qps w) + Z.to_nat nd ≤ qp_limit)%nat →
  runs (hrd_ctrl_blk_init hid k (-1) 0 0 0 0 (-1) nd ds (-1)) w (λ cb w', ∃ q d i pa,
    dgram_qp cb !! 0%nat = Some q ∧ Z.of_nat (length (dgram_qp cb)) = nd ∧ num_dgram_qps cb = nd ∧
    (∀ q, q ∈ dgram_qp cb → qps w' !! q = Some ud_ready) ∧ room w' !! q = Some HRD_Q_DEPTH ∧
    (∀ q, is_Some (qps w !! q) → qps w' !! q = qps w !! q) ∧ size (qps w') = (size (qps w) + Z.to_nat nd)%nat ∧
    registry w' = registry w ∧ d ∈ devs ∧ cb_ctx cb = ctx_of d ∧ dev_port_id cb = Z.of_nat i + 1 ∧
    dev_ports d !! i = Some pa).
Proof.
  intros Hk (_ & _ & Hdevs & Hen) Hn Hds Hlim.
  destruct (Hen (Z.to_nat k) ltac:(lia)) as [[[d di] p] Hp]. change (Z.to_nat 0) with 0%nat in Hp. rewrite Nat.add_0_l in Hp.
  assert (Hin : (d, di, p) ∈ enabled_ports devs 0) by (by eapply list_elem_of_lookup_2).
  destruct (enabled_ports_dev devs 0 d di p Hin) as [Hd Hp1].
  destruct (enabled_ports_port devs 0 d di p Hin) as (i & pa & -> & Hpa).
  assert (Hrun : runs (hrd_ctrl_blk_init hid k (-1) 0 0 0 0 (-1) nd ds (-1)) w (λ cb w',
    (cb_made w w' cb 0 0 0 nd d di (Z.of_nat i + 1) ∧ conn_buf_size cb = 0) ∧ registry w' = registry w)).
  { apply (runs_keeps registry); [apply keeps_ctrl_blk_init|].
    apply ctrl_blk_init_ok; unfold buf_args_ok, M_2, M_1024 in *; try lia; done. }
  destruct Hrun as (cb & w' & E & [Hmade _] & Hreg). exists cb, w'. split; [done|].
  destruct (ctrl_blk_room hid k nd ds w cb w' ltac:(lia) E) as (q & l & Hq & Hroom).
  destruct Hmade as [_ Hport Hdl _ Hdq _ (Hctx & _ & _ & Hnd) _ _ _ Hsz Hold].
  rewrite Nat.add_0_r in Hsz. exists q, d, i, pa. split; [by rewrite Hq|]. repeat (split; [done|]). done.
Qed.

Lemma ss_port_range dual s : (s < 10)%nat → 0 ≤ ss_port dual (Z.of_nat s) < 2.
Proof. intros Hs. unfold ss_port. destruct (dual =? 0); [lia|]. rewrite Z.rem_mod_nonneg by lia. lia. Qed.

Lemma ss_server_setup_ok junk p s (w : W) : sp_id p = Z.of_nat s → (s < 10)%nat → length junk = 224%nat →
  ports_enabled 0 2 → (size (qps w) + 3 ≤ qp_limit)%nat →
  runs (ss_server_setup junk p) w (λ cb w', ∃ q v, dgram_qp cb !! 0%nat = Some q ∧ length (dgram_qp cb) = 3%nat ∧
    size (qps w') = (size (qps w) + 3)%nat ∧
    (∀ q, q ∈ dgram_qp cb → qps w' !! q = Some ud_ready) ∧
    registry w' = <[ss_name_server (Z.of_nat s) := v]> (registry w) ∧
    length v = 224%nat ∧ at_qpn (attr_of_bytes v) = qpn_of q).
Proof.
  intros Hid Hs Hj Hports Hlim. unfold ss_server_setup. cbv zeta. rewrite Hid.
  eapply runs_bind; [apply dgram_blk_ok; [by apply ss_port_range|done|done|done|unfold ss_NUM_UD_QPS; lia]|].
  cbv beta. intros cb w1 (q & d & i & pa & Hq & Hlen & Hnd & Hqs & Hroom & _ & Hsz & Er1 & Hd & Hctx & Hport & Hpa).
  eapply runs_bind.
  { apply (runs_within (λ w w', room w ⊆ room w')); [apply law_grows; constructor|].
    apply (runs_keeps registry); [apply law_frame; constructor|apply law_memset]. }
  cbv beta. intros _ w2 [[Eq2 Er2] Hg2]. rewrite (arr_get_Z _ 0 q) by done. apply runs_lift_Ok.
  eapply runs_bind; [apply law_lkey|]. cbv beta. intros lkey w3 ->.
  eapply runs_bind; [apply (post_recvs_ok q _ lkey _ HRD_Q_DEPTH w2); [by eapply lookup_weaken|done]|].
  cbv beta. intros _ w4 [Eq4 Er4].
  eapply runs_bind.
  { apply (runs_keeps qps); [apply keeps_qps_publish_dgram|].
    apply (publish_dgram_ok junk cb 0 q d i pa); try done; [by rewrite Hnd|by apply ss_server_name_ok]. }
  cbv beta. intros _ w5 [(v & Er5 & Hv) Eq5]. apply runs_ret. exists q, v.
  split; [done|]. split; [unfold ss_NUM_UD_QPS in *; lia|]. split; [by rewrite Eq5, Eq4, Eq2|]. split; [intros; rewrite Eq5, Eq4, Eq2; auto|].
  split; [congruence|]. split; apply Hv.
Qed.

Lemma ss_client_checks_ok p : sp_id p < 70 → 7 * sp_postlist p < 128 → ss_client_checks p = Ok tt.
Proof.
  intros Hid Hp. unfold ss_client_checks, MAX_NUM_CLIENTS, NUM_SERVER_THREADS, HRD_Q_DEPTH, CACHELINE_SIZE, BUF_SIZE.
  change ((70 + 10 - 1) / 10) with 7. unfold cassert.
  rewrite !(proj2 (Z.ltb_lt _ _)) by lia. done.
Qed.

Lemma ss_client_setup_ok fuel junk p c v (w : W) : sp_id p = Z.of_nat c → (c < 70)%nat → 7 * sp_postlist p < 128 →
  length junk = 224%nat → ports_enabled 0 2 →
  registry w !! ss_name_server (Z.of_nat (c mod 10)) = Some v → length v = 224%nat →
  (size (qps w) < qp_limit)%nat →
  runs (ss_client_setup (S fuel) junk p) w (λ r w', ∃ cb ah q v', r = (cb, attr_of_bytes v, ah) ∧ ah ≠ 0 ∧
    dgram_qp cb = [q] ∧ qps w' !! q = Some ud_ready ∧
    (∀ q, is_Some (qps w !! q) → qps w' !! q = qps w !! q) ∧
    registry w' = <[ss_name_client (Z.of_nat c) := v']> (registry w) ∧
    length v' = 224%nat ∧ at_qpn (attr_of_bytes v') = qpn_of q).
Proof.
  intros Hid Hc Hpl Hj Hports Hv Hvl Hlim. unfold ss_client_setup. cbv zeta.
  rewrite ss_client_checks_ok by lia. apply runs_lift_Ok. rewrite Hid.
  change NUM_SERVER_THREADS with (Z.of_nat 10). rewrite (Z.rem_mod_nonneg (Z.of_nat c) (Z.of_nat 10)), <-Nat2Z.inj_mod by lia.
  assert (Hcm : (c mod 10 < 10)%nat) by (apply Nat.mod_upper_bound; lia).
  eapply runs_bind; [apply dgram_blk_ok; [by apply ss_port_range|done|done|done|unfold ss_NUM_UD_QPS; lia]|].
  cbv beta. intros cb w1 (q & d & i & pa & Hq & Hlen & Hnd & Hqs & _ & Hold & _ & Er1 & Hd & Hctx & Hport & Hpa).
  eapply runs_bind; [apply (runs_keeps registry); [apply law_frame; constructor|apply law_memset]|].
  cbv beta. intros _ w2 [Eq2 Er2].
  eapply runs_bind.
  { apply (runs_keeps qps); [apply keeps_qps_publish_dgram|].
    apply (publish_dgram_ok junk cb 0 q d i pa); try done; [by rewrite Hnd|by apply ss_client_name_ok]. }
  cbv beta. intros _ w3 [(v' & Er3 & Hv') Eq3].
  eapply runs_bind; [apply (runs_keeps qps); [apply keeps_qps_wait_qp|];
    apply (wait_qp_ok fuel _ v); [by apply ss_server_name_ok| |done]|].
  { by rewrite Er3, lookup_insert_ne, Er2, Er1. }
  cbv beta. intros a w4 [[-> Er4] Eq4].
  eapply runs_bind; [apply law_create_ah|]. cbv beta. intros ah w5 (Hah & Er5 & Eq5).
  apply runs_assert; [by apply negb_true_iff, Z.eqb_neq|]. apply runs_ret. exists cb, ah, q, v'.
  assert (Hsing : dgram_qp cb = [q]).
  { destruct (dgram_qp cb) as [|x [|]]; simpl in Hlen; try lia. by injection Hq as ->. }
  assert (Eqs : qps w5 = qps w1) by congruence.
  split; [done|]. split; [done|]. split; [done|].
  split; [rewrite Eqs; apply Hqs; rewrite Hsing; left|]. split; [by rewrite Eqs|].
  split; [by rewrite Er5, Er4, Er3, Er2, Er1|]. split; apply Hv'.
Qed.
End SsSetupProof.

(** ** A client finds its server *)

(** Server thread [c mod 10] completes its set-up (none of the 128 RECVs
    that it posts finds its receive queue full), and client thread [c], which
    starts afterwards with a postlist that its assertions admit, completes
    its set-up, too:
    it holds the number of the queue pair on which the server receives and an
    address handle; all queue pairs of both are in RTS; and the registry has
    the number of the client's queue pair. *)
Theorem ss_rendezvous {W : Type} `{HerdLaws W} (ps pc : ss_params) (c fuel : nat) (junk junk' : list Z) (w : W) :
  sp_id pc = Z.of_nat c → (c < 70)%nat → 7 * sp_postlist pc < 128 → sp_id ps = Z.of_nat (c mod 10) →
  length junk = 224%nat → length junk' = 224%nat → ports_enabled 0 2 →
  (size (qps w) + 4 ≤ qp_limit)%nat →
  runs (let* scb := ss_server_setup junk ps in
        let* r := ss_client_setup (S fuel) junk' pc in eff_ret (scb, r)) w (λ x w',
    ∃ scb cb a ah s1 s2 s3 q v, x = (scb, (cb, a, ah)) ∧ ah ≠ 0 ∧
      dgram_qp scb = [s1; s2; s3] ∧ dgram_qp cb = [q] ∧ at_qpn a = qpn_of s1 ∧
      (∀ x, x ∈ [s1; s2; s3; q] → qps w' !! x = Some (QpInfo IBV_QPT_UD IBV_QPS_RTS (0, 0))) ∧
      registry w' !! ss_name_client (sp_id pc) = Some v ∧ at_qpn (attr_of_bytes v) = qpn_of q).
Proof.
  intros Hidc Hc Hpl Hids Hj Hj' Hports Hlim.
  assert (Hcm : (c mod 10 < 10)%nat) by (apply Nat.mod_upper_bound; lia).
  eapply runs_bind; [apply (ss_server_setup_ok junk ps (c mod 10)); (done || lia)|].
  cbv beta. intros scb w1 (s1 & v & Hs1 & Hlen & Hsz & Hqs & Er1 & Hvl & Hvq).
  eapply runs_bind; [apply (ss_client_setup_ok fuel junk' pc c v); try done; [by rewrite Er1, lookup_insert_eq|lia]|].
  cbv beta. intros r w2 (cb & ah & q & v' & -> & Hah & Hq & Hqq & Hold & Er2 & Hvl' & Hvq').
  apply runs_ret. destruct (dgram_qp scb) as [|x1 [|s2 [|s3 [|]]]] eqn:Edq; try done. injection Hs1 as ->.
  exists scb, cb, (attr_of_bytes v), ah, s1, s2, s3, q, v'. do 2 (split; [done|]). split; [done|]. split; [done|].
  split; [done|]. split; [|split; [by rewrite Hidc, Er2, lookup_insert_eq|done]].
  intros x Hx. change [s1; s2; s3; q] with ([s1; s2; s3] ++ [q]) in Hx.
  apply elem_of_app in Hx as [Hx| ->%list_elem_of_singleton]; [|done].
  rewrite Hold; rewrite Hqs by done; done.
Qed.

Lemma ss_rendezvous_witness :
  runs (let* scb := ss_server_setup (replicate 224 0) (SsParams 5 1 18 0) in
        let* r := ss_client_setup 1 (replicate 224 255) (SsParams 15 1 18 14) in eff_ret (scb, r)) sim0 (λ x w',
    ∃ scb cb a ah s1 s2 s3 q v, x = (scb, (cb, a, ah)) ∧ ah ≠ 0 ∧
      dgram_qp scb = [s1; s2; s3] ∧ dgram_qp cb = [q] ∧ at_qpn a = qpn_of s1 ∧
      (∀ x, x ∈ [s1; s2; s3; q] → qps w' !! x = Some (QpInfo IBV_QPT_UD IBV_QPS_RTS (0, 0))) ∧
      registry w' !! ss_name_client 15 = Some v ∧ at_qpn (attr_of_bytes v) = qpn_of q).
Proof.
  apply (ss_rendezvous (SsParams 5 1 18 0) (SsParams 15 1 18 14) 15 0);
    [reflexivity|lia|reflexivity..|exact sim_ports_enabled|apply (bool_decide_unpack _); vm_compute; reflexivity].
Defined.
