(* ===== verification/WsSeq.v ===== *)
(** * The WRITE/SEND sequencer (src/ws-sequencer)

    The sequencer with the data path of HERD: clients write a non-zero word
    into the request region, workers poll it in passes, take as many numbers
    from the shared counter as they found requests and answer with
    datagrams.  The work requests, the lists of the ports and the client
    indices are those of [Herd] ([main.h] defines the same values except for
    the ones below); the region holds words of type [long long]. *)

From stdpp Require Import base gmap list numbers.
From Stdlib Require Import ZArith Lia Ascii.
From S2P Require Import Prelude Mica HrdUtil Signal Herd.

Definition ws_NUM_WORKERS : Z := 6.
Definition ws_NUM_UD_QPS : Z := 3.
Definition ws_RR_SIZE : Z := 2 * 1024 * 1024.

Abbreviation ws_region := (gmap Z Z).
Definition ws_get (rr : ws_region) (off : Z) : res Z :=
  in_bounds ((0 <=? off) && (off <? ws_RR_SIZE / 8)) ;! Ok (default 0 (rr !! off)).

(** ** Worker *)

(** The local variables of [run_worker].  [q_sgl] holds for each entry the
    index of the element of [resp_buf] it points to and the length. *)
Record ws_worker : Type := WsWorker
  { q_ws : list Z; q_cb_i : Z; q_clt_i : Z; q_poll_i : Z; q_broke : bool; q_wr_i : Z;
    q_nb_new_req : list Z; q_resp_buf : list Z; q_wr : list send_wr; q_sgl : list (Z * Z);
    q_first_send_wr : list (option Z); q_last_send_wr : list (option Z);
    q_nb_tx : list (list Z); q_ud_qp_i : Z;
    q_rolling_iter : Z; q_nb_tx_tot : Z; q_nb_post_send : Z }.

(** [resp], [wrs] and [sges] are what the uninitialised arrays hold. *)
Definition ws_init (resp : list Z) (wrs : list send_wr) (sges : list (Z * Z)) : ws_worker :=
  WsWorker (replicate 70 0) (-1) (-1) 0 false 0 (replicate 4 0) resp wrs sges
    (replicate 4 None) (replicate 4 None) (replicate 4 (replicate 3 0)) 0 0 0 0.

(** Start of an iteration of the outer loop. *)
Definition ws_begin_iter (w : ws_worker) : ws_worker :=
  let reset := M_4 <=? q_rolling_iter w in
  WsWorker (q_ws w) (q_cb_i w) (q_clt_i w) 0 false 0 (replicate 4 0) (q_resp_buf w)
    (q_wr w) (q_sgl w) (q_first_send_wr w) (q_last_send_wr w) (q_nb_tx w) (q_ud_qp_i w)
    (if reset then 0 else q_rolling_iter w) (if reset then 0 else q_nb_tx_tot w)
    (if reset then 0 else q_nb_post_send w).

(** One iteration of the polling loop. *)
Definition ws_poll_step (cfg : worker_cfg) (w : ws_worker) (rr : ws_region)
    : res (ws_worker * ws_region * list act) :=
  let clt := HRD_MOD_ADD (q_clt_i w) NUM_CLIENTS in
  let cb := HRD_MOD_ADD (q_cb_i w) (num_server_ports cfg) in
  let! slot := arr_get (q_ws w) clt in
  let req_offset := OFFSET (wrkr_lid cfg) clt slot in
  let! req := ws_get rr req_offset in
  if req =? 0 then
    Ok (WsWorker (q_ws w) cb clt (q_poll_i w + 1) false (q_wr_i w) (q_nb_new_req w)
          (q_resp_buf w) (q_wr w) (q_sgl w) (q_first_send_wr w) (q_last_send_wr w) (q_nb_tx w)
          (q_ud_qp_i w) (q_rolling_iter w) (q_nb_tx_tot w) (q_nb_post_send w), rr, [])
  else
    let rr := <[req_offset := 0]> rr in
    let! (wrs, first, last) :=
      link_wr (q_wr w) (q_first_send_wr w) (q_last_send_wr w) (q_nb_new_req w) cb (q_wr_i w) in
    let! txs := arr_get (q_nb_tx w) cb in
    let! tx := arr_get txs (q_ud_qp_i w) in
    let! old := arr_get wrs (q_wr_i w) in
    let! new := fill_wr cfg clt (q_wr_i w) tx old in
    let! wrs := arr_set wrs (q_wr_i w) new in
    let acts := if must_poll tx then [APoll cb (q_ud_qp_i w)] else [] in
    let! ws' := arr_set (q_ws w) clt (HRD_MOD_ADD slot WINDOW_SIZE) in
    let! txs' := arr_upd txs (q_ud_qp_i w) (λ n, n + 1) in
    let! nb_tx' := arr_set (q_nb_tx w) cb txs' in
    let! nb := arr_upd (q_nb_new_req w) cb (λ n, n + 1) in
    let wr_i' := q_wr_i w + 1 in
    let brk := wr_i' =? postlist cfg in
    Ok (WsWorker ws' cb clt (if brk then q_poll_i w else q_poll_i w + 1) brk wr_i' nb
          (q_resp_buf w) wrs (q_sgl w) first last nb_tx' (q_ud_qp_i w)
          (q_rolling_iter w + 1) (q_nb_tx_tot w + 1) (q_nb_post_send w), rr, acts).

Definition ws_polling (w : ws_worker) : bool := negb (q_broke w) && (q_poll_i w <? NUM_CLIENTS).

(** "Compute and fill the counters": [n] iterations from [wr_i] on. *)
Fixpoint ws_fill (n : nat) (base wr_i : Z) (resp : list Z) (sges : list (Z * Z))
    : res (list Z * list (Z * Z)) :=
  match n with
  | O => Ok (resp, sges)
  | S n =>
      let! resp := arr_set resp wr_i (s64 (base + wr_i)) in
      let! sges := arr_set sges wr_i (wr_i, 8) in
      ws_fill n base (wr_i + 1) resp sges
  end.

(** The inline data of the work requests of a list. *)
Fixpoint ws_gather (resp : list Z) (sges : list (Z * Z)) (xs : list send_wr)
    : res (list (send_wr * list Z)) :=
  match xs with
  | [] => Ok []
  | x :: xs =>
      let! (i, len) := arr_get sges (wr_sg_list x) in
      let! v := arr_get resp i in
      let! ms := ws_gather resp sges xs in
      Ok ((x, take (Z.to_nat len) (le_bytes 8 (u64 v))) :: ms)
  end.

(** The loop over the ports, [n] of them left, [i] the next one: the work
    requests, the number of calls of [ibv_post_send], and the calls. *)
Fixpoint ws_post_loop (n : nat) (w : ws_worker) (wrs : list send_wr) (posted i : Z)
    : res (list send_wr * Z * list act) :=
  match n with
  | O => Ok (wrs, posted, [])
  | S n =>
      let! nb := arr_get (q_nb_new_req w) i in
      if nb =? 0 then ws_post_loop n w wrs posted (i + 1)
      else
        let! l := arr_get (q_last_send_wr w) i in
        match l with
        | None => Fault NullDeref
        | Some l =>
            let! wrs := arr_upd wrs l (λ x, set_next x None) in
            let! first := arr_get (q_first_send_wr w) i in
            let! xs := walk wr_next 70 wrs first in
            let! ms := ws_gather (q_resp_buf w) (q_sgl w) xs in
            let! (wrs, posted, acts) := ws_post_loop n w wrs (posted + 1) (i + 1) in
            Ok (wrs, posted, APost i (q_ud_qp_i w) ms :: acts)
        end
  end.

(** The rest of an iteration; [counter] is the shared counter. *)
Definition ws_flush (cfg : worker_cfg) (w : ws_worker) (counter : Z) : res (ws_worker * Z * list act) :=
  if q_wr_i w =? 0 then Ok (w, counter, [])
  else
    let nb_new_req_tot := q_wr_i w in
    let base := counter in
    let counter := s64 (counter + nb_new_req_tot) in
    let! (resp, sges) := ws_fill (Z.to_nat nb_new_req_tot) base 0 (q_resp_buf w) (q_sgl w) in
    let w := WsWorker (q_ws w) (q_cb_i w) (q_clt_i w) (q_poll_i w) (q_broke w) (q_wr_i w) (q_nb_new_req w)
               resp (q_wr w) sges (q_first_send_wr w) (q_last_send_wr w) (q_nb_tx w) (q_ud_qp_i w)
               (q_rolling_iter w) (q_nb_tx_tot w) (q_nb_post_send w) in
    let! (wrs, posted, acts) :=
      ws_post_loop (Z.to_nat (num_server_ports cfg)) w (q_wr w) (q_nb_post_send w) 0 in
    Ok (WsWorker (q_ws w) (q_cb_i w) (q_clt_i w) (q_poll_i w) (q_broke w) (q_wr_i w) (q_nb_new_req w)
          resp wrs sges (q_first_send_wr w) (q_last_send_wr w) (q_nb_tx w)
          (HRD_MOD_ADD (q_ud_qp_i w) ws_NUM_UD_QPS) (q_rolling_iter w) (q_nb_tx_tot w) posted,
        counter, acts).

(** ** Client *)

(** The calls of a client; a RECV is given by the offset in [dgram_buf] and
    its length, a write by its flag and the index of the word. *)
Inductive ws_clt_act : Type :=
| WPostRecv (bufs : list (Z * Z))
| WPollRecv (n : Z)
| WPollSend
| WWrite (signaled : bool) (off val : Z).

Record ws_client : Type := WsClient { k_ws : list Z; k_rolling_iter : Z; k_nb_tx : Z }.

(** [run_client] before its loop: the variables and the initial RECVs. *)
Definition ws_client_init : ws_client := WsClient (replicate 6 0) 0 0.
Definition ws_initial_recvs : list ws_clt_act :=
  map (λ i, WPostRecv [(Z.of_nat i * 64, 64)]) (seq 0 32).

(** One iteration of [while (1)]. *)
Definition ws_client_iter (clt_gid : Z) (c : ws_client) : res (ws_client * list ws_clt_act) :=
  let rolling := if K_512 <=? k_rolling_iter c then 0 else k_rolling_iter c in
  let full := (k_nb_tx c mod WINDOW_SIZE =? 0) && (0 <? k_nb_tx c) in
  let refill := if full
    then [WPostRecv (map (λ i, (Z.of_nat i * 64, 4096)) (seq 0 32)); WPollRecv WINDOW_SIZE] else [] in
  let wn := k_nb_tx c mod ws_NUM_WORKERS in
  let poll := if must_poll (k_nb_tx c) then [WPollSend] else [] in
  let! slot := arr_get (k_ws c) wn in
  let write := WWrite (is_signaled (k_nb_tx c)) (OFFSET wn clt_gid slot) 1 in
  let! ws := arr_set (k_ws c) wn (HRD_MOD_ADD slot WINDOW_SIZE) in
  Ok (WsClient ws (rolling + 1) (k_nb_tx c + 1), refill ++ poll ++ [write]).
