(* ===== verification/WsProof.v ===== *)
(** * The WRITE/SEND sequencer: invariant of a worker

    As for HERD, [clts] is the list of clients whose requests are in the
    batch; here the send queues rotate, so the counts of requests are kept
    for each port and queue pair. *)

From stdpp Require Import base gmap list numbers.
From Stdlib Require Import ZArith Lia ZifyBool.
From S2P Require Import Prelude Mica HrdUtil Signal Herd HerdProof HerdEnv SsProof WsSeq.

(** Configurations that pass the assertions of [run_worker]. *)
Record ws_cfg_ok (cfg : worker_cfg) : Prop := {
  wc_lid : 0 ≤ wrkr_lid cfg < ws_NUM_WORKERS;
  wc_ports : 1 ≤ num_server_ports cfg < MAX_SERVER_PORTS;
  wc_div : NUM_CLIENTS mod num_server_ports cfg = 0;
  wc_postlist : 1 ≤ postlist cfg ≤ UNSIG_BATCH;
  wc_ah : length (ah cfg) = 70%nat;
  wc_qpn : length (clt_qpn cfg) = 70%nat
}.

(** The number of the next request on queue pair [u] of port [p]. *)
Definition tx_of (nsp : Z) (tx0 : Z → Z → Z) (ud : Z) (clts : list Z) (p u : Z) : Z :=
  tx0 p u + (if u =? ud then Z.of_nat (length (idx nsp p clts)) else 0).

Record qinv (cfg : worker_cfg) (tx0 : Z → Z → Z) (clts : list Z) (w : ws_worker) : Prop := {
  qi_ws : length (q_ws w) = 70%nat;
  qi_ws_range : Forall (λ s, 0 ≤ s < WINDOW_SIZE) (q_ws w);
  qi_pos : q_clt_i w = -1 ∧ q_cb_i w = -1 ∨
           0 ≤ q_clt_i w < NUM_CLIENTS ∧ q_cb_i w = q_clt_i w mod num_server_ports cfg;
  qi_poll : 0 ≤ q_poll_i w;
  qi_wr_i : q_wr_i w = Z.of_nat (length clts);
  qi_post : Z.of_nat (length clts) ≤ postlist cfg;
  qi_broke : q_broke w = (Z.of_nat (length clts) =? postlist cfg);
  qi_clts : Forall (λ c, 0 ≤ c < NUM_CLIENTS) clts;
  qi_resp : length (q_resp_buf w) = 70%nat;
  qi_wrs : length (q_wr w) = 70%nat;
  qi_wr : ∀ k c, clts !! k = Some c → ∃ x, q_wr w !! k = Some x ∧
            let p := c mod num_server_ports cfg in
            wr_for cfg c (tx_of (num_server_ports cfg) tx0 (q_ud_qp_i w) (take k clts) p (q_ud_qp_i w)) k x;
  qi_sgl : length (q_sgl w) = 70%nat;
  qi_first : length (q_first_send_wr w) = 4%nat;
  qi_last : length (q_last_send_wr w) = 4%nat;
  qi_new : length (q_nb_new_req w) = 4%nat;
  qi_txs : length (q_nb_tx w) = 4%nat;
  qi_ud : 0 ≤ q_ud_qp_i w < ws_NUM_UD_QPS;
  qi_port : ∀ p, 0 ≤ p < num_server_ports cfg →
    let ix := idx (num_server_ports cfg) p clts in
    q_nb_new_req w !! Z.to_nat p = Some (Z.of_nat (length ix)) ∧
    q_nb_tx w !! Z.to_nat p =
      Some (map (tx_of (num_server_ports cfg) tx0 (q_ud_qp_i w) clts p) [0; 1; 2]) ∧
    heads (q_first_send_wr w) (q_last_send_wr w) (Z.to_nat p) ix ∧
    links (q_wr w) ix
}.

Lemma tx_row nsp tx0 ud clts p u : 0 ≤ u < ws_NUM_UD_QPS →
  map (tx_of nsp tx0 ud clts p) [0; 1; 2] !! Z.to_nat u = Some (tx_of nsp tx0 ud clts p u).
Proof.
  unfold ws_NUM_UD_QPS. intros Hu. assert (Hc : u = 0 ∨ u = 1 ∨ u = 2) by lia.
  by destruct Hc as [->|[->| ->]].
Qed.

Lemma tx_of_other nsp tx0 ud clts c p u : c mod nsp ≠ p →
  tx_of nsp tx0 ud (clts ++ [c]) p u = tx_of nsp tx0 ud clts p u.
Proof. intros H. unfold tx_of. rewrite idx_snoc, (proj2 (Z.eqb_neq _ _) H), app_nil_r. done. Qed.

Lemma tx_of_snoc nsp tx0 ud clts c u :
  tx_of nsp tx0 ud (clts ++ [c]) (c mod nsp) u =
  tx_of nsp tx0 ud clts (c mod nsp) u + (if u =? ud then 1 else 0).
Proof. unfold tx_of. rewrite idx_snoc, Z.eqb_refl, length_app. simpl. destruct (u =? ud); lia. Qed.

(** The row of counts after one more request on queue pair [ud]. *)
Lemma tx_row_snoc nsp tx0 ud clts c : 0 ≤ ud < ws_NUM_UD_QPS →
  <[Z.to_nat ud := tx_of nsp tx0 ud clts (c mod nsp) ud + 1]>
    (map (tx_of nsp tx0 ud clts (c mod nsp)) [0; 1; 2]) =
  map (tx_of nsp tx0 ud (clts ++ [c]) (c mod nsp)) [0; 1; 2].
Proof.
  unfold ws_NUM_UD_QPS. intros Hu. cbn [map]. rewrite !tx_of_snoc.
  assert (Hc : ud = 0 ∨ ud = 1 ∨ ud = 2) by lia.
  destruct Hc as [->|[->| ->]]; cbn [Z.eqb]; rewrite ?Z.add_0_r; done.
Qed.

Lemma ws_get_Ok rr off : 0 ≤ off < ws_RR_SIZE / 8 → ws_get rr off = Ok (default 0 (rr !! off)).
Proof. intros H. unfold ws_get. by rewrite (proj2 (andb_true_iff _ _)) by lia. Qed.

Lemma ws_OFFSET_bounds wn cn s :
  0 ≤ wn < ws_NUM_WORKERS → 0 ≤ cn < NUM_CLIENTS → 0 ≤ s < WINDOW_SIZE →
  0 ≤ OFFSET wn cn s < ws_RR_SIZE / 8.
Proof.
  unfold OFFSET, ws_NUM_WORKERS, NUM_CLIENTS, WINDOW_SIZE. intros.
  change (ws_RR_SIZE / 8) with 262144. lia.
Qed.

Lemma ws_polling_inv cfg tx0 clts w : qinv cfg tx0 clts w → ws_polling w = true →
  q_broke w = false ∧ Z.of_nat (length clts) < postlist cfg.
Proof.
  intros Hw Hp. unfold ws_polling in Hp. apply andb_true_iff in Hp as [Hb%negb_true_iff _].
  pose proof (qi_broke _ _ _ _ Hw) as Hbr. pose proof (qi_post _ _ _ _ Hw). rewrite Hb in Hbr. lia.
Qed.

(** ** One polling step *)
Section PollStep.
Context (cfg : worker_cfg) (Hc : ws_cfg_ok cfg) (tx0 : Z → Z → Z) (clts : list Z) (w : ws_worker).
Context (Hw : qinv cfg tx0 clts w) (Hp : ws_polling w = true) (rr : ws_region).
Local Abbreviation c := (HRD_MOD_ADD (q_clt_i w) NUM_CLIENTS).
Local Abbreviation nsp := (num_server_ports cfg).
Local Abbreviation p := (c mod nsp).
Local Abbreviation ud := (q_ud_qp_i w).
Local Abbreviation tx := (tx_of nsp tx0 ud clts p ud).

Lemma ws_cycle : 0 ≤ c < NUM_CLIENTS ∧ HRD_MOD_ADD (q_cb_i w) nsp = p.
Proof using Hc Hw.
  apply cycle_ports; [apply (wc_ports _ Hc)|apply (wc_div _ Hc)|]. apply (qi_pos _ _ _ _ Hw).
Qed.

Lemma ws_port_range : 0 ≤ p < nsp ∧ nsp < 4.
Proof using Hc.
  clear Hp. pose proof (wc_ports _ Hc). unfold MAX_SERVER_PORTS in *. split; [apply Z.mod_pos_bound|]; lia.
Qed.

Lemma ws_slot : ∃ s, q_ws w !! Z.to_nat c = Some s ∧ 0 ≤ s < WINDOW_SIZE ∧
  arr_get (q_ws w) c = Ok s ∧
  ws_get rr (OFFSET (wrkr_lid cfg) c s) = Ok (default 0 (rr !! OFFSET (wrkr_lid cfg) c s)).
Proof using Hc Hw.
  clear Hp. destruct ws_cycle as [Hr _].
  destruct (arr_get_lt (q_ws w) c) as (s & Hs & Hl).
  { rewrite (qi_ws _ _ _ _ Hw). unfold NUM_CLIENTS in *. lia. }
  pose proof (Forall_lookup_1 _ _ _ _ (qi_ws_range _ _ _ _ Hw) Hl) as Hsr.
  exists s. split; [done|]. split; [done|]. split; [done|].
  apply ws_get_Ok, ws_OFFSET_bounds; auto. apply Hc.
Qed.

(** No request: the pass goes on with the next client. *)
Lemma ws_poll_skip s : q_ws w !! Z.to_nat c = Some s →
  default 0 (rr !! OFFSET (wrkr_lid cfg) c s) = 0 →
  ∃ w', ws_poll_step cfg w rr = Ok (w', rr, []) ∧ qinv cfg tx0 clts w' ∧ q_clt_i w' = c ∧
    q_ws w' = q_ws w ∧ q_ud_qp_i w' = ud ∧ q_wr_i w' = q_wr_i w.
Proof using Hc Hw Hp.
  intros Hs Hop. destruct ws_slot as (s' & Hs' & Hsr & Hg & Hrr).
  assert (s' = s) as -> by congruence.
  destruct ws_cycle as [Hcr Hcb]. destruct (ws_polling_inv _ _ _ _ Hw Hp) as (Hbr & Hlt).
  unfold ws_poll_step. rewrite Hg. cbn [res_bind]. rewrite Hrr. cbn [res_bind].
  rewrite Hop, Z.eqb_refl. eexists. split; [reflexivity|].
  split; [|done]. destruct Hw. constructor; try done; cbn; by (lia || (right; rewrite <-Hcb)).
Qed.

(** What the step computes when it finds a request. *)
Lemma ws_poll_eq s : q_ws w !! Z.to_nat c = Some s →
  default 0 (rr !! OFFSET (wrkr_lid cfg) c s) ≠ 0 →
  ∃ wrs first last x,
    link_wr (q_wr w) (q_first_send_wr w) (q_last_send_wr w) (q_nb_new_req w) p
      (Z.of_nat (length clts)) = Ok (wrs, first, last) ∧
    wr_for cfg c tx (length clts) x ∧
    let brk := Z.of_nat (length clts) + 1 =? postlist cfg in
    ws_poll_step cfg w rr = Ok (
      WsWorker (<[Z.to_nat c := HRD_MOD_ADD s WINDOW_SIZE]> (q_ws w)) p c
        (if brk then q_poll_i w else q_poll_i w + 1) brk (Z.of_nat (length clts) + 1)
        (<[Z.to_nat p := Z.of_nat (length (idx nsp p clts)) + 1]> (q_nb_new_req w))
        (q_resp_buf w) (<[length clts := x]> wrs) (q_sgl w) first last
        (<[Z.to_nat p := map (tx_of nsp tx0 ud (clts ++ [c]) p) [0; 1; 2]]> (q_nb_tx w)) ud
        (q_rolling_iter w + 1) (q_nb_tx_tot w + 1) (q_nb_post_send w),
      <[OFFSET (wrkr_lid cfg) c s := 0]> rr,
      if must_poll tx then [APoll p ud] else []).
Proof using Hc Hw Hp.
  intros Hs Hop. destruct ws_slot as (s' & Hs' & Hsr & Hg & Hrr).
  assert (s' = s) as -> by congruence.
  destruct ws_cycle as [Hcr Hcb]. destruct (ws_polling_inv _ _ _ _ Hw Hp) as (Hbr & Hlt).
  pose proof (wc_postlist _ Hc) as Hpl. unfold UNSIG_BATCH in Hpl.
  assert (Hc70 : 0 ≤ c < 70) by exact Hcr. destruct ws_port_range as [Hpr Hn4].
  destruct (qi_port _ _ _ _ Hw p Hpr) as (Hnb & Htx & Hhd & Hlk).
  destruct (link_wr_ok (q_wr w) (q_first_send_wr w) (q_last_send_wr w) (q_nb_new_req w) (Z.to_nat p)
    (length clts) (idx nsp p clts)) as (wrs & first & last & Hlink & Hlw & _); auto.
  { rewrite (qi_first _ _ _ _ Hw). lia. }
  { rewrite (qi_last _ _ _ _ Hw). lia. }
  { apply idx_NoDup. }
  { intros i Hi. apply idx_lt in Hi. rewrite (qi_wrs _ _ _ _ Hw). lia. }
  rewrite Z2Nat.id in Hlink by lia. rewrite (qi_wrs _ _ _ _ Hw) in Hlw.
  destruct (arr_get_lt (ah cfg) c) as (a & Ha & Ha'); [rewrite (wc_ah _ Hc); lia|].
  destruct (arr_get_lt (clt_qpn cfg) c) as (q & Hq & Hq'); [rewrite (wc_qpn _ Hc); lia|].
  destruct (lookup_lt_is_Some_2 wrs (length clts)) as [old Hold]; [lia|].
  exists wrs, first, last, (SendWr (wr_next old) a q HRD_DEFAULT_QKEY IBV_WR_SEND_WITH_IMM 1
    (Z.of_nat (length clts)) (wrkr_lid cfg)
    ((if is_signaled tx then IBV_SEND_SIGNALED else 0) .| IBV_SEND_INLINE)).
  split; [exact Hlink|]. split; [repeat split; done|].
  cbv zeta. pose proof (qi_ud _ _ _ _ Hw) as Hud. pose proof (tx_row nsp tx0 ud clts p ud Hud) as Hrow.
  unfold ws_poll_step. rewrite Hg. cbn [res_bind]. rewrite Hrr. cbn [res_bind].
  rewrite (proj2 (Z.eqb_neq _ _) Hop), Hcb, (qi_wr_i _ _ _ _ Hw).
  rewrite Hlink. cbn [res_bind].
  rewrite (arr_get_Z _ _ _ (proj1 Hpr) Htx). cbn [res_bind].
  rewrite (arr_get_Z _ _ _ (proj1 Hud) Hrow). cbn [res_bind].
  rewrite (arr_get_Ok _ _ _ Hold). cbn [res_bind].
  unfold fill_wr at 1. rewrite Ha. cbn [res_bind]. rewrite Hq. cbn [res_bind].
  rewrite arr_set_Ok by lia. cbn [res_bind].
  rewrite arr_set_Ok by (rewrite (qi_ws _ _ _ _ Hw); lia). cbn [res_bind].
  unfold arr_upd. rewrite (arr_get_Z _ _ _ (proj1 Hud) Hrow). cbn [res_bind].
  rewrite (arr_set_Ok (map _ _)) by (unfold ws_NUM_UD_QPS in Hud; cbn [map length]; lia). cbn [res_bind].
  rewrite tx_row_snoc by done.
  rewrite arr_set_Ok by (rewrite (qi_txs _ _ _ _ Hw); lia). cbn [res_bind].
  rewrite (arr_get_Z _ _ _ (proj1 Hpr) Hnb). cbn [res_bind].
  rewrite arr_set_Ok by (rewrite (qi_new _ _ _ _ Hw); lia). cbn [res_bind].
  rewrite !Nat2Z.id. reflexivity.
Qed.

(** A request: it is taken and joins the batch. *)
Lemma ws_poll_hit s : q_ws w !! Z.to_nat c = Some s →
  default 0 (rr !! OFFSET (wrkr_lid cfg) c s) ≠ 0 →
  ∃ w', ws_poll_step cfg w rr = Ok (w', <[OFFSET (wrkr_lid cfg) c s := 0]> rr,
      if must_poll tx then [APoll p ud] else []) ∧
    qinv cfg tx0 (clts ++ [c]) w' ∧ q_clt_i w' = c ∧
    q_ws w' = <[Z.to_nat c := HRD_MOD_ADD s WINDOW_SIZE]> (q_ws w) ∧ q_ud_qp_i w' = ud ∧
    q_wr_i w' = q_wr_i w + 1.
Proof using Hc Hw Hp.
  intros Hs Hop. destruct (ws_poll_eq s Hs Hop) as (wrs & first & last & x & Hlink & Hx & Hst).
  cbv zeta in Hst. eexists. split; [exact Hst|]. cbn [q_clt_i q_ws q_ud_qp_i q_wr_i].
  split; [|rewrite (qi_wr_i _ _ _ _ Hw); done].
  destruct (ws_polling_inv _ _ _ _ Hw Hp) as (Hbr & Hlt).
  destruct ws_cycle as [Hcr _]. destruct ws_port_range as [Hpr Hn4].
  pose proof (wc_postlist _ Hc) as Hpl. unfold UNSIG_BATCH in Hpl.
  pose proof (Forall_lookup_1 _ _ _ _ (qi_ws_range _ _ _ _ Hw) Hs) as Hsr. cbv beta in Hsr.
  destruct (qi_port _ _ _ _ Hw p Hpr) as (Hnb & Htx & Hhd & Hlk).
  destruct (link_wr_ok (q_wr w) (q_first_send_wr w) (q_last_send_wr w) (q_nb_new_req w) (Z.to_nat p)
    (length clts) (idx nsp p clts)) as (wrs' & first' & last' & Hlink' & Hlw & Hlf & Hll & Hoth & Hhd' & Hlk' & Hlk2 & Hnx); auto.
  { rewrite (qi_first _ _ _ _ Hw). lia. }
  { rewrite (qi_last _ _ _ _ Hw). lia. }
  { apply idx_NoDup. }
  { intros i Hi. apply idx_lt in Hi. rewrite (qi_wrs _ _ _ _ Hw). lia. }
  rewrite Z2Nat.id, Hlink in Hlink' by lia. injection Hlink' as <- <- <-.
  assert (Hidx : idx nsp p (clts ++ [c]) = idx nsp p clts ++ [length clts])
    by (rewrite idx_snoc, Z.eqb_refl; done).
  assert (Hidx' : ∀ q, q ≠ p → idx nsp q (clts ++ [c]) = idx nsp q clts).
  { intros q Hq. rewrite idx_snoc, (proj2 (Z.eqb_neq _ _)) by done. apply app_nil_r. }
  assert (Hout : ∀ q, length clts ∉ idx nsp q clts).
  { intros q Hq. apply idx_lt in Hq. lia. }
  pose proof Hw as Hw0. destruct Hw0.
  constructor; cbn [q_ws q_clt_i q_cb_i q_poll_i q_wr_i q_broke q_resp_buf q_wr q_sgl q_first_send_wr
    q_last_send_wr q_nb_new_req q_nb_tx q_ud_qp_i]; rewrite ?length_insert, ?length_app; cbn [length];
    auto; try congruence; try lia.
  - apply Forall_insert; [done|]. pose proof (mod_add_range s WINDOW_SIZE ltac:(lia) ltac:(done)). lia.
  - destruct (_ =? postlist cfg); lia.
  - apply list.Forall_app. split; [done|]. by constructor.
  - intros k c' [[Hk Hl]|[Hk <-]]%lookup_snoc_Some.
    + destruct (qi_wr0 k c' Hl) as (y & Hy & Hfor). destruct (Hnx k y Hy) as [n Hn].
      exists (set_next y n). rewrite list_lookup_insert_ne by lia. split; [done|].
      apply wr_for_next. by rewrite take_app_le by lia.
    + exists x. subst k. rewrite list_lookup_insert_eq by lia. split; [done|].
      by rewrite take_app_length.
  - intros q Hq. destruct (decide (q = p)) as [->|Hne].
    + rewrite Hidx, length_app, !list_lookup_insert_eq by lia. cbn [length].
      split; [f_equal; lia|]. split; [done|]. split; [done|]. by apply links_insert_last.
    + destruct (qi_port0 q Hq) as (H1 & H2 & H3 & H4). rewrite Hidx' by done.
      rewrite !list_lookup_insert_ne by lia. split; [done|]. split; [|split].
      * rewrite H2. f_equal. apply map_ext. intros u. by rewrite tx_of_other.
      * intros Hi. destruct (Hoth (Z.to_nat q)) as [-> ->]; [lia|]. by apply H3.
      * apply links_insert; [done|]. apply Hlk2; [|done]. intros i Hi1 Hi2.
        apply elem_of_idx in Hi1 as (? & ? & ?). apply elem_of_idx in Hi2 as (? & ? & ?). congruence.
Qed.
End PollStep.

(** ** Posting the lists *)
Lemma walk_links wrs ix : ∀ fuel, (length ix ≤ fuel)%nat → links wrs ix →
  (∀ i, i ∈ ix → (i < length wrs)%nat) →
  (∀ l, list.last ix = Some l → ∃ x, wrs !! l = Some x ∧ wr_next x = None) →
  ∃ xs, walk wr_next fuel wrs (Z.of_nat <$> head ix) = Ok xs ∧ Forall2 (λ i x, wrs !! i = Some x) ix xs.
Proof.
  induction ix as [|i ix IH]; intros fuel Hf Hl Hlt Hlast; [exists []; by destruct fuel|].
  destruct fuel as [|fuel]; [simpl in Hf; lia|]. cbn [head fmap option_fmap option_map walk].
  destruct (lookup_lt_is_Some_2 wrs i (Hlt i ltac:(left))) as [x Hx].
  rewrite (arr_get_Ok _ _ _ Hx). cbn [res_bind].
  assert (Hn : wr_next x = Z.of_nat <$> head ix).
  { destruct ix as [|i' ix]; cbn.
    - destruct (Hlast i eq_refl) as (y & Hy & E). congruence.
    - destruct (Hl 0%nat i i' eq_refl eq_refl) as (y & Hy & E). congruence. }
  rewrite Hn. destruct (IH fuel) as (xs & -> & Hxs).
  - simpl in Hf. lia.
  - intros j a b Ha Hb. apply (Hl (S j) a b); done.
  - intros j Hj. apply Hlt. by right.
  - intros l Hl'. apply Hlast. destruct ix; [done|]. by rewrite last_cons_cons.
  - eexists. split; [reflexivity|]. by constructor.
Qed.

Lemma ws_fill_ok n base : ∀ i resp sges, (i + n ≤ length resp)%nat → (i + n ≤ length sges)%nat →
  ∃ resp' sges', ws_fill n base (Z.of_nat i) resp sges = Ok (resp', sges') ∧
    length resp' = length resp ∧ length sges' = length sges ∧
    (∀ j, (i ≤ j < i + n)%nat → resp' !! j = Some (s64 (base + Z.of_nat j)) ∧
       sges' !! j = Some (Z.of_nat j, 8)) ∧
    (∀ j, (j < i)%nat → resp' !! j = resp !! j ∧ sges' !! j = sges !! j).
Proof.
  induction n as [|n IH]; intros i resp sges Hr Hs; cbn [ws_fill].
  { eexists _, _. split; [reflexivity|]. do 2 (split; [done|]). split; [intros; lia|done]. }
  rewrite !arr_set_Ok by lia. cbn [res_bind]. rewrite !Nat2Z.id.
  replace (Z.of_nat i + 1) with (Z.of_nat (S i)) by lia.
  match goal with |- context [ws_fill n base _ ?r ?s] =>
    destruct (IH (S i) r s) as (r' & s' & E & Hlr & Hls & Hin & Hout); [rewrite length_insert; lia..|] end.
  rewrite E. eexists _, _. split; [reflexivity|]. rewrite !length_insert in Hlr. rewrite !length_insert in Hls.
  split; [done|]. split; [done|]. split.
  - intros j Hj. destruct (decide (j = i)) as [->|]; [|apply Hin; lia].
    destruct (Hout i ltac:(lia)) as [-> ->]. by rewrite !list_lookup_insert_eq by lia.
  - intros j Hj. destruct (Hout j ltac:(lia)) as [-> ->]. by rewrite !list_lookup_insert_ne by lia.
Qed.

(** The work requests of a batch, as the polling loop leaves them. *)
Record wrs_ok (cfg : worker_cfg) (tx0 : Z → Z → Z) (ud : Z) (clts : list Z) (wrs : list send_wr) : Prop := {
  wo_len : length wrs = 70%nat;
  wo_wr : ∀ k c, clts !! k = Some c → ∃ x, wrs !! k = Some x ∧
    let p := c mod num_server_ports cfg in
    wr_for cfg c (tx_of (num_server_ports cfg) tx0 ud (take k clts) p ud) k x;
  wo_links : ∀ p, 0 ≤ p < num_server_ports cfg → links wrs (idx (num_server_ports cfg) p clts)
}.

Lemma wrs_ok_end cfg tx0 ud clts wrs p l x :
  wrs_ok cfg tx0 ud clts wrs → list.last (idx (num_server_ports cfg) p clts) = Some l → wrs !! l = Some x →
  wrs_ok cfg tx0 ud clts (<[l := set_next x None]> wrs).
Proof.
  intros Hw Hl Hx. pose proof (lookup_lt_Some _ _ _ Hx) as Hlt.
  pose proof (last_in _ _ Hl) as Hin. destruct Hw. constructor.
  - by rewrite length_insert.
  - intros k c Hk. destruct (wo_wr0 k c Hk) as (y & Hy & Hf).
    destruct (decide (k = l)) as [->|Hne].
    + rewrite list_lookup_insert_eq by done. eexists. split; [done|]. apply wr_for_next. congruence.
    + rewrite list_lookup_insert_ne by done. eauto.
  - intros q Hq. destruct (decide (q = p)) as [->|Hne].
    + destruct (exists_last (l := idx (num_server_ports cfg) p clts)) as (ix & l' & E);
        [intros E; by rewrite E in Hl|]. specialize (wo_links0 p Hq).
      rewrite E in *. rewrite last_snoc in Hl. injection Hl as ->.
      apply links_insert_last; [|done]. pose proof (idx_NoDup (num_server_ports cfg) p clts) as Hnd.
      rewrite E in Hnd. apply list.NoDup_app in Hnd as (_ & Hnd & _).
      intros Hi. apply (Hnd _ Hi). by apply list_elem_of_singleton.
    + apply links_insert; [|by apply wo_links0]. intros Hi.
      apply elem_of_idx in Hin as (? & ? & ?). apply elem_of_idx in Hi as (? & ? & ?). congruence.
Qed.

(** The message with number [base + i], for client [i] of the batch. *)
Definition ws_msg (cfg : worker_cfg) (tx0 : Z → Z → Z) (ud : Z) (clts : list Z) (base : Z) (i : nat)
    (m : send_wr * list Z) : Prop :=
  ∃ c, clts !! i = Some c ∧ m.2 = le_bytes 8 (u64 (s64 (base + Z.of_nat i))) ∧
    let p := c mod num_server_ports cfg in
    wr_for cfg c (tx_of (num_server_ports cfg) tx0 ud (take i clts) p ud) i m.1.

Lemma ws_gather_ok resp sges base n ix xs :
  (∀ j, (j < n)%nat → resp !! j = Some (s64 (base + Z.of_nat j)) ∧ sges !! j = Some (Z.of_nat j, 8)) →
  Forall2 (λ i x, (i < n)%nat ∧ wr_sg_list x = Z.of_nat i) ix xs →
  ∃ ms, ws_gather resp sges xs = Ok ms ∧ map fst ms = xs ∧
    map snd ms = map (λ i, le_bytes 8 (u64 (s64 (base + Z.of_nat i)))) ix.
Proof.
  intros Hin. induction 1 as [|i x ix xs [Hi Hsg] _ IH]; [by exists []|]. cbn [ws_gather].
  destruct (Hin i Hi) as [Hr Hs]. rewrite Hsg, (arr_get_Ok _ _ _ Hs). cbn [res_bind].
  rewrite (arr_get_Ok _ _ _ Hr). cbn [res_bind]. destruct IH as (ms & -> & H1 & H2).
  eexists. split; [reflexivity|]. cbn [map fst snd]. split; [by f_equal|]. by f_equal.
Qed.

Fixpoint ws_posts (nsp ud : Z) (clts : list Z) (msgs : Z → list (send_wr * list Z)) (n : nat) (i : Z)
    : list act :=
  match n with
  | O => []
  | S n =>
      (if decide (idx nsp i clts = []) then [] else [APost i ud (msgs i)]) ++
      ws_posts nsp ud clts msgs n (i + 1)
  end.

Lemma ws_posts_ext nsp ud clts msgs msgs' n : ∀ i, (∀ j, i ≤ j → msgs j = msgs' j) →
  ws_posts nsp ud clts msgs n i = ws_posts nsp ud clts msgs' n i.
Proof.
  induction n as [|n IH]; intros i Hm; [done|]. cbn [ws_posts]. rewrite Hm by lia.
  f_equal. apply IH. intros j Hj. apply Hm. lia.
Qed.

(** Work requests walked along a list, with their data. *)
Lemma ws_msgs_ok cfg tx0 ud clts base wrs ix xs ms : wrs_ok cfg tx0 ud clts wrs →
  (∀ i, i ∈ ix → (i < length clts)%nat) → Forall2 (λ i x, wrs !! i = Some x) ix xs → map fst ms = xs →
  map snd ms = map (λ i, le_bytes 8 (u64 (s64 (base + Z.of_nat i)))) ix →
  Forall2 (ws_msg cfg tx0 ud clts base) ix ms.
Proof.
  intros Hw Hlt Hf. revert ms. induction Hf as [|i x ix xs Hx Hf IH]; intros ms H1 H2.
  { apply map_eq_nil in H1 as ->. constructor. }
  destruct ms as [|[y d] ms]; [done|]. cbn [map fst snd] in H1, H2. injection H1 as <- H1. injection H2 as Hd H2.
  constructor; [|apply IH; [intros; apply Hlt; by right|done|done]].
  destruct (lookup_lt_is_Some_2 clts i (Hlt i ltac:(left))) as [c Hc]. exists c. split; [done|]. split; [done|].
  destruct (wo_wr _ _ _ _ _ Hw i c Hc) as (y' & Hy' & Hfor). by assert (y' = y) as -> by congruence.
Qed.

Section Flush.
Context (cfg : worker_cfg) (Hc : ws_cfg_ok cfg) (tx0 : Z → Z → Z) (clts : list Z) (base : Z) (w : ws_worker).
Local Abbreviation nsp := (num_server_ports cfg).
Local Abbreviation ud := (q_ud_qp_i w).
Context (Hlen : (length clts ≤ 70)%nat).
Context (Hport : ∀ p, 0 ≤ p < nsp →
  q_nb_new_req w !! Z.to_nat p = Some (Z.of_nat (length (idx nsp p clts))) ∧
  heads (q_first_send_wr w) (q_last_send_wr w) (Z.to_nat p) (idx nsp p clts)).
Context (Hbuf : ∀ j, (j < length clts)%nat →
  q_resp_buf w !! j = Some (s64 (base + Z.of_nat j)) ∧ q_sgl w !! j = Some (Z.of_nat j, 8)).

Lemma ws_post_loop_ok : ∀ n wrs posted i, wrs_ok cfg tx0 ud clts wrs → 0 ≤ i → i + Z.of_nat n = nsp →
  ∃ wrs' posted' msgs, ws_post_loop n w wrs posted i = Ok (wrs', posted', ws_posts nsp ud clts msgs n i) ∧
    wrs_ok cfg tx0 ud clts wrs' ∧
    ∀ p, i ≤ p < nsp → Forall2 (ws_msg cfg tx0 ud clts base) (idx nsp p clts) (msgs p).
Proof using Hlen Hport Hbuf.
  induction n as [|n IH]; intros wrs posted i Hw Hi Hn.
  { exists wrs, posted, (λ _, []). split; [done|]. split; [done|lia]. }
  cbn [ws_post_loop ws_posts]. destruct (Hport i ltac:(lia)) as (Hnb & Hh).
  rewrite (arr_get_Z _ _ _ Hi Hnb). cbn [res_bind].
  destruct (decide (idx nsp i clts = [])) as [E|Hne].
  - rewrite E. cbn [length Z.of_nat Z.eqb app].
    destruct (IH wrs posted (i + 1) Hw ltac:(lia) ltac:(lia)) as (wrs' & np & msgs & -> & Hw' & Hm).
    exists wrs', np, (λ p, if decide (p = i) then [] else msgs p). split.
    + do 2 f_equal. apply ws_posts_ext. intros j Hj. by rewrite decide_False by lia.
    + split; [done|]. intros p Hpr. destruct (decide (p = i)) as [->|]; [by rewrite E|]. apply Hm. lia.
  - rewrite (proj2 (Z.eqb_neq _ _)) by (destruct (idx _ _ _); [done|simpl; lia]).
    destruct (Hh Hne) as [Hf Hl]. destruct (list.last _) as [l|] eqn:El; [|by apply last_None in El].
    cbn [fmap option_fmap option_map] in Hl. rewrite (arr_get_Z _ _ _ Hi Hl). cbn [res_bind].
    destruct (lookup_lt_is_Some_2 clts l (idx_lt _ _ _ _ (last_in _ _ El))) as [cl Hcl].
    destruct (wo_wr _ _ _ _ _ Hw l cl Hcl) as (x & Hx & _).
    unfold arr_upd. rewrite (arr_get_Ok _ _ _ Hx). cbn [res_bind].
    pose proof (lookup_lt_Some _ _ _ Hx) as Hlw. rewrite arr_set_Ok by lia. cbn [res_bind].
    rewrite Nat2Z.id, (arr_get_Z _ _ _ Hi Hf). cbn [res_bind].
    pose proof (wrs_ok_end _ _ _ _ _ _ _ _ Hw El Hx) as Hw1. set (wrs1 := <[l := set_next x None]> wrs) in *.
    pose proof (idx_length nsp i clts) as Hil.
    destruct (walk_links wrs1 (idx nsp i clts) 70) as (xs & -> & Hxs).
    { lia. } { apply (wo_links _ _ _ _ _ Hw1). lia. }
    { intros j Hj%idx_lt. rewrite (wo_len _ _ _ _ _ Hw1). lia. }
    { intros l' Hl'. rewrite El in Hl'. injection Hl' as <-. exists (set_next x None).
      split; [|done]. subst wrs1. by rewrite list_lookup_insert_eq by done. }
    cbn [res_bind].
    destruct (ws_gather_ok (q_resp_buf w) (q_sgl w) base (length clts) (idx nsp i clts) xs Hbuf)
      as (ms & -> & Hms1 & Hms2).
    { eapply Forall2_impl; [|exact (Forall2_in_l _ _ _ Hxs)]. intros j y (Hj%idx_lt & Hy).
      split; [done|]. destruct (lookup_lt_is_Some_2 clts j Hj) as [cj Hcj].
      destruct (wo_wr _ _ _ _ _ Hw1 j cj Hcj) as (y' & Hy' & Hfor).
      assert (y' = y) as -> by congruence. apply Hfor. }
    cbn [res_bind].
    destruct (IH wrs1 (posted + 1) (i + 1) Hw1 ltac:(lia) ltac:(lia)) as (wrs' & np & msgs & -> & Hw' & Hm).
    cbn [res_bind]. exists wrs', np, (λ p, if decide (p = i) then ms else msgs p). split.
    + rewrite decide_True by done. cbn [app]. do 3 f_equal.
      apply ws_posts_ext. intros j Hj. by rewrite decide_False by lia.
    + split; [done|]. intros p Hpr. destruct (decide (p = i)) as [->|]; [|apply Hm; lia].
      apply (ws_msgs_ok cfg tx0 ud clts base wrs1 _ xs); [done| |done|done|done].
      intros j Hj. by apply idx_lt in Hj.
Qed.
End Flush.

(** ** The end of an iteration *)
Lemma ws_begin_ok cfg tx0 w : ws_cfg_ok cfg → qinv cfg tx0 [] w →
  qinv cfg tx0 [] (ws_begin_iter w).
Proof.
  intros Hc Hw. pose proof (wc_postlist _ Hc). destruct Hw.
  constructor; try done; cbn [ws_begin_iter q_ws q_clt_i q_cb_i q_poll_i q_wr_i q_broke q_resp_buf q_wr q_sgl
    q_first_send_wr q_last_send_wr q_nb_new_req q_nb_tx q_ud_qp_i length]; try done.
  - by rewrite (proj2 (Z.eqb_neq _ _)) by (simpl; lia).
  - intros p Hp. destruct (qi_port0 p Hp) as (_ & Htx & _ & _). pose proof (wc_ports _ Hc).
    unfold MAX_SERVER_PORTS in *. split; [by rewrite lookup_replicate_2 by lia|]. split; [done|].
    split; [done|]. by intros [|j] a b.
Qed.

(** What a worker does with a batch: every client of it is answered with its
    own number, and the next pass starts with an empty batch. *)
Lemma ws_flush_ok cfg tx0 clts w counter : ws_cfg_ok cfg → qinv cfg tx0 clts w → clts ≠ [] →
  ∃ w' msgs, ws_flush cfg w counter = Ok (w', s64 (counter + Z.of_nat (length clts)),
      ws_posts (num_server_ports cfg) (q_ud_qp_i w) clts msgs (Z.to_nat (num_server_ports cfg)) 0) ∧
    qinv cfg (tx_of (num_server_ports cfg) tx0 (q_ud_qp_i w) clts) [] (ws_begin_iter w') ∧
    q_ws w' = q_ws w ∧
    ∀ p, 0 ≤ p < num_server_ports cfg →
      Forall2 (ws_msg cfg tx0 (q_ud_qp_i w) clts counter) (idx (num_server_ports cfg) p clts) (msgs p).
Proof.
  intros Hc Hw Hne. pose proof (wc_postlist _ Hc) as Hpl. pose proof (wc_ports _ Hc) as Hports.
  pose proof (qi_post _ _ _ _ Hw) as Hpost. unfold UNSIG_BATCH, MAX_SERVER_PORTS in *.
  assert (Hpos : (0 < length clts)%nat) by (destruct clts; [done|simpl; lia]).
  unfold ws_flush. rewrite (qi_wr_i _ _ _ _ Hw), (proj2 (Z.eqb_neq _ _)) by lia. cbv zeta. rewrite Nat2Z.id.
  destruct (ws_fill_ok (length clts) counter 0 (q_resp_buf w) (q_sgl w))
    as (resp & sges & Hfill & Hlr & Hls & Hin & _); [rewrite ?(qi_resp _ _ _ _ Hw), ?(qi_sgl _ _ _ _ Hw); lia..|].
  change (Z.of_nat 0) with 0 in Hfill. rewrite Hfill. cbn [res_bind].
  match goal with |- context [ws_post_loop _ ?x _ _ _] => set (w1 := x) end.
  destruct (ws_post_loop_ok cfg tx0 clts counter w1) with (n := Z.to_nat (num_server_ports cfg))
    (wrs := q_wr w1) (posted := q_nb_post_send w1) (i := 0) as (wrs & np & msgs & -> & Hwrs & Hm);
    try lia.
  { intros p Hp. destruct (qi_port _ _ _ _ Hw p Hp) as (H1 & _ & H3 & _). by split. }
  { intros j Hj. apply Hin. lia. }
  { constructor; [apply (qi_wrs _ _ _ _ Hw)|apply (qi_wr _ _ _ _ Hw)|].
    intros p Hp. apply (qi_port _ _ _ _ Hw p Hp). }
  cbn [res_bind]. eexists _, msgs. split; [reflexivity|]. split; [|split; [done|exact Hm]].
  destruct Hwrs. destruct Hw.
  constructor; try done; cbn [w1 ws_begin_iter q_ws q_clt_i q_cb_i q_poll_i q_wr_i q_broke q_resp_buf q_wr q_sgl
    q_first_send_wr q_last_send_wr q_nb_new_req q_nb_tx q_ud_qp_i length]; try congruence; try lia.
  - unfold ws_NUM_UD_QPS in *. apply mod_add_range; lia.
  - intros p Hp. destruct (qi_port0 p Hp) as (_ & Htx & _ & _).
    split; [by rewrite lookup_replicate_2 by lia|]. split; [|split; [done|]].
    + rewrite Htx. f_equal. apply map_ext. intros u. unfold tx_of at 2. cbn [idx idx_from length].
      destruct (u =? _); by rewrite Z.add_0_r.
    + by intros [|j] a b.
Qed.

Lemma ws_flush_empty cfg tx0 w counter : ws_cfg_ok cfg → qinv cfg tx0 [] w →
  ws_flush cfg w counter = Ok (w, counter, []) ∧ qinv cfg tx0 [] (ws_begin_iter w).
Proof.
  intros Hc Hw. split; [|by apply ws_begin_ok]. unfold ws_flush.
  by rewrite (qi_wr_i _ _ _ _ Hw).
Qed.

Lemma ws_init_ok cfg resp wrs sges : ws_cfg_ok cfg → length resp = 70%nat → length wrs = 70%nat →
  length sges = 70%nat → qinv cfg (λ _ _, 0) [] (ws_begin_iter (ws_init resp wrs sges)).
Proof.
  intros Hc H1 H2 H3. apply ws_begin_ok; [done|]. pose proof (wc_postlist _ Hc). pose proof (wc_ports _ Hc).
  unfold MAX_SERVER_PORTS in *.
  constructor; try done; cbn [ws_init q_ws q_clt_i q_cb_i q_poll_i q_wr_i q_broke q_resp_buf q_wr q_sgl
    q_first_send_wr q_last_send_wr q_nb_new_req q_nb_tx q_ud_qp_i length]; try done.
  - by apply Forall_replicate.
  - by left.
  - simpl. lia.
  - by rewrite (proj2 (Z.eqb_neq _ _)) by (simpl; lia).
  - intros p Hp. rewrite !lookup_replicate_2 by lia. split; [done|]. split; [|split; [done|]].
    + by do 2 f_equal.
    + by intros [|j] a b.
Qed.
