(* ===== verification/WsThms.v ===== *)
(** * Theorems about the WRITE/SEND sequencer *)

From stdpp Require Import base gmap list numbers.
From Stdlib Require Import ZArith Lia ZifyBool.
From S2P Require Import Prelude Mica HrdUtil Signal Herd HerdProof HerdEnv SsProof WsSeq WsProof.

(** ** The workers of a server

    The request region can change in any way between the steps of a worker.
    The shared counter is accessed by the fetch-and-add of [ws_flush] only.
    The ghosts: for each worker the clients in its current batch, the clients
    whose requests were answered, in the order of the numbers, and the
    answers (queue pair and number) in the order in which they are posted. *)
Record ws_sys : Type := WsSys
  { y_workers : list ws_worker; y_found : list (list Z); y_rr : ws_region; y_counter : Z;
    y_asked : list Z; y_log : list (Z * Z); y_traces : list (list act) }.

Definition ws_replies (acts : list act) : list (Z * Z) :=
  flat_map (λ a, match a with
                 | APost _ _ ms => map (λ m, (wr_remote_qpn m.1, le_word m.2)) ms
                 | APoll _ _ => []
                 end) acts.

Inductive ws_step (cfg : nat → worker_cfg) : ws_sys → ws_sys → Prop :=
| ws_step_env st rr : ws_step cfg st
    (WsSys (y_workers st) (y_found st) rr (y_counter st) (y_asked st) (y_log st) (y_traces st))
| ws_step_poll st i w f tr w' rr a :
    y_workers st !! i = Some w → y_found st !! i = Some f → y_traces st !! i = Some tr →
    ws_polling w = true → ws_poll_step (cfg i) w (y_rr st) = Ok (w', rr, a) →
    ws_step cfg st
      (WsSys (<[i := w']> (y_workers st))
         (<[i := if q_wr_i w' =? q_wr_i w then f else f ++ [q_clt_i w']]> (y_found st)) rr
         (y_counter st) (y_asked st) (y_log st) (<[i := tr ++ a]> (y_traces st)))
| ws_step_flush st i w f tr w' c' a :
    y_workers st !! i = Some w → y_found st !! i = Some f → y_traces st !! i = Some tr →
    ws_polling w = false → ws_flush (cfg i) w (y_counter st) = Ok (w', c', a) →
    ws_step cfg st
      (WsSys (<[i := ws_begin_iter w']> (y_workers st)) (<[i := []]> (y_found st)) (y_rr st) c'
         (y_asked st ++ f) (y_log st ++ ws_replies a) (<[i := tr ++ a]> (y_traces st))).

Definition ws_fresh (w : ws_worker) : Prop := ∃ resp wrs sges,
  w = ws_begin_iter (ws_init resp wrs sges) ∧ length resp = 70%nat ∧ length wrs = 70%nat ∧
  length sges = 70%nat.

Inductive ws_reach (cfg : nat → worker_cfg) : ws_sys → Prop :=
| ws_start ws rr : Forall ws_fresh ws →
    ws_reach cfg (WsSys ws (map (λ _, []) ws) rr 0 [] [] (map (λ _, []) ws))
| ws_next st st' : ws_reach cfg st → ws_step cfg st st' → ws_reach cfg st'.

(** ** The order of the answers *)
Lemma concat_app_perm {A B} (f g : A → list B) l :
  concat (map (λ x, f x ++ g x) l) ≡ₚ concat (map f l) ++ concat (map g l).
Proof.
  induction l as [|x l IH]; [done|]. cbn [map concat]. rewrite IH.
  rewrite <-!app_assoc. f_equiv. rewrite !app_assoc. f_equiv. apply Permutation_app_comm.
Qed.

Lemma concat_select {A} (y : A) x n : ∀ a,
  concat (map (λ k, if x =? Z.of_nat k then [y] else []) (seq a n)) =
  if (Z.of_nat a <=? x) && (x <? Z.of_nat (a + n)) then [y] else [].
Proof.
  induction n as [|n IH]; intros a; cbn [seq map concat].
  - destruct (_ && _) eqn:E; [lia|done].
  - rewrite IH. destruct (x =? Z.of_nat a) eqn:Ex.
    + replace (_ && _) with false by lia. by replace (_ && _) with true by lia.
    + cbn [app]. match goal with |- (if ?b then _ else _) = (if ?b' then _ else _) =>
        by replace b with b' by lia end.
Qed.

Lemma idx_from_perm nsp clts : 0 < nsp → ∀ i,
  concat (map (λ k, idx_from nsp (Z.of_nat k) clts i) (seq 0 (Z.to_nat nsp))) ≡ₚ seq i (length clts).
Proof.
  intros Hn. induction clts as [|c clts IH]; intros i; cbn [idx_from length seq].
  { induction (seq 0 (Z.to_nat nsp)); done. }
  rewrite (concat_app_perm (λ k, if c mod nsp =? Z.of_nat k then [i] else []) (λ k, idx_from nsp (Z.of_nat k) clts (S i))).
  rewrite IH, concat_select. pose proof (Z.mod_pos_bound c nsp Hn).
  by replace (_ && _) with true by lia.
Qed.

(** Queue pair and number of answer [i] of a batch. *)
Definition answer (qpns clts : list Z) (base : Z) (i : nat) : Z * Z :=
  (default 0 (c ← clts !! i; qpns !! Z.to_nat c), base + Z.of_nat i).

Lemma s64_small z : - 2 ^ 63 ≤ z < 2 ^ 63 → s64 z = z.
Proof. intros H. unfold s64. rewrite Z.mod_small by lia. lia. Qed.

Lemma ws_msgs_answers cfg tx0 ud clts base ix ms : 0 ≤ base → base + Z.of_nat (length clts) < 2 ^ 63 →
  Forall2 (ws_msg cfg tx0 ud clts base) ix ms →
  map (λ m, (wr_remote_qpn m.1, le_word m.2)) ms = map (answer (clt_qpn cfg) clts base) ix.
Proof.
  intros Hb Hm. induction 1 as [|i m ix ms (c & Hc & Hd & Hfor) _ IH]; [done|]. cbn [map]. f_equal; [|done].
  unfold answer. rewrite Hc. cbn. destruct Hfor as (_ & -> & _). cbn. f_equal.
  apply lookup_lt_Some in Hc. rewrite Hd, le_word_bytes. change (8 * Z.of_nat 8) with 64.
  fold (u64 (u64 (s64 (base + Z.of_nat i)))). rewrite u64_u64, s64_small by lia. by rewrite u64_small by lia.
Qed.

Lemma ws_replies_posts cfg tx0 ud clts base msgs : 0 ≤ base → base + Z.of_nat (length clts) < 2 ^ 63 →
  ∀ n i, (∀ p, Z.of_nat i ≤ p < Z.of_nat (i + n) →
    Forall2 (ws_msg cfg tx0 ud clts base) (idx (num_server_ports cfg) p clts) (msgs p)) →
  ws_replies (ws_posts (num_server_ports cfg) ud clts msgs n (Z.of_nat i)) =
  map (answer (clt_qpn cfg) clts base)
    (concat (map (λ k, idx (num_server_ports cfg) (Z.of_nat k) clts) (seq i n))).
Proof.
  intros Hb Hm. induction n as [|n IH]; intros i Hf; [done|]. cbn [ws_posts seq map concat].
  unfold ws_replies. rewrite flat_map_app. fold ws_replies. rewrite map_app.
  replace (Z.of_nat i + 1) with (Z.of_nat (S i)) by lia.
  f_equal; [|apply IH; intros p Hp; apply Hf; lia].
  specialize (Hf (Z.of_nat i) ltac:(lia)). destruct (decide _) as [E|E]; [by rewrite E|].
  cbn. rewrite app_nil_r. by apply (ws_msgs_answers _ tx0 ud).
Qed.

Lemma answers_zip qpns clts base :
  map (answer qpns clts base) (seq 0 (length clts)) =
  zip (map (λ c, default 0 (qpns !! Z.to_nat c)) clts) (seqZ base (Z.of_nat (length clts))).
Proof.
  apply list_eq. intros i. rewrite list_lookup_fmap, lookup_zip_with, list_lookup_fmap.
  destruct (clts !! i) as [c|] eqn:Ec.
  - apply lookup_lt_Some in Ec as Hi. rewrite lookup_seq_lt, lookup_seqZ_lt by lia. cbn.
    unfold answer. by rewrite Ec.
  - apply lookup_ge_None in Ec as Hi. by rewrite lookup_seq_ge by lia.
Qed.

(** A batch is answered with consecutive numbers. *)
Lemma batch_answers cfg tx0 ud clts base msgs : 0 ≤ base → base + Z.of_nat (length clts) < 2 ^ 63 →
  0 < num_server_ports cfg →
  (∀ p, 0 ≤ p < num_server_ports cfg →
    Forall2 (ws_msg cfg tx0 ud clts base) (idx (num_server_ports cfg) p clts) (msgs p)) →
  ws_replies (ws_posts (num_server_ports cfg) ud clts msgs (Z.to_nat (num_server_ports cfg)) 0) ≡ₚ
  zip (map (λ c, default 0 (clt_qpn cfg !! Z.to_nat c)) clts) (seqZ base (Z.of_nat (length clts))).
Proof.
  intros Hb Hm Hn Hf. change 0 with (Z.of_nat 0) at 1.
  rewrite (ws_replies_posts cfg tx0 ud clts base msgs Hb Hm) by (intros p Hp; apply Hf; lia).
  rewrite <-answers_zip. apply Permutation_map. apply idx_from_perm; done.
Qed.

(** ** The send queues *)
Definition ws_sq_of (p u : Z) (a : act) : list sq_act :=
  match a with
  | APoll q v => if (q =? p) && (v =? u) then [SqPoll] else []
  | APost q v ms => if (q =? p) && (v =? u) then [SqPost (map (λ m, wr_signaled m.1) ms)] else []
  end.
Definition ws_sq (p u : Z) (tr : list act) : list sq_act := flat_map (ws_sq_of p u) tr.

Lemma ws_sq_app p u a b : ws_sq p u (a ++ b) = ws_sq p u a ++ ws_sq p u b.
Proof. apply flat_map_app. Qed.

Lemma ws_sq_posts p u nsp ud clts msgs n : ∀ i,
  ws_sq p u (ws_posts nsp ud clts msgs n i) =
  if (i <=? p) && (p <? i + Z.of_nat n) && (ud =? u) then
    (if decide (idx nsp p clts = []) then [] else [SqPost (map (λ m, wr_signaled m.1) (msgs p))])
  else [].
Proof.
  induction n as [|n IH]; intros i.
  - cbn [ws_posts ws_sq flat_map]. destruct (_ && _) eqn:E; [lia|done].
  - cbn [ws_posts]. rewrite ws_sq_app, IH. destruct (decide (p = i)) as [->|Hne].
    + replace ((i + 1 <=? i) && (i <? i + 1 + Z.of_nat n) && (ud =? u)) with false by lia.
      replace ((i <=? i) && (i <? i + Z.of_nat (S n)) && (ud =? u)) with (ud =? u) by lia. rewrite app_nil_r.
      destruct (decide (idx nsp i clts = [])); [by destruct (ud =? u)|]. cbn. rewrite Z.eqb_refl. cbn [andb].
      by destruct (ud =? u).
    + replace ((i <=? p) && (p <? i + Z.of_nat (S n)) && (ud =? u)) with
        ((i + 1 <=? p) && (p <? i + 1 + Z.of_nat n) && (ud =? u)) by lia.
      destruct (decide (idx nsp i clts = [])); [done|]. cbn [ws_sq flat_map ws_sq_of app].
      by rewrite (proj2 (Z.eqb_neq i p)) by done.
Qed.

Lemma ws_flags cfg tx0 ud clts base p n ms :
  tx0 p ud = Z.of_nat n → 
  Forall2 (ws_msg cfg tx0 ud clts base) (idx (num_server_ports cfg) p clts) ms →
  map (λ m, wr_signaled m.1) ms = batch_flags n (length (idx (num_server_ports cfg) p clts)).
Proof.
  intros Hn Hf. apply list_eq. intros j. rewrite list_lookup_fmap.
  unfold batch_flags. rewrite list_lookup_fmap.
  destruct (idx (num_server_ports cfg) p clts !! j) as [i|] eqn:Ei.
  - destruct (Forall2_lookup_l _ _ _ _ _ Hf Ei) as (m & Hm & c & Hc & _ & Hfor).
    rewrite Hm, lookup_seq_lt by (by eapply lookup_lt_Some). cbn. f_equal.
    assert (Hp : c mod num_server_ports cfg = p).
    { apply list_elem_of_lookup_2, elem_of_idx in Ei as (c' & Hc' & <-). congruence. }
    cbv zeta in Hfor. rewrite Hp in Hfor. unfold tx_of in Hfor. rewrite Z.eqb_refl, (idx_take _ _ _ _ _ Ei) in Hfor.
    destruct Hfor as (_ & _ & _ & _ & _ & _ & _ & Hfl). unfold wr_signaled. rewrite Hfl, flags_signaled.
    f_equal. lia.
  - rewrite (proj2 (lookup_ge_None ms j)); [|rewrite <-(Forall2_length Hf); by apply lookup_ge_None].
    rewrite lookup_seq_ge; [done|]. by apply lookup_ge_None.
Qed.

(** The calls so far, as far as the current batch is not posted. *)
Definition ws_trace_ok (cfg : worker_cfg) (tx0 : Z → Z → Z) (ud : Z) (clts : list Z) (tr : list act) : Prop :=
  ∀ p u, 0 ≤ p < num_server_ports cfg → 0 ≤ u < ws_NUM_UD_QPS → ∃ n, tx0 p u = Z.of_nat n ∧
    sq_run (Z.to_nat HRD_Q_DEPTH) [] (ws_sq p u tr) =
    sq_run (Z.to_nat HRD_Q_DEPTH) (waiting n)
      (batch_queue n (if u =? ud then length (idx (num_server_ports cfg) p clts) else 0%nat)).

Lemma ws_trace_poll cfg tx0 ud clts tr c : ws_trace_ok cfg tx0 ud clts tr →
  let p := c mod num_server_ports cfg in
  ws_trace_ok cfg tx0 ud (clts ++ [c]) (tr ++
    (if must_poll (tx_of (num_server_ports cfg) tx0 ud clts p ud) then [APoll p ud] else [])).
Proof.
  intros Ht p q u Hq Hu. destruct (Ht q u Hq Hu) as (n & Hn & E). exists n. split; [done|].
  rewrite ws_sq_app, sq_run_app, E, idx_snoc. fold p. destruct (u =? ud) eqn:Eu.
  - apply Z.eqb_eq in Eu. subst u. destruct (p =? q) eqn:Epq.
    + apply Z.eqb_eq in Epq. subst q. rewrite length_app, Nat.add_1_r, batch_queue_S, sq_run_app.
      unfold tx_of. rewrite Z.eqb_refl, Hn, <-Nat2Z.inj_add. unfold queue_acts. destruct (must_poll _); [|done].
      cbn. by rewrite !Z.eqb_refl.
    + rewrite app_nil_r. replace (ws_sq q ud _) with ([] : list sq_act).
      * by destruct (sq_run _ (waiting n) _).
      * destruct (must_poll _); [|done]. cbn. by rewrite Epq.
  - replace (ws_sq q u _) with ([] : list sq_act).
    + by destruct (sq_run _ (waiting n) _).
    + destruct (must_poll _); [|done]. cbn. replace (ud =? u) with false by lia. by rewrite andb_false_r.
Qed.

Lemma ws_trace_flush cfg tx0 ud ud' clts tr base msgs : (length clts ≤ 63)%nat →
  ws_trace_ok cfg tx0 ud clts tr →
  (∀ p, 0 ≤ p < num_server_ports cfg →
    Forall2 (ws_msg cfg tx0 ud clts base) (idx (num_server_ports cfg) p clts) (msgs p)) →
  ws_trace_ok cfg (tx_of (num_server_ports cfg) tx0 ud clts) ud' [] (tr ++
    ws_posts (num_server_ports cfg) ud clts msgs (Z.to_nat (num_server_ports cfg)) 0).
Proof.
  intros Hlen Ht Hm p u Hp Hu. destruct (Ht p u Hp Hu) as (n & Hn & E).
  replace (if u =? ud' then length (idx (num_server_ports cfg) p []) else 0%nat) with 0%nat by (by destruct (u =? ud')).
  rewrite ws_sq_app, sq_run_app, E, ws_sq_posts.
  replace ((0 <=? p) && (p <? 0 + Z.of_nat (Z.to_nat (num_server_ports cfg))) && (ud =? u)) with (ud =? u) by lia.
  unfold tx_of. rewrite Hn. destruct (u =? ud) eqn:Eu.
  - apply Z.eqb_eq in Eu. subst u. rewrite Z.eqb_refl. pose proof (idx_length (num_server_ports cfg) p clts).
    exists (n + length (idx (num_server_ports cfg) p clts))%nat. split; [lia|].
    rewrite (ws_flags _ _ _ _ _ _ _ _ Hn (Hm p Hp)).
    pose proof (batch_ok (Z.to_nat HRD_Q_DEPTH) n (length (idx (num_server_ports cfg) p clts))
      ltac:(unfold HRD_Q_DEPTH; lia) ltac:(lia)) as Hb.
    unfold batch_acts in Hb. rewrite sq_run_app in Hb. cbn [batch_queue seq flat_map sq_run].
    rewrite <-Hb. f_equal. destruct (idx _ _ _); done.
  - exists n. split; [lia|]. replace (ud =? u) with false by lia. done.
Qed.

(** ** The invariant *)
Definition ws_worker_ok (cfg : worker_cfg) (w : ws_worker) (f : list Z) (tr : list act) : Prop :=
  ∃ tx0, qinv cfg tx0 f w ∧ (postlist cfg ≤ 63 → ws_trace_ok cfg tx0 (q_ud_qp_i w) f tr).

Record ws_inv (cfg : nat → worker_cfg) (qpns : list Z) (st : ws_sys) : Prop := {
  yv_counter : y_counter st = s64 (Z.of_nat (length (y_asked st)));
  yv_log : Z.of_nat (length (y_asked st)) < 2 ^ 63 →
    y_log st ≡ₚ zip (map (λ c, default 0 (qpns !! Z.to_nat c)) (y_asked st))
                  (seqZ 0 (Z.of_nat (length (y_asked st))));
  yv_workers : ∀ i w f tr, y_workers st !! i = Some w → y_found st !! i = Some f →
    y_traces st !! i = Some tr → ws_worker_ok (cfg i) w f tr
}.

Lemma qinv_clts_bound cfg tx0 clts w : qinv cfg tx0 clts w → postlist cfg ≤ 63 → (length clts ≤ 63)%nat.
Proof. intros Hw Hp. pose proof (qi_post _ _ _ _ Hw). lia. Qed.

(** What a poll and a flush do to a worker. *)
Lemma ws_poll_inv cfg w f tr rr w' rr' a : ws_cfg_ok cfg → ws_worker_ok cfg w f tr →
  ws_polling w = true → ws_poll_step cfg w rr = Ok (w', rr', a) →
  ws_worker_ok cfg w' (if q_wr_i w' =? q_wr_i w then f else f ++ [q_clt_i w']) (tr ++ a).
Proof.
  intros Hc (tx0 & Hw & Ht) Hp E. destruct (ws_slot cfg Hc tx0 f w Hw rr) as (s & Hs & _).
  destruct (decide (default 0 (rr !! OFFSET (wrkr_lid cfg) (HRD_MOD_ADD (q_clt_i w) NUM_CLIENTS) s) = 0)) as [Hz|Hz].
  - destruct (ws_poll_skip cfg Hc tx0 f w Hw Hp rr s Hs Hz) as (w1 & E1 & Hw1 & _ & _ & Hud & Hwr).
    rewrite E1 in E. injection E as <- <- <-. rewrite Hwr, Z.eqb_refl, app_nil_r. exists tx0. by rewrite Hud.
  - destruct (ws_poll_hit cfg Hc tx0 f w Hw Hp rr s Hs Hz) as (w1 & E1 & Hw1 & Hclt & _ & Hud & Hwr).
    rewrite E1 in E. injection E as <- <- <-. replace (q_wr_i w1 =? q_wr_i w) with false by lia.
    exists tx0. rewrite Hclt, Hud. split; [done|]. intros Hpl. by apply ws_trace_poll, Ht.
Qed.

Lemma ws_flush_inv cfg w f tr counter w' c' a : ws_cfg_ok cfg → ws_worker_ok cfg w f tr →
  ws_flush cfg w counter = Ok (w', c', a) →
  ws_worker_ok cfg (ws_begin_iter w') [] (tr ++ a) ∧
  (f = [] ∧ c' = counter ∧ a = [] ∨ c' = s64 (counter + Z.of_nat (length f))) ∧
  (0 ≤ counter → counter + Z.of_nat (length f) < 2 ^ 63 →
   ws_replies a ≡ₚ zip (map (λ c, default 0 (clt_qpn cfg !! Z.to_nat c)) f)
                     (seqZ counter (Z.of_nat (length f)))).
Proof.
  intros Hc (tx0 & Hw & Ht) E. pose proof (wc_ports _ Hc). destruct (decide (f = [])) as [->|Hne].
  - destruct (ws_flush_empty cfg tx0 w counter Hc Hw) as [E1 Hw1]. rewrite E1 in E. injection E as <- <- <-.
    rewrite app_nil_r. split; [|split; [by left|done]]. exists tx0. split; [done|]. exact Ht.
  - destruct (ws_flush_ok cfg tx0 f w counter Hc Hw Hne) as (w1 & msgs & E1 & Hw1 & _ & Hm).
    rewrite E1 in E. injection E as <- <- <-. split; [|split; [by right|]].
    + eexists. split; [exact Hw1|]. intros Hpl.
      eapply ws_trace_flush; [by eapply qinv_clts_bound|by apply Ht|exact Hm].
    + intros H0 H1. apply (batch_answers cfg tx0 (q_ud_qp_i w) f counter msgs); auto. lia.
Qed.

Lemma zip_app_seqZ {A} (l1 l2 : list A) :
  zip (l1 ++ l2) (seqZ 0 (Z.of_nat (length (l1 ++ l2)))) =
  zip l1 (seqZ 0 (Z.of_nat (length l1))) ++ zip l2 (seqZ (Z.of_nat (length l1)) (Z.of_nat (length l2))).
Proof.
  rewrite length_app, Nat2Z.inj_add, seqZ_app by lia. rewrite zip_with_app by (rewrite length_seqZ; lia).
  by rewrite Z.add_0_l.
Qed.

Lemma ws_reach_inv cfg qpns st : (∀ i, ws_cfg_ok (cfg i) ∧ clt_qpn (cfg i) = qpns) →
  ws_reach cfg st → ws_inv cfg qpns st.
Proof.
  intros Hcfg. induction 1 as [ws rr Hws|st st' Hr IH Hst].
  { constructor; cbn; try done. intros i w f tr Hw Hf Ht. rewrite list_lookup_fmap, Hw in Hf.
    rewrite list_lookup_fmap, Hw in Ht.
    injection Hf as <-. injection Ht as <-.
    destruct (Forall_lookup_1 _ _ _ _ Hws Hw) as (resp & wrs & sges & -> & H1 & H2 & H3).
    exists (λ _ _, 0). split; [by apply ws_init_ok; [apply Hcfg|..]|]. intros _ p u Hp Hu. exists 0%nat.
    split; [done|]. by destruct (u =? _). }
  destruct IH as [Hctr Hlog Hok]. destruct Hst as [st rr|st i w f tr w' rr a Hw Hf Ht Hp E|st i w f tr w' c' a Hw Hf Ht Hp E].
  - by constructor.
  - pose proof (ws_poll_inv _ _ _ _ _ _ _ _ (proj1 (Hcfg i)) (Hok i w f tr Hw Hf Ht) Hp E) as Hok'.
    constructor; cbn; [done|done|]. intros k wk fk tk Hwk Hfk Htk. destruct (decide (k = i)) as [->|Hne].
    + rewrite list_lookup_insert_eq in Hwk by (by eapply lookup_lt_Some).
      rewrite list_lookup_insert_eq in Hfk by (by eapply lookup_lt_Some).
      rewrite list_lookup_insert_eq in Htk by (by eapply lookup_lt_Some).
      injection Hwk as <-. injection Hfk as <-. injection Htk as <-. done.
    + rewrite list_lookup_insert_ne in Hwk by done. rewrite list_lookup_insert_ne in Hfk by done.
      rewrite list_lookup_insert_ne in Htk by done. by apply (Hok k).
  - destruct (Hcfg i) as [Hci Hq].
    destruct (ws_flush_inv _ _ _ _ _ _ _ _ Hci (Hok i w f tr Hw Hf Ht) E) as (Hok' & Hc' & Hrep).
    rewrite Hq in Hrep. constructor; cbn.
    + rewrite length_app. destruct Hc' as [(-> & -> & _)| ->]; [by rewrite Nat.add_0_r|].
      rewrite Hctr. unfold s64. rewrite Nat2Z.inj_add.
      replace ((Z.of_nat (length (y_asked st)) + 2 ^ 63) mod 2 ^ 64 - 2 ^ 63 + Z.of_nat (length f) + 2 ^ 63)
        with ((Z.of_nat (length (y_asked st)) + 2 ^ 63) mod 2 ^ 64 + Z.of_nat (length f)) by lia.
      rewrite Zplus_mod_idemp_l. do 2 f_equal. lia.
    + intros Hmax. rewrite length_app in Hmax. rewrite map_app. rewrite <-(length_map (λ c, default 0 (qpns !! Z.to_nat c))).
      rewrite map_app, zip_app_seqZ, !length_map. rewrite s64_small in Hctr by lia.
      rewrite Hlog by lia. f_equiv. rewrite Hrep by lia. by rewrite Hctr.
    + intros k wk fk tk Hwk Hfk Htk. destruct (decide (k = i)) as [->|Hne].
      * rewrite list_lookup_insert_eq in Hwk by (by eapply lookup_lt_Some).
      rewrite list_lookup_insert_eq in Hfk by (by eapply lookup_lt_Some).
      rewrite list_lookup_insert_eq in Htk by (by eapply lookup_lt_Some).
        injection Hwk as <-. injection Hfk as <-. injection Htk as <-. done.
      * rewrite list_lookup_insert_ne in Hwk by done. rewrite list_lookup_insert_ne in Hfk by done.
      rewrite list_lookup_insert_ne in Htk by done. by apply (Hok k).
Qed.

(** ** A run *)
Definition ws_turn (cfg : nat → worker_cfg) (i : nat) (st : ws_sys) : option ws_sys :=
  match y_workers st !! i, y_found st !! i, y_traces st !! i with
  | Some w, Some f, Some tr =>
      if ws_polling w then
        match ws_poll_step (cfg i) w (y_rr st) with
        | Ok (w', rr, a) =>
            Some (WsSys (<[i := w']> (y_workers st))
                    (<[i := if q_wr_i w' =? q_wr_i w then f else f ++ [q_clt_i w']]> (y_found st)) rr
                    (y_counter st) (y_asked st) (y_log st) (<[i := tr ++ a]> (y_traces st)))
        | Fault _ => None
        end
      else
        match ws_flush (cfg i) w (y_counter st) with
        | Ok (w', c', a) =>
            Some (WsSys (<[i := ws_begin_iter w']> (y_workers st)) (<[i := []]> (y_found st)) (y_rr st) c'
                    (y_asked st ++ f) (y_log st ++ ws_replies a) (<[i := tr ++ a]> (y_traces st)))
        | Fault _ => None
        end
  | _, _, _ => None
  end.

Fixpoint ws_turns (cfg : nat → worker_cfg) (ts : list nat) (st : ws_sys) : option ws_sys :=
  match ts with
  | [] => Some st
  | i :: ts => ws_turn cfg i st ≫= ws_turns cfg ts
  end.

Lemma ws_turn_step cfg i st st' : ws_turn cfg i st = Some st' → ws_step cfg st st'.
Proof.
  unfold ws_turn. intros H. destruct (y_workers st !! i) eqn:Ew; [|done].
  destruct (y_found st !! i) eqn:Ef; [|done]. destruct (y_traces st !! i) eqn:Et; [|done].
  destruct (ws_polling w) eqn:Ep.
  - destruct (ws_poll_step _ _ _) as [[[w' rr] a]|] eqn:E; [|done]. injection H as <-. by econstructor.
  - destruct (ws_flush _ _ _) as [[[w' c'] a]|] eqn:E; [|done]. injection H as <-. by econstructor.
Qed.

Lemma ws_turns_reach cfg ts : ∀ st st', ws_reach cfg st → ws_turns cfg ts st = Some st' → ws_reach cfg st'.
Proof.
  induction ts as [|i ts IH]; intros st st' Hr H; cbn [ws_turns] in H; [by injection H as <-|].
  destruct (ws_turn cfg i st) as [st1|] eqn:E; [|done]. cbn in H. eapply IH; [|exact H].
  eapply ws_next; [exact Hr|]. by apply (ws_turn_step _ i).
Qed.

Definition demo_ws_cfg (pl : Z) (i : nat) : worker_cfg :=
  Cfg (Z.of_nat i mod 6) 1 pl (replicate 70 9) (map (λ c, 100 + Z.of_nat c) (seq 0 70)).
Definition demo_ws_worker : ws_worker :=
  ws_begin_iter (ws_init (replicate 70 0) (replicate 70 wr0) (replicate 70 (0, 0))).
(** The first two clients ask worker 0, the third one asks worker 1. *)
Definition demo_ws_rr : ws_region :=
  <[OFFSET 0 0 0 := 1]> (<[OFFSET 0 1 0 := 1]> (<[OFFSET 1 2 0 := 1]> ∅)).
Definition demo_ws0 : ws_sys :=
  WsSys [demo_ws_worker; demo_ws_worker] [[]; []] demo_ws_rr 0 [] [] [[]; []].
(** Two polls of each worker, the batch of worker 0, and worker 1. *)
Definition demo_ws1 : ws_sys :=
  default demo_ws0 (ws_turns (demo_ws_cfg 2) ([0; 1; 0; 1; 0] ++ replicate 69 1)%nat demo_ws0).

Lemma demo_ws_cfg_ok pl i : 1 ≤ pl ≤ 64 →
  ws_cfg_ok (demo_ws_cfg pl i) ∧ clt_qpn (demo_ws_cfg pl i) = map (λ c, 100 + Z.of_nat c) (seq 0 70).
Proof.
  intros Hpl. split; [|done]. constructor; try done; cbn; unfold ws_NUM_WORKERS.
  - apply Z.mod_pos_bound. done.
Qed.

Lemma demo_ws_reach : ws_reach (demo_ws_cfg 2) demo_ws1.
Proof.
  eapply (ws_turns_reach _ ([0; 1; 0; 1; 0] ++ replicate 69 1)%nat demo_ws0); [|by vm_compute].
  apply (ws_start _ [demo_ws_worker; demo_ws_worker]).
  repeat constructor; by exists (replicate 70 0), (replicate 70 wr0), (replicate 70 (0, 0)).
Qed.

(** C20: the numbers that the workers hand out are unique and without gap,
    however the workers interleave and whatever the clients write: the
    request that is answered as number [k], counting from 0 in the order of
    the fetch-and-adds, gets exactly one answer, the number [k], sent to the
    queue pair of its client; and the counter is the number of requests
    answered. *)
Theorem ws_numbers_unique (cfg : nat → worker_cfg) (qpns : list Z) (st : ws_sys) :
  (∀ i, ws_cfg_ok (cfg i) ∧ clt_qpn (cfg i) = qpns) → ws_reach cfg st →
  Z.of_nat (length (y_asked st)) < 2 ^ 63 →
  y_log st ≡ₚ zip (map (λ c, default 0 (qpns !! Z.to_nat c)) (y_asked st))
                (seqZ 0 (Z.of_nat (length (y_asked st)))) ∧
  NoDup (map snd (y_log st)) ∧ y_counter st = Z.of_nat (length (y_asked st)).
Proof.
  intros Hcfg Hr Hmax. destruct (ws_reach_inv cfg qpns st Hcfg Hr) as [Hc Hl _].
  specialize (Hl Hmax). split; [done|]. split; [|rewrite Hc; apply s64_small; lia].
  apply (Permutation_map snd) in Hl. rewrite Hl.
  match goal with |- NoDup (map snd (zip ?l ?k)) => replace (map snd (zip l k)) with k end; [apply NoDup_seqZ|].
  symmetry. apply snd_zip. rewrite length_seqZ, length_map. lia.
Qed.

Lemma ws_numbers_unique_witness :
  y_log demo_ws1 ≡ₚ [(100, 0); (101, 1); (102, 2)] ∧ NoDup (map snd (y_log demo_ws1)) ∧
  y_counter demo_ws1 = 3.
Proof.
  destruct (ws_numbers_unique (demo_ws_cfg 2) (map (λ c, 100 + Z.of_nat c) (seq 0 70)) demo_ws1)
    as (H1 & H2 & H3); [intros i; apply demo_ws_cfg_ok; lia|apply demo_ws_reach|by vm_compute|].
  split; [exact H1|]. split; [exact H2|exact H3].
Defined.

(** A worker whose postlist is at most 63 never fails and never waits for
    ever: in every reachable state its next polling step or its next batch
    returns, and on each of its send queues the calls so far respect the
    queue, with at most 126 of the 128 slots in use. *)
Theorem ws_worker_safe (cfg : nat → worker_cfg) (qpns : list Z) (st : ws_sys) (i : nat) (w : ws_worker)
    (f : list Z) (tr : list act) (p u : Z) :
  (∀ i, ws_cfg_ok (cfg i) ∧ clt_qpn (cfg i) = qpns) → postlist (cfg i) ≤ 63 → ws_reach cfg st →
  y_workers st !! i = Some w → y_found st !! i = Some f → y_traces st !! i = Some tr →
  0 ≤ p < num_server_ports (cfg i) → 0 ≤ u < ws_NUM_UD_QPS →
  (if ws_polling w then ∃ r, ws_poll_step (cfg i) w (y_rr st) = Ok r
   else ∃ r, ws_flush (cfg i) w (y_counter st) = Ok r) ∧
  ∃ out, sq_run (Z.to_nat HRD_Q_DEPTH) [] (ws_sq p u tr) = Some out ∧ (length out ≤ 126)%nat.
Proof.
  intros Hcfg Hpl Hr Hw Hf Ht Hp Hu. destruct (Hcfg i) as [Hc _].
  destruct (yv_workers _ _ _ (ws_reach_inv cfg qpns st Hcfg Hr) i w f tr Hw Hf Ht) as (tx0 & Hq & Htr). split.
  - destruct (ws_polling w) eqn:Epol.
    + destruct (ws_slot (cfg i) Hc tx0 f w Hq (y_rr st)) as (s & Hs & _).
      destruct (decide (default 0 (y_rr st !! OFFSET (wrkr_lid (cfg i)) (HRD_MOD_ADD (q_clt_i w) NUM_CLIENTS) s) = 0))
        as [Hz|Hz].
      * destruct (ws_poll_skip (cfg i) Hc tx0 f w Hq Epol (y_rr st) s Hs Hz) as (w' & E & _). by eexists.
      * destruct (ws_poll_hit (cfg i) Hc tx0 f w Hq Epol (y_rr st) s Hs Hz) as (w' & E & _). by eexists.
    + destruct (decide (f = [])) as [->|Hne].
      * destruct (ws_flush_empty (cfg i) tx0 w (y_counter st) Hc Hq) as [E _]. by eexists.
      * destruct (ws_flush_ok (cfg i) tx0 f w (y_counter st) Hc Hq Hne) as (w' & msgs & E & _). by eexists.
  - destruct (Htr Hpl p u Hp Hu) as (n & _ & ->).
    pose proof (qinv_clts_bound _ _ _ _ Hq Hpl). pose proof (idx_length (num_server_ports (cfg i)) p f).
    rewrite queue_batch by (destruct (u =? _); lia). eexists. split; [reflexivity|].
    rewrite length_batch_flags. unfold oldest. destruct (decide _); lia.
Qed.

Lemma ws_worker_safe_witness :
  (∃ r, ws_poll_step (demo_ws_cfg 2 0) (nth 0 (y_workers demo_ws1) demo_ws_worker) (y_rr demo_ws1) = Ok r) ∧
  ∃ out, sq_run (Z.to_nat HRD_Q_DEPTH) [] (ws_sq 0 0 (nth 0 (y_traces demo_ws1) [])) = Some out ∧
    (length out ≤ 126)%nat.
Proof.
  assert (H := ws_worker_safe (demo_ws_cfg 2) (map (λ c, 100 + Z.of_nat c) (seq 0 70)) demo_ws1 0
    (nth 0 (y_workers demo_ws1) demo_ws_worker) [] (nth 0 (y_traces demo_ws1) []) 0 0).
  apply H; [intros i; apply demo_ws_cfg_ok; lia|done|apply demo_ws_reach|by vm_compute..|done|done].
Defined.

(** A postlist of 64 passes the assertion [UNSIG_BATCH >= postlist] but not
    the wait for completions: when 64 clients have requests in the first
    pass, the worker polls for the completion of a work request that it has
    queued and not yet posted, and waits for ever. *)
Theorem ws_postlist_64_stuck :
  let cfg := demo_ws_cfg 64 in
  ws_cfg_ok (cfg 0%nat) ∧ ∃ st tr, ws_reach cfg st ∧ y_traces st !! 0%nat = Some tr ∧
    tr = [APoll 0 0] ∧ sq_run (Z.to_nat HRD_Q_DEPTH) [] (ws_sq 0 0 tr) = None.
Proof.
  cbv zeta. split; [by apply demo_ws_cfg_ok|].
  set (rr := list_to_map (map (λ c, (OFFSET 0 (Z.of_nat c) 0, 1)) (seq 0 70)) : ws_region).
  set (st0 := WsSys [demo_ws_worker] [[]] rr 0 [] [] [[]]).
  exists (default st0 (ws_turns (demo_ws_cfg 64) (replicate 64 0%nat) st0)), [APoll 0 0].
  split; [|split; [by vm_compute|split; [done|by vm_compute]]].
  eapply (ws_turns_reach _ (replicate 64 0%nat) st0); [|by vm_compute].
  apply (ws_start _ [demo_ws_worker]).
  repeat constructor. by exists (replicate 70 0), (replicate 70 wr0), (replicate 70 (0, 0)).
Qed.

(** ** The client *)
Local Ltac Zify.zify_post_hook ::= Z.to_euclidean_division_equations.

Fixpoint ws_client_run (clt_gid : Z) (n : nat) (c : ws_client) : res (ws_client * list ws_clt_act) :=
  match n with
  | O => Ok (c, [])
  | S n =>
      let! (c, a1) := ws_client_run clt_gid n c in
      let! (c, a2) := ws_client_iter clt_gid c in
      Ok (c, a1 ++ a2)
  end.

Definition ws_writes (acts : list ws_clt_act) : list Z :=
  flat_map (λ a, match a with WWrite _ off _ => [off] | _ => [] end) acts.

(** The calls on the send queue. *)
Definition ws_clt_sq (acts : list ws_clt_act) : list sq_act :=
  flat_map (λ a, match a with WWrite s _ _ => [SqPost [s]] | WPollSend => [SqPoll] | _ => [] end) acts.

(** The word that request [k] of a client is written to. *)
Definition ws_target (clt_gid : Z) (k : nat) : Z :=
  OFFSET (Z.of_nat k mod 6) clt_gid ((Z.of_nat k / 6) mod 32).

(** How many of the first [n] requests went to worker [w]. *)
Definition ws_sent (n w : Z) : Z := (n + 5 - w) / 6.

Record ws_clt_inv (n : nat) (c : ws_client) : Prop := {
  kc_tx : k_nb_tx c = Z.of_nat n;
  kc_len : length (k_ws c) = 6%nat;
  kc_ws : ∀ w, 0 ≤ w < 6 → k_ws c !! Z.to_nat w = Some (ws_sent (Z.of_nat n) w mod 32)
}.

Lemma ws_client_iter_ok clt_gid n c : ws_clt_inv n c →
  ∃ c' acts, ws_client_iter clt_gid c = Ok (c', acts) ∧ ws_clt_inv (S n) c' ∧
    ws_writes acts = [ws_target clt_gid n] ∧ ws_clt_sq acts = batch_acts n 1.
Proof.
  intros [Htx Hlen Hws]. unfold ws_client_iter. rewrite Htx.
  set (wn := Z.of_nat n mod ws_NUM_WORKERS).
  assert (Hwn : 0 ≤ wn < 6) by (apply Z.mod_pos_bound; done).
  rewrite (arr_get_Z _ _ _ (proj1 Hwn) (Hws wn Hwn)). cbn [res_bind].
  rewrite arr_set_Ok by lia. cbn [res_bind]. eexists _, _. split; [reflexivity|].
  assert (Hs : ws_sent (Z.of_nat n) wn = Z.of_nat n / 6).
  { unfold ws_sent. subst wn. change ws_NUM_WORKERS with 6. lia. }
  split; [constructor; cbn|split].
  - lia.
  - by rewrite length_insert.
  - intros w Hw. destruct (decide (w = wn)) as [->|Hne].
    + rewrite list_lookup_insert_eq by lia. f_equal. rewrite mod_add_mod by (apply Z.mod_pos_bound; done).
      change WINDOW_SIZE with 32. rewrite Zplus_mod_idemp_l. f_equal. rewrite Hs. unfold ws_sent. subst wn.
      change ws_NUM_WORKERS with 6. lia.
    + rewrite list_lookup_insert_ne by lia. rewrite (Hws w Hw). do 2 f_equal. unfold ws_sent. subst wn.
      change ws_NUM_WORKERS with 6 in *. lia.
  - rewrite Hs. destruct (_ && _), (must_poll _); done.
  - unfold batch_acts, batch_queue, batch_flags, queue_acts. cbn [seq map flat_map decide].
    destruct (_ && _), (must_poll _); done.
Qed.

Lemma ws_client_run_ok clt_gid n : ∃ c acts, ws_client_run clt_gid n ws_client_init = Ok (c, acts) ∧
  ws_clt_inv n c ∧ ws_writes acts = map (ws_target clt_gid) (seq 0 n) ∧
  ws_clt_sq acts = schedule 0 (replicate n 1%nat).
Proof.
  induction n as [|n (c & acts & E & Hc & Hw & Hq)].
  { eexists _, _. split; [reflexivity|]. split; [|done]. constructor; [done..|]. intros w Hw.
    cbn [k_ws ws_client_init]. rewrite lookup_replicate_2 by lia. f_equal. unfold ws_sent. lia. }
  cbn [ws_client_run]. rewrite E. cbn [res_bind].
  destruct (ws_client_iter_ok clt_gid n c Hc) as (c' & a & -> & Hc' & Hw' & Hq'). cbn [res_bind].
  eexists _, _. split; [reflexivity|]. split; [done|].
  unfold ws_writes, ws_clt_sq. rewrite !flat_map_app. fold (ws_writes acts) (ws_writes a) (ws_clt_sq acts) (ws_clt_sq a).
  rewrite Hw, Hw', Hq, Hq', seq_S, map_app. split; [done|].
  clear. assert (H : ∀ k, schedule k (replicate n 1%nat) ++ batch_acts (k + n) 1 = schedule k (replicate (S n) 1%nat)).
  { induction n as [|n IH]; intros k; cbn [replicate schedule]; [by rewrite Nat.add_0_r, app_nil_r|].
    rewrite <-app_assoc. f_equal. replace (k + S n)%nat with ((k + 1) + n)%nat by lia. apply (IH (k + 1)%nat). }
  apply (H 0%nat).
Qed.

(** The requests of a client.  For every number of iterations the client
    runs without fault; request [k] goes to worker [k mod 6], into slot
    [(k / 6) mod 32] of that worker's window for the client, so that any 192
    requests in a row (a window has 32) are written to different words of
    the region; and the send queue never fills up and is never polled in
    vain. *)
Theorem ws_client_requests (clt_gid : Z) (n : nat) :
  ∃ c acts out, ws_client_run clt_gid n ws_client_init = Ok (c, acts) ∧
    ws_writes acts = map (ws_target clt_gid) (seq 0 n) ∧
    (∀ j k, (j < k < j + 192)%nat → ws_target clt_gid j ≠ ws_target clt_gid k) ∧
    sq_run (Z.to_nat HRD_Q_DEPTH) [] (ws_clt_sq acts) = Some out ∧ (length out ≤ 126)%nat.
Proof.
  destruct (ws_client_run_ok clt_gid n) as (c & acts & E & _ & Hw & Hq).
  exists c, acts, (waiting n). split; [done|]. split; [done|]. split; [|split; [|apply waiting_bound]].
  - intros j k Hjk. unfold ws_target, OFFSET, NUM_CLIENTS, WINDOW_SIZE. lia.
  - rewrite Hq. change [] with (waiting 0). rewrite schedule_ok.
    + do 2 f_equal. cbn. clear. induction n; simpl; lia.
    + unfold HRD_Q_DEPTH. lia.
    + apply Forall_replicate. lia.
Qed.
