(* ===== verification/WsMain.v ===== *)
(** * The WRITE/SEND sequencer: start-up (src/ws-sequencer/main.c, master.c, worker.c, client.c)

    The arguments of [main] and the threads that it starts, and what the
    master, the workers and the clients do before their loops.  The files
    repeat the ones of HERD with other constants and without the key-value
    store and the update percentage: the loops over ports and clients are
    those of [HerdMain].  The pointer to the shared counter, which every
    worker gets, is not a field of the parameters: the counter is part of
    the state of the server. *)

From stdpp Require Import base gmap list strings numbers pretty.
From Stdlib Require Import ZArith Lia Ascii.
From S2P Require Import Prelude Mica Verbs HrdUtil HrdConn Signal Herd HerdProof HerdMain HerdSetup HerdStart WsSeq WsProof.

(** ** main *)
Definition ws_CACHELINE_SIZE : Z := 64.
Definition ws_DGRAM_BUF_SIZE : Z := 4096.

Record ws_params : Type := WsParams
  { wp_id : Z; wp_base_port_index : Z; wp_num_server_ports : Z; wp_num_client_ports : Z; wp_postlist : Z }.

(** The [switch]: the options of HERD without the update percentage. *)
Definition ws_parse_opt (a : main_args) (c : Ascii.ascii) (v : Z) : res main_args :=
  if Ascii.eqb c "u"%char then Fault AssertFail else parse_opt a c v.

Fixpoint ws_parse_opts (a : main_args) (opts : list (Ascii.ascii * Z)) : res main_args :=
  match opts with
  | [] => Ok a
  | (c, v) :: opts => let! a := ws_parse_opt a c v in ws_parse_opts a opts
  end.

Inductive ws_threads : Type :=
| WsMaster (p : ws_params)
| WsWorkers (ps : list ws_params)
| WsClients (ps : list ws_params).

(** [junk] is what the uninitialised fields of a [thread_params] hold. *)
Definition ws_main (junk : Z) (opts : list (Ascii.ascii * Z)) : res ws_threads :=
  cassert (HRD_Q_DEPTH =? 128) ;!
  cassert (ws_CACHELINE_SIZE * NUM_CLIENTS * ws_NUM_WORKERS * WINDOW_SIZE <? ws_RR_SIZE) ;!
  cassert (WINDOW_SIZE <=? UNSIG_BATCH) ;!
  cassert (2 * UNSIG_BATCH <=? HRD_Q_DEPTH) ;!
  let! a := ws_parse_opts args0 opts in
  cassert ((0 <=? base_port_index a) && (base_port_index a <=? 8)) ;!
  cassert ((1 <=? a_num_server_ports a) && (a_num_server_ports a <=? 8)) ;!
  if is_master a =? 1 then
    Ok (WsMaster (WsParams junk (base_port_index a) (a_num_server_ports a) junk junk))
  else
    cassert ((is_client a =? 0) || (is_client a =? 1)) ;!
    if is_client a =? 1 then
      cassert ((1 <=? num_client_ports a) && (num_client_ports a <=? 8)) ;!
      cassert (1 <=? num_threads a) ;!
      cassert (0 <=? machine_id a) ;!
      cassert (a_postlist a =? -1) ;!
      Ok (WsClients (map (λ i, WsParams (s32 (machine_id a * num_threads a + Z.of_nat i)) (base_port_index a)
            (a_num_server_ports a) (num_client_ports a) (a_postlist a)) (seq 0 (Z.to_nat (num_threads a)))))
    else
      cassert (num_threads a =? -1) ;!
      cassert (machine_id a =? -1) ;!
      cassert (1 <=? a_postlist a) ;!
      Ok (WsWorkers (map (λ i, WsParams (Z.of_nat i) (base_port_index a) (a_num_server_ports a)
            (num_client_ports a) (a_postlist a)) (seq 0 (Z.to_nat ws_NUM_WORKERS)))).

(** ** The threads before their loops *)
Section WsSetup.
Context {W : Type} `{Verbs W, Shm W, Memc W, DataVerbs W}.

Definition ws_run_master (fuel : nat) (junk : list Z) (p : ws_params) : eff W (list hrd_ctrl_blk) :=
  master_run ws_RR_SIZE fuel junk (wp_num_server_ports p) (wp_base_port_index p).

Definition ws_worker_setup (fuel : nat) (p : ws_params) : eff W (worker_cfg * list hrd_ctrl_blk) :=
  let lid := wp_id p in
  let nsp := wp_num_server_ports p in
  let base := wp_base_port_index p in
  eff_assert (wp_postlist p <=? UNSIG_BATCH) ;*
  eff_assert (wp_postlist p <=? NUM_CLIENTS) ;*
  eff_assert (nsp <? MAX_SERVER_PORTS) ;*
  let* cbs := worker_ports (Z.to_nat nsp) ws_NUM_UD_QPS lid base 0 in
  let* l := worker_attach ws_RR_SIZE fuel cbs nsp base in
  eff_assert (NUM_CLIENTS mod nsp =? 0) ;*
  eff_ret (Cfg lid nsp (wp_postlist p) (map fst l) (map snd l), cbs).

Definition ws_client_setup (fuel : nat) (junk : list Z) (p : ws_params)
    : eff W (hrd_ctrl_blk * hrd_qp_attr) :=
  eff_assert (WINDOW_SIZE * ws_CACHELINE_SIZE <=? ws_DGRAM_BUF_SIZE) ;*
  client_connect fuel junk (wp_id p) (wp_base_port_index p) (wp_num_server_ports p) (wp_num_client_ports p).
End WsSetup.

(** ** The set-up of a worker *)
Lemma ws_main_workers junk opts ps p : ws_main junk opts = Ok (WsWorkers ps) → p ∈ ps →
  0 ≤ wp_id p < ws_NUM_WORKERS ∧ 1 ≤ wp_num_server_ports p ∧ 1 ≤ wp_postlist p.
Proof.
  unfold ws_main. cbn [cassert res_bind]. intros H Hp.
  do 4 (apply res_bind_Ok in H as (? & _ & H)).
  apply res_bind_Ok in H as (a & _ & H).
  apply res_bind_Ok in H as (? & _ & H). apply res_bind_Ok in H as (? & Hn & H).
  apply cassert_Ok, andb_true_iff in Hn as [?%Z.leb_le ?%Z.leb_le].
  destruct (is_master a =? 1); [done|]. apply res_bind_Ok in H as (? & _ & H).
  assert (Hps : 1 ≤ a_postlist a ∧ ps = map (λ i, WsParams (Z.of_nat i) (base_port_index a)
    (a_num_server_ports a) (num_client_ports a) (a_postlist a)) (seq 0 (Z.to_nat ws_NUM_WORKERS))).
  { destruct (is_client a =? 1); inv_res. split; [by apply Z.leb_le|done]. }
  clear H. destruct Hps as [? ->].
  apply list_elem_of_fmap in Hp as (i & -> & Hi). apply elem_of_seq in Hi.
  unfold ws_NUM_WORKERS in *. cbn [wp_id wp_num_server_ports wp_postlist].
  lia.
Qed.

(** A worker that [main] starts, with a postlist of at most 64 and one or
    two server ports that exist and room for its queue pairs, completes its
    set-up once every client has published its datagram queue pair; the
    configuration is one that the theorems about the data path assume, and it
    holds the queue pair number of each client. *)
Theorem ws_worker_starts {W : Type} `{HerdLaws W} (junk : Z) (opts : list (Ascii.ascii * Z))
    (ps : list ws_params) (p : ws_params) (fuel : nat) (q : nat → hrd_qp_attr) (w : W) :
  ws_main junk opts = Ok (WsWorkers ps) → p ∈ ps →
  wp_num_server_ports p = 1 ∨ wp_num_server_ports p = 2 → wp_postlist p ≤ UNSIG_BATCH →
  ports_enabled (wp_base_port_index p) (Z.to_nat (wp_num_server_ports p)) →
  clients_published (registry w) q →
  (size (qps w) + Z.to_nat (wp_num_server_ports p) * Z.to_nat ws_NUM_UD_QPS ≤ qp_limit)%nat →
  runs (ws_worker_setup (S fuel) p) w (λ r _, ∃ cfg cbs, r = (cfg, cbs) ∧
    ws_cfg_ok cfg ∧ wrkr_lid cfg = wp_id p ∧ Z.of_nat (length cbs) = num_server_ports cfg ∧
    clt_qpn cfg = map (λ c, at_qpn (q c)) (seq 0 70)).
Proof.
  intros Hm Hp Hn Hpl Hports Hpub Hroom.
  destruct (ws_main_workers _ _ _ _ Hm Hp) as (Hid & _ & Hpl1).
  assert (Hdiv : NUM_CLIENTS mod wp_num_server_ports p = 0) by (by destruct Hn as [-> | ->]).
  unfold ws_worker_setup. cbv zeta. unfold UNSIG_BATCH, NUM_CLIENTS, MAX_SERVER_PORTS in *.
  do 2 (apply runs_assert; [apply Z.leb_le; lia|]).
  apply runs_assert; [apply Z.ltb_lt; lia|].
  eapply runs_bind; [apply (worker_ports_ok ws_NUM_UD_QPS (wp_id p) _ _ ltac:(done) Hports
    (Z.to_nat (wp_num_server_ports p)) 0 w); lia|].
  cbv beta. intros cbs w1 (Hlen & _ & E1).
  eapply runs_bind; [apply (worker_attach_ok ws_RR_SIZE fuel cbs (wp_num_server_ports p) (wp_base_port_index p) q);
    [lia|lia|by rewrite E1]|].
  cbv beta. intros l w2 [Hl Hlj]. apply runs_assert; [by apply Z.eqb_eq|]. apply runs_ret.
  eexists _, cbs. split; [reflexivity|]. split; [|split; [done|split; [cbn; lia|]]].
  - constructor; cbn; unfold MAX_SERVER_PORTS, UNSIG_BATCH; try done; try lia; by rewrite length_map.
  - cbn [clt_qpn]. apply list_eq. intros j. rewrite !list_lookup_fmap.
    destruct (decide (j < 70)%nat) as [Hj|Hj].
    + destruct (Hlj j Hj) as (a & _ & ->). by rewrite lookup_seq_lt by lia.
    + rewrite lookup_ge_None_2 by lia. by rewrite lookup_seq_ge by lia.
Qed.

Lemma ws_worker_starts_witness :
  runs (ws_worker_setup 1 (WsParams 5 0 2 (-1) 64)) demo_registry (λ r _, ∃ cfg cbs, r = (cfg, cbs) ∧
    ws_cfg_ok cfg ∧ wrkr_lid cfg = 5 ∧ Z.of_nat (length cbs) = num_server_ports cfg ∧
    clt_qpn cfg = map (λ c, at_qpn (attr_of_bytes demo_attr)) (seq 0 70)).
Proof.
  apply (ws_worker_starts 0 [("b"%char, 0); ("N"%char, 2); ("c"%char, 0); ("p"%char, 64)]
    (map (λ i, WsParams (Z.of_nat i) 0 2 (-1) 64) (seq 0 6)) (WsParams 5 0 2 (-1) 64) 0
    (λ _, attr_of_bytes demo_attr) demo_registry).
  - reflexivity.
  - apply list_elem_of_fmap. exists 5%nat. split; [reflexivity|]. apply elem_of_seq. lia.
  - by right.
  - discriminate.
  - exact sim_ports_enabled.
  - intros c Hc. exists demo_attr. split; [by apply demo_registry_lookup|]. by split.
  - apply (bool_decide_unpack _). vm_compute. reflexivity.
Defined.
