(* ===== verification/Mlx5Base.v ===== *)
(** * libmlx5: byte order and integer helpers
    (src/drivers/libmlx5-1.0.2mlnx1/src: mlx5.h, verbs.c, buf.c)

    Device structures are big endian; the host is little endian (x86-64), so
    [htonl] swaps the bytes of a word.  The helpers that compute the sizes of
    queues and blocks are translated with the widths of the source; the
    loops that search for a power of two have fuel, and what happens at the
    end of the integer range (an undefined shift, an endless loop) is a
    fault. *)

From stdpp Require Import base gmap list numbers.
From Stdlib Require Import ZArith Lia.
From S2P Require Import Prelude.

Definition EINVAL : Z := 22.
Definition ENOMEM : Z := 12.

(** ** Byte order *)
Definition be_bytes (n : nat) (z : Z) : list Z := rev (le_bytes n z).
Definition be_word (bs : list Z) : Z := le_word (rev bs).

Definition htons (z : Z) : Z := le_word (be_bytes 2 z).
Definition htonl (z : Z) : Z := le_word (be_bytes 4 z).
Definition htonll (z : Z) : Z := le_word (be_bytes 8 z).
Definition ntohs (z : Z) : Z := htons z.
Definition ntohl (z : Z) : Z := htonl z.
Definition ntohll (z : Z) : Z := htonll z.

Lemma length_be_bytes n z : length (be_bytes n z) = n.
Proof. unfold be_bytes. by rewrite length_rev, length_le_bytes. Qed.

Lemma be_word_bytes n z : be_word (be_bytes n z) = z mod 2 ^ (8 * Z.of_nat n).
Proof. unfold be_word, be_bytes. by rewrite rev_involutive, le_word_bytes. Qed.

Lemma be_bytes_range n z : Forall (λ b, 0 ≤ b < 256) (be_bytes n z).
Proof. apply Forall_rev, le_bytes_range. Qed.

Lemma le_bytes_word bs :
  Forall (λ b, 0 ≤ b < 256) bs → le_bytes (length bs) (le_word bs) = bs.
Proof.
  induction 1 as [|b bs Hb _ IH]; [done|]. simpl. unfold u8.
  rewrite Z.shiftr_div_pow2 by lia. change (2 ^ 8) with 256.
  rewrite (Z.add_comm b), (Z.mul_comm 256), Z.add_comm, Z.mod_add, Z.mod_small by lia.
  rewrite Z.div_add, Z.div_small, Z.add_0_l by lia. by rewrite IH.
Qed.

(** Storing [htonl(z)] stores the bytes of [z], most significant first. *)
Lemma le_bytes_swap n z : le_bytes n (le_word (be_bytes n z)) = be_bytes n z.
Proof.
  rewrite <-(length_be_bytes n z) at 1. apply le_bytes_word, be_bytes_range.
Qed.

(** Swapping twice gives the word back. *)
Lemma swap_swap n z :
  le_word (be_bytes n (le_word (be_bytes n z))) = z mod 2 ^ (8 * Z.of_nat n).
Proof. unfold be_bytes at 1. by rewrite le_bytes_swap, <-be_word_bytes. Qed.

Lemma ntohl_htonl z : ntohl (htonl z) = u32 z.
Proof. apply (swap_swap 4). Qed.
Lemma ntohs_htons z : ntohs (htons z) = u16 z.
Proof. apply (swap_swap 2). Qed.

(** ** Integer helpers *)
Definition DIV_ROUND_UP (n d : Z) : Z := u32 (n + d - 1) / d.

(** [align] on [unsigned long]. *)
Definition align (val algn : Z) : Z :=
  u64 (val + algn - 1) .& u64 (Z.lnot (u64 (algn - 1))).

(** The loop [while ((1 << t) < n) ++t]; [1 << 31] is undefined. *)
Fixpoint ilog2_loop (fuel : nat) (t n : Z) : res Z :=
  match fuel with
  | O => Fault ShiftUB
  | S fuel => if Z.shiftl 1 t <? n then ilog2_loop fuel (t + 1) n else Ok t
  end.
Definition mlx5_ilog2 (n : Z) : res Z :=
  if n <=? 0 then Ok (-1) else ilog2_loop 31 0 n.

(** The loop [for (ret = 1; ret < sz; ret <<= 1)] on [long long]: after 64
    shifts [ret] is 0 and stays 0. *)
Fixpoint round_up_loop (fuel : nat) (ret sz : Z) : res Z :=
  match fuel with
  | O => Fault Stuck
  | S fuel => if ret <? sz then round_up_loop fuel (s64 (Z.shiftl ret 1)) sz else Ok ret
  end.
Definition INT_MAX : Z := 2 ^ 31 - 1.
Definition mlx5_round_up_power_of_two (sz : Z) : res Z :=
  let! ret := round_up_loop 65 1 sz in
  if INT_MAX <? ret then Ok (- ENOMEM) else Ok ret.
Definition align_queue_size (req : Z) : res Z := mlx5_round_up_power_of_two req.

Fixpoint calc_xor_loop (bs : list Z) (acc : Z) : Z :=
  match bs with
  | [] => acc
  | b :: bs => calc_xor_loop bs (acc .^ b)
  end.
Definition calc_xor (wqe : list Z) : Z := calc_xor_loop wqe 0.

(** ** Order of a block *)
Definition block_order_tables : list (Z * Z) :=
  [(16, 0xFFFF0000); (8, 0xFF00); (4, 0xF0); (2, 0xC); (1, 0x2)].

Fixpoint block_order_loop (ts : list (Z * Z)) (v r : Z) : Z :=
  match ts with
  | [] => r
  | (shift, bits) :: ts =>
      if v .& bits =? 0 then block_order_loop ts v r
      else block_order_loop ts (v .>> shift) (r .| shift)
  end.

Definition mlx5_get_block_order (v : Z) : res Z :=
  let r := block_order_loop block_order_tables v 0 in
  if 31 <=? r then Fault ShiftUB
  else Ok (u32 (r + Z.b2z (negb (v .& (Z.shiftl 1 r - 1) =? 0)))).

(** ** Their values *)

Lemma div_round_up_spec n d :
  0 < d → 0 ≤ n → n + d - 1 < 2 ^ 32 → n ≤ d * DIV_ROUND_UP n d < n + d.
Proof.
  intros Hd Hn Hw. unfold DIV_ROUND_UP. rewrite u32_small by lia.
  pose proof (Z.div_mod (n + d - 1) d ltac:(lia)).
  pose proof (Z.mod_pos_bound (n + d - 1) d Hd). lia.
Qed.

Lemma align_spec val k :
  0 ≤ k < 63 → 0 ≤ val → val + 2 ^ k ≤ 2 ^ 64 →
  val ≤ align val (2 ^ k) < val + 2 ^ k ∧ align val (2 ^ k) mod 2 ^ k = 0.
Proof.
  intros Hk Hv Hw. unfold align.
  assert (0 < 2 ^ k) by lia.
  assert (2 ^ k < 2 ^ 63) by (apply Z.pow_lt_mono_r; lia).
  rewrite (u64_small (2 ^ k - 1)), (u64_small (val + _ - 1)) by lia.
  rewrite u64_land_lnot_mask by lia.
  pose proof (Z.mod_pos_bound (val + 2 ^ k - 1) (2 ^ k) ltac:(lia)).
  split; [lia|]. rewrite Zminus_mod_idemp_r, Z.sub_diag. done.
Qed.

(** The smallest power of two that is at least [n] is [2 ^ Z.log2_up n]. *)
Lemma log2_up_least t n : 0 < n → 0 ≤ t → (n ≤ 2 ^ t ↔ Z.log2_up n ≤ t).
Proof.
  intros Hn Ht. destruct (Z.le_gt_cases n 1).
  - assert (n = 1) as -> by lia. change (Z.log2_up 1) with 0.
    split; [lia|]. intros _. assert (0 < 2 ^ t) by lia. lia.
  - apply Z.log2_up_le_pow2; lia.
Qed.

Lemma ilog2_loop_spec fuel t n :
  0 < n → 0 ≤ t ≤ Z.log2_up n → Z.log2_up n < t + Z.of_nat fuel →
  ilog2_loop fuel t n = Ok (Z.log2_up n).
Proof.
  revert t. induction fuel as [|fuel IH]; intros t Hn Ht Hf; [lia|]. simpl.
  rewrite Z.shiftl_1_l. pose proof (log2_up_least t n Hn ltac:(lia)).
  destruct (2 ^ t <? n) eqn:E.
  - apply Z.ltb_lt in E. apply IH; lia.
  - apply Z.ltb_ge in E. f_equal. lia.
Qed.

Lemma mlx5_ilog2_spec n : 0 < n ≤ 2 ^ 30 → mlx5_ilog2 n = Ok (Z.log2_up n).
Proof.
  intros Hn. unfold mlx5_ilog2. rewrite (proj2 (Z.leb_gt _ _)) by lia.
  pose proof (Z.log2_up_nonneg n).
  pose proof (proj1 (log2_up_least 30 n ltac:(lia) ltac:(lia)) ltac:(lia)).
  apply ilog2_loop_spec; lia.
Qed.

Lemma round_up_loop_spec fuel t n :
  0 < n ≤ 2 ^ 62 → 0 ≤ t ≤ Z.log2_up n → Z.log2_up n < t + Z.of_nat fuel →
  round_up_loop fuel (2 ^ t) n = Ok (2 ^ Z.log2_up n).
Proof.
  revert t. induction fuel as [|fuel IH]; intros t Hn Ht Hf; [lia|]. simpl.
  pose proof (log2_up_least t n ltac:(lia) ltac:(lia)).
  destruct (2 ^ t <? n) eqn:E.
  - apply Z.ltb_lt in E.
    rewrite Z.shiftl_mul_pow2 by lia. change (2 ^ 1) with 2.
    replace (2 ^ t * 2) with (2 ^ (t + 1)) by (rewrite Z.pow_add_r; lia).
    assert (t < 62) by (apply (Z.pow_lt_mono_r_iff 2); lia).
    assert (2 ^ (t + 1) ≤ 2 ^ 62) by (apply Z.pow_le_mono_r; lia).
    assert (0 < 2 ^ (t + 1)) by lia.
    unfold s64. rewrite Z.mod_small by lia.
    replace (2 ^ (t + 1) + 2 ^ 63 - 2 ^ 63) with (2 ^ (t + 1)) by lia.
    apply IH; lia.
  - apply Z.ltb_ge in E. do 2 f_equal. lia.
Qed.

Lemma round_up_spec n :
  0 < n ≤ 2 ^ 30 → mlx5_round_up_power_of_two n = Ok (2 ^ Z.log2_up n).
Proof.
  intros Hn. unfold mlx5_round_up_power_of_two.
  pose proof (Z.log2_up_nonneg n).
  pose proof (proj1 (log2_up_least 30 n ltac:(lia) ltac:(lia)) ltac:(lia)).
  pose proof (round_up_loop_spec 65 0 n) as E. change (2 ^ 0) with 1 in E.
  rewrite E by lia. cbn [res_bind].
  assert (2 ^ Z.log2_up n ≤ 2 ^ 30) by (apply Z.pow_le_mono_r; lia).
  by rewrite (proj2 (Z.ltb_ge _ _)) by (unfold INT_MAX; lia).
Qed.

(** A step of the search: [bits] selects the upper half of [2 s] bits. *)
Lemma land_upper_half s v :
  0 < s → 0 ≤ v < 2 ^ (2 * s) →
  (v .& (2 ^ (2 * s) - 2 ^ s) =? 0) = (v <? 2 ^ s).
Proof.
  intros Hs Hv. assert (0 < 2 ^ s) by lia.
  assert (E : 2 ^ (2 * s) = 2 ^ s * 2 ^ s) by (rewrite <-Z.pow_add_r by lia; f_equal; lia).
  replace (2 ^ (2 * s) - 2 ^ s) with (Z.shiftl (Z.ones s) s).
  2: { rewrite Z.shiftl_mul_pow2, Z.ones_equiv by lia. lia. }
  assert (Ev : v .& Z.shiftl (Z.ones s) s = Z.shiftl (Z.shiftr v s) s).
  { apply Z.bits_inj'. intros i Hi. rewrite Z.land_spec, !Z.shiftl_spec by lia.
    destruct (Z.lt_ge_cases i s).
    - by rewrite !(Z.testbit_neg_r _ (i - s)), andb_false_r by lia.
    - rewrite Z.shiftr_spec by lia. replace (i - s + s) with i by lia.
      destruct (Z.lt_ge_cases (i - s) s).
      + by rewrite Z.ones_spec_low, andb_true_r by lia.
      + rewrite Z.ones_spec_high, andb_false_r by lia.
        destruct (decide (v = 0)) as [->|]; [by rewrite Z.bits_0|].
        rewrite Z.bits_above_log2; [done|lia|]. apply Z.log2_lt_pow2; [lia|].
        apply Z.lt_le_trans with (2 ^ (2 * s)); [lia|]. apply Z.pow_le_mono_r; lia. }
  rewrite Ev, Z.shiftl_mul_pow2, Z.shiftr_div_pow2 by lia.
  pose proof (Z.div_pos v (2 ^ s) ltac:(lia) ltac:(lia)).
  destruct (v <? 2 ^ s) eqn:F; [apply Z.ltb_lt in F|apply Z.ltb_ge in F].
  - rewrite Z.div_small by lia. done.
  - apply Z.eqb_neq. assert (1 ≤ v / 2 ^ s) by (apply Z.div_le_lower_bound; lia). nia.
Qed.

Lemma lor_pow2_mul k q : 0 ≤ k → (2 ^ (k + 1) * q) .| 2 ^ k = 2 ^ k * (2 * q + 1).
Proof.
  intros Hk. replace (2 ^ (k + 1) * q) with (Z.shiftl (2 * q) k).
  2: { rewrite Z.shiftl_mul_pow2, Z.pow_add_r by lia. lia. }
  replace (2 ^ k) with (Z.shiftl 1 k) at 1 by (rewrite Z.shiftl_mul_pow2; lia).
  rewrite <-Z.shiftl_lor.
  replace (2 * q .| 1) with (2 * q + 1).
  - rewrite Z.shiftl_mul_pow2 by lia. lia.
  - rewrite <-(Z.add_lor_land (2 * q) 1).
    replace (2 * q .& 1) with 0; [lia|]. symmetry. change 1 with (Z.ones 1).
    rewrite Z.land_ones by lia. rewrite Z.mul_comm. apply Z.mod_mul. lia.
Qed.

Definition finds_log2 (s : Z) (ts : list (Z * Z)) : Prop :=
  ∀ v q, 0 < v < 2 ^ s → block_order_loop ts v (s * q) = s * q + Z.log2 v.

Lemma finds_log2_step k ts :
  0 ≤ k → finds_log2 (2 ^ k) ts →
  finds_log2 (2 ^ (k + 1)) ((2 ^ k, 2 ^ (2 * 2 ^ k) - 2 ^ 2 ^ k) :: ts).
Proof.
  intros Hk IH v q Hv. assert (0 < 2 ^ k) by lia.
  assert (E : 2 ^ (k + 1) = 2 * 2 ^ k) by (rewrite Z.pow_add_r; lia).
  rewrite E in Hv. cbn [block_order_loop].
  rewrite land_upper_half by lia.
  destruct (v <? 2 ^ 2 ^ k) eqn:F; [apply Z.ltb_lt in F|apply Z.ltb_ge in F].
  - replace (2 ^ (k + 1) * q) with (2 ^ k * (2 * q)) by lia. apply IH. lia.
  - rewrite lor_pow2_mul by lia.
    assert (0 < 2 ^ 2 ^ k) by lia.
    assert (El : Z.log2 v = Z.log2 (v .>> 2 ^ k) + 2 ^ k).
    { rewrite Z.log2_shiftr by lia.
      assert (2 ^ k ≤ Z.log2 v) by (apply (Z.log2_le_pow2 v (2 ^ k)); [apply Hv|exact F]). lia. }
    rewrite IH; [lia|]. rewrite Z.shiftr_div_pow2 by lia. split.
    + apply Z.div_str_pos. lia.
    + apply Z.div_lt_upper_bound; [lia|]. rewrite <-Z.pow_add_r by lia.
      replace (2 ^ k + 2 ^ k) with (2 * 2 ^ k) by lia. lia.
Qed.

Lemma block_order_log2 v : 0 < v < 2 ^ 32 → block_order_loop block_order_tables v 0 = Z.log2 v.
Proof.
  intros Hv. assert (H0 : finds_log2 (2 ^ 0) []).
  { intros w q Hw. assert (w = 1) as -> by lia. simpl. lia. }
  pose proof (finds_log2_step 4 _ ltac:(lia) (finds_log2_step 3 _ ltac:(lia)
    (finds_log2_step 2 _ ltac:(lia) (finds_log2_step 1 _ ltac:(lia)
    (finds_log2_step 0 _ ltac:(lia) H0))))) as H.
  by apply (H v 0).
Qed.

(** The rounding: [v] is a power of two exactly if the bits below its highest
    one are 0. *)
Lemma log2_up_round v :
  0 < v → Z.log2_up v = Z.log2 v + Z.b2z (negb (v .& (2 ^ Z.log2 v - 1) =? 0)).
Proof.
  intros Hv. pose proof (Z.log2_nonneg v). pose proof (Z.log2_spec v Hv) as Hl.
  rewrite u64_land_mask by done.
  rewrite Z.pow_succ_r in Hl by done.
  assert (Em : v mod 2 ^ Z.log2 v = v - 2 ^ Z.log2 v).
  { symmetry. apply Z.mod_unique_pos with 1; lia. }
  rewrite Em. destruct (v - 2 ^ Z.log2 v =? 0) eqn:E; simpl.
  - apply Z.eqb_eq in E. replace v with (2 ^ Z.log2 v) at 1 by lia.
    rewrite Z.log2_up_pow2; lia.
  - apply Z.eqb_neq in E. apply Z.log2_up_unique; [lia|].
    replace (Z.pred (Z.log2 v + 1)) with (Z.log2 v) by lia.
    rewrite Z.pow_add_r by lia. lia.
Qed.

Lemma block_order_spec v : 0 < v < 2 ^ 31 → mlx5_get_block_order v = Ok (Z.log2_up v).
Proof.
  intros Hv. unfold mlx5_get_block_order. rewrite block_order_log2 by lia.
  pose proof (Z.log2_nonneg v). assert (Z.log2 v < 31) by (apply Z.log2_lt_pow2; lia).
  rewrite (proj2 (Z.leb_gt _ _)) by lia. rewrite Z.shiftl_1_l, <-log2_up_round by lia.
  f_equal. apply u32_small. pose proof (Z.log2_up_nonneg v).
  pose proof (proj1 (log2_up_least 31 v ltac:(lia) ltac:(lia)) ltac:(lia)). lia.
Qed.
