(* ===== verification/Mlx5Wqe.v ===== *)
(** * libmlx5: send work requests and their encoding
    (src/drivers/libmlx5-1.0.2mlnx1/src: qp.c, wqe.h, mlx5.h)

    A work request becomes a WQE in the ring of the send queue: a control
    segment, segments for the transport, data segments or inline data.  The
    ring is a byte memory of [sqend] bytes; pointers into it are offsets, and
    a store outside it is a fault.  A store of [htonl(x)] stores
    [be_bytes 4 x] ([Mlx5Base.le_bytes_swap]).

    The translation of on-demand-paging keys (implicit_lkey.c) is an
    interface ([ImplicitLkey]); the process's memory, from which inline data
    is copied, is a function from addresses to bytes. *)

From stdpp Require Import base gmap list numbers.
From Stdlib Require Import ZArith Lia.
From S2P Require Import Prelude Mlx5Base.

(** ** Constants *)
Definition MLX5_SEND_WQE_BB : Z := 64.
Definition MLX5_SEND_WQE_SHIFT : Z := 6.
Definition MLX5_INLINE_SEG : Z := 0x80000000.
Definition MLX5_INVALID_LKEY : Z := 0x100.
Definition MLX5_EXTENDED_UD_AV : Z := 0x80000000.
Definition ODP_GLOBAL_R_LKEY : Z := 0x101.
Definition ODP_GLOBAL_W_LKEY : Z := 0x102.

Definition MLX5_WQE_CTRL_CQ_UPDATE : Z := Z.shiftl 2 2.
Definition MLX5_WQE_CTRL_SOLICITED : Z := Z.shiftl 1 1.
Definition MLX5_WQE_CTRL_FENCE : Z := Z.shiftl 4 5.
Definition MLX5_FENCE_MODE_INITIATOR_SMALL : Z := Z.shiftl 1 5.
Definition MLX5_FENCE_MODE_STRONG_ORDERING : Z := Z.shiftl 3 5.
Definition MLX5_FENCE_MODE_SMALL_AND_FENCE : Z := Z.shiftl 4 5.

(** ** Work requests *)

(** The opcodes that the sources name; [IBV_EXP_WR_UNLISTED] is any other
    value inside the table [mlx5_ib_opcode], [IBV_EXP_WR_OUTSIDE] one beyond
    its end. *)
Inductive ibv_exp_wr_opcode : Type :=
| IBV_EXP_WR_SEND
| IBV_EXP_WR_SEND_WITH_IMM
| IBV_EXP_WR_RDMA_WRITE
| IBV_EXP_WR_RDMA_WRITE_WITH_IMM
| IBV_EXP_WR_RDMA_READ
| IBV_EXP_WR_ATOMIC_CMP_AND_SWP
| IBV_EXP_WR_ATOMIC_FETCH_AND_ADD
| IBV_EXP_WR_EXT_MASKED_ATOMIC_CMP_AND_SWP
| IBV_EXP_WR_EXT_MASKED_ATOMIC_FETCH_AND_ADD
| IBV_EXP_WR_SEND_ENABLE
| IBV_EXP_WR_RECV_ENABLE
| IBV_EXP_WR_CQE_WAIT
| IBV_EXP_WR_NOP
| IBV_EXP_WR_UMR_FILL
| IBV_EXP_WR_UMR_INVALIDATE
| IBV_EXP_WR_LOCAL_INV
| IBV_EXP_WR_UNLISTED
| IBV_EXP_WR_OUTSIDE.

#[global] Instance ibv_exp_wr_opcode_eq_dec : EqDecision ibv_exp_wr_opcode.
Proof. solve_decision. Defined.

Inductive ibv_qp_type : Type :=
| IBV_QPT_RC | IBV_QPT_UC | IBV_QPT_UD | IBV_QPT_XRC | IBV_QPT_XRC_SEND | IBV_QPT_XRC_RECV
| IBV_QPT_RAW_ETH | IBV_EXP_QPT_DC_INI | IBV_QPT_OTHER.

#[global] Instance ibv_qp_type_eq_dec : EqDecision ibv_qp_type.
Proof. solve_decision. Defined.

(** The bits of [send_flags] and [exp_send_flags]. *)
Record send_flags : Type := SendFlags
  { IBV_SEND_FENCE : bool;
    IBV_SEND_SIGNALED : bool;
    IBV_SEND_SOLICITED : bool;
    IBV_SEND_INLINE : bool;
    IBV_EXP_SEND_IP_CSUM : bool;
    IBV_EXP_SEND_WITH_CALC : bool;
    IBV_EXP_SEND_WAIT_EN_LAST : bool }.

Record ibv_sge : Type := Sge
  { sge_addr : Z;
    sge_length : Z;
    sge_lkey : Z }.

(** A work request.  [send_flags_] is [ibv_send_wr.send_flags],
    [exp_send_flags] the field of [ibv_exp_send_wr]: a request of the plain
    interface has only the former, and the latter is what lies behind it.
    [num_sge] is the length of [sg_list].  [ud_ah] are the 48 bytes of the
    address vector of the address handle. *)
Record ibv_exp_send_wr : Type := SendWr
  { wr_id : Z;
    exp_opcode : ibv_exp_wr_opcode;
    send_flags_ : send_flags;
    exp_send_flags : send_flags;
    imm_data : Z;
    sg_list : list ibv_sge;
    rdma_remote_addr : Z;
    rdma_rkey : Z;
    ud_ah : list Z;
    ud_remote_qpn : Z;
    ud_remote_qkey : Z;
    atomic_remote_addr : Z;
    atomic_rkey : Z;
    atomic_swap : Z;
    atomic_compare_add : Z }.

Definition num_sge (wr : ibv_exp_send_wr) : Z := Z.of_nat (length (sg_list wr)).

(** ** The table of opcodes *)
Definition MLX5_OPCODE_BASIC : Z := 0x00010000.
Definition MLX5_OPCODE_MANAGED : Z := 0x00020000.
Definition MLX5_OPCODE_WITH_IMM : Z := 0x01000000.
Definition MLX5_IB_OPCODE (op class attr : Z) : Z :=
  ((class .& 0x00FF0000) .| (attr .& 0xFF000000)) .| (op .& 0x0000FFFF).
Definition MLX5_IB_OPCODE_GET_CLASS (opcode : Z) : Z := opcode .& 0x00FF0000.
Definition MLX5_IB_OPCODE_GET_OP (opcode : Z) : Z := opcode .& 0x0000FFFF.
Definition MLX5_IB_OPCODE_GET_ATTR (opcode : Z) : Z := opcode .& 0xFF000000.

Definition MLX5_OPCODE_NOP : Z := 0x00.
Definition MLX5_OPCODE_SEND_INVAL : Z := 0x01.
Definition MLX5_OPCODE_RDMA_WRITE : Z := 0x08.
Definition MLX5_OPCODE_RDMA_WRITE_IMM : Z := 0x09.
Definition MLX5_OPCODE_SEND : Z := 0x0a.
Definition MLX5_OPCODE_SEND_IMM : Z := 0x0b.
Definition MLX5_OPCODE_CQE_WAIT : Z := 0x0f.
Definition MLX5_OPCODE_RDMA_READ : Z := 0x10.
Definition MLX5_OPCODE_ATOMIC_CS : Z := 0x11.
Definition MLX5_OPCODE_ATOMIC_FA : Z := 0x12.
Definition MLX5_OPCODE_ATOMIC_MASKED_CS : Z := 0x14.
Definition MLX5_OPCODE_ATOMIC_MASKED_FA : Z := 0x15.
Definition MLX5_OPCODE_RECV_ENABLE : Z := 0x16.
Definition MLX5_OPCODE_SEND_ENABLE : Z := 0x17.
Definition MLX5_OPCODE_BIND_MW : Z := 0x18.
Definition MLX5_OPCODE_UMR : Z := 0x25.

Definition mlx5_ib_opcode (op : ibv_exp_wr_opcode) : res Z :=
  let basic o := Ok (MLX5_IB_OPCODE o MLX5_OPCODE_BASIC 0) in
  let imm o := Ok (MLX5_IB_OPCODE o MLX5_OPCODE_BASIC MLX5_OPCODE_WITH_IMM) in
  let managed o := Ok (MLX5_IB_OPCODE o MLX5_OPCODE_MANAGED 0) in
  match op with
  | IBV_EXP_WR_SEND => basic MLX5_OPCODE_SEND
  | IBV_EXP_WR_SEND_WITH_IMM => imm MLX5_OPCODE_SEND_IMM
  | IBV_EXP_WR_RDMA_WRITE => basic MLX5_OPCODE_RDMA_WRITE
  | IBV_EXP_WR_RDMA_WRITE_WITH_IMM => imm MLX5_OPCODE_RDMA_WRITE_IMM
  | IBV_EXP_WR_RDMA_READ => basic MLX5_OPCODE_RDMA_READ
  | IBV_EXP_WR_ATOMIC_CMP_AND_SWP => basic MLX5_OPCODE_ATOMIC_CS
  | IBV_EXP_WR_ATOMIC_FETCH_AND_ADD => basic MLX5_OPCODE_ATOMIC_FA
  | IBV_EXP_WR_EXT_MASKED_ATOMIC_CMP_AND_SWP => basic MLX5_OPCODE_ATOMIC_MASKED_CS
  | IBV_EXP_WR_EXT_MASKED_ATOMIC_FETCH_AND_ADD => basic MLX5_OPCODE_ATOMIC_MASKED_FA
  | IBV_EXP_WR_SEND_ENABLE => managed MLX5_OPCODE_SEND_ENABLE
  | IBV_EXP_WR_RECV_ENABLE => managed MLX5_OPCODE_RECV_ENABLE
  | IBV_EXP_WR_CQE_WAIT => managed MLX5_OPCODE_CQE_WAIT
  | IBV_EXP_WR_NOP => basic MLX5_OPCODE_NOP
  | IBV_EXP_WR_UMR_FILL => basic MLX5_OPCODE_UMR
  | IBV_EXP_WR_UMR_INVALIDATE => basic MLX5_OPCODE_UMR
  | IBV_EXP_WR_LOCAL_INV | IBV_EXP_WR_UNLISTED => Ok 0
  | IBV_EXP_WR_OUTSIDE => Fault OutOfBounds
  end.

(** ** The ring *)
Abbreviation sqmem := (gmap Z Z).

(** A store to the ring; [qend] is its size. *)
Definition st (qend off : Z) (bs : list Z) (m : sqmem) : res sqmem :=
  in_bounds ((0 <=? off) && (off + Z.of_nat (length bs) <=? qend)) ;!
  Ok (mwrite_n m off bs).
Definition ld (qend off : Z) (n : nat) (m : sqmem) : res (list Z) :=
  in_bounds ((0 <=? off) && (off + Z.of_nat n <=? qend)) ;!
  Ok (mread_n m off n).

(** The process's memory. *)
Definition hread (host : Z → Z) (addr : Z) (n : nat) : list Z :=
  map (λ k, host (u64 (addr + Z.of_nat k))) (seq 0 n).

(** [mlx5_get_send_wqe]: offset of basic block [n]. *)
Definition mlx5_get_send_wqe (n : Z) : Z := Z.shiftl n MLX5_SEND_WQE_SHIFT.

(** ** Segments *)
Definition set_raddr_seg (qend rseg remote_addr rkey : Z) (m : sqmem) : res sqmem :=
  let! m := st qend rseg (be_bytes 8 remote_addr) m in
  let! m := st qend (rseg + 8) (be_bytes 4 rkey) m in
  st qend (rseg + 12) (le_bytes 4 0) m.

Definition set_atomic_seg (qend aseg : Z) (opcode : ibv_exp_wr_opcode) (swap compare_add : Z)
    (m : sqmem) : res sqmem :=
  if decide (opcode = IBV_EXP_WR_ATOMIC_CMP_AND_SWP) then
    let! m := st qend aseg (be_bytes 8 swap) m in
    st qend (aseg + 8) (be_bytes 8 compare_add) m
  else
    let! m := st qend aseg (be_bytes 8 compare_add) m in
    st qend (aseg + 8) (le_bytes 8 0) m.

(** The [dqp_dct] word of an address vector, as the host loads it. *)
Definition av_dqp_dct (av : list Z) : Z := le_word (take 4 (drop 8 av)).
Definition has_grh (av : list Z) : bool :=
  negb (av_dqp_dct av .& ntohl MLX5_EXTENDED_UD_AV =? 0).

Definition set_datagram_seg (qend dseg : Z) (wr : ibv_exp_send_wr) (m : sqmem) : res (Z * sqmem) :=
  let size := if has_grh (ud_ah wr) then 48 else 16 in
  let! m := st qend dseg (take (Z.to_nat size) (ud_ah wr)) m in
  let! dqp := ld qend (dseg + 8) 4 m in
  let! m := st qend (dseg + 8) (le_bytes 4 (le_word dqp .| htonl (ud_remote_qpn wr))) m in
  let! m := st qend dseg (be_bytes 4 (ud_remote_qkey wr)) m in
  Ok (size, m).

Definition data_seg_bytes (byte_count lkey addr : Z) : list Z :=
  be_bytes 4 byte_count ++ be_bytes 4 lkey ++ be_bytes 8 addr.

(** ** Keys for on-demand paging *)

(** What implicit_lkey.c promises to the data path: an error code and, if it
    is 0, the key of a registered region.  The flag says whether the key is
    looked up in [w_ilkey]. *)
Class ImplicitLkey (K : Type) : Type :=
  get_real_lkey : bool → Z → Z → eff K (Z * Z).

Section Builders.
Context {K : Type} `{ImplicitLkey K}.
Variable qend : Z.
Variable host : Z → Z.

Definition set_odp_data_ptr_seg (dseg : Z) (sg : ibv_sge) (m : sqmem) : eff K (Z * sqmem) :=
  let* (err, lkey) := get_real_lkey (negb (sge_lkey sg =? ODP_GLOBAL_R_LKEY))
                         (sge_addr sg) (sge_length sg) in
  if negb (err =? 0) then eff_ret (ENOMEM, m)
  else
    let* m := eff_lift (st qend dseg (data_seg_bytes (sge_length sg) lkey (sge_addr sg)) m) in
    eff_ret (0, m).

Definition set_data_ptr_seg (dseg : Z) (sg : ibv_sge) (offset : Z) (m : sqmem)
    : eff K (Z * sqmem) :=
  if (sge_lkey sg =? ODP_GLOBAL_R_LKEY) || (sge_lkey sg =? ODP_GLOBAL_W_LKEY) then
    set_odp_data_ptr_seg dseg sg m
  else
    let* m := eff_lift (st qend dseg
      (data_seg_bytes (u32 (sge_length sg - offset)) (sge_lkey sg) (u64 (sge_addr sg + offset))) m) in
    eff_ret (0, m).

(** Pointers to the data; [sgs] are the entries from [idx] on. *)
Fixpoint set_data_non_inl_seg (sgs : list ibv_sge) (dpseg sz offset : Z) (m : sqmem)
    : eff K (Z * Z * sqmem) :=
  match sgs with
  | [] => eff_ret (0, sz, m)
  | sg :: sgs =>
      let dpseg := if dpseg =? qend then mlx5_get_send_wqe 0 else dpseg in
      if sge_length sg =? 0 then set_data_non_inl_seg sgs dpseg sz offset m
      else
        let* (err, m) := set_data_ptr_seg dpseg sg offset m in
        if negb (err =? 0) then eff_ret (ENOMEM, sz, m)
        else set_data_non_inl_seg sgs (dpseg + 16) (sz + 1) 0 m
  end.

Fixpoint set_data_atom_seg (sgs : list ibv_sge) (dpseg sz atom_arg : Z) (m : sqmem)
    : eff K (Z * Z * sqmem) :=
  match sgs with
  | [] => eff_ret (0, sz, m)
  | sg :: sgs =>
      let dpseg := if dpseg =? qend then mlx5_get_send_wqe 0 else dpseg in
      if sge_length sg =? 0 then set_data_atom_seg sgs dpseg sz atom_arg m
      else
        let* (err, m) := set_data_ptr_seg dpseg (Sge (sge_addr sg) atom_arg (sge_lkey sg)) 0 m in
        if negb (err =? 0) then eff_ret (ENOMEM, sz, m)
        else set_data_atom_seg sgs (dpseg + 16) (sz + 1) atom_arg m
  end.

(** Inline data: the loop over the entries; [None] is ENOMEM.  A negative
    [len] is a huge size for [memcpy]. *)
Fixpoint inl_loop (max_inline_data : Z) (sgs : list ibv_sge) (wqe ninl offset : Z) (m : sqmem)
    : res (option Z * sqmem) :=
  match sgs with
  | [] => Ok (Some ninl, m)
  | sg :: sgs =>
      let addr := u64 (sge_addr sg + offset) in
      let len := s32 (sge_length sg - offset) in
      let ninl := s32 (ninl + len) in
      if max_inline_data <? u32 ninl then Ok (None, m)
      else if len <? 0 then Fault OutOfBounds
      else if qend <? wqe + len then
        let copy := qend - wqe in
        let! m := st qend wqe (hread host addr (Z.to_nat copy)) m in
        let! m := st qend 0 (hread host (addr + copy) (Z.to_nat (len - copy))) m in
        inl_loop max_inline_data sgs (len - copy) ninl 0 m
      else
        let! m := st qend wqe (hread host addr (Z.to_nat len)) m in
        inl_loop max_inline_data sgs (wqe + len) ninl 0 m
  end.

Definition set_data_inl_seg (max_inline_data : Z) (sgs : list ibv_sge) (wqe sz offset : Z) (m : sqmem)
    : res (Z * Z * sqmem) :=
  let! (r, m) := inl_loop max_inline_data sgs (wqe + 4) 0 offset m in
  match r with
  | None => Ok (ENOMEM, sz, m)
  | Some ninl =>
      if ninl =? 0 then Ok (0, sz, m)
      else
        let! m := st qend wqe (be_bytes 4 (ninl .| MLX5_INLINE_SEG)) m in
        Ok (0, sz + align (ninl + 4) 16 / 16, m)
  end.

Definition set_data_seg (max_inline_data seg sz : Z) (is_inl : bool) (sgs : list ibv_sge)
    (atom_arg : Z) (idx : nat) (offset : Z) (m : sqmem) : eff K (Z * Z * sqmem) :=
  if is_inl then eff_lift (set_data_inl_seg max_inline_data (drop idx sgs) seg sz offset m)
  else if negb (atom_arg =? 0) then set_data_atom_seg sgs seg sz atom_arg m
  else set_data_non_inl_seg (drop idx sgs) seg sz offset m.

End Builders.

(** ** The control segment *)
Record ctrl_seg_data : Type := CtrlSegData
  { cs_qp_num : Z;
    fm_ce_se_tbl : list Z;
    fm_ce_se_acc : list Z;
    wq_sig : bool }.

Definition set_ctrl_seg (qend start : Z) (cs : ctrl_seg_data) (opcode idx opmod size fm_ce_se imm : Z)
    (m : sqmem) : res sqmem :=
  let! m := st qend start
    (be_bytes 4 (Z.shiftl (u8 opmod) 24 .| Z.shiftl (u16 idx) 8 .| u8 opcode)) m in
  let! m := st qend (start + 4)
    (be_bytes 4 (u32 (Z.shiftl (cs_qp_num cs) 8) .| (u8 size .& 0x3F))) m in
  let! m := st qend (start + 8) (be_bytes 4 (u8 fm_ce_se)) m in
  st qend (start + 12) (le_bytes 4 imm) m.

Definition set_ctrl_seg_sig (qend start : Z) (cs : ctrl_seg_data)
    (opcode idx opmod size fm_ce_se imm : Z) (m : sqmem) : res sqmem :=
  let! m := set_ctrl_seg qend start cs opcode idx opmod size fm_ce_se imm m in
  if wq_sig cs then
    let! bs := ld qend start (Z.to_nat (Z.shiftl (u8 size) 4)) m in
    st qend (start + 8)
      (be_bytes 4 (u32 (Z.shiftl (Z.lnot (calc_xor bs)) 24) .| u8 fm_ce_se)) m
  else Ok m.

(** The index into the tables: FENCE, SIGNALED and SOLICITED are the bits 0,
    1 and 2. *)
Definition fm_index (fl : send_flags) : Z :=
  Z.b2z (IBV_SEND_FENCE fl) + 2 * Z.b2z (IBV_SEND_SIGNALED fl) + 4 * Z.b2z (IBV_SEND_SOLICITED fl).

(** [mlx5_build_ctrl_seg_data]: [tbl] by the flags of a request, [acc] by
    those of the burst interface, whose bits are arguments. *)
Definition fm_ce_se_of (solicited signaled fence : bool) : Z :=
  ((if solicited then MLX5_WQE_CTRL_SOLICITED else 0) .|
   (if signaled then MLX5_WQE_CTRL_CQ_UPDATE else 0)) .|
  (if fence then MLX5_WQE_CTRL_FENCE else 0).

Definition build_tbl (sq_signal_bits : Z) : list Z :=
  map (λ v, sq_signal_bits .| v)
    [ fm_ce_se_of false false false; fm_ce_se_of false false true;
      fm_ce_se_of false true false; fm_ce_se_of false true true;
      fm_ce_se_of true false false; fm_ce_se_of true false true;
      fm_ce_se_of true true false; fm_ce_se_of true true true ].

Definition build_acc (sq_signal_bits b_fence b_signaled b_solicited : Z) : list Z :=
  let put so si fe acc :=
    <[Z.to_nat (((if so : bool then b_solicited else 0) .| (if si : bool then b_signaled else 0)) .|
                (if fe : bool then b_fence else 0)) := fm_ce_se_of so si fe]> acc in
  map (λ v, sq_signal_bits .| v)
    (put true true true (put true true false (put true false true (put true false false
      (put false true true (put false true false (put false false true (put false false false
        (replicate 32 0))))))))).

Definition mlx5_build_ctrl_seg_data (sq_signal_bits b_fence b_signaled b_solicited : Z)
    (cs : ctrl_seg_data) (qp_num : Z) : ctrl_seg_data :=
  CtrlSegData qp_num (build_tbl sq_signal_bits)
    (build_acc sq_signal_bits b_fence b_signaled b_solicited) (wq_sig cs).

Definition get_fence (fence : Z) (wr : ibv_exp_send_wr) : Z :=
  if bool_decide (exp_opcode wr = IBV_EXP_WR_LOCAL_INV) && IBV_SEND_FENCE (exp_send_flags wr) then
    MLX5_FENCE_MODE_STRONG_ORDERING
  else if negb (fence =? 0) then
    if IBV_SEND_FENCE (exp_send_flags wr) then MLX5_FENCE_MODE_SMALL_AND_FENCE else fence
  else 0.

Definition send_ieth (wr : ibv_exp_send_wr) : res Z :=
  let! op := mlx5_ib_opcode (exp_opcode wr) in
  Ok (if negb (MLX5_IB_OPCODE_GET_ATTR op .& MLX5_OPCODE_WITH_IMM =? 0) then imm_data wr else 0).

(** ** One work request *)

(** What the builders use of the queue pair. *)
Record wqe_env : Type := WqeEnv
  { we_qend : Z;
    we_qp_type : ibv_qp_type;
    we_max_inline_data : Z;
    we_ctrl_seg : ctrl_seg_data;
    we_cross_channel : bool;
    we_scur_post : Z }.

(** What a builder returns: the error code, the size in units of 16 bytes
    (meaningful if the code is 0), the ring and [fm_cache]. *)
Record one_ret : Type := OneRet
  { or_err : Z;
    or_size : Z;
    or_mem : sqmem;
    or_fm_cache : Z }.

Section PostOne.
Context {K : Type} `{ImplicitLkey K}.
Variable host : Z → Z.
Variable e : wqe_env.

(** The test in front of every builder but the fast ones. *)
Definition cross_channel_refused (wr : ibv_exp_send_wr) (fl : send_flags) : res bool :=
  let! op := mlx5_ib_opcode (exp_opcode wr) in
  Ok (((MLX5_IB_OPCODE_GET_CLASS op =? MLX5_OPCODE_MANAGED) || IBV_EXP_SEND_WITH_CALC fl)
      && negb (we_cross_channel e)).

(** The end of a builder: the data segments, then the control segment. *)
Definition finish_wqe (wr : ibv_exp_send_wr) (fl : send_flags) (ctrl seg size : Z) (idx : nat)
    (offset fm_cache : Z) (m : sqmem) : eff K one_ret :=
  let* (err, size, m) := set_data_seg (we_qend e) host (we_max_inline_data e) seg size
                           (IBV_SEND_INLINE fl) (sg_list wr) 0 idx offset m in
  if negb (err =? 0) then eff_ret (OneRet err 0 m fm_cache)
  else eff_lift (
    let! fm := arr_get (fm_ce_se_tbl (we_ctrl_seg e)) (fm_index fl) in
    let! op := mlx5_ib_opcode (exp_opcode wr) in
    let! imm := send_ieth wr in
    let! m := set_ctrl_seg_sig (we_qend e) ctrl (we_ctrl_seg e) (MLX5_IB_OPCODE_GET_OP op)
                (we_scur_post e) 0 size (fm .| get_fence fm_cache wr) imm m in
    Ok (OneRet 0 size m 0)).

Definition __mlx5_post_send_one_other (wr : ibv_exp_send_wr) (fl : send_flags) (seg fm_cache : Z)
    (m : sqmem) : eff K one_ret :=
  let* bad := eff_lift (cross_channel_refused wr fl) in
  if bad : bool then eff_ret (OneRet EINVAL 0 m fm_cache)
  else finish_wqe wr fl seg (seg + 16) 1 0 0 fm_cache m.

Definition __mlx5_post_send_one_uc_ud (wr : ibv_exp_send_wr) (fl : send_flags) (ctrl fm_cache : Z)
    (m : sqmem) : eff K one_ret :=
  let* bad := eff_lift (cross_channel_refused wr fl) in
  if bad : bool then eff_ret (OneRet EINVAL 0 m fm_cache)
  else
    let seg := ctrl + 16 in
    let size := 1 in
    let* (seg, size, m) :=
      eff_lift match we_qp_type e with
      | IBV_QPT_UC =>
          match exp_opcode wr with
          | IBV_EXP_WR_RDMA_WRITE | IBV_EXP_WR_RDMA_WRITE_WITH_IMM =>
              let! m := set_raddr_seg (we_qend e) seg (rdma_remote_addr wr) (rdma_rkey wr) m in
              Ok (seg + 16, size + 1, m)
          | _ => Ok (seg, size, m)
          end
      | IBV_QPT_UD =>
          let! (tmp, m) := set_datagram_seg (we_qend e) seg wr m in
          let seg := seg + tmp in
          Ok (if seg =? we_qend e then mlx5_get_send_wqe 0 else seg, size + Z.shiftr tmp 4, m)
      | _ => Ok (seg, size, m)
      end in
    finish_wqe wr fl ctrl seg size 0 0 fm_cache m.

(** Raw Ethernet: the first 16 bytes of the packet are copied into the
    Ethernet segment.  [eth_hdr_loop] is the copy loop over several entries;
    it returns the index after the last entry looked at, how many bytes of
    the header are missing and how many came from the last entry. *)
Definition MLX5_ETH_INLINE_HEADER_SIZE : Z := 16.
Definition MLX5_ETH_WQE_L3_CSUM : Z := Z.shiftl 1 6.
Definition MLX5_ETH_WQE_L4_CSUM : Z := Z.shiftl 1 7.

Fixpoint eth_hdr_loop (eseg : Z) (sgs : list ibv_sge) (i : nat) (inl_hdr_size copied : Z) (m : sqmem)
    : res (nat * Z * Z * sqmem) :=
  match sgs with
  | [] => Ok (i, inl_hdr_size, copied, m)
  | sg :: sgs =>
      if inl_hdr_size <=? 0 then Ok (i, inl_hdr_size, copied, m)
      else
        let copied := Z.min (sge_length sg) inl_hdr_size in
        let! m := st (we_qend e) (eseg + 14 + (MLX5_ETH_INLINE_HEADER_SIZE - inl_hdr_size))
                    (hread host (sge_addr sg) (Z.to_nat copied)) m in
        eth_hdr_loop eseg sgs (S i) (inl_hdr_size - copied) copied m
  end.

Definition __mlx5_post_send_one_raw_packet (wr : ibv_exp_send_wr) (fl : send_flags)
    (ctrl fm_cache : Z) (m : sqmem) : eff K one_ret :=
  let eseg := ctrl + 16 in
  let size := 1 in
  let* m := eff_lift (st (we_qend e) eseg (le_bytes 8 0) m) in
  let* m := eff_lift (st (we_qend e) (eseg + 8) (le_bytes 4 0) m) in
  let* m := eff_lift (if IBV_EXP_SEND_IP_CSUM fl then
      st (we_qend e) (eseg + 4) [MLX5_ETH_WQE_L3_CSUM .| MLX5_ETH_WQE_L4_CSUM] m
    else Ok m) in
  let* sg0 := eff_lift (arr_get (sg_list wr) 0) in
  let* (i, missing, copied, m) := eff_lift (
    if MLX5_ETH_INLINE_HEADER_SIZE <=? sge_length sg0 then
      let! m := st (we_qend e) (eseg + 14)
                  (hread host (sge_addr sg0) (Z.to_nat MLX5_ETH_INLINE_HEADER_SIZE)) m in
      Ok (0%nat, 0, MLX5_ETH_INLINE_HEADER_SIZE, m)
    else
      let! (i, missing, copied, m) :=
        eth_hdr_loop eseg (sg_list wr) 0 MLX5_ETH_INLINE_HEADER_SIZE 0 m in
      Ok (pred i, missing, copied, m)) in
  if negb (missing =? 0) then eff_ret (OneRet EINVAL 0 m fm_cache)
  else
    let seg := eseg + 32 in
    let size := size + 2 in
    let* m := eff_lift (st (we_qend e) (eseg + 12) (be_bytes 2 MLX5_ETH_INLINE_HEADER_SIZE) m) in
    let* sg := eff_lift (arr_get (sg_list wr) (Z.of_nat i)) in
    if sge_length sg =? copied then finish_wqe wr fl ctrl seg size (S i) 0 fm_cache m
    else finish_wqe wr fl ctrl seg size i copied fm_cache m.

(** The fast path of RC queue pairs: SEND and RDMA WRITE. *)
Definition __mlx5_post_send_one_fast_rc (cmd : Z) (is_inl : bool) (wr : ibv_exp_send_wr)
    (fl : send_flags) (ctrl fm_cache : Z) (m : sqmem) : eff K one_ret :=
  let seg := ctrl + 16 in
  let size := 1 in
  let* (seg, size, m) :=
    eff_lift (if cmd =? MLX5_OPCODE_RDMA_WRITE then
      let! m := set_raddr_seg (we_qend e) seg (rdma_remote_addr wr) (rdma_rkey wr) m in
      Ok (seg + 16, size + 1, m)
    else Ok (seg, size, m)) in
  let* (err, size, m) :=
    (if is_inl then
       eff_lift (set_data_inl_seg (we_qend e) host (we_max_inline_data e) (sg_list wr) seg size 0 m)
     else set_data_non_inl_seg (we_qend e) (sg_list wr) seg size 0 m) in
  if negb (err =? 0) then eff_ret (OneRet err 0 m fm_cache)
  else eff_lift (
    let! fm := arr_get (fm_ce_se_tbl (we_ctrl_seg e)) (fm_index fl) in
    let fm := if negb (fm_cache =? 0) then
                if IBV_SEND_FENCE fl then fm .| MLX5_FENCE_MODE_SMALL_AND_FENCE else fm .| fm_cache
              else fm in
    let! m := set_ctrl_seg (we_qend e) ctrl (we_ctrl_seg e) cmd (we_scur_post e) 0 size fm 0 m in
    Ok (OneRet 0 size m 0)).

End PostOne.
