(* ===== verification/Mlx5WqeProof.v ===== *)
(** * libmlx5: what the device reads from the send ring

    [ring_list m qend off] is the ring as the device sees it when it starts
    at offset [off] and wraps at the end.  A store of the driver at the
    right place replaces one stretch of that list ([st_split]), so the
    builders of [Mlx5Wqe] are verified as appends, wherever the ring wraps.
    [hca_decode] reads a WQE back, from the format of the device. *)

From stdpp Require Import base gmap list numbers.
From Stdlib Require Import ZArith Lia.
From S2P Require Import Prelude Mlx5Base Mlx5Wqe.

(** ** The ring as a list *)
Definition ring_list (m : sqmem) (qend off : Z) : list Z :=
  map (λ k, mread m ((off + Z.of_nat k) mod qend)) (seq 0 (Z.to_nat qend)).

Lemma length_ring_list m qend off : length (ring_list m qend off) = Z.to_nat qend.
Proof. unfold ring_list. by rewrite length_map, length_seq. Qed.

Lemma ring_list_lookup m qend off k :
  (k < Z.to_nat qend)%nat →
  ring_list m qend off !! k = Some (mread m ((off + Z.of_nat k) mod qend)).
Proof.
  intros Hk. unfold ring_list. rewrite list_lookup_fmap, lookup_seq_lt by done. done.
Qed.

Lemma mread_mwrite_in m a bs (j : nat) b :
  bs !! j = Some b → mread (mwrite_n m a bs) (a + Z.of_nat j) = b.
Proof.
  revert m a j. induction bs as [|c bs IH]; intros m a j Hj; [done|].
  destruct j as [|j]; simpl in Hj |- *.
  - injection Hj as ->. rewrite mread_mwrite_out by lia. unfold mread.
    by rewrite Z.add_0_r, lookup_insert_eq.
  - replace (a + Z.of_nat (S j)) with (a + 1 + Z.of_nat j) by lia. by apply IH.
Qed.

(** Cursor [p] stands at distance [n] from [off]; at the end of the ring it
    may not have wrapped yet. *)
Definition at_pos (qend off p n : Z) : Prop :=
  0 ≤ p ≤ qend ∧ p mod qend = (off + n) mod qend.

Lemma ring_hit qend off p n k len :
  0 < qend → at_pos qend off p n → 0 ≤ n → n + len ≤ qend → p + len ≤ qend → 0 < len →
  0 ≤ k < qend →
  if decide (n ≤ k < n + len) then (off + k) mod qend = p + (k - n)
  else (off + k) mod qend < p ∨ p + len ≤ (off + k) mod qend.
Proof.
  intros Hq [Hp Ha] Hn Hnl Hpl Hl Hk.
  rewrite (Z.mod_small p) in Ha by lia.
  destruct (decide _) as [Hin|Hout].
  - replace (off + k) with ((off + n) + (k - n)) by lia.
    rewrite Zplus_mod, <-Ha, (Z.mod_small (k - n)), Z.mod_small; lia.
  - destruct (Z.lt_ge_cases ((off + k) mod qend) p); [by left|].
    destruct (Z.le_gt_cases (p + len) ((off + k) mod qend)); [by right|]. exfalso.
    pose proof (Z.div_mod (off + k) qend ltac:(lia)).
    pose proof (Z.div_mod (off + n) qend ltac:(lia)).
    set (q1 := (off + k) / qend) in *. set (q2 := (off + n) / qend) in *.
    assert (k - n - ((off + k) mod qend - p) = qend * (q1 - q2)) by lia.
    assert (-qend < k - n - ((off + k) mod qend - p) < qend) by lia.
    assert (q1 - q2 = 0) by nia. lia.
Qed.

(** A store replaces a stretch of the ring. *)
Lemma st_split qend off p m A B C bs :
  0 < qend → at_pos qend off p (Z.of_nat (length A)) →
  ring_list m qend off = A ++ B ++ C → length B = length bs →
  p + Z.of_nat (length bs) ≤ qend →
  ∃ m', st qend p bs m = Ok m' ∧ ring_list m' qend off = A ++ bs ++ C.
Proof.
  intros Hq Ha HL HB Hp. pose proof (proj1 Ha). exists (mwrite_n m p bs).
  unfold st. rewrite (proj2 (Z.leb_le 0 p)), (proj2 (Z.leb_le _ qend)) by lia.
  split; [done|].
  pose proof (f_equal length HL) as Hlen.
  rewrite length_ring_list, !length_app in Hlen.
  apply list_eq_same_length with (Z.to_nat qend);
    [rewrite !length_app; lia|by rewrite length_ring_list|].
  intros k x y Hk Hx Hy. rewrite ring_list_lookup in Hx by done. injection Hx as <-.
  assert (Hold : ring_list m qend off !! k = Some (mread m ((off + Z.of_nat k) mod qend)))
    by by apply ring_list_lookup.
  rewrite HL in Hold.
  destruct (decide (bs = [])) as [->|Hne].
  { destruct B; [|done]. simpl in *. congruence. }
  assert (0 < length bs)%nat by (destruct bs; simpl; [done|lia]).
  pose proof (ring_hit qend off p (Z.of_nat (length A)) (Z.of_nat k) (Z.of_nat (length bs))
    Hq Ha ltac:(lia) ltac:(lia) Hp ltac:(lia) ltac:(lia)) as Hhit.
  destruct (decide _) as [Hin|Hout].
  - rewrite Hhit. rewrite lookup_app_r, lookup_app_l in Hy by lia.
    rewrite <-(Nat2Z.inj_sub k (length A)) by lia. by apply mread_mwrite_in.
  - rewrite mread_mwrite_out by done.
    destruct (decide (k < length A)%nat).
    + rewrite lookup_app_l in Hy, Hold by lia. congruence.
    + rewrite !lookup_app_r in Hy, Hold by lia. rewrite HB in Hold. congruence.
Qed.

Lemma ld_split qend off p m A B C :
  0 < qend → at_pos qend off p (Z.of_nat (length A)) →
  ring_list m qend off = A ++ B ++ C → p + Z.of_nat (length B) ≤ qend →
  ld qend p (length B) m = Ok B.
Proof.
  intros Hq Ha HL Hp. pose proof (proj1 Ha).
  unfold ld. rewrite (proj2 (Z.leb_le 0 p)), (proj2 (Z.leb_le _ qend)) by lia. simpl. f_equal.
  pose proof (f_equal length HL) as Hlen.
  rewrite length_ring_list, !length_app in Hlen.
  assert (Hgen : ∀ n j, (j + n = length B)%nat →
    mread_n m (p + Z.of_nat j) n = drop j B).
  { induction n as [|n IH]; intros j Hj.
    - simpl. symmetry. apply drop_ge. lia.
    - simpl. destruct (lookup_lt_is_Some_2 B j) as [b Hb]; [lia|].
      rewrite (drop_S _ _ _ Hb). f_equal.
      + assert (HL' : ring_list m qend off !! (length A + j)%nat = Some b).
        { by rewrite HL, lookup_app_r, lookup_app_l, Nat.add_comm, Nat.add_sub by lia. }
        rewrite ring_list_lookup in HL' by lia. injection HL' as <-. f_equal.
        pose proof (ring_hit qend off p (Z.of_nat (length A)) (Z.of_nat (length A + j))
          (Z.of_nat (length B)) Hq Ha ltac:(lia) ltac:(lia) Hp ltac:(lia) ltac:(lia)) as Hh.
        rewrite decide_True in Hh by lia. rewrite Hh. lia.
      + replace (p + Z.of_nat j + 1) with (p + Z.of_nat (S j)) by lia. apply IH. lia. }
  specialize (Hgen (length B) 0%nat eq_refl). by rewrite Z.add_0_r in Hgen.
Qed.

(** ** Cursors *)
Lemma at_pos_start qend off : 0 ≤ off < qend → at_pos qend off off 0.
Proof. intros. split; [lia|]. by rewrite Z.add_0_r. Qed.

Lemma at_pos_add qend off p n d :
  0 < qend → at_pos qend off p n → 0 ≤ d → p + d ≤ qend → at_pos qend off (p + d) (n + d).
Proof.
  intros Hq [Hp Ha] Hd Hpd. split; [lia|].
  by rewrite Zplus_mod, Ha, <-Zplus_mod, Z.add_assoc.
Qed.

Lemma at_pos_wrap qend off n : 0 < qend → at_pos qend off qend n → at_pos qend off 0 n.
Proof. intros Hq [_ Ha]. split; [lia|]. by rewrite Z.mod_same in Ha by lia. Qed.

(** The test [if (seg == sqend) seg = sqstart]. *)
Lemma at_pos_norm qend off p n :
  0 < qend → at_pos qend off p n →
  at_pos qend off (if p =? qend then mlx5_get_send_wqe 0 else p) n ∧
  (if p =? qend then mlx5_get_send_wqe 0 else p) < qend.
Proof.
  intros Hq Ha. destruct (p =? qend) eqn:E.
  - apply Z.eqb_eq in E as ->. split; [by apply at_pos_wrap|done].
  - apply Z.eqb_neq in E. split; [done|]. pose proof (proj1 Ha). lia.
Qed.

(** ** Segments *)
Lemma mwrite_n_app m a bs cs :
  mwrite_n m a (bs ++ cs) = mwrite_n (mwrite_n m a bs) (a + Z.of_nat (length bs)) cs.
Proof.
  revert m a. induction bs as [|b bs IH]; intros m a; simpl; [by rewrite Z.add_0_r|].
  rewrite IH. f_equal. lia.
Qed.

(** Consecutive stores are one store. *)
Lemma st_app qend p p' bs cs m :
  p' = p + Z.of_nat (length bs) →
  (let! m := st qend p bs m in st qend p' cs m) = st qend p (bs ++ cs) m.
Proof.
  intros ->. unfold st. rewrite length_app, Nat2Z.inj_add.
  destruct (0 <=? p) eqn:E1; [|done]. apply Z.leb_le in E1. cbn [andb].
  destruct (p + Z.of_nat (length bs) <=? qend) eqn:E2.
  - cbn [in_bounds res_bind]. rewrite (proj2 (Z.leb_le 0 _)) by lia. cbn [andb].
    rewrite Z.add_assoc. destruct (_ <=? qend); [|done]. cbn. by rewrite mwrite_n_app.
  - apply Z.leb_gt in E2. cbn. by rewrite (proj2 (Z.leb_gt _ _)) by lia.
Qed.

Definition raddr_bytes (remote_addr rkey : Z) : list Z :=
  be_bytes 8 remote_addr ++ be_bytes 4 rkey ++ le_bytes 4 0.

Lemma set_raddr_seg_st qend rseg a k m :
  set_raddr_seg qend rseg a k m = st qend rseg (raddr_bytes a k) m.
Proof.
  unfold set_raddr_seg, raddr_bytes. rewrite <-(st_app qend rseg (rseg + 8));
    [|by rewrite length_be_bytes]. destruct (st _ _ (be_bytes 8 a) m); [|done].
  apply st_app. rewrite length_be_bytes. lia.
Qed.

Definition ctrl_bytes (cs : ctrl_seg_data) (opcode idx opmod size fm_ce_se imm : Z) : list Z :=
  be_bytes 4 (Z.shiftl (u8 opmod) 24 .| Z.shiftl (u16 idx) 8 .| u8 opcode) ++
  be_bytes 4 (u32 (Z.shiftl (cs_qp_num cs) 8) .| (u8 size .& 0x3F)) ++
  be_bytes 4 (u8 fm_ce_se) ++ le_bytes 4 imm.

Lemma set_ctrl_seg_st qend start cs opcode idx opmod size fm imm m :
  set_ctrl_seg qend start cs opcode idx opmod size fm imm m =
  st qend start (ctrl_bytes cs opcode idx opmod size fm imm) m.
Proof.
  unfold set_ctrl_seg, ctrl_bytes.
  rewrite <-(st_app qend start (start + 4)); [|by rewrite length_be_bytes].
  destruct (st qend start _ m) as [m1|]; [|done]. cbn [res_bind].
  rewrite <-(st_app qend (start + 4) (start + 8)); [|rewrite length_be_bytes; lia].
  destruct (st qend (start + 4) _ m1) as [m2|]; [|done]. cbn [res_bind].
  apply st_app. rewrite length_be_bytes. lia.
Qed.

Lemma length_raddr_bytes a k : length (raddr_bytes a k) = 16%nat.
Proof. unfold raddr_bytes. by rewrite !length_app, !length_be_bytes, length_le_bytes. Qed.
Lemma length_ctrl_bytes cs a b c d f g : length (ctrl_bytes cs a b c d f g) = 16%nat.
Proof. unfold ctrl_bytes. by rewrite !length_app, !length_be_bytes, length_le_bytes. Qed.
Lemma length_data_seg_bytes a b c : length (data_seg_bytes a b c) = 16%nat.
Proof. unfold data_seg_bytes. by rewrite !length_app, !length_be_bytes. Qed.

(** The address vector with queue pair number and key of the request. *)
Definition av_size (av : list Z) : nat := if has_grh av then 48 else 16.
Definition datagram_bytes (wr : ibv_exp_send_wr) : list Z :=
  be_bytes 4 (ud_remote_qkey wr) ++ take 4 (drop 4 (ud_ah wr)) ++
  le_bytes 4 (av_dqp_dct (ud_ah wr) .| htonl (ud_remote_qpn wr)) ++
  drop 12 (take (av_size (ud_ah wr)) (ud_ah wr)).

Lemma split_at {A} (n : nat) (l : list A) :
  (n ≤ length l)%nat → l = take n l ++ drop n l ∧ length (take n l) = n.
Proof. intros Hn. rewrite take_drop, length_take. split; [done|lia]. Qed.

Lemma split_exact {A} (n k : nat) (l : list A) :
  length l = (n + k)%nat → ∃ l1 l2, l = l1 ++ l2 ∧ length l1 = n ∧ length l2 = k.
Proof.
  intros Hl. exists (take n l), (drop n l).
  rewrite take_drop, length_take, length_drop. repeat split; lia.
Qed.

Lemma set_datagram_seg_ring qend off p m A B C wr :
  0 < qend → at_pos qend off p (Z.of_nat (length A)) →
  ring_list m qend off = A ++ B ++ C →
  length (ud_ah wr) = 48%nat → length B = av_size (ud_ah wr) →
  p + Z.of_nat (length B) ≤ qend →
  ∃ m', set_datagram_seg qend p wr m = Ok (Z.of_nat (av_size (ud_ah wr)), m') ∧
        ring_list m' qend off = A ++ datagram_bytes wr ++ C.
Proof.
  intros Hq Ha HL Hah HB Hp. unfold set_datagram_seg.
  set (size := if has_grh (ud_ah wr) then 48 else 16).
  assert (Hs : Z.to_nat size = av_size (ud_ah wr)) by (unfold size, av_size; by destruct has_grh).
  assert (Hs' : (av_size (ud_ah wr) = 12 + 4 ∨ av_size (ud_ah wr) = 12 + 36)%nat).
  { unfold av_size. destruct has_grh; auto. }
  destruct (st_split qend off p m A B C (take (Z.to_nat size) (ud_ah wr)))
    as (m1 & -> & HL1); [done..|rewrite length_take; lia|rewrite length_take; lia|].
  cbn [res_bind]. rewrite Hs in HL1.
  (* the address vector in pieces: key, reserved, number, rest *)
  assert (Hcut : take (av_size (ud_ah wr)) (ud_ah wr) =
    take 4 (ud_ah wr) ++ take 4 (drop 4 (ud_ah wr)) ++ take 4 (drop 8 (ud_ah wr)) ++
    drop 12 (take (av_size (ud_ah wr)) (ud_ah wr))).
  { replace (av_size (ud_ah wr)) with (4 + (4 + (4 + (av_size (ud_ah wr) - 12))))%nat at 1 by lia.
    rewrite <-(take_take_drop _ 4), <-(take_take_drop _ 4), <-(take_take_drop _ 4).
    rewrite !drop_drop. cbn [Nat.add]. do 3 f_equal.
    by rewrite skipn_firstn_comm. }
  rewrite Hcut in HL1.
  set (R := drop 12 (take (av_size (ud_ah wr)) (ud_ah wr))) in *.
  set (A1 := take 4 (ud_ah wr)) in *. set (A2 := take 4 (drop 4 (ud_ah wr))) in *.
  set (A3 := take 4 (drop 8 (ud_ah wr))) in *.
  assert (length A1 = 4 ∧ length A2 = 4 ∧ length A3 = 4)%nat as (HA1 & HA2 & HA3).
  { unfold A1, A2, A3. rewrite !length_take, !length_drop. lia. }
  assert (Ha8 : at_pos qend off (p + 8) (Z.of_nat (length (A ++ A1 ++ A2)))).
  { rewrite !length_app, HA1, HA2. replace (Z.of_nat _) with (Z.of_nat (length A) + 8) by lia.
    apply at_pos_add; [done..|lia]. }
  assert (HL1' : ring_list m1 qend off = (A ++ A1 ++ A2) ++ A3 ++ (R ++ C)).
  { rewrite HL1. by rewrite <-!(assoc_L (++)). }
  pose proof (ld_split qend off (p + 8) m1 _ _ _ Hq Ha8 HL1' ltac:(rewrite HA3; lia)) as Eld.
  rewrite HA3 in Eld. rewrite Eld. cbn [res_bind].
  destruct (st_split qend off (p + 8) m1 _ A3 (R ++ C)
    (le_bytes 4 (le_word A3 .| htonl (ud_remote_qpn wr))) Hq Ha8 HL1')
    as (m2 & -> & HL2); [rewrite length_le_bytes; lia..|]. cbn [res_bind].
  destruct (st_split qend off p m2 A A1
    (A2 ++ le_bytes 4 (le_word A3 .| htonl (ud_remote_qpn wr)) ++ R ++ C)
    (be_bytes 4 (ud_remote_qkey wr)) Hq Ha) as (m3 & -> & HL3).
  { rewrite HL2. by rewrite <-!(assoc_L (++)). }
  { rewrite length_be_bytes. lia. }
  { rewrite length_be_bytes. lia. }
  cbn [res_bind]. exists m3. split.
  - do 2 f_equal. rewrite <-Hs, Z2Nat.id; [done|]. unfold size. destruct has_grh; lia.
  - rewrite HL3. unfold datagram_bytes, av_dqp_dct. fold A2 A3 R. by rewrite <-!(assoc_L (++)).
Qed.

Lemma length_datagram_bytes wr :
  length (ud_ah wr) = 48%nat → length (datagram_bytes wr) = av_size (ud_ah wr).
Proof.
  intros Hah. unfold datagram_bytes.
  rewrite !length_app, length_be_bytes, length_le_bytes, length_drop, !length_take, length_drop.
  unfold av_size. destruct has_grh; lia.
Qed.

(** ** Data *)

(** An entry without on-demand paging, within the limits of the device. *)
Definition plain_sge (sg : ibv_sge) : Prop :=
  0 ≤ sge_addr sg < 2 ^ 64 ∧ 0 ≤ sge_length sg < 2 ^ 31 ∧ 0 ≤ sge_lkey sg < 2 ^ 32 ∧
  sge_lkey sg ≠ ODP_GLOBAL_R_LKEY ∧ sge_lkey sg ≠ ODP_GLOBAL_W_LKEY.

(** The entries that become pointers: empty ones are skipped. *)
Definition live_sges (sgs : list ibv_sge) : list ibv_sge :=
  filter (λ sg, sge_length sg ≠ 0) sgs.
Definition sge_bytes (sg : ibv_sge) : list Z :=
  data_seg_bytes (sge_length sg) (sge_lkey sg) (sge_addr sg).
Definition ptr_bytes (sgs : list ibv_sge) : list Z := concat (map sge_bytes (live_sges sgs)).

Lemma live_sges_cons sg sgs :
  live_sges (sg :: sgs) = if sge_length sg =? 0 then live_sges sgs else sg :: live_sges sgs.
Proof.
  unfold live_sges. rewrite filter_cons. destruct (sge_length sg =? 0) eqn:E.
  - apply Z.eqb_eq in E. by rewrite decide_False by (intros ?; done).
  - apply Z.eqb_neq in E. by rewrite decide_True.
Qed.

(** Inline data: the bytes of all entries. *)
Definition payload (host : Z → Z) (sgs : list ibv_sge) : list Z :=
  concat (map (λ sg, hread host (sge_addr sg) (Z.to_nat (sge_length sg))) sgs).

Lemma length_hread host a n : length (hread host a n) = n.
Proof. unfold hread. by rewrite length_map, length_seq. Qed.

Lemma hread_u64 host a n : hread host (u64 a) n = hread host a n.
Proof.
  unfold hread. apply map_ext. intros k. f_equal. unfold u64. by rewrite Zplus_mod_idemp_l.
Qed.

Lemma hread_add host a n k :
  hread host a (n + k) = hread host a n ++ hread host (a + Z.of_nat n) k.
Proof.
  unfold hread. rewrite seq_app, map_app. f_equal.
  rewrite <-(Nat.add_0_r n) at 1. cbn [Nat.add]. rewrite Nat.add_0_r.
  assert (Hg : ∀ i, map (λ j, host (u64 (a + Z.of_nat j))) (seq (n + i) k) =
                    map (λ j, host (u64 (a + Z.of_nat n + Z.of_nat j))) (seq i k)).
  { induction k as [|k IH]; intros i; [done|]. simpl. f_equal.
    - do 2 f_equal. lia.
    - rewrite <-Nat.add_succ_r. apply IH. }
  specialize (Hg 0%nat). by rewrite Nat.add_0_r in Hg.
Qed.

Lemma plain_sge_key sg :
  plain_sge sg → (sge_lkey sg =? ODP_GLOBAL_R_LKEY) || (sge_lkey sg =? ODP_GLOBAL_W_LKEY) = false.
Proof.
  intros (_ & _ & _ & H1 & H2).
  by rewrite (proj2 (Z.eqb_neq _ _) H1), (proj2 (Z.eqb_neq _ _) H2).
Qed.

Section Data.
Context {K : Type} `{ImplicitLkey K}.
Variable host : Z → Z.
Variables qend off : Z.
Hypothesis Hq : 0 < qend.

Lemma set_data_ptr_seg_ring p sg m A B C (k : K) :
  plain_sge sg → at_pos qend off p (Z.of_nat (length A)) →
  ring_list m qend off = A ++ B ++ C → length B = 16%nat → p + 16 ≤ qend →
  ∃ m', set_data_ptr_seg qend p sg 0 m k = Ok ((0, m'), k) ∧
        ring_list m' qend off = A ++ sge_bytes sg ++ C.
Proof using Hq.
  intros Hsg Ha HL HB Hp. unfold set_data_ptr_seg. rewrite plain_sge_key by done.
  destruct Hsg as (Hadr & Hlen & _). rewrite Z.sub_0_r, Z.add_0_r, u32_small, u64_small by lia.
  destruct (st_split qend off p m A B C (sge_bytes sg) Hq Ha HL) as (m' & E & HL').
  { unfold sge_bytes. by rewrite length_data_seg_bytes. }
  { unfold sge_bytes. by rewrite length_data_seg_bytes. }
  exists m'. unfold eff_bind, eff_lift. fold (sge_bytes sg). by rewrite E.
Qed.

Lemma set_data_non_inl_ring sgs : ∀ p sz m A B C (k : K),
  Forall plain_sge sgs → at_pos qend off p (Z.of_nat (length A)) →
  (16 | qend) → (16 | p) →
  ring_list m qend off = A ++ B ++ C → length B = (16 * length (live_sges sgs))%nat →
  ∃ m', set_data_non_inl_seg qend sgs p sz 0 m k =
          Ok ((0, sz + Z.of_nat (length (live_sges sgs)), m'), k) ∧
        ring_list m' qend off = A ++ ptr_bytes sgs ++ C.
Proof using Hq.
  induction sgs as [|sg sgs IH]; intros p sz m A B C k Hsg Ha Hd Hdp HL HB.
  - exists m. simpl in *. destruct B; [|done]. by rewrite Z.add_0_r.
  - inversion_clear Hsg as [|?? Hsg1 Hsgs]. cbn [set_data_non_inl_seg].
    pose proof (at_pos_norm qend off p _ Hq Ha) as [Ha' Hlt].
    assert (Hdp' : (16 | if p =? qend then mlx5_get_send_wqe 0 else p)).
    { destruct (p =? qend); [by exists 0|done]. }
    set (p' := if p =? qend then mlx5_get_send_wqe 0 else p) in *. clearbody p'.
    unfold ptr_bytes in *. rewrite live_sges_cons in HB |- *.
    destruct (sge_length sg =? 0) eqn:E0.
    + by apply (IH p' sz m A B C).
    + apply Z.eqb_neq in E0. cbn [length map concat] in *.
      destruct (split_exact 16 (16 * length (live_sges sgs)) B) as (B1 & B2 & -> & HB1 & HB2); [lia|].
      destruct (set_data_ptr_seg_ring p' sg m A B1 (B2 ++ C) k Hsg1 Ha') as (m1 & E1 & HL1).
      { by rewrite HL, <-(assoc_L (++)). } { done. }
      { destruct Hd as [a ->], Hdp' as [b ->]. lia. }
      unfold eff_bind at 1. rewrite E1. cbn [res_bind fst snd negb Z.eqb].
      destruct (IH (p' + 16) (sz + 1) m1 (A ++ sge_bytes sg) B2 C k) as (m' & E' & HL').
      * done.
      * rewrite length_app. unfold sge_bytes at 1. rewrite length_data_seg_bytes, Nat2Z.inj_add.
        apply at_pos_add; [done..|]. destruct Hd as [a ->], Hdp' as [b ->]. lia.
      * done.
      * apply Z.divide_add_r; [done|by exists 1].
      * by rewrite HL1, <-(assoc_L (++)).
      * done.
      * exists m'. rewrite E'. split.
        { by replace (sz + 1 + Z.of_nat (length (live_sges sgs)))
            with (sz + Z.of_nat (S (length (live_sges sgs)))) by lia. }
        by rewrite HL', <-!(assoc_L (++)).
Qed.

(** Bytes of the entries up to the limit for inline data. *)
Lemma inl_loop_ring max sgs : ∀ p ninl m A B C,
  Forall plain_sge sgs → max < 2 ^ 31 → 0 ≤ ninl →
  ninl + Z.of_nat (length (payload host sgs)) ≤ max →
  at_pos qend off p (Z.of_nat (length A)) →
  ring_list m qend off = A ++ B ++ C → length B = length (payload host sgs) →
  ∃ m', inl_loop qend host max sgs p ninl 0 m =
          Ok (Some (ninl + Z.of_nat (length (payload host sgs))), m') ∧
        ring_list m' qend off = A ++ payload host sgs ++ C.
Proof using Hq.
  induction sgs as [|sg sgs IH]; intros p ninl m A B C Hsg Hmax Hn Hfit Ha HL HB.
  - exists m. simpl in *. destruct B; [|done]. by rewrite Z.add_0_r.
  - inversion_clear Hsg as [|?? Hsg1 Hsgs]. destruct Hsg1 as (Hadr & Hlen & _).
    unfold payload in Hfit, HB |- *. cbn [map concat] in *. fold (payload host sgs) in *.
    rewrite length_app, length_hread in *.
    cbn [inl_loop]. rewrite Z.sub_0_r, Z.add_0_r, (u64_small (sge_addr sg)) by lia.
    assert (Es : ∀ z, 0 ≤ z < 2 ^ 31 → s32 z = z).
    { intros z Hz. unfold s32. rewrite Z.mod_small; lia. }
    rewrite !Es by (rewrite ?Es; lia). rewrite u32_small by lia.
    rewrite (proj2 (Z.ltb_ge _ _)) by lia. rewrite (proj2 (Z.ltb_ge _ 0)) by lia.
    set (n := Z.to_nat (sge_length sg)) in *.
    destruct (split_exact n (length (payload host sgs)) B HB) as (B1 & B2 & -> & HB1 & HB2).
    pose proof (f_equal length HL) as HlenL. rewrite length_ring_list, !length_app in HlenL.
    pose proof (proj1 Ha) as Hp.
    assert (Hnext : ∀ p' m1, at_pos qend off p' (Z.of_nat (length A) + sge_length sg) →
      ring_list m1 qend off = A ++ hread host (sge_addr sg) n ++ B2 ++ C →
      ∃ m', inl_loop qend host max sgs p' (ninl + sge_length sg) 0 m1 =
          Ok (Some (ninl + Z.of_nat (n + length (payload host sgs))), m') ∧
        ring_list m' qend off = A ++ (hread host (sge_addr sg) n ++ payload host sgs) ++ C).
    { intros p' m1 Ha1 HL1.
      destruct (IH p' (ninl + sge_length sg) m1 (A ++ hread host (sge_addr sg) n) B2 C)
        as (m' & E' & HL').
      - done. - done. - lia. - lia.
      - rewrite length_app, length_hread. replace (Z.of_nat _) with (Z.of_nat (length A) + sge_length sg) by lia. done.
      - by rewrite HL1, <-!(assoc_L (++)).
      - done.
      - exists m'. rewrite E'. split; [do 3 f_equal; lia|]. by rewrite HL', <-!(assoc_L (++)). }
    destruct (qend <? p + sge_length sg) eqn:Ew.
    + apply Z.ltb_lt in Ew. set (c := qend - p).
      destruct (split_exact (Z.to_nat c) (n - Z.to_nat c) B1) as (B11 & B12 & -> & HB11 & HB12); [lia|].
      destruct (st_split qend off p m A B11 (B12 ++ B2 ++ C)
        (hread host (sge_addr sg) (Z.to_nat c)) Hq Ha) as (m1 & -> & HL1).
      { by rewrite HL, <-!(assoc_L (++)). }
      { by rewrite length_hread. } { rewrite length_hread. lia. }
      cbn [res_bind].
      assert (Ha0 : at_pos qend off 0 (Z.of_nat (length A) + c)).
      { apply at_pos_wrap; [done|]. replace qend with (p + c) at 2 by lia.
        apply at_pos_add; [done..|lia|lia]. }
      destruct (st_split qend off 0 m1 (A ++ hread host (sge_addr sg) (Z.to_nat c)) B12 (B2 ++ C)
        (hread host (sge_addr sg + c) (Z.to_nat (sge_length sg - c))) Hq) as (m2 & -> & HL2).
      { rewrite length_app, length_hread. by replace (Z.of_nat _) with (Z.of_nat (length A) + c) by lia. }
      { by rewrite HL1, <-!(assoc_L (++)). }
      { rewrite length_hread. lia. } { rewrite length_hread. lia. }
      cbn [res_bind]. apply Hnext.
      * replace (sge_length sg - c) with (0 + (sge_length sg - c)) at 1 by lia.
        replace (Z.of_nat (length A) + sge_length sg)
          with (Z.of_nat (length A) + c + (sge_length sg - c)) by lia.
        apply at_pos_add; [done..|lia|lia].
      * rewrite HL2. replace n with (Z.to_nat c + Z.to_nat (sge_length sg - c))%nat by lia.
        rewrite hread_add, Z2Nat.id by lia. by rewrite <-!(assoc_L (++)).
    + apply Z.ltb_ge in Ew.
      destruct (st_split qend off p m A B1 (B2 ++ C) (hread host (sge_addr sg) n) Hq Ha)
        as (m1 & -> & HL1).
      { by rewrite HL, <-!(assoc_L (++)). }
      { by rewrite length_hread. } { rewrite length_hread. lia. }
      cbn [res_bind]. apply Hnext; [|done]. apply at_pos_add; [done..|lia|lia].
Qed.

End Data.

(** ** The device reads a WQE *)
Inductive hca_data : Type :=
| HPtr (len lkey addr : Z)
| HInl (bytes : list Z).

(** Data segments: bit 31 of the first word marks inline data, which is
    padded to a multiple of 16 bytes. *)
Fixpoint parse_data (fuel : nat) (bs : list Z) : option (list hca_data) :=
  match fuel with
  | O => None
  | S fuel =>
      if decide (bs = []) then Some []
      else
        let w := be_word (take 4 bs) in
        if Z.testbit w 31 then
          let n := w .& 0x7FFFFFFF in
          let tot := align (n + 4) 16 in
          if tot <=? Z.of_nat (length bs) then
            cons (HInl (take (Z.to_nat n) (drop 4 bs))) <$> parse_data fuel (drop (Z.to_nat tot) bs)
          else None
        else if 16 <=? Z.of_nat (length bs) then
          cons (HPtr w (be_word (take 4 (drop 4 bs))) (be_word (take 8 (drop 8 bs))))
            <$> parse_data fuel (drop 16 bs)
        else None
  end.

(** A request as the device executes it. *)
Record hca_req : Type := HcaReq
  { hq_opcode : Z;
    hq_opmod : Z;
    hq_idx : Z;
    hq_qpn : Z;
    hq_fm_ce_se : Z;
    hq_imm : Z;
    hq_raddr : option (Z * Z);
    hq_av : list Z;
    hq_data : list hca_data }.

(** Which segments precede the data. *)
Definition hca_raddr_len (qpt : ibv_qp_type) (opcode : Z) : nat :=
  if bool_decide (qpt = IBV_QPT_UC ∨ qpt = IBV_QPT_RC) &&
     ((opcode =? MLX5_OPCODE_RDMA_WRITE) || (opcode =? MLX5_OPCODE_RDMA_WRITE_IMM) ||
      (opcode =? MLX5_OPCODE_RDMA_READ))
  then 16 else 0.
Definition hca_av_len (qpt : ibv_qp_type) (body : list Z) : nat :=
  if bool_decide (qpt = IBV_QPT_UD) then
    if Z.testbit (be_word (take 4 (drop 8 body))) 31 then 48 else 16
  else 0.

(** Request and number of 16-byte units of the WQE at the front of [bs]. *)
Definition hca_decode (qpt : ibv_qp_type) (bs : list Z) : option (hca_req * Z) :=
  let w0 := be_word (take 4 bs) in
  let w1 := be_word (take 4 (drop 4 bs)) in
  let w2 := be_word (take 4 (drop 8 bs)) in
  let opcode := w0 .& 0xFF in
  let ds := w1 .& 0x3F in
  if (1 <=? ds) && (16 * ds <=? Z.of_nat (length bs)) then
    let body := take (Z.to_nat (16 * (ds - 1))) (drop 16 bs) in
    let rl := hca_raddr_len qpt opcode in
    let al := hca_av_len qpt body in
    data ← parse_data (S (length body)) (drop (rl + al) body);
    Some (HcaReq opcode (w0 .>> 24) ((w0 .>> 8) .& 0xFFFF) (w1 .>> 8) (w2 .& 0xFF)
            (le_word (take 4 (drop 12 bs)))
            (if decide (rl = 0%nat) then None
             else Some (be_word (take 8 body), be_word (take 4 (drop 8 body))))
            (take al body) data, ds)
  else None.

(** *** Words put together by shifts *)
Lemma lor_shiftl_add a b n : 0 ≤ n → 0 ≤ b < 2 ^ n → Z.shiftl a n .| b = a * 2 ^ n + b.
Proof.
  intros Hn Hb. pose proof (Z.add_lor_land (Z.shiftl a n) b) as E.
  assert (Z.shiftl a n .& b = 0) as E0.
  { apply Z.bits_inj'. intros i Hi. rewrite Z.land_spec, Z.bits_0, Z.shiftl_spec by lia.
    destruct (Z.lt_ge_cases i n).
    - by rewrite Z.testbit_neg_r by lia.
    - destruct (decide (b = 0)) as [->|]; [by rewrite Z.bits_0, andb_false_r|].
      rewrite (Z.bits_above_log2 b), andb_false_r; [done|lia|].
      apply Z.log2_lt_pow2; [lia|]. apply Z.lt_le_trans with (2 ^ n); [lia|].
      apply Z.pow_le_mono_r; lia. }
  rewrite E0, Z.add_0_r in E. rewrite <-Z.shiftl_mul_pow2 by lia. done.
Qed.

Lemma be_word_bytes_app n z l :
  be_word (take n (be_bytes n z ++ l)) = z mod 2 ^ (8 * Z.of_nat n).
Proof. rewrite take_app_length' by (by rewrite length_be_bytes). apply be_word_bytes. Qed.

Lemma be_word4 z l : 0 ≤ z < 2 ^ 32 → be_word (take 4 (be_bytes 4 z ++ l)) = z.
Proof. intros Hz. rewrite be_word_bytes_app. by apply Z.mod_small. Qed.
Lemma be_word8 z l : 0 ≤ z < 2 ^ 64 → be_word (take 8 (be_bytes 8 z ++ l)) = z.
Proof. intros Hz. rewrite be_word_bytes_app. by apply Z.mod_small. Qed.

Lemma ctrl_word0 idx opcode :
  0 ≤ idx < 2 ^ 16 → 0 ≤ opcode < 2 ^ 8 →
  let w := Z.shiftl (u8 0) 24 .| Z.shiftl idx 8 .| opcode in
  0 ≤ w < 2 ^ 32 ∧ w .& 0xFF = opcode ∧ (w .>> 8) .& 0xFFFF = idx ∧ w .>> 24 = 0.
Proof.
  intros Hi Ho. cbv zeta. change (Z.shiftl (u8 0) 24) with 0. rewrite Z.lor_0_l.
  rewrite lor_shiftl_add by lia.
  change 0xFF with (2 ^ 8 - 1). change 0xFFFF with (2 ^ 16 - 1).
  rewrite !u64_land_mask, !Z.shiftr_div_pow2 by lia.
  split; [lia|]. split; [|split].
  - rewrite Z.add_comm, Z.mod_add, Z.mod_small by lia. done.
  - rewrite Z.add_comm, Z.div_add, Z.div_small, Z.add_0_l, Z.mod_small by lia. done.
  - apply Z.div_small. lia.
Qed.

Lemma ctrl_word1 qpn ds :
  0 ≤ qpn < 2 ^ 24 → 0 ≤ ds < 64 →
  let w := u32 (Z.shiftl qpn 8) .| (u8 ds .& 0x3F) in
  0 ≤ w < 2 ^ 32 ∧ w .>> 8 = qpn ∧ w .& 0x3F = ds.
Proof.
  intros Hqp Hds. cbv zeta.
  assert (u8 ds = ds) as -> by (apply Z.mod_small; lia).
  change 0x3F with (2 ^ 6 - 1). rewrite (u64_land_mask ds), (Z.mod_small ds) by lia.
  rewrite u32_small by (rewrite Z.shiftl_mul_pow2; lia).
  rewrite lor_shiftl_add, u64_land_mask, Z.shiftr_div_pow2 by lia.
  split; [lia|]. split.
  - rewrite Z.add_comm, Z.div_add, Z.div_small by lia. lia.
  - replace (qpn * 2 ^ 8 + ds) with (ds + (qpn * 4) * 2 ^ 6) by lia.
    rewrite Z.mod_add, Z.mod_small by lia. done.
Qed.

(** *** Data segments read back *)
Lemma data_word_ptr n : 0 ≤ n < 2 ^ 31 → Z.testbit n 31 = false.
Proof.
  intros Hn. destruct (decide (n = 0)) as [->|]; [done|].
  apply Z.bits_above_log2; [lia|]. apply Z.log2_lt_pow2; lia.
Qed.

Lemma data_word_inl n :
  0 ≤ n < 2 ^ 31 →
  0 ≤ n .| MLX5_INLINE_SEG < 2 ^ 32 ∧ Z.testbit (n .| MLX5_INLINE_SEG) 31 = true ∧
  (n .| MLX5_INLINE_SEG) .& 0x7FFFFFFF = n.
Proof.
  intros Hn. rewrite Z.lor_spec. change (Z.testbit MLX5_INLINE_SEG 31) with true.
  rewrite orb_true_r. change MLX5_INLINE_SEG with (Z.shiftl 1 31).
  rewrite Z.lor_comm, lor_shiftl_add by lia. split; [lia|]. split; [done|].
  change 0x7FFFFFFF with (2 ^ 31 - 1). rewrite u64_land_mask by lia.
  rewrite Z.add_comm, Z.mod_add, Z.mod_small; lia.
Qed.

Lemma parse_ptr fuel n lkey addr rest :
  0 ≤ n < 2 ^ 31 → 0 ≤ lkey < 2 ^ 32 → 0 ≤ addr < 2 ^ 64 →
  parse_data (S fuel) (data_seg_bytes n lkey addr ++ rest) =
  cons (HPtr n lkey addr) <$> parse_data fuel rest.
Proof.
  intros Hn Hl Ha. set (bs := data_seg_bytes n lkey addr ++ rest).
  assert (Ebs : bs = be_bytes 4 n ++ be_bytes 4 lkey ++ be_bytes 8 addr ++ rest).
  { unfold bs, data_seg_bytes. by rewrite <-!(assoc_L (++)). }
  assert (Hlen : (16 <=? Z.of_nat (length bs)) = true).
  { unfold bs. rewrite length_app, length_data_seg_bytes. apply Z.leb_le. lia. }
  cbn [parse_data]. rewrite decide_False.
  2: { intros E. rewrite E in Hlen. done. }
  assert (be_word (take 4 bs) = n) as -> by (rewrite Ebs; apply be_word4; lia).
  rewrite Hlen, data_word_ptr by lia.
  assert (drop 4 bs = be_bytes 4 lkey ++ be_bytes 8 addr ++ rest) as ->.
  { rewrite Ebs. apply drop_app_length'. by rewrite length_be_bytes. }
  assert (drop 8 bs = be_bytes 8 addr ++ rest) as ->.
  { rewrite Ebs, (assoc_L (++)). apply drop_app_length'. by rewrite length_app, !length_be_bytes. }
  rewrite be_word4, be_word8 by lia.
  assert (drop 16 bs = rest) as ->; [|done].
  unfold bs. apply drop_app_length'. by rewrite length_data_seg_bytes.
Qed.

Definition hca_ptr (sg : ibv_sge) : hca_data := HPtr (sge_length sg) (sge_lkey sg) (sge_addr sg).

Lemma parse_ptr_bytes sgs : ∀ fuel,
  Forall plain_sge sgs → (length (live_sges sgs) < fuel)%nat →
  parse_data fuel (ptr_bytes sgs) = Some (map hca_ptr (live_sges sgs)).
Proof.
  unfold ptr_bytes. induction sgs as [|sg sgs IH]; intros fuel Hsg Hf.
  - destruct fuel; [simpl in Hf; lia|]. done.
  - inversion_clear Hsg as [|?? Hsg1 Hsgs]. rewrite live_sges_cons in Hf |- *.
    destruct (sge_length sg =? 0); [by apply IH|]. destruct fuel; [lia|]. cbn [map concat].
    unfold sge_bytes at 1. destruct Hsg1 as (? & ? & ? & ?).
    rewrite parse_ptr by lia. rewrite IH; [done..|simpl in Hf; lia].
Qed.

Lemma parse_inl fuel bytes pad :
  Z.of_nat (length bytes) < 2 ^ 31 →
  Z.of_nat (length bytes + 4 + length pad) = align (Z.of_nat (length bytes) + 4) 16 →
  parse_data (S (S fuel)) (be_bytes 4 (Z.of_nat (length bytes) .| MLX5_INLINE_SEG) ++ bytes ++ pad)
  = Some [HInl bytes].
Proof.
  intros Hn Hpad. set (w := Z.of_nat (length bytes) .| MLX5_INLINE_SEG).
  set (bs := be_bytes 4 w ++ bytes ++ pad).
  destruct (data_word_inl (Z.of_nat (length bytes))) as (Hw & Hb & Hm); [lia|].
  assert (Hlen : length bs = (length bytes + 4 + length pad)%nat).
  { unfold bs. rewrite !length_app, length_be_bytes. lia. }
  cbn [parse_data]. rewrite decide_False by (intros E; rewrite E in Hlen; simpl in Hlen; lia).
  assert (be_word (take 4 bs) = w) as -> by (by apply be_word4).
  fold w in Hb, Hm. rewrite Hb, Hm, Hlen, Hpad, Z.leb_refl.
  assert (drop 4 bs = bytes ++ pad) as -> by (apply drop_app_length'; by rewrite length_be_bytes).
  rewrite Nat2Z.id, take_app_length.
  assert (drop (Z.to_nat (align (Z.of_nat (length bytes) + 4) 16)) bs = []) as ->.
  { apply drop_ge. rewrite Hlen, <-Hpad. lia. }
  done.
Qed.
