(* ===== verification/Mlx5Encode.v ===== *)
(** * libmlx5: a posted request is read back by the device

    The builders of [Mlx5Wqe] for UC, UD and RC queue pairs write, anywhere
    in the ring, a WQE that [hca_decode] reads as the work request they were
    given, and change nothing else of the ring. *)

From stdpp Require Import base gmap list numbers.
From Stdlib Require Import ZArith Lia.
From S2P Require Import Prelude Mlx5Base Mlx5Wqe Mlx5WqeProof.

(** ** Inline data *)
Definition inl_units (n : Z) : Z := if n =? 0 then 0 else align (n + 4) 16 / 16.

Lemma inl_units_spec n :
  0 ≤ n < 2 ^ 32 → 16 * inl_units n = (if n =? 0 then 0 else align (n + 4) 16) ∧
  0 ≤ inl_units n ∧ n ≤ 16 * inl_units n ∧ 16 * inl_units n ≤ n + 19 ∧
  (n ≠ 0 → n + 4 ≤ 16 * inl_units n).
Proof.
  intros Hn. unfold inl_units. destruct (n =? 0) eqn:E; [apply Z.eqb_eq in E; lia|].
  pose proof (align_spec (n + 4) 4 ltac:(lia) ltac:(lia) ltac:(lia)) as [H1 H2].
  change (2 ^ 4) with 16 in *. apply Z.mod_divide in H2 as [q Hq]; [|done].
  rewrite Hq, Z.div_mul by done. lia.
Qed.

Section Inline.
Context {K : Type} `{ImplicitLkey K}.
Variable host : Z → Z.
Variables qend off : Z.
Hypothesis Hq : 0 < qend.

Lemma inl_loop_empty max sgs : ∀ p m,
  Forall plain_sge sgs → payload host sgs = [] → 0 ≤ max → 0 ≤ p ≤ qend →
  inl_loop qend host max sgs p 0 0 m = Ok (Some 0, m).
Proof using Hq.
  induction sgs as [|sg sgs IH]; intros p m Hsg Hpay Hmax Hp; [done|].
  inversion_clear Hsg as [|?? Hsg1 Hsgs]. destruct Hsg1 as (Hadr & Hlen & _).
  unfold payload in Hpay. cbn [map concat] in Hpay. apply app_eq_nil in Hpay as [H1 H2].
  apply (f_equal length) in H1. rewrite length_hread in H1. simpl in H1.
  assert (E0 : sge_length sg = 0) by lia. cbn [inl_loop]. rewrite E0.
  change (s32 (0 - 0)) with 0. change (s32 (0 + 0)) with 0. change (u32 0) with 0.
  rewrite (proj2 (Z.ltb_ge max 0)), (proj2 (Z.ltb_ge qend _)) by lia. cbn [Z.ltb Z.compare].
  change (hread host (sge_addr sg +64 0) (Z.to_nat 0)) with (@nil Z). unfold st. cbn [length]. rewrite (proj2 (Z.leb_le 0 p)), (proj2 (Z.leb_le _ qend)) by lia.
  cbn. rewrite Z.add_0_r. by apply IH.
Qed.

Lemma set_data_inl_ring max sgs p sz m A B C :
  Forall plain_sge sgs → max < 2 ^ 31 → Z.of_nat (length (payload host sgs)) ≤ max →
  at_pos qend off p (Z.of_nat (length A)) → (16 | qend) → (16 | p) → p < qend →
  ring_list m qend off = A ++ B ++ C →
  Z.of_nat (length B) = 16 * inl_units (Z.of_nat (length (payload host sgs))) →
  ∃ m' D, set_data_inl_seg qend host max sgs p sz 0 m =
            Ok (0, sz + inl_units (Z.of_nat (length (payload host sgs))), m') ∧
    ring_list m' qend off = A ++ D ++ C ∧ length D = length B ∧
    ∀ fuel, (length D < fuel)%nat →
      parse_data fuel D =
      Some (if decide (payload host sgs = []) then [] else [HInl (payload host sgs)]).
Proof using Hq.
  intros Hsg Hmax Hfit Ha Hdq Hdp Hp HL HB. unfold set_data_inl_seg.
  set (T := Z.of_nat (length (payload host sgs))) in *.
  destruct (inl_units_spec T ltac:(lia)) as (Hu & Hu0 & Hu1 & Hu2 & Hu3).
  assert (p + 16 ≤ qend) by (destruct Hdq as [a ->], Hdp as [b ->]; lia).
  pose proof (proj1 Ha).
  destruct (decide (payload host sgs = [])) as [Hnil|Hne].
  - rewrite (inl_loop_empty max sgs (p + 4) m) by (done || lia). cbn [res_bind].
    assert (T = 0) as -> by (unfold T; by rewrite Hnil).
    exists m, []. destruct B; [|done]. rewrite Z.add_0_r.
    do 3 (split; [done|]). by intros [|fuel] Hf; [inversion Hf|].
  - assert (T ≠ 0) by (unfold T; destruct (payload host sgs); [done|simpl; lia]).
    rewrite (proj2 (Z.eqb_neq T 0)) in Hu by done.
    destruct (split_exact 4 (length B - 4) B) as (B1 & B' & -> & HB1 & HB'); [lia|].
    rewrite length_app in HB.
    destruct (split_exact (length (payload host sgs)) (length B' - length (payload host sgs)) B')
      as (B2 & pad & -> & HB2 & Hpad); [lia|].
    destruct (inl_loop_ring host qend off Hq max sgs (p + 4) 0 m (A ++ B1) B2 (pad ++ C))
      as (m1 & E1 & HL1); [done..|lia| | |done|].
    { rewrite length_app, HB1, Nat2Z.inj_add. apply at_pos_add; [done..|lia]. }
    { by rewrite HL, <-!(assoc_L (++)). }
    rewrite E1. cbn [res_bind]. fold T. rewrite Z.add_0_l, (proj2 (Z.eqb_neq T 0)) by done.
    destruct (st_split qend off p m1 A B1 (payload host sgs ++ pad ++ C)
      (be_bytes 4 (T .| MLX5_INLINE_SEG)) Hq Ha) as (m' & -> & HL').
    { by rewrite HL1, <-!(assoc_L (++)). }
    { by rewrite length_be_bytes. } { rewrite length_be_bytes. lia. }
    cbn [res_bind]. exists m', (be_bytes 4 (T .| MLX5_INLINE_SEG) ++ payload host sgs ++ pad).
    split; [|split; [by rewrite HL', <-!(assoc_L (++))|split]].
    + unfold inl_units. by rewrite (proj2 (Z.eqb_neq T 0)) by done.
    + rewrite !length_app, length_be_bytes. lia.
    + intros fuel Hf. rewrite !length_app, length_be_bytes in Hf.
      destruct fuel as [|[|fuel]]; [lia..|]. apply parse_inl; [lia|].
      rewrite !length_app in HB. fold T. rewrite <-Hu. lia.
Qed.
End Inline.

(** ** Data of either kind *)
Definition data_units (host : Z → Z) (inline : bool) (sgs : list ibv_sge) : Z :=
  if inline then inl_units (Z.of_nat (length (payload host sgs)))
  else Z.of_nat (length (live_sges sgs)).

Definition hca_data_of (host : Z → Z) (inline : bool) (sgs : list ibv_sge) : list hca_data :=
  if inline then
    if decide (payload host sgs = []) then [] else [HInl (payload host sgs)]
  else map hca_ptr (live_sges sgs).

Lemma data_units_nonneg host inline sgs : 0 ≤ data_units host inline sgs.
Proof.
  unfold data_units, inl_units. destruct inline; [|lia]. destruct (_ =? 0); [lia|].
  apply Z.div_pos; [|lia]. unfold align. apply Z.land_nonneg. left. apply u64_range.
Qed.

Lemma length_ptr_bytes sgs : length (ptr_bytes sgs) = (16 * length (live_sges sgs))%nat.
Proof.
  unfold ptr_bytes. induction (live_sges sgs) as [|sg l IH]; [done|]. cbn [map concat length].
  rewrite length_app, IH. unfold sge_bytes. rewrite length_data_seg_bytes. lia.
Qed.

Lemma set_data_seg_ring {K : Type} `{ImplicitLkey K} host qend off max sgs inline p sz m A B C (k : K) :
  0 < qend → Forall plain_sge sgs → max < 2 ^ 31 →
  (inline = true → Z.of_nat (length (payload host sgs)) ≤ max) →
  at_pos qend off p (Z.of_nat (length A)) → (16 | qend) → (16 | p) → p < qend →
  ring_list m qend off = A ++ B ++ C → Z.of_nat (length B) = 16 * data_units host inline sgs →
  ∃ m' D, set_data_seg qend host max p sz inline sgs 0 0 0 m k =
            Ok ((0, sz + data_units host inline sgs, m'), k) ∧
    ring_list m' qend off = A ++ D ++ C ∧ length D = length B ∧
    ∀ fuel, (length D < fuel)%nat → parse_data fuel D = Some (hca_data_of host inline sgs).
Proof.
  intros Hq Hsg Hmax Hfit Ha Hdq Hdp Hp HL HB.
  unfold set_data_seg, data_units, hca_data_of in *. destruct inline.
  - destruct (set_data_inl_ring host qend off Hq max sgs p sz m A B C) as (m' & D & E & HD);
      [by auto..|]. exists m', D. unfold eff_lift. rewrite drop_0, E. done.
  - destruct (set_data_non_inl_ring qend off Hq sgs p sz m A B C k) as (m' & E & HD);
      [done..|lia|]. exists m', (ptr_bytes sgs). rewrite drop_0. cbn [negb Z.eqb].
    split; [done|]. split; [done|]. split; [rewrite length_ptr_bytes; lia|].
    intros fuel Hf. rewrite length_ptr_bytes in Hf. apply parse_ptr_bytes; [done|lia].
Qed.

(** ** The control segment *)
Lemma hca_decode_ctrl qpt cs op idx size fm imm body R :
  0 ≤ op < 2 ^ 8 → 0 ≤ cs_qp_num cs < 2 ^ 24 → 0 ≤ fm < 2 ^ 8 → 0 ≤ imm < 2 ^ 32 →
  1 ≤ size < 64 → Z.of_nat (length body) = 16 * (size - 1) →
  hca_decode qpt ((ctrl_bytes cs op idx 0 size fm imm ++ body) ++ R) =
  let rl := hca_raddr_len qpt op in
  let al := hca_av_len qpt body in
  data ← parse_data (S (length body)) (drop (rl + al) body);
  Some (HcaReq op 0 (u16 idx) (cs_qp_num cs) fm imm
          (if decide (rl = 0%nat) then None
           else Some (be_word (take 8 body), be_word (take 4 (drop 8 body))))
          (take al body) data, size).
Proof.
  intros Hop Hqp Hfm Himm Hsz Hbody.
  destruct (ctrl_word0 (u16 idx) op (u16_range idx) Hop) as (Hw0 & E0a & E0b & E0c).
  destruct (ctrl_word1 (cs_qp_num cs) size Hqp ltac:(lia)) as (Hw1 & E1a & E1b).
  set (w0 := Z.shiftl (u8 0) 24 .| Z.shiftl (u16 idx) 8 .| op) in *.
  set (w1 := u32 (Z.shiftl (cs_qp_num cs) 8) .| (u8 size .& 0x3F)) in *.
  set (bs := (ctrl_bytes cs op idx 0 size fm imm ++ body) ++ R).
  assert (Ebs : bs = be_bytes 4 w0 ++ be_bytes 4 w1 ++ be_bytes 4 fm ++ le_bytes 4 imm ++ body ++ R).
  { unfold bs, ctrl_bytes, w0, w1. rewrite <-!(assoc_L (++)).
    assert (u8 op = op) as -> by by apply Z.mod_small.
    by assert (u8 fm = fm) as -> by by apply Z.mod_small. }
  unfold hca_decode.
  assert (be_word (take 4 bs) = w0) as -> by (rewrite Ebs; by apply be_word4).
  assert (drop 4 bs = be_bytes 4 w1 ++ be_bytes 4 fm ++ le_bytes 4 imm ++ body ++ R) as ->.
  { rewrite Ebs. apply drop_app_length'. by rewrite length_be_bytes. }
  assert (drop 8 bs = be_bytes 4 fm ++ le_bytes 4 imm ++ body ++ R) as ->.
  { rewrite Ebs, (assoc_L (++)). apply drop_app_length'. by rewrite length_app, !length_be_bytes. }
  assert (drop 12 bs = le_bytes 4 imm ++ body ++ R) as ->.
  { rewrite Ebs, !(assoc_L (++)), <-(assoc_L (++) _ body R), <-(assoc_L (++) _ (le_bytes 4 imm)).
    apply drop_app_length'. by rewrite !length_app, !length_be_bytes. }
  assert (drop 16 bs = body ++ R) as ->.
  { unfold bs. rewrite <-(assoc_L (++)). apply drop_app_length'. by rewrite length_ctrl_bytes. }
  rewrite !be_word4 by lia. rewrite E0a, E0b, E0c, E1a, E1b.
  rewrite (take_app_length' (le_bytes 4 imm)) by by rewrite length_le_bytes.
  rewrite le_word_bytes, (Z.mod_small imm) by lia.
  change 0xFF with (2 ^ 8 - 1). rewrite u64_land_mask, (Z.mod_small fm) by lia.
  assert (Hlen : (16 * size <=? Z.of_nat (length bs)) = true).
  { apply Z.leb_le. unfold bs. rewrite !length_app, length_ctrl_bytes. lia. }
  rewrite Hlen, (proj2 (Z.leb_le 1 size)) by lia. cbn [andb].
  rewrite (take_app_length' body) by lia. done.
Qed.

(** ** Address vectors *)
Lemma testbit_ntohl x : Z.testbit (ntohl x) 31 = Z.testbit x 7.
Proof.
  unfold ntohl, htonl, be_bytes. cbn [le_bytes rev app le_word].
  set (b1 := u8 (Z.shiftr x 8)). set (b2 := u8 (Z.shiftr (Z.shiftr x 8) 8)).
  set (b3 := u8 (Z.shiftr (Z.shiftr (Z.shiftr x 8) 8) 8)).
  assert (0 ≤ b1 < 2 ^ 8) by apply u8_range. assert (0 ≤ b2 < 2 ^ 8) by apply u8_range.
  assert (0 ≤ b3 < 2 ^ 8) by apply u8_range. clearbody b1 b2 b3.
  pose proof (u8_range x) as Hx. apply Z.b2z_inj. rewrite !Z.testbit_spec' by lia.
  replace ((b3 + 256 * (b2 + 256 * (b1 + 256 * (u8 x + 256 * 0)))) / 2 ^ 31) with (u8 x / 2 ^ 7).
  - unfold u8. change (2 ^ 8) with (2 ^ 7 * 2). rewrite Z.rem_mul_r by lia.
    rewrite Z.add_comm, Z.mul_comm, Z.div_add_l, (Z.div_small (x mod 2 ^ 7)), Z.add_0_r
      by (try apply Z.mod_pos_bound; lia). by rewrite Z.mod_mod by lia.
  - apply Z.div_unique with (r := b3 + 256 * b2 + 65536 * b1 + 2 ^ 24 * (u8 x mod 2 ^ 7)).
    + pose proof (Z.mod_pos_bound (u8 x) (2 ^ 7) ltac:(lia)). lia.
    + pose proof (Z.div_mod (u8 x) (2 ^ 7) ltac:(lia)). lia.
Qed.

Lemma has_grh_testbit av : has_grh av = Z.testbit (av_dqp_dct av) 7.
Proof.
  unfold has_grh. change (ntohl MLX5_EXTENDED_UD_AV) with (2 ^ 7).
  destruct (Z.testbit (av_dqp_dct av) 7) eqn:E.
  - destruct (_ =? 0) eqn:F; [|done]. apply Z.eqb_eq in F.
    assert (Z.testbit (av_dqp_dct av .& 2 ^ 7) 7 = true) as G by by rewrite Z.land_spec, E.
    by rewrite F in G.
  - assert (av_dqp_dct av .& 2 ^ 7 = 0) as ->; [|done].
    apply Z.bits_inj'. intros i Hi. rewrite Z.land_spec, Z.bits_0, Z.pow2_bits_eqb by lia.
    destruct (7 =? i) eqn:F; [apply Z.eqb_eq in F as <-|]; by rewrite ?E, ?andb_false_r.
Qed.

Lemma hca_av_len_datagram wr R :
  length (ud_ah wr) = 48%nat → 0 ≤ ud_remote_qpn wr < 2 ^ 24 →
  hca_av_len IBV_QPT_UD (datagram_bytes wr ++ R) = av_size (ud_ah wr).
Proof.
  intros Hah Hqpn. unfold hca_av_len. rewrite bool_decide_true by done.
  unfold datagram_bytes. rewrite <-!(assoc_L (++)).
  set (x := av_dqp_dct (ud_ah wr) .| htonl (ud_remote_qpn wr)).
  rewrite (assoc_L (++) (be_bytes 4 _)), drop_app_length'.
  2: { rewrite length_app, length_be_bytes, length_take, length_drop. lia. }
  rewrite take_app_length' by by rewrite length_le_bytes.
  change (be_word (le_bytes 4 x)) with (ntohl x). rewrite testbit_ntohl.
  unfold x, av_size. rewrite has_grh_testbit, Z.lor_spec, <-(testbit_ntohl (htonl _)), ntohl_htonl.
  rewrite u32_small, (data_word_ptr (ud_remote_qpn wr)) by lia. by rewrite orb_false_r.
Qed.

(** ** A request and what the device makes of it *)
Definition hca_opcode (op : ibv_exp_wr_opcode) : option (Z * bool) :=
  match op with
  | IBV_EXP_WR_SEND => Some (MLX5_OPCODE_SEND, false)
  | IBV_EXP_WR_SEND_WITH_IMM => Some (MLX5_OPCODE_SEND_IMM, true)
  | IBV_EXP_WR_RDMA_WRITE => Some (MLX5_OPCODE_RDMA_WRITE, false)
  | IBV_EXP_WR_RDMA_WRITE_WITH_IMM => Some (MLX5_OPCODE_RDMA_WRITE_IMM, true)
  | _ => None
  end.

Definition is_write (op : ibv_exp_wr_opcode) : bool :=
  bool_decide (op = IBV_EXP_WR_RDMA_WRITE ∨ op = IBV_EXP_WR_RDMA_WRITE_WITH_IMM).

(** The segments between control segment and data. *)
Definition mid_bytes (qpt : ibv_qp_type) (wr : ibv_exp_send_wr) : list Z :=
  match qpt with
  | IBV_QPT_UC | IBV_QPT_RC =>
      if is_write (exp_opcode wr) then raddr_bytes (rdma_remote_addr wr) (rdma_rkey wr) else []
  | IBV_QPT_UD => datagram_bytes wr
  | _ => []
  end.

(** Size of the WQE in units of 16 bytes. *)
Definition mid_len (qpt : ibv_qp_type) (wr : ibv_exp_send_wr) : nat :=
  match qpt with
  | IBV_QPT_UC | IBV_QPT_RC => if is_write (exp_opcode wr) then 16 else 0
  | IBV_QPT_UD => av_size (ud_ah wr)
  | _ => 0
  end.
Definition wqe_units (host : Z → Z) (qpt : ibv_qp_type) (fl : send_flags) (wr : ibv_exp_send_wr) : Z :=
  1 + Z.of_nat (mid_len qpt wr / 16) + data_units host (IBV_SEND_INLINE fl) (sg_list wr).

Definition flag_byte (sq_signal_bits : Z) (fl : send_flags) : Z :=
  sq_signal_bits .| fm_ce_se_of (IBV_SEND_SOLICITED fl) (IBV_SEND_SIGNALED fl) (IBV_SEND_FENCE fl).

(** The request that the device should see. *)
Definition hca_request (host : Z → Z) (e : wqe_env) (sq_signal_bits : Z) (fl : send_flags)
    (wr : ibv_exp_send_wr) : option hca_req :=
  '(op, imm) ← hca_opcode (exp_opcode wr);
  Some (HcaReq op 0 (u16 (we_scur_post e)) (cs_qp_num (we_ctrl_seg e)) (flag_byte sq_signal_bits fl)
          (if imm : bool then imm_data wr else 0)
          (if bool_decide (we_qp_type e = IBV_QPT_UD) then None
           else if is_write (exp_opcode wr) then Some (rdma_remote_addr wr, rdma_rkey wr) else None)
          (if bool_decide (we_qp_type e = IBV_QPT_UD) then datagram_bytes wr else [])
          (hca_data_of host (IBV_SEND_INLINE fl) (sg_list wr))).

(** Requests that the programs of the repository post. *)
Record wr_ok (qpt : ibv_qp_type) (wr : ibv_exp_send_wr) : Prop := WrOk
  { wo_op : is_Some (hca_opcode (exp_opcode wr));
    wo_ud : qpt = IBV_QPT_UD → is_write (exp_opcode wr) = false;
    wo_imm : 0 ≤ imm_data wr < 2 ^ 32;
    wo_sges : Forall plain_sge (sg_list wr);
    wo_raddr : 0 ≤ rdma_remote_addr wr < 2 ^ 64;
    wo_rkey : 0 ≤ rdma_rkey wr < 2 ^ 32;
    wo_ah : length (ud_ah wr) = 48%nat;
    wo_qpn : 0 ≤ ud_remote_qpn wr < 2 ^ 24 }.

(** A queue pair as [create_qp] leaves it. *)
Record env_ok (e : wqe_env) (sq_signal_bits : Z) : Prop := EnvOk
  { eo_pos : 0 < we_qend e;
    eo_div : (64 | we_qend e);
    eo_inl : we_max_inline_data e < 2 ^ 31;
    eo_qpn : 0 ≤ cs_qp_num (we_ctrl_seg e) < 2 ^ 24;
    eo_sig : wq_sig (we_ctrl_seg e) = false;
    eo_tbl : fm_ce_se_tbl (we_ctrl_seg e) = build_tbl sq_signal_bits;
    eo_bits : sq_signal_bits = 0 ∨ sq_signal_bits = MLX5_WQE_CTRL_CQ_UPDATE }.

Lemma flag_byte_tbl b fl : arr_get (build_tbl b) (fm_index fl) = Ok (flag_byte b fl).
Proof. destruct fl as [[] [] [] i c d w]; reflexivity. Qed.

Lemma flag_byte_range b fl :
  b = 0 ∨ b = MLX5_WQE_CTRL_CQ_UPDATE → 0 ≤ flag_byte b fl < 2 ^ 8.
Proof.
  intros [-> | ->]; destruct fl as [[] [] [] i c d w];
    (split; [vm_compute; discriminate|vm_compute; reflexivity]).
Qed.

(** What the table says of the four opcodes. *)
Lemma opcode_facts op o imm :
  hca_opcode op = Some (o, imm) →
  ∃ v, mlx5_ib_opcode op = Ok v ∧ MLX5_IB_OPCODE_GET_OP v = o ∧
    (MLX5_IB_OPCODE_GET_CLASS v =? MLX5_OPCODE_MANAGED) = false ∧
    negb (MLX5_IB_OPCODE_GET_ATTR v .& MLX5_OPCODE_WITH_IMM =? 0) = imm ∧
    0 ≤ o < 2 ^ 8 ∧ op ≠ IBV_EXP_WR_LOCAL_INV ∧
    (is_write op = (o =? MLX5_OPCODE_RDMA_WRITE) || (o =? MLX5_OPCODE_RDMA_WRITE_IMM)) ∧
    (o =? MLX5_OPCODE_RDMA_READ) = false.
Proof.
  destruct op; intros Eo; try discriminate Eo; injection Eo as <- <-; (eexists; split; [reflexivity|]);
    repeat split; try reflexivity; try discriminate.
Qed.

Lemma length_mid_bytes qpt wr : wr_ok qpt wr → length (mid_bytes qpt wr) = mid_len qpt wr.
Proof.
  intros [_ _ _ _ _ _ Hah _]. unfold mid_bytes, mid_len. destruct qpt; try done;
    try (destruct (is_write _); [apply length_raddr_bytes|done]). by apply length_datagram_bytes.
Qed.

Lemma mid_len_cases qpt wr : mid_len qpt wr ∈ [0; 16; 48]%nat.
Proof. unfold mid_len, av_size. destruct qpt, (is_write (exp_opcode wr)), (has_grh (ud_ah wr)); set_solver. Qed.

(** The device finds the same segments. *)
Lemma raddr_len_of qpt wr o :
  qpt ∈ [IBV_QPT_UC; IBV_QPT_UD; IBV_QPT_RC] →
  is_write (exp_opcode wr) = (o =? MLX5_OPCODE_RDMA_WRITE) || (o =? MLX5_OPCODE_RDMA_WRITE_IMM) →
  (o =? MLX5_OPCODE_RDMA_READ) = false →
  hca_raddr_len qpt o =
  if bool_decide (qpt = IBV_QPT_UD) then 0%nat else if is_write (exp_opcode wr) then 16%nat else 0%nat.
Proof.
  intros Hq -> Hr. unfold hca_raddr_len. rewrite Hr, orb_false_r.
  rewrite !elem_of_cons, elem_of_nil in Hq. by destruct Hq as [->|[->|[->|[]]]].
Qed.

Lemma av_len_of qpt wr D :
  wr_ok qpt wr → hca_av_len qpt (mid_bytes qpt wr ++ D) =
  if bool_decide (qpt = IBV_QPT_UD) then av_size (ud_ah wr) else 0%nat.
Proof.
  intros Hwr. destruct (decide (qpt = IBV_QPT_UD)) as [->|Hne].
  - rewrite bool_decide_true by done. by apply hca_av_len_datagram; apply Hwr.
  - unfold hca_av_len. by rewrite bool_decide_false by done.
Qed.

(** A complete WQE decodes to the request. *)
Lemma decode_wqe host e b fl wr D R o imm :
  env_ok e b → wr_ok (we_qp_type e) wr → we_qp_type e ∈ [IBV_QPT_UC; IBV_QPT_UD; IBV_QPT_RC] →
  hca_opcode (exp_opcode wr) = Some (o, imm) →
  wqe_units host (we_qp_type e) fl wr < 64 →
  Z.of_nat (length D) = 16 * data_units host (IBV_SEND_INLINE fl) (sg_list wr) →
  (∀ fuel, (length D < fuel)%nat → parse_data fuel D = Some (hca_data_of host (IBV_SEND_INLINE fl) (sg_list wr))) →
  hca_decode (we_qp_type e)
    ((ctrl_bytes (we_ctrl_seg e) o (we_scur_post e) 0 (wqe_units host (we_qp_type e) fl wr)
        (flag_byte b fl) (if imm then imm_data wr else 0) ++ mid_bytes (we_qp_type e) wr ++ D) ++ R)
  = (λ r, (r, wqe_units host (we_qp_type e) fl wr)) <$> hca_request host e b fl wr.
Proof.
  intros He Hwr Hqpt Hop Hu HD HP. unfold hca_request.
  set (qpt := we_qp_type e) in *. clearbody qpt.
  destruct (opcode_facts _ _ _ Hop) as (v & _ & _ & _ & _ & Ho & _ & Hw & Hr).
  pose proof (length_mid_bytes qpt wr Hwr) as Hml. pose proof (mid_len_cases qpt wr) as Hmc.
  pose proof (data_units_nonneg host (IBV_SEND_INLINE fl) (sg_list wr)).
  assert (Hm16 : (16 * (mid_len qpt wr / 16) = mid_len qpt wr)%nat).
  { rewrite !elem_of_cons, elem_of_nil in Hmc. destruct Hmc as [->|[->|[->|[]]]]; reflexivity. }
  rewrite hca_decode_ctrl; [|done|apply He|by apply flag_byte_range; apply He
    |destruct imm; [apply Hwr|lia]|unfold wqe_units in *; lia|].
  2: { rewrite length_app, Hml. unfold wqe_units. lia. }
  cbv zeta. rewrite Hop. cbn [mbind option_bind fmap option_fmap option_map].
  assert (HP' : parse_data (S (length (mid_bytes qpt wr ++ D))) D =
    Some (hca_data_of host (IBV_SEND_INLINE fl) (sg_list wr))).
  { apply HP. rewrite length_app. lia. }
  rewrite (raddr_len_of qpt wr o), (av_len_of qpt wr D) by (done || by rewrite Hw).
  unfold mid_bytes in *. rewrite !elem_of_cons, elem_of_nil in Hqpt.
  destruct (decide (qpt = IBV_QPT_UD)) as [->|Hne].
  - rewrite !bool_decide_true, Nat.add_0_l by done.
    rewrite (drop_app_length' (datagram_bytes wr) D (av_size (ud_ah wr))),
      (take_app_length' (datagram_bytes wr) D (av_size (ud_ah wr)))
      by (rewrite length_datagram_bytes; [done|apply Hwr]).
    by rewrite HP'.
  - rewrite !bool_decide_false, Nat.add_0_r by done.
    assert (Hmid : match qpt with
      | IBV_QPT_UC | IBV_QPT_RC =>
        if is_write (exp_opcode wr) then raddr_bytes (rdma_remote_addr wr) (rdma_rkey wr) else []
      | IBV_QPT_UD => datagram_bytes wr | _ => [] end =
      if is_write (exp_opcode wr) then raddr_bytes (rdma_remote_addr wr) (rdma_rkey wr) else [])
      by (destruct Hqpt as [->|[->|[->|[]]]]; done).
    rewrite Hmid in *. destruct (is_write (exp_opcode wr)).
    + rewrite (drop_app_length' (raddr_bytes (rdma_remote_addr wr) (rdma_rkey wr)) D 16)
        by (by rewrite length_raddr_bytes).
      rewrite HP'. cbn [mbind option_bind].
      rewrite decide_False by done.
      unfold raddr_bytes. rewrite <-!(assoc_L (++)).
      rewrite be_word8 by apply Hwr. rewrite drop_app_length' by by rewrite length_be_bytes.
      by rewrite be_word4 by apply Hwr.
    + change ([] ++ D) with D in *. by rewrite drop_0, HP'.
Qed.

(** ** The builders *)
Section Build.
Context {K : Type} `{ImplicitLkey K}.
Variable host : Z → Z.
Variables (e : wqe_env) (b c : Z).
Hypothesis He : env_ok e b.
Hypothesis Hc : 0 ≤ c < we_qend e.
Hypothesis Hc64 : (64 | c).

Local Abbreviation qpt := (we_qp_type e).
Local Abbreviation units := (wqe_units host (we_qp_type e)).

(** What a builder has to achieve for [wr]: the first [units] of the ring
    from [c] on become a WQE that is read as the request. *)
Definition builds (fl : send_flags) (wr : ibv_exp_send_wr) (m : sqmem) (B C : list Z)
    (r : one_ret) : Prop :=
  or_err r = 0 ∧ or_size r = units fl wr ∧ or_fm_cache r = 0 ∧
  ∃ W, ring_list (or_mem r) (we_qend e) c = W ++ C ∧ length W = length B ∧
    ∀ R, hca_decode qpt (W ++ R) = (λ q, (q, units fl wr)) <$> hca_request host e b fl wr.

Lemma finish_wqe_builds fl wr seg m X B C (k : K) :
  qpt ∈ [IBV_QPT_UC; IBV_QPT_UD; IBV_QPT_RC] → wr_ok qpt wr → units fl wr < 64 →
  (IBV_SEND_INLINE fl = true → Z.of_nat (length (payload host (sg_list wr))) ≤ we_max_inline_data e) →
  ring_list m (we_qend e) c = X ++ mid_bytes qpt wr ++ B ++ C → length X = 16%nat →
  Z.of_nat (length B) = 16 * data_units host (IBV_SEND_INLINE fl) (sg_list wr) →
  at_pos (we_qend e) c seg (16 + Z.of_nat (mid_len qpt wr)) → (16 | seg) → seg < we_qend e →
  ∃ r, finish_wqe host e wr fl c seg (1 + Z.of_nat (mid_len qpt wr / 16)) 0 0 0 m k = Ok (r, k) ∧
       builds fl wr m (X ++ mid_bytes qpt wr ++ B) C r.
Proof using He Hc Hc64.
  intros Hqpt Hwr Hu Hfit HL HX HB Ha Hd Hlt.
  pose proof (eo_pos _ _ He) as Hq. pose proof (length_mid_bytes qpt wr Hwr) as Hml.
  assert (Hd16 : (16 | we_qend e)) by (destruct (eo_div _ _ He) as [q ->]; exists (q * 4); lia).
  destruct (wo_op _ _ Hwr) as [[o imm] Hop].
  destruct (opcode_facts _ _ _ Hop) as (v & Ev & Eo & _ & Eimm & _ & Hninv & _).
  destruct (set_data_seg_ring host (we_qend e) c (we_max_inline_data e) (sg_list wr)
    (IBV_SEND_INLINE fl) seg (1 + Z.of_nat (mid_len qpt wr / 16)) m (X ++ mid_bytes qpt wr) B C k)
    as (m1 & D & E1 & HL1 & HD & HP); [done|apply Hwr|apply He|done| |done..| |done|].
  { rewrite length_app, HX, Hml. by rewrite Nat2Z.inj_add. }
  { by rewrite HL, <-(assoc_L (++)). }
  unfold finish_wqe. unfold eff_bind at 1. rewrite E1. cbn [res_bind fst snd negb Z.eqb].
  unfold eff_lift. rewrite (eo_tbl _ _ He), flag_byte_tbl. cbn [res_bind].
  rewrite Ev. cbn [res_bind]. unfold send_ieth. rewrite Ev. cbn [res_bind]. rewrite Eimm, Eo.
  assert (get_fence 0 wr = 0) as ->.
  { unfold get_fence. by rewrite bool_decide_false by done. }
  rewrite Z.lor_0_r. unfold set_ctrl_seg_sig. rewrite (eo_sig _ _ He), set_ctrl_seg_st.
  fold (units fl wr).
  destruct (st_split (we_qend e) c c m1 [] X (mid_bytes qpt wr ++ D ++ C)
    (ctrl_bytes (we_ctrl_seg e) o (we_scur_post e) 0 (units fl wr) (flag_byte b fl)
       (if imm then imm_data wr else 0))) as (m2 & -> & HL2);
    [done|by apply at_pos_start|by rewrite HL1, <-(assoc_L (++))|by rewrite length_ctrl_bytes| |].
  { rewrite length_ctrl_bytes. destruct (eo_div _ _ He) as [q1 Eq1]. destruct Hc64 as [q2 Eq2]. lia. }
  cbn [res_bind]. eexists. split; [done|]. unfold builds. cbn [or_err or_size or_fm_cache or_mem].
  do 3 (split; [done|]).
  exists (ctrl_bytes (we_ctrl_seg e) o (we_scur_post e) 0 (units fl wr) (flag_byte b fl)
       (if imm then imm_data wr else 0) ++ mid_bytes qpt wr ++ D).
  split; [by rewrite HL2, <-!(assoc_L (++))|]. split.
  - rewrite !length_app, length_ctrl_bytes. lia.
  - intros R. apply decode_wqe; [done..| |done]. lia.
Qed.
(** Room for a WQE, cut into its parts. *)
Lemma cut_wqe fl wr (B : list Z) :
  wr_ok qpt wr → Z.of_nat (length B) = 16 * units fl wr →
  ∃ X M D, B = X ++ M ++ D ∧ length X = 16%nat ∧ length M = mid_len qpt wr ∧
    Z.of_nat (length D) = 16 * data_units host (IBV_SEND_INLINE fl) (sg_list wr) ∧
    (mid_len qpt wr ≤ 48)%nat.
Proof using.
  intros Hwr HB. pose proof (data_units_nonneg host (IBV_SEND_INLINE fl) (sg_list wr)).
  pose proof (mid_len_cases qpt wr) as Hmc. unfold wqe_units in HB.
  assert (Hm : (16 * (mid_len qpt wr / 16) = mid_len qpt wr ∧ mid_len qpt wr ≤ 48)%nat).
  { rewrite !elem_of_cons, elem_of_nil in Hmc.
    destruct Hmc as [-> | [-> | [-> | []]]]; (split; [reflexivity|lia]). }
  destruct (split_exact 16 (length B - 16) B) as (X & B1 & -> & HX & HB1); [lia|].
  rewrite length_app in *.
  destruct (split_exact (mid_len qpt wr) (length B1 - mid_len qpt wr) B1) as (M & D & -> & HM & HD);
    [lia|]. exists X, M, D. rewrite length_app in *. repeat split; try done; lia.
Qed.

(** Every segment up to the data lies in one basic block. *)
Lemma block_room n : 0 ≤ n ≤ 64 → c + n ≤ we_qend e.
Proof using He Hc Hc64.
  intros Hn. destruct (eo_div _ _ He) as [q1 Eq1]. destruct Hc64 as [q2 Eq2]. lia.
Qed.

Lemma c_div16 n : (16 | n) → (16 | c + n).
Proof using He Hc Hc64. intros Hn. apply Z.divide_add_r; [|done]. destruct Hc64 as [q ->]. exists (q * 4). lia. Qed.

Lemma cross_channel_ok wr fl :
  wr_ok qpt wr → IBV_EXP_SEND_WITH_CALC fl = false → cross_channel_refused e wr fl = Ok false.
Proof using.
  intros Hwr Hcalc. destruct (wo_op _ _ Hwr) as [[o imm] Hop].
  destruct (opcode_facts _ _ _ Hop) as (v & Ev & _ & Ecl & _).
  unfold cross_channel_refused. rewrite Ev. cbn [res_bind]. by rewrite Ecl, Hcalc.
Qed.

(** The remote address of a WRITE, if the request is one. *)
Lemma raddr_step wr m X M D C :
  qpt = IBV_QPT_UC ∨ qpt = IBV_QPT_RC → wr_ok qpt wr →
  ring_list m (we_qend e) c = X ++ M ++ D ++ C → length X = 16%nat → length M = mid_len qpt wr →
  ∃ m', (if is_write (exp_opcode wr) then
           let! m := set_raddr_seg (we_qend e) (c + 16) (rdma_remote_addr wr) (rdma_rkey wr) m in
           Ok (c + 16 + 16, 1 + 1, m)
         else Ok (c + 16, 1, m)) =
        Ok (c + 16 + Z.of_nat (mid_len qpt wr), 1 + Z.of_nat (mid_len qpt wr / 16), m') ∧
    ring_list m' (we_qend e) c = X ++ mid_bytes qpt wr ++ D ++ C.
Proof using He Hc Hc64.
  intros Hqpt Hwr HL HX HM.
  assert (Hmid : mid_bytes qpt wr = if is_write (exp_opcode wr)
    then raddr_bytes (rdma_remote_addr wr) (rdma_rkey wr) else [])
    by (unfold mid_bytes; destruct Hqpt as [-> | ->]; done).
  assert (Hlen : mid_len qpt wr = if is_write (exp_opcode wr) then 16%nat else 0%nat)
    by (unfold mid_len; destruct Hqpt as [-> | ->]; done).
  rewrite Hmid, Hlen in *. destruct (is_write (exp_opcode wr)).
  - rewrite set_raddr_seg_st.
    destruct (st_split (we_qend e) c (c + 16) m X M (D ++ C)
      (raddr_bytes (rdma_remote_addr wr) (rdma_rkey wr))) as (m' & -> & HL');
      [apply He| |done|by rewrite length_raddr_bytes| |by exists m'].
    + rewrite HX. apply (at_pos_add _ c c 0 16); [apply He|by apply at_pos_start|done|].
      apply block_room. lia.
    + rewrite length_raddr_bytes, <-Z.add_assoc. apply block_room. lia.
  - exists m. destruct M; [|done]. by rewrite Z.add_0_r.
Qed.

Lemma seg_at n : 0 ≤ n ≤ 48 → at_pos (we_qend e) c (c + 16 + n) (16 + n).
Proof using He Hc Hc64.
  intros Hn. rewrite <-Z.add_assoc. change (16 + n) with (0 + (16 + n)) at 2.
  apply at_pos_add; [apply He|by apply at_pos_start|lia|]. apply block_room. lia.
Qed.

Lemma post_send_one_uc_ud_builds fl wr m B C (k : K) :
  qpt = IBV_QPT_UC ∨ qpt = IBV_QPT_UD → wr_ok qpt wr →
  IBV_EXP_SEND_WITH_CALC fl = false → units fl wr < 64 →
  (IBV_SEND_INLINE fl = true → Z.of_nat (length (payload host (sg_list wr))) ≤ we_max_inline_data e) →
  ring_list m (we_qend e) c = B ++ C → Z.of_nat (length B) = 16 * units fl wr →
  ∃ r, __mlx5_post_send_one_uc_ud host e wr fl c 0 m k = Ok (r, k) ∧ builds fl wr m B C r.
Proof using He Hc Hc64.
  intros Hqpt Hwr Hcalc Hu Hfit HL HB.
  destruct (cut_wqe fl wr B Hwr HB) as (X & M & D & -> & HX & HM & HD & Hm48).
  rewrite <-!(assoc_L (++)) in HL.
  unfold __mlx5_post_send_one_uc_ud. unfold eff_bind at 1, eff_lift at 1.
  rewrite cross_channel_ok by done. cbn [res_bind fst snd].
  assert (Hfin : ∀ m1 seg, ring_list m1 (we_qend e) c = X ++ mid_bytes qpt wr ++ D ++ C →
    at_pos (we_qend e) c seg (16 + Z.of_nat (mid_len qpt wr)) → (16 | seg) → seg < we_qend e →
    ∃ r, finish_wqe host e wr fl c seg (1 + Z.of_nat (mid_len qpt wr / 16)) 0 0 0 m1 k = Ok (r, k) ∧
      builds fl wr m (X ++ M ++ D) C r).
  { intros m1 seg HL1 Ha Hdv Hlt.
    destruct (finish_wqe_builds fl wr seg m1 X D C k) as (r & E & Hb); try done.
    - rewrite !elem_of_cons. naive_solver.
    - exists r. split; [done|]. unfold builds in *. rewrite !length_app in *.
      by rewrite (length_mid_bytes qpt wr Hwr) in Hb; rewrite HM. }
  destruct Hqpt as [Eq|Eq].
  - destruct (raddr_step wr m X M D C (or_introl Eq) Hwr HL HX HM) as (m1 & E1 & HL1).
    assert (Ecase : match exp_opcode wr with
      | IBV_EXP_WR_RDMA_WRITE | IBV_EXP_WR_RDMA_WRITE_WITH_IMM =>
          let! m := set_raddr_seg (we_qend e) (c + 16) (rdma_remote_addr wr) (rdma_rkey wr) m in
          Ok (c + 16 + 16, 1 + 1, m)
      | _ => Ok (c + 16, 1, m) end =
      if is_write (exp_opcode wr) then
        let! m := set_raddr_seg (we_qend e) (c + 16) (rdma_remote_addr wr) (rdma_rkey wr) m in
        Ok (c + 16 + 16, 1 + 1, m)
      else Ok (c + 16, 1, m)) by (unfold is_write; by destruct (exp_opcode wr)).
    assert (Em : mid_len qpt wr = 16%nat ∨ mid_len qpt wr = 0%nat)
      by (unfold mid_len; rewrite Eq; destruct (is_write _); auto).
    rewrite Eq. unfold eff_bind at 1, eff_lift at 1. rewrite Ecase, E1. cbn [res_bind fst snd].
    apply Hfin; [done|apply seg_at; lia| |].
    + rewrite <-Z.add_assoc. apply c_div16. destruct Em as [-> | ->]; [by exists 2|by exists 1].
    + rewrite <-Z.add_assoc. apply Z.lt_le_trans with (c + 64); [lia|]. apply block_room. lia.
  - assert (Em : mid_len qpt wr = av_size (ud_ah wr)) by (unfold mid_len; by rewrite Eq).
    assert (Emid : mid_bytes qpt wr = datagram_bytes wr) by (unfold mid_bytes; by rewrite Eq).
    destruct (set_datagram_seg_ring (we_qend e) c (c + 16) m X M (D ++ C) wr)
      as (m1 & E1 & HL1); [apply He| |done|apply Hwr|lia| |].
    { rewrite HX. pose proof (seg_at 0 ltac:(lia)) as Ha. by rewrite Z.add_0_r in Ha. }
    { rewrite <-Z.add_assoc. apply block_room. lia. }
    rewrite Eq. unfold eff_bind at 1, eff_lift at 1. rewrite E1. cbn [res_bind fst snd].
    destruct (at_pos_norm (we_qend e) c (c + 16 + Z.of_nat (av_size (ud_ah wr))) (16 + Z.of_nat (av_size (ud_ah wr))))
      as [Ha Hlt]; [apply He|apply seg_at; lia|].
    replace (1 + Z.shiftr (Z.of_nat (av_size (ud_ah wr))) 4)
      with (1 + Z.of_nat (mid_len qpt wr / 16))
      by (rewrite Em; unfold av_size; by destruct has_grh).
    apply Hfin; [by rewrite Emid|by rewrite Em| |done].
    destruct (_ =? we_qend e); [by exists 0|]. rewrite <-Z.add_assoc. apply c_div16.
    unfold av_size. destruct has_grh; [by exists 4|by exists 2].
Qed.

Lemma post_send_one_fast_rc_builds fl wr m B C (k : K) o :
  qpt = IBV_QPT_RC → wr_ok qpt wr → hca_opcode (exp_opcode wr) = Some (o, false) →
  units fl wr < 64 →
  (IBV_SEND_INLINE fl = true → Z.of_nat (length (payload host (sg_list wr))) ≤ we_max_inline_data e) →
  ring_list m (we_qend e) c = B ++ C → Z.of_nat (length B) = 16 * units fl wr →
  ∃ r, __mlx5_post_send_one_fast_rc host e o (IBV_SEND_INLINE fl) wr fl c 0 m k = Ok (r, k) ∧
       builds fl wr m B C r.
Proof using He Hc Hc64.
  intros Eq Hwr Hop Hu Hfit HL HB.
  destruct (cut_wqe fl wr B Hwr HB) as (X & M & D & -> & HX & HM & HD & Hm48).
  rewrite <-!(assoc_L (++)) in HL.
  destruct (opcode_facts _ _ _ Hop) as (v & Ev & _ & _ & _ & Ho & _ & Hw & _).
  assert (Ho' : (o =? MLX5_OPCODE_RDMA_WRITE) = is_write (exp_opcode wr)).
  { destruct (exp_opcode wr); try discriminate Hop; by injection Hop as <-. }
  destruct (raddr_step wr m X M D C (or_intror Eq) Hwr HL HX HM) as (m1 & E1 & HL1).
  assert (Em : mid_len qpt wr = 16%nat ∨ mid_len qpt wr = 0%nat)
    by (unfold mid_len; rewrite Eq; destruct (is_write _); auto).
  pose proof (length_mid_bytes qpt wr Hwr) as Hml.
  unfold __mlx5_post_send_one_fast_rc. unfold eff_bind at 1, eff_lift at 1.
  rewrite Ho', E1. cbn [res_bind fst snd].
  set (seg := c + 16 + Z.of_nat (mid_len qpt wr)).
  destruct (set_data_seg_ring host (we_qend e) c (we_max_inline_data e) (sg_list wr)
    (IBV_SEND_INLINE fl) seg (1 + Z.of_nat (mid_len qpt wr / 16)) m1 (X ++ mid_bytes qpt wr) D C k)
    as (m2 & D' & E2 & HL2 & HD' & HP); [apply He|apply Hwr|apply He|done| | | | | |done|].
  { rewrite length_app, HX, Hml, Nat2Z.inj_add. apply seg_at. lia. }
  { destruct (eo_div _ _ He) as [q ->]. exists (q * 4). lia. }
  { unfold seg. rewrite <-Z.add_assoc. apply c_div16.
    destruct Em as [-> | ->]; [by exists 2|by exists 1]. }
  { unfold seg. rewrite <-Z.add_assoc. apply Z.lt_le_trans with (c + 64); [lia|]. apply block_room. lia. }
  { by rewrite HL1, <-(assoc_L (++)). }
  assert (E2' : (if IBV_SEND_INLINE fl then
       eff_lift (set_data_inl_seg (we_qend e) host (we_max_inline_data e) (sg_list wr) seg
         (1 + Z.of_nat (mid_len qpt wr / 16)) 0 m1)
     else set_data_non_inl_seg (we_qend e) (sg_list wr) seg (1 + Z.of_nat (mid_len qpt wr / 16)) 0 m1) k
     = Ok ((0, 1 + Z.of_nat (mid_len qpt wr / 16) +
            data_units host (IBV_SEND_INLINE fl) (sg_list wr), m2), k)).
  { rewrite <-E2. unfold set_data_seg. rewrite drop_0. by destruct (IBV_SEND_INLINE fl). }
  unfold eff_bind at 1. rewrite E2'. cbn [res_bind fst snd negb Z.eqb]. fold (units fl wr).
  unfold eff_lift. rewrite (eo_tbl _ _ He), flag_byte_tbl. cbn [res_bind].
  rewrite set_ctrl_seg_st.
  destruct (st_split (we_qend e) c c m2 [] X (mid_bytes qpt wr ++ D' ++ C)
    (ctrl_bytes (we_ctrl_seg e) o (we_scur_post e) 0 (units fl wr) (flag_byte b fl) 0))
    as (m3 & -> & HL3);
    [apply He|by apply at_pos_start|by rewrite HL2, <-(assoc_L (++))|by rewrite length_ctrl_bytes| |].
  { rewrite length_ctrl_bytes. apply block_room. lia. }
  cbn [res_bind]. eexists. split; [done|]. unfold builds. cbn [or_err or_size or_fm_cache or_mem].
  do 3 (split; [done|]).
  exists (ctrl_bytes (we_ctrl_seg e) o (we_scur_post e) 0 (units fl wr) (flag_byte b fl) 0 ++
          mid_bytes qpt wr ++ D').
  split; [by rewrite HL3, <-!(assoc_L (++))|]. split.
  - rewrite !length_app, length_ctrl_bytes. lia.
  - intros R. apply (decode_wqe host e b fl wr D' R o false); try done; [|lia].
    rewrite Eq. set_solver.
Qed.
End Build.
