(* ===== verification/Mlx5Send.v ===== *)
(** * libmlx5: posting work requests
    (src/drivers/libmlx5-1.0.2mlnx1/src: qp.c, doorbell.h, mlx5.h)

    The state of a queue pair on the data path, the choice of the builder,
    the send queue with its overflow test, the doorbell, and the PCIe
    statistics that the authors of the repository added to the driver.  What
    the driver tells the device is a list of events in program order: updates
    of the doorbell record, copies to the BlueFlame page, plain doorbells and
    the memory barriers between them. *)

From stdpp Require Import base gmap list numbers.
From Stdlib Require Import ZArith Lia.
From S2P Require Import Prelude Mlx5Base Mlx5Wqe.

(** ** State *)

(** [buff] is the memory of a receive queue; that of the send queue is
    [sqbuf] below. *)
Record mlx5_wq : Type := Wq
  { wrid : list Z;
    wqe_cnt : Z;
    head : Z;
    tail : Z;
    max_post : Z;
    max_gs : Z;
    wqe_shift : Z;
    buff : sqmem }.

Inductive mlx5_db_method : Type :=
| MLX5_DB_METHOD_DEDIC_BF_1_THREAD
| MLX5_DB_METHOD_DEDIC_BF
| MLX5_DB_METHOD_BF
| MLX5_DB_METHOD_DB.

Record mlx5_bf : Type := Bf
  { bf_offset : Z;
    bf_buf_size : Z;
    bf_db_method : mlx5_db_method }.

(** The values of the function pointer [post_send_one]. *)
Inductive post_send_one_fn : Type :=
| PostNotReady | PostRcDc | PostRc | PostUcUd | PostRawPacket | PostOther.

#[global] Instance post_send_one_fn_eq_dec : EqDecision post_send_one_fn.
Proof. solve_decision. Defined.

Inductive mpw_states : Type :=
| MLX5_MPW_STATE_CLOSED | MLX5_MPW_STATE_OPENED | MLX5_MPW_STATE_OPENED_INL | MLX5_MPW_STATE_OPENING.

(** The bits of [create_flags] that the data path tests. *)
Record create_flags : Type := CreateFlags
  { IBV_EXP_QP_CREATE_CROSS_CHANNEL : bool;
    IBV_EXP_QP_CREATE_MANAGED_SEND : bool;
    IBV_EXP_QP_CREATE_IGNORE_SQ_OVERFLOW : bool;
    IBV_EXP_QP_CREATE_IGNORE_RQ_OVERFLOW : bool }.

(** [sq_enable] and [rq_enable] as (head_en_index, head_en_count). *)
Record mlx5_qp : Type := Qp
  { sq : mlx5_wq;
    rq : mlx5_wq;
    wqe_head : list Z;
    post_send_one : post_send_one_fn;
    sqend : Z;
    scur_post : Z;
    last_post : Z;
    cflags : create_flags;
    fm_cache : Z;
    max_inline_data : Z;
    ctrl_seg : ctrl_seg_data;
    qp_type : ibv_qp_type;
    mpw_state : mpw_states;
    bf : mlx5_bf;
    db : list Z;
    sq_enable : Z * Z;
    rq_enable : Z * Z;
    mlx5_hrd_qp_index : Z;
    sqbuf : sqmem }.

Definition wq_set_head (w : mlx5_wq) (h : Z) : mlx5_wq :=
  Wq (wrid w) (wqe_cnt w) h (tail w) (max_post w) (max_gs w) (wqe_shift w) (buff w).
Definition wq_set_tail (w : mlx5_wq) (t : Z) : mlx5_wq :=
  Wq (wrid w) (wqe_cnt w) (head w) t (max_post w) (max_gs w) (wqe_shift w) (buff w).
Definition wq_set_wrid (w : mlx5_wq) (l : list Z) : mlx5_wq :=
  Wq l (wqe_cnt w) (head w) (tail w) (max_post w) (max_gs w) (wqe_shift w) (buff w).

Definition wq_set_buff (w : mlx5_wq) (m : sqmem) : mlx5_wq :=
  Wq (wrid w) (wqe_cnt w) (head w) (tail w) (max_post w) (max_gs w) (wqe_shift w) m.

Definition qp_set_sq (q : mlx5_qp) (w : mlx5_wq) : mlx5_qp :=
  Qp w (rq q) (wqe_head q) (post_send_one q) (sqend q) (scur_post q) (last_post q) (cflags q)
     (fm_cache q) (max_inline_data q) (ctrl_seg q) (qp_type q) (mpw_state q) (bf q) (db q)
     (sq_enable q) (rq_enable q) (mlx5_hrd_qp_index q) (sqbuf q).
Definition qp_set_rq (q : mlx5_qp) (w : mlx5_wq) : mlx5_qp :=
  Qp (sq q) w (wqe_head q) (post_send_one q) (sqend q) (scur_post q) (last_post q) (cflags q)
     (fm_cache q) (max_inline_data q) (ctrl_seg q) (qp_type q) (mpw_state q) (bf q) (db q)
     (sq_enable q) (rq_enable q) (mlx5_hrd_qp_index q) (sqbuf q).
(** After a builder: ring and [fm_cache]. *)
Definition qp_set_ring (q : mlx5_qp) (m : sqmem) (fm : Z) : mlx5_qp :=
  Qp (sq q) (rq q) (wqe_head q) (post_send_one q) (sqend q) (scur_post q) (last_post q) (cflags q)
     fm (max_inline_data q) (ctrl_seg q) (qp_type q) (mpw_state q) (bf q) (db q)
     (sq_enable q) (rq_enable q) (mlx5_hrd_qp_index q) m.
(** Bookkeeping of a posted request. *)
Definition qp_set_posted (q : mlx5_qp) (w : mlx5_wq) (wh : list Z) (cur : Z) : mlx5_qp :=
  Qp w (rq q) wh (post_send_one q) (sqend q) cur (last_post q) (cflags q)
     (fm_cache q) (max_inline_data q) (ctrl_seg q) (qp_type q) (mpw_state q) (bf q) (db q)
     (sq_enable q) (rq_enable q) (mlx5_hrd_qp_index q) (sqbuf q).
(** After a doorbell. *)
Definition qp_set_rung (q : mlx5_qp) (last : Z) (b : mlx5_bf) (d : list Z) : mlx5_qp :=
  Qp (sq q) (rq q) (wqe_head q) (post_send_one q) (sqend q) (scur_post q) last (cflags q)
     (fm_cache q) (max_inline_data q) (ctrl_seg q) (qp_type q) MLX5_MPW_STATE_CLOSED b d
     (sq_enable q) (rq_enable q) (mlx5_hrd_qp_index q) (sqbuf q).
Definition qp_set_fn (q : mlx5_qp) (f : post_send_one_fn) : mlx5_qp :=
  Qp (sq q) (rq q) (wqe_head q) f (sqend q) (scur_post q) (last_post q) (cflags q)
     (fm_cache q) (max_inline_data q) (ctrl_seg q) (qp_type q) (mpw_state q) (bf q) (db q)
     (sq_enable q) (rq_enable q) (mlx5_hrd_qp_index q) (sqbuf q).

Definition mlx5_init_qp_indices (q : mlx5_qp) : mlx5_qp :=
  Qp (wq_set_tail (wq_set_head (sq q) 0) 0) (wq_set_tail (wq_set_head (rq q) 0) 0)
     (wqe_head q) (post_send_one q) (sqend q) 0 (last_post q) (cflags q)
     (fm_cache q) (max_inline_data q) (ctrl_seg q) (qp_type q) (mpw_state q) (bf q) (db q)
     (0, 0) (0, 0) (mlx5_hrd_qp_index q) (sqbuf q).

(** The state of the queue pair: [lt_rts] says [qp_state < IBV_QPS_RTS]. *)
Definition mlx5_update_post_send_one (q : mlx5_qp) (lt_rts : bool) (qpt : ibv_qp_type) : mlx5_qp :=
  qp_set_fn q
    (if lt_rts then PostNotReady
     else match qpt with
          | IBV_QPT_XRC_SEND | IBV_QPT_XRC | IBV_EXP_QPT_DC_INI => PostRcDc
          | IBV_QPT_RC => if wq_sig (ctrl_seg q) then PostRcDc else PostRc
          | IBV_QPT_UC | IBV_QPT_UD => PostUcUd
          | IBV_QPT_RAW_ETH => PostRawPacket
          | _ => PostOther
          end).

(** ** Overflow

    The test is made without lock first, then again under the lock of the
    completion queue, where the same two counters are read. *)
Definition mlx5_wq_overflow (w : mlx5_wq) (nreq : Z) : bool :=
  let cur := u32 (head w - tail w) in
  if u32 (cur + nreq) <? max_post w then false
  else max_post w <=? u32 (cur + nreq).

(** ** Statistics *)
Definition MLX5_HRD_PCIE3_REQ_HDR_SZ : Z := 26.
Definition MLX5_HRD_PCIE3_CLP_HDR_SZ : Z := 22.
Definition MLX5_HRD_PCIE_RCCS : Z := 256.
Definition MLX5_HRD_MAX_QPS : Z := 128.

Definition mlx5_hrd_wc_c2n (num_cachelines : Z) : Z :=
  s32 (num_cachelines * (64 + MLX5_HRD_PCIE3_REQ_HDR_SZ)).
Definition mlx5_hrd_doorbell_c2n : Z := 8 + MLX5_HRD_PCIE3_REQ_HDR_SZ.
Definition mlx5_hrd_dma_read_n2c : Z := MLX5_HRD_PCIE3_REQ_HDR_SZ.

(** The loop over completions of [MLX5_HRD_PCIE_RCCS] bytes; [fuel] counts
    them. *)
Fixpoint dma_read_loop (fuel : nat) (leftover ret : Z) : Z * Z :=
  match fuel with
  | O => (leftover, ret)
  | S fuel =>
      if MLX5_HRD_PCIE_RCCS <=? leftover then
        dma_read_loop fuel (leftover - MLX5_HRD_PCIE_RCCS)
          (s32 (ret + (MLX5_HRD_PCIE_RCCS + MLX5_HRD_PCIE3_CLP_HDR_SZ)))
      else (leftover, ret)
  end.
Definition mlx5_hrd_dma_read_c2n (bytes : Z) : Z :=
  let p := dma_read_loop (Z.to_nat (bytes / MLX5_HRD_PCIE_RCCS)) bytes 0 in
  if negb (p.1 =? 0) then s32 (p.2 + (p.1 + MLX5_HRD_PCIE3_CLP_HDR_SZ)) else p.2.
Definition mlx5_hrd_dma_write_n2c (bytes : Z) : Z := s32 (bytes + MLX5_HRD_PCIE3_REQ_HDR_SZ).

(** The array [hrd_stats]: bytes from CPU to NIC and from NIC to CPU. *)
Definition hrd_stats : Type := list (Z * Z).
Definition stats_add (st : hrd_stats) (i c2n n2c : Z) : res hrd_stats :=
  let! p := arr_get st i in
  arr_set st i (s64 (p.1 + c2n), s64 (p.2 + n2c)).

(** The block of [__mlx5_post_send] between the loop and [out]. *)
Definition post_stats (q : mlx5_qp) (nreq size tot_cachelines : Z) (st : hrd_stats) : res hrd_stats :=
  let last_wqe_cachelines := Z.quot (size + 3) 4 in
  let via_bf := u32 last_wqe_cachelines <=? bf_buf_size (bf q) / 64 in
  if nreq =? 1 then
    cassert (last_wqe_cachelines =? tot_cachelines) ;!
    if via_bf then
      stats_add st (mlx5_hrd_qp_index q) (mlx5_hrd_wc_c2n last_wqe_cachelines) 0
    else
      stats_add st (mlx5_hrd_qp_index q)
        (mlx5_hrd_doorbell_c2n + mlx5_hrd_dma_read_c2n (last_wqe_cachelines * 64))
        mlx5_hrd_dma_read_n2c
  else if via_bf then
    let! st := stats_add st (mlx5_hrd_qp_index q) (mlx5_hrd_wc_c2n last_wqe_cachelines) 0 in
    stats_add st (mlx5_hrd_qp_index q) (mlx5_hrd_dma_read_c2n (tot_cachelines * 64))
      mlx5_hrd_dma_read_n2c
  else
    stats_add st (mlx5_hrd_qp_index q)
      (mlx5_hrd_doorbell_c2n + mlx5_hrd_dma_read_c2n (tot_cachelines * 64))
      mlx5_hrd_dma_read_n2c.

(** ** The doorbell *)
Inductive dev_event : Type :=
| EvWmb
| EvWcWmb
| EvDbRec (index value : Z)        (** the doorbell record, in big endian *)
| EvBfCopy (offset : Z) (bytes : list Z)
| EvDb (offset : Z) (bytes : list Z).

Definition MLX5_RCV_DBR : Z := 0.
Definition MLX5_SND_DBR : Z := 1.

(** [mlx5_bf_copy]: blocks of 64 bytes; the source wraps at the end of the
    ring. *)
Fixpoint mlx5_bf_copy (qend : Z) (blocks : nat) (src : Z) (m : sqmem) : res (list Z) :=
  match blocks with
  | O => Ok []
  | S blocks =>
      let! bs := ld qend src 64 m in
      let src := src + 64 in
      let! rest := mlx5_bf_copy qend blocks (if src =? qend then 0 else src) m in
      Ok (bs ++ rest)
  end.

(** The write to the device: the WQE itself if it fits, or its first 8
    bytes. *)
Definition bf_write (q : mlx5_qp) (seg size : Z) : res dev_event :=
  if size <=? bf_buf_size (bf q) / 64 then
    let! bs := mlx5_bf_copy (sqend q) (Z.to_nat size) seg (sqbuf q) in
    Ok (EvBfCopy (bf_offset (bf q)) bs)
  else
    let! bs := ld (sqend q) seg 8 (sqbuf q) in
    Ok (EvDb (bf_offset (bf q)) bs).

Definition bf_toggle (b : mlx5_bf) : mlx5_bf :=
  Bf (bf_offset b .^ bf_buf_size b) (bf_buf_size b) (bf_db_method b).

Definition __ring_db (q : mlx5_qp) (curr_post seg size : Z) : res (mlx5_qp * list dev_event) :=
  let! d := arr_set (db q) MLX5_SND_DBR (htonl curr_post) in
  match bf_db_method (bf q) with
  | MLX5_DB_METHOD_DEDIC_BF_1_THREAD =>
      let! ev := bf_write q seg size in
      Ok (qp_set_rung q curr_post (bf_toggle (bf q)) d,
          [EvWcWmb; EvDbRec MLX5_SND_DBR curr_post; EvWcWmb; ev] ++
          (if size <=? bf_buf_size (bf q) / 64 then [] else [EvWcWmb]))
  | MLX5_DB_METHOD_DEDIC_BF | MLX5_DB_METHOD_BF =>
      let! ev := bf_write q seg size in
      Ok (qp_set_rung q curr_post (bf_toggle (bf q)) d,
          [EvWmb; EvDbRec MLX5_SND_DBR curr_post; EvWcWmb; ev; EvWcWmb])
  | MLX5_DB_METHOD_DB =>
      let! bs := ld (sqend q) seg 8 (sqbuf q) in
      Ok (qp_set_rung q curr_post (bf q) d,
          [EvWmb; EvDbRec MLX5_SND_DBR curr_post; EvWmb; EvDb (bf_offset (bf q)) bs])
  end.

(** ** Posting *)
Definition qp_env (q : mlx5_qp) : wqe_env :=
  WqeEnv (sqend q) (qp_type q) (max_inline_data q) (ctrl_seg q)
    (IBV_EXP_QP_CREATE_CROSS_CHANNEL (cflags q)) (scur_post q).

Section Post.
Context {K : Type} `{ImplicitLkey K}.
Variable host : Z → Z.
(** The builder for the operations of RC and DC queue pairs other than SEND
    and RDMA WRITE. *)
Variable __mlx5_post_send_one_rc_dc :
  mlx5_qp → ibv_exp_send_wr → send_flags → Z → Z → sqmem → eff K one_ret.

Definition __mlx5_post_send_one_not_ready (fm : Z) (m : sqmem) : eff K one_ret :=
  eff_ret (OneRet EINVAL 0 m fm).

Definition __mlx5_post_send_one_rc (q : mlx5_qp) (wr : ibv_exp_send_wr) (fl : send_flags)
    (seg fm : Z) (m : sqmem) : eff K one_ret :=
  let slow :=
    match exp_opcode wr with
    | IBV_EXP_WR_OUTSIDE => eff_ret (OneRet EINVAL 0 m fm)
    | _ => __mlx5_post_send_one_rc_dc q wr fl seg fm m
    end in
  if IBV_EXP_SEND_WITH_CALC fl then slow
  else match exp_opcode wr with
       | IBV_EXP_WR_SEND =>
           __mlx5_post_send_one_fast_rc host (qp_env q) MLX5_OPCODE_SEND
             (IBV_SEND_INLINE fl) wr fl seg fm m
       | IBV_EXP_WR_RDMA_WRITE =>
           __mlx5_post_send_one_fast_rc host (qp_env q) MLX5_OPCODE_RDMA_WRITE
             (IBV_SEND_INLINE fl) wr fl seg fm m
       | _ => slow
       end.

(** The call [qp->gen_data.post_send_one(wr, qp, flags, seg, &size)]. *)
Definition call_post_send_one (q : mlx5_qp) (wr : ibv_exp_send_wr) (fl : send_flags) (seg : Z)
    : eff K one_ret :=
  let fm := fm_cache q in
  let m := sqbuf q in
  match post_send_one q with
  | PostNotReady => __mlx5_post_send_one_not_ready fm m
  | PostRcDc => __mlx5_post_send_one_rc_dc q wr fl seg fm m
  | PostRc => __mlx5_post_send_one_rc q wr fl seg fm m
  | PostUcUd => __mlx5_post_send_one_uc_ud host (qp_env q) wr fl seg fm m
  | PostRawPacket => __mlx5_post_send_one_raw_packet host (qp_env q) wr fl seg fm m
  | PostOther => __mlx5_post_send_one_other host (qp_env q) wr fl seg fm m
  end.

(** The variables of the loop: number of requests, [seg] and [size] of the
    last one, cache lines in total, the queue pair. *)
Record post_st : Type := PostSt
  { ps_nreq : Z;
    ps_seg : Z;
    ps_size : Z;
    ps_cachelines : Z;
    ps_qp : mlx5_qp }.

(** One iteration: an error code, and the variables. *)
Definition post_iter (is_exp : bool) (wr : ibv_exp_send_wr) (s : post_st) : eff K (Z * post_st) :=
  let q := ps_qp s in
  let idx := scur_post q .& (u32 (wqe_cnt (sq q) - 1)) in
  let seg := mlx5_get_send_wqe idx in
  let fl := if is_exp then exp_send_flags wr else send_flags_ wr in
  let fail err q := eff_ret (err, PostSt (ps_nreq s) seg (ps_size s) (ps_cachelines s) q) in
  if negb (IBV_EXP_QP_CREATE_IGNORE_SQ_OVERFLOW (cflags q)) && mlx5_wq_overflow (sq q) (ps_nreq s)
  then fail ENOMEM q
  else if max_gs (sq q) <? num_sge wr then fail ENOMEM q
  else
    let* r := call_post_send_one q wr fl seg in
    let q := qp_set_ring q (or_mem r) (or_fm_cache r) in
    if negb (or_err r =? 0) then fail (or_err r) q
    else
      let size := or_size r in
      let lines := DIV_ROUND_UP (u32 (size * 16)) MLX5_SEND_WQE_BB in
      eff_lift (
        let! ids := arr_set (wrid (sq q)) idx (wr_id wr) in
        let! wh := arr_set (wqe_head q) idx (u32 (head (sq q) + ps_nreq s)) in
        Ok (0, PostSt (ps_nreq s + 1) seg size (s32 (ps_cachelines s + lines))
                 (qp_set_posted q (wq_set_wrid (sq q) ids) wh (u32 (scur_post q + lines))))).

(** The loop over the list; the second component is what is left from the
    request that failed ([*bad_wr]). *)
Fixpoint post_send_loop (is_exp : bool) (wrs : list ibv_exp_send_wr) (s : post_st)
    : eff K (Z * list ibv_exp_send_wr * post_st) :=
  match wrs with
  | [] => eff_ret (0, [], s)
  | wr :: rest =>
      let* (err, s) := post_iter is_exp wr s in
      if negb (err =? 0) then eff_ret (err, wr :: rest, s)
      else post_send_loop is_exp rest s
  end.

(** What [ibv_post_send] leaves behind. *)
Record post_ret : Type := PostRet
  { pr_err : Z;
    pr_bad_wr : list ibv_exp_send_wr;
    pr_qp : mlx5_qp;
    pr_stats : hrd_stats;
    pr_events : list dev_event }.

(** [junk_size] and [junk_seg] are the uninitialised [size] and [seg]. *)
Definition __mlx5_post_send (junk_seg junk_size : Z) (q : mlx5_qp) (stats : hrd_stats)
    (wrs : list ibv_exp_send_wr) (is_exp : bool) : eff K post_ret :=
  let* (err, bad, s) := post_send_loop is_exp wrs (PostSt 0 junk_seg junk_size 0 q) in
  eff_lift (
    let! stats := (if err =? 0 then post_stats (ps_qp s) (ps_nreq s) (ps_size s) (ps_cachelines s) stats
                   else Ok stats) in
    let q := ps_qp s in
    if negb (ps_nreq s =? 0) then
      let q := qp_set_sq q (wq_set_head (sq q) (u32 (head (sq q) + ps_nreq s))) in
      if IBV_EXP_QP_CREATE_MANAGED_SEND (cflags q) then Ok (PostRet err bad q stats [EvWmb])
      else
        let! (q, evs) := __ring_db q (scur_post q .& 0xffff) (ps_seg s) (Z.quot (ps_size s + 3) 4) in
        Ok (PostRet err bad q stats evs)
    else Ok (PostRet err bad q stats [])).

Definition mlx5_post_send (junk_seg junk_size : Z) (q : mlx5_qp) (stats : hrd_stats)
    (wrs : list ibv_exp_send_wr) : eff K post_ret :=
  __mlx5_post_send junk_seg junk_size q stats wrs false.
Definition mlx5_exp_post_send (junk_seg junk_size : Z) (q : mlx5_qp) (stats : hrd_stats)
    (wrs : list ibv_exp_send_wr) : eff K post_ret :=
  __mlx5_post_send junk_seg junk_size q stats wrs true.

End Post.
