(* ===== verification/Mlx5SqProof.v ===== *)
(** * libmlx5: the send queue

    [sq_inv q b s0 out]: the queue pair [q] holds the requests [out], oldest
    first, whose WQEs lie one behind the other in the ring from position [s0]
    on.  Posting appends to [out], within the capacity of the queue
    ([post_send_loop_spec]); the device finds the WQEs by walking the ring
    ([hca_fetch]). *)

From stdpp Require Import base gmap list numbers.
From Stdlib Require Import ZArith Lia.
From S2P Require Import Prelude Mlx5Base Mlx5Wqe Mlx5WqeProof Mlx5Encode Mlx5Send.

(** ** Rotation of the ring *)
Lemma ring_list_rotate m qend off n L1 L2 :
  0 < qend → ring_list m qend off = L1 ++ L2 → n = off + Z.of_nat (length L1) →
  ring_list m qend (n mod qend) = L2 ++ L1.
Proof.
  intros Hq HL ->. pose proof (f_equal length HL) as Hlen.
  rewrite length_ring_list, length_app in Hlen.
  apply list_eq_same_length with (Z.to_nat qend);
    [rewrite length_app; lia|by rewrite length_ring_list|].
  intros k x y Hk Hx Hy. rewrite ring_list_lookup in Hx by done. injection Hx as <-.
  rewrite Zplus_mod_idemp_l.
  destruct (decide (k < length L2)%nat).
  - rewrite lookup_app_l in Hy by done.
    assert (H0 : ring_list m qend off !! (length L1 + k)%nat = Some y)
      by (rewrite HL, lookup_app_r, Nat.add_comm, Nat.add_sub by lia; done).
    rewrite ring_list_lookup in H0 by lia. injection H0 as <-. do 2 f_equal. lia.
  - rewrite lookup_app_r in Hy by lia.
    assert (H0 : ring_list m qend off !! (k - length L2)%nat = Some y).
    { rewrite HL, lookup_app_l; [done|]. apply lookup_lt_Some in Hy. done. }
    rewrite ring_list_lookup in H0 by lia. injection H0 as <-. f_equal.
    replace (off + Z.of_nat (length L1) + Z.of_nat k)
      with (off + Z.of_nat (k - length L2) + 1 * qend) by lia.
    apply Z.mod_add. lia.
Qed.

(** ** Slots *)
Record slot : Type := Slot
  { sl_bb : Z;             (** basic blocks *)
    sl_bytes : list Z;
    sl_req : hca_req;
    sl_wrid : Z }.

(** The basic blocks of a WQE of [ds] units. *)
Definition blocks_of (ds : Z) : Z := (ds + 3) / 4.

Definition slot_ok (qpt : ibv_qp_type) (bbmax : Z) (s : slot) : Prop :=
  1 ≤ sl_bb s ≤ bbmax ∧ Z.of_nat (length (sl_bytes s)) = 64 * sl_bb s ∧
  ∃ ds, blocks_of ds = sl_bb s ∧ ∀ R, hca_decode qpt (sl_bytes s ++ R) = Some (sl_req s, ds).

Definition span (out : list slot) : Z := foldr (λ s n, sl_bb s + n) 0 out.

Lemma span_app o1 o2 : span (o1 ++ o2) = span o1 + span o2.
Proof. induction o1 as [|s o1 IH]; simpl; lia. Qed.

Lemma span_bounds qpt bbmax out :
  Forall (slot_ok qpt bbmax) out →
  Z.of_nat (length out) ≤ span out ≤ bbmax * Z.of_nat (length out).
Proof. induction 1 as [|s out Hs _ IH]; simpl; [lia|]. destruct Hs as [? _]. lia. Qed.

Lemma length_slot_bytes qpt bbmax out :
  Forall (slot_ok qpt bbmax) out → Z.of_nat (length (concat (map sl_bytes out))) = 64 * span out.
Proof.
  induction 1 as [|s out Hs _ IH]; [done|]. cbn [map concat span foldr].
  rewrite length_app, Nat2Z.inj_add. destruct Hs as (_ & -> & _). unfold span in IH. lia.
Qed.

(** ** The queue pair *)

(** What [create_qp] fixes: [bbmax] is the size of the largest WQE in basic
    blocks, [b] the signal bits of all requests. *)
Record sq_ok (q : mlx5_qp) (b bbmax k : Z) : Prop := SqOk
  { so_env : env_ok (qp_env q) b;
    so_fn : (qp_type q = IBV_QPT_RC ∧ post_send_one q = PostRc) ∨
            (qp_type q = IBV_QPT_UC ∨ qp_type q = IBV_QPT_UD) ∧ post_send_one q = PostUcUd;
    so_k : 0 ≤ k ≤ 15;
    so_cnt : wqe_cnt (sq q) = 2 ^ k;
    so_end : sqend q = 64 * wqe_cnt (sq q);
    so_ids : Z.of_nat (length (wrid (sq q))) = wqe_cnt (sq q);
    so_heads : Z.of_nat (length (wqe_head q)) = wqe_cnt (sq q);
    so_post : 0 < max_post (sq q) ∧ max_post (sq q) * bbmax ≤ wqe_cnt (sq q);
    so_bb : 1 ≤ bbmax ≤ 15;
    so_fm : fm_cache q = 0;
    so_over : IBV_EXP_QP_CREATE_IGNORE_SQ_OVERFLOW (cflags q) = false;
    so_managed : IBV_EXP_QP_CREATE_MANAGED_SEND (cflags q) = false;
    so_db : length (db q) = 2%nat }.

(** A request within the limits that the queue was created with. *)
Record wr_fits (host : Z → Z) (q : mlx5_qp) (bbmax : Z) (fl : send_flags) (wr : ibv_exp_send_wr)
    : Prop := WrFits
  { wf_ok : wr_ok (qp_type q) wr;
    wf_rc : qp_type q = IBV_QPT_RC →
            exp_opcode wr = IBV_EXP_WR_SEND ∨ exp_opcode wr = IBV_EXP_WR_RDMA_WRITE;
    wf_calc : IBV_EXP_SEND_WITH_CALC fl = false;
    wf_gs : num_sge wr ≤ max_gs (sq q);
    wf_inl : IBV_SEND_INLINE fl = true →
             Z.of_nat (length (payload host (sg_list wr))) ≤ max_inline_data q;
    wf_units : wqe_units host (qp_type q) fl wr ≤ 4 * bbmax }.

(** Position and bookkeeping of the requests in the queue. *)
Definition slots_at (q : mlx5_qp) (s0 : Z) (out : list slot) : Prop :=
  ∀ o1 s o2, out = o1 ++ s :: o2 →
    wrid (sq q) !! Z.to_nat ((s0 + span o1) mod wqe_cnt (sq q)) = Some (sl_wrid s) ∧
    wqe_head q !! Z.to_nat ((s0 + span o1) mod wqe_cnt (sq q)) =
      Some (u32 (tail (sq q) + Z.of_nat (length o1))) ∧
    hq_idx (sl_req s) = u16 (s0 + span o1).

Record sq_inv (q : mlx5_qp) (bbmax : Z) (s0 : Z) (out : list slot) : Prop := SqInv
  { si_slots : Forall (slot_ok (qp_type q) bbmax) out;
    si_fit : Z.of_nat (length out) ≤ max_post (sq q);
    si_tail : 0 ≤ tail (sq q) < 2 ^ 32;
    si_scur : scur_post q = u32 (s0 + span out);
    si_at : slots_at q s0 out;
    si_ring : ∃ F, ring_list (sqbuf q) (sqend q) ((64 * s0) mod sqend q) =
                   concat (map sl_bytes out) ++ F }.

Section Sq.
Context {K : Type} `{ImplicitLkey K}.
Variable host : Z → Z.
Variable rc_dc : mlx5_qp → ibv_exp_send_wr → send_flags → Z → Z → sqmem → eff K one_ret.

Lemma mod_u32_pow2 x k : 0 ≤ k ≤ 32 → u32 x mod 2 ^ k = x mod 2 ^ k.
Proof using.
  intros Hk. unfold u32. symmetry. rewrite <-(Z.mod_mod (x) (2 ^ k)) by lia.
  rewrite (Z.div_mod x (2 ^ 32)) at 1 by lia.
  replace (2 ^ 32) with (2 ^ (32 - k) * 2 ^ k) at 1 by (rewrite <-Z.pow_add_r by lia; f_equal; lia).
  rewrite <-Z.mul_assoc, (Z.mul_comm (2 ^ k)), Z.mul_assoc, Z.add_comm, Z.mod_add, !Z.mod_mod by lia.
  done.
Qed.

(** The index of the next WQE. *)
Lemma post_index q b bbmax k s0 out :
  sq_ok q b bbmax k → sq_inv q bbmax s0 out →
  scur_post q .& u32 (wqe_cnt (sq q) - 1) = (s0 + span out) mod wqe_cnt (sq q) ∧
  0 ≤ (s0 + span out) mod wqe_cnt (sq q) < wqe_cnt (sq q) ∧
  mlx5_get_send_wqe ((s0 + span out) mod wqe_cnt (sq q)) = (64 * (s0 + span out)) mod sqend q.
Proof using.
  intros Hok Hinv. destruct (so_k _ _ _ _ Hok) as [Hk0 Hk].
  rewrite (so_end _ _ _ _ Hok), (so_cnt _ _ _ _ Hok), (si_scur _ _ _ _ Hinv).
  assert (2 ^ k ≤ 2 ^ 15) by (apply Z.pow_le_mono_r; lia). assert (0 < 2 ^ k) by lia.
  rewrite (u32_small (2 ^ k - 1)), u64_land_mask, mod_u32_pow2 by lia.
  split; [done|]. split; [apply Z.mod_pos_bound; lia|].
  unfold mlx5_get_send_wqe, MLX5_SEND_WQE_SHIFT. rewrite Z.shiftl_mul_pow2 by lia.
  change (2 ^ 6) with 64. rewrite Z.mul_mod_distr_l by lia. lia.
Qed.

(** The test of [mlx5_wq_overflow] for [cur] requests in the queue and [nreq]
    more. *)
Lemma wq_overflow_spec w cur nreq :
  0 ≤ tail w < 2 ^ 32 → head w = u32 (tail w + cur) → 0 ≤ cur → 0 ≤ nreq →
  cur + nreq < 2 ^ 32 → mlx5_wq_overflow w nreq = (max_post w <=? cur + nreq).
Proof using.
  intros Ht Hh Hc Hn Hs. unfold mlx5_wq_overflow. rewrite Hh.
  assert (Ecur : u32 (u32 (tail w + cur) - tail w) = cur).
  { unfold u32. rewrite Zminus_mod_idemp_l. replace (tail w + cur - tail w) with cur by lia.
    apply Z.mod_small. lia. }
  rewrite Ecur, u32_small by lia.
  destruct (_ <? _) eqn:E; [apply Z.ltb_lt in E; symmetry; apply Z.leb_gt; lia|done].
Qed.

(** The queue is full, or there is room. *)
Lemma overflow_spec q b bbmax k s0 out0 new :
  sq_ok q b bbmax k → sq_inv q bbmax s0 (out0 ++ new) →
  head (sq q) = u32 (tail (sq q) + Z.of_nat (length out0)) →
  mlx5_wq_overflow (sq q) (Z.of_nat (length new)) =
  (max_post (sq q) <=? Z.of_nat (length (out0 ++ new))).
Proof using.
  intros Hok Hinv Hh. pose proof (si_fit _ _ _ _ Hinv) as Hfit.
  pose proof (si_tail _ _ _ _ Hinv). destruct (so_post _ _ _ _ Hok) as [_ Hp].
  destruct (so_bb _ _ _ _ Hok) as [Hbb _]. destruct (so_k _ _ _ _ Hok) as [_ Hk].
  assert (2 ^ k ≤ 2 ^ 15) by (apply Z.pow_le_mono_r; lia).
  rewrite (so_cnt _ _ _ _ Hok) in Hp. rewrite length_app in *.
  assert (max_post (sq q) ≤ 2 ^ 15) by nia.
  rewrite (wq_overflow_spec (sq q) (Z.of_nat (length out0))) by (done || lia).
  by rewrite Nat2Z.inj_add.
Qed.

(** A new slot: the free part of the ring, seen from the next WQE. *)
Lemma ring_free q b bbmax k s0 out :
  sq_ok q b bbmax k → sq_inv q bbmax s0 out →
  Z.of_nat (length out) < max_post (sq q) →
  ∃ F, ring_list (sqbuf q) (sqend q) ((64 * s0) mod sqend q) = concat (map sl_bytes out) ++ F ∧
    ring_list (sqbuf q) (sqend q) ((64 * (s0 + span out)) mod sqend q) =
      F ++ concat (map sl_bytes out) ∧
    64 * bbmax ≤ Z.of_nat (length F).
Proof using.
  intros Hok Hinv Hroom. destruct (si_ring _ _ _ _ Hinv) as [F HF]. exists F.
  pose proof (eo_pos _ _ (so_env _ _ _ _ Hok)) as Hq. cbn in Hq.
  pose proof (length_slot_bytes _ _ _ (si_slots _ _ _ _ Hinv)) as Hlen.
  split; [done|]. split.
  - pose proof (ring_list_rotate _ _ _ _ _ _ Hq HF eq_refl) as Hr. rewrite <-Hr. f_equal.
    rewrite Hlen, Zplus_mod_idemp_l. f_equal. lia.
  - pose proof (f_equal length HF) as HL. rewrite length_ring_list, length_app in HL.
    rewrite (so_end _ _ _ _ Hok) in *.
    pose proof (span_bounds _ _ _ (si_slots _ _ _ _ Hinv)) as [_ Hs].
    destruct (so_post _ _ _ _ Hok) as [_ Hp]. destruct (so_bb _ _ _ _ Hok) as [Hbb _]. nia.
Qed.

(** Back to the start of the queue. *)
Lemma ring_back m qend s0 P W F' n :
  0 < qend → ring_list m qend (n mod qend) = (W ++ F') ++ P →
  n = 64 * s0 + Z.of_nat (length P) →
  ring_list m qend ((64 * s0) mod qend) = P ++ W ++ F'.
Proof using.
  intros Hq HR Hn. pose proof (f_equal length HR) as HL.
  rewrite length_ring_list, !length_app in HL.
  pose proof (ring_list_rotate _ _ _ (n mod qend + Z.of_nat (length (W ++ F'))) _ _ Hq HR eq_refl) as Hr.
  rewrite <-Hr. f_equal. rewrite Zplus_mod_idemp_l, length_app.
  replace (n + Z.of_nat (length W + length F')) with (64 * s0 + 1 * qend) by lia.
  symmetry. apply Z.mod_add. lia.
Qed.

(** The builder that is called for a request within the limits. *)
Lemma call_builds q b bbmax k fl wr c B C (w : K) :
  sq_ok q b bbmax k → wr_fits host q bbmax fl wr →
  0 ≤ c < sqend q → (64 | c) →
  ring_list (sqbuf q) (sqend q) c = B ++ C →
  Z.of_nat (length B) = 16 * wqe_units host (qp_type q) fl wr →
  ∃ r, call_post_send_one host rc_dc q wr fl c w = Ok (r, w) ∧
       builds host (qp_env q) b c fl wr (sqbuf q) B C r.
Proof using.
  intros Hok Hwr Hc Hc64 HL HB. destruct (so_bb _ _ _ _ Hok) as [_ Hbb].
  pose proof (wf_units _ _ _ _ _ Hwr) as Hu.
  unfold call_post_send_one. rewrite (so_fm _ _ _ _ Hok).
  destruct (so_fn _ _ _ _ Hok) as [[Et ->]|[Et ->]].
  - unfold __mlx5_post_send_one_rc. rewrite (wf_calc _ _ _ _ _ Hwr).
    assert (∃ o, hca_opcode (exp_opcode wr) = Some (o, false) ∧
      match exp_opcode wr with
      | IBV_EXP_WR_SEND => __mlx5_post_send_one_fast_rc host (qp_env q) MLX5_OPCODE_SEND
             (IBV_SEND_INLINE fl) wr fl c 0 (sqbuf q)
      | IBV_EXP_WR_RDMA_WRITE => __mlx5_post_send_one_fast_rc host (qp_env q) MLX5_OPCODE_RDMA_WRITE
             (IBV_SEND_INLINE fl) wr fl c 0 (sqbuf q)
      | IBV_EXP_WR_OUTSIDE => eff_ret (OneRet EINVAL 0 (sqbuf q) 0)
      | _ => rc_dc q wr fl c 0 (sqbuf q)
      end = __mlx5_post_send_one_fast_rc host (qp_env q) o
             (IBV_SEND_INLINE fl) wr fl c 0 (sqbuf q)) as (o & Ho & Em).
    { destruct (wf_rc _ _ _ _ _ Hwr Et) as [-> | ->]; eexists; split; reflexivity. }
    destruct (post_send_one_fast_rc_builds host (qp_env q) b c (so_env _ _ _ _ Hok) Hc Hc64
      fl wr (sqbuf q) B C w o) as (r & E & Hb); [done|apply Hwr|done|cbn; lia|apply Hwr|done..|].
    exists r. split; [|done]. rewrite <-E, <-Em. destruct (wf_rc _ _ _ _ _ Hwr Et) as [-> | ->]; done.
  - apply (post_send_one_uc_ud_builds host (qp_env q) b c (so_env _ _ _ _ Hok) Hc Hc64
      fl wr (sqbuf q) B C w); [done|apply Hwr|apply Hwr|cbn; lia|apply Hwr|done..].
Qed.

(** Basic blocks and units. *)
Lemma blocks_spec u : 0 < u < 64 →
  DIV_ROUND_UP (u32 (u * 16)) MLX5_SEND_WQE_BB = blocks_of u ∧ Z.quot (u + 3) 4 = blocks_of u ∧
  1 ≤ blocks_of u ∧ u ≤ 4 * blocks_of u < u + 4.
Proof using.
  intros Hu. unfold DIV_ROUND_UP, blocks_of, MLX5_SEND_WQE_BB. rewrite !u32_small by (rewrite ?u32_small; lia).
  rewrite Z.quot_div_nonneg by lia.
  pose proof (Z.div_mod (u + 3) 4 ltac:(lia)). pose proof (Z.mod_pos_bound (u + 3) 4 ltac:(lia)).
  assert ((u * 16 + 64 - 1) / 64 = (u + 3) / 4) as ->; [|lia].
  symmetry. apply Z.div_unique with (16 * ((u + 3) mod 4) + 15); lia.
Qed.

Lemma wqe_units_pos qpt fl wr : 1 ≤ wqe_units host qpt fl wr.
Proof using.
  unfold wqe_units. pose proof (data_units_nonneg host (IBV_SEND_INLINE fl) (sg_list wr)). lia.
Qed.

(** The state after one request. *)
Definition posted (q : mlx5_qp) (m : sqmem) (idx id seqno bb : Z) : mlx5_qp :=
  qp_set_posted (qp_set_ring q m 0)
    (wq_set_wrid (sq q) (<[Z.to_nat idx := id]> (wrid (sq q))))
    (<[Z.to_nat idx := seqno]> (wqe_head q)) (u32 (scur_post q + bb)).

Lemma sq_ok_posted q b bbmax k m idx id seqno bb :
  sq_ok q b bbmax k → sq_ok (posted q m idx id seqno bb) b bbmax k.
Proof using.
  intros [[? ? ? ? ? ? ?] ? ? ? ? ? ? ? ? ? ? ? ?]. split; try done.
  - cbn. by rewrite length_insert.
  - cbn. by rewrite length_insert.
Qed.

(** Different slots have different indices. *)
Lemma slot_index_ne q b bbmax k s0 o1 s o2 :
  sq_ok q b bbmax k → Forall (slot_ok (qp_type q) bbmax) (o1 ++ s :: o2) →
  Z.of_nat (length (o1 ++ s :: o2)) < max_post (sq q) →
  (s0 + span o1) mod wqe_cnt (sq q) ≠ (s0 + span (o1 ++ s :: o2)) mod wqe_cnt (sq q).
Proof using.
  intros Hok HF Hroom. pose proof (span_bounds _ _ _ HF) as [_ Hs].
  apply Forall_app in HF as [HF1 HF2]. inversion_clear HF2 as [|?? Hs1 HF3].
  pose proof (span_bounds _ _ _ HF1) as [Hb1 _]. pose proof (span_bounds _ _ _ HF3) as [Hb3 _].
  destruct Hs1 as [Hbb _]. destruct (so_post _ _ _ _ Hok) as [_ Hp].
  destruct (so_bb _ _ _ _ Hok) as [Hbb1 _].
  rewrite span_app in *. cbn [span foldr] in *. fold (span o2) in *.
  set (cnt := wqe_cnt (sq q)) in *. assert (span o1 + (sl_bb s + span o2) < cnt) by nia.
  intros E. pose proof (Z.div_mod (s0 + span o1) cnt ltac:(lia)) as E1.
  pose proof (Z.div_mod (s0 + (span o1 + (sl_bb s + span o2))) cnt ltac:(lia)) as E2.
  rewrite E in E1. set (a := (s0 + span o1) / cnt) in *.
  set (d := (s0 + (span o1 + (sl_bb s + span o2))) / cnt) in *.
  clearbody a d. clear E. generalize dependent ((s0 + (span o1 + (sl_bb s + span o2))) mod cnt).
  intros r E1 E2. assert (sl_bb s + span o2 = cnt * (d - a)) by lia.
  assert (0 < cnt) by lia. destruct (Z.le_gt_cases (d - a) 0); nia.
Qed.

Definition wr_flags (is_exp : bool) (wr : ibv_exp_send_wr) : send_flags :=
  if is_exp then exp_send_flags wr else send_flags_ wr.

(** The slot of a request at position [pos]. *)
Definition slot_for (q : mlx5_qp) (b : Z) (fl : send_flags) (wr : ibv_exp_send_wr) (s : slot) : Prop :=
  hca_request host (qp_env q) b fl wr = Some (sl_req s) ∧ sl_wrid s = wr_id wr ∧
  sl_bb s = blocks_of (wqe_units host (qp_type q) fl wr).

(** The free part of the ring takes a new slot; the rest stays. *)
Lemma build_slot q b bbmax k fl wr c F P (w : K) :
  sq_ok q b bbmax k → wr_fits host q bbmax fl wr → 0 ≤ c < sqend q → (64 | c) →
  ring_list (sqbuf q) (sqend q) c = F ++ P → 64 * bbmax ≤ Z.of_nat (length F) →
  ∃ r s F', call_post_send_one host rc_dc q wr fl c w = Ok (r, w) ∧
    or_err r = 0 ∧ or_size r = wqe_units host (qp_type q) fl wr ∧ or_fm_cache r = 0 ∧
    ring_list (or_mem r) (sqend q) c = (sl_bytes s ++ F') ++ P ∧
    slot_ok (qp_type q) bbmax s ∧ slot_for q b fl wr s.
Proof using.
  intros Hok Hwr Hc Hc64 HL HF. set (u := wqe_units host (qp_type q) fl wr).
  pose proof (wqe_units_pos (qp_type q) fl wr) as Hu1. pose proof (wf_units _ _ _ _ _ Hwr) as Hu2.
  destruct (so_bb _ _ _ _ Hok) as [_ Hbb]. fold u in Hu1, Hu2.
  destruct (blocks_spec u ltac:(lia)) as (_ & _ & Hbl1 & Hbl2).
  assert (blocks_of u ≤ bbmax) by lia.
  destruct (split_exact (Z.to_nat (16 * u)) (length F - Z.to_nat (16 * u)) F)
    as (B & F1 & -> & HB & HF1); [lia|]. rewrite length_app in HF.
  destruct (split_exact (Z.to_nat (64 * blocks_of u - 16 * u))
    (length F1 - Z.to_nat (64 * blocks_of u - 16 * u)) F1) as (pad & F' & -> & Hpad & HF'); [lia|].
  destruct (call_builds q b bbmax k fl wr c B ((pad ++ F') ++ P) w Hok Hwr Hc Hc64)
    as (r & E & He & Hsz & Hfm & W & HW & HlW & Hdec).
  { by rewrite HL, <-!(assoc_L (++)). } { lia. }
  destruct (wo_op _ _ (wf_ok _ _ _ _ _ Hwr)) as [[o imm] Hop].
  destruct (hca_request host (qp_env q) b fl wr) as [req|] eqn:Ereq.
  2: { unfold hca_request in Ereq. by rewrite Hop in Ereq. }
  exists r, (Slot (blocks_of u) (W ++ pad) req (wr_id wr)), F'. cbn [sl_bytes].
  split; [done|]. do 3 (split; [done|]).
  split; [change (sqend q) with (we_qend (qp_env q)); rewrite HW; by rewrite <-!(assoc_L (++))|]. split; [|done].
  split; [cbn; lia|]. split; [cbn; rewrite length_app; lia|].
  exists u. split; [done|]. intros R. cbn [sl_bytes sl_req]. by rewrite <-(assoc_L (++)), Hdec.
Qed.

Lemma u16_u32 x : u16 (u32 x) = u16 x.
Proof using.
  unfold u16, u32. change (2 ^ 32) with (2 ^ 16 * 2 ^ 16). rewrite Z.rem_mul_r by lia.
  rewrite Z.mul_comm, Z.mod_add, Z.mod_mod by lia. done.
Qed.

(** The invariant with a new slot. *)
Lemma sq_inv_posted q b bbmax k s0 out m s F' seqno id fl wr :
  sq_ok q b bbmax k → sq_inv q bbmax s0 out → Z.of_nat (length out) < max_post (sq q) →
  slot_ok (qp_type q) bbmax s → slot_for q b fl wr s → id = wr_id wr →
  seqno = u32 (tail (sq q) + Z.of_nat (length out)) →
  ring_list m (sqend q) ((64 * s0) mod sqend q) = concat (map sl_bytes out) ++ sl_bytes s ++ F' →
  sq_inv (posted q m ((s0 + span out) mod wqe_cnt (sq q)) id seqno (sl_bb s)) bbmax s0 (out ++ [s]).
Proof using.
  intros Hok Hinv Hroom Hs (Hreq & Hid & _) -> -> HR.
  pose proof (post_index q b bbmax k s0 out Hok Hinv) as (_ & Hidx & _).
  split; cbn [posted qp_set_posted qp_set_ring sq tail max_post qp_type sqend sqbuf wq_set_wrid
    scur_post wrid wqe_head wqe_cnt].
  - apply Forall_app. split; [apply Hinv|by constructor].
  - rewrite length_app. cbn. lia.
  - apply Hinv.
  - rewrite (si_scur _ _ _ _ Hinv), span_app. cbn [span foldr]. unfold u32.
    rewrite Zplus_mod_idemp_l. f_equal. lia.
  - intros o1 s1 o2 E. cbn [posted qp_set_posted qp_set_ring sq tail wq_set_wrid wrid wqe_head wqe_cnt].
    destruct (decide (o2 = [])) as [->|Hne].
    + apply app_inj_tail in E as [-> ->].
      rewrite !list_lookup_insert_eq.
      * split; [by rewrite Hid|]. split; [done|]. unfold hca_request in Hreq.
        destruct (hca_opcode (exp_opcode wr)) as [[o imm]|]; [|done].
        injection Hreq as <-. cbn. rewrite (si_scur _ _ _ _ Hinv). apply u16_u32.
      * pose proof (so_heads _ _ _ _ Hok). lia.
      * pose proof (so_ids _ _ _ _ Hok). lia.
    + destruct (exists_last Hne) as (o2' & s2 & ->). rewrite app_comm_cons, app_assoc in E.
      apply app_inj_tail in E as [-> ->].
      assert (Hd : (s0 + span o1) mod wqe_cnt (sq q) ≠ (s0 + span (o1 ++ s1 :: o2')) mod wqe_cnt (sq q)).
      { eapply slot_index_ne; [done|apply Hinv|done]. }
      pose proof (Z.mod_pos_bound (s0 + span o1) (wqe_cnt (sq q)) ltac:(lia)).
      rewrite !list_lookup_insert_ne by lia. by apply (si_at _ _ _ _ Hinv o1 s1 o2').
  - exists F'. rewrite map_app, concat_app. cbn. by rewrite app_nil_r, <-(assoc_L (++)).
Qed.

Section Loop.
Variables (b bbmax k s0 : Z) (is_exp : bool).
Local Abbreviation fl := (wr_flags is_exp).
Local Abbreviation units q wr := (wqe_units host (qp_type q) (fl wr) wr).

(** [q'] was obtained from [q] by posting: nothing but ring, [wrid],
    [wqe_head] and [scur_post] has changed. *)
Definition same_cfg (q q' : mlx5_qp) : Prop :=
  ∃ m ids wh cur, q' = qp_set_posted (qp_set_ring q m 0) (wq_set_wrid (sq q) ids) wh cur.

Lemma same_cfg_fits q q' f wr : same_cfg q q' → wr_fits host q bbmax f wr → wr_fits host q' bbmax f wr.
Proof using. intros (m & ids & wh & cur & ->) [? ? ? ? ? ?]. by split. Qed.
Lemma same_cfg_trans q1 q2 q3 : same_cfg q1 q2 → same_cfg q2 q3 → same_cfg q1 q3.
Proof using.
  intros (m & ids & wh & cur & ->) (m' & ids' & wh' & cur' & ->). by exists m', ids', wh', cur'.
Qed.

Lemma post_iter_full q out0 new wr seg size tot (w : K) :
  sq_ok q b bbmax k → sq_inv q bbmax s0 (out0 ++ new) →
  head (sq q) = u32 (tail (sq q) + Z.of_nat (length out0)) →
  Z.of_nat (length (out0 ++ new)) = max_post (sq q) →
  ∃ seg', post_iter host rc_dc is_exp wr (PostSt (Z.of_nat (length new)) seg size tot q) w =
    Ok ((ENOMEM, PostSt (Z.of_nat (length new)) seg' size tot q), w).
Proof using.
  intros Hok Hinv Hh Hfull. unfold post_iter. cbn [ps_qp ps_nreq ps_size ps_cachelines].
  rewrite (so_over _ _ _ _ Hok), (overflow_spec q b bbmax k s0 out0 new) by done.
  rewrite (proj2 (Z.leb_le _ _)) by lia. cbn. by eexists.
Qed.

Lemma post_iter_ok q out0 new wr seg size tot (w : K) :
  sq_ok q b bbmax k → sq_inv q bbmax s0 (out0 ++ new) →
  head (sq q) = u32 (tail (sq q) + Z.of_nat (length out0)) →
  Z.of_nat (length (out0 ++ new)) < max_post (sq q) →
  wr_fits host q bbmax (fl wr) wr →
  ∃ q' s, post_iter host rc_dc is_exp wr (PostSt (Z.of_nat (length new)) seg size tot q) w =
      Ok ((0, PostSt (Z.of_nat (length (new ++ [s]))) ((64 * (s0 + span (out0 ++ new))) mod sqend q)
             (units q wr) (s32 (tot + sl_bb s)) q'), w) ∧
    sq_ok q' b bbmax k ∧ sq_inv q' bbmax s0 (out0 ++ (new ++ [s])) ∧ same_cfg q q' ∧
    slot_for q b (fl wr) wr s.
Proof using.
  intros Hok Hinv Hh Hroom Hwr. set (out := out0 ++ new) in *.
  destruct (post_index q b bbmax k s0 out Hok Hinv) as (Ei & Hi & Eseg).
  destruct (ring_free q b bbmax k s0 out Hok Hinv Hroom) as (F & _ & HF & HlF).
  pose proof (eo_pos _ _ (so_env _ _ _ _ Hok)) as Hq. cbn in Hq.
  set (c := (64 * (s0 + span out)) mod sqend q) in *.
  assert (Hc : 0 ≤ c < sqend q) by (apply Z.mod_pos_bound; lia).
  assert (Hc64 : (64 | c)).
  { rewrite <-Eseg. unfold mlx5_get_send_wqe. rewrite Z.shiftl_mul_pow2 by done.
    eexists. reflexivity. }
  destruct (build_slot q b bbmax k (fl wr) wr c F _ w Hok Hwr Hc Hc64 HF HlF)
    as (r & s & F' & E & He & Hsz & Hfm & HR & Hs & Hfor).
  assert (HR' : ring_list (or_mem r) (sqend q) ((64 * s0) mod sqend q) =
    concat (map sl_bytes out) ++ sl_bytes s ++ F').
  { eapply ring_back; [done|exact HR|].
    rewrite (length_slot_bytes _ _ _ (si_slots _ _ _ _ Hinv)). lia. }
  pose proof (wqe_units_pos (qp_type q) (fl wr) wr) as Hu1.
  pose proof (wf_units _ _ _ _ _ Hwr) as Hu2. destruct (so_bb _ _ _ _ Hok) as [_ Hbb].
  destruct (blocks_spec (units q wr) ltac:(lia)) as (Ed & _ & _ & _).
  set (q' := posted q (or_mem r) ((s0 + span out) mod wqe_cnt (sq q)) (wr_id wr)
    (u32 (tail (sq q) + Z.of_nat (length out))) (sl_bb s)).
  exists q', s. rewrite (assoc_L (++)). fold out. repeat split_and.
  - unfold post_iter. cbn [ps_qp ps_nreq ps_size ps_cachelines].
    rewrite (so_over _ _ _ _ Hok), (overflow_spec q b bbmax k s0 out0 new) by done.
    fold out. rewrite (proj2 (Z.leb_gt _ _)) by lia. cbn [negb andb].
    pose proof (wf_gs _ _ _ _ _ Hwr). rewrite (proj2 (Z.ltb_ge _ _)) by lia.
    rewrite Ei, Eseg. fold c. unfold eff_bind at 1. fold (wr_flags is_exp wr).
    rewrite E. cbn [res_bind fst snd]. rewrite He, Hsz, Hfm, Ed. cbn [negb Z.eqb].
    destruct Hfor as (_ & _ & Ebb). rewrite <-Ebb.
    unfold eff_lift. cbn [qp_set_ring sq wqe_head wrid].
    rewrite arr_set_Ok by (pose proof (so_ids _ _ _ _ Hok); lia). cbn [res_bind].
    rewrite arr_set_Ok by (pose proof (so_heads _ _ _ _ Hok); lia). cbn [res_bind].
    rewrite length_app, Nat2Z.inj_add. cbn [length Z.of_nat].
    assert (Eseq : u32 (head (sq q) + Z.of_nat (length new)) =
      u32 (tail (sq q) + Z.of_nat (length out))).
    { rewrite Hh. unfold u32, out. rewrite Zplus_mod_idemp_l, length_app. f_equal. lia. }
    by rewrite Eseq.
  - by apply sq_ok_posted.
  - eapply sq_inv_posted; done.
  - by eexists _, _, _, _.
  - done.
Qed.

(** Slot [s] carries request [wr]; its index in the WQE is that of the
    position in the ring ([slots_at]). *)
Definition env_at (e : wqe_env) (pos : Z) : wqe_env :=
  WqeEnv (we_qend e) (we_qp_type e) (we_max_inline_data e) (we_ctrl_seg e) (we_cross_channel e) pos.
Definition carries (q : mlx5_qp) (wr : ibv_exp_send_wr) (s : slot) : Prop :=
  (∃ pos, hca_request host (env_at (qp_env q) pos) b (fl wr) wr = Some (sl_req s)) ∧
  sl_wrid s = wr_id wr ∧ sl_bb s = blocks_of (units q wr).

Lemma same_cfg_carries q q' wr s : same_cfg q q' → carries q' wr s → carries q wr s.
Proof using. by intros (m & ids & wh & cur & ->). Qed.
Lemma slot_for_carries q wr s : slot_for q b (fl wr) wr s → carries q wr s.
Proof using. intros (Hr & Hi & Hb). split; [|done]. by exists (scur_post q). Qed.

(** What the loop says about the last request: where its WQE is and how
    long, and the total in cache lines. *)
Definition last_wqe (q : mlx5_qp) (out0 new : list slot) (wrs : list ibv_exp_send_wr) (ss : list slot)
    (seg size tot seg' size' tot' : Z) : Prop :=
  (ss = [] → size' = size ∧ tot' = tot ∧ (wrs = [] → seg' = seg)) ∧
  (∀ s1 s, ss = s1 ++ [s] →
     1 ≤ size' < 64 ∧ blocks_of size' = sl_bb s ∧ tot' = s32 (tot + span ss) ∧
     (length ss = length wrs → seg' = (64 * (s0 + span (out0 ++ new ++ s1))) mod sqend q)).

Lemma s32_s32_add x y : s32 (s32 x + y) = s32 (x + y).
Proof using.
  unfold s32. f_equal. replace ((x + 2 ^ 31) mod 2 ^ 32 - 2 ^ 31 + y + 2 ^ 31)
    with ((x + 2 ^ 31) mod 2 ^ 32 + y) by lia.
  rewrite Zplus_mod_idemp_l. f_equal. lia.
Qed.

Lemma post_seg_ok q out :
  sq_ok q b bbmax k → 
  let c := (64 * (s0 + span out)) mod sqend q in 0 ≤ c < sqend q ∧ (64 | c).
Proof using.
  intros Hok c. pose proof (eo_pos _ _ (so_env _ _ _ _ Hok)) as Hq. cbn in Hq.
  split; [apply Z.mod_pos_bound; lia|]. unfold c. rewrite (so_end _ _ _ _ Hok) in Hq |- *.
  rewrite Z.mul_mod_distr_l by lia. eexists. rewrite Z.mul_comm. reflexivity.
Qed.

Lemma post_send_loop_spec wrs : ∀ q out0 new seg size tot (w : K),
  sq_ok q b bbmax k → sq_inv q bbmax s0 (out0 ++ new) →
  head (sq q) = u32 (tail (sq q) + Z.of_nat (length out0)) →
  (Forall (λ wr, wr_fits host q bbmax (fl wr) wr) wrs) →
  let n := (length wrs `min` (Z.to_nat (max_post (sq q)) - length (out0 ++ new)))%nat in
  ∃ seg' size' tot' q' ss,
    post_send_loop host rc_dc is_exp wrs (PostSt (Z.of_nat (length new)) seg size tot q) w =
      Ok ((if decide (n = length wrs) then 0 else ENOMEM, drop n wrs,
           PostSt (Z.of_nat (length (new ++ ss))) seg' size' tot' q'), w) ∧
    sq_ok q' b bbmax k ∧ sq_inv q' bbmax s0 (out0 ++ (new ++ ss)) ∧ (q' = q ∨ same_cfg q q') ∧
    Forall2 (carries q) (take n wrs) ss ∧
    (wrs ≠ [] → 0 ≤ seg' < sqend q ∧ (64 | seg')) ∧
    last_wqe q out0 new wrs ss seg size tot seg' size' tot'.
Proof using.
  induction wrs as [|wr wrs IH]; intros q out0 new seg size tot w Hok Hinv Hh Hwrs n.
  { subst n. cbn [length Nat.min]. exists seg, size, tot, q, []. rewrite app_nil_r.
    split; [done|]. split; [done|]. split; [done|]. split; [by left|]. split; [by constructor|].
    split; [done|]. split; [done|]. intros s1 s E. by destruct s1. }
  inversion_clear Hwrs as [|?? Hwr Hwrs']. cbn [post_send_loop].
  pose proof (si_fit _ _ _ _ Hinv) as Hfit.
  destruct (decide (Z.of_nat (length (out0 ++ new)) = max_post (sq q))) as [Hfull|Hroom].
  { (* no room: the first request fails *)
    assert (Hn : n = 0%nat) by (subst n; lia).
    destruct (post_iter_full q out0 new wr seg size tot w Hok Hinv Hh Hfull) as (seg' & E).
    assert (Hs : seg' = (64 * (s0 + span (out0 ++ new))) mod sqend q).
    { unfold post_iter in E. cbn [ps_qp ps_nreq ps_size ps_cachelines] in E.
      rewrite (so_over _ _ _ _ Hok), (overflow_spec q b bbmax k s0 out0 new) in E by done.
      rewrite (proj2 (Z.leb_le _ _)) in E by lia. injection E as <-.
      destruct (post_index q b bbmax k s0 _ Hok Hinv) as (-> & _ & ->). done. }
    exists seg', size, tot, q, []. unfold eff_bind. rewrite E. cbn [res_bind fst snd]. rewrite Hn, app_nil_r.
    split; [by rewrite decide_False by done|]. split; [done|]. split; [done|]. split; [by left|].
    split; [by constructor|]. split; [intros _; subst seg'; by apply post_seg_ok|].
    split; [done|]. intros s1 s Es. by destruct s1. }
  destruct (post_iter_ok q out0 new wr seg size tot w Hok Hinv Hh ltac:(lia) Hwr)
    as (q1 & s & E & Hok1 & Hinv1 & Hsame & Hfor).
  pose proof Hsame as (m & ids & wh & cur & Eq1).
  destruct (IH q1 out0 (new ++ [s]) ((64 * (s0 + span (out0 ++ new))) mod sqend q) (units q wr)
    (s32 (tot + sl_bb s)) w Hok1 Hinv1) as (seg' & size' & tot' & q' & ss & E' & Hok' & Hinv' & Hsame' & HF2 & Hseg & Hlast).
  { by rewrite Eq1. }
  { eapply Forall_impl; [|exact Hwrs']. intros wr' Hw'. by eapply same_cfg_fits. }
  assert (Hmp : max_post (sq q1) = max_post (sq q)) by by rewrite Eq1.
  set (n' := (length wrs `min` (Z.to_nat (max_post (sq q1)) - length (out0 ++ (new ++ [s]))))%nat) in *.
  assert (Hn : n = S n').
  { subst n n'. rewrite Hmp. rewrite !length_app in *. cbn [length] in *. lia. }
  exists seg', size', tot', q', (s :: ss). unfold eff_bind at 1. rewrite E. cbn [res_bind fst snd negb Z.eqb].
  rewrite E', Hn. cbn [length drop take]. rewrite <-(assoc_L (++)) in Hinv'. 
  split.
  { rewrite <-(assoc_L (++) new). cbn [app]. do 4 f_equal. destruct (decide (n' = length wrs)) as [->|Hne];
      [by rewrite decide_True|by rewrite decide_False by lia]. }
  split; [done|]. split; [done|]. split.
  { right. destruct Hsame' as [-> |Hs']; [done|]. by eapply same_cfg_trans. }
  split; [|split].
  - constructor; [by apply slot_for_carries|]. eapply Forall2_impl; [|exact HF2].
    intros ? ? ?. by eapply same_cfg_carries.
  - intros _. destruct wrs as [|wr2 wrs]; [|replace (sqend q) with (sqend q1) by (by rewrite Eq1); by apply Hseg].
    rewrite take_nil in HF2. inversion HF2; subst ss. destruct Hlast as [Hl1 _].
    destruct (Hl1 eq_refl) as (_ & _ & Hs). rewrite Hs by done. by apply post_seg_ok.
  - destruct Hlast as (Hl1 & Hl2). split; [done|]. intros s1 s' Es.
    pose proof (wqe_units_pos (qp_type q) (fl wr) wr). pose proof (wf_units _ _ _ _ _ Hwr).
    destruct (so_bb _ _ _ _ Hok). destruct Hfor as (_ & _ & Ebb).
    destruct s1 as [|s0' s1]; injection Es as <- Es.
    + destruct (Hl1 Es) as (-> & -> & Hw). split; [lia|]. split; [done|]. subst ss.
      split; [cbn; f_equal; lia|]. cbn [length]. intros Hl. rewrite app_nil_r.
      apply Hw. destruct wrs; [done|discriminate].
    + destruct (Hl2 s1 s' Es) as (Hz & Hb' & -> & Hp). split; [done|]. split; [done|].
      cbn [span foldr length]. fold (span ss). split.
      * rewrite s32_s32_add. f_equal. lia.
      * intros Hl. rewrite Hp by lia. replace (sqend q1) with (sqend q) by (by rewrite Eq1).
        rewrite <-(assoc_L (++) new). done.
Qed.
End Loop.
End Sq.
