(* ===== verification/Mlx5SqThms.v ===== *)
(** * libmlx5: posting and the device

    [ibv_post_send] accepts requests up to the capacity of the queue, the
    doorbell announces exactly those, and the device reads them back from the
    ring in order. *)

From stdpp Require Import base gmap list numbers.
From Stdlib Require Import ZArith Lia.
From S2P Require Import Prelude Mlx5Base Mlx5Wqe Mlx5WqeProof Mlx5Encode Mlx5Send Mlx5SqProof.

(** ** The device walks the ring

    [ci] and [pi] are 16-bit counters of basic blocks: what the device has
    executed and what the doorbell record says. *)
Fixpoint hca_fetch (fuel : nat) (qpt : ibv_qp_type) (m : sqmem) (qend ci pi : Z) : option (list hca_req) :=
  match fuel with
  | O => None
  | S fuel =>
      if u16 ci =? u16 pi then Some []
      else
        '(r, ds) ← hca_decode qpt (ring_list m qend ((64 * u16 ci) mod qend));
        cons r <$> hca_fetch fuel qpt m qend (u16 (ci + blocks_of ds)) pi
  end.

Definition ring_holds (m : sqmem) (qend s0 : Z) (out : list slot) : Prop :=
  ∃ F, ring_list m qend ((64 * s0) mod qend) = concat (map sl_bytes out) ++ F.

Lemma ring_holds_skip qpt bbmax m qend s0 o1 o2 :
  0 < qend → Forall (slot_ok qpt bbmax) o1 →
  ring_holds m qend s0 (o1 ++ o2) → ring_holds m qend (s0 + span o1) o2.
Proof.
  intros Hq Ho [F HF]. rewrite map_app, concat_app, <-(assoc_L (++)) in HF.
  pose proof (ring_list_rotate _ _ _ _ _ _ Hq HF eq_refl) as Hr.
  rewrite (length_slot_bytes _ _ _ Ho), Zplus_mod_idemp_l in Hr.
  exists (F ++ concat (map sl_bytes o1)). rewrite (assoc_L (++)), <-Hr. do 2 f_equal. lia.
Qed.

Lemma mod_u16 x k : 0 ≤ k ≤ 16 → (64 * u16 x) mod (64 * 2 ^ k) = (64 * x) mod (64 * 2 ^ k).
Proof.
  intros Hk. rewrite !Z.mul_mod_distr_l by lia. f_equal. unfold u16.
  replace (2 ^ 16) with (2 ^ k * 2 ^ (16 - k)) by (rewrite <-Z.pow_add_r by lia; f_equal; lia).
  rewrite Z.rem_mul_r by lia. rewrite Z.mul_comm, Z.mod_add, Z.mod_mod by lia. done.
Qed.

Lemma u16_distinct a d : 0 < d < 2 ^ 16 → (u16 a =? u16 (a + d)) = false.
Proof.
  intros Hd. apply Z.eqb_neq. unfold u16. intros E.
  pose proof (Z.div_mod a (2 ^ 16) ltac:(lia)). pose proof (Z.div_mod (a + d) (2 ^ 16) ltac:(lia)). lia.
Qed.

Lemma hca_fetch_spec qpt bbmax k m out : ∀ fuel s0,
  0 ≤ k ≤ 16 → Forall (slot_ok qpt bbmax) out → span out < 2 ^ 16 →
  ring_holds m (64 * 2 ^ k) s0 out → (length out < fuel)%nat →
  hca_fetch fuel qpt m (64 * 2 ^ k) s0 (s0 + span out) = Some (map sl_req out).
Proof.
  induction out as [|s out IH]; intros fuel s0 Hk Ho Hsp Hr Hf; (destruct fuel as [|fuel]; [simpl in Hf; lia|]).
  - cbn. by rewrite Z.add_0_r, Z.eqb_refl.
  - pose proof (Forall_inv Ho) as Hs. pose proof (Forall_inv_tail Ho) as Hos.
    destruct Hs as (Hb & Hl & ds & Hds & Hdec).
    pose proof (span_bounds _ _ _ Hos) as [Hs0 _].
    cbn [span foldr] in Hsp |- *. fold (span out) in *. cbn [hca_fetch].
    rewrite u16_distinct by lia. rewrite mod_u16 by lia. 
    pose proof Hr as [F HF]. cbn [map concat] in HF. rewrite <-(assoc_L (++)) in HF.
    rewrite HF, Hdec. cbn [mbind option_bind].
    assert (Hfetch : hca_fetch fuel qpt m (64 * 2 ^ k) (s0 + sl_bb s) (s0 + sl_bb s + span out) =
      Some (map sl_req out)).
    { apply IH; [done..|lia| |simpl in Hf; lia].
      replace (s0 + sl_bb s) with (s0 + span [s]) by (cbn; lia).
      apply (ring_holds_skip qpt bbmax); [lia|by constructor; [apply (Forall_inv Ho)|]|done]. }
    rewrite Hds, Z.add_assoc.
    assert (Hci : ∀ f ci pi, hca_fetch f qpt m (64 * 2 ^ k) (u16 ci) pi = hca_fetch f qpt m (64 * 2 ^ k) ci pi).
    { intros [|f] ci pi; [done|]. cbn [hca_fetch].
      assert (u16 (u16 ci) = u16 ci) as -> by (unfold u16; by rewrite Z.mod_mod).
      destruct (_ =? _); [done|]. destruct (hca_decode _ _) as [[r d]|]; [|done].
      cbn [mbind option_bind]. do 2 f_equal. unfold u16. by rewrite Zplus_mod_idemp_l. }
    rewrite Hci, Hfetch. done.
Qed.

(** ** The doorbell *)
Lemma bf_copy_ring m qend n : ∀ seg,
  0 < qend → 0 ≤ seg < qend → (64 | seg) → (64 | qend) → 64 * Z.of_nat n ≤ qend →
  mlx5_bf_copy qend n seg m = Ok (take (64 * n) (ring_list m qend seg)).
Proof.
  induction n as [|n IH]; intros seg Hq Hs Hd Hdq Hn; [done|]. cbn [mlx5_bf_copy].
  assert (Hs64 : seg + 64 ≤ qend) by (destruct Hd as [a ->], Hdq as [c ->]; lia).
  destruct (split_exact 64 (Z.to_nat qend - 64) (ring_list m qend seg)) as (B & C & HL & HB & HC);
    [rewrite length_ring_list; lia|].
  pose proof (ld_split qend seg seg m [] B C Hq (at_pos_start qend seg Hs) HL ltac:(lia)) as El.
  rewrite HB in El. rewrite El. cbn [res_bind].
  assert (Hnext : (if seg + 64 =? qend then 0 else seg + 64) = (seg + 64) mod qend).
  { destruct (seg + 64 =? qend) eqn:E.
    - apply Z.eqb_eq in E. rewrite E, Z.mod_same by lia. done.
    - apply Z.eqb_neq in E. rewrite Z.mod_small by lia. done. }
  rewrite Hnext. pose proof (ring_list_rotate m qend seg (seg + 64) B C Hq HL ltac:(lia)) as Hr.
  rewrite IH; [|done|apply Z.mod_pos_bound; lia| |done|lia].
  - cbn [res_bind]. rewrite Hr, HL. f_equal.
    replace (64 * S n)%nat with (length B + 64 * n)%nat by lia.
    rewrite take_app_add. f_equal. rewrite take_app_le by lia. done.
  - rewrite <-Hnext. destruct (_ =? _); [by exists 0|]. apply Z.divide_add_r; [done|by exists 1].
Qed.

(** What the device is told: the doorbell record, a barrier, and then the
    last WQE or its first 8 bytes. *)
Definition announces (evs : list dev_event) (pi : Z) (wqe : list Z) : Prop :=
  ∃ pre fence ev post, evs = pre ++ EvDbRec MLX5_SND_DBR pi :: fence :: ev :: post ∧
    (fence = EvWmb ∨ fence = EvWcWmb) ∧ Forall (λ e, e = EvWmb ∨ e = EvWcWmb) (pre ++ post) ∧
    ((∃ off, ev = EvBfCopy off wqe) ∨ (∃ off, ev = EvDb off (take 8 wqe))).

Local Ltac fences := cbn [app]; repeat first [apply List.Forall_nil|apply List.Forall_cons; [by auto|]].

Lemma ring_db_spec q pi seg n :
  0 < sqend q → 0 ≤ seg < sqend q → (64 | seg) → (64 | sqend q) → 1 ≤ n → 64 * n ≤ sqend q →
  length (db q) = 2%nat →
  ∃ b' evs, __ring_db q pi seg n =
      Ok (qp_set_rung q pi b' (<[1%nat := htonl pi]> (db q)), evs) ∧
    announces evs pi (take (Z.to_nat (64 * n)) (ring_list (sqbuf q) (sqend q) seg)).
Proof.
  intros Hq Hs Hd Hdq Hn1 Hn Hdb. unfold __ring_db.
  rewrite arr_set_Ok by (rewrite Hdb; unfold MLX5_SND_DBR; lia). cbn [res_bind].
  change (Z.to_nat MLX5_SND_DBR) with 1%nat.
  set (wqe := take (Z.to_nat (64 * n)) (ring_list (sqbuf q) (sqend q) seg)).
  assert (Hld : ld (sqend q) seg 8 (sqbuf q) = Ok (take 8 wqe)).
  { assert (seg + 64 ≤ sqend q) by (destruct Hd as [a Ea], Hdq as [c Ec]; lia).
    destruct (split_exact 8 (Z.to_nat (sqend q) - 8) (ring_list (sqbuf q) (sqend q) seg))
      as (B & C & HL & HB & HC); [rewrite length_ring_list; lia|].
    pose proof (ld_split (sqend q) seg seg (sqbuf q) [] B C Hq (at_pos_start _ _ Hs) HL ltac:(lia)) as El.
    rewrite HB in El. rewrite El. unfold wqe. rewrite take_take, HL. f_equal.
    rewrite take_app_length'; [done|]. rewrite HB. lia. }
  assert (Hw : ∃ ev, bf_write q seg n = Ok ev ∧
    ((∃ off, ev = EvBfCopy off wqe) ∨ (∃ off, ev = EvDb off (take 8 wqe)))).
  { unfold bf_write. destruct (_ <=? _).
    - rewrite bf_copy_ring by (done || lia). cbn [res_bind]. eexists. split; [done|]. left.
      eexists. unfold wqe. do 3 f_equal. lia.
    - rewrite Hld. cbn [res_bind]. eexists. split; [done|]. right. by eexists. }
  destruct Hw as (ev & Ew & Hev).
  destruct (bf_db_method (bf q)); cbv iota.
  - rewrite Ew. cbn [res_bind]. eexists _, _. split; [done|].
    exists [EvWcWmb], EvWcWmb, ev. eexists. split; [done|]. split; [by right|]. split; [|done].
    destruct (_ <=? _); fences.
  - rewrite Ew. cbn [res_bind]. eexists _, _. split; [done|].
    exists [EvWmb], EvWcWmb, ev, [EvWcWmb]. split; [done|]. split; [by right|]. split; [|done].
    fences.
  - rewrite Ew. cbn [res_bind]. eexists _, _. split; [done|].
    exists [EvWmb], EvWcWmb, ev, [EvWcWmb]. split; [done|]. split; [by right|]. split; [|done].
    fences.
  - rewrite Hld. cbn [res_bind]. eexists _, _. split; [done|].
    exists [EvWmb], EvWmb. eexists _, []. split; [done|]. split; [by left|]. split; [|right; by eexists].
    fences.
Qed.

(** ** Posting a list *)
Lemma stats_add_ok st i a c :
  0 ≤ i < Z.of_nat (length st) → ∃ st', stats_add st i a c = Ok st' ∧ length st' = length st.
Proof.
  intros Hi. unfold stats_add. destruct (arr_get_lt st i Hi) as (p & -> & _). cbn [res_bind].
  rewrite arr_set_Ok by done. eexists. split; [done|]. by rewrite length_insert.
Qed.

Lemma post_stats_ok q nreq size tot st :
  0 ≤ mlx5_hrd_qp_index q < Z.of_nat (length st) → (nreq = 1 → Z.quot (size + 3) 4 = tot) →
  ∃ st', post_stats q nreq size tot st = Ok st' ∧ length st' = length st.
Proof.
  intros Hi Ht. unfold post_stats. destruct (nreq =? 1) eqn:E.
  - apply Z.eqb_eq in E. rewrite (proj2 (Z.eqb_eq _ _) (Ht E)). cbn [cassert res_bind].
    destruct (_ <=? _); by apply stats_add_ok.
  - destruct (_ <=? _); [|by apply stats_add_ok].
    destruct (stats_add_ok st (mlx5_hrd_qp_index q) (mlx5_hrd_wc_c2n (Z.quot (size + 3) 4)) 0 Hi)
      as (st1 & -> & Hl). cbn [res_bind].
    destruct (stats_add_ok st1 (mlx5_hrd_qp_index q) (mlx5_hrd_dma_read_c2n (tot * 64))
      mlx5_hrd_dma_read_n2c) as (st2 & -> & Hl2); [lia|]. exists st2. split; [done|lia].
Qed.

(** The queue pair between two calls. *)
Definition sq_state (q : mlx5_qp) (b bbmax k s0 : Z) (out : list slot) : Prop :=
  sq_ok q b bbmax k ∧ sq_inv q bbmax s0 out ∧
  head (sq q) = u32 (tail (sq q) + Z.of_nat (length out)).

Lemma sq_state_rung q b bbmax k s0 out0 ss last bf' v :
  sq_ok q b bbmax k → sq_inv q bbmax s0 (out0 ++ ss) →
  head (sq q) = u32 (tail (sq q) + Z.of_nat (length out0)) →
  sq_state (qp_set_rung (qp_set_sq q (wq_set_head (sq q) (u32 (head (sq q) + Z.of_nat (length ss)))))
              last bf' (<[1%nat := v]> (db q))) b bbmax k s0 (out0 ++ ss).
Proof.
  intros [[? ? ? ? ? ? ?] ? ? ? ? ? ? ? ? ? ? ? ?] [? ? ? ? ? ?] Hh. split; [|split].
  - split; try done. cbn. by rewrite length_insert.
  - by split.
  - cbn. rewrite Hh. unfold u32. rewrite Zplus_mod_idemp_l, length_app. f_equal. lia.
Qed.

Lemma sq_state_same q b bbmax k s0 out :
  sq_ok q b bbmax k → sq_inv q bbmax s0 out →
  head (sq q) = u32 (tail (sq q) + Z.of_nat (length out)) → sq_state q b bbmax k s0 out.
Proof. done. Qed.

Lemma span_lt_ring q b bbmax k s0 out :
  sq_ok q b bbmax k → sq_inv q bbmax s0 out → span out ≤ wqe_cnt (sq q) ∧ wqe_cnt (sq q) ≤ 2 ^ 15.
Proof.
  intros Hok Hinv. pose proof (span_bounds _ _ _ (si_slots _ _ _ _ Hinv)) as [_ Hs].
  destruct (so_post _ _ _ _ Hok) as [_ Hp]. destruct (so_bb _ _ _ _ Hok) as [Hb _].
  pose proof (si_fit _ _ _ _ Hinv). split; [nia|].
  rewrite (so_cnt _ _ _ _ Hok). apply Z.pow_le_mono_r; [lia|apply Hok].
Qed.

(** The requests that were just posted, as the device finds them. *)
Lemma fetch_new q b bbmax k s0 out ss :
  sq_ok q b bbmax k → sq_inv q bbmax s0 (out ++ ss) →
  hca_fetch (S (length ss)) (qp_type q) (sqbuf q) (sqend q)
    (u32 (s0 + span out)) (u32 (s0 + span (out ++ ss))) = Some (map sl_req ss).
Proof.
  intros Hok Hinv. pose proof (span_lt_ring _ _ _ _ _ _ Hok Hinv) as [Hs Hc].
  pose proof (si_slots _ _ _ _ Hinv) as HF. apply Forall_app in HF as [HF1 HF2].
  pose proof (span_bounds _ _ _ HF1) as [Hs1 _].
  rewrite span_app in *. rewrite (so_end _ _ _ _ Hok), (so_cnt _ _ _ _ Hok) in *.
  assert (Hfe : ∀ f m qe ci pi ci' pi', u16 ci = u16 ci' → u16 pi = u16 pi' →
    hca_fetch f (qp_type q) m qe ci pi = hca_fetch f (qp_type q) m qe ci' pi').
  { intros [|f] m qe ci pi ci' pi' E1 E2; [done|]. cbn [hca_fetch]. rewrite E1, E2.
    destruct (_ =? _); [done|]. destruct (hca_decode _ _) as [[r ds]|]; [|done]. cbn [mbind option_bind].
    assert (u16 (ci + blocks_of ds) = u16 (ci' + blocks_of ds)) as ->.
    { unfold u16 in *. rewrite <-Zplus_mod_idemp_l, E1. by rewrite Zplus_mod_idemp_l. }
    f_equal. clear -E2. revert pi pi' E2. generalize (u16 (ci' + blocks_of ds)).
    induction f as [|f IH]; intros c pi pi' E2; [done|]. cbn [hca_fetch]. rewrite E2.
    destruct (_ =? _); [done|]. destruct (hca_decode _ _) as [[r' d']|]; [|done].
    cbn [mbind option_bind]. f_equal. by apply IH. }
  rewrite (Hfe _ _ _ _ _ (s0 + span out) (s0 + span out + span ss)).
  - pose proof (so_k _ _ _ _ Hok). assert (0 < 2 ^ k) by lia.
    apply (hca_fetch_spec _ bbmax k); [lia|done|lia| |lia].
    apply (ring_holds_skip (qp_type q) bbmax); [lia|done|].
    destruct (si_ring _ _ _ _ Hinv) as [F HRF]. rewrite (so_end _ _ _ _ Hok), (so_cnt _ _ _ _ Hok) in HRF.
    by exists F.
  - apply u16_u32.
  - rewrite u16_u32. f_equal. lia.
Qed.

(** What posting and completing leave alone. *)
Definition same_caps (q q' : mlx5_qp) : Prop :=
  max_post (sq q') = max_post (sq q) ∧ max_gs (sq q') = max_gs (sq q) ∧
  max_inline_data q' = max_inline_data q ∧ qp_type q' = qp_type q ∧ ctrl_seg q' = ctrl_seg q ∧
  mlx5_hrd_qp_index q' = mlx5_hrd_qp_index q ∧ sqend q' = sqend q.

Section PostSend.
Context {K : Type} `{ImplicitLkey K}.
Variable host : Z → Z.
Variable rc_dc : mlx5_qp → ibv_exp_send_wr → send_flags → Z → Z → sqmem → eff K one_ret.
Variables (b bbmax k s0 : Z) (is_exp : bool).

Lemma post_send_spec q out wrs (stats : hrd_stats) jseg jsize (w : K) :
  sq_state q b bbmax k s0 out →
  Forall (λ wr, wr_fits host q bbmax (wr_flags is_exp wr) wr) wrs →
  0 ≤ mlx5_hrd_qp_index q < Z.of_nat (length stats) →
  let n := (length wrs `min` (Z.to_nat (max_post (sq q)) - length out))%nat in
  ∃ r ss, __mlx5_post_send host rc_dc jseg jsize q stats wrs is_exp w = Ok (r, w) ∧
    pr_err r = (if decide (n = length wrs) then 0 else ENOMEM) ∧ pr_bad_wr r = drop n wrs ∧
    length (pr_stats r) = length stats ∧
    sq_state (pr_qp r) b bbmax k s0 (out ++ ss) ∧
    Forall2 (carries host b is_exp q) (take n wrs) ss ∧
    hca_fetch (S n) (qp_type q) (sqbuf (pr_qp r)) (sqend q) (scur_post q) (scur_post (pr_qp r)) =
      Some (map sl_req ss) ∧
    (n ≠ 0%nat → db (pr_qp r) !! 1%nat = Some (htonl (u16 (scur_post (pr_qp r))))) ∧
    (∀ s1 s, ss = s1 ++ [s] → n = length wrs →
       announces (pr_events r) (u16 (scur_post (pr_qp r))) (sl_bytes s)) ∧
    same_caps q (pr_qp r).
Proof using.
  intros (Hok & Hinv & Hh) Hwrs Hidx n.
  destruct (post_send_loop_spec host rc_dc b bbmax k s0 is_exp wrs q out [] jseg jsize 0 w)
    as (seg & size & tot & q' & ss & E & Hok' & Hinv' & Hsame & HF2 & Hseg & Hlast);
    [done|by rewrite app_nil_r|done|done|].
  rewrite app_nil_r in E, HF2. fold n in E, HF2. cbn [app length] in *. change (Z.of_nat 0) with 0 in E.
  assert (Hlen : length ss = n).
  { apply Forall2_length in HF2. rewrite <-HF2, length_take. unfold n. lia. }
  assert (Hq' : sqend q' = sqend q ∧ qp_type q' = qp_type q ∧ sq q' = wq_set_wrid (sq q) (wrid (sq q')) ∧
    mlx5_hrd_qp_index q' = mlx5_hrd_qp_index q).
  { destruct Hsame as [->|(m & ids & wh & cur & ->)]; [|done]. by destruct (sq q). }
  destruct Hq' as (Eend & Etype & Esq & Eidx).
  assert (Hcaps : same_caps q q') by (by destruct Hsame as [->|(m & ids & wh & cur & ->)]).
  assert (Hh' : head (sq q') = u32 (tail (sq q') + Z.of_nat (length out))) by (rewrite Esq; done).
  pose proof (fetch_new _ _ _ _ _ _ _ Hok' Hinv') as Hfetch.
  rewrite <-(si_scur _ _ _ _ Hinv), <-(si_scur _ _ _ _ Hinv'), Etype, Eend, Hlen in Hfetch.
  unfold __mlx5_post_send. unfold eff_bind at 1. rewrite E. cbn [res_bind fst snd].
  destruct Hlast as [Hl0 Hl1].
  (* the statistics *)
  assert (Hst : ∃ st' : hrd_stats, (if (if decide (n = length wrs) then 0 else ENOMEM) =? 0 then
      post_stats q' (Z.of_nat (length ss)) size tot stats else Ok stats) = Ok st' ∧
      length st' = length stats).
  { destruct (decide (n = length wrs)); [|by eexists]. cbn [Z.eqb]. apply post_stats_ok; [by rewrite Eidx|].
    intros H1. destruct ss as [|s ss]; [done|]. destruct ss; [|cbn in H1; lia].
    destruct (Hl1 [] s eq_refl) as (Hsz & Hb & Ht & _).
    destruct (blocks_spec size ltac:(lia)) as (_ & Eq & ? & ?). rewrite Eq, Hb, Ht. cbn [span foldr].
    unfold s32. rewrite Z.mod_small; lia. }
  destruct Hst as (st' & Est & Hlst).
  unfold eff_lift. cbn [ps_qp ps_nreq ps_size ps_cachelines ps_seg]. rewrite Est. cbn [res_bind].
  destruct (decide (ss = [])) as [->|Hne].
  - (* nothing posted *)
    cbn [length Z.of_nat negb Z.eqb]. eexists _, []. split; [done|].
    cbn [pr_err pr_bad_wr pr_qp pr_stats pr_events]. rewrite app_nil_r in *.
    do 6 (split; [done|]). split; [intros Hn; cbn in Hlen; congruence|].
    split; [intros s1 s Es; by destruct s1|exact Hcaps].
  - destruct (exists_last Hne) as (s1 & s & Es).
    destruct (Hl1 s1 s Es) as (Hsz & Hb & Ht & Hpos).
    assert (Hwne : wrs ≠ []) by (intros ->; rewrite take_nil in HF2; inversion HF2; done).
    destruct (Hseg Hwne) as [Hsr Hsd].
    destruct (blocks_spec size ltac:(lia)) as (_ & Eq & Hb1 & Hb2).
    rewrite (proj2 (Z.eqb_neq (Z.of_nat (length ss)) 0)) by (destruct ss; [done|cbn; lia]).
    cbn [negb qp_set_sq cflags scur_post]. rewrite (so_managed _ _ _ _ Hok'), Eq, Hb.
    pose proof (span_lt_ring _ _ _ _ _ _ Hok' Hinv') as [Hsp _].
    rewrite Es, span_app, span_app in Hsp. cbn [span foldr] in Hsp.
    pose proof (si_slots _ _ _ _ Hinv') as HFs. rewrite Es in HFs.
    apply Forall_app in HFs as [HFo HFs]. apply Forall_app in HFs as [HFs1 HFs2].
    pose proof (span_bounds _ _ _ HFo) as [? _]. pose proof (span_bounds _ _ _ HFs1) as [? _].
    destruct (ring_db_spec (qp_set_sq q' (wq_set_head (sq q') (u32 (head (sq q') + Z.of_nat (length ss)))))
      (scur_post q' .& 65535) seg (sl_bb s)) as (bf' & evs & -> & Hann); cbn [qp_set_sq sqend db sqbuf].
    { pose proof (eo_pos _ _ (so_env _ _ _ _ Hok')). done. }
    { by rewrite Eend. } { done. }
    { rewrite (so_end _ _ _ _ Hok'). eexists. apply Z.mul_comm. }
    { lia. } { rewrite (so_end _ _ _ _ Hok'). lia. } { apply Hok'. }
    cbn [res_bind]. eexists _, ss. split; [done|]. cbn [pr_err pr_bad_wr pr_qp pr_stats pr_events].
    assert (E16 : scur_post q' .& 65535 = u16 (scur_post q')).
    { change 65535 with (2 ^ 16 - 1). by rewrite u64_land_mask. }
    rewrite E16 in *. do 3 (split; [done|]). split; [by apply sq_state_rung|]. split; [done|].
    split; [done|]. split; [|split; [|exact Hcaps]].
    + intros _. cbn. apply list_lookup_insert_eq. rewrite (so_db _ _ _ _ Hok'). lia.
    + intros s1' s' Es' Hall. rewrite Es in Es'. apply app_inj_tail in Es' as [<- <-].
      cbn [qp_set_rung scur_post]. replace (sl_bytes s) with
        (take (Z.to_nat (64 * sl_bb s)) (ring_list (sqbuf q') (sqend q') seg)); [done|].
      rewrite Hpos, <-Eend by (rewrite Hlen; done). cbn [app].
      assert (Hho : ring_holds (sqbuf q') (sqend q') (s0 + span (out ++ s1)) [s]).
      { destruct (si_ring _ _ _ _ Hinv') as [F HRF].
        apply (ring_holds_skip (qp_type q') bbmax); [apply Hok'|by apply Forall_app|].
        rewrite <-(assoc_L (++)), <-Es. by exists F. }
      destruct Hho as [F HRF]. cbn [map concat] in HRF. rewrite app_nil_r in HRF. rewrite HRF.
      apply take_app_length'. pose proof (Forall_inv HFs2) as (_ & Hbl & _). lia.
Qed.
End PostSend.
