(* ===== verification/Mlx5Recv.v ===== *)
(** * libmlx5: receive queues
    (src/drivers/libmlx5-1.0.2mlnx1/src/qp.c)

    Receive WQEs have a fixed size and hold a list of scatter entries, ended
    by an entry with an invalid key unless the list is full.  Data that the
    device delivered inside a completion is copied to the scatter entries by
    the driver. *)

From stdpp Require Import base gmap list numbers.
From Stdlib Require Import ZArith Lia.
From S2P Require Import Prelude Mlx5Base Mlx5Wqe Mlx5Send.

Record ibv_recv_wr : Type := RecvWr
  { rwr_id : Z;
    rwr_sges : list ibv_sge }.

(** Size of the memory of a receive queue. *)
Definition rq_end (w : mlx5_wq) : Z := Z.shiftl (wqe_cnt w) (wqe_shift w).

Definition get_recv_wqe (w : mlx5_wq) (n : Z) : Z := Z.shiftl n (wqe_shift w).

Definition set_sig_seg (qend qpn sig : Z) (size : Z) (idx : Z) (m : sqmem) : res sqmem :=
  let! bs := ld qend (sig + 16) (Z.to_nat size) m in
  let sign := calc_xor bs .^ calc_xor (le_bytes 4 qpn) .^ calc_xor (le_bytes 2 (u16 idx)) in
  st qend (sig + 4) [u8 (Z.lnot sign)] m.

Section Recv.
Context {K : Type} `{ImplicitLkey K}.

(** The scatter entries; [j] counts the ones written. *)
Fixpoint recv_sges (qend scat : Z) (sgs : list ibv_sge) (j : Z) (m : sqmem) : eff K (Z * Z * sqmem) :=
  match sgs with
  | [] => eff_ret (0, j, m)
  | sg :: sgs =>
      if sge_length sg =? 0 then recv_sges qend scat sgs j m
      else
        let* (err, m) := set_data_ptr_seg qend (scat + 16 * j) sg 0 m in
        if negb (err =? 0) then eff_ret (-1, j + 1, m)
        else recv_sges qend scat sgs (j + 1) m
  end.

(** The entry that ends a list. *)
Definition end_seg : list Z := data_seg_bytes 0 MLX5_INVALID_LKEY 0.

Record recv_st : Type := RecvSt
  { rs_nreq : Z;
    rs_ind : Z;
    rs_qp : mlx5_qp }.

Definition recv_iter (qpn : Z) (wr : ibv_recv_wr) (s : recv_st) : eff K (Z * recv_st) :=
  let q := rs_qp s in
  let w := rq q in
  let n := Z.of_nat (length (rwr_sges wr)) in
  if negb (IBV_EXP_QP_CREATE_IGNORE_RQ_OVERFLOW (cflags q)) && mlx5_wq_overflow w (rs_nreq s)
  then eff_ret (ENOMEM, s)
  else if max_gs w <? n then eff_ret (EINVAL, s)
  else
    let sig := get_recv_wqe w (rs_ind s) in
    let scat := if wq_sig (ctrl_seg q) then sig + 16 else sig in
    let* (err, j, m) := recv_sges (rq_end w) scat (rwr_sges wr) 0 (buff w) in
    if negb (err =? 0) then
      eff_ret (err, RecvSt (rs_nreq s) (rs_ind s) (qp_set_rq q (wq_set_buff w m)))
    else eff_lift (
      let! m := (if j <? max_gs w then st (rq_end w) (scat + 16 * j) end_seg m else Ok m) in
      let! m := (if wq_sig (ctrl_seg q) then
          let sigsz := Z.min n (Z.shiftl 1 (wqe_shift w - 4) - 1) in
          set_sig_seg (rq_end w) qpn sig (Z.shiftl sigsz 4) (head w + rs_nreq s) m
        else Ok m) in
      let! ids := arr_set (wrid w) (rs_ind s) (rwr_id wr) in
      Ok (0, RecvSt (rs_nreq s + 1) ((rs_ind s + 1) .& u32 (wqe_cnt w - 1))
               (qp_set_rq q (wq_set_wrid (wq_set_buff w m) ids)))).

Fixpoint recv_loop (qpn : Z) (wrs : list ibv_recv_wr) (s : recv_st)
    : eff K (Z * list ibv_recv_wr * recv_st) :=
  match wrs with
  | [] => eff_ret (0, [], s)
  | wr :: rest =>
      let* (err, s) := recv_iter qpn wr s in
      if negb (err =? 0) then eff_ret (err, wr :: rest, s)
      else recv_loop qpn rest s
  end.

Definition qp_set_db (q : mlx5_qp) (d : list Z) : mlx5_qp :=
  Qp (sq q) (rq q) (wqe_head q) (post_send_one q) (sqend q) (scur_post q) (last_post q) (cflags q)
     (fm_cache q) (max_inline_data q) (ctrl_seg q) (qp_type q) (mpw_state q) (bf q) d
     (sq_enable q) (rq_enable q) (mlx5_hrd_qp_index q) (sqbuf q).

(** [lt_rtr]: the state of the queue pair is below RTR. *)
Definition mlx5_post_recv (qpn : Z) (lt_rtr : bool) (q : mlx5_qp) (wrs : list ibv_recv_wr)
    : eff K (Z * list ibv_recv_wr * mlx5_qp * list dev_event) :=
  let ind := head (rq q) .& u32 (wqe_cnt (rq q) - 1) in
  let* (err, bad, s) := recv_loop qpn wrs (RecvSt 0 ind q) in
  let q := rs_qp s in
  eff_lift (
    if negb (rs_nreq s =? 0) then
      let q := qp_set_rq q (wq_set_head (rq q) (u32 (head (rq q) + rs_nreq s))) in
      if negb (bool_decide (qp_type q = IBV_QPT_RAW_ETH) && lt_rtr) then
        let v := head (rq q) .& 0xffff in
        let! d := arr_set (db q) MLX5_RCV_DBR (htonl v) in
        Ok (err, bad, qp_set_db q d, [EvWmb; EvDbRec MLX5_RCV_DBR v])
      else Ok (err, bad, q, [EvWmb])
    else Ok (err, bad, q, [])).

End Recv.

(** ** Data delivered in a completion *)

(** The process's memory is a function from addresses to bytes. *)
Definition hwrite (host : Z → Z) (addr : Z) (bs : list Z) : Z → Z :=
  λ a, let k := u64 (a - addr) in
       if k <? Z.of_nat (length bs) then default 0 (bs !! Z.to_nat k) else host a.

Definition IBV_WC_SUCCESS : Z := 0.
Definition IBV_WC_LOC_LEN_ERR : Z := 1.
Definition IBV_WC_REM_INV_REQ_ERR : Z := 9.
Definition IBV_WC_GENERAL_ERR : Z := 21.

(** [copy_to_scat]: status, size that is left, memory. *)
Fixpoint scat_loop (qend : Z) (m : sqmem) (max : nat) (scat : Z) (buf : list Z) (size : Z)
    (host : Z → Z) : res (Z * Z * (Z → Z)) :=
  match max with
  | O => Ok (IBV_WC_LOC_LEN_ERR, size, host)
  | S max =>
      let! bc := ld qend scat 4 m in
      let! ad := ld qend (scat + 8) 8 m in
      let copy := Z.min size (be_word bc) in
      let host := hwrite host (be_word ad) (take (Z.to_nat copy) buf) in
      let size := size - copy in
      if size =? 0 then Ok (IBV_WC_SUCCESS, size, host)
      else scat_loop qend m max (scat + 16) (drop (Z.to_nat copy) buf) size host
  end.
Definition copy_to_scat (qend : Z) (m : sqmem) (scat : Z) (buf : list Z) (size : Z) (max : nat)
    (host : Z → Z) : res (Z * Z * (Z → Z)) :=
  if size =? 0 then Ok (IBV_WC_SUCCESS, size, host)
  else scat_loop qend m max scat buf size host.

Definition mlx5_copy_to_recv_wqe (q : mlx5_qp) (idx : Z) (buf : list Z) (size : Z) (host : Z → Z)
    : res (Z * (Z → Z)) :=
  let w := rq q in
  let max := Z.to_nat (Z.shiftl 1 (wqe_shift w - 4)) in
  let scat := get_recv_wqe w idx in
  let scat := if wq_sig (ctrl_seg q) then scat + 16 else scat in
  let! r := copy_to_scat (rq_end w) (buff w) scat buf size max host in
  Ok (r.1.1, r.2).

(** Completions of RDMA READ and atomics: the WQE may wrap in the ring. *)
Definition mlx5_copy_to_send_wqe (q : mlx5_qp) (idx : Z) (buf : list Z) (size : Z) (host : Z → Z)
    : res (Z * (Z → Z)) :=
  let idx := idx .& u32 (wqe_cnt (sq q) - 1) in
  let ctrl := mlx5_get_send_wqe idx in
  if bool_decide (qp_type q ≠ IBV_QPT_RC) then Ok (IBV_WC_GENERAL_ERR, host)
  else
    let! w0 := ld (sqend q) ctrl 4 (sqbuf q) in
    let op := be_word w0 .& 0xff in
    let go p :=
      let! w1 := ld (sqend q) (ctrl + 4) 4 (sqbuf q) in
      let scat := p in
      let max := (be_word w1 .& 0x3F) - Z.shiftr (scat - ctrl) 4 in
      if sqend q <? scat + 16 * max then
        let tmp := Z.shiftr (sqend q - scat) 4 in
        let! (st1, remaining, host) :=
          copy_to_scat (sqend q) (sqbuf q) scat buf size (Z.to_nat tmp) host in
        if st1 =? IBV_WC_SUCCESS then Ok (IBV_WC_SUCCESS, host)
        else
          let! r := copy_to_scat (sqend q) (sqbuf q) (mlx5_get_send_wqe 0)
                      (drop (Z.to_nat (size - remaining)) buf) remaining (Z.to_nat (max - tmp)) host in
          Ok (r.1.1, r.2)
      else
        let! r := copy_to_scat (sqend q) (sqbuf q) scat buf size (Z.to_nat max) host in
        Ok (r.1.1, r.2) in
    if op =? MLX5_OPCODE_RDMA_READ then go (ctrl + 16 + 16)
    else if (op =? MLX5_OPCODE_ATOMIC_CS) || (op =? MLX5_OPCODE_ATOMIC_FA) then go (ctrl + 16 + 16 + 16)
    else Ok (IBV_WC_REM_INV_REQ_ERR, host).
