(* ===== verification/Mlx5RecvProof.v ===== *)
(** * libmlx5: the receive queue is a queue

    [rq_inv w out]: receive queue [w] holds the requests [out], oldest first;
    the device reads their scatter lists from the slots, and completions
    return their identifiers in the order of posting. *)

From stdpp Require Import base gmap list numbers.
From Stdlib Require Import ZArith Lia.
From S2P Require Import Prelude Mlx5Base Mlx5Wqe Mlx5WqeProof Mlx5Encode Mlx5Send Mlx5SqProof Mlx5Recv.

(** ** The device reads a scatter list *)
Fixpoint hca_scatter (n : nat) (bs : list Z) : list hca_data :=
  match n with
  | O => []
  | S n =>
      let lkey := be_word (take 4 (drop 4 bs)) in
      if lkey =? MLX5_INVALID_LKEY then []
      else HPtr (be_word (take 4 bs)) lkey (be_word (take 8 (drop 8 bs))) :: hca_scatter n (drop 16 bs)
  end.

Lemma data_seg_fields n lkey addr rest :
  0 ≤ n < 2 ^ 32 → 0 ≤ lkey < 2 ^ 32 → 0 ≤ addr < 2 ^ 64 →
  let bs := data_seg_bytes n lkey addr ++ rest in
  be_word (take 4 bs) = n ∧ be_word (take 4 (drop 4 bs)) = lkey ∧
  be_word (take 8 (drop 8 bs)) = addr ∧ drop 16 bs = rest.
Proof.
  intros Hn Hl Ha bs.
  assert (Ebs : bs = be_bytes 4 n ++ be_bytes 4 lkey ++ be_bytes 8 addr ++ rest).
  { unfold bs, data_seg_bytes. by rewrite <-!(assoc_L (++)). }
  split; [rewrite Ebs; by apply be_word4|]. split.
  { rewrite Ebs, (drop_app_length' (be_bytes 4 n)) by by rewrite length_be_bytes. by apply be_word4. }
  split.
  { rewrite Ebs, (assoc_L (++)), (drop_app_length' (be_bytes 4 n ++ be_bytes 4 lkey))
      by by rewrite length_app, !length_be_bytes. by apply be_word8. }
  apply drop_app_length'. by rewrite length_data_seg_bytes.
Qed.

(** A scatter list that the driver wrote into [n] entries. *)
Definition recv_sge (sg : ibv_sge) : Prop := plain_sge sg ∧ sge_lkey sg ≠ MLX5_INVALID_LKEY.

Lemma hca_scatter_list n sgs : ∀ rest,
  Forall recv_sge sgs → (length (live_sges sgs) ≤ n)%nat →
  (length (live_sges sgs) = n ∨ ∃ r, rest = end_seg ++ r) →
  hca_scatter n (ptr_bytes sgs ++ rest) = map hca_ptr (live_sges sgs).
Proof.
  intros rest Hs Hn He. unfold ptr_bytes.
  assert (Hl : Forall recv_sge (live_sges sgs)).
  { unfold live_sges. apply Forall_forall. intros sg Hin. apply list_elem_of_In, list_elem_of_filter in Hin as [_ Hin].
    rewrite Forall_forall in Hs. apply Hs. by apply list_elem_of_In. }
  clear Hs. revert n Hn He. induction (live_sges sgs) as [|sg l IH]; intros n Hn He.
  - cbn. destruct n as [|n]; [done|]. destruct He as [?|[r ->]]; [done|].
    cbn [hca_scatter]. destruct (data_seg_fields 0 MLX5_INVALID_LKEY 0 r) as (_ & E & _); [done..|].
    unfold end_seg. by rewrite E.
  - destruct n as [|n]; [simpl in Hn; lia|]. cbn [map concat hca_scatter].
    pose proof (Forall_inv Hl) as [(? & ? & ? & _) Hne]. rewrite <-(assoc_L (++)).
    set (T := concat (map sge_bytes l) ++ rest).
    destruct (data_seg_fields (sge_length sg) (sge_lkey sg) (sge_addr sg) T)
      as (E1 & E2 & E3 & E4); [lia..|].
    unfold sge_bytes. rewrite E1, E2, E3, E4, (proj2 (Z.eqb_neq _ _) Hne). f_equal.
    apply IH; [by apply Forall_inv_tail in Hl|simpl in Hn; lia|].
    destruct He as [He|He]; [left; simpl in He; lia|by right].
Qed.

(** ** The entries of a request *)
Lemma recv_sges_st {K : Type} `{ImplicitLkey K} qend scat sgs : ∀ j m (k : K),
  Forall plain_sge sgs → 0 ≤ scat → 0 ≤ j →
  scat + 16 * (j + Z.of_nat (length (live_sges sgs))) ≤ qend →
  recv_sges qend scat sgs j m k =
  Ok ((0, j + Z.of_nat (length (live_sges sgs)), mwrite_n m (scat + 16 * j) (ptr_bytes sgs)), k).
Proof.
  unfold ptr_bytes. induction sgs as [|sg sgs IH]; intros j m k Hs Hsc Hj Hfit.
  - cbn. by rewrite Z.add_0_r.
  - pose proof (Forall_inv Hs) as Hsg. pose proof (Forall_inv_tail Hs) as Hsgs.
    rewrite live_sges_cons in *. cbn [recv_sges]. destruct (sge_length sg =? 0) eqn:E0; [by apply IH|].
    cbn [length map concat] in *. unfold set_data_ptr_seg. rewrite plain_sge_key by done.
    destruct Hsg as (Hadr & Hlen & _). rewrite Z.sub_0_r, Z.add_0_r, u32_small, u64_small by lia.
    fold (sge_bytes sg). unfold eff_bind at 1 2, eff_lift, st.
    assert (Hl16 : length (sge_bytes sg) = 16%nat) by (unfold sge_bytes; apply length_data_seg_bytes).
    rewrite Hl16, (proj2 (Z.leb_le 0 _)), (proj2 (Z.leb_le _ qend)) by lia. cbn [andb in_bounds res_bind fst snd].
    unfold eff_ret. cbn [res_bind fst snd negb Z.eqb]. rewrite IH by (done || lia).
    rewrite mwrite_n_app, Hl16. do 3 f_equal; [f_equal; lia|f_equal; lia].
Qed.

(** ** The queue *)
Definition rq_slot (w : mlx5_wq) (i : Z) : list Z :=
  mread_n (buff w) (get_recv_wqe w (i mod wqe_cnt w)) (Z.to_nat (2 ^ wqe_shift w)).

Record rq_ok (q : mlx5_qp) (k : Z) : Prop := RqOk
  { ro_k : 0 ≤ k ≤ 16;
    ro_cnt : wqe_cnt (rq q) = 2 ^ k;
    ro_post : max_post (rq q) = wqe_cnt (rq q);
    ro_shift : 4 ≤ wqe_shift (rq q) < 16;
    ro_gs : 0 ≤ 16 * max_gs (rq q) ≤ 2 ^ wqe_shift (rq q);
    ro_ids : Z.of_nat (length (wrid (rq q))) = wqe_cnt (rq q);
    ro_sig : wq_sig (ctrl_seg q) = false;
    ro_over : IBV_EXP_QP_CREATE_IGNORE_RQ_OVERFLOW (cflags q) = false;
    ro_type : qp_type q ≠ IBV_QPT_RAW_ETH;
    ro_db : length (db q) = 2%nat }.

Record rq_inv (w : mlx5_wq) (out : list ibv_recv_wr) : Prop := RqInv
  { ri_fit : Z.of_nat (length out) ≤ max_post w;
    ri_tail : 0 ≤ tail w < 2 ^ 32;
    ri_at : ∀ i wr, out !! i = Some wr →
      wrid w !! Z.to_nat ((tail w + Z.of_nat i) mod wqe_cnt w) = Some (rwr_id wr) ∧
      hca_scatter (Z.to_nat (max_gs w)) (rq_slot w (tail w + Z.of_nat i)) =
        map hca_ptr (live_sges (rwr_sges wr)) }.

Definition recv_fits (q : mlx5_qp) (wr : ibv_recv_wr) : Prop :=
  Forall recv_sge (rwr_sges wr) ∧ Z.of_nat (length (rwr_sges wr)) ≤ max_gs (rq q).

Lemma length_live_le sgs : (length (live_sges sgs) ≤ length sgs)%nat.
Proof. apply length_filter. Qed.

Section Rq.
Context {K : Type} `{ImplicitLkey K}.
Variables (qpn k : Z).

(** The state after one request at index [ind]. *)
Definition received (q : mlx5_qp) (m : sqmem) (ind id : Z) : mlx5_qp :=
  qp_set_rq q (wq_set_wrid (wq_set_buff (rq q) m) (<[Z.to_nat ind := id]> (wrid (rq q)))).

(** The bytes that a request puts at the front of its slot. *)
Definition recv_bytes (q : mlx5_qp) (wr : ibv_recv_wr) : list Z :=
  ptr_bytes (rwr_sges wr) ++
  (if Z.of_nat (length (live_sges (rwr_sges wr))) <? max_gs (rq q) then end_seg else []).

Lemma length_recv_bytes q wr :
  recv_fits q wr → Z.of_nat (length (recv_bytes q wr)) ≤ 16 * max_gs (rq q).
Proof using.
  intros [_ Hn]. unfold recv_bytes. rewrite length_app, length_ptr_bytes.
  pose proof (length_live_le (rwr_sges wr)). destruct (_ <? _) eqn:E.
  - apply Z.ltb_lt in E. change (length end_seg) with 16%nat. lia.
  - cbn. lia.
Qed.

Lemma rq_overflow q out0 new :
  rq_ok q k → rq_inv (rq q) (out0 ++ new) →
  head (rq q) = u32 (tail (rq q) + Z.of_nat (length out0)) →
  mlx5_wq_overflow (rq q) (Z.of_nat (length new)) =
  (max_post (rq q) <=? Z.of_nat (length (out0 ++ new))).
Proof using.
  intros Hok Hinv Hh. pose proof (ri_fit _ _ Hinv) as Hfit. pose proof (ri_tail _ _ Hinv).
  pose proof (ro_k _ _ Hok). assert (2 ^ k ≤ 2 ^ 16) by (apply Z.pow_le_mono_r; lia).
  assert (max_post (rq q) ≤ 2 ^ 16) by (rewrite (ro_post _ _ Hok), (ro_cnt _ _ Hok); lia).
  rewrite length_app in *. rewrite (wq_overflow_spec (rq q) (Z.of_nat (length out0))) by (done || lia).
  by rewrite Nat2Z.inj_add.
Qed.

(** Index of the request with number [n] behind the oldest. *)
Definition rq_ind (q : mlx5_qp) (n : Z) : Z := (tail (rq q) + n) mod wqe_cnt (rq q).

Lemma rq_ind_range q n : rq_ok q k → 0 ≤ rq_ind q n < wqe_cnt (rq q).
Proof using.
  intros Hok. pose proof (ro_k _ _ Hok). apply Z.mod_pos_bound. rewrite (ro_cnt _ _ Hok). lia.
Qed.

Lemma rq_ind_land q x :
  rq_ok q k → x .& u32 (wqe_cnt (rq q) - 1) = x mod wqe_cnt (rq q).
Proof using.
  intros Hok. pose proof (ro_k _ _ Hok). rewrite (ro_cnt _ _ Hok).
  assert (2 ^ k ≤ 2 ^ 16) by (apply Z.pow_le_mono_r; lia). assert (0 < 2 ^ k) by lia.
  rewrite u32_small by lia. apply u64_land_mask. lia.
Qed.

Lemma rq_ind_ne q i n :
  rq_ok q k → 0 ≤ i → i < n < wqe_cnt (rq q) → rq_ind q i ≠ rq_ind q n.
Proof using.
  intros Hok Hi Hn. unfold rq_ind. set (c := wqe_cnt (rq q)) in *. intros E.
  pose proof (Z.div_mod (tail (rq q) + i) c ltac:(lia)). pose proof (Z.div_mod (tail (rq q) + n) c ltac:(lia)).
  set (a := (tail (rq q) + i) / c) in *. set (d := (tail (rq q) + n) / c) in *. clearbody a d.
  assert (n - i = c * (d - a)) by lia. destruct (Z.le_gt_cases (d - a) 0); nia.
Qed.

(** A slot lies inside the memory, and slots do not overlap. *)
Lemma rq_slot_room q i :
  rq_ok q k → 0 ≤ i < wqe_cnt (rq q) →
  0 ≤ get_recv_wqe (rq q) i ∧ get_recv_wqe (rq q) i + 2 ^ wqe_shift (rq q) ≤ rq_end (rq q).
Proof using.
  intros Hok Hi. unfold get_recv_wqe, rq_end. pose proof (ro_shift _ _ Hok).
  rewrite !Z.shiftl_mul_pow2 by lia. assert (0 < 2 ^ wqe_shift (rq q)) by lia. nia.
Qed.

Lemma rq_slot_other q m' i j bs :
  rq_ok q k → 0 ≤ i < wqe_cnt (rq q) → 0 ≤ j < wqe_cnt (rq q) → i ≠ j →
  Z.of_nat (length bs) ≤ 2 ^ wqe_shift (rq q) → m' = mwrite_n (buff (rq q)) (get_recv_wqe (rq q) j) bs →
  mread_n m' (get_recv_wqe (rq q) i) (Z.to_nat (2 ^ wqe_shift (rq q))) =
  mread_n (buff (rq q)) (get_recv_wqe (rq q) i) (Z.to_nat (2 ^ wqe_shift (rq q))).
Proof using.
  intros Hok Hi Hj Hij Hl ->. pose proof (ro_shift _ _ Hok). apply mread_n_mwrite_out.
  unfold get_recv_wqe. rewrite !Z.shiftl_mul_pow2 by lia.
  assert (0 < 2 ^ wqe_shift (rq q)) by lia. rewrite Z2Nat.id by lia.
  destruct (Z.lt_ge_cases i j); [left|right]; nia.
Qed.

Lemma rq_slot_new q i wr :
  rq_ok q k → recv_fits q wr →
  hca_scatter (Z.to_nat (max_gs (rq q)))
    (mread_n (mwrite_n (buff (rq q)) (get_recv_wqe (rq q) i) (recv_bytes q wr))
       (get_recv_wqe (rq q) i) (Z.to_nat (2 ^ wqe_shift (rq q)))) =
  map hca_ptr (live_sges (rwr_sges wr)).
Proof using.
  intros Hok Hwr. pose proof (length_recv_bytes q wr Hwr) as Hl. pose proof (ro_gs _ _ Hok).
  replace (Z.to_nat (2 ^ wqe_shift (rq q))) with
    (length (recv_bytes q wr) + (Z.to_nat (2 ^ wqe_shift (rq q)) - length (recv_bytes q wr)))%nat by lia.
  rewrite mread_n_app, mread_n_mwrite_eq. unfold recv_bytes at 1. rewrite <-(assoc_L (++)).
  destruct Hwr as [Hs Hn]. pose proof (length_live_le (rwr_sges wr)).
  apply hca_scatter_list; [done|lia|]. destruct (_ <? _) eqn:E.
  - right. eexists. reflexivity.
  - apply Z.ltb_ge in E. left. lia.
Qed.

Lemma recv_iter_ok q out0 new wr (w : K) :
  rq_ok q k → rq_inv (rq q) (out0 ++ new) →
  head (rq q) = u32 (tail (rq q) + Z.of_nat (length out0)) →
  Z.of_nat (length (out0 ++ new)) < max_post (rq q) → recv_fits q wr →
  let i := rq_ind q (Z.of_nat (length (out0 ++ new))) in
  let q' := received q (mwrite_n (buff (rq q)) (get_recv_wqe (rq q) i) (recv_bytes q wr)) i (rwr_id wr) in
  recv_iter qpn wr (RecvSt (Z.of_nat (length new)) i q) w =
    Ok ((0, RecvSt (Z.of_nat (length (new ++ [wr])))
              (rq_ind q (Z.of_nat (length (out0 ++ new ++ [wr])))) q'), w) ∧
  rq_ok q' k ∧ rq_inv (rq q') (out0 ++ new ++ [wr]).
Proof using.
  intros Hok Hinv Hh Hroom Hwr i q'. pose proof (rq_ind_range q (Z.of_nat (length (out0 ++ new))) Hok) as Hi.
  fold i in Hi. pose proof (rq_slot_room q i Hok Hi) as [Hs0 Hs1]. pose proof (ro_gs _ _ Hok) as Hgs.
  pose proof (length_recv_bytes q wr Hwr) as Hlb. pose proof Hwr as [Hsg Hn].
  pose proof (length_live_le (rwr_sges wr)) as Hll. split; [|split].
  - unfold recv_iter. cbn [rs_qp rs_nreq rs_ind].
    rewrite (ro_over _ _ Hok), (rq_overflow q out0 new) by done.
    rewrite (proj2 (Z.leb_gt _ _)), (proj2 (Z.ltb_ge _ _)) by lia. cbn [negb andb].
    rewrite (ro_sig _ _ Hok). unfold eff_bind at 1.
    rewrite recv_sges_st; [|by eapply Forall_impl; [|exact Hsg]; intros ? []|lia|lia|lia].
    cbn [res_bind fst snd negb Z.eqb]. rewrite Z.add_0_l, Z.mul_0_r, Z.add_0_r.
    unfold eff_lift.
    assert (Em : (if Z.of_nat (length (live_sges (rwr_sges wr))) <? max_gs (rq q) then
        st (rq_end (rq q)) (get_recv_wqe (rq q) i + 16 * Z.of_nat (length (live_sges (rwr_sges wr))))
          end_seg (mwrite_n (buff (rq q)) (get_recv_wqe (rq q) i) (ptr_bytes (rwr_sges wr)))
      else Ok (mwrite_n (buff (rq q)) (get_recv_wqe (rq q) i) (ptr_bytes (rwr_sges wr)))) =
      Ok (mwrite_n (buff (rq q)) (get_recv_wqe (rq q) i) (recv_bytes q wr))).
    { unfold recv_bytes. destruct (_ <? _) eqn:E; [|by rewrite app_nil_r].
      apply Z.ltb_lt in E. unfold st. change (length end_seg) with 16%nat.
      rewrite (proj2 (Z.leb_le 0 _)), (proj2 (Z.leb_le _ _)) by lia. cbn [andb in_bounds res_bind].
      rewrite mwrite_n_app, length_ptr_bytes. do 2 f_equal. lia. }
    rewrite Em. cbn [res_bind].
    rewrite arr_set_Ok by (rewrite (ro_ids _ _ Hok); lia). cbn [res_bind].
    rewrite rq_ind_land by done. do 3 f_equal.
    f_equal; [rewrite length_app; cbn; lia|]. unfold i, rq_ind.
    rewrite Zplus_mod_idemp_l, (assoc_L (++)), (length_app (out0 ++ new)). f_equal. cbn. lia.
  - destruct Hok. split; try done. cbn. by rewrite length_insert.
  - split; cbn [received q' qp_set_rq rq wq_set_wrid wq_set_buff max_post tail wrid wqe_cnt max_gs].
    + rewrite (assoc_L (++)), length_app. cbn. lia.
    + apply Hinv.
    + intros j wr' Hj. unfold rq_slot. cbn [buff get_recv_wqe wqe_shift wqe_cnt].
      fold (rq_ind q (Z.of_nat j)). rewrite (assoc_L (++)) in Hj.
      destruct (decide (j = length (out0 ++ new))) as [->|Hne].
      * rewrite lookup_app_r, Nat.sub_diag in Hj by lia. injection Hj as <-. fold i.
        rewrite list_lookup_insert_eq by (pose proof (ro_ids _ _ Hok); lia).
        split; [done|]. by apply rq_slot_new.
      * pose proof (lookup_lt_Some _ _ _ Hj) as Hlt. rewrite length_app in Hlt. cbn in Hlt.
        rewrite lookup_app_l in Hj by lia. destruct (ri_at _ _ Hinv j wr' Hj) as [H1 H2].
        assert (Hd : rq_ind q (Z.of_nat j) ≠ i).
        { apply rq_ind_ne; [done|lia|]. rewrite <-(ro_post _ _ Hok). lia. }
        pose proof (rq_ind_range q (Z.of_nat j) Hok).
        rewrite list_lookup_insert_ne by lia. split; [done|].
        etrans; [|exact H2]. unfold rq_slot. f_equal.
        eapply (rq_slot_other q _ _ i); [done|done|done|done| |reflexivity]. lia.
Qed.

Lemma recv_iter_full q out0 new wr i (w : K) :
  rq_ok q k → rq_inv (rq q) (out0 ++ new) →
  head (rq q) = u32 (tail (rq q) + Z.of_nat (length out0)) →
  Z.of_nat (length (out0 ++ new)) = max_post (rq q) →
  let s := RecvSt (Z.of_nat (length new)) i q in recv_iter qpn wr s w = Ok ((ENOMEM, s), w).
Proof using.
  intros Hok Hinv Hh Hfull s. unfold recv_iter. cbn [rs_qp rs_nreq s].
  rewrite (ro_over _ _ Hok), (rq_overflow q out0 new), (proj2 (Z.leb_le _ _)) by (done || lia). done.
Qed.

(** The queue after [nw] more requests, before the doorbell. *)
Definition filled (q : mlx5_qp) (m : sqmem) (ids : list Z) : mlx5_qp :=
  qp_set_rq q (wq_set_wrid (wq_set_buff (rq q) m) ids).

Lemma recv_loop_spec out0 wrs : ∀ q new (w : K),
  rq_ok q k → rq_inv (rq q) (out0 ++ new) →
  head (rq q) = u32 (tail (rq q) + Z.of_nat (length out0)) →
  Forall (recv_fits q) wrs →
  let n := Nat.min (length wrs) (Z.to_nat (max_post (rq q) - Z.of_nat (length (out0 ++ new)))) in
  ∃ m ids ind, recv_loop qpn wrs
      (RecvSt (Z.of_nat (length new)) (rq_ind q (Z.of_nat (length (out0 ++ new)))) q) w =
    Ok ((if bool_decide (n < length wrs)%nat then ENOMEM else 0, drop n wrs,
         RecvSt (Z.of_nat (length (new ++ take n wrs))) ind (filled q m ids)), w) ∧
    rq_ok (filled q m ids) k ∧ rq_inv (rq (filled q m ids)) (out0 ++ new ++ take n wrs).
Proof using.
  induction wrs as [|wr wrs IH]; intros q new w Hok Hinv Hh Hwrs n.
  - exists (buff (rq q)), (wrid (rq q)), (rq_ind q (Z.of_nat (length (out0 ++ new)))).
    assert (E : filled q (buff (rq q)) (wrid (rq q)) = q) by (destruct q as [? []]; done).
    change n with 0%nat. cbn [take drop length]. rewrite E, app_nil_r, bool_decide_eq_false_2 by lia. done.
  - pose proof (ri_fit _ _ Hinv) as Hfit. cbn [recv_loop]. unfold eff_bind at 1.
    destruct (decide (Z.of_nat (length (out0 ++ new)) = max_post (rq q))) as [Hfull|Hfull].
    + rewrite (recv_iter_full q out0 new) by done. cbn [res_bind fst snd].
      replace n with 0%nat by (unfold n; lia). cbn [take drop length].
      assert (E : filled q (buff (rq q)) (wrid (rq q)) = q) by (destruct q as [? []]; done).
      exists (buff (rq q)), (wrid (rq q)), (rq_ind q (Z.of_nat (length (out0 ++ new)))).
      rewrite E, app_nil_r, bool_decide_eq_true_2 by lia. done.
    + pose proof (recv_iter_ok q out0 new wr w Hok Hinv Hh ltac:(lia) (Forall_inv Hwrs)) as H'.
      cbv zeta in H'. destruct H' as (E & Hok' & Hinv'). rewrite E. clear E. cbn [res_bind fst snd negb Z.eqb].
      set (q1 := received _ _ _ _) in *.
      destruct (IH q1 (new ++ [wr]) w) as (m & ids & ind & E & Hok2 & Hinv2); [done..| |].
      { apply Forall_inv_tail in Hwrs. eapply Forall_impl; [|exact Hwrs]. done. }
      set (n1 := Nat.min (length wrs) (Z.to_nat (max_post (rq q1) - _))) in *. exists m, ids, ind.
      assert (En : n = S n1).
      { unfold n, n1. change (max_post (rq q1)) with (max_post (rq q)).
        rewrite (assoc_L (++) out0 new [wr]), (length_app (out0 ++ new)). cbn [length]. lia. }
      rewrite En. cbn [take drop length]. change (filled q m ids) with (filled q1 m ids).
      change (rq_ind q) with (rq_ind q1). rewrite E.
      rewrite <-(assoc_L (++)) in E, Hinv2. rewrite <-(assoc_L (++)). cbn [app] in *.
      split; [|done]. do 4 f_equal. by rewrite !bool_decide_decide; repeat case_decide; try lia.
Qed.

(** [mlx5_post_recv] on a queue that holds [out]. *)
Lemma post_recv_spec q out wrs (w : K) :
  rq_ok q k → rq_inv (rq q) out → head (rq q) = u32 (tail (rq q) + Z.of_nat (length out)) →
  Forall (recv_fits q) wrs →
  let n := Nat.min (length wrs) (Z.to_nat (max_post (rq q) - Z.of_nat (length out))) in
  ∃ q' evs, mlx5_post_recv qpn false q wrs w =
    Ok ((if bool_decide (n < length wrs)%nat then ENOMEM else 0, drop n wrs, q', evs), w) ∧
    rq_ok q' k ∧ rq_inv (rq q') (out ++ take n wrs) ∧
    head (rq q') = u32 (tail (rq q') + Z.of_nat (length (out ++ take n wrs))) ∧
    tail (rq q') = tail (rq q) ∧
    (n ≠ 0%nat → db q' !! Z.to_nat MLX5_RCV_DBR = Some (htonl (head (rq q') .& 0xffff)) ∧
       evs = [EvWmb; EvDbRec MLX5_RCV_DBR (head (rq q') .& 0xffff)]) ∧
    (n = 0%nat → db q' = db q ∧ evs = []).
Proof using.
  intros Hok Hinv Hh Hwrs n.
  destruct (recv_loop_spec out wrs q [] w) as (m & ids & ind & E & Hok' & Hinv'); rewrite ?app_nil_r; try done.
  rewrite app_nil_r in E, Hinv'. cbn [app] in *. fold n in E, Hinv'.
  assert (Hnl : (n ≤ length wrs)%nat) by (unfold n; lia). clearbody n.
  unfold mlx5_post_recv. rewrite rq_ind_land by done.
  assert (Ei : head (rq q) mod wqe_cnt (rq q) = rq_ind q (Z.of_nat (length out))).
  { unfold rq_ind. rewrite Hh. pose proof (ro_k _ _ Hok). unfold u32. apply Z.mod_mod_divide.
    rewrite (ro_cnt _ _ Hok). exists (2 ^ (32 - k)). rewrite <-Z.pow_add_r by lia. f_equal. lia. }
  rewrite Ei. unfold eff_bind. change (Z.of_nat (length [])) with 0 in E. rewrite E. cbn [res_bind fst snd rs_nreq rs_qp].
  unfold eff_lift. destruct n as [|n'] eqn:En.
  - change (take 0 wrs) with (@nil ibv_recv_wr) in *. rewrite app_nil_r in *.
    cbn [length Z.of_nat Z.eqb negb res_bind].
    exists (filled q m ids), []. split; [done|]. split; [done|]. split; [done|].
    split; [exact Hh|]. done.
  - rewrite (proj2 (Z.eqb_neq _ _)) by (rewrite length_take; lia). cbn [negb qp_type qp_set_rq].
    change (qp_type (filled q m ids)) with (qp_type q).
    rewrite andb_false_r. cbn [negb].
    rewrite arr_set_Ok by (change (db _) with (db q); rewrite (ro_db _ _ Hok); done). cbn [res_bind].
    eexists _, _. split; [reflexivity|]. cbn [rq qp_set_db qp_set_rq wq_set_head head tail db].
    split; [destruct Hok'; split; try done; cbn; by rewrite length_insert|].
    split; [destruct Hinv'; by split|].
    split; [|split; [done|split; [intros _|done]]].
    + change (head (rq (filled q m ids))) with (head (rq q)). rewrite Hh, length_app, Nat2Z.inj_add.
      unfold u32. rewrite Zplus_mod_idemp_l. f_equal. cbn. lia.
    + split; [|done]. apply list_lookup_insert_eq. change (db (filled q m ids)) with (db q).
      rewrite (ro_db _ _ Hok). change (Z.to_nat MLX5_RCV_DBR) with 0%nat. lia.
Qed.
End Rq.

(** ** Data delivered in a completion *)

(** [data] laid out over a list of buffers, in order. *)
Fixpoint scatter (ps : list hca_data) (data : list Z) (host : Z → Z) : Z → Z :=
  match data, ps with
  | [], _ => host
  | _, HPtr len _ addr :: ps =>
      scatter ps (drop (Z.to_nat len) data) (hwrite host addr (take (Z.to_nat len) data))
  | _, _ => host
  end.

Definition ptr_len (p : hca_data) : Z := match p with HPtr len _ _ => len | HInl bs => Z.of_nat (length bs) end.
Definition room (ps : list hca_data) : Z := foldr (λ p n, ptr_len p + n) 0 ps.

Lemma take_mread_n m a n k : (k ≤ n)%nat → take k (mread_n m a n) = mread_n m a k.
Proof.
  intros H. replace n with (k + (n - k))%nat by lia. rewrite mread_n_app. apply take_app_length'.
  by rewrite length_mread_n.
Qed.
Lemma drop_mread_n m a n k : (k ≤ n)%nat → drop k (mread_n m a n) = mread_n m (a + Z.of_nat k) (n - k).
Proof.
  intros H. replace n with (k + (n - k))%nat at 1 by lia. rewrite mread_n_app. apply drop_app_length'.
  by rewrite length_mread_n.
Qed.

Lemma scat_loop_spec qend m n : ∀ N max scat data host,
  let ps := hca_scatter n (mread_n m scat N) in
  (16 * n ≤ N)%nat → (n ≤ max)%nat → Forall (λ p, 0 < ptr_len p) ps →
  0 < Z.of_nat (length data) ≤ room ps → 0 ≤ scat → scat + Z.of_nat N ≤ qend →
  scat_loop qend m max scat data (Z.of_nat (length data)) host =
  Ok (IBV_WC_SUCCESS, 0, scatter ps data host).
Proof.
  induction n as [|n IH]; intros N max scat data host ps HN Hmax Hps Hd Hs He; [cbn in *; lia|].
  destruct max as [|max]; [lia|]. unfold ps in *. cbn [hca_scatter scat_loop] in *. clear ps.
  rewrite !drop_mread_n, !take_mread_n in * by lia.
  destruct (_ =? MLX5_INVALID_LKEY); [cbn in *; lia|].
  unfold ld. rewrite !(proj2 (Z.leb_le 0 _)), !(proj2 (Z.leb_le _ qend)) by lia.
  cbn [andb in_bounds res_bind]. change (scat + Z.of_nat 8) with (scat + 8) in *.
  change (scat + Z.of_nat 16) with (scat + 16) in *.
  set (len := be_word (mread_n m scat 4)) in *. set (addr := be_word (mread_n m (scat + 8) 8)) in *.
  set (key := be_word (mread_n m (scat + Z.of_nat 4) 4)) in *.
  pose proof (Forall_inv Hps) as Hlen. cbn [ptr_len] in Hlen. apply Forall_inv_tail in Hps.
  cbn [room foldr ptr_len] in Hd. fold (room (hca_scatter n (mread_n m (scat + 16) (N - 16)))) in Hd.
  assert (Esc : ∀ ps, scatter (HPtr len key addr :: ps) data host =
    scatter ps (drop (Z.to_nat len) data) (hwrite host addr (take (Z.to_nat len) data))).
  { destruct data; [cbn in Hd; lia|done]. }
  rewrite Esc. destruct (Z.le_gt_cases (Z.of_nat (length data)) len) as [Hle|Hgt].
  - rewrite Z.min_l, Z.sub_diag, Nat2Z.id, !(take_ge data) by lia. cbn [Z.eqb].
    rewrite (drop_ge data (Z.to_nat len)) by lia. by destruct (hca_scatter n _).
  - rewrite Z.min_r, (proj2 (Z.eqb_neq _ _)) by lia.
    replace (Z.of_nat (length data) - len) with (Z.of_nat (length (drop (Z.to_nat len) data)))
      by (rewrite length_drop; lia).
    apply IH; rewrite ?length_drop; try lia; done.
Qed.

Lemma room_live sgs :
  Forall plain_sge sgs → room (map hca_ptr (live_sges sgs)) = foldr (λ sg n, sge_length sg + n) 0 sgs.
Proof.
  intros H. induction sgs as [|sg sgs IH]; [done|]. rewrite live_sges_cons. cbn [foldr].
  rewrite <-IH by by apply Forall_inv_tail in H. destruct (sge_length sg =? 0) eqn:E; [|done].
  apply Z.eqb_eq in E. rewrite E. done.
Qed.

(** The data of a completion goes to the buffers of the oldest request. *)
Lemma copy_to_recv_wqe_spec q k wr out data host :
  rq_ok q k → rq_inv (rq q) (wr :: out) → Forall plain_sge (rwr_sges wr) →
  Z.of_nat (length data) ≤ foldr (λ sg n, sge_length sg + n) 0 (rwr_sges wr) →
  mlx5_copy_to_recv_wqe q (tail (rq q) mod wqe_cnt (rq q)) data (Z.of_nat (length data)) host =
  Ok (IBV_WC_SUCCESS, scatter (map hca_ptr (live_sges (rwr_sges wr))) data host).
Proof.
  intros Hok Hinv Hsg Hd. unfold mlx5_copy_to_recv_wqe, copy_to_scat. rewrite (ro_sig _ _ Hok).
  destruct (_ =? 0) eqn:E0; [apply Z.eqb_eq in E0; destruct data; [by destruct (map _ _)|cbn in E0; lia]|]. apply Z.eqb_neq in E0.
  destruct (ri_at _ _ Hinv 0 wr eq_refl) as [_ Hat]. rewrite Z.add_0_r in Hat. unfold rq_slot in Hat.
  pose proof (ro_shift _ _ Hok). pose proof (ro_gs _ _ Hok) as Hgs.
  assert (Hp : 2 ^ wqe_shift (rq q) = 16 * 2 ^ (wqe_shift (rq q) - 4)).
  { change 16 with (2 ^ 4). rewrite <-Z.pow_add_r by lia. f_equal. lia. }
  pose proof (rq_ind_range k q 0 Hok) as Hi. unfold rq_ind in Hi. rewrite Z.add_0_r in Hi.
  pose proof (rq_slot_room k q _ Hok Hi) as [Hr0 Hr1].
  rewrite (scat_loop_spec _ _ (Z.to_nat (max_gs (rq q))) (Z.to_nat (2 ^ wqe_shift (rq q)))); rewrite ?Hat.
  - done.
  - lia.
  - rewrite Z.shiftl_mul_pow2 by lia. lia.
  - apply Forall_forall. intros p Hp'. apply list_elem_of_In, list_elem_of_fmap in Hp' as (sg & -> & Hin).
    unfold live_sges in Hin. apply list_elem_of_filter in Hin as [Hnz Hin].
    rewrite Forall_forall in Hsg. apply list_elem_of_In, Hsg in Hin as (_ & Hl & _). cbn. lia.
  - rewrite room_live by done. lia.
  - lia.
  - lia.
Qed.
