(* ===== verification/Mlx5Size.v ===== *)
(** * libmlx5: the sizes of work queues
    (src/drivers/libmlx5-1.0.2mlnx1/src/verbs.c)

    [create_qp] computes from the capabilities that the caller asks for how
    large a work queue entry is, how many basic blocks the ring has and how
    many requests it accepts. *)

From stdpp Require Import base gmap list numbers.
From Stdlib Require Import ZArith Lia.
From S2P Require Import Prelude Mlx5Base Mlx5Wqe Mlx5Send.

(** Limits that the device reports. *)
Record mlx5_limits : Type := Limits
  { max_sq_desc_sz : Z;
    max_rq_desc_sz : Z;
    max_send_wqebb : Z;
    ctx_max_recv_wr : Z;
    max_desc_sz_sq_dc : Z }.

(** Fields of [struct ibv_exp_qp_init_attr]; the optional ones are [Some]
    when their bit of [comp_mask] is set. *)
Record qp_init_attr : Type := InitAttr
  { at_type : ibv_qp_type;
    max_send_wr : Z;
    max_recv_wr : Z;
    max_send_sge : Z;
    max_recv_sge : Z;
    cap_max_inline_data : Z;
    at_srq : bool;
    max_atomic_arg : option Z;
    max_inl_send_klms : option Z }.

(** What the computation reads and writes of [struct mlx5_qp]. *)
Record qp_cfg : Type := QpCfg
  { g_sq : mlx5_wq;
    g_rq : mlx5_wq;
    g_max_inline_data : Z;
    umr_en : bool;
    enable_atomics : bool;
    g_wq_sig : bool;
    g_max_atomic_arg : Z;
    g_max_inl_send_klms : Z;
    sq_offset : Z;
    rq_offset : Z }.

Definition wq_set_sizes (w : mlx5_wq) (cnt shift gs post : Z) : mlx5_wq :=
  Wq (wrid w) cnt (head w) (tail w) post gs shift (buff w).
Definition cfg_set_sq (g : qp_cfg) (w : mlx5_wq) : qp_cfg :=
  QpCfg w (g_rq g) (g_max_inline_data g) (umr_en g) (enable_atomics g) (g_wq_sig g)
    (g_max_atomic_arg g) (g_max_inl_send_klms g) (sq_offset g) (rq_offset g).
Definition cfg_set_rq (g : qp_cfg) (w : mlx5_wq) : qp_cfg :=
  QpCfg (g_sq g) w (g_max_inline_data g) (umr_en g) (enable_atomics g) (g_wq_sig g)
    (g_max_atomic_arg g) (g_max_inl_send_klms g) (sq_offset g) (rq_offset g).
Definition cfg_set_inline (g : qp_cfg) (n : Z) : qp_cfg :=
  QpCfg (g_sq g) (g_rq g) n (umr_en g) (enable_atomics g) (g_wq_sig g)
    (g_max_atomic_arg g) (g_max_inl_send_klms g) (sq_offset g) (rq_offset g).
Definition cfg_set_atomic (g : qp_cfg) (n : Z) : qp_cfg :=
  QpCfg (g_sq g) (g_rq g) (g_max_inline_data g) (umr_en g) (enable_atomics g) (g_wq_sig g)
    n (g_max_inl_send_klms g) (sq_offset g) (rq_offset g).
Definition cfg_set_klms (g : qp_cfg) (n : Z) : qp_cfg :=
  QpCfg (g_sq g) (g_rq g) (g_max_inline_data g) (umr_en g) (enable_atomics g) (g_wq_sig g)
    (g_max_atomic_arg g) n (sq_offset g) (rq_offset g).
Definition cfg_set_offsets (g : qp_cfg) (so ro : Z) : qp_cfg :=
  QpCfg (g_sq g) (g_rq g) (g_max_inline_data g) (umr_en g) (enable_atomics g) (g_wq_sig g)
    (g_max_atomic_arg g) (g_max_inl_send_klms g) so ro.

(** Sizes of the segments of a work queue entry. *)
Definition SZ_CTRL : Z := 16.
Definition SZ_UMR_CTRL : Z := 48.
Definition SZ_MKEY : Z := 64.
Definition SZ_REPEAT_BLOCK : Z := 16.
Definition SZ_RADDR : Z := 16.
Definition SZ_ATOMIC : Z := 16.
Definition SZ_DATAGRAM : Z := 48.
Definition SZ_XRC : Z := 16.
Definition SZ_ETH : Z := 32.
Definition SZ_DATA : Z := 16.
Definition SZ_INL_DATA : Z := 4.
Definition SZ_RWQE_SIG : Z := 16.

(** Bytes in front of the data, and the space for inline atomic arguments
    when the queue pair may do atomics. *)
Definition sq_overhead (attr : qp_init_attr) (g : qp_cfg) : Z * option Z :=
  let umr := SZ_CTRL + SZ_UMR_CTRL + SZ_MKEY + SZ_REPEAT_BLOCK in
  let atom := match max_atomic_arg attr with
              | Some a => if 4 <? a then s32 (u32 (4 * a)) else 0
              | None => 0
              end in
  let inl_atom := if enable_atomics g then Some (s32 (Z.max SZ_ATOMIC (u64 atom))) else None in
  let done size1 size2 ia := (if umr_en g then Z.max size1 size2 else size2, ia) in
  match at_type attr with
  | IBV_QPT_RC => done umr (SZ_CTRL + SZ_RADDR) inl_atom
  | IBV_QPT_UC => done 0 (SZ_CTRL + SZ_RADDR) None
  | IBV_QPT_UD => done umr (SZ_CTRL + SZ_DATAGRAM) None
  | IBV_QPT_XRC | IBV_QPT_XRC_SEND | IBV_QPT_XRC_RECV =>
      done 0 (SZ_CTRL + SZ_XRC + SZ_RADDR) inl_atom
  | IBV_EXP_QPT_DC_INI => done umr (SZ_CTRL + SZ_DATAGRAM + SZ_RADDR) inl_atom
  | IBV_QPT_RAW_ETH => done 0 (SZ_CTRL + SZ_ETH) None
  | IBV_QPT_OTHER => (- EINVAL, None)
  end.

Definition mlx5_max4 (t1 t2 t3 t4 : Z) : Z :=
  let t1 := if t1 <? t2 then t2 else t1 in
  let t1 := if t1 <? t3 then t3 else t1 in
  if t1 <? t4 then t4 else t1.

(** Sizes are computed in [size_t] and stored in an [int]. *)
Definition mlx5_calc_send_wqe (ctx : mlx5_limits) (attr : qp_init_attr) (g : qp_cfg) : Z * qp_cfg :=
  let '(overhead, ia) := sq_overhead attr g in
  let inl_atom := default 0 ia in
  if overhead <? 0 then (overhead, g)
  else
    let g := match max_atomic_arg attr with Some a => cfg_set_atomic g a | None => g end in
    let inl_umr := match max_inl_send_klms attr with
                   | Some n => s32 (u32 (n * 16))
                   | None => 0
                   end in
    let inl_size := if cap_max_inline_data attr =? 0 then 0
                    else s32 (align (u64 (SZ_INL_DATA + cap_max_inline_data attr)) 16) in
    let max_gather := s32 (u64 (max_sq_desc_sz ctx - overhead) / SZ_DATA) in
    if u32 max_gather <? max_send_sge attr then (- EINVAL, g)
    else
      let t1 := if inl_atom =? 0 then 0 else s32 (overhead + SZ_DATA + inl_atom) in
      let t2 := s32 (overhead + max_send_sge attr * SZ_DATA) in
      let t3 := s32 (overhead + inl_umr) in
      let t4 := s32 (overhead + inl_size) in
      let tot_size := mlx5_max4 t1 t2 t3 t4 in
      if max_sq_desc_sz ctx <? tot_size then (- EINVAL, g)
      else (s32 (align (u64 tot_size) MLX5_SEND_WQE_BB), g).

Definition mlx5_calc_rcv_wqe (ctx : mlx5_limits) (attr : qp_init_attr) (g : qp_cfg) : res Z :=
  if at_srq attr then Ok 0
  else
    let num_scatter := s32 (Z.max (max_recv_sge attr) 1) in
    let size := s32 (SZ_DATA * num_scatter) in
    let size := if g_wq_sig g then s32 (size + SZ_RWQE_SIG) else size in
    if (size <? 0) || (max_rq_desc_sz ctx <? size) then Ok (- EINVAL)
    else mlx5_round_up_power_of_two size.

Definition get_send_sge (attr : qp_init_attr) (wqe_size : Z) (g : qp_cfg) : Z :=
  let overhead := fst (sq_overhead attr g) in
  let max_sge :=
    match at_type attr with
    | IBV_QPT_RC => s32 (u64 (Z.min wqe_size 512 - SZ_CTRL - SZ_RADDR) / SZ_DATA)
    | IBV_EXP_QPT_DC_INI => s32 (u64 (Z.min wqe_size 512 - SZ_CTRL - SZ_DATAGRAM - SZ_RADDR) / SZ_DATA)
    | IBV_QPT_XRC => s32 (u64 (Z.min wqe_size 512 - SZ_CTRL - SZ_XRC - SZ_RADDR) / SZ_DATA)
    | _ => s32 (u64 (wqe_size - overhead) / SZ_DATA)
    end in
  s32 (Z.min (u64 max_sge) (u64 (wqe_size - u64 overhead / SZ_DATA))).

(** The result is the size of the ring or a negative error; the caps that the
    caller reads back are written to the attributes. *)
Definition attr_set_inline (a : qp_init_attr) (n : Z) : qp_init_attr :=
  InitAttr (at_type a) (max_send_wr a) (max_recv_wr a) (max_send_sge a) (max_recv_sge a) n
    (at_srq a) (max_atomic_arg a) (max_inl_send_klms a).
Definition attr_set_sge (a : qp_init_attr) (n : Z) : qp_init_attr :=
  InitAttr (at_type a) (max_send_wr a) (max_recv_wr a) n (max_recv_sge a) (cap_max_inline_data a)
    (at_srq a) (max_atomic_arg a) (max_inl_send_klms a).
Definition attr_set_klms (a : qp_init_attr) (n : Z) : qp_init_attr :=
  InitAttr (at_type a) (max_send_wr a) (max_recv_wr a) (max_send_sge a) (max_recv_sge a)
    (cap_max_inline_data a) (at_srq a) (max_atomic_arg a)
    (match max_inl_send_klms a with Some _ => Some n | None => None end).

Definition mlx5_calc_sq_size (ctx : mlx5_limits) (attr : qp_init_attr) (g : qp_cfg)
    : res (Z * qp_init_attr * qp_cfg) :=
  if max_send_wr attr =? 0 then Ok (0, attr, g)
  else
    let '(wqe_size, g) := mlx5_calc_send_wqe ctx attr g in
    if wqe_size <? 0 then Ok (wqe_size, attr, g)
    else if bool_decide (at_type attr = IBV_EXP_QPT_DC_INI) && (max_desc_sz_sq_dc ctx <? wqe_size)
    then Ok (- EINVAL, attr, g)
    else if max_sq_desc_sz ctx <? wqe_size then Ok (- EINVAL, attr, g)
    else
      let g := cfg_set_inline g (u32 (wqe_size - fst (sq_overhead attr g) - SZ_INL_DATA)) in
      let attr := attr_set_inline attr (g_max_inline_data g) in
      if u32 (Z.quot 0x7fffffff (max_sq_desc_sz ctx)) <? max_send_wr attr then Ok (- ENOMEM, attr, g)
      else
        let! wq_size := mlx5_round_up_power_of_two (u32 (max_send_wr attr * wqe_size)) in
        let cnt := u32 (Z.quot wq_size MLX5_SEND_WQE_BB) in
        let w := g_sq g in
        let g := cfg_set_sq g (wq_set_sizes w cnt (wqe_shift w) (max_gs w) (max_post w)) in
        if u32 (max_send_wqebb ctx) <? cnt then Ok (- ENOMEM, attr, g)
        else
          let! shift := mlx5_ilog2 MLX5_SEND_WQE_BB in
          let gs := get_send_sge attr wqe_size g in
          let g := cfg_set_sq g (wq_set_sizes w cnt shift gs (max_post w)) in
          if u32 gs <? max_send_sge attr then Ok (- ENOMEM, attr, g)
          else
            let attr := attr_set_sge attr (u32 gs) in
            let klms := if bool_decide (at_type attr = IBV_QPT_RC) ||
                           bool_decide (at_type attr = IBV_EXP_QPT_DC_INI)
                        then default 0 (max_inl_send_klms attr) else 0 in
            let '(attr, g) := if umr_en g then (attr_set_klms attr klms, cfg_set_klms g klms)
                              else (attr, g) in
            Ok (wq_size, attr, cfg_set_sq g (wq_set_sizes w cnt shift gs (u32 (Z.quot wq_size wqe_size)))).

Definition qpt_has_rq (qpt : ibv_qp_type) : bool :=
  match qpt with
  | IBV_QPT_RC | IBV_QPT_UC | IBV_QPT_UD | IBV_QPT_RAW_ETH => true
  | _ => false
  end.

(** Multiplication of two [int]. *)
Definition smul (a b : Z) : res Z :=
  if (- 2 ^ 31 <=? a * b) && (a * b <? 2 ^ 31) then Ok (a * b) else Fault IntOverflow.

(** [1 << t] on [int]. *)
Definition shl1 (t : Z) : res Z :=
  if (0 <=? t) && (t <? 31) then Ok (2 ^ t) else Fault ShiftUB.

Definition mlx5_calc_rq_size (ctx : mlx5_limits) (attr : qp_init_attr) (g : qp_cfg)
    : res (Z * qp_cfg) :=
  if (max_recv_wr attr =? 0) || negb (qpt_has_rq (at_type attr)) then Ok (0, g)
  else if u32 (ctx_max_recv_wr ctx) <? max_recv_wr attr then Ok (- EINVAL, g)
  else
    let! wqe_size := mlx5_calc_rcv_wqe ctx attr g in
    if (wqe_size <? 0) || (max_rq_desc_sz ctx <? wqe_size) then Ok (- EINVAL, g)
    else
      let! n := mlx5_round_up_power_of_two (max_recv_wr attr) in
      let! wq_size := smul n wqe_size in
      let w := g_rq g in
      if negb (wqe_size =? 0) then
        let wq_size := Z.max wq_size MLX5_SEND_WQE_BB in
        let! shift := mlx5_ilog2 wqe_size in
        let! lg := mlx5_ilog2 (Z.quot wq_size wqe_size) in
        let! post := shl1 lg in
        let scat_spc := s32 (wqe_size - (if g_wq_sig g then SZ_RWQE_SIG else 0)) in
        let gs := s32 (u64 scat_spc / SZ_DATA) in
        Ok (wq_size, cfg_set_rq g (wq_set_sizes w (Z.quot wq_size wqe_size) shift gs post))
      else Ok (wq_size, cfg_set_rq g (wq_set_sizes w 0 0 0 0)).

Definition mlx5_calc_wq_size (ctx : mlx5_limits) (attr : qp_init_attr) (g : qp_cfg)
    : res (Z * qp_init_attr * qp_cfg) :=
  let! (ret, attr, g) := mlx5_calc_sq_size ctx attr g in
  if ret <? 0 then Ok (ret, attr, g)
  else
    let result := ret in
    let! (ret, g) := mlx5_calc_rq_size ctx attr g in
    if ret <? 0 then Ok (ret, attr, g)
    else Ok (s32 (result + ret), attr, cfg_set_offsets g ret 0).
