(* ===== verification/Mlx5SizeProof.v ===== *)
(** * libmlx5: the queues are large enough

    A send queue that [mlx5_calc_sq_size] accepts holds as many requests as
    the caller asked for, whatever their size within the limits that the
    caller reads back; a receive queue has the shape that [mlx5_post_recv]
    relies on. *)

From stdpp Require Import base gmap list numbers.
From Stdlib Require Import ZArith Lia.
From S2P Require Import Prelude Mlx5Base Mlx5Wqe Mlx5WqeProof Mlx5Encode Mlx5Send Mlx5SqProof Mlx5Recv Mlx5RecvProof Mlx5Size.

Lemma round_up_overflow n : 2 ^ 30 < n < 2 ^ 31 → mlx5_round_up_power_of_two n = Ok (- ENOMEM).
Proof.
  intros Hn. unfold mlx5_round_up_power_of_two.
  assert (El : Z.log2_up n = 31) by (apply Z.log2_up_unique; lia).
  pose proof (round_up_loop_spec 65 0 n) as E. change (2 ^ 0) with 1 in E.
  rewrite E by lia. rewrite El. reflexivity.
Qed.

Lemma s32_small z : - 2 ^ 31 ≤ z < 2 ^ 31 → s32 z = z.
Proof. intros H. unfold s32. rewrite Z.mod_small; lia. Qed.

(** The limits of a device: the size of an entry fits the 6-bit size field of
    its control segment, and a ring has at most [2 ^ 15] blocks. *)
Record limits_ok (ctx : mlx5_limits) : Prop := LimitsOk
  { lo_sq : 64 ≤ max_sq_desc_sz ctx < 1024;
    lo_rq : 16 ≤ max_rq_desc_sz ctx < 2 ^ 14;
    lo_wqebb : 0 ≤ max_send_wqebb ctx ≤ 2 ^ 15;
    lo_recv : 0 ≤ ctx_max_recv_wr ctx ≤ 2 ^ 16 }.

(** Capabilities that the programs of the repository ask for. *)
Record attr_ok (a : qp_init_attr) : Prop := AttrOk
  { ao_type : at_type a ∈ [IBV_QPT_RC; IBV_QPT_UC; IBV_QPT_UD];
    ao_swr : 0 ≤ max_send_wr a < 2 ^ 32;
    ao_rwr : 0 ≤ max_recv_wr a < 2 ^ 32;
    ao_ssge : 1 ≤ max_send_sge a < 2 ^ 32;
    ao_rsge : 0 ≤ max_recv_sge a < 2 ^ 26;
    ao_inl : 0 ≤ cap_max_inline_data a < 2 ^ 30;
    ao_atomic : max_atomic_arg a = None;
    ao_klms : max_inl_send_klms a = None }.

Definition hdr_bytes (qpt : ibv_qp_type) : Z := match qpt with IBV_QPT_UD => 64 | _ => 32 end.

Lemma sq_overhead_ok a g :
  attr_ok a → umr_en g = false → fst (sq_overhead a g) = hdr_bytes (at_type a) ∧
  (snd (sq_overhead a g) = None ∨ snd (sq_overhead a g) = Some 16).
Proof.
  intros H Hu. pose proof (ao_type _ H) as Ht. unfold sq_overhead. rewrite (ao_atomic _ H), Hu.
  set_unfold in Ht. destruct Ht as [-> | [-> | [-> | []]]]; cbn; destruct (enable_atomics g); auto.
Qed.

Lemma max4_ge t1 t2 t3 t4 :
  t1 ≤ mlx5_max4 t1 t2 t3 t4 ∧ t2 ≤ mlx5_max4 t1 t2 t3 t4 ∧
  t3 ≤ mlx5_max4 t1 t2 t3 t4 ∧ t4 ≤ mlx5_max4 t1 t2 t3 t4.
Proof.
  unfold mlx5_max4. destruct (Z.ltb_spec t1 t2).
  - destruct (Z.ltb_spec t2 t3); [destruct (Z.ltb_spec t3 t4)|destruct (Z.ltb_spec t2 t4)]; lia.
  - destruct (Z.ltb_spec t1 t3); [destruct (Z.ltb_spec t3 t4)|destruct (Z.ltb_spec t1 t4)]; lia.
Qed.

(** The size of an entry. *)
Lemma calc_send_wqe_spec ctx a g :
  limits_ok ctx → attr_ok a → umr_en g = false →
  let r := mlx5_calc_send_wqe ctx a g in
  r.2 = g ∧
  (r.1 < 0 ∨
   (∃ bb, r.1 = 64 * bb ∧ 1 ≤ bb) ∧ hdr_bytes (at_type a) + 16 * max_send_sge a ≤ r.1 ∧
   (cap_max_inline_data a ≠ 0 → hdr_bytes (at_type a) + 4 + cap_max_inline_data a ≤ r.1)).
Proof.
  intros Hl Ha Hu. pose proof (sq_overhead_ok a g Ha Hu) as [Ho Hat]. unfold mlx5_calc_send_wqe.
  destruct (sq_overhead a g) as [ov ia]. cbn [fst snd] in *. subst ov.
  pose proof (lo_sq _ Hl) as Hsz. pose proof (ao_ssge _ Ha). pose proof (ao_inl _ Ha).
  assert (Hh : hdr_bytes (at_type a) = 32 ∨ hdr_bytes (at_type a) = 64) by (destruct (at_type a); auto).
  rewrite (ao_atomic _ Ha), (ao_klms _ Ha). unfold SZ_DATA, SZ_INL_DATA, MLX5_SEND_WQE_BB.
  rewrite (proj2 (Z.ltb_ge (hdr_bytes _) 0)) by lia.
  set (h := hdr_bytes (at_type a)) in *. clearbody h.
  rewrite (u64_small (max_sq_desc_sz ctx - h)) by lia.
  assert (Hq : 0 ≤ (max_sq_desc_sz ctx - h) / 16 ≤ 64).
  { split; [apply Z.div_pos; lia|]. apply Z.div_le_upper_bound; lia. }
  rewrite (s32_small (_ / 16)), u32_small by lia.
  destruct (_ <? max_send_sge a) eqn:Eg; [cbn; split; [done|left; unfold EINVAL; lia]|].
  apply Z.ltb_ge in Eg. rewrite (s32_small (h + max_send_sge a * 16)), (s32_small (h + 0)) by lia.
  set (inl := if cap_max_inline_data a =? 0 then 0 else _).
  assert (Hinl : 0 ≤ inl < 2 ^ 30 + 64 ∧ (cap_max_inline_data a ≠ 0 → 4 + cap_max_inline_data a ≤ inl)).
  { unfold inl. destruct (_ =? 0) eqn:E0; [apply Z.eqb_eq in E0; lia|].
    rewrite u64_small by lia. pose proof (align_spec (4 + cap_max_inline_data a) 4) as Hal.
    change (2 ^ 4) with 16 in Hal. rewrite s32_small by lia. lia. }
  clearbody inl. rewrite (s32_small (h + inl)) by lia.
  set (t1 := if default 0 ia =? 0 then 0 else _).
  assert (Ht1 : t1 = 0 ∨ t1 = h + 32).
  { unfold t1. destruct Hat as [-> | ->]; cbn; [auto|]. right. rewrite s32_small; lia. }
  clearbody t1. set (tot := mlx5_max4 _ _ _ _).
  assert (Htot : h ≤ tot ∧ h + 16 * max_send_sge a ≤ tot ∧ h + inl ≤ tot).
  { pose proof (max4_ge t1 (h + max_send_sge a * 16) (h + 0) (h + inl)) as Hm. fold tot in Hm. lia. }
  clearbody tot. destruct (max_sq_desc_sz ctx <? tot) eqn:Et; [cbn; split; [done|left; unfold EINVAL; lia]|].
  apply Z.ltb_ge in Et. cbn [fst snd]. split; [done|]. right. rewrite u64_small by lia.
  pose proof (align_spec tot 6 ltac:(lia) ltac:(lia) ltac:(lia)) as [Hal Hm]. change (2 ^ 6) with 64 in *.
  rewrite s32_small by lia. pose proof (Z.div_mod (align tot 64) 64 ltac:(lia)).
  split; [exists (align tot 64 / 64); lia|lia].
Qed.

(** A send ring of [2 ^ k] blocks for requests of at most [bb] blocks. *)
Record sq_sized (a : qp_init_attr) (w : mlx5_wq) (inl bb k : Z) : Prop := SqSized
  { ss_k : 0 ≤ k ≤ 15;
    ss_cnt : wqe_cnt w = 2 ^ k;
    ss_bb : 1 ≤ bb ≤ 15;
    ss_shift : wqe_shift w = 6;
    ss_post : max_send_wr a ≤ max_post w ∧ max_post w * bb ≤ wqe_cnt w;
    ss_gs : max_send_sge a ≤ max_gs w ∧ hdr_bytes (at_type a) + 16 * max_gs w ≤ 64 * bb;
    ss_inl : cap_max_inline_data a ≤ inl ∧ hdr_bytes (at_type a) + 4 + inl = 64 * bb }.

Lemma sge_count x y :
  0 ≤ x ≤ 1024 → x / 16 ≤ y < 2 ^ 32 → s32 (Z.min (u64 (s32 (u64 x / 16))) (u64 y)) = x / 16.
Proof.
  intros Hx Hy. assert (0 ≤ x / 16 ≤ 64).
  { split; [apply Z.div_pos; lia|]. apply Z.div_le_upper_bound; lia. }
  rewrite (u64_small x), (s32_small (x / 16)), (u64_small (x / 16)), u64_small by lia.
  rewrite Z.min_l, s32_small; lia.
Qed.

Lemma get_send_sge_spec a g bb :
  attr_ok a → umr_en g = false → 1 ≤ bb ≤ 15 → hdr_bytes (at_type a) ≤ 64 * bb →
  0 ≤ get_send_sge a (64 * bb) g ≤ 64 ∧
  hdr_bytes (at_type a) + 16 * get_send_sge a (64 * bb) g ≤ 64 * bb.
Proof.
  intros Ha Hu Hb Hh. pose proof (sq_overhead_ok a g Ha Hu) as [Ho _]. unfold get_send_sge. rewrite Ho.
  pose proof (ao_type _ Ha) as Ht. unfold SZ_DATA, SZ_CTRL, SZ_RADDR.
  assert (Hd : ∀ x, 0 ≤ x ≤ 960 → 0 ≤ x / 16 ≤ 64 ∧ 16 * (x / 16) ≤ x).
  { intros x Hx. pose proof (Z.div_mod x 16 ltac:(lia)). pose proof (Z.mod_pos_bound x 16 ltac:(lia)). lia. }
  set_unfold in Ht. destruct Ht as [E | [E | [E | []]]]; rewrite E in *; cbn [hdr_bytes] in *;
    [change (u64 32 / 16) with 2; specialize (Hd (Z.min (64 * bb) 512 - 16 - 16) ltac:(lia))
    |change (u64 32 / 16) with 2; specialize (Hd (64 * bb - 32) ltac:(lia))
    |change (u64 64 / 16) with 4; specialize (Hd (64 * bb - 64) ltac:(lia))];
    rewrite sge_count by lia; lia.
Qed.

Lemma get_send_sge_ext a a' n g g' :
  at_type a = at_type a' → max_atomic_arg a = max_atomic_arg a' → umr_en g = umr_en g' →
  enable_atomics g = enable_atomics g' → get_send_sge a n g = get_send_sge a' n g'.
Proof. intros E1 E2 E3 E4. unfold get_send_sge, sq_overhead. by rewrite E1, E2, E3, E4. Qed.

Lemma calc_sq_size_spec ctx a g :
  limits_ok ctx → attr_ok a → umr_en g = false → 0 < max_send_wr a →
  ∃ ret a' g', mlx5_calc_sq_size ctx a g = Ok (ret, a', g') ∧
    (ret < 0 ∨ ∃ bb k, ret = 64 * 2 ^ k ∧ sq_sized a (g_sq g') (g_max_inline_data g') bb k ∧
       g' = cfg_set_sq (cfg_set_inline g (g_max_inline_data g')) (g_sq g') ∧
       a' = attr_set_sge (attr_set_inline a (g_max_inline_data g')) (max_gs (g_sq g'))).
Proof.
  intros Hl Ha Hu Hwr. pose proof (calc_send_wqe_spec ctx a g Hl Ha Hu) as H. cbv zeta in H.
  unfold mlx5_calc_sq_size. rewrite (proj2 (Z.eqb_neq _ _)) by lia.
  destruct (mlx5_calc_send_wqe ctx a g) as [wqe g0]. cbn [fst snd] in H. destruct H as [-> H].
  pose proof (lo_sq _ Hl) as Hsz.
  destruct (wqe <? 0) eqn:E0; [eexists _, _, _; split; [done|left; lia]|]. apply Z.ltb_ge in E0.
  destruct H as [?|((bb & -> & Hbb) & Hsge & Hinl)]; [lia|].
  destruct (bool_decide _ && _); [eexists _, _, _; split; [done|left; done]|].
  destruct (max_sq_desc_sz ctx <? _) eqn:E1; [eexists _, _, _; split; [done|left; done]|]. apply Z.ltb_ge in E1.
  rewrite (proj1 (sq_overhead_ok a g Ha Hu)). unfold SZ_INL_DATA.
  pose proof (ao_ssge _ Ha) as Hs1. pose proof (ao_inl _ Ha).
  assert (Hh : hdr_bytes (at_type a) = 32 ∨ hdr_bytes (at_type a) = 64) by (destruct (at_type a); auto).
  rewrite (u32_small (_ - 4)) by lia. cbn [g_max_inline_data cfg_set_inline].
  set (inl := 64 * bb - hdr_bytes (at_type a) - 4).
  destruct (_ <? max_send_wr _) eqn:E2; [eexists _, _, _; split; [done|left; done]|].
  apply Z.ltb_ge in E2. cbn [max_send_wr attr_set_inline] in E2 |- *.
  assert (Hq : max_send_wr a * max_sq_desc_sz ctx < 2 ^ 31).
  { assert (0 ≤ Z.quot 0x7fffffff (max_sq_desc_sz ctx) < 2 ^ 31).
    { rewrite Z.quot_div_nonneg by lia. split; [apply Z.div_pos; lia|]. apply Z.div_lt_upper_bound; lia. }
    rewrite u32_small, Z.quot_div_nonneg in E2 by lia.
    pose proof (Z.mul_div_le 0x7fffffff (max_sq_desc_sz ctx) ltac:(lia)). nia. }
  assert (Hq2 : 0 < max_send_wr a * (64 * bb) < 2 ^ 31) by nia.
  rewrite (u32_small (_ * _)) by lia.
  destruct (Z.le_gt_cases (max_send_wr a * (64 * bb)) (2 ^ 30)) as [Hle|Hgt].
  2:{ rewrite round_up_overflow by lia. cbn [res_bind]. change (u32 (Z.quot (- ENOMEM) MLX5_SEND_WQE_BB)) with 0.
      rewrite (proj2 (Z.ltb_ge _ _)) by apply u32_range. change (mlx5_ilog2 MLX5_SEND_WQE_BB) with (Ok 6).
      cbn [res_bind umr_en cfg_set_sq cfg_set_inline]. rewrite Hu.
      destruct (u32 _ <? _); (eexists _, _, _; split; [done|left; done]). }
  rewrite round_up_spec by lia. cbn [res_bind]. set (L := Z.log2_up _).
  assert (HL : 6 ≤ L).
  { unfold L. change 6 with (Z.log2_up 64). apply Z.log2_up_le_mono.
    assert (1 * 64 ≤ max_send_wr a * (64 * bb)) by (apply Z.mul_le_mono_nonneg; lia). lia. }
  assert (HL30 : L ≤ 30) by (apply log2_up_least; lia).
  assert (H64 : 2 ^ L = 64 * 2 ^ (L - 6)).
  { change 64 with (2 ^ 6). rewrite <-Z.pow_add_r by lia. f_equal. lia. }
  assert (Hcov : max_send_wr a * (64 * bb) ≤ 2 ^ L) by (apply Z.log2_log2_up_spec; lia).
  clearbody L. unfold MLX5_SEND_WQE_BB in *. assert (0 < 2 ^ (L - 6) ≤ 2 ^ 24).
  { split; [lia|]. apply Z.pow_le_mono_r; lia. }
  replace (Z.quot (2 ^ L) 64) with (2 ^ (L - 6)) by (rewrite H64, Z.mul_comm, Z.quot_mul; lia).
  pose proof (lo_wqebb _ Hl). rewrite (u32_small (2 ^ (L - 6))), (u32_small (max_send_wqebb ctx)) by lia.
  destruct (_ <? 2 ^ (L - 6)) eqn:E3; [eexists _, _, _; split; [done|left; done]|]. apply Z.ltb_ge in E3.
  change (mlx5_ilog2 64) with (Ok 6). cbn [res_bind umr_en cfg_set_sq cfg_set_inline at_type attr_set_inline].
  rewrite (get_send_sge_ext _ a _ _ g) by done.
  set (gs := get_send_sge _ _ _).
  assert (Hgs' : 0 ≤ gs ≤ 64 ∧ hdr_bytes (at_type a) + 16 * gs ≤ 64 * bb).
  { apply get_send_sge_spec; try done; lia. }
  clearbody gs. rewrite u32_small by lia. cbn [max_send_sge attr_set_inline].
  destruct (gs <? max_send_sge a) eqn:E4; [eexists _, _, _; split; [done|left; done]|]. apply Z.ltb_ge in E4.
  rewrite Hu. eexists _, _, _. split; [reflexivity|]. right. exists bb, (L - 6).
  cbn [g_sq cfg_set_sq g_max_inline_data cfg_set_inline max_gs wq_set_sizes].
  assert (Hk : L - 6 ≤ 15) by (apply (Z.pow_le_mono_r_iff 2); lia).
  rewrite Z.quot_div_nonneg by lia.
  assert (Hp : max_send_wr a ≤ 2 ^ L / (64 * bb) < 2 ^ 32).
  { split; [apply Z.div_le_lower_bound; lia|]. apply Z.div_lt_upper_bound; [lia|]. nia. }
  rewrite (u32_small (_ / _)) by lia.
  split; [done|]. split; [|done]. split; cbn; try lia; try done.
  split; [lia|]. pose proof (Z.mul_div_le (2 ^ L) (64 * bb) ltac:(lia)). nia.
Qed.

(** Every request within the limits fits [bb] blocks. *)
Lemma sq_sized_units host a w inl bb k fl wr :
  sq_sized a w inl bb k → attr_ok a → wr_ok (at_type a) wr → num_sge wr ≤ max_gs w →
  (IBV_SEND_INLINE fl = true → Z.of_nat (length (payload host (sg_list wr))) ≤ inl) →
  wqe_units host (at_type a) fl wr ≤ 4 * bb.
Proof.
  intros Hz Ha Hwr Hn Hi. pose proof (ss_gs _ _ _ _ _ Hz). pose proof (ss_inl _ _ _ _ _ Hz).
  pose proof (ss_bb _ _ _ _ _ Hz).
  assert (Hm : 16 + 16 * Z.of_nat (mid_len (at_type a) wr / 16) ≤ hdr_bytes (at_type a)).
  { pose proof (ao_type _ Ha) as Ht. set_unfold in Ht. unfold mid_len, av_size.
    destruct Ht as [-> | [-> | [-> | []]]]; cbn [hdr_bytes];
      [destruct (is_write _)|destruct (is_write _)|destruct (has_grh _)]; vm_compute; discriminate. }
  assert (Hh4 : hdr_bytes (at_type a) = 16 * 2 ∨ hdr_bytes (at_type a) = 16 * 4) by (destruct (at_type a); auto).
  unfold wqe_units, data_units. destruct (IBV_SEND_INLINE fl).
  - specialize (Hi eq_refl). pose proof (inl_units_spec (Z.of_nat (length (payload host (sg_list wr)))) ltac:(lia)).
    lia.
  - pose proof (length_live_le (sg_list wr)). unfold num_sge in Hn. lia.
Qed.

(** A receive ring of [2 ^ k] entries. *)
Record rq_sized (a : qp_init_attr) (w : mlx5_wq) (sg : bool) (k : Z) : Prop := RqSized
  { rz_k : 0 ≤ k ≤ 16;
    rz_cnt : wqe_cnt w = 2 ^ k;
    rz_wr : max_recv_wr a ≤ wqe_cnt w;
    rz_post : max_post w = wqe_cnt w;
    rz_shift : 4 ≤ wqe_shift w < 16;
    rz_gs : Z.max (max_recv_sge a) 1 ≤ max_gs w ∧
            16 * max_gs w + (if sg then 16 else 0) = 2 ^ wqe_shift w }.

Lemma calc_rcv_wqe_spec ctx a g :
  limits_ok ctx → attr_ok a → at_srq a = false →
  let need := 16 * Z.max (max_recv_sge a) 1 + (if g_wq_sig g then 16 else 0) in
  (max_rq_desc_sz ctx < need ∧ mlx5_calc_rcv_wqe ctx a g = Ok (- EINVAL)) ∨
  ∃ j, need ≤ 2 ^ j ∧ 4 ≤ j ≤ 14 ∧ mlx5_calc_rcv_wqe ctx a g = Ok (2 ^ j).
Proof.
  intros Hl Ha Hs need. unfold mlx5_calc_rcv_wqe. rewrite Hs. unfold SZ_DATA, SZ_RWQE_SIG.
  pose proof (ao_rsge _ Ha). pose proof (lo_rq _ Hl).
  rewrite (s32_small (Z.max _ 1)), (s32_small (16 * _)) by lia.
  assert (E : (if g_wq_sig g then s32 (16 * Z.max (max_recv_sge a) 1 + 16)
               else 16 * Z.max (max_recv_sge a) 1) = need).
  { unfold need. destruct (g_wq_sig g); [rewrite s32_small; lia|lia]. }
  rewrite E. assert (16 ≤ need) by (unfold need; destruct (g_wq_sig g); lia). clearbody need. clear E.
  rewrite (proj2 (Z.ltb_ge need 0)) by lia. cbn [orb].
  destruct (max_rq_desc_sz ctx <? need) eqn:Ed; [left; split; [lia|done]|]. apply Z.ltb_ge in Ed. right.
  exists (Z.log2_up need). split; [apply Z.log2_log2_up_spec; lia|]. split; [|apply round_up_spec; lia].
  split; [change 4 with (Z.log2_up 16); apply Z.log2_up_le_mono; lia|apply log2_up_least; lia].
Qed.

Lemma calc_rq_size_spec ctx a g :
  limits_ok ctx → attr_ok a → at_srq a = false → 0 < max_recv_wr a →
  ∃ ret g', mlx5_calc_rq_size ctx a g = Ok (ret, g') ∧
    (ret < 0 ∨ ∃ k, ret = wqe_cnt (g_rq g') * 2 ^ wqe_shift (g_rq g') ∧ ret ≤ 2 ^ 30 ∧
       rq_sized a (g_rq g') (g_wq_sig g) k ∧ g' = cfg_set_rq g (g_rq g')).
Proof.
  intros Hl Ha Hs Hwr. unfold mlx5_calc_rq_size. rewrite (proj2 (Z.eqb_neq _ _)) by lia. cbn [orb].
  assert (Et : qpt_has_rq (at_type a) = true).
  { pose proof (ao_type _ Ha) as Ht. set_unfold in Ht. by destruct Ht as [-> | [-> | [-> | []]]]. }
  rewrite Et. cbn [negb]. pose proof (lo_recv _ Hl). rewrite u32_small by lia.
  destruct (_ <? max_recv_wr a) eqn:Er; [eexists _, _; split; [done|left; done]|]. apply Z.ltb_ge in Er.
  destruct (calc_rcv_wqe_spec ctx a g Hl Ha Hs) as [[_ ->]|(j & Hj & Hj14 & ->)];
    [eexists _, _; split; [done|left; done]|].
  cbn [res_bind]. assert (16 ≤ 2 ^ j ≤ 2 ^ 14).
  { change 16 with (2 ^ 4). split; apply Z.pow_le_mono_r; lia. }
  rewrite (proj2 (Z.ltb_ge (2 ^ j) 0)) by lia. cbn [orb].
  destruct (_ <? 2 ^ j); [eexists _, _; split; [done|left; done]|].
  rewrite round_up_spec by lia. cbn [res_bind]. set (i := Z.log2_up (max_recv_wr a)).
  assert (Hi : 0 ≤ i ≤ 16 ∧ max_recv_wr a ≤ 2 ^ i).
  { unfold i. split; [split; [apply Z.log2_up_nonneg|apply log2_up_least; lia]|].
    apply log2_up_least; [lia|apply Z.log2_up_nonneg|lia]. }
  clearbody i. set (k := Z.max i (6 - j)).
  assert (Hk : 0 ≤ k ≤ 16) by (unfold k; lia).
  assert (E1 : Z.max (2 ^ i * 2 ^ j) MLX5_SEND_WQE_BB = 2 ^ k * 2 ^ j).
  { unfold MLX5_SEND_WQE_BB. change 64 with (2 ^ 6). rewrite <-!Z.pow_add_r by lia. unfold k.
    destruct (Z.max_spec i (6 - j)) as [[? ->]|[? ->]].
    - rewrite Z.max_r by (apply Z.pow_le_mono_r; lia). f_equal. lia.
    - rewrite Z.max_l by (apply Z.pow_le_mono_r; lia). done. }
  assert (2 ^ i * 2 ^ j ≤ 2 ^ 30 ∧ 2 ^ k * 2 ^ j ≤ 2 ^ 30 ∧ 2 ^ k ≤ 2 ^ 16 ∧ 2 ^ i ≤ 2 ^ k).
  { rewrite <-!Z.pow_add_r by lia. repeat split; apply Z.pow_le_mono_r; lia. }
  assert (0 < 2 ^ i ∧ 0 < 2 ^ k ∧ 0 < 2 ^ j) by lia.
  unfold smul. rewrite (proj2 (Z.leb_le _ _)), (proj2 (Z.ltb_lt _ _)) by lia. cbn [andb res_bind].
  rewrite (proj2 (Z.eqb_neq (2 ^ j) 0)), E1 by lia. cbn [negb].
  rewrite Z.quot_mul, !mlx5_ilog2_spec, !Z.log2_up_pow2 by lia. cbn [res_bind].
  unfold shl1. rewrite (proj2 (Z.leb_le 0 k)), (proj2 (Z.ltb_lt k 31)) by lia. cbn [andb res_bind].
  set (spc := 2 ^ j - _). unfold SZ_DATA.
  assert (Hd : spc = 16 * (spc / 16) ∧ 0 ≤ spc ≤ 2 ^ j ∧
            Z.max (max_recv_sge a) 1 ≤ spc / 16 ∧ spc + (if g_wq_sig g then 16 else 0) = 2 ^ j).
  { assert (Hm : 2 ^ j = 16 * 2 ^ (j - 4)).
    { change 16 with (2 ^ 4). rewrite <-Z.pow_add_r by lia. f_equal. lia. }
    unfold spc, SZ_RWQE_SIG. destruct (g_wq_sig g).
    - replace (2 ^ j - 16) with ((2 ^ (j - 4) - 1) * 16) by lia. rewrite Z.div_mul by lia. lia.
    - replace (2 ^ j - 0) with (2 ^ (j - 4) * 16) by lia. rewrite Z.div_mul by lia. lia. }
  rewrite (s32_small spc), (u64_small spc), s32_small by lia.
  eexists _, _. split; [reflexivity|]. right. exists k.
  cbn [g_rq cfg_set_rq wq_set_sizes wqe_cnt wqe_shift]. split; [done|]. split; [lia|].
  split; [|done]. split; cbn; lia.
Qed.

(** Both queues lie in one buffer, the receive queue first. *)
Lemma calc_wq_size_spec ctx a g :
  limits_ok ctx → attr_ok a → at_srq a = false → umr_en g = false → 0 < max_send_wr a → 0 < max_recv_wr a →
  ∃ ret a' g', mlx5_calc_wq_size ctx a g = Ok (ret, a', g') ∧
    (ret < 0 ∨ ∃ bb k kr, at_type a' = at_type a ∧ sq_sized a (g_sq g') (g_max_inline_data g') bb k ∧
       rq_sized a (g_rq g') (g_wq_sig g) kr ∧ g_wq_sig g' = g_wq_sig g ∧
       rq_offset g' = 0 ∧ sq_offset g' = wqe_cnt (g_rq g') * 2 ^ wqe_shift (g_rq g') ∧
       ret = sq_offset g' + 64 * wqe_cnt (g_sq g')).
Proof.
  intros Hl Ha Hs Hu Hsw Hrw. unfold mlx5_calc_wq_size.
  destruct (calc_sq_size_spec ctx a g Hl Ha Hu Hsw) as (ret & a1 & g1 & -> & Hr). cbn [res_bind].
  destruct (ret <? 0) eqn:E0.
  { apply Z.ltb_lt in E0. eexists _, _, _. split; [done|by left]. }
  apply Z.ltb_ge in E0. destruct Hr as [?|(bb & k & -> & Hz & Eg & Ea)]; [lia|].
  pose proof Hz as [Hk Hcnt Hbb Hsh [Hp1 Hp2] [Hg1 Hg2] [Hi1 Hi2]].
  assert (Ha1 : attr_ok a1).
  { destruct Ha. rewrite Ea. split; cbn; try done; unfold hdr_bytes in *; destruct (at_type a); lia. }
  destruct (calc_rq_size_spec ctx a1 g1 Hl Ha1) as (r2 & g2 & -> & Hr2); [by rewrite Ea|by rewrite Ea|].
  cbn [res_bind]. destruct (r2 <? 0) eqn:E2.
  { apply Z.ltb_lt in E2. eexists _, _, _. split; [done|by left]. }
  apply Z.ltb_ge in E2. destruct Hr2 as [?|(kr & -> & Hb & Hrz & Eg2)]; [lia|].
  eexists _, _, _. split; [done|]. right. exists bb, k, kr. split; [by rewrite Ea|].
  cbn [g_sq g_rq cfg_set_offsets g_max_inline_data g_wq_sig sq_offset rq_offset].
  rewrite Eg2. cbn [g_sq g_rq cfg_set_rq g_max_inline_data g_wq_sig].
  assert (2 ^ k ≤ 2 ^ 15) by (apply Z.pow_le_mono_r; lia).
  split; [done|]. split; [|split; [by rewrite Eg|split; [done|split; [done|]]]].
  - rewrite Eg in Hrz. rewrite Ea in Hrz. destruct Hrz. by split.
  - rewrite s32_small by lia. rewrite Hcnt. lia.
Qed.
