(* ===== verification/Mlx5Table.v ===== *)
(** * libmlx5: tables from numbers to resources
    (src/drivers/libmlx5-1.0.2mlnx1/src: qp.c, srq.c, mlx5.c, mlx5.h)

    Completions name a queue by a 24-bit number.  The context finds the
    queue in a table of two levels whose second level is allocated with the
    first entry and freed with the last one.  The tables of queue pairs, of
    shared receive queues and of user indices are the same code; a context
    picks the user indices itself. *)

From stdpp Require Import base gmap list numbers fin_maps fin_map_dom.
From Stdlib Require Import ZArith Lia.
From S2P Require Import Prelude.

Definition MLX5_QP_TABLE_SHIFT : Z := 12.
Definition MLX5_QP_TABLE_MASK : Z := 2 ^ MLX5_QP_TABLE_SHIFT - 1.
Definition MLX5_QP_TABLE_SIZE : Z := 2 ^ (24 - MLX5_QP_TABLE_SHIFT).

Section Table.
Context {T : Type}.

(** An element of the first level; [None] is a pointer that is not valid. *)
Record leaf : Type := Leaf
  { refcnt : Z;
    table : option (gmap Z T) }.

(** First level, zeroed when the context is created. *)
Abbreviation rsc_table := (gmap Z leaf).
Definition leaf_at (t : rsc_table) (i : Z) : leaf := default (Leaf 0 None) (t !! i).

Definition first_level (rsn : Z) : res Z :=
  let tind := rsn .>> MLX5_QP_TABLE_SHIFT in
  in_bounds ((0 <=? tind) && (tind <? MLX5_QP_TABLE_SIZE)) ;! Ok tind.

Definition second_level (l : leaf) : res (gmap Z T) :=
  match table l with Some tb => Ok tb | None => Fault NullDeref end.

Definition mlx5_find_rsc (t : rsc_table) (rsn : Z) : res (option T) :=
  let! tind := first_level rsn in
  if negb (refcnt (leaf_at t tind) =? 0) then
    let! tb := second_level (leaf_at t tind) in Ok (tb !! (rsn .& MLX5_QP_TABLE_MASK))
  else Ok None.

(** [calloc_ok]: the allocation of a second level succeeds. *)
Definition mlx5_store_rsc (calloc_ok : bool) (t : rsc_table) (rsn : Z) (rsc : T) : res (Z * rsc_table) :=
  let! tind := first_level rsn in
  let l := leaf_at t tind in
  let l := if refcnt l =? 0 then Leaf 0 (if calloc_ok then Some ∅ else None) else l in
  if bool_decide (table l = None) && (refcnt l =? 0) then Ok (-1, <[tind := l]> t)
  else
    let! tb := second_level l in
    Ok (0, <[tind := Leaf (refcnt l + 1) (Some (<[rsn .& MLX5_QP_TABLE_MASK := rsc]> tb))]> t).

Definition mlx5_clear_rsc (t : rsc_table) (rsn : Z) : res rsc_table :=
  let! tind := first_level rsn in
  let l := leaf_at t tind in
  let n := refcnt l - 1 in
  if n =? 0 then Ok (<[tind := Leaf n None]> t)
  else
    let! tb := second_level l in
    Ok (<[tind := Leaf n (Some (delete (rsn .& MLX5_QP_TABLE_MASK) tb))]> t).

(** ** User indices *)
Fixpoint uidx_tind (fuel : nat) (tind : Z) (t : rsc_table) : Z :=
  match fuel with
  | O => tind
  | S fuel => if refcnt (leaf_at t tind) <? MLX5_QP_TABLE_MASK then tind else uidx_tind fuel (tind + 1) t
  end.

Fixpoint uidx_slot (fuel : nat) (i : Z) (tb : gmap Z T) : Z :=
  match fuel with
  | O => i
  | S fuel => match tb !! i with None => i | Some _ => uidx_slot fuel (i + 1) tb end
  end.

Definition get_free_uidx (t : rsc_table) : res Z :=
  let tind := uidx_tind (Z.to_nat MLX5_QP_TABLE_SIZE) 0 t in
  if tind =? MLX5_QP_TABLE_SIZE then Ok (-1)
  else if refcnt (leaf_at t tind) =? 0 then Ok (Z.shiftl tind MLX5_QP_TABLE_SHIFT)
  else
    let! tb := second_level (leaf_at t tind) in
    let i := uidx_slot (Z.to_nat (MLX5_QP_TABLE_MASK + 1)) 0 tb in
    Ok (Z.shiftl tind MLX5_QP_TABLE_SHIFT .| i).

(** The result is a [uint32_t]. *)
Definition mlx5_store_uidx (calloc_ok : bool) (t : rsc_table) (rsc : T) : res (Z * rsc_table) :=
  let! uidx := get_free_uidx t in
  if uidx <? 0 then Ok (u32 (-1), t)
  else
    let! (ret, t) := mlx5_store_rsc calloc_ok t uidx rsc in
    Ok (if ret =? 0 then uidx else u32 (-1), t).

Definition mlx5_clear_uidx (t : rsc_table) (uidx : Z) : res rsc_table := mlx5_clear_rsc t uidx.
Definition mlx5_find_uidx (t : rsc_table) (uidx : Z) : res (option T) := mlx5_find_rsc t uidx.

(** ** Shared receive queues *)
Definition mlx5_find_srq (t : rsc_table) (srqn : Z) : res (option T) := mlx5_find_rsc t srqn.
Definition mlx5_store_srq (calloc_ok : bool) (t : rsc_table) (srqn : Z) (srq : T) : res (Z * rsc_table) :=
  mlx5_store_rsc calloc_ok t srqn srq.
Definition mlx5_clear_srq (t : rsc_table) (srqn : Z) : res rsc_table := mlx5_clear_rsc t srqn.

(** ** A table is a finite map *)
Definition in_leaf (j : Z) : Prop := 0 ≤ j < 4096.

(** [l] holds the part of [m] with first-level index [i]. *)
Record leaf_ok (m : gmap Z T) (i : Z) (l : leaf) : Prop := LeafOk
  { lf_none : refcnt l = 0 → ∀ j, in_leaf j → m !! (4096 * i + j) = None;
    lf_some : refcnt l ≠ 0 → ∃ tb, table l = Some tb ∧ refcnt l = Z.of_nat (size tb) ∧
      (∀ j, in_leaf j → tb !! j = m !! (4096 * i + j)) ∧ (∀ j, is_Some (tb !! j) → in_leaf j) }.

Record table_ok (t : rsc_table) (m : gmap Z T) : Prop := TableOk
  { to_leaf : ∀ i, 0 ≤ i < 4096 → leaf_ok m i (leaf_at t i);
    to_dom : ∀ rsn, is_Some (m !! rsn) → 0 ≤ rsn < 2 ^ 24 }.

Lemma table_empty : table_ok ∅ ∅.
Proof using.
  split; [|intros rsn [v Hv]; by rewrite lookup_empty in Hv].
  intros i Hi. unfold leaf_at. rewrite lookup_empty. split; [intros _ j _; apply lookup_empty|done].
Qed.

(** A number is its index at the first and at the second level. *)
Definition hi (rsn : Z) : Z := rsn / 4096.
Definition lo (rsn : Z) : Z := rsn mod 4096.

Lemma hi_lo rsn : 0 ≤ rsn < 2 ^ 24 → 0 ≤ hi rsn < 4096 ∧ in_leaf (lo rsn) ∧ rsn = 4096 * hi rsn + lo rsn.
Proof using.
  intros H. unfold hi, lo, in_leaf. pose proof (Z.div_mod rsn 4096 ltac:(lia)).
  pose proof (Z.mod_pos_bound rsn 4096 ltac:(lia)). split; [|done].
  split; [apply Z.div_pos; lia|apply Z.div_lt_upper_bound; lia].
Qed.

Lemma first_level_ok rsn : 0 ≤ rsn < 2 ^ 24 → first_level rsn = Ok (hi rsn).
Proof using.
  intros H. pose proof (hi_lo rsn H) as [Hh _]. unfold first_level, MLX5_QP_TABLE_SHIFT.
  rewrite Z.shiftr_div_pow2 by lia. change (rsn / 2 ^ 12) with (hi rsn).
  unfold MLX5_QP_TABLE_SIZE, MLX5_QP_TABLE_SHIFT. change (2 ^ (24 - 12)) with 4096.
  by rewrite (proj2 (Z.leb_le _ _)), (proj2 (Z.ltb_lt _ _)) by lia.
Qed.

Lemma lo_mask rsn : rsn .& MLX5_QP_TABLE_MASK = lo rsn.
Proof using. apply (u64_land_mask rsn 12). lia. Qed.

Lemma leaf_at_insert t i j l : leaf_at (<[i := l]> t) j = if decide (i = j) then l else leaf_at t j.
Proof using.
  unfold leaf_at. case_decide as E; [subst; by rewrite lookup_insert_eq|by rewrite lookup_insert_ne].
Qed.

Lemma find_rsc_spec t m rsn :
  table_ok t m → 0 ≤ rsn < 2 ^ 24 → mlx5_find_rsc t rsn = Ok (m !! rsn).
Proof using.
  intros Ht Hr. pose proof (hi_lo rsn Hr) as (Hh & Hl & E). unfold mlx5_find_rsc.
  rewrite first_level_ok by done. cbn [res_bind]. pose proof (to_leaf _ _ Ht _ Hh) as Hlf.
  destruct (refcnt _ =? 0) eqn:E0; cbn [negb].
  - apply Z.eqb_eq in E0. rewrite E, (lf_none _ _ _ Hlf) by done. done.
  - apply Z.eqb_neq in E0. destruct (lf_some _ _ _ Hlf E0) as (tb & Etb & _ & Hg & _).
    unfold second_level. rewrite Etb. cbn [res_bind]. rewrite lo_mask, Hg by done. by rewrite <-E.
Qed.

(** Leaves that a change does not concern. *)
Lemma leaf_ok_other m m' i l :
  (∀ j, in_leaf j → m' !! (4096 * i + j) = m !! (4096 * i + j)) → leaf_ok m i l → leaf_ok m' i l.
Proof using.
  intros E [H1 H2]. split.
  - intros Hr j Hj. rewrite E by done. by apply H1.
  - intros Hr. destruct (H2 Hr) as (tb & ? & ? & Hg & ?). exists tb. split; [done|]. split; [done|].
    split; [|done]. intros j Hj. rewrite E by done. by apply Hg.
Qed.

Lemma other_leaf rsn i j :
  0 ≤ rsn < 2 ^ 24 → in_leaf j → hi rsn ≠ i → rsn ≠ 4096 * i + j.
Proof using. intros H Hj Hne. pose proof (hi_lo rsn H). unfold in_leaf in *. lia. Qed.

Lemma store_rsc_spec c t m rsn v :
  table_ok t m → 0 ≤ rsn < 2 ^ 24 → m !! rsn = None →
  (∃ t', mlx5_store_rsc c t rsn v = Ok (0, t') ∧ table_ok t' (<[rsn := v]> m)) ∨
  (c = false ∧ ∃ t', mlx5_store_rsc c t rsn v = Ok (-1, t') ∧ table_ok t' m).
Proof using.
  intros Ht Hr Hn. pose proof (hi_lo rsn Hr) as (Hh & Hl & E). unfold mlx5_store_rsc.
  rewrite first_level_ok by done. cbn [res_bind]. pose proof (to_leaf _ _ Ht _ Hh) as Hlf.
  rewrite lo_mask.
  assert (Hcase : ∀ tb, Z.of_nat (size tb) = refcnt (leaf_at t (hi rsn)) →
    (∀ j, in_leaf j → tb !! j = m !! (4096 * hi rsn + j)) → (∀ j, is_Some (tb !! j) → in_leaf j) →
    table_ok (<[hi rsn := Leaf (refcnt (leaf_at t (hi rsn)) + 1) (Some (<[lo rsn := v]> tb))]> t) (<[rsn := v]> m)).
  { intros tb Hs Hg Hd. split.
    - intros i Hi. rewrite leaf_at_insert. case_decide as Ei.
      + subst i. split; cbn [refcnt table]; [lia|]. intros _. exists (<[lo rsn := v]> tb). split; [done|].
        split; [rewrite map_size_insert_None; [lia|rewrite Hg by done; by rewrite <-E]|]. split.
        * intros j Hj. destruct (decide (lo rsn = j)) as [<-|Hne].
          -- rewrite lookup_insert_eq, <-E. by rewrite lookup_insert_eq.
          -- rewrite !lookup_insert_ne by (done || lia). by apply Hg.
        * intros j. destruct (decide (lo rsn = j)) as [<-|Hne]; [done|].
          rewrite lookup_insert_ne by done. apply Hd.
      + eapply leaf_ok_other; [|by apply (to_leaf _ _ Ht)]. intros j Hj.
        by rewrite lookup_insert_ne by by apply other_leaf.
    - intros r. destruct (decide (rsn = r)) as [<-|Hne]; [done|]. rewrite lookup_insert_ne by done.
      apply (to_dom _ _ Ht). }
  destruct (refcnt (leaf_at t (hi rsn)) =? 0) eqn:E0.
  - apply Z.eqb_eq in E0. destruct c.
    + left. cbn. eexists. split; [reflexivity|]. rewrite <-E0 at 1. apply Hcase.
      * by rewrite E0, map_size_empty.
      * intros j Hj. rewrite (lf_none _ _ _ Hlf) by done. apply lookup_empty.
      * intros j [? Hj]. by rewrite lookup_empty in Hj.
    + right. split; [done|]. cbn. eexists. split; [reflexivity|]. split; [|apply Ht].
      intros i Hi. rewrite leaf_at_insert. case_decide as Ei; [|by apply Ht]. subst i.
      split; [|done]. intros _. by apply (lf_none _ _ _ Hlf).
  - apply Z.eqb_neq in E0. destruct (lf_some _ _ _ Hlf E0) as (tb & Etb & Hs & Hg & Hd).
    left. rewrite (proj2 (Z.eqb_neq _ _) E0), andb_false_r. unfold second_level. rewrite Etb. cbn [res_bind].
    eexists. split; [reflexivity|]. by apply Hcase.
Qed.

Lemma clear_rsc_spec t m rsn :
  table_ok t m → is_Some (m !! rsn) →
  ∃ t', mlx5_clear_rsc t rsn = Ok t' ∧ table_ok t' (delete rsn m).
Proof using.
  intros Ht [v Hv]. pose proof (to_dom _ _ Ht rsn ltac:(by eexists)) as Hr.
  pose proof (hi_lo rsn Hr) as (Hh & Hl & E). unfold mlx5_clear_rsc.
  rewrite first_level_ok by done. cbn [res_bind]. pose proof (to_leaf _ _ Ht _ Hh) as Hlf.
  assert (E0 : refcnt (leaf_at t (hi rsn)) ≠ 0).
  { intros E0. pose proof (lf_none _ _ _ Hlf E0 (lo rsn) Hl) as Hn. rewrite <-E in Hn. congruence. }
  destruct (lf_some _ _ _ Hlf E0) as (tb & Etb & Hs & Hg & Hd).
  assert (Htv : tb !! lo rsn = Some v) by (rewrite Hg, <-E by done; done).
  assert (Hsz : size (delete (lo rsn) tb) = (size tb - 1)%nat).
  { rewrite map_size_delete, Htv. cbn; lia. }
  assert (Hdom : ∀ r, is_Some (delete rsn m !! r) → 0 ≤ r < 2 ^ 24).
  { intros r. rewrite lookup_delete_is_Some. intros [_ ?]. by apply (to_dom _ _ Ht). }
  assert (Hdel : ∀ j, in_leaf j → delete (lo rsn) tb !! j = delete rsn m !! (4096 * hi rsn + j)).
  { intros j Hj. destruct (decide (lo rsn = j)) as [<-|Hne].
    - rewrite lookup_delete_eq, <-E. by rewrite lookup_delete_eq.
    - rewrite !lookup_delete_ne by (done || lia). by apply Hg. }
  assert (Hother : ∀ i, 0 ≤ i < 4096 → hi rsn ≠ i → leaf_ok (delete rsn m) i (leaf_at t i)).
  { intros i Hi Hne. eapply leaf_ok_other; [|by apply (to_leaf _ _ Ht)]. intros j Hj.
    by rewrite lookup_delete_ne by by apply other_leaf. }
  destruct (_ - 1 =? 0) eqn:E1.
  - apply Z.eqb_eq in E1. eexists. split; [reflexivity|]. split; [|done]. intros i Hi.
    rewrite leaf_at_insert. case_decide as Ei; [|by apply Hother]. subst i. split; cbn [refcnt]; [|lia].
    intros _ j Hj. rewrite <-Hdel by done.
    assert (Hnil : delete (lo rsn) tb = ∅) by (apply map_size_empty_inv; lia).
    rewrite Hnil. apply lookup_empty.
  - apply Z.eqb_neq in E1. unfold second_level. rewrite Etb, lo_mask. cbn [res_bind].
    eexists. split; [reflexivity|]. split; [|done]. intros i Hi.
    rewrite leaf_at_insert. case_decide as Ei; [|by apply Hother]. subst i. split; cbn [refcnt table]; [lia|].
    intros _. exists (delete (lo rsn) tb). split; [done|]. split; [lia|]. split; [done|].
    intros j. rewrite lookup_delete_is_Some. intros [_ ?]. by apply Hd.
Qed.

(** ** The index that a context picks *)
Lemma uidx_tind_spec t n : ∀ i,
  let r := uidx_tind n i t in
  i ≤ r ≤ i + Z.of_nat n ∧ (r < i + Z.of_nat n → refcnt (leaf_at t r) < MLX5_QP_TABLE_MASK) ∧
  (∀ j, i ≤ j < r → MLX5_QP_TABLE_MASK ≤ refcnt (leaf_at t j)).
Proof using.
  induction n as [|n IH]; intros i r; unfold r; cbn [uidx_tind]; [split; [lia|split; [lia|intros; lia]]|]. destruct (_ <? _) eqn:E.
  - apply Z.ltb_lt in E. split; [lia|]. split; [done|]. intros; lia.
  - apply Z.ltb_ge in E. destruct (IH (i + 1)) as (H1 & H2 & H3). split; [lia|]. split; [intros; apply H2; lia|].
    intros j Hj. destruct (decide (j = i)) as [->|]; [done|]. apply H3. lia.
Qed.

Lemma full_size n : ∀ tb : gmap Z T,
  (∀ j, 0 ≤ j < Z.of_nat n → is_Some (tb !! j)) → (n ≤ size tb)%nat.
Proof using.
  induction n as [|n IH]; intros tb H; [lia|]. destruct (H (Z.of_nat n) ltac:(lia)) as [v Hv].
  assert (size (delete (Z.of_nat n) tb) = pred (size tb)) by by rewrite map_size_delete, Hv.
  assert (n ≤ size (delete (Z.of_nat n) tb))%nat.
  { apply IH. intros j Hj. rewrite lookup_delete_ne by lia. apply H. lia. }
  assert (size tb ≠ 0%nat); [|lia]. intros E. apply map_size_empty_inv in E. by rewrite E, lookup_empty in Hv.
Qed.

Lemma uidx_slot_spec tb n : ∀ i,
  0 ≤ i → (∀ j, 0 ≤ j < i → is_Some (tb !! j)) → Z.of_nat (size tb) < i + Z.of_nat n →
  i ≤ uidx_slot n i tb < i + Z.of_nat n ∧ tb !! uidx_slot n i tb = None.
Proof using.
  induction n as [|n IH]; intros i Hi Hall Hs.
  - pose proof (full_size (Z.to_nat i) tb) as Hf. rewrite Z2Nat.id in Hf by lia. specialize (Hf Hall). lia.
  - cbn [uidx_slot]. destruct (tb !! i) as [v|] eqn:E; [|split; [lia|done]].
    destruct (IH (i + 1)) as [H1 H2]; [lia| |lia|split; [lia|done]].
    intros j Hj. destruct (decide (j = i)) as [->|]; [by eexists|]. apply Hall. lia.
Qed.

Lemma get_free_uidx_spec t m :
  table_ok t m →
  (∃ r, get_free_uidx t = Ok r ∧ 0 ≤ r < 2 ^ 24 ∧ m !! r = None) ∨
  (get_free_uidx t = Ok (-1) ∧ ∀ i, 0 ≤ i < 4096 → 4095 ≤ refcnt (leaf_at t i)).
Proof using.
  intros Ht. unfold get_free_uidx.
  pose proof (uidx_tind_spec t (Z.to_nat MLX5_QP_TABLE_SIZE) 0) as H. cbv zeta in H.
  set (i := uidx_tind _ _ _) in *. change (Z.of_nat (Z.to_nat MLX5_QP_TABLE_SIZE)) with 4096 in H.
  change MLX5_QP_TABLE_SIZE with 4096. change MLX5_QP_TABLE_MASK with 4095 in *.
  clearbody i. destruct H as (Hi & Hlt & Hge). destruct (i =? 4096) eqn:E.
  { apply Z.eqb_eq in E. subst i. right. split; [done|]. intros j Hj. apply Hge. lia. }
  apply Z.eqb_neq in E. specialize (Hlt ltac:(lia)). pose proof (to_leaf _ _ Ht i ltac:(lia)) as Hlf.
  rewrite Z.shiftl_mul_pow2 by done. change (2 ^ MLX5_QP_TABLE_SHIFT) with 4096. left.
  destruct (refcnt _ =? 0) eqn:E0.
  - apply Z.eqb_eq in E0. eexists. split; [reflexivity|]. split; [lia|].
    replace (i * 4096) with (4096 * i + 0) by lia. apply (lf_none _ _ _ Hlf); [done|]. unfold in_leaf. lia.
  - apply Z.eqb_neq in E0. destruct (lf_some _ _ _ Hlf E0) as (tb & Etb & Hs & Hg & Hd).
    unfold second_level. rewrite Etb. cbn [res_bind].
    destruct (uidx_slot_spec tb (Z.to_nat (4095 + 1)) 0) as [H1 H2]; [lia|intros; lia|lia|]. set (j := uidx_slot _ _ _) in *.
    assert (Hj : in_leaf j) by (unfold in_leaf; lia). clearbody j.
    assert (Eor : i * 4096 .| j = 4096 * i + j).
    { assert (Hz : Z.land (i * 4096) j = 0); [|pose proof (Z.add_lor_land (i * 4096) j); lia].
      apply Z.bits_inj'. intros b Hb. rewrite Z.land_spec, Z.bits_0. change 4096 with (2 ^ 12).
      destruct (Z.lt_ge_cases b 12); [by rewrite Z.mul_pow2_bits_low|].
      rewrite (Z.bits_above_log2 j), andb_false_r; [done|unfold in_leaf in Hj; lia|].
      unfold in_leaf in Hj. destruct (decide (j = 0)) as [->|]; [cbn; lia|].
      assert (Z.log2 j < 12); [|lia]. apply Z.log2_lt_pow2; lia. }
    rewrite Eor. eexists. split; [reflexivity|]. split; [unfold in_leaf in Hj; lia|]. by rewrite <-Hg.
Qed.

Lemma store_uidx_spec c t m v :
  table_ok t m →
  (∃ r t', mlx5_store_uidx c t v = Ok (r, t') ∧ 0 ≤ r < 2 ^ 24 ∧ m !! r = None ∧ table_ok t' (<[r := v]> m)) ∨
  (∃ t', mlx5_store_uidx c t v = Ok (2 ^ 32 - 1, t') ∧ table_ok t' m ∧
     (c = false ∨ ∀ i, 0 ≤ i < 4096 → 4095 ≤ refcnt (leaf_at t i))).
Proof using.
  intros Ht. unfold mlx5_store_uidx. destruct (get_free_uidx_spec t m Ht) as [(r & -> & Hr & Hn)|[-> Hfull]].
  - cbn [res_bind]. rewrite (proj2 (Z.ltb_ge _ _)) by lia.
    destruct (store_rsc_spec c t m r v Ht Hr Hn) as [(t' & -> & Ht')|(-> & t' & -> & Ht')].
    + left. exists r, t'. done.
    + right. exists t'. split; [done|]. split; [done|]. by left.
  - right. exists t. split; [done|]. split; [done|]. by right.
Qed.
End Table.
Arguments leaf : clear implicits.
Abbreviation rsc_table T := (gmap Z (leaf T)).
