(* ===== verification/Mlx5Srq.v ===== *)
(** * libmlx5: shared receive queues
    (src/drivers/libmlx5-1.0.2mlnx1/src/srq.c)

    The entries of a shared receive queue form a linked list through a field
    of the entries.  Posting takes entries from the head of the list of free
    entries; the device follows the links; completed entries are appended at
    the tail, in the order in which they complete. *)

From stdpp Require Import base gmap list numbers.
From Stdlib Require Import ZArith Lia.
From S2P Require Import Prelude Mlx5Base Mlx5Wqe Mlx5WqeProof Mlx5Encode Mlx5Send Mlx5Recv Mlx5RecvProof Mlx5Size.

Record mlx5_srq : Type := Srq
  { s_buf : sqmem;
    s_wrid : list Z;
    srqn : Z;
    s_max : Z;
    s_max_gs : Z;
    s_wqe_shift : Z;
    s_head : Z;
    s_tail : Z;
    s_counter : Z;
    s_db : Z;
    s_wq_sig : bool }.

Definition srq_set_buf (s : mlx5_srq) (m : sqmem) : mlx5_srq :=
  Srq m (s_wrid s) (srqn s) (s_max s) (s_max_gs s) (s_wqe_shift s) (s_head s) (s_tail s)
    (s_counter s) (s_db s) (s_wq_sig s).
Definition srq_set_tail (s : mlx5_srq) (i : Z) : mlx5_srq :=
  Srq (s_buf s) (s_wrid s) (srqn s) (s_max s) (s_max_gs s) (s_wqe_shift s) (s_head s) i
    (s_counter s) (s_db s) (s_wq_sig s).
Definition srq_set_head (s : mlx5_srq) (i : Z) (ids : list Z) : mlx5_srq :=
  Srq (s_buf s) ids (srqn s) (s_max s) (s_max_gs s) (s_wqe_shift s) i (s_tail s)
    (s_counter s) (s_db s) (s_wq_sig s).
Definition srq_set_counter (s : mlx5_srq) (c d : Z) : mlx5_srq :=
  Srq (s_buf s) (s_wrid s) (srqn s) (s_max s) (s_max_gs s) (s_wqe_shift s) (s_head s) (s_tail s)
    c d (s_wq_sig s).

Definition get_wqe (s : mlx5_srq) (n : Z) : Z := Z.shiftl n (s_wqe_shift s).
Definition srq_end (s : mlx5_srq) : Z := Z.shiftl (s_max s) (s_wqe_shift s).

(** Offsets of [next_wqe_index] and [signature], and of the scatter list. *)
Definition NEXT_OFF : Z := 2.
Definition SIG_OFF : Z := 4.
Definition SCAT_OFF : Z := 16.

Fixpoint srq_scat_loop (qend : Z) (m : sqmem) (max : nat) (scat : Z) (buf : list Z) (size : Z)
    (host : Z → Z) : res (Z * (Z → Z)) :=
  match max with
  | O => Ok (IBV_WC_LOC_LEN_ERR, host)
  | S max =>
      let! bc := ld qend scat 4 m in
      let! ad := ld qend (scat + 8) 8 m in
      let copy := s32 (Z.min (u32 size) (be_word bc)) in
      let host := hwrite host (be_word ad) (take (Z.to_nat copy) buf) in
      let size := size - copy in
      if size <=? 0 then Ok (IBV_WC_SUCCESS, host)
      else srq_scat_loop qend m max (scat + 16) (drop (Z.to_nat copy) buf) size host
  end.
Definition mlx5_copy_to_recv_srq (s : mlx5_srq) (idx : Z) (buf : list Z) (size : Z) (host : Z → Z)
    : res (Z * (Z → Z)) :=
  let max := Z.to_nat (Z.shiftl 1 (s_wqe_shift s - 4)) in
  srq_scat_loop (srq_end s) (s_buf s) max (get_wqe s idx + SCAT_OFF) buf size host.

Definition mlx5_free_srq_wqe (s : mlx5_srq) (ind : Z) : res mlx5_srq :=
  let! m := st (srq_end s) (get_wqe s (s_tail s) + NEXT_OFF) (be_bytes 2 ind) (s_buf s) in
  Ok (srq_set_tail (srq_set_buf s m) ind).

Definition srq_set_sig_seg (s : mlx5_srq) (next : Z) (size : Z) (idx : Z) : res mlx5_srq :=
  let! m := st (srq_end s) (next + SIG_OFF) [0] (s_buf s) in
  let! bs := ld (srq_end s) next (Z.to_nat size) m in
  let sign := calc_xor bs .^ calc_xor (le_bytes 4 (srqn s)) .^ calc_xor (le_bytes 2 (u16 idx)) in
  let! m := st (srq_end s) (next + SIG_OFF) [u8 (Z.lnot sign)] m in
  Ok (srq_set_buf s m).

Fixpoint srq_sges (qend scat : Z) (sgs : list ibv_sge) (m : sqmem) : res sqmem :=
  match sgs with
  | [] => Ok m
  | sg :: sgs =>
      let! m := st qend scat (data_seg_bytes (sge_length sg) (sge_lkey sg) (sge_addr sg)) m in
      srq_sges qend (scat + 16) sgs m
  end.

(** One request of the list; the first component is an error. *)
Definition srq_iter (nreq : Z) (wr : ibv_recv_wr) (s : mlx5_srq) : res (Z * mlx5_srq) :=
  let n := Z.of_nat (length (rwr_sges wr)) in
  if s_max_gs s <? n then Ok (EINVAL, s)
  else if s_head s =? s_tail s then Ok (ENOMEM, s)
  else
    let head := s_head s in
    let! ids := arr_set (s_wrid s) head (rwr_id wr) in
    let next := get_wqe s head in
    let! nx := ld (srq_end s) (next + NEXT_OFF) 2 (s_buf s) in
    let s := srq_set_head s (be_word nx) ids in
    let scat := next + SCAT_OFF in
    let! m := srq_sges (srq_end s) scat (rwr_sges wr) (s_buf s) in
    let! m := (if n <? s_max_gs s then st (srq_end s) (scat + 16 * n) end_seg m else Ok m) in
    let s := srq_set_buf s m in
    if s_wq_sig s then
      let! s := srq_set_sig_seg s next (Z.shiftl 1 (s_wqe_shift s)) (head + nreq) in Ok (0, s)
    else Ok (0, s).

Fixpoint srq_loop (nreq : Z) (wrs : list ibv_recv_wr) (s : mlx5_srq)
    : res (Z * list ibv_recv_wr * Z * mlx5_srq) :=
  match wrs with
  | [] => Ok (0, [], nreq, s)
  | wr :: rest =>
      let! (err, s) := srq_iter nreq wr s in
      if negb (err =? 0) then Ok (err, wr :: rest, nreq, s) else srq_loop (nreq + 1) rest s
  end.

Definition mlx5_post_srq_recv (s : mlx5_srq) (wrs : list ibv_recv_wr)
    : res (Z * list ibv_recv_wr * mlx5_srq * list dev_event) :=
  let! (err, bad, nreq, s) := srq_loop 0 wrs s in
  if negb (nreq =? 0) then
    let c := u16 (s_counter s + nreq) in
    Ok (err, bad, srq_set_counter s c (htonl c), [EvWmb; EvDbRec 0 c])
  else Ok (err, bad, s, []).

(** The links of a new queue. *)
Fixpoint srq_link_loop (n : nat) (i : Z) (s : mlx5_srq) : res mlx5_srq :=
  match n with
  | O => Ok s
  | S n =>
      let! m := st (srq_end s) (get_wqe s i + NEXT_OFF) (be_bytes 2 ((i + 1) .& (s_max s - 1))) (s_buf s) in
      srq_link_loop n (i + 1) (srq_set_buf s m)
  end.

(** The allocator's answers are arguments; the identifiers of a new queue are
    not initialised, [junk] is what the memory held. *)
Definition mlx5_alloc_srq_buf (ctx_max_recv_wr : Z) (malloc_ok alloc_ok : bool) (junk : list Z)
    (s : mlx5_srq) : res (Z * mlx5_srq) :=
  if s_max_gs s <? 0 then Ok (-1, s)
  else if negb malloc_ok then Ok (-1, s)
  else
    let size := s32 (16 + s_max_gs s * SZ_DATA) in
    let size := Z.max 32 size in
    let! size := mlx5_round_up_power_of_two size in
    if ctx_max_recv_wr <? size then Ok (-1, s)
    else
      let gs := s32 (u64 (size - 16) / SZ_DATA) in
      let! shift := mlx5_ilog2 size in
      let! buf_size := smul (s_max s) size in
      let s := Srq ∅ (take (Z.to_nat (s_max s)) junk) (srqn s) (s_max s) gs shift (s_head s) (s_tail s)
                 (s_counter s) (s_db s) (s_wq_sig s) in
      if negb alloc_ok then Ok (-1, s)
      else
        let! s := srq_link_loop (Z.to_nat (s_max s)) 0 s in
        Ok (0, srq_set_tail (srq_set_head s 0 (s_wrid s)) (s_max s - 1)).
