(* ===== verification/Mlx5SrqProof.v ===== *)
(** * libmlx5: a shared receive queue is a list of free entries and a queue

    [srq_inv s used q fl]: the device holds the entries [q], oldest first, and
    will follow the links into the free entries [fl]; the entries [used] hold
    requests that the device took from the queue and that have not been
    freed.  Entries are known by their indices. *)

From stdpp Require Import base gmap list numbers.
From Stdlib Require Import ZArith Lia.
From S2P Require Import Prelude Mlx5Base Mlx5Wqe Mlx5WqeProof Mlx5Encode Mlx5Send Mlx5SqProof Mlx5Recv Mlx5RecvProof Mlx5Size Mlx5SizeProof Mlx5Srq.

Record srq_ok (s : mlx5_srq) (k : Z) : Prop := SrqOk
  { sk_k : 1 ≤ k ≤ 16;
    sk_max : s_max s = 2 ^ k;
    sk_shift : 5 ≤ s_wqe_shift s < 16;
    sk_gs : 0 ≤ s_max_gs s ∧ 16 + 16 * s_max_gs s ≤ 2 ^ s_wqe_shift s;
    sk_ids : Z.of_nat (length (s_wrid s)) = s_max s;
    sk_sig : s_wq_sig s = false }.

(** What the device reads from an entry. *)
Definition next_of (s : mlx5_srq) (i : Z) : Z := be_word (mread_n (s_buf s) (get_wqe s i + NEXT_OFF) 2).
Definition scat_of (s : mlx5_srq) (i : Z) : list hca_data :=
  hca_scatter (Z.to_nat (s_max_gs s)) (mread_n (s_buf s) (get_wqe s i + SCAT_OFF) (Z.to_nat (16 * s_max_gs s))).

(** The device follows the links for [n] entries. *)
Fixpoint srq_walk (s : mlx5_srq) (n : nat) (i : Z) : list (Z * list hca_data) :=
  match n with
  | O => []
  | S n => (i, scat_of s i) :: srq_walk s n (next_of s i)
  end.

Definition linked (s : mlx5_srq) (l : list Z) : Prop :=
  ∀ l1 a b l2, l = l1 ++ a :: b :: l2 → next_of s a = b.

Definition holds (s : mlx5_srq) (e : Z * ibv_recv_wr) : Prop :=
  s_wrid s !! Z.to_nat e.1 = Some (rwr_id e.2) ∧ scat_of s e.1 = map hca_ptr (rwr_sges e.2).

Record srq_inv (s : mlx5_srq) (used q : list (Z * ibv_recv_wr)) (fl : list Z) : Prop := SrqInv
  { sv_nodup : NoDup (map fst q ++ fl ++ map fst used);
    sv_range : Forall (λ i, 0 ≤ i < s_max s) (map fst q ++ fl ++ map fst used);
    sv_head : hd_error fl = Some (s_head s);
    sv_tail : list.last fl = Some (s_tail s);
    sv_link : linked s (map fst q ++ fl);
    sv_holds : Forall (holds s) (q ++ used) }.

Definition srq_fits (s : mlx5_srq) (wr : ibv_recv_wr) : Prop :=
  Forall recv_sge (rwr_sges wr) ∧ Forall (λ sg, sge_length sg ≠ 0) (rwr_sges wr) ∧
  Z.of_nat (length (rwr_sges wr)) ≤ s_max_gs s.

Lemma live_all sgs : Forall (λ sg, sge_length sg ≠ 0) sgs → live_sges sgs = sgs.
Proof.
  intros H. induction sgs as [|sg sgs IH]; [done|]. rewrite live_sges_cons.
  pose proof (Forall_inv H) as Hne. rewrite (proj2 (Z.eqb_neq _ _)) by exact Hne. f_equal. apply IH.
  by apply Forall_inv_tail in H.
Qed.

Lemma srq_sges_st qend sgs : ∀ scat m,
  0 ≤ scat → scat + 16 * Z.of_nat (length sgs) ≤ qend →
  srq_sges qend scat sgs m = Ok (mwrite_n m scat (concat (map sge_bytes sgs))).
Proof.
  induction sgs as [|sg sgs IH]; intros scat m H0 H1; [done|]. cbn [srq_sges length map concat] in *.
  fold (sge_bytes sg). assert (Hl : length (sge_bytes sg) = 16%nat) by (unfold sge_bytes; apply length_data_seg_bytes).
  unfold st. rewrite Hl, (proj2 (Z.leb_le 0 _)), (proj2 (Z.leb_le _ qend)) by lia. cbn [andb in_bounds res_bind].
  rewrite IH by lia. by rewrite mwrite_n_app, Hl.
Qed.

Section Srq.
Variable k : Z.

Lemma srq_room s i :
  srq_ok s k → 0 ≤ i < s_max s →
  0 ≤ get_wqe s i ∧ get_wqe s i + 2 ^ s_wqe_shift s ≤ srq_end s.
Proof using.
  intros Hok Hi. unfold get_wqe, srq_end. pose proof (sk_shift _ _ Hok).
  rewrite !Z.shiftl_mul_pow2 by lia. assert (0 < 2 ^ s_wqe_shift s) by lia. nia.
Qed.

(** A write inside entry [j] at offset [off]. *)
Lemma read_other_entry s i j off bs o n :
  srq_ok s k → i ≠ j → 0 ≤ off → off + Z.of_nat (length bs) ≤ 2 ^ s_wqe_shift s →
  0 ≤ o → o + Z.of_nat n ≤ 2 ^ s_wqe_shift s →
  mread_n (mwrite_n (s_buf s) (get_wqe s j + off) bs) (get_wqe s i + o) n =
  mread_n (s_buf s) (get_wqe s i + o) n.
Proof using.
  intros Hok Hij H1 H2 H3 H4. pose proof (sk_shift _ _ Hok). apply mread_n_mwrite_out. unfold get_wqe.
  rewrite !Z.shiftl_mul_pow2 by lia. assert (0 < 2 ^ s_wqe_shift s) by lia.
  destruct (Z.lt_ge_cases i j); [left|right]; nia.
Qed.

Lemma next_of_write s i j off bs m' :
  srq_ok s k → m' = mwrite_n (s_buf s) (get_wqe s j + off) bs → 0 ≤ off →
  off + Z.of_nat (length bs) ≤ 2 ^ s_wqe_shift s → i ≠ j ∨ 4 ≤ off →
  next_of (srq_set_buf s m') i = next_of s i.
Proof using.
  intros Hok -> H0 H1 Hd. unfold next_of. cbn [s_buf srq_set_buf]. change (get_wqe (srq_set_buf s _)) with (get_wqe s).
  f_equal. unfold NEXT_OFF. pose proof (sk_shift _ _ Hok).
  assert (2 ^ 5 ≤ 2 ^ s_wqe_shift s) by (apply Z.pow_le_mono_r; lia).
  destruct (decide (i = j)) as [->|Hne]; [|by apply read_other_entry; try lia].
  apply mread_n_mwrite_out. lia.
Qed.

Lemma scat_of_write s i j off bs m' :
  srq_ok s k → m' = mwrite_n (s_buf s) (get_wqe s j + off) bs → 0 ≤ off →
  off + Z.of_nat (length bs) ≤ 2 ^ s_wqe_shift s → i ≠ j ∨ off + Z.of_nat (length bs) ≤ 16 →
  scat_of (srq_set_buf s m') i = scat_of s i.
Proof using.
  intros Hok -> H0 H1 Hd. unfold scat_of. cbn [s_buf s_max_gs srq_set_buf].
  change (get_wqe (srq_set_buf s _)) with (get_wqe s). f_equal. unfold SCAT_OFF. pose proof (sk_gs _ _ Hok).
  destruct (decide (i = j)) as [->|Hne]; [|by apply read_other_entry; try lia].
  apply mread_n_mwrite_out. lia.
Qed.

(** ** Posting *)
Definition srq_bytes (s : mlx5_srq) (wr : ibv_recv_wr) : list Z :=
  ptr_bytes (rwr_sges wr) ++
  (if Z.of_nat (length (rwr_sges wr)) <? s_max_gs s then end_seg else []).

Lemma length_srq_bytes s wr :
  srq_fits s wr → Z.of_nat (length (srq_bytes s wr)) ≤ 16 * s_max_gs s.
Proof using.
  intros (_ & Hnz & Hn). unfold srq_bytes. rewrite length_app, length_ptr_bytes, live_all by done.
  destruct (_ <? _) eqn:E; [apply Z.ltb_lt in E; change (length end_seg) with 16%nat; lia|cbn; lia].
Qed.

Definition srq_posted (s : mlx5_srq) (nx : Z) (wr : ibv_recv_wr) : mlx5_srq :=
  srq_set_buf (srq_set_head s nx (<[Z.to_nat (s_head s) := rwr_id wr]> (s_wrid s)))
    (mwrite_n (s_buf s) (get_wqe s (s_head s) + SCAT_OFF) (srq_bytes s wr)).

Lemma srq_iter_ok nreq wr s :
  srq_ok s k → 0 ≤ s_head s < s_max s → s_head s ≠ s_tail s → srq_fits s wr →
  srq_iter nreq wr s = Ok (0, srq_posted s (next_of s (s_head s)) wr) ∧
  srq_ok (srq_posted s (next_of s (s_head s)) wr) k ∧
  scat_of (srq_posted s (next_of s (s_head s)) wr) (s_head s) = map hca_ptr (rwr_sges wr).
Proof using.
  intros Hok Hh Hne Hwr. pose proof (srq_room s _ Hok Hh) as [Hr0 Hr1]. pose proof (sk_gs _ _ Hok) as Hgs.
  pose proof (length_srq_bytes s wr Hwr) as Hlb. pose proof Hwr as (Hsg & Hnz & Hn). split; [|split].
  - unfold srq_iter. rewrite (proj2 (Z.ltb_ge _ _)), (proj2 (Z.eqb_neq _ _)) by (done || lia).
    rewrite arr_set_Ok by (rewrite (sk_ids _ _ Hok); lia). cbn [res_bind].
    unfold ld at 1. unfold NEXT_OFF at 1 2. pose proof (sk_shift _ _ Hok).
    assert (2 ^ 5 ≤ 2 ^ s_wqe_shift s) by (apply Z.pow_le_mono_r; lia).
    rewrite (proj2 (Z.leb_le 0 _)), (proj2 (Z.leb_le _ _)) by lia. cbn [andb in_bounds res_bind].
    cbn [s_buf srq_set_head s_max_gs s_wq_sig srq_set_buf]. change (srq_end (srq_set_head s _ _)) with (srq_end s).
    unfold SCAT_OFF. rewrite srq_sges_st by lia. cbn [res_bind].
    assert (Em : ∀ m, (if Z.of_nat (length (rwr_sges wr)) <? s_max_gs s then
        st (srq_end s) (get_wqe s (s_head s) + 16 + 16 * Z.of_nat (length (rwr_sges wr))) end_seg
          (mwrite_n m (get_wqe s (s_head s) + 16) (concat (map sge_bytes (rwr_sges wr))))
      else Ok (mwrite_n m (get_wqe s (s_head s) + 16) (concat (map sge_bytes (rwr_sges wr))))) =
      Ok (mwrite_n m (get_wqe s (s_head s) + 16) (srq_bytes s wr))).
    { intros m. unfold srq_bytes. destruct (_ <? _) eqn:E.
      - apply Z.ltb_lt in E. unfold st. change (length end_seg) with 16%nat.
        rewrite (proj2 (Z.leb_le 0 _)), (proj2 (Z.leb_le _ _)) by lia. cbn [andb in_bounds res_bind].
        rewrite mwrite_n_app, length_ptr_bytes, live_all by done. unfold ptr_bytes. rewrite live_all by done.
        do 2 f_equal. lia.
      - rewrite app_nil_r. unfold ptr_bytes. by rewrite live_all by done. }
    rewrite Em. cbn [res_bind]. by rewrite (sk_sig _ _ Hok).
  - destruct Hok. split; try done. cbn. by rewrite length_insert.
  - unfold scat_of. cbn [s_buf srq_posted srq_set_buf s_max_gs srq_set_head].
    change (get_wqe (srq_posted _ _ _)) with (get_wqe s).
    replace (Z.to_nat (16 * s_max_gs s)) with
      (length (srq_bytes s wr) + (Z.to_nat (16 * s_max_gs s) - length (srq_bytes s wr)))%nat by lia.
    rewrite mread_n_app, mread_n_mwrite_eq. unfold srq_bytes at 1. rewrite <-(assoc_L (++)).
    rewrite hca_scatter_list; rewrite ?live_all by done; [done|done|lia|].
    destruct (_ <? _) eqn:E; [right; by eexists|]. apply Z.ltb_ge in E. left. lia.
Qed.

(** The scatter list and the identifier of other entries stay. *)
Lemma holds_posted s nx wr e :
  srq_ok s k → 0 ≤ s_head s → 0 ≤ e.1 → e.1 ≠ s_head s → srq_fits s wr →
  holds s e → holds (srq_posted s nx wr) e.
Proof using.
  intros Hok Hh He Hne Hwr [H1 H2]. pose proof (length_srq_bytes s wr Hwr). pose proof (sk_gs _ _ Hok). split.
  - cbn. rewrite list_lookup_insert_ne by lia. done.
  - rewrite <-H2. apply (scat_of_write s e.1 (s_head s) SCAT_OFF (srq_bytes s wr)); unfold SCAT_OFF; try done; lia.
Qed.

Lemma next_of_posted s nx wr i :
  srq_ok s k → srq_fits s wr → next_of (srq_posted s nx wr) i = next_of s i.
Proof using.
  intros Hok Hwr. pose proof (length_srq_bytes s wr Hwr). pose proof (sk_gs _ _ Hok).
  apply (next_of_write s i (s_head s) SCAT_OFF (srq_bytes s wr)); unfold SCAT_OFF; try done; lia.
Qed.

Lemma linked_ext s s' l : (∀ i, i ∈ l → next_of s' i = next_of s i) → linked s l → linked s' l.
Proof using.
  intros E H l1 a b l2 ->. rewrite E by set_solver. by eapply H.
Qed.

Lemma srq_post_inv nreq s used q f0 f1 fl wr :
  srq_ok s k → srq_inv s used q (f0 :: f1 :: fl) → srq_fits s wr →
  ∃ s', srq_iter nreq wr s = Ok (0, s') ∧ srq_ok s' k ∧ srq_inv s' used (q ++ [(f0, wr)]) (f1 :: fl) ∧
    s_counter s' = s_counter s ∧ s_db s' = s_db s ∧ s_max_gs s' = s_max_gs s.
Proof using.
  intros Hok [Hnd Hr Hh Ht Hlk Hho] Hwr. cbn in Hh. injection Hh as ->.
  set (f0 := s_head s) in *. change (list.last (f1 :: fl) = Some (s_tail s)) in Ht.
  rewrite list.Forall_forall in Hr. assert (Hhr : 0 ≤ f0 < s_max s) by (apply Hr; set_solver).
  assert (Hnext : next_of s f0 = f1) by (by apply (Hlk (map fst q) f0 f1 fl)).
  assert (Hnq : f0 ∉ map fst q ++ (f1 :: fl) ++ map fst used).
  { apply list.NoDup_app in Hnd as (_ & Hd & Hnd). cbn in Hnd. apply list.NoDup_cons in Hnd as [Hnd _].
    intros Hin. apply elem_of_app in Hin as [Hin|Hin]; [|set_solver]. apply (Hd f0 Hin). set_solver. }
  assert (Hne : f0 ≠ s_tail s).
  { intros E. rewrite <-E in Ht. apply list.last_Some_elem_of in Ht. set_solver. }
  destruct (srq_iter_ok nreq wr s Hok Hhr Hne Hwr) as (E1 & Hok' & Hsc). fold f0 in E1, Hok', Hsc.
  rewrite Hnext in *. eexists. split; [exact E1|]. split; [exact Hok'|]. split; [|done].
  assert (El : map fst (q ++ [(f0, wr)]) ++ f1 :: fl = map fst q ++ f0 :: f1 :: fl).
  { rewrite map_app. cbn [map fst]. by rewrite <-(assoc_L (++)). }
  split; try done.
  - by rewrite (assoc_L (++)), El, <-(assoc_L (++)).
  - rewrite (assoc_L (++)), El, <-(assoc_L (++)). by apply list.Forall_forall.
  - rewrite El. eapply linked_ext; [|exact Hlk]. intros i _. by apply next_of_posted.
  - apply list.Forall_forall. intros e He. rewrite list.Forall_forall in Hho.
    assert (He' : e = (f0, wr) ∨ e ∈ q ++ used) by set_solver. destruct He' as [->|He'].
    + split; [|exact Hsc]. cbn. apply list_lookup_insert_eq. pose proof (sk_ids _ _ Hok). lia.
    + assert (Hin : e.1 ∈ map fst q ++ (f1 :: fl) ++ map fst used).
      { rewrite !elem_of_app. apply elem_of_app in He' as [He'|He']; [left|right; right];
          apply list_elem_of_fmap; by exists e. }
      assert (0 ≤ e.1) by (apply Hr; set_solver).
      apply holds_posted; try done; [lia| |by apply Hho]. intros E. fold f0 in E. apply Hnq. by rewrite <-E.
Qed.

Lemma srq_iter_full nreq wr s used q f0 :
  srq_inv s used q [f0] → srq_fits s wr → srq_iter nreq wr s = Ok (ENOMEM, s).
Proof using.
  intros [_ _ Hh Ht _ _] (_ & _ & Hn). cbn in Hh, Ht. injection Hh as E1. injection Ht as E2. unfold srq_iter.
  rewrite (proj2 (Z.ltb_ge _ _)), (proj2 (Z.eqb_eq _ _)) by (done || congruence). done.
Qed.

Lemma srq_loop_spec wrs : ∀ nreq s used q fl,
  srq_ok s k → srq_inv s used q fl → Forall (srq_fits s) wrs →
  let n := Nat.min (length wrs) (length fl - 1) in
  ∃ s', srq_loop nreq wrs s =
      Ok (if bool_decide (n < length wrs)%nat then ENOMEM else 0, drop n wrs, nreq + Z.of_nat n, s') ∧
    srq_ok s' k ∧ srq_inv s' used (q ++ zip (take n fl) (take n wrs)) (drop n fl) ∧
    s_counter s' = s_counter s ∧ s_db s' = s_db s.
Proof using.
  induction wrs as [|wr wrs IH]; intros nreq s used q fl Hok Hinv Hw n.
  - exists s. change n with 0%nat. cbn [srq_loop take drop length zip]. change (drop 0 fl) with fl.
    rewrite bool_decide_eq_false_2, Z.add_0_r by lia. rewrite zip_with_nil_r, app_nil_r. done.
  - pose proof (Forall_inv Hw) as Hwr. apply Forall_inv_tail in Hw. cbn [srq_loop].
    destruct fl as [|f0 [|f1 fl]].
    { by pose proof (sv_head _ _ _ _ Hinv). }
    { change n with 0%nat. rewrite (srq_iter_full _ _ _ used q f0) by done. cbn [res_bind negb Z.eqb ENOMEM].
      exists s. rewrite bool_decide_eq_true_2, Z.add_0_r by (cbn; lia). cbn [take drop zip zip_with].
      rewrite app_nil_r. done. }
    destruct (srq_post_inv nreq s used q f0 f1 fl wr Hok Hinv Hwr) as (s1 & -> & Hok1 & Hinv1 & Hc & Hdb & Hg).
    cbn [res_bind negb Z.eqb].
    destruct (IH (nreq + 1) s1 used (q ++ [(f0, wr)]) (f1 :: fl) Hok1 Hinv1) as (s' & E & Hok' & Hinv' & Hc' & Hdb').
    { eapply Forall_impl; [|exact Hw]. intros w'. unfold srq_fits. by rewrite Hg. }
    set (n1 := Nat.min (length wrs) (length (f1 :: fl) - 1)) in *.
    assert (En : n = S n1) by (unfold n, n1; cbn [length]; lia). rewrite En.
    exists s'. rewrite E. cbn [take drop zip zip_with length] in *.
    rewrite <-(assoc_L (++)) in Hinv'. cbn [app] in Hinv'. split; [|split; [done|split; [done|split; congruence]]].
    do 3 f_equal; [|lia]. f_equal. by rewrite !bool_decide_decide; repeat case_decide; try lia.
Qed.

(** What the device sees. *)
Lemma srq_walk_spec s q : ∀ l,
  linked s (map fst q ++ l) → Forall (λ e, scat_of s e.1 = map hca_ptr (rwr_sges e.2)) q →
  ∀ i, hd_error (map fst q ++ l) = Some i →
  srq_walk s (length q) i = map (λ e, (e.1, map hca_ptr (rwr_sges e.2))) q.
Proof using.
  induction q as [|e q IH]; intros l Hlk Hho i Hi; [done|]. cbn in Hi. injection Hi as <-.
  cbn [length srq_walk map]. f_equal; [f_equal; exact (Forall_inv Hho)|].
  destruct q as [|e' q]; [done|].
  rewrite (Hlk [] e.1 e'.1 (map fst q ++ l) eq_refl). apply (IH l); [|by apply Forall_inv_tail in Hho|done].
  intros l1 a b l2 E. apply (Hlk (e.1 :: l1) a b l2). cbn in *. by rewrite E.
Qed.

Lemma post_srq_spec s used q fl wrs :
  srq_ok s k → srq_inv s used q fl → Forall (srq_fits s) wrs →
  let n := Nat.min (length wrs) (length fl - 1) in
  let q' := q ++ zip (take n fl) (take n wrs) in
  ∃ s' evs, mlx5_post_srq_recv s wrs =
      Ok (if bool_decide (n < length wrs)%nat then ENOMEM else 0, drop n wrs, s', evs) ∧
    srq_ok s' k ∧ srq_inv s' used q' (drop n fl) ∧
    (∀ i, hd_error (map fst q' ++ drop n fl) = Some i →
      srq_walk s' (length q') i = map (λ e, (e.1, map hca_ptr (rwr_sges e.2))) q') ∧
    (n ≠ 0%nat → s_counter s' = u16 (s_counter s + Z.of_nat n) ∧ s_db s' = htonl (s_counter s')) ∧
    (n = 0%nat → s_counter s' = s_counter s ∧ s_db s' = s_db s ∧ evs = []).
Proof using.
  intros Hok Hinv Hw n q'.
  destruct (srq_loop_spec wrs 0 s used q fl Hok Hinv Hw) as (s' & E & Hok' & Hinv' & Hc & Hdb). fold n q' in E, Hinv'.
  assert (Hwalk : ∀ s0, s_buf s0 = s_buf s' → s_max_gs s0 = s_max_gs s' → s_wqe_shift s0 = s_wqe_shift s' →
    ∀ i, hd_error (map fst q' ++ drop n fl) = Some i →
      srq_walk s0 (length q') i = map (λ e, (e.1, map hca_ptr (rwr_sges e.2))) q').
  { intros s0 B1 B2 B3. apply srq_walk_spec.
    - eapply linked_ext; [|apply (sv_link _ _ _ _ Hinv')]. intros i _. unfold next_of, get_wqe. by rewrite B1, B3.
    - pose proof (sv_holds _ _ _ _ Hinv') as Hho. apply list.Forall_app in Hho as [Hho _].
      eapply Forall_impl; [|exact Hho]. intros e [_ He]. rewrite <-He. unfold scat_of, get_wqe. by rewrite B1, B2, B3. }
  unfold mlx5_post_srq_recv. rewrite E. cbn [res_bind]. rewrite Z.add_0_l. clearbody n. destruct n as [|n].
  - cbn [negb Z.of_nat Z.eqb]. eexists _, _. split; [done|]. split; [done|]. split; [done|].
    split; [by apply Hwalk|]. split; [done|]. intros _. done.
  - rewrite (proj2 (Z.eqb_neq _ _)) by lia. cbn [negb]. eexists _, _. split; [reflexivity|].
    split; [destruct Hok'; by split|]. split; [destruct Hinv'; by split|].
    split; [by apply Hwalk|]. split; [|done]. intros _. cbn. by rewrite Hc.
Qed.

(** ** The device takes an entry, the driver frees one *)
Lemma srq_take s used q fl e : srq_inv s used (e :: q) fl → srq_inv s (e :: used) q fl.
Proof using.
  intros [Hnd Hr Hh Ht Hlk Hho].
  assert (P : map fst (e :: q) ++ fl ++ map fst used ≡ₚ map fst q ++ fl ++ map fst (e :: used)).
  { cbn [map]. rewrite (assoc_L (++)), (assoc_L (++)). cbn [app]. solve_Permutation. }
  split; try done.
  - by rewrite <-P.
  - by rewrite <-P.
  - intros l1 a b l2 E. apply (Hlk (e.1 :: l1) a b l2). cbn. by rewrite E.
  - by rewrite <-Permutation_middle.
Qed.

Lemma next_of_new s j x :
  0 ≤ x < 2 ^ 16 →
  next_of (srq_set_buf s (mwrite_n (s_buf s) (get_wqe s j + NEXT_OFF) (be_bytes 2 x))) j = x.
Proof using.
  intros Hx. unfold next_of. cbn [s_buf srq_set_buf]. change (get_wqe (srq_set_buf s _)) with (get_wqe s).
  change 2%nat with (length (be_bytes 2 x)) at 2. rewrite mread_n_mwrite_eq, be_word_bytes.
  change (2 ^ (8 * Z.of_nat 2)) with (2 ^ 16). apply Z.mod_small. lia.
Qed.

(** Writing the link of entry [j]. *)
Lemma set_next_ok s j x :
  srq_ok s k → 0 ≤ j < s_max s → 0 ≤ x < 2 ^ 16 →
  ∃ m, st (srq_end s) (get_wqe s j + NEXT_OFF) (be_bytes 2 x) (s_buf s) = Ok m ∧
    (∀ i, next_of (srq_set_buf s m) i = if decide (i = j) then x else next_of s i) ∧
    (∀ i, scat_of (srq_set_buf s m) i = scat_of s i).
Proof using.
  intros Hok Hj Hx. pose proof (srq_room s j Hok Hj). pose proof (sk_shift _ _ Hok).
  assert (2 ^ 5 ≤ 2 ^ s_wqe_shift s) by (apply Z.pow_le_mono_r; lia).
  unfold st. rewrite length_be_bytes. unfold NEXT_OFF at 1 2.
  rewrite (proj2 (Z.leb_le 0 _)), (proj2 (Z.leb_le _ (srq_end s))) by lia. cbn [andb in_bounds res_bind].
  eexists. split; [reflexivity|]. split; intros i.
  - case_decide as E; [subst; by apply next_of_new|].
    eapply (next_of_write s i j NEXT_OFF); try done; rewrite ?length_be_bytes; unfold NEXT_OFF; try lia.
  - eapply (scat_of_write s i j NEXT_OFF); try done; rewrite ?length_be_bytes; unfold NEXT_OFF; lia.
Qed.

Lemma linked_snoc s s' l t x :
  NoDup (l ++ [x]) → list.last l = Some t → next_of s' t = x → (∀ i, i ≠ t → next_of s' i = next_of s i) →
  linked s l → linked s' (l ++ [x]).
Proof using.
  intros Hnd Ht Hx Hs Hl l1 a b l2 E. apply last_Some in Ht as [l0 ->].
  destruct (list.last (b :: l2)) as [z|] eqn:El; [|by apply last_None in El].
  apply last_Some in El as [l3 El]. destruct l3 as [|b' l3].
  - injection El as -> ->.
    replace (l1 ++ [a; z]) with ((l1 ++ [a]) ++ [z]) in E by (by rewrite <-(assoc_L (++))).
    apply app_inj_tail in E as [E <-]. apply app_inj_tail in E as [_ <-]. done.
  - cbn in El. injection El as -> El. subst l2.
    replace (l1 ++ a :: b' :: l3 ++ [z]) with ((l1 ++ a :: b' :: l3) ++ [z]) in E
      by (by rewrite <-(assoc_L (++))).
    apply app_inj_tail in E as [E ->]. rewrite Hs; [by apply (Hl l1 a b' l3)|].
    intros ->. rewrite E in Hnd. apply list.NoDup_app in Hnd as (Hnd & _ & _).
    apply list.NoDup_app in Hnd as (_ & _ & Hnd). apply list.NoDup_cons in Hnd as [Hnd _]. apply Hnd.
    assert (Hlast : list.last (l0 ++ [t]) = list.last (b' :: l3)).
    { rewrite E, last_app, last_cons_cons. destruct (list.last (b' :: l3)) eqn:El; [done|by apply last_None in El]. }
    rewrite last_snoc in Hlast. by apply list.last_Some_elem_of.
Qed.

Lemma free_srq_spec s u1 e u2 q fl :
  srq_ok s k → srq_inv s (u1 ++ e :: u2) q fl →
  ∃ s', mlx5_free_srq_wqe s e.1 = Ok s' ∧ srq_ok s' k ∧ srq_inv s' (u1 ++ u2) q (fl ++ [e.1]).
Proof using.
  intros Hok [Hnd Hr Hh Ht Hlk Hho]. rewrite list.Forall_forall in Hr.
  assert (Het : 0 ≤ e.1 < s_max s) by (apply Hr; rewrite map_app; set_solver).
  assert (Htr : 0 ≤ s_tail s < s_max s).
  { apply Hr. apply list.last_Some_elem_of in Ht. set_solver. }
  pose proof (sk_k _ _ Hok). assert (s_max s ≤ 2 ^ 16) by (rewrite (sk_max _ _ Hok); apply Z.pow_le_mono_r; lia).
  destruct (set_next_ok s (s_tail s) e.1 Hok Htr ltac:(lia)) as (m & Em & Hn & Hs).
  unfold mlx5_free_srq_wqe. rewrite Em. cbn [res_bind]. eexists. split; [reflexivity|].
  split; [destruct Hok; by split|].
  assert (P : map fst q ++ fl ++ map fst (u1 ++ e :: u2) ≡ₚ map fst q ++ (fl ++ [e.1]) ++ map fst (u1 ++ u2)).
  { rewrite !map_app. cbn [map]. solve_Permutation. }
  split.
  - by rewrite <-P.
  - rewrite <-P. by apply list.Forall_forall.
  - cbn. destruct fl; [done|]. exact Hh.
  - apply last_snoc.
  - rewrite (assoc_L (++)). apply (linked_snoc s _ _ (s_tail s)); [| | | |done].
    + rewrite P in Hnd. rewrite !(assoc_L (++)) in Hnd. by apply list.NoDup_app in Hnd as [? _].
    + rewrite last_app, Ht. done.
    + etrans; [apply (Hn (s_tail s))|]. by rewrite decide_True.
    + intros i Hi. etrans; [apply (Hn i)|]. by rewrite decide_False.
  - apply list.Forall_forall. intros e' He'. rewrite list.Forall_forall in Hho.
    destruct (Hho e') as [H1 H2]; [set_solver|]. split; [exact H1|]. etrans; [apply (Hs e'.1)|done].
Qed.

(** ** A new queue *)
Lemma link_loop_spec n : ∀ i s,
  srq_ok s k → 0 ≤ i → i + Z.of_nat n = s_max s →
  ∃ m, srq_link_loop n i s = Ok (srq_set_buf s m) ∧
    ∀ j, next_of (srq_set_buf s m) j = if decide (i ≤ j < s_max s) then (j + 1) mod s_max s else next_of s j.
Proof using.
  induction n as [|n IH]; intros i s Hok Hi Hn.
  - exists (s_buf s). split; [by destruct s|]. intros j. rewrite decide_False by lia. done.
  - cbn [srq_link_loop]. pose proof (sk_k _ _ Hok).
    assert (Hland : (i + 1) .& (s_max s - 1) = (i + 1) mod s_max s).
    { rewrite (sk_max _ _ Hok). apply u64_land_mask. lia. }
    assert (Hmax : 0 < s_max s ≤ 2 ^ 16).
    { rewrite (sk_max _ _ Hok). split; [lia|]. apply Z.pow_le_mono_r; lia. }
    pose proof (Z.mod_pos_bound (i + 1) (s_max s) ltac:(lia)). rewrite Hland.
    destruct (set_next_ok s i ((i + 1) mod s_max s) Hok) as (m & Em & Hnx & _); [lia..|].
    rewrite Em. cbn [res_bind].
    destruct (IH (i + 1) (srq_set_buf s m)) as (m' & E & Hj); [destruct Hok; by split|lia|cbn; lia|].
    exists m'. split; [rewrite E; done|]. intros j. change (srq_set_buf s m') with (srq_set_buf (srq_set_buf s m) m').
    rewrite Hj, Hnx. cbn [s_max srq_set_buf]. repeat case_decide; try lia; subst; done.
Qed.

Lemma seqZ_linked s n :
  (∀ j, 0 ≤ j → j + 1 < n → next_of s j = j + 1) → linked s (seqZ 0 n).
Proof using.
  intros H l1 a b l2 E.
  assert (Ha : seqZ 0 n !! length l1 = Some a) by (rewrite E, lookup_app_r, Nat.sub_diag by lia; done).
  assert (Hb : seqZ 0 n !! S (length l1) = Some b).
  { rewrite E, lookup_app_r by lia. by replace (S (length l1) - length l1)%nat with 1%nat by lia. }
  apply lookup_seqZ in Ha as [-> _]. apply lookup_seqZ in Hb as [-> ?]. rewrite H by lia. lia.
Qed.

Lemma seqZ_ends n : 0 < n → hd_error (seqZ 0 n) = Some 0 ∧ list.last (seqZ 0 n) = Some (n - 1).
Proof using.
  intros Hn. split.
  - rewrite seqZ_cons by lia. done.
  - rewrite last_lookup, length_seqZ. apply lookup_seqZ. lia.
Qed.

Lemma alloc_srq_spec lim junk s :
  1 ≤ k ≤ 16 → s_max s = 2 ^ k → 0 ≤ s_max_gs s ≤ 1000 → s_wq_sig s = false →
  s_max s ≤ Z.of_nat (length junk) →
  (mlx5_alloc_srq_buf lim true true junk s = Ok (-1, s) ∧ lim < 2 ^ Z.log2_up (Z.max 32 (16 + 16 * s_max_gs s))) ∨
  (∃ s', mlx5_alloc_srq_buf lim true true junk s = Ok (0, s') ∧ srq_ok s' k ∧
     srq_inv s' [] [] (seqZ 0 (s_max s)) ∧ s_max_gs s ≤ s_max_gs s' ∧ s_max s' = s_max s).
Proof using.
  intros Hk Hmax Hgs Hsig Hj. unfold mlx5_alloc_srq_buf. rewrite (proj2 (Z.ltb_ge _ _)) by lia. cbn [negb].
  unfold SZ_DATA. rewrite s32_small, (Z.mul_comm _ 16) by lia. set (need := Z.max 32 _).
  assert (Hneed : 32 ≤ need ≤ 2 ^ 14 ∧ 16 + 16 * s_max_gs s ≤ need) by (unfold need; lia). clearbody need.
  rewrite round_up_spec by lia. cbn [res_bind]. set (sh := Z.log2_up need).
  assert (Hsh : 5 ≤ sh ≤ 14).
  { unfold sh. split; [change 5 with (Z.log2_up 32); apply Z.log2_up_le_mono; lia|apply log2_up_least; lia]. }
  assert (Hc : need ≤ 2 ^ sh) by (apply log2_up_least; lia). clearbody sh.
  assert (Hp : 2 ^ sh = 16 * 2 ^ (sh - 4)).
  { change 16 with (2 ^ 4). rewrite <-Z.pow_add_r by lia. f_equal. lia. }
  assert (2 ^ sh ≤ 2 ^ 14 ∧ 2 ^ k ≤ 2 ^ 16) by (split; apply Z.pow_le_mono_r; lia).
  destruct (lim <? 2 ^ sh) eqn:El; [left; split; [done|lia]|]. right.
  rewrite mlx5_ilog2_spec, Z.log2_up_pow2 by lia. cbn [res_bind].
  unfold smul. rewrite (proj2 (Z.leb_le _ _)), (proj2 (Z.ltb_lt _ _)) by nia. cbn [andb res_bind negb].
  rewrite (u64_small (2 ^ sh - 16)) by lia.
  replace (2 ^ sh - 16) with ((2 ^ (sh - 4) - 1) * 16) by lia. rewrite Z.div_mul, s32_small by lia.
  set (s1 := Srq _ _ _ _ _ _ _ _ _ _ _). assert (Hok1 : srq_ok s1 k).
  { split; cbn; try done; try lia. rewrite length_take. lia. }
  destruct (link_loop_spec (Z.to_nat (s_max s)) 0 s1 Hok1) as (m & E & Hnx); [lia|cbn; lia|].
  change (s_max s1) with (s_max s). rewrite E. cbn [res_bind]. set (s2 := srq_set_buf s1 m) in *.
  eexists. split; [reflexivity|]. split; [destruct Hok1; by split|].
  assert (0 < s_max s) by lia. pose proof (seqZ_ends (s_max s) ltac:(lia)) as [Hh Hl].
  split; [|cbn; lia]. split; cbn [map app]; rewrite ?app_nil_r; try done.
  - apply NoDup_seqZ.
  - apply list.Forall_forall. intros x Hx. by apply elem_of_seqZ in Hx.
  - apply seqZ_linked. intros j H1 H2. etrans; [apply (Hnx j)|].
    change (s_max s1) with (s_max s). rewrite decide_True by lia. apply Z.mod_small. lia.
Qed.
End Srq.

(** ** Data delivered in a completion *)

(** The loop is the one of ordinary receive queues where the lists agree. *)
Lemma srq_scat_loop_spec qend m n : ∀ N max scat data host,
  let ps := hca_scatter n (mread_n m scat N) in
  (16 * n ≤ N)%nat → (n ≤ max)%nat → Forall (λ p, 0 < ptr_len p) ps →
  0 < Z.of_nat (length data) ≤ room ps → Z.of_nat (length data) < 2 ^ 31 → 0 ≤ scat → scat + Z.of_nat N ≤ qend →
  srq_scat_loop qend m max scat data (Z.of_nat (length data)) host =
  Ok (IBV_WC_SUCCESS, scatter ps data host).
Proof.
  induction n as [|n IH]; intros N max scat data host ps HN Hmax Hps Hd Hd31 Hs He; [cbn in *; lia|].
  destruct max as [|max]; [lia|]. unfold ps in *. cbn [hca_scatter srq_scat_loop] in *. clear ps.
  rewrite !drop_mread_n, !take_mread_n in * by lia.
  destruct (_ =? MLX5_INVALID_LKEY); [cbn in *; lia|].
  unfold ld. rewrite !(proj2 (Z.leb_le 0 _)), !(proj2 (Z.leb_le _ qend)) by lia.
  cbn [andb in_bounds res_bind]. change (scat + Z.of_nat 8) with (scat + 8) in *.
  change (scat + Z.of_nat 16) with (scat + 16) in *.
  set (len := be_word (mread_n m scat 4)) in *. set (addr := be_word (mread_n m (scat + 8) 8)) in *.
  set (key := be_word (mread_n m (scat + Z.of_nat 4) 4)) in *.
  pose proof (Forall_inv Hps) as Hlen. cbn [ptr_len] in Hlen. apply Forall_inv_tail in Hps.
  cbn [room foldr ptr_len] in Hd. fold (room (hca_scatter n (mread_n m (scat + 16) (N - 16)))) in Hd.
  assert (Esc : ∀ ps, scatter (HPtr len key addr :: ps) data host =
    scatter ps (drop (Z.to_nat len) data) (hwrite host addr (take (Z.to_nat len) data))).
  { destruct data; [cbn in Hd; lia|done]. }
  rewrite Esc, u32_small, s32_small by lia. destruct (Z.le_gt_cases (Z.of_nat (length data)) len) as [Hle|Hgt].
  - rewrite Z.min_l, Z.sub_diag, Nat2Z.id, !(take_ge data) by lia. cbn [Z.leb Z.compare].
    rewrite (drop_ge data (Z.to_nat len)) by lia. by destruct (hca_scatter n _).
  - rewrite Z.min_r, (proj2 (Z.leb_gt _ _)) by lia.
    replace (Z.of_nat (length data) - len) with (Z.of_nat (length (drop (Z.to_nat len) data)))
      by (rewrite length_drop; lia).
    apply IH; rewrite ?length_drop; try lia; done.
Qed.

Lemma copy_to_recv_srq_spec k s i wr data host :
  srq_ok s k → 0 ≤ i < s_max s → holds s (i, wr) → Forall plain_sge (rwr_sges wr) →
  Forall (λ sg, sge_length sg ≠ 0) (rwr_sges wr) →
  0 < Z.of_nat (length data) ≤ foldr (λ sg n, sge_length sg + n) 0 (rwr_sges wr) →
  Z.of_nat (length data) < 2 ^ 31 →
  mlx5_copy_to_recv_srq s i data (Z.of_nat (length data)) host =
  Ok (IBV_WC_SUCCESS, scatter (map hca_ptr (rwr_sges wr)) data host).
Proof.
  intros Hok Hi [_ Hsc] Hsg Hnz Hd H31. cbn [fst snd] in Hsc. unfold mlx5_copy_to_recv_srq.
  pose proof (sk_shift _ _ Hok). pose proof (sk_gs _ _ Hok) as Hgs. pose proof (srq_room k s i Hok Hi) as [Hr0 Hr1].
  assert (Hp : 2 ^ s_wqe_shift s = 16 * 2 ^ (s_wqe_shift s - 4)).
  { change 16 with (2 ^ 4). rewrite <-Z.pow_add_r by lia. f_equal. lia. }
  unfold scat_of in Hsc. rewrite (srq_scat_loop_spec _ _ (Z.to_nat (s_max_gs s)) (Z.to_nat (16 * s_max_gs s)));
    rewrite ?Hsc; unfold SCAT_OFF; try lia; [done| | |].
  - rewrite Z.shiftl_mul_pow2 by lia. lia.
  - apply Forall_forall. intros p Hp'. apply list_elem_of_In, list_elem_of_fmap in Hp' as (sg & -> & Hin).
    rewrite Forall_forall in Hsg, Hnz. apply list_elem_of_In in Hin.
    pose proof (Hnz _ Hin). apply Hsg in Hin as (_ & Hl & _). cbn. lia.
  - rewrite <-(live_all (rwr_sges wr)), room_live by done. lia.
Qed.
