(* ===== verification/Mlx5Cq.v ===== *)
(** * libmlx5: completion queues
    (src/drivers/libmlx5-1.0.2mlnx1/src: cq.c, mlx5.h)

    The device writes completion entries into a ring; a bit of an entry that
    changes with every turn of the ring tells the driver whether the entry
    is new.  Runs of entries may arrive compressed, as a title and an array
    of short entries, and are expanded in place. *)

From stdpp Require Import base gmap list numbers.
From Stdlib Require Import ZArith Lia.
From S2P Require Import Prelude Mlx5Base Mlx5Wqe Mlx5Send Mlx5Srq.

(** The fields for the pauses between polls. *)
Record cq_stall : Type := Stall
  { stall_next_poll : bool;
    stall_enable : bool;
    stall_last_count : Z;
    stall_adaptive_enable : bool;
    stall_cycles : Z }.

(** An entry is a list of bytes; entries of 128 bytes have their fields in
    the second half. *)
Record mlx5_cq : Type := Cq
  { c_slots : list (list Z);
    ibv_cqe : Z;
    cons_index : Z;
    cqe_sz : Z;
    cq_log_size : Z;
    dbrec : list Z;
    arm_sn : Z;
    cqn : Z;
    resize_slots : list (list Z);
    resize_cqes : Z;
    active_cqes : Z;
    resize_cqe_sz : Z;
    c_stall : cq_stall }.

Definition cq_set_slots (c : mlx5_cq) (s : list (list Z)) : mlx5_cq :=
  Cq s (ibv_cqe c) (cons_index c) (cqe_sz c) (cq_log_size c) (dbrec c) (arm_sn c) (cqn c)
    (resize_slots c) (resize_cqes c) (active_cqes c) (resize_cqe_sz c) (c_stall c).
Definition cq_set_cons (c : mlx5_cq) (i : Z) : mlx5_cq :=
  Cq (c_slots c) (ibv_cqe c) i (cqe_sz c) (cq_log_size c) (dbrec c) (arm_sn c) (cqn c)
    (resize_slots c) (resize_cqes c) (active_cqes c) (resize_cqe_sz c) (c_stall c).
Definition cq_set_dbrec (c : mlx5_cq) (d : list Z) : mlx5_cq :=
  Cq (c_slots c) (ibv_cqe c) (cons_index c) (cqe_sz c) (cq_log_size c) d (arm_sn c) (cqn c)
    (resize_slots c) (resize_cqes c) (active_cqes c) (resize_cqe_sz c) (c_stall c).
Definition cq_set_resize (c : mlx5_cq) (s : list (list Z)) : mlx5_cq :=
  Cq (c_slots c) (ibv_cqe c) (cons_index c) (cqe_sz c) (cq_log_size c) (dbrec c) (arm_sn c) (cqn c)
    s (resize_cqes c) (active_cqes c) (resize_cqe_sz c) (c_stall c).

Definition cq_set_stall (c : mlx5_cq) (s : cq_stall) : mlx5_cq :=
  Cq (c_slots c) (ibv_cqe c) (cons_index c) (cqe_sz c) (cq_log_size c) (dbrec c) (arm_sn c) (cqn c)
    (resize_slots c) (resize_cqes c) (active_cqes c) (resize_cqe_sz c) s.

(** ** Fields of an entry *)
Definition fld (off n : nat) (c : list Z) : Z := be_word (take n (drop off c)).
Definition set_fld (off : nat) (bs : list Z) (c : list Z) : list Z :=
  take off c ++ bs ++ drop (off + length bs) c.

Definition cqe_flags_rqpn (c : list Z) : Z := fld 24 4 c.
Definition cqe_srqn_uidx (c : list Z) : Z := fld 32 4 c.
Definition cqe_imm_inval_pkey (c : list Z) : Z := fld 36 4 c.
Definition cqe_byte_cnt (c : list Z) : Z := fld 44 4 c.
Definition cqe_timestamp (c : list Z) : Z := fld 48 8 c.
Definition cqe_sop_drop_qpn (c : list Z) : Z := fld 56 4 c.
Definition cqe_wqe_counter (c : list Z) : Z := fld 60 2 c.
Definition cqe_op_own (c : list Z) : Z := default 0 (c !! 63%nat).

Definition MLX5_CQE_OWNER_MASK : Z := 1.
Definition MLX5_CQE_REQ : Z := 0.
Definition MLX5_CQE_RESP_WR_IMM : Z := 1.
Definition MLX5_CQE_RESP_SEND : Z := 2.
Definition MLX5_CQE_RESP_SEND_IMM : Z := 3.
Definition MLX5_CQE_RESP_SEND_INV : Z := 4.
Definition MLX5_CQE_RESIZE_CQ : Z := 5.
Definition MLX5_CQE_REQ_ERR : Z := 13.
Definition MLX5_CQE_RESP_ERR : Z := 14.
Definition MLX5_CQE_INVALID : Z := 15.

Definition MLX5_INLINE_DATA32_SEG : Z := 1.
Definition MLX5_INLINE_DATA64_SEG : Z := 2.
Definition MLX5_COMPRESSED : Z := 3.

Definition mlx5_get_cqe_format (c : list Z) : Z := (cqe_op_own c .& 0xc) .>> 2.
Definition get_cqe_l3_hdr_type (c : list Z) : Z := (default 0 (c !! 29%nat) .>> 2) .& 0x3.

Definition cqe64_of (sz : Z) (slot : list Z) : list Z := if sz =? 64 then slot else drop 64 slot.

Definition get_cqe (c : mlx5_cq) (n : Z) : res (list Z) := arr_get (c_slots c) n.

(** The entry is new: valid, and its bit is the one of this turn. *)
Definition sw_owned (own n mask : Z) : bool :=
  negb (own .>> 4 =? MLX5_CQE_INVALID) &&
  negb (xorb (negb (own .& MLX5_CQE_OWNER_MASK =? 0)) (negb (n .& (mask + 1) =? 0))).

Definition get_sw_cqe (c : mlx5_cq) (n : Z) : res (option (list Z)) :=
  let! cqe := get_cqe c (n .& ibv_cqe c) in
  Ok (if sw_owned (cqe_op_own (cqe64_of (cqe_sz c) cqe)) n (ibv_cqe c) then Some cqe else None).

(** [get_next_cqe] returns the 64-byte part; the slot comes with it here. *)
Definition get_next_cqe (c : mlx5_cq) : res (option (list Z)) :=
  let idx := cons_index c .& ibv_cqe c in
  let! cqe := get_cqe c idx in
  Ok (if sw_owned (cqe_op_own (cqe64_of (cqe_sz c) cqe)) (cons_index c) (ibv_cqe c)
      then Some cqe else None).
Definition next_cqe_sw (c : mlx5_cq) : res (option (list Z)) := get_next_cqe c.

Definition is_requestor (opcode : Z) : bool :=
  (opcode =? MLX5_CQE_REQ) || (opcode =? MLX5_CQE_REQ_ERR).
Definition is_responder (opcode : Z) : bool :=
  (opcode =? MLX5_CQE_RESP_WR_IMM) || (opcode =? MLX5_CQE_RESP_SEND) ||
  (opcode =? MLX5_CQE_RESP_SEND_IMM) || (opcode =? MLX5_CQE_RESP_SEND_INV) ||
  (opcode =? MLX5_CQE_RESP_ERR).

Definition MLX5_CQ_SET_CI : Z := 0.
Definition MLX5_CQ_ARM_DB : Z := 1.

Definition mlx5_update_cons_index (c : mlx5_cq) : res mlx5_cq :=
  let! d := arr_set (dbrec c) MLX5_CQ_SET_CI (htonl (cons_index c .& 0xffffff)) in
  Ok (cq_set_dbrec c d).

(** ** Compressed entries *)

(** Entry [i] of a mini array. *)
Definition mini_at (mini : list Z) (i : nat) : list Z := take 8 (drop (8 * i) mini).

(** One round of [copy_cqes]: the title is read from its slot, which may be
    the slot that is written. *)
Definition copy_cqe (mp_rq is_req : bool) (opown : Z) (tidx : Z) (c : mlx5_cq) (mini : list Z) (wqe_cnt n : Z)
    : res (mlx5_cq * Z) :=
  let slot := n .& ibv_cqe c in
  let! title := get_cqe c tidx in
  let! old := get_cqe c slot in
  let e := take 64 title in
  let e := set_fld 44 (take 4 (drop 4 mini)) e in
  let e := set_fld 63 [opown .| ((n .>> cq_log_size c) .& 1)] e in
  let e := if is_req : bool then set_fld 56 (take 1 (drop 2 mini)) (set_fld 60 (take 2 mini) e)
           else set_fld 60 (be_bytes 2 wqe_cnt) (set_fld 12 (take 4 mini) e) in
  let wqe_cnt := if is_req then wqe_cnt
                 else if mp_rq : bool then
                   u16 (wqe_cnt + ((be_word (take 4 (drop 4 mini)) .& 0x7FFF0000) .>> 16))
                 else u16 (wqe_cnt + 1) in
  let! s := arr_set (c_slots c) slot (e ++ drop 64 old) in
  Ok (cq_set_slots c s, wqe_cnt).

Fixpoint copy_cqes_loop (mp_rq is_req : bool) (opown tidx : Z) (cnt : nat) (i : nat)
    (c : mlx5_cq) (mini : list Z) (wqe_cnt cqe_idx : Z) : res (mlx5_cq * Z) :=
  match cnt with
  | O => Ok (c, wqe_cnt)
  | S cnt =>
      let! (c, wqe_cnt) := copy_cqe mp_rq is_req opown tidx c (mini_at mini i) wqe_cnt (cqe_idx + Z.of_nat i) in
      copy_cqes_loop mp_rq is_req opown tidx cnt (S i) c mini wqe_cnt cqe_idx
  end.

Definition copy_cqes (mp_rq : bool) (tidx : Z) (c : mlx5_cq) (mini : list Z) (cnt : nat)
    (wqe_cnt cqe_idx : Z) : res (mlx5_cq * Z) :=
  let! title := get_cqe c tidx in
  let is_req := is_requestor (cqe_op_own title .>> 4) in
  let opown := cqe_op_own title .& 0xf2 in
  copy_cqes_loop mp_rq is_req opown tidx cnt 0 c mini wqe_cnt cqe_idx.

(** [mp_rq]: the resource of the title is a multi-packet receive queue. *)
Fixpoint decompress_loop (mp_rq : bool) (tidx : Z) (fuel : nat) (c : mlx5_cq) (mini : list Z)
    (cqe_cnt wqe_cnt cqe_idx : Z) : res mlx5_cq :=
  match fuel with
  | O => Fault Stuck
  | S fuel =>
      if 7 <? cqe_cnt then
        let! (c, wqe_cnt) := copy_cqes mp_rq tidx c mini 8 wqe_cnt cqe_idx in
        let! cqe := get_cqe c (u32 (cqe_idx + 8) .& ibv_cqe c) in
        decompress_loop mp_rq tidx fuel c (take 64 cqe) (cqe_cnt - 8) wqe_cnt (u32 (cqe_idx + 8))
      else
        let! (c, _) := copy_cqes mp_rq tidx c mini (Z.to_nat cqe_cnt) wqe_cnt cqe_idx in
        Ok c
  end.

Definition mlx5_decompress_cqe_idx (mp_rq : list Z → res bool) (c : mlx5_cq) (cqe_idx : Z) : res mlx5_cq :=
  let tidx := cqe_idx .& ibv_cqe c in
  let! title := get_cqe c tidx in
  let! m := get_cqe c (u32 (cqe_idx + 1) .& ibv_cqe c) in
  let cqe_cnt := s32 (cqe_byte_cnt title) in
  let wqe_cnt := cqe_wqe_counter title in
  let! mp := mp_rq title in
  decompress_loop mp tidx (Z.to_nat (cqe_cnt / 8 + 1)) c (take 64 m) cqe_cnt wqe_cnt cqe_idx.

Definition mlx5_decompress_cqe (mp_rq : list Z → res bool) (c : mlx5_cq) : res mlx5_cq :=
  mlx5_decompress_cqe_idx mp_rq c (cons_index c).

(** ** Requests for events *)
Definition MLX5_CQ_DB_REQ_NOT_SOL : Z := Z.shiftl 1 24.
Definition MLX5_CQ_DB_REQ_NOT : Z := 0.

Inductive cq_event : Type :=
| CqDbRec (i v : Z)
| CqWmb
| CqWcWmb
| CqDoorbell (w0 w1 : Z).

Definition mlx5_arm_cq (c : mlx5_cq) (solicited : bool) : res (mlx5_cq * list cq_event) :=
  let sn := u32 (arm_sn c .& 3) in
  let ci := cons_index c .& 0xffffff in
  let cmd := if solicited then MLX5_CQ_DB_REQ_NOT_SOL else MLX5_CQ_DB_REQ_NOT in
  let w := u32 (Z.shiftl sn 28) .| cmd .| ci in
  let! d := arr_set (dbrec c) MLX5_CQ_ARM_DB (htonl w) in
  Ok (cq_set_dbrec c d, [CqDbRec MLX5_CQ_ARM_DB w; CqWmb; CqDoorbell w (cqn c); CqWcWmb]).

Definition mlx5_cq_event (c : mlx5_cq) : mlx5_cq :=
  Cq (c_slots c) (ibv_cqe c) (cons_index c) (cqe_sz c) (cq_log_size c) (dbrec c) (s32 (arm_sn c + 1)) (cqn c)
    (resize_slots c) (resize_cqes c) (active_cqes c) (resize_cqe_sz c) (c_stall c).

(** ** Removing the entries of a queue *)
Definition is_equal_rsn (c : list Z) (rsn : Z) : bool := rsn =? cqe_sop_drop_qpn c .& 0xffffff.
Definition is_equal_uidx (c : list Z) (uidx : Z) : bool := uidx =? cqe_srqn_uidx c .& 0xffffff.

Definition free_res_cqe (cqe : list Z) (rsn_uidx : Z) (srq : option mlx5_srq) (cqe_version : Z)
    : res (bool * option mlx5_srq) :=
  let free b := match srq with
                | Some s => if b : bool then let! s := mlx5_free_srq_wqe s (cqe_wqe_counter cqe) in Ok (true, Some s)
                            else Ok (true, Some s)
                | None => Ok (true, None)
                end in
  if negb (cqe_version =? 0) then
    if is_equal_uidx cqe rsn_uidx then free (is_responder (cqe_op_own cqe .>> 4)) else Ok (false, srq)
  else
    if is_equal_rsn cqe rsn_uidx then free (negb (cqe_srqn_uidx cqe .& 0xffffff =? 0)) else Ok (false, srq).

(** The producer index; [fuel] bounds the entries of the ring. *)
Fixpoint clean_find (mp_rq : list Z → res bool) (fuel : nat) (c : mlx5_cq) (prod : Z) : res (mlx5_cq * Z) :=
  match fuel with
  | O => Fault Stuck
  | S fuel =>
      let! r := get_sw_cqe c prod in
      match r with
      | None => Ok (c, prod)
      | Some cqe =>
          let! c := (if mlx5_get_cqe_format cqe =? MLX5_COMPRESSED
                     then mlx5_decompress_cqe_idx mp_rq c prod else Ok c) in
          if prod =? u32 (cons_index c + ibv_cqe c) then Ok (c, prod)
          else clean_find mp_rq fuel c (u32 (prod + 1))
      end
  end.

(** The sweep; [nfreed] entries were removed. *)
Fixpoint clean_sweep (fuel : nat) (c : mlx5_cq) (prod nfreed rsn_uidx : Z) (srq : option mlx5_srq)
    (cqe_version : Z) : res (mlx5_cq * Z * option mlx5_srq) :=
  match fuel with
  | O => Fault Stuck
  | S fuel =>
      let prod := u32 (prod - 1) in
      if s32 (prod - cons_index c) <? 0 then Ok (c, nfreed, srq)
      else
        let! cqe := get_cqe c (prod .& ibv_cqe c) in
        let! (mine, srq) := free_res_cqe (cqe64_of (cqe_sz c) cqe) rsn_uidx srq cqe_version in
        if mine : bool then clean_sweep fuel c prod (nfreed + 1) rsn_uidx srq cqe_version
        else if negb (nfreed =? 0) then
          let di := u32 (prod + nfreed) .& ibv_cqe c in
          let! dest := get_cqe c di in
          let owner_bit := cqe_op_own (cqe64_of (cqe_sz c) dest) .& MLX5_CQE_OWNER_MASK in
          let own := owner_bit .| (cqe_op_own (cqe64_of (cqe_sz c) cqe) .& 0xfe) in
          let off := if cqe_sz c =? 64 then 63%nat else 127%nat in
          let! s := arr_set (c_slots c) di (set_fld off [own] cqe) in
          clean_sweep fuel (cq_set_slots c s) prod nfreed rsn_uidx srq cqe_version
        else clean_sweep fuel c prod nfreed rsn_uidx srq cqe_version
  end.

Definition __mlx5_cq_clean (mp_rq : list Z → res bool) (c : mlx5_cq) (rsn_uidx : Z) (srq : option mlx5_srq)
    (cqe_version : Z) : res (mlx5_cq * option mlx5_srq) :=
  let fuel := Z.to_nat (ibv_cqe c + 2) in
  let! (c, prod) := clean_find mp_rq fuel c (cons_index c) in
  let! (c, nfreed, srq) := clean_sweep fuel c prod 0 rsn_uidx srq cqe_version in
  if negb (nfreed =? 0) then
    let! c := mlx5_update_cons_index (cq_set_cons c (u32 (cons_index c + nfreed))) in
    Ok (c, srq)
  else Ok (c, srq).

(** ** Resizing *)
Definition sw_ownership_bit (n nent : Z) : Z := if n .& nent =? 0 then 0 else 1.
Definition is_hw (own n mask : Z) : bool :=
  xorb (negb (own .& MLX5_CQE_OWNER_MASK =? 0)) (negb (n .& (mask + 1) =? 0)).

(** The loop ends at the entry that marks the resize, or gives up; the
    result says which. *)
Fixpoint resize_loop (fuel : nat) (c : mlx5_cq) (start i : Z) : res (mlx5_cq * bool) :=
  match fuel with
  | O => Fault Stuck
  | S fuel =>
      let! scqe := arr_get (c_slots c) (i .& active_cqes c) in
      let own := cqe_op_own (cqe64_of (cqe_sz c) scqe) in
      if own .>> 4 =? MLX5_CQE_RESIZE_CQ then Ok (c, true)
      else
        let di := s32 (i + 1) .& (resize_cqes c - 1) in
        let sw_own := sw_ownership_bit (s32 (i + 1)) (resize_cqes c) in
        let! dcqe := arr_get (resize_slots c) di in
        in_bounds (cqe_sz c <=? resize_cqe_sz c) ;!
        let d := scqe ++ drop (Z.to_nat (cqe_sz c)) dcqe in
        let off := if resize_cqe_sz c =? 64 then 63%nat else 127%nat in
        let d := set_fld off [(default 0 (d !! off) .& 0xfe) .| sw_own] d in
        let! s := arr_set (resize_slots c) di d in
        let c := cq_set_resize c s in
        let i := s32 (i + 1) in
        let! scqe := arr_get (c_slots c) (i .& active_cqes c) in
        if is_hw (cqe_op_own (cqe64_of (cqe_sz c) scqe)) i (active_cqes c) then Ok (c, false)
        else if i .& active_cqes c =? start then Ok (c, false)
        else resize_loop fuel c start i
  end.

Definition mlx5_cq_resize_copy_cqes (c : mlx5_cq) : res mlx5_cq :=
  let i := s32 (cons_index c) in
  let start := i .& active_cqes c in
  let! scqe := arr_get (c_slots c) start in
  if is_hw (cqe_op_own (cqe64_of (cqe_sz c) scqe)) i (active_cqes c) then Ok c
  else
    let! (c, found) := resize_loop (Z.to_nat (active_cqes c + 2)) c start i in
    Ok (if found : bool then cq_set_cons c (u32 (cons_index c + 1)) else c).

(** A new ring: zeroed, every entry invalid. *)
Definition new_cqe (sz : Z) : list Z :=
  set_fld (if sz =? 128 then 127 else 63) [Z.shiftl MLX5_CQE_INVALID 4] (repeat 0 (Z.to_nat sz)).
Definition mlx5_alloc_cq_buf (alloc_ok : bool) (nent sz : Z) : Z * list (list Z) :=
  if alloc_ok then (0, repeat (new_cqe sz) (Z.to_nat nent)) else (-1, []).
