(* ===== verification/Mlx5Poll.v ===== *)
(** * libmlx5: polling for completions
    (src/drivers/libmlx5-1.0.2mlnx1/src/cq.c)

    [mlx5_poll_one] consumes one entry: it finds the queue that the entry is
    about, returns the identifier of the request, releases the slots of the
    queue and counts the PCIe traffic of the completion. *)

From stdpp Require Import base gmap list numbers.
From Stdlib Require Import ZArith Lia.
From S2P Require Import Prelude Mlx5Base Mlx5Wqe Mlx5Send Mlx5Recv Mlx5Table Mlx5Srq Mlx5Cq.

(** ** Work completions *)

(** The experimental opcodes are numbered like the ordinary ones. *)
Inductive ibv_wc_opcode : Type :=
| IBV_WC_SEND | IBV_WC_RDMA_WRITE | IBV_WC_RDMA_READ | IBV_WC_COMP_SWAP | IBV_WC_FETCH_ADD
| IBV_WC_BIND_MW | IBV_EXP_WC_UMR | IBV_EXP_WC_MASKED_COMP_SWAP | IBV_EXP_WC_MASKED_FETCH_ADD
| IBV_WC_RECV | IBV_WC_RECV_RDMA_WITH_IMM | WcOpcodeUnset.

#[global] Instance ibv_wc_opcode_eq_dec : EqDecision ibv_wc_opcode.
Proof. solve_decision. Defined.

Inductive wc_flag : Type :=
| IBV_WC_GRH | IBV_WC_WITH_IMM | IBV_EXP_WC_QP | IBV_EXP_WC_DCT | IBV_EXP_WC_SRQ
| IBV_EXP_WC_WITH_TIMESTAMP | IBV_EXP_WC_RX_TCP_UDP_CSUM_OK | IBV_EXP_WC_RX_IP_CSUM_OK
| IBV_EXP_WC_RX_IPV4_PACKET | IBV_EXP_WC_RX_IPV6_PACKET.

#[global] Instance wc_flag_eq_dec : EqDecision wc_flag.
Proof. solve_decision. Defined.

(** Fields that a completion does not set keep what the caller's memory
    held. *)
Record ibv_wc : Type := Wc
  { wr_id : Z;
    status : Z;
    opcode : ibv_wc_opcode;
    vendor_err : Z;
    byte_len : Z;
    imm : Z;
    qp_num : Z;
    src_qp : Z;
    wc_flags : list wc_flag;
    pkey_index : Z;
    slid : Z;
    sl : Z;
    dlid_path_bits : Z;
    timestamp : Z;
    wc_qp : option Z;
    wc_srq : option Z;
    wc_dct : option Z;
    exp_wc_flags : list wc_flag }.

Definition wc_set_id (w : ibv_wc) (id : Z) : ibv_wc :=
  Wc id (status w) (opcode w) (vendor_err w) (byte_len w) (imm w) (qp_num w) (src_qp w) (wc_flags w)
    (pkey_index w) (slid w) (sl w) (dlid_path_bits w) (timestamp w) (wc_qp w) (wc_srq w) (wc_dct w) (exp_wc_flags w).
Definition wc_set_status (w : ibv_wc) (s : Z) : ibv_wc :=
  Wc (wr_id w) s (opcode w) (vendor_err w) (byte_len w) (imm w) (qp_num w) (src_qp w) (wc_flags w)
    (pkey_index w) (slid w) (sl w) (dlid_path_bits w) (timestamp w) (wc_qp w) (wc_srq w) (wc_dct w) (exp_wc_flags w).
Definition wc_set_opcode (w : ibv_wc) (o : ibv_wc_opcode) : ibv_wc :=
  Wc (wr_id w) (status w) o (vendor_err w) (byte_len w) (imm w) (qp_num w) (src_qp w) (wc_flags w)
    (pkey_index w) (slid w) (sl w) (dlid_path_bits w) (timestamp w) (wc_qp w) (wc_srq w) (wc_dct w) (exp_wc_flags w).
Definition wc_set_vendor (w : ibv_wc) (v : Z) : ibv_wc :=
  Wc (wr_id w) (status w) (opcode w) v (byte_len w) (imm w) (qp_num w) (src_qp w) (wc_flags w)
    (pkey_index w) (slid w) (sl w) (dlid_path_bits w) (timestamp w) (wc_qp w) (wc_srq w) (wc_dct w) (exp_wc_flags w).
Definition wc_set_len (w : ibv_wc) (n : Z) : ibv_wc :=
  Wc (wr_id w) (status w) (opcode w) (vendor_err w) n (imm w) (qp_num w) (src_qp w) (wc_flags w)
    (pkey_index w) (slid w) (sl w) (dlid_path_bits w) (timestamp w) (wc_qp w) (wc_srq w) (wc_dct w) (exp_wc_flags w).
Definition wc_set_imm (w : ibv_wc) (v : Z) : ibv_wc :=
  Wc (wr_id w) (status w) (opcode w) (vendor_err w) (byte_len w) v (qp_num w) (src_qp w) (wc_flags w)
    (pkey_index w) (slid w) (sl w) (dlid_path_bits w) (timestamp w) (wc_qp w) (wc_srq w) (wc_dct w) (exp_wc_flags w).
Definition wc_set_flags (w : ibv_wc) (f : list wc_flag) : ibv_wc :=
  Wc (wr_id w) (status w) (opcode w) (vendor_err w) (byte_len w) (imm w) (qp_num w) (src_qp w) f
    (pkey_index w) (slid w) (sl w) (dlid_path_bits w) (timestamp w) (wc_qp w) (wc_srq w) (wc_dct w) (exp_wc_flags w).
Definition wc_add_flag (w : ibv_wc) (f : wc_flag) : ibv_wc := wc_set_flags w (f :: wc_flags w).
Definition wc_set_qpn (w : ibv_wc) (n : Z) : ibv_wc :=
  Wc (wr_id w) (status w) (opcode w) (vendor_err w) (byte_len w) (imm w) n (src_qp w) (wc_flags w)
    (pkey_index w) (slid w) (sl w) (dlid_path_bits w) (timestamp w) (wc_qp w) (wc_srq w) (wc_dct w) (exp_wc_flags w).
(** The fields that [handle_responder] sets last. *)
Definition wc_set_path (w : ibv_wc) (slid' sl' src dlid pkey : Z) (fl : list wc_flag) : ibv_wc :=
  Wc (wr_id w) (status w) (opcode w) (vendor_err w) (byte_len w) (imm w) (qp_num w) src fl
    pkey slid' sl' dlid (timestamp w) (wc_qp w) (wc_srq w) (wc_dct w) (exp_wc_flags w).
Definition wc_set_ptrs (w : ibv_wc) (q s d : option Z) : ibv_wc :=
  Wc (wr_id w) (status w) (opcode w) (vendor_err w) (byte_len w) (imm w) (qp_num w) (src_qp w) (wc_flags w)
    (pkey_index w) (slid w) (sl w) (dlid_path_bits w) (timestamp w) q s d (exp_wc_flags w).
Definition wc_set_time (w : ibv_wc) (t : Z) : ibv_wc :=
  Wc (wr_id w) (status w) (opcode w) (vendor_err w) (byte_len w) (imm w) (qp_num w) (src_qp w) (wc_flags w)
    (pkey_index w) (slid w) (sl w) (dlid_path_bits w) t (wc_qp w) (wc_srq w) (wc_dct w) (exp_wc_flags w).
Definition wc_set_exp (w : ibv_wc) (f : list wc_flag) : ibv_wc :=
  Wc (wr_id w) (status w) (opcode w) (vendor_err w) (byte_len w) (imm w) (qp_num w) (src_qp w) (wc_flags w)
    (pkey_index w) (slid w) (sl w) (dlid_path_bits w) (timestamp w) (wc_qp w) (wc_srq w) (wc_dct w) f.

(** ** The context *)
Inductive mlx5_rsc_type : Type :=
| MLX5_RSC_TYPE_QP | MLX5_RSC_TYPE_DCT | MLX5_RSC_TYPE_RWQ | MLX5_RSC_TYPE_MP_RWQ
| MLX5_RSC_TYPE_XSRQ | MLX5_RSC_TYPE_SRQ | MLX5_RSC_TYPE_INVAL.

#[global] Instance mlx5_rsc_type_eq_dec : EqDecision mlx5_rsc_type.
Proof. solve_decision. Defined.

(** A resource; [r_obj] is the name of the object in the maps below. *)
Record mlx5_resource : Type := Rsc
  { r_type : mlx5_rsc_type;
    r_rsn : Z;
    r_obj : Z }.

Record mlx5_context : Type := Ctx
  { x_rsc_table : rsc_table mlx5_resource;
    x_uidx_table : rsc_table mlx5_resource;
    x_srq_table : rsc_table Z;
    x_qps : gmap Z mlx5_qp;
    x_srqs : gmap Z mlx5_srq;
    x_rwqs : gmap Z mlx5_wq;
    x_qp_srq : gmap Z Z;          (** the shared queue of a queue pair *)
    x_dct_srq : gmap Z Z;
    x_rx_csum : Z → bool;         (** [MLX5_QP_MODEL_RX_CSUM_IP_OK_IP_NON_TCP_UDP] *)
    x_stats : hrd_stats;
    x_host : Z → Z;
    x_freeze : bool }.            (** [mlx5_freeze_on_error_cqe] *)

Definition ctx_set_qp (x : mlx5_context) (i : Z) (q : mlx5_qp) : mlx5_context :=
  Ctx (x_rsc_table x) (x_uidx_table x) (x_srq_table x) (<[i := q]> (x_qps x)) (x_srqs x) (x_rwqs x)
    (x_qp_srq x) (x_dct_srq x) (x_rx_csum x) (x_stats x) (x_host x) (x_freeze x).
Definition ctx_set_srq (x : mlx5_context) (i : Z) (s : mlx5_srq) : mlx5_context :=
  Ctx (x_rsc_table x) (x_uidx_table x) (x_srq_table x) (x_qps x) (<[i := s]> (x_srqs x)) (x_rwqs x)
    (x_qp_srq x) (x_dct_srq x) (x_rx_csum x) (x_stats x) (x_host x) (x_freeze x).
Definition ctx_set_rwq (x : mlx5_context) (i : Z) (w : mlx5_wq) : mlx5_context :=
  Ctx (x_rsc_table x) (x_uidx_table x) (x_srq_table x) (x_qps x) (x_srqs x) (<[i := w]> (x_rwqs x))
    (x_qp_srq x) (x_dct_srq x) (x_rx_csum x) (x_stats x) (x_host x) (x_freeze x).
Definition ctx_set_stats (x : mlx5_context) (s : hrd_stats) : mlx5_context :=
  Ctx (x_rsc_table x) (x_uidx_table x) (x_srq_table x) (x_qps x) (x_srqs x) (x_rwqs x)
    (x_qp_srq x) (x_dct_srq x) (x_rx_csum x) s (x_host x) (x_freeze x).
Definition ctx_set_host (x : mlx5_context) (h : Z → Z) : mlx5_context :=
  Ctx (x_rsc_table x) (x_uidx_table x) (x_srq_table x) (x_qps x) (x_srqs x) (x_rwqs x)
    (x_qp_srq x) (x_dct_srq x) (x_rx_csum x) (x_stats x) h (x_freeze x).

(** Access through a pointer that may be NULL. *)
Definition deref {A} (m : gmap Z A) (p : option Z) : res A :=
  match p with
  | Some i => match m !! i with Some a => Ok a | None => Fault NullDeref end
  | None => Fault NullDeref
  end.

Definition find_rsc (x : mlx5_context) (cqe_ver : bool) (cqe : list Z) : res (option mlx5_resource) :=
  if cqe_ver then mlx5_find_uidx (x_uidx_table x) (cqe_srqn_uidx cqe .& 0xffffff)
  else mlx5_find_rsc (x_rsc_table x) (cqe_sop_drop_qpn cqe .& 0xffffff).

Definition title_mp_rq (x : mlx5_context) (cqe_ver : bool) (title : list Z) : res bool :=
  let! r := find_rsc x cqe_ver title in
  Ok (match r with Some r => bool_decide (r_type r = MLX5_RSC_TYPE_MP_RWQ) | None => false end).

(** ** Requests that completed *)
Definition handle_good_req (w : ibv_wc) (cqe : list Z) : ibv_wc :=
  let op := cqe_sop_drop_qpn cqe .>> 24 in
  if op =? MLX5_OPCODE_RDMA_WRITE_IMM then wc_set_opcode (wc_add_flag w IBV_WC_WITH_IMM) IBV_WC_RDMA_WRITE
  else if op =? MLX5_OPCODE_RDMA_WRITE then wc_set_opcode w IBV_WC_RDMA_WRITE
  else if op =? MLX5_OPCODE_SEND_IMM then wc_set_opcode (wc_add_flag w IBV_WC_WITH_IMM) IBV_WC_SEND
  else if (op =? MLX5_OPCODE_SEND) || (op =? MLX5_OPCODE_SEND_INVAL) then wc_set_opcode w IBV_WC_SEND
  else if op =? MLX5_OPCODE_RDMA_READ then wc_set_len (wc_set_opcode w IBV_WC_RDMA_READ) (cqe_byte_cnt cqe)
  else if op =? MLX5_OPCODE_ATOMIC_CS then wc_set_len (wc_set_opcode w IBV_WC_COMP_SWAP) 8
  else if op =? MLX5_OPCODE_ATOMIC_FA then wc_set_len (wc_set_opcode w IBV_WC_FETCH_ADD) 8
  else if op =? MLX5_OPCODE_BIND_MW then wc_set_opcode w IBV_WC_BIND_MW
  else if op =? MLX5_OPCODE_UMR then wc_set_opcode w IBV_EXP_WC_UMR
  else if op =? MLX5_OPCODE_ATOMIC_MASKED_CS then wc_set_opcode w IBV_EXP_WC_MASKED_COMP_SWAP
  else if op =? MLX5_OPCODE_ATOMIC_MASKED_FA then wc_set_opcode w IBV_EXP_WC_MASKED_FETCH_ADD
  else w.

(** The bytes that an entry with inline data carries, and where they start:
    the 64-byte part, or the part before it. *)
Definition inline_data (c : mlx5_cq) (slot : list Z) (fmt : Z) : res (list Z) :=
  if fmt =? MLX5_INLINE_DATA32_SEG then Ok (cqe64_of (cqe_sz c) slot)
  else in_bounds (negb (cqe_sz c =? 64)) ;! Ok slot.

(** Reads past the entry are faults. *)
Definition inline_prefix (buf : list Z) (n : Z) : res (list Z) :=
  in_bounds ((0 <=? n) && (n <=? Z.of_nat (length buf))) ;! Ok (take (Z.to_nat n) buf).

Definition has_inline (fmt : Z) : bool :=
  (fmt =? MLX5_INLINE_DATA32_SEG) || (fmt =? MLX5_INLINE_DATA64_SEG).

(** Immediate data is handed on as it is in memory. *)
Definition cqe_imm_data (cqe : list Z) : Z := le_word (take 4 (drop 36 cqe)).

(** The responder side: [qp] and [srq] are pointers. *)
Definition handle_responder (c : mlx5_cq) (x : mlx5_context) (w : ibv_wc) (slot : list Z)
    (qp srq : option Z) (type : mlx5_rsc_type) : res (Z * ibv_wc * mlx5_context) :=
  let cqe := cqe64_of (cqe_sz c) slot in
  let fmt := mlx5_get_cqe_format cqe in
  let w := wc_set_len w (cqe_byte_cnt cqe) in
  let! (err, w, x) :=
    match srq with
    | Some si =>
        let! s := deref (x_srqs x) srq in
        let wqe_ctr := cqe_wqe_counter cqe in
        let! id := arr_get (s_wrid s) wqe_ctr in
        let w := wc_set_id w id in
        let! s := mlx5_free_srq_wqe s wqe_ctr in
        let x := ctx_set_srq x si s in
        if has_inline fmt then
          let! buf := inline_data c slot fmt in
          let! data := inline_prefix buf (byte_len w) in
          let! (err, h) := mlx5_copy_to_recv_srq s wqe_ctr data (byte_len w) (x_host x) in
          Ok (err, w, ctx_set_host x h)
        else Ok (0, w, x)
    | None =>
        let! q := deref (x_qps x) qp in
        let wq := rq q in
        let wqe_ctr := u16 (tail wq .& u32 (wqe_cnt wq - 1)) in
        let! id := arr_get (wrid wq) wqe_ctr in
        let w := wc_set_id w id in
        let q := qp_set_rq q (wq_set_tail wq (u32 (tail wq + 1))) in
        let x := ctx_set_qp x (default 0 qp) q in
        if has_inline fmt then
          let! buf := inline_data c slot fmt in
          let! data := inline_prefix buf (byte_len w) in
          let! (err, h) := mlx5_copy_to_recv_wqe q wqe_ctr data (byte_len w) (x_host x) in
          Ok (err, w, ctx_set_host x h)
        else Ok (0, w, x)
    end in
  if negb (err =? 0) then Ok (err, w, x)
  else
    let w := wc_set_len w (cqe_byte_cnt cqe) in
    let op := cqe_op_own cqe .>> 4 in
    let w := if op =? MLX5_CQE_RESP_WR_IMM then
               wc_set_imm (wc_add_flag (wc_set_opcode w IBV_WC_RECV_RDMA_WITH_IMM) IBV_WC_WITH_IMM)
                 (cqe_imm_data cqe)
             else if op =? MLX5_CQE_RESP_SEND then wc_set_opcode w IBV_WC_RECV
             else if op =? MLX5_CQE_RESP_SEND_IMM then
               wc_set_imm (wc_add_flag (wc_set_opcode w IBV_WC_RECV) IBV_WC_WITH_IMM)
                 (cqe_imm_data cqe)
             else w in
    let! src := match srq with
                | Some _ =>
                    if bool_decide (type = MLX5_RSC_TYPE_DCT) then Ok (cqe_flags_rqpn cqe .& 0xffffff)
                    else
                      let! s := deref (x_srqs x) srq in
                      if bool_decide (type = MLX5_RSC_TYPE_INVAL) || bool_decide (type = MLX5_RSC_TYPE_XSRQ)
                      then Ok (srqn s)
                      else
                        let! q := deref (x_qps x) qp in
                        Ok (if bool_decide (qp_type q = IBV_QPT_XRC_RECV) || bool_decide (qp_type q = IBV_QPT_XRC)
                            then srqn s else cqe_flags_rqpn cqe .& 0xffffff)
                | None => Ok (cqe_flags_rqpn cqe .& 0xffffff)
                end in
    let ud := match qp with
              | Some i => match x_qps x !! i with Some q => bool_decide (qp_type q = IBV_QPT_UD) | None => false end
              | None => false
              end in
    let fl := if (ud || bool_decide (type = MLX5_RSC_TYPE_DCT)) &&
                 negb ((cqe_flags_rqpn cqe .>> 28) .& 3 =? 0) then IBV_WC_GRH :: wc_flags w else wc_flags w in
    Ok (IBV_WC_SUCCESS,
        wc_set_path w (fld 22 2 cqe) ((cqe_flags_rqpn cqe .>> 24) .& 0xf) src
          (default 0 (cqe !! 17%nat) .& 0x7f) (cqe_imm_inval_pkey cqe .& 0xffff) fl, x).

(** ** Errors *)
Definition IBV_WC_LOC_QP_OP_ERR : Z := 2.
Definition IBV_WC_LOC_PROT_ERR : Z := 4.
Definition IBV_WC_WR_FLUSH_ERR : Z := 5.
Definition IBV_WC_MW_BIND_ERR : Z := 6.
Definition IBV_WC_BAD_RESP_ERR : Z := 7.
Definition IBV_WC_LOC_ACCESS_ERR : Z := 8.
Definition IBV_WC_REM_ACCESS_ERR : Z := 10.
Definition IBV_WC_REM_OP_ERR : Z := 11.
Definition IBV_WC_RETRY_EXC_ERR : Z := 12.
Definition IBV_WC_RNR_RETRY_EXC_ERR : Z := 13.
Definition IBV_WC_REM_ABORT_ERR : Z := 16.

Definition MLX5_CQE_SYNDROME_WR_FLUSH_ERR : Z := 0x05.
Definition MLX5_CQE_SYNDROME_TRANSPORT_RETRY_EXC_ERR : Z := 0x15.

Definition ecqe_syndrome (c : list Z) : Z := default 0 (c !! 55%nat).

Definition syndrome_status (s : Z) : Z :=
  if s =? 0x01 then IBV_WC_LOC_LEN_ERR
  else if s =? 0x02 then IBV_WC_LOC_QP_OP_ERR
  else if s =? 0x04 then IBV_WC_LOC_PROT_ERR
  else if s =? MLX5_CQE_SYNDROME_WR_FLUSH_ERR then IBV_WC_WR_FLUSH_ERR
  else if s =? 0x06 then IBV_WC_MW_BIND_ERR
  else if s =? 0x10 then IBV_WC_BAD_RESP_ERR
  else if s =? 0x11 then IBV_WC_LOC_ACCESS_ERR
  else if s =? 0x12 then IBV_WC_REM_INV_REQ_ERR
  else if s =? 0x13 then IBV_WC_REM_ACCESS_ERR
  else if s =? 0x14 then IBV_WC_REM_OP_ERR
  else if s =? MLX5_CQE_SYNDROME_TRANSPORT_RETRY_EXC_ERR then IBV_WC_RETRY_EXC_ERR
  else if s =? 0x16 then IBV_WC_RNR_RETRY_EXC_ERR
  else if s =? 0x22 then IBV_WC_REM_ABORT_ERR
  else IBV_WC_GENERAL_ERR.

Definition mlx5_handle_error_cqe (w : ibv_wc) (cqe : list Z) : ibv_wc :=
  wc_set_vendor (wc_set_status w (syndrome_status (ecqe_syndrome cqe))) (default 0 (cqe !! 54%nat)).

Definition mlx5_set_bad_wc_opcode (w : ibv_wc) (cqe : list Z) (is_req : bool) : ibv_wc :=
  if is_req then
    let op := cqe_sop_drop_qpn cqe .>> 24 in
    if (op =? MLX5_OPCODE_RDMA_WRITE_IMM) || (op =? MLX5_OPCODE_RDMA_WRITE) then wc_set_opcode w IBV_WC_RDMA_WRITE
    else if (op =? MLX5_OPCODE_SEND_IMM) || (op =? MLX5_OPCODE_SEND) || (op =? MLX5_OPCODE_SEND_INVAL)
    then wc_set_opcode w IBV_WC_SEND
    else if op =? MLX5_OPCODE_RDMA_READ then wc_set_opcode w IBV_WC_RDMA_READ
    else if op =? MLX5_OPCODE_ATOMIC_CS then wc_set_opcode w IBV_WC_COMP_SWAP
    else if op =? MLX5_OPCODE_ATOMIC_FA then wc_set_opcode w IBV_WC_FETCH_ADD
    else if op =? MLX5_OPCODE_BIND_MW then wc_set_opcode w IBV_WC_BIND_MW
    else if op =? MLX5_OPCODE_UMR then wc_set_opcode w IBV_EXP_WC_UMR
    else if op =? MLX5_OPCODE_ATOMIC_MASKED_CS then wc_set_opcode w IBV_EXP_WC_MASKED_COMP_SWAP
    else if op =? MLX5_OPCODE_ATOMIC_MASKED_FA then wc_set_opcode w IBV_EXP_WC_MASKED_FETCH_ADD
    else w
  else
    let op := cqe_op_own cqe .>> 4 in
    if op =? MLX5_CQE_RESP_WR_IMM then wc_set_opcode w IBV_WC_RECV_RDMA_WITH_IMM
    else if (op =? MLX5_CQE_RESP_SEND) || (op =? MLX5_CQE_RESP_SEND_IMM) then wc_set_opcode w IBV_WC_RECV
    else w.

(** Slots of the send queue up to the request of the entry are free. *)
Definition sq_complete (q : mlx5_qp) (w : ibv_wc) (wqe_ctr : Z) : res (ibv_wc * mlx5_qp) :=
  let idx := wqe_ctr .& u32 (wqe_cnt (sq q) - 1) in
  let! id := arr_get (wrid (sq q)) idx in
  let! h := arr_get (wqe_head q) idx in
  Ok (wc_set_id w id, qp_set_sq q (wq_set_tail (sq q) (u32 (h + 1)))).

Definition rq_complete (w : mlx5_wq) (wc : ibv_wc) : res (ibv_wc * mlx5_wq) :=
  let! id := arr_get (wrid w) (tail w .& u32 (wqe_cnt w - 1)) in
  Ok (wc_set_id wc id, wq_set_tail w (u32 (tail w + 1))).

(** ** One completion *)
Definition CQ_OK : Z := 0.
Definition CQ_EMPTY : Z := -1.
Definition CQ_POLL_ERR : Z := -2.

(** Fields of a completion that the caller's structure may lack. *)
Inductive wc_field : Type := WF_qp | WF_dct | WF_srq | WF_exp_flags.

(** [cur_rsc] and [cur_srq] are kept from one completion to the next. *)
Record poll_st : Type := PollSt
  { p_cq : mlx5_cq;
    p_ctx : mlx5_context;
    cur_rsc : option mlx5_resource;
    cur_srq : option Z }.

Definition p_set_ctx (p : poll_st) (x : mlx5_context) : poll_st := PollSt (p_cq p) x (cur_rsc p) (cur_srq p).
Definition p_set_cur (p : poll_st) (r : option mlx5_resource) (s : option Z) : poll_st :=
  PollSt (p_cq p) (p_ctx p) r s.

(** The lookups: error, or whether the entry is about a shared queue. *)
Definition poll_lookup (cqe_ver responder : bool) (rsn srqn_uidx : Z) (p : poll_st)
    : res (bool * bool * poll_st) :=
  if cqe_ver then
    match cur_rsc p with
    | Some r => if srqn_uidx =? r_rsn r then Ok (true, false, p)
                else let! r := mlx5_find_uidx (x_uidx_table (p_ctx p)) srqn_uidx in
                     Ok (bool_decide (is_Some r), false, p_set_cur p r (cur_srq p))
    | None => let! r := mlx5_find_uidx (x_uidx_table (p_ctx p)) srqn_uidx in
              Ok (bool_decide (is_Some r), false, p_set_cur p r (cur_srq p))
    end
  else
    let is_srq := responder && negb (srqn_uidx =? 0) in
    let! (ok, p) :=
      if is_srq then
        let find := let! s := mlx5_find_srq (x_srq_table (p_ctx p)) srqn_uidx in
                    Ok (bool_decide (is_Some s), p_set_cur p (cur_rsc p) s) in
        match cur_srq p with
        | Some si => let! s := deref (x_srqs (p_ctx p)) (Some si) in
                     if srqn_uidx =? srqn s then Ok (true, p) else find
        | None => find
        end
      else Ok (true, p) in
    if negb ok then Ok (false, is_srq, p)
    else
      let find := let! r := mlx5_find_rsc (x_rsc_table (p_ctx p)) rsn in
                  Ok (bool_decide (is_Some r) || negb (srqn_uidx =? 0), is_srq, p_set_cur p r (cur_srq p)) in
      match cur_rsc p with
      | Some r => if rsn =? r_rsn r then Ok (true, is_srq, p) else find
      | None => find
      end.

(** What [mlx5_poll_one] knows after the lookups. *)
Record poll_target : Type := Target
  { t_mqp : option Z;
    t_rwq : option Z;
    t_type : mlx5_rsc_type;
    t_is_srq : bool;
    t_flags : list wc_flag }.

Definition poll_target_of (has : wc_field → bool) (cqe_ver responder is_srq : bool) (w : ibv_wc) (p : poll_st)
    : res (option (poll_target * ibv_wc * poll_st)) :=
  let x := p_ctx p in
  match cur_rsc p with
  | None => Ok (Some (Target None None MLX5_RSC_TYPE_INVAL is_srq [], w, p))
  | Some r =>
      match r_type r with
      | MLX5_RSC_TYPE_QP =>
          let '(w, fl) := if has WF_qp then (wc_set_ptrs w (Some (r_obj r)) (wc_srq w) (wc_dct w), [IBV_EXP_WC_QP])
                          else (w, []) in
          if cqe_ver && responder && bool_decide (is_Some (x_qp_srq x !! r_obj r)) then
            Ok (Some (Target (Some (r_obj r)) None (r_type r) true fl, w, p_set_cur p (cur_rsc p) (x_qp_srq x !! r_obj r)))
          else Ok (Some (Target (Some (r_obj r)) None (r_type r) is_srq fl, w, p))
      | MLX5_RSC_TYPE_DCT =>
          let '(w, fl) := if has WF_dct then (wc_set_ptrs w (wc_qp w) (wc_srq w) (Some (r_obj r)), [IBV_EXP_WC_DCT])
                          else (w, []) in
          let p := if cqe_ver then p_set_cur p (cur_rsc p) (x_dct_srq x !! r_obj r) else p in
          Ok (Some (Target None None (r_type r) true fl, w, p))
      | MLX5_RSC_TYPE_XSRQ =>
          Ok (Some (Target None None (r_type r) true [], w, p_set_cur p (cur_rsc p) (Some (r_obj r))))
      | MLX5_RSC_TYPE_RWQ | MLX5_RSC_TYPE_MP_RWQ =>
          Ok (Some (Target None (Some (r_obj r)) (r_type r) is_srq [], w, p))
      | _ => Ok None
      end
  end.

(** A request completed. *)
Definition poll_req (c : mlx5_cq) (x : mlx5_context) (mqp : option Z) (w : ibv_wc) (slot : list Z) (fmt : Z)
    : res (Z * ibv_wc * mlx5_context) :=
  match mqp with
  | None => Ok (CQ_POLL_ERR, w, x)
  | Some qi =>
      let! q := deref (x_qps x) mqp in
      let cqe := cqe64_of (cqe_sz c) slot in
      let wqe_ctr := cqe_wqe_counter cqe in
      let w := handle_good_req w cqe in
      let! stats := stats_add (x_stats x) (mlx5_hrd_qp_index q) 0 (mlx5_hrd_dma_write_n2c 64) in
      let x := ctx_set_stats x stats in
      let! (err, x) :=
        (if has_inline fmt then
          let! buf := inline_data c slot fmt in
          let! data := inline_prefix buf (byte_len w) in
          let! (err, h) := mlx5_copy_to_send_wqe q wqe_ctr data (byte_len w) (x_host x) in
          Ok (err, ctx_set_host x h)
        else Ok (0, x)) in
      let! (w, q) := sq_complete q w wqe_ctr in
      Ok (CQ_OK, wc_set_status w err, ctx_set_qp x qi q)
  end.

(** A message was received; the statistics are those of the queue pair. *)
Definition poll_resp (c : mlx5_cq) (x : mlx5_context) (t : poll_target) (srq : option Z) (w : ibv_wc) (slot : list Z)
    : res (Z * ibv_wc * mlx5_context) :=
  let cqe := cqe64_of (cqe_sz c) slot in
  let! (st, w, x) := handle_responder c x w slot (t_mqp t) (if t_is_srq t then srq else None) (t_type t) in
  let w := wc_set_status w st in
  let! q := deref (x_qps x) (t_mqp t) in
  let n2c := if u32 (mlx5_hrd_dma_write_n2c 64 + byte_len w) =? 0 then 0
             else mlx5_hrd_dma_write_n2c (s32 (byte_len w)) in
  let! stats := stats_add (x_stats x) (mlx5_hrd_qp_index q) 0 n2c in
  Ok (CQ_OK, w, ctx_set_stats x stats).

Definition csum_flags (x : mlx5_context) (mqp : option Z) (cqe : list Z) : list wc_flag :=
  if match mqp with Some i => x_rx_csum x i | None => false end then
    let ext := default 0 (cqe !! 28%nat) in
    let l3 := get_cqe_l3_hdr_type cqe in
    (if negb (ext .& 4 =? 0) then [IBV_EXP_WC_RX_TCP_UDP_CSUM_OK] else []) ++
    (if negb (ext .& 2 =? 0) then [IBV_EXP_WC_RX_IP_CSUM_OK] else []) ++
    (if l3 =? 2 then [IBV_EXP_WC_RX_IPV4_PACKET] else []) ++
    (if l3 =? 1 then [IBV_EXP_WC_RX_IPV6_PACKET] else [])
  else [].

Definition poll_err (x : mlx5_context) (t : poll_target) (srq : option Z) (w : ibv_wc) (cqe : list Z) (req : bool)
    : res (Z * ibv_wc * mlx5_context) :=
  let w := mlx5_handle_error_cqe w cqe in
  let w := mlx5_set_bad_wc_opcode w cqe req in
  let s := ecqe_syndrome cqe in
  if negb (s =? MLX5_CQE_SYNDROME_WR_FLUSH_ERR) && negb (s =? MLX5_CQE_SYNDROME_TRANSPORT_RETRY_EXC_ERR)
     && x_freeze x
  then Fault Stuck
  else
    let wqe_ctr := cqe_wqe_counter cqe in
    if req then
      let! q := deref (x_qps x) (t_mqp t) in
      let! (w, q) := sq_complete q w wqe_ctr in
      Ok (CQ_OK, w, ctx_set_qp x (default 0 (t_mqp t)) q)
    else match srq with
         | Some si =>
             let! sr := deref (x_srqs x) srq in
             let! id := arr_get (s_wrid sr) wqe_ctr in
             let! sr := mlx5_free_srq_wqe sr wqe_ctr in
             Ok (CQ_OK, wc_set_id w id, ctx_set_srq x si sr)
         | None =>
             match t_rwq t with
             | Some ri =>
                 let! wq := deref (x_rwqs x) (t_rwq t) in
                 let! (w, wq) := rq_complete wq w in
                 Ok (CQ_OK, w, ctx_set_rwq x ri wq)
             | None =>
                 let! q := deref (x_qps x) (t_mqp t) in
                 let! (w, wq) := rq_complete (rq q) w in
                 Ok (CQ_OK, w, ctx_set_qp x (default 0 (t_mqp t)) (qp_set_rq q wq))
             end
         end.

(** [ts]: the queue was created with time stamps. *)
Definition mlx5_poll_one (has : wc_field → bool) (ts cqe_ver : bool) (w : ibv_wc) (p : poll_st)
    : res (Z * ibv_wc * poll_st) :=
  let! next := next_cqe_sw (p_cq p) in
  match next with
  | None => Ok (CQ_EMPTY, w, p)
  | Some slot0 =>
      let idx := cons_index (p_cq p) .& ibv_cqe (p_cq p) in
      let fmt := mlx5_get_cqe_format (cqe64_of (cqe_sz (p_cq p)) slot0) in
      let! (c, timestamp_en) :=
        (if fmt =? MLX5_COMPRESSED then
           let! c := mlx5_decompress_cqe (title_mp_rq (p_ctx p) cqe_ver) (p_cq p) in Ok (c, false)
         else Ok (p_cq p, ts)) in
      let c := cq_set_cons c (u32 (cons_index c + 1)) in
      let p := PollSt c (p_ctx p) (cur_rsc p) (cur_srq p) in
      let! slot := get_cqe c idx in
      let cqe := cqe64_of (cqe_sz c) slot in
      let w := wc_set_flags w [] in
      let op := cqe_op_own cqe .>> 4 in
      let requestor := is_requestor op in
      let responder := is_responder op in
      if negb requestor && negb responder then Ok (CQ_POLL_ERR, w, p)
      else
        let rsn := cqe_sop_drop_qpn cqe .& 0xffffff in
        let! (ok, is_srq, p) := poll_lookup cqe_ver responder rsn (cqe_srqn_uidx cqe .& 0xffffff) p in
        if negb ok then Ok (CQ_POLL_ERR, w, p)
        else
          let! r := poll_target_of has cqe_ver responder is_srq w p in
          match r with
          | None => Ok (CQ_POLL_ERR, w, p)
          | Some (t, w, p) =>
              let '(w, fl) := if t_is_srq t && has WF_srq
                              then (wc_set_ptrs w (wc_qp w) (cur_srq p) (wc_dct w), IBV_EXP_WC_SRQ :: t_flags t)
                              else (w, t_flags t) in
              let w := wc_set_qpn w rsn in
              let! (err, w, x) :=
                (if op =? MLX5_CQE_REQ then poll_req c (p_ctx p) (t_mqp t) w slot fmt
                 else if (op =? MLX5_CQE_REQ_ERR) || (op =? MLX5_CQE_RESP_ERR)
                 then poll_err (p_ctx p) t (cur_srq p) w cqe (op =? MLX5_CQE_REQ_ERR)
                 else poll_resp c (p_ctx p) t (cur_srq p) w slot) in
              let p := p_set_ctx p x in
              if negb (err =? CQ_OK) then Ok (err, w, p)
              else
                let fl := if is_responder op && negb (op =? MLX5_CQE_RESP_ERR)
                          then csum_flags x (t_mqp t) cqe ++ fl else fl in
                let '(w, fl) := if timestamp_en : bool
                                then (wc_set_time w (cqe_timestamp cqe), IBV_EXP_WC_WITH_TIMESTAMP :: fl)
                                else (w, fl) in
                Ok (CQ_OK, if has WF_exp_flags then wc_set_exp w (fl ++ wc_flags w) else w, p)
          end
  end.

(** The loop of [poll_cq]: completions in the order of the entries, and the
    result of the last call. *)
Fixpoint poll_cq_loop (has : wc_field → bool) (ts cqe_ver : bool) (wcs : list ibv_wc) (p : poll_st)
    : res (Z * list ibv_wc * poll_st) :=
  match wcs with
  | [] => Ok (CQ_OK, [], p)
  | w :: wcs =>
      let! (err, w, p) := mlx5_poll_one has ts cqe_ver w p in
      if negb (err =? CQ_OK) then Ok (err, [], p)
      else
        let! (err, ws, p) := poll_cq_loop has ts cqe_ver wcs p in
        Ok (err, w :: ws, p)
  end.

(** ** Pauses

    The global variables [mlx5_stall_cq_*], which the environment can set. *)
Record stall_cfg : Type := StallCfg
  { mlx5_stall_cq_poll_min : Z;
    mlx5_stall_cq_poll_max : Z;
    mlx5_stall_cq_inc_step : Z;
    mlx5_stall_cq_dec_step : Z }.

(** Before the loop: waiting changes no state, except that the flag of the
    simple method is taken back. *)
Definition stall_before (s : cq_stall) : cq_stall :=
  if stall_enable s && negb (stall_adaptive_enable s) && stall_next_poll s then
    Stall false (stall_enable s) (stall_last_count s) (stall_adaptive_enable s) (stall_cycles s)
  else s.

(** After the loop; [now] is the cycle counter. *)
Definition stall_after (g : stall_cfg) (now npolled ne err : Z) (s : cq_stall) : cq_stall :=
  let shorter := Z.max (s32 (stall_cycles s - mlx5_stall_cq_dec_step g)) (mlx5_stall_cq_poll_min g) in
  let longer := Z.min (s32 (stall_cycles s + mlx5_stall_cq_inc_step g)) (mlx5_stall_cq_poll_max g) in
  if stall_enable s then
    if stall_adaptive_enable s then
      if npolled =? 0 then Stall (stall_next_poll s) true now true shorter
      else if npolled <? ne then Stall (stall_next_poll s) true now true longer
      else Stall (stall_next_poll s) true 0 true shorter
    else if err =? CQ_EMPTY then Stall true true (stall_last_count s) false (stall_cycles s)
    else s
  else s.

(** [wcs] is the memory of the caller, one entry per completion asked for. *)
Definition poll_cq (g : stall_cfg) (now : Z) (has : wc_field → bool) (ts cqe_ver : bool) (wcs : list ibv_wc)
    (c : mlx5_cq) (x : mlx5_context) : res (Z * list ibv_wc * mlx5_cq * mlx5_context) :=
  let c := cq_set_stall c (stall_before (c_stall c)) in
  let! (err, ws, p) := poll_cq_loop has ts cqe_ver wcs (PollSt c x None None) in
  let! c := mlx5_update_cons_index (p_cq p) in
  let npolled := Z.of_nat (length ws) in
  let c := cq_set_stall c (stall_after g now npolled (Z.of_nat (length wcs)) err (c_stall c)) in
  Ok (if err =? CQ_POLL_ERR then err else npolled, ws, c, p_ctx p).

(** [struct ibv_wc] has none of the experimental fields. *)
Definition mlx5_poll_cq (g : stall_cfg) (now : Z) (ts : bool) (wcs : list ibv_wc) (c : mlx5_cq) (x : mlx5_context)
    : res (Z * list ibv_wc * mlx5_cq * mlx5_context) := poll_cq g now (λ _, false) ts false wcs c x.
Definition mlx5_poll_cq_1 (g : stall_cfg) (now : Z) (ts : bool) (wcs : list ibv_wc) (c : mlx5_cq) (x : mlx5_context)
    : res (Z * list ibv_wc * mlx5_cq * mlx5_context) := poll_cq g now (λ _, false) ts true wcs c x.
Definition mlx5_poll_cq_ex (g : stall_cfg) (now : Z) (has : wc_field → bool) (ts : bool) (wcs : list ibv_wc)
    (c : mlx5_cq) (x : mlx5_context)
    : res (Z * list ibv_wc * mlx5_cq * mlx5_context) := poll_cq g now has ts false wcs c x.
Definition mlx5_poll_cq_ex_1 (g : stall_cfg) (now : Z) (has : wc_field → bool) (ts : bool) (wcs : list ibv_wc)
    (c : mlx5_cq) (x : mlx5_context)
    : res (Z * list ibv_wc * mlx5_cq * mlx5_context) := poll_cq g now has ts true wcs c x.
