(* ===== verification/Mlx5CqProof.v ===== *)
(** * libmlx5: a completion queue is a queue

    [cq_inv c k es]: the ring of [2 ^ k] entries holds the new entries [es],
    oldest first; all other entries belong to the device.  The driver reads
    exactly [es] ([next_cqe_spec], [cq_inv_consume]), whatever the number of
    turns of the ring. *)

From stdpp Require Import base gmap list numbers.
From Stdlib Require Import ZArith Lia.
From S2P Require Import Prelude Mlx5Base Mlx5Wqe Mlx5WqeProof Mlx5Encode Mlx5Send Mlx5SqProof Mlx5Srq Mlx5Cq.

Record cq_ok (c : mlx5_cq) (k : Z) : Prop := CqOk
  { ck_k : 0 ≤ k ≤ 24;
    ck_mask : ibv_cqe c = 2 ^ k - 1;
    ck_len : Z.of_nat (length (c_slots c)) = 2 ^ k;
    ck_cons : 0 ≤ cons_index c < 2 ^ 32;
    ck_db : length (dbrec c) = 2%nat }.

(** Entry of the ring at position [n] of the sequence of all entries. *)
Definition at_cqe (c : mlx5_cq) (k n : Z) : option (list Z) := c_slots c !! Z.to_nat (n mod 2 ^ k).

(** The driver takes the entry for new. *)
Definition fresh (c : mlx5_cq) (k n : Z) (e : list Z) : Prop :=
  sw_owned (cqe_op_own (cqe64_of (cqe_sz c) e)) n (2 ^ k - 1) = true.

Record cq_inv (c : mlx5_cq) (k : Z) (es : list (list Z)) : Prop := CqInv
  { cv_fit : Z.of_nat (length es) ≤ 2 ^ k;
    cv_new : ∀ i e, es !! i = Some e →
      at_cqe c k (cons_index c + Z.of_nat i) = Some e ∧ fresh c k (cons_index c + Z.of_nat i) e;
    cv_old : ∀ i e, (length es ≤ i)%nat → Z.of_nat i < 2 ^ k →
      at_cqe c k (cons_index c + Z.of_nat i) = Some e → ¬ fresh c k (cons_index c + Z.of_nat i) e }.

(** ** Positions *)
Lemma land_turn n k : 0 ≤ k → negb (n .& (2 ^ k - 1 + 1) =? 0) = Z.testbit n k.
Proof.
  intros Hk. replace (2 ^ k - 1 + 1) with (2 ^ k) by lia. destruct (Z.testbit n k) eqn:E.
  - apply negb_true_iff, Z.eqb_neq. intros H0.
    assert (Hb : Z.testbit (Z.land n (2 ^ k)) k = true) by (rewrite Z.land_spec, E, Z.pow2_bits_true by lia; done).
    rewrite H0, Z.bits_0 in Hb. done.
  - apply negb_false_iff, Z.eqb_eq. apply Z.bits_inj'. intros b Hb.
    rewrite Z.land_spec, Z.bits_0, Z.pow2_bits_eqb by lia. destruct (k =? b) eqn:Eb; [|by rewrite andb_false_r].
    apply Z.eqb_eq in Eb. subst b. by rewrite E.
Qed.

Lemma testbit_u32 n k : 0 ≤ k < 32 → Z.testbit (u32 n) k = Z.testbit n k.
Proof. intros Hk. unfold u32. by rewrite Z.mod_pow2_bits_low by lia. Qed.

(** The bit changes with every turn. *)
Lemma testbit_turn n k : 0 ≤ k → Z.testbit (n + 2 ^ k) k = negb (Z.testbit n k).
Proof.
  intros Hk. rewrite !Z.testbit_eqb by lia.
  replace (n + 2 ^ k) with (n + 1 * 2 ^ k) by lia. rewrite Z.div_add by lia.
  set (q := n / 2 ^ k). clearbody q. pose proof (Z.div_mod q 2 ltac:(lia)).
  pose proof (Z.mod_pos_bound q 2 ltac:(lia)). pose proof (Z.div_mod (q + 1) 2 ltac:(lia)).
  pose proof (Z.mod_pos_bound (q + 1) 2 ltac:(lia)).
  destruct (Z.eqb_spec (q mod 2) 1), (Z.eqb_spec ((q + 1) mod 2) 1); cbn; try done; lia.
Qed.

Lemma sw_owned_u32 own n k : 0 ≤ k ≤ 24 → sw_owned own (u32 n) (2 ^ k - 1) = sw_owned own n (2 ^ k - 1).
Proof. intros Hk. unfold sw_owned. by rewrite !land_turn, testbit_u32 by lia. Qed.

Lemma sw_owned_turn own n k :
  0 ≤ k → sw_owned own n (2 ^ k - 1) = true → sw_owned own (n + 2 ^ k) (2 ^ k - 1) = false.
Proof.
  intros Hk. unfold sw_owned. rewrite !land_turn, testbit_turn by lia.
  by destruct (own .>> 4 =? _), (own .& _ =? 0), (Z.testbit n k).
Qed.

Section Ring.
Context (k : Z).

Lemma cons_slot c n : cq_ok c k → n .& ibv_cqe c = n mod 2 ^ k.
Proof using. intros Hok. rewrite (ck_mask _ _ Hok). apply u64_land_mask. apply Hok. Qed.

Lemma at_cqe_some c n : cq_ok c k → ∃ e, at_cqe c k n = Some e ∧ get_cqe c (n mod 2 ^ k) = Ok e.
Proof using.
  intros Hok. pose proof (ck_len _ _ Hok). pose proof (ck_k _ _ Hok).
  pose proof (Z.mod_pos_bound n (2 ^ k) ltac:(lia)) as Hm. unfold at_cqe, get_cqe.
  destruct (arr_get_lt (c_slots c) (n mod 2 ^ k)) as (e & E1 & E2); [lia|]. by exists e.
Qed.

Lemma get_cqe_at c n e : at_cqe c k n = Some e → 0 ≤ k → get_cqe c (n mod 2 ^ k) = Ok e.
Proof using.
  intros E Hk. unfold at_cqe in E. apply arr_get_Z; [|done]. apply Z.mod_pos_bound. lia.
Qed.

Lemma at_cqe_u32 c n : 0 ≤ k ≤ 24 → at_cqe c k (u32 n) = at_cqe c k n.
Proof using. intros Hk. unfold at_cqe. by rewrite mod_u32_pow2 by lia. Qed.

(** The driver sees the oldest new entry, or none. *)
Lemma next_cqe_spec c es : cq_ok c k → cq_inv c k es → get_next_cqe c = Ok (hd_error es).
Proof using.
  intros Hok Hinv. unfold get_next_cqe. rewrite cons_slot by done. pose proof (ck_k _ _ Hok).
  destruct (at_cqe_some c (cons_index c) Hok) as (e & He & ->). cbn [res_bind]. rewrite (ck_mask _ _ Hok).
  destruct es as [|e0 es]; cbn [hd_error list.head].
  - pose proof (cv_old _ _ _ Hinv 0 e) as H0. cbn in H0. rewrite Z.add_0_r in H0.
    specialize (H0 ltac:(lia) ltac:(lia) He). unfold fresh in H0. by destruct (sw_owned _ _ _).
  - destruct (cv_new _ _ _ Hinv 0%nat e0 eq_refl) as [H1 H2]. rewrite Z.add_0_r in H1, H2.
    assert (e = e0) as -> by congruence. unfold fresh in H2. by rewrite H2.
Qed.

Lemma cq_ok_cons c i : cq_ok c k → 0 ≤ i < 2 ^ 32 → cq_ok (cq_set_cons c i) k.
Proof using. intros [] Hi. by split. Qed.

Lemma cq_ok_stall c s : cq_ok c k → cq_ok (cq_set_stall c s) k.
Proof using. intros []. by split. Qed.
Lemma cq_inv_stall c s es : cq_inv c k es → cq_inv (cq_set_stall c s) k es.
Proof using. intros []. by split. Qed.

Lemma cq_inv_consume c e es :
  cq_ok c k → cq_inv c k (e :: es) → cq_inv (cq_set_cons c (u32 (cons_index c + 1))) k es.
Proof using.
  intros Hok [Hfit Hnew Hold]. pose proof (ck_k _ _ Hok) as Hk.
  assert (Epos : ∀ i, at_cqe (cq_set_cons c (u32 (cons_index c + 1))) k (u32 (cons_index c + 1) + i) =
                      at_cqe c k (cons_index c + 1 + i)).
  { intros i. unfold at_cqe. cbn [c_slots cq_set_cons]. do 2 f_equal.
    rewrite <-Zplus_mod_idemp_l, mod_u32_pow2, Zplus_mod_idemp_l by lia. done. }
  assert (Efr : ∀ i e, fresh (cq_set_cons c (u32 (cons_index c + 1))) k (u32 (cons_index c + 1) + i) e ↔
                       fresh c k (cons_index c + 1 + i) e).
  { intros i e'. unfold fresh. change (cqe_sz (cq_set_cons _ _)) with (cqe_sz c).
    assert (E : sw_owned (cqe_op_own (cqe64_of (cqe_sz c) e')) (u32 (cons_index c + 1) + i) (2 ^ k - 1) =
                sw_owned (cqe_op_own (cqe64_of (cqe_sz c) e')) (cons_index c + 1 + i) (2 ^ k - 1)).
    { rewrite <-(sw_owned_u32 _ (u32 _ + i)), <-(sw_owned_u32 _ (cons_index c + 1 + i)) by lia.
      f_equal. unfold u32. by rewrite Zplus_mod_idemp_l. }
    by rewrite E. }
  split; cbn [cons_index cq_set_cons].
  - cbn in Hfit. lia.
  - intros i e' Hi. rewrite Epos. setoid_rewrite Efr.
    replace (cons_index c + 1 + Z.of_nat i) with (cons_index c + Z.of_nat (S i)) by lia. by apply Hnew.
  - intros i e' Hi1 Hi2. rewrite Epos. setoid_rewrite Efr.
    destruct (decide (Z.of_nat (S i) < 2 ^ k)) as [Hlt|Hge].
    + replace (cons_index c + 1 + Z.of_nat i) with (cons_index c + Z.of_nat (S i)) by lia.
      apply Hold; [cbn; lia|done].
    + replace (cons_index c + 1 + Z.of_nat i) with (cons_index c + 2 ^ k) by lia.
      intros He Hf. destruct (Hnew 0%nat e eq_refl) as [He0 Hf0]. rewrite Z.add_0_r in He0, Hf0.
      assert (Ee : at_cqe c k (cons_index c + 2 ^ k) = at_cqe c k (cons_index c)).
      { unfold at_cqe. do 2 f_equal. replace (cons_index c + 2 ^ k) with (cons_index c + 1 * 2 ^ k) by lia.
        apply Z.mod_add. lia. }
      rewrite Ee, He0 in He. injection He as <-. unfold fresh in *. rewrite sw_owned_turn in Hf by (done || lia). done.
Qed.

(** ** The device writes an entry *)
Definition hw_slot (c : mlx5_cq) (n : Z) (e : list Z) : mlx5_cq :=
  cq_set_slots c (<[Z.to_nat (n mod 2 ^ k) := e]> (c_slots c)).

Lemma hw_write_spec c es e :
  cq_ok c k → cq_inv c k es → Z.of_nat (length es) < 2 ^ k →
  fresh c k (cons_index c + Z.of_nat (length es)) e →
  let c' := hw_slot c (cons_index c + Z.of_nat (length es)) e in
  cq_ok c' k ∧ cq_inv c' k (es ++ [e]).
Proof using.
  intros Hok [Hfit Hnew Hold] Hroom Hf c'. pose proof (ck_k _ _ Hok) as Hk.
  pose proof (ck_len _ _ Hok) as Hlen. set (n := cons_index c + Z.of_nat (length es)) in *.
  pose proof (Z.mod_pos_bound n (2 ^ k) ltac:(lia)) as Hn.
  assert (Hother : ∀ i, i ≠ length es → Z.of_nat i < 2 ^ k →
    at_cqe c' k (cons_index c + Z.of_nat i) = at_cqe c k (cons_index c + Z.of_nat i)).
  { intros i Hi Hik. unfold at_cqe, c', hw_slot. cbn [c_slots cq_set_slots].
    pose proof (Z.mod_pos_bound (cons_index c + Z.of_nat i) (2 ^ k) ltac:(lia)).
    apply list_lookup_insert_ne. intros E. apply Z2Nat.inj in E; [|lia..]. unfold n in E.
    pose proof (Z.div_mod (cons_index c + Z.of_nat i) (2 ^ k) ltac:(lia)).
    pose proof (Z.div_mod (cons_index c + Z.of_nat (length es)) (2 ^ k) ltac:(lia)).
    set (a := (cons_index c + Z.of_nat i) / 2 ^ k) in *.
    set (b := (cons_index c + Z.of_nat (length es)) / 2 ^ k) in *. clearbody a b.
    assert (Hd : Z.of_nat i - Z.of_nat (length es) = 2 ^ k * (a - b)) by lia.
    destruct (Z.lt_trichotomy (a - b) 0) as [?|[?|?]]; nia. }
  assert (Hthis : at_cqe c' k n = Some e).
  { unfold at_cqe, c', hw_slot. cbn [c_slots cq_set_slots]. apply list_lookup_insert_eq. lia. }
  split; [destruct Hok; split; try done; cbn; by rewrite length_insert|].
  split; change (cons_index c') with (cons_index c).
  - rewrite length_app. cbn. lia.
  - intros i e' Hi. destruct (decide (i = length es)) as [->|Hne].
    + rewrite lookup_app_r, Nat.sub_diag in Hi by lia. injection Hi as <-. done.
    + pose proof (lookup_lt_Some _ _ _ Hi) as Hlt. rewrite length_app in Hlt. cbn in Hlt.
      rewrite lookup_app_l in Hi by lia. rewrite Hother by lia. by apply Hnew.
  - intros i e' Hi1 Hi2. rewrite length_app in Hi1. cbn in Hi1. rewrite Hother by lia. apply Hold; lia.
Qed.

(** A new ring holds nothing. *)
Lemma new_cqe_stale sz n :
  sz = 64 ∨ sz = 128 → 0 ≤ k → sw_owned (cqe_op_own (cqe64_of sz (new_cqe sz))) n (2 ^ k - 1) = false.
Proof using. intros [-> | ->] _; reflexivity. Qed.

Lemma update_cons_spec c :
  cq_ok c k → mlx5_update_cons_index c =
    Ok (cq_set_dbrec c (<[0%nat := htonl (cons_index c mod 2 ^ 24)]> (dbrec c))).
Proof using.
  intros Hok. unfold mlx5_update_cons_index. rewrite arr_set_Ok by (rewrite (ck_db _ _ Hok); done).
  cbn [res_bind]. change 0xffffff with (2 ^ 24 - 1). rewrite u64_land_mask by lia. done.
Qed.
End Ring.
