(* ===== verification/Mlx5PollProof.v ===== *)
(** * libmlx5: completions release the slots of their queues

    A completion of a request returns the identifier of that request and
    frees its slot and those of the requests before it; a completion of a
    receive returns the identifier of the oldest posted buffer. *)

From stdpp Require Import base gmap list numbers.
From Stdlib Require Import ZArith Lia.
From S2P Require Import Prelude Mlx5Base Mlx5Wqe Mlx5WqeProof Mlx5Encode Mlx5Send Mlx5SqProof Mlx5SqThms Mlx5Recv Mlx5RecvProof Mlx5Table Mlx5Srq Mlx5Cq Mlx5CqProof Mlx5Poll.

(** ** Send queues *)
Definition sq_freed (q : mlx5_qp) (n : nat) : mlx5_qp :=
  qp_set_sq q (wq_set_tail (sq q) (u32 (tail (sq q) + Z.of_nat n))).

Lemma sq_state_freed q b bbmax k s0 o1 o2 :
  sq_state q b bbmax k s0 (o1 ++ o2) → sq_state (sq_freed q (length o1)) b bbmax k (s0 + span o1) o2.
Proof.
  intros (Hok & Hinv & Hh). split; [|split].
  - destruct Hok as [[] ? ? ? ? ? ? ? ? ? ? ? ?]. by split.
  - pose proof (so_k _ _ _ _ Hok) as Hk. destruct Hinv as [Hs Hf Ht Hsc Hat [F HF]].
    apply list.Forall_app in Hs as [Hs1 Hs2]. split; cbn; try done.
    + rewrite length_app in Hf. lia.
    + apply u32_range.
    + rewrite Hsc, span_app. f_equal. lia.
    + intros p1 s p2 E. destruct (Hat (o1 ++ p1) s p2) as (H1 & H2 & H3).
      { rewrite E. apply (assoc_L (++)). }
      rewrite span_app, Z.add_assoc in *. split; [exact H1|]. split; [|exact H3].
      cbn. rewrite H2. f_equal. rewrite length_app. unfold u32. rewrite Zplus_mod_idemp_l. f_equal. lia.
    + rewrite map_app, concat_app, <-(assoc_L (++)) in HF.
      pose proof (eo_pos _ _ (so_env _ _ _ _ Hok)) as Hp. cbn in Hp.
      exists (F ++ concat (map sl_bytes o1)).
      replace ((64 * (s0 + span o1)) mod sqend q) with
        (((64 * s0) mod sqend q + Z.of_nat (length (concat (map sl_bytes o1)))) mod sqend q).
      * etrans; [eapply ring_list_rotate; [exact Hp|exact HF|reflexivity]|]. by rewrite <-(assoc_L (++)).
      * rewrite Zplus_mod_idemp_l, (length_slot_bytes _ _ _ Hs1). f_equal. lia.
  - cbn. rewrite Hh, length_app. unfold u32. rewrite Zplus_mod_idemp_l. f_equal. lia.
Qed.

Lemma sq_complete_spec q b bbmax k s0 o1 s o2 w :
  sq_state q b bbmax k s0 (o1 ++ s :: o2) →
  sq_complete q w (hq_idx (sl_req s)) =
  Ok (wc_set_id w (sl_wrid s), sq_freed q (length (o1 ++ [s]))).
Proof.
  intros (Hok & Hinv & Hh). pose proof (so_k _ _ _ _ Hok) as Hk.
  destruct (si_at _ _ _ _ Hinv o1 s o2 eq_refl) as (H1 & H2 & H3).
  assert (Hc : 0 < wqe_cnt (sq q) ≤ 2 ^ 15).
  { rewrite (so_cnt _ _ _ _ Hok). split; [lia|]. apply Z.pow_le_mono_r; lia. }
  assert (Ei : hq_idx (sl_req s) .& u32 (wqe_cnt (sq q) - 1) = (s0 + span o1) mod wqe_cnt (sq q)).
  { rewrite u32_small by lia. rewrite H3, (so_cnt _ _ _ _ Hok), u64_land_mask by lia. unfold u16.
    apply Z.mod_mod_divide. exists (2 ^ (16 - k)). rewrite <-Z.pow_add_r by lia. f_equal. lia. }
  pose proof (Z.mod_pos_bound (s0 + span o1) (wqe_cnt (sq q)) ltac:(lia)).
  unfold sq_complete. rewrite Ei, (arr_get_Z _ _ (sl_wrid s)) by (done || lia). cbn [res_bind].
  erewrite arr_get_Z by (done || lia). cbn [res_bind]. unfold sq_freed. do 4 f_equal.
  rewrite length_app. unfold u32. rewrite Zplus_mod_idemp_l. f_equal. cbn. lia.
Qed.

(** ** Receive queues *)
Lemma rq_inv_tail q k wr out :
  rq_ok q k → rq_inv (rq q) (wr :: out) →
  rq_inv (wq_set_tail (rq q) (u32 (tail (rq q) + 1))) out.
Proof.
  intros Hok [Hf Ht Hat]. pose proof (ro_k _ _ Hok). split; cbn.
  - cbn in Hf. lia.
  - apply u32_range.
  - intros i wr' Hi. destruct (Hat (S i) wr' Hi) as [H1 H2].
    assert (E : (u32 (tail (rq q) + 1) + Z.of_nat i) mod wqe_cnt (rq q) =
                (tail (rq q) + Z.of_nat (S i)) mod wqe_cnt (rq q)).
    { rewrite (ro_cnt _ _ Hok), <-Zplus_mod_idemp_l, mod_u32_pow2, Zplus_mod_idemp_l by lia. f_equal. lia. }
    unfold rq_slot. cbn [wqe_cnt wq_set_tail buff wqe_shift]. rewrite E. split; [exact H1|].
    exact H2.
Qed.

Lemma rq_tail_index q k wr out :
  rq_ok q k → rq_inv (rq q) (wr :: out) →
  tail (rq q) .& u32 (wqe_cnt (rq q) - 1) = tail (rq q) mod wqe_cnt (rq q) ∧
  0 ≤ tail (rq q) mod wqe_cnt (rq q) < 2 ^ 16 ∧
  arr_get (wrid (rq q)) (tail (rq q) mod wqe_cnt (rq q)) = Ok (rwr_id wr).
Proof.
  intros Hok Hinv. pose proof (rq_ind_land k q (tail (rq q)) Hok) as E.
  pose proof (rq_ind_range k q 0 Hok) as Hr. unfold rq_ind in Hr. rewrite Z.add_0_r in Hr.
  assert (wqe_cnt (rq q) ≤ 2 ^ 16).
  { rewrite (ro_cnt _ _ Hok). apply Z.pow_le_mono_r; [lia|apply Hok]. }
  split; [done|]. split; [lia|]. destruct (ri_at _ _ Hinv 0 wr eq_refl) as [H1 _].
  rewrite Z.add_0_r in H1. apply arr_get_Z; [lia|done].
Qed.

(** ** Lookups *)

(** The table in use maps the number of an entry to queue pair [qi]; the
    cached resource, if any, is in the table. *)
Record ctx_ok (x : mlx5_context) (m : gmap Z mlx5_resource) : Prop := CtxOk
  { cx_table : table_ok (x_rsc_table x) m;
    cx_rsn : ∀ n r, m !! n = Some r → r_rsn r = n }.

Definition cache_ok (m : gmap Z mlx5_resource) (cur : option mlx5_resource) : Prop :=
  ∀ r, cur = Some r → m !! r_rsn r = Some r.

Lemma poll_lookup_spec m p rsn r resp :
  ctx_ok (p_ctx p) m → cache_ok m (cur_rsc p) → m !! rsn = Some r →
  poll_lookup false resp rsn 0 p = Ok (true, false, p_set_cur p (Some r) (cur_srq p)).
Proof.
  intros Hx Hc Hm. pose proof (to_dom _ _ (cx_table _ _ Hx) rsn ltac:(by eexists)) as Hr.
  unfold poll_lookup. cbn [negb Z.eqb]. rewrite andb_false_r. cbn [res_bind negb].
  rewrite (find_rsc_spec _ m) by (exact (cx_table _ _ Hx) || done). rewrite Hm. cbn [res_bind orb].
  destruct p as [c x cr cs]. cbn [cur_rsc] in *. destruct cr as [r'|]; [|by rewrite bool_decide_eq_true_2].
  destruct (rsn =? r_rsn r') eqn:E; [|by rewrite bool_decide_eq_true_2].
  apply Z.eqb_eq in E. rewrite E in Hm. pose proof (Hc r' eq_refl) as H'. rewrite H' in Hm.
  injection Hm as ->. done.
Qed.

(** ** One completion of a request *)

(** An entry about a request of queue pair number [rsn]: plain, without
    inline data. *)
Record plain_cqe (c : mlx5_cq) (slot : list Z) (op rsn : Z) : Prop := PlainCqe
  { pc_op : cqe_op_own (cqe64_of (cqe_sz c) slot) .>> 4 = op;
    pc_fmt : mlx5_get_cqe_format (cqe64_of (cqe_sz c) slot) = 0;
    pc_rsn : cqe_sop_drop_qpn (cqe64_of (cqe_sz c) slot) .& 0xffffff = rsn;
    pc_srq : cqe_srqn_uidx (cqe64_of (cqe_sz c) slot) .& 0xffffff = 0 }.

(** The part of [mlx5_poll_one] that all such entries share. *)
Definition poll_body (has : wc_field → bool) (ts : bool) (c : mlx5_cq) (w : ibv_wc) (slot : list Z) (op rsn qi : Z)
    (p : poll_st) : res (Z * ibv_wc * poll_st) :=
  let r := Rsc MLX5_RSC_TYPE_QP rsn qi in
  let p := p_set_cur p (Some r) (cur_srq p) in
  let cqe := cqe64_of (cqe_sz c) slot in
  let w := wc_set_flags w [] in
  let '(w, fl) := if has WF_qp then (wc_set_ptrs w (Some qi) (wc_srq w) (wc_dct w), [IBV_EXP_WC_QP])
                  else (w, []) in
  let t := Target (Some qi) None MLX5_RSC_TYPE_QP false fl in
  let w := wc_set_qpn w rsn in
  let! (err, w, x) :=
    (if op =? MLX5_CQE_REQ then poll_req c (p_ctx p) (Some qi) w slot 0
     else if (op =? MLX5_CQE_REQ_ERR) || (op =? MLX5_CQE_RESP_ERR)
     then poll_err (p_ctx p) t (cur_srq p) w cqe (op =? MLX5_CQE_REQ_ERR)
     else poll_resp c (p_ctx p) t (cur_srq p) w slot) in
  let p := p_set_ctx p x in
  if negb (err =? CQ_OK) then Ok (err, w, p)
  else
    let fl := if is_responder op && negb (op =? MLX5_CQE_RESP_ERR) then csum_flags x (Some qi) cqe ++ fl else fl in
    let '(w, fl) := if ts then (wc_set_time w (cqe_timestamp cqe), IBV_EXP_WC_WITH_TIMESTAMP :: fl) else (w, fl) in
    Ok (CQ_OK, if has WF_exp_flags then wc_set_exp w (fl ++ wc_flags w) else w, p).

Lemma poll_one_body has ts w p m k slot es op rsn qi :
  cq_ok (p_cq p) k → cq_inv (p_cq p) k (slot :: es) → plain_cqe (p_cq p) slot op rsn →
  (is_requestor op || is_responder op) = true →
  ctx_ok (p_ctx p) m → cache_ok m (cur_rsc p) → m !! rsn = Some (Rsc MLX5_RSC_TYPE_QP rsn qi) →
  let c := cq_set_cons (p_cq p) (u32 (cons_index (p_cq p) + 1)) in
  mlx5_poll_one has ts false w p =
  poll_body has ts c w slot op rsn qi (PollSt c (p_ctx p) (cur_rsc p) (cur_srq p)).
Proof.
  intros Hc Hinv Hpc Hop Hx Hca Hm c. unfold mlx5_poll_one, next_cqe_sw.
  rewrite (next_cqe_spec k _ _ Hc Hinv). cbn [res_bind hd_error list.head].
  rewrite (pc_fmt _ _ _ _ Hpc). change (0 =? MLX5_COMPRESSED) with false. cbn [res_bind].
  fold c. destruct (cv_new _ _ _ Hinv 0 slot eq_refl) as [Hat _]. rewrite Z.add_0_r in Hat.
  rewrite (cons_slot k) by done. change (get_cqe c) with (get_cqe (p_cq p)).
  rewrite (get_cqe_at k _ _ slot) by (done || apply Hc). cbn [res_bind].
  change (cqe_sz c) with (cqe_sz (p_cq p)).
  rewrite (pc_op _ _ _ _ Hpc), (pc_rsn _ _ _ _ Hpc), (pc_srq _ _ _ _ Hpc).
  assert (Hn : negb (is_requestor op) && negb (is_responder op) = false).
  { by destruct (is_requestor op), (is_responder op). }
  rewrite Hn. rewrite (poll_lookup_spec m _ rsn (Rsc MLX5_RSC_TYPE_QP rsn qi)) by done.
  cbn [res_bind negb]. unfold poll_target_of, poll_body. cbn [cur_rsc p_set_cur r_type r_obj].
  destruct (has WF_qp); cbn [andb]; reflexivity.
Qed.

(** The opcode of a completed request. *)
Definition wc_opcodes : list Z :=
  [MLX5_OPCODE_RDMA_WRITE; MLX5_OPCODE_RDMA_WRITE_IMM; MLX5_OPCODE_SEND; MLX5_OPCODE_SEND_IMM].
Definition wc_of_opcode (o : Z) : ibv_wc_opcode :=
  if (o =? MLX5_OPCODE_RDMA_WRITE) || (o =? MLX5_OPCODE_RDMA_WRITE_IMM) then IBV_WC_RDMA_WRITE else IBV_WC_SEND.

Lemma poll_one_req has ts w p m k slot es rsn qi q b bbmax kq s0 o1 s o2 :
  cq_ok (p_cq p) k → cq_inv (p_cq p) k (slot :: es) → plain_cqe (p_cq p) slot MLX5_CQE_REQ rsn →
  cqe_wqe_counter (cqe64_of (cqe_sz (p_cq p)) slot) = hq_idx (sl_req s) →
  ctx_ok (p_ctx p) m → cache_ok m (cur_rsc p) → m !! rsn = Some (Rsc MLX5_RSC_TYPE_QP rsn qi) →
  x_qps (p_ctx p) !! qi = Some q → sq_state q b bbmax kq s0 (o1 ++ s :: o2) →
  0 ≤ mlx5_hrd_qp_index q < Z.of_nat (length (x_stats (p_ctx p))) →
  ∃ w' p' stats, mlx5_poll_one has ts false w p = Ok (CQ_OK, w', p') ∧
    wr_id w' = sl_wrid s ∧ status w' = IBV_WC_SUCCESS ∧ qp_num w' = rsn ∧
    (∀ o, cqe_sop_drop_qpn (cqe64_of (cqe_sz (p_cq p)) slot) .>> 24 = o → o ∈ wc_opcodes →
       opcode w' = wc_of_opcode o) ∧
    p_cq p' = cq_set_cons (p_cq p) (u32 (cons_index (p_cq p) + 1)) ∧
    p_ctx p' = ctx_set_qp (ctx_set_stats (p_ctx p) stats) qi (sq_freed q (length (o1 ++ [s]))) ∧
    length stats = length (x_stats (p_ctx p)) ∧ cache_ok m (cur_rsc p').
Proof.
  intros Hc Hinv Hpc Hctr Hx Hca Hm Hq Hsq Hst.
  rewrite (poll_one_body _ _ _ _ m k slot es MLX5_CQE_REQ rsn qi) by done.
  set (c := cq_set_cons _ _). unfold poll_body. cbn [p_ctx p_set_cur].
  destruct (stats_add_ok (x_stats (p_ctx p)) (mlx5_hrd_qp_index q) 0 (mlx5_hrd_dma_write_n2c 64) Hst)
    as (stats & Es & Hlen).
  assert (Hreq : ∀ w0, poll_req c (p_ctx p) (Some qi) w0 slot 0 =
    Ok (CQ_OK, wc_set_status (wc_set_id (handle_good_req w0 (cqe64_of (cqe_sz (p_cq p)) slot)) (sl_wrid s)) 0,
        ctx_set_qp (ctx_set_stats (p_ctx p) stats) qi (sq_freed q (length (o1 ++ [s]))))).
  { intros w0. unfold poll_req. cbn [deref]. rewrite Hq. cbn [res_bind]. rewrite Es. cbn [res_bind].
    change (has_inline 0) with false. cbn [res_bind]. change (cqe_sz c) with (cqe_sz (p_cq p)).
    rewrite Hctr. by rewrite (sq_complete_spec q b bbmax kq s0 o1 s o2) by done. }
  assert (Hh : ∀ w0 e, qp_num (handle_good_req w0 e) = qp_num w0).
  { intros w0 e. unfold handle_good_req. by repeat (case_match; [done|]). }
  assert (Ho : ∀ w0 e o, cqe_sop_drop_qpn e .>> 24 = o → o ∈ wc_opcodes →
                 opcode (handle_good_req w0 e) = wc_of_opcode o).
  { intros w0 e o E Hin. unfold handle_good_req. rewrite E. unfold wc_opcodes in Hin. set_unfold in Hin.
    by destruct Hin as [->|[->|[->|[->|[]]]]]. }
  change (MLX5_CQE_REQ =? MLX5_CQE_REQ) with true.
  destruct (has WF_qp), ts, (has WF_exp_flags); cbv beta iota; rewrite Hreq; cbn [res_bind CQ_OK Z.eqb negb];
    (eexists _, _, stats; split; [reflexivity|]; cbn; rewrite ?Hh; cbn; do 3 (split; [done|]);
     split; [by apply Ho|]; do 3 (split; [done|]); intros r [= <-]; done).
Qed.

(** ** One message received *)
Definition rq_popped (q : mlx5_qp) : mlx5_qp :=
  qp_set_rq q (wq_set_tail (rq q) (u32 (tail (rq q) + 1))).

Lemma rq_popped_ok q k wr out :
  rq_ok q k → rq_inv (rq q) (wr :: out) → head (rq q) = u32 (tail (rq q) + Z.of_nat (length (wr :: out))) →
  rq_ok (rq_popped q) k ∧ rq_inv (rq (rq_popped q)) out ∧
  head (rq (rq_popped q)) = u32 (tail (rq (rq_popped q)) + Z.of_nat (length out)).
Proof.
  intros Hok Hinv Hh. split; [by destruct Hok|]. split; [by eapply rq_inv_tail|].
  cbn. rewrite Hh. unfold u32. rewrite Zplus_mod_idemp_l. f_equal. cbn. lia.
Qed.

Lemma poll_one_recv has ts w p m k slot es rsn qi q kq wr out :
  cq_ok (p_cq p) k → cq_inv (p_cq p) k (slot :: es) → plain_cqe (p_cq p) slot MLX5_CQE_RESP_SEND rsn →
  ctx_ok (p_ctx p) m → cache_ok m (cur_rsc p) → m !! rsn = Some (Rsc MLX5_RSC_TYPE_QP rsn qi) →
  x_qps (p_ctx p) !! qi = Some q → rq_ok q kq → rq_inv (rq q) (wr :: out) →
  0 ≤ mlx5_hrd_qp_index q < Z.of_nat (length (x_stats (p_ctx p))) →
  ∃ w' p' stats, mlx5_poll_one has ts false w p = Ok (CQ_OK, w', p') ∧
    wr_id w' = rwr_id wr ∧ status w' = IBV_WC_SUCCESS ∧ opcode w' = IBV_WC_RECV ∧
    byte_len w' = cqe_byte_cnt (cqe64_of (cqe_sz (p_cq p)) slot) ∧
    p_cq p' = cq_set_cons (p_cq p) (u32 (cons_index (p_cq p) + 1)) ∧
    p_ctx p' = ctx_set_stats (ctx_set_qp (p_ctx p) qi (rq_popped q)) stats ∧
    length stats = length (x_stats (p_ctx p)) ∧ cache_ok m (cur_rsc p').
Proof.
  intros Hc Hinv Hpc Hx Hca Hm Hq Hrq Hri Hst.
  rewrite (poll_one_body _ _ _ _ m k slot es MLX5_CQE_RESP_SEND rsn qi) by done.
  set (c := cq_set_cons _ _). unfold poll_body. cbn [p_ctx p_set_cur].
  destruct (rq_tail_index q kq wr out Hrq Hri) as (E1 & E2 & E3).
  assert (Hresp : ∀ w0 fl, ∃ w1 stats, poll_resp c (p_ctx p) (Target (Some qi) None MLX5_RSC_TYPE_QP false fl)
      (cur_srq p) w0 slot = Ok (CQ_OK, w1, ctx_set_stats (ctx_set_qp (p_ctx p) qi (rq_popped q)) stats) ∧
    wr_id w1 = rwr_id wr ∧ status w1 = IBV_WC_SUCCESS ∧ opcode w1 = IBV_WC_RECV ∧
    byte_len w1 = cqe_byte_cnt (cqe64_of (cqe_sz (p_cq p)) slot) ∧ length stats = length (x_stats (p_ctx p))).
  { intros w0 fl. unfold poll_resp, handle_responder. cbn [t_is_srq t_mqp t_type].
    change (cqe_sz c) with (cqe_sz (p_cq p)). rewrite (pc_fmt _ _ _ _ Hpc), (pc_op _ _ _ _ Hpc).
    cbn [deref]. rewrite Hq. cbn [res_bind]. rewrite E1. unfold u16 at 1. rewrite (Z.mod_small _ (2 ^ 16)) by lia.
    rewrite E3. cbn [res_bind default]. change (has_inline 0) with false. cbn [res_bind negb Z.eqb].
    cbn [x_qps ctx_set_qp x_stats]. rewrite lookup_insert_eq. cbn [res_bind].
    set (n2c := if _ =? 0 then _ else _).
    destruct (stats_add_ok (x_stats (p_ctx p)) (mlx5_hrd_qp_index q) 0 n2c Hst) as (stats & Es & Hlen).
    cbn [mlx5_hrd_qp_index qp_set_rq]. rewrite Es. cbn [res_bind]. eexists _, stats. split; [reflexivity|].
    by repeat split. }
  change (MLX5_CQE_RESP_SEND =? MLX5_CQE_REQ) with false.
  change ((MLX5_CQE_RESP_SEND =? MLX5_CQE_REQ_ERR) || (MLX5_CQE_RESP_SEND =? MLX5_CQE_RESP_ERR)) with false.
  destruct (has WF_qp), ts, (has WF_exp_flags); cbv beta iota;
    match goal with |- context [poll_resp _ _ (Target _ _ _ _ ?fl) _ ?w0 _] =>
      destruct (Hresp w0 fl) as (w1 & stats & E & H1 & H2 & H3 & H4 & H5) end;
    cbn [cur_srq p_set_cur p_ctx] in *; rewrite E; cbn [res_bind CQ_OK Z.eqb negb];
    (eexists _, _, stats; split; [reflexivity|]; cbn; do 7 (split; [done|]); intros r [= <-]; done).
Qed.

(** A receive without a queue pair (a DC target, an XRC shared queue) reads
    the statistics index of a queue pair that is not there. *)
Lemma poll_resp_no_qp c x t srq w slot r :
  t_mqp t = None → handle_responder c x w slot None (if t_is_srq t then srq else None) (t_type t) = Ok r →
  poll_resp c x t srq w slot = Fault NullDeref.
Proof. intros Ht E. unfold poll_resp. rewrite Ht, E. by destruct r as [[st w'] x']. Qed.
