(* ===== verification/Mlx5CqClean.v ===== *)
(** * libmlx5: removing the entries of a queue from a completion queue

    [__mlx5_cq_clean] leaves exactly the new entries of the other queues, in
    their order, among the [2 ^ k - 1] oldest; on a full ring it does not look
    at the newest entry, which stays ([cq_clean_spec]). *)

From stdpp Require Import base gmap list numbers.
From Stdlib Require Import ZArith Lia.
From S2P Require Import Prelude Mlx5Base Mlx5Wqe Mlx5Send Mlx5SqProof Mlx5Srq Mlx5Cq Mlx5CqProof.

(** ** Entries up to their ownership bit *)
Definition own_off (sz : Z) : nat := if sz =? 64 then 63 else 127.

Definition size_ok (sz : Z) (e : list Z) : Prop :=
  (sz = 64 ∨ sz = 128) ∧ Z.of_nat (length e) = sz ∧ 0 ≤ default 0 (e !! own_off sz) < 256.

Lemma own_of sz e : sz = 64 ∨ sz = 128 → cqe_op_own (cqe64_of sz e) = default 0 (e !! own_off sz).
Proof. unfold cqe_op_own, cqe64_of, own_off. intros [-> | ->]; cbn [Z.eqb Pos.eqb]; [done|]. by rewrite lookup_drop. Qed.

(** The entry with [v] as its last byte. *)
Definition set_own (sz : Z) (e : list Z) (v : Z) : list Z := set_fld (own_off sz) [v] e.

Definition same_cqe (sz : Z) (e e' : list Z) : Prop :=
  e' = e ∨ ∃ b, (b = 0 ∨ b = 1) ∧ e' = set_own sz e (b .| (default 0 (e !! own_off sz) .& 0xfe)).

Lemma set_own_insert sz e v : size_ok sz e → set_own sz e v = <[own_off sz := v]> e.
Proof.
  intros (Hsz & Hl & _). unfold set_own, set_fld. assert (Ho : (own_off sz < length e)%nat).
  { unfold own_off. destruct Hsz as [-> | ->]; cbn [Z.eqb Pos.eqb]; lia. }
  rewrite insert_take_drop by done. cbn [length app]. by rewrite Nat.add_1_r.
Qed.

Lemma set_own_lookup sz e v : size_ok sz e → set_own sz e v !! own_off sz = Some v.
Proof.
  intros H. rewrite set_own_insert by done. apply list_lookup_insert_eq.
  destruct H as ([-> | ->] & Hl & _); unfold own_off; cbn [Z.eqb Pos.eqb]; lia.
Qed.

(** Only the last bit of the byte changes. *)
Lemma own_parts b v :
  (b = 0 ∨ b = 1) → 0 ≤ v < 256 →
  (b .| (v .& 0xfe)) .>> 4 = v .>> 4 ∧ (b .| (v .& 0xfe)) .& 1 = b ∧ 0 ≤ b .| (v .& 0xfe) < 256.
Proof.
  intros Hb Hv.
  assert (E : ∀ n : nat, (n < 256)%nat → let v := Z.of_nat n in
    (0 .| (v .& 0xfe)) .>> 4 = v .>> 4 ∧ (0 .| (v .& 0xfe)) .& 1 = 0 ∧ 0 ≤ 0 .| (v .& 0xfe) < 256 ∧
    (1 .| (v .& 0xfe)) .>> 4 = v .>> 4 ∧ (1 .| (v .& 0xfe)) .& 1 = 1 ∧ 0 ≤ 1 .| (v .& 0xfe) < 256).
  { assert (H : forallb (λ n, let v := Z.of_nat n in
      ((0 .| (v .& 0xfe)) .>> 4 =? v .>> 4) && ((0 .| (v .& 0xfe)) .& 1 =? 0) &&
      (0 <=? 0 .| (v .& 0xfe)) && (0 .| (v .& 0xfe) <? 256) &&
      ((1 .| (v .& 0xfe)) .>> 4 =? v .>> 4) && ((1 .| (v .& 0xfe)) .& 1 =? 1) &&
      (0 <=? 1 .| (v .& 0xfe)) && (1 .| (v .& 0xfe) <? 256)) (seq 0 256) = true) by (vm_compute; reflexivity).
    intros n Hn. rewrite forallb_forall in H. specialize (H n ltac:(apply in_seq; lia)). cbv zeta in H.
    rewrite !andb_true_iff, !Z.eqb_eq, !Z.leb_le, !Z.ltb_lt in H. cbv zeta. tauto. }
  specialize (E (Z.to_nat v) ltac:(lia)). cbv zeta in E. rewrite Z2Nat.id in E by lia.
  destruct Hb as [-> | ->]; tauto.
Qed.

Lemma set_own_size sz e v : size_ok sz e → 0 ≤ v < 256 → size_ok sz (set_own sz e v).
Proof.
  intros H Hv. split; [apply H|]. split; [rewrite set_own_insert, length_insert by done; apply H|].
  by rewrite set_own_lookup.
Qed.

Section Clean.
Context (k rsn ver : Z).

(** The entry belongs to the queue that goes away. *)
Definition mine (sz : Z) (e : list Z) : bool :=
  if negb (ver =? 0) then is_equal_uidx (cqe64_of sz e) rsn else is_equal_rsn (cqe64_of sz e) rsn.

Lemma free_res_none sz e : free_res_cqe (cqe64_of sz e) rsn None ver = Ok (mine sz e, None).
Proof using.
  unfold free_res_cqe, mine. destruct (ver =? 0); cbn [negb];
    [destruct (is_equal_rsn _ _)|destruct (is_equal_uidx _ _)]; done.
Qed.

Definition pos (c : mlx5_cq) (j : nat) : Z := cons_index c + Z.of_nat j.

Lemma pos_inj x i j :
  0 ≤ k → 0 ≤ i < 2 ^ k → 0 ≤ j < 2 ^ k → (x + i) mod 2 ^ k = (x + j) mod 2 ^ k → i = j.
Proof using.
  intros Hk Hi Hj E. pose proof (Z.div_mod (x + i) (2 ^ k) ltac:(lia)).
  pose proof (Z.div_mod (x + j) (2 ^ k) ltac:(lia)).
  set (a := (x + i) / 2 ^ k) in *. set (b := (x + j) / 2 ^ k) in *. clearbody a b.
  destruct (Z.lt_trichotomy (a - b) 0) as [?|[?|?]]; nia.
Qed.

Lemma at_hw_slot c n e m :
  cq_ok c k → at_cqe (hw_slot k c n e) k m = if decide (m mod 2 ^ k = n mod 2 ^ k) then Some e else at_cqe c k m.
Proof using.
  intros Hok. pose proof (ck_k _ _ Hok). pose proof (ck_len _ _ Hok).
  pose proof (Z.mod_pos_bound n (2 ^ k) ltac:(lia)). pose proof (Z.mod_pos_bound m (2 ^ k) ltac:(lia)).
  unfold at_cqe, hw_slot. cbn [c_slots cq_set_slots]. case_decide as E.
  - rewrite E. apply list_lookup_insert_eq. lia.
  - apply list_lookup_insert_ne. intros E'. apply Z2Nat.inj in E'; lia.
Qed.

Record swept (c0 c : mlx5_cq) (es : list (list Z)) (i nf : nat) (L : list (list Z)) : Prop := Swept
  { sw_c : ∃ s, c = cq_set_slots c0 s;
    sw_ok : cq_ok c k;
    sw_lo : ∀ j e, (j < i)%nat → es !! j = Some e → at_cqe c k (pos c0 j) = Some e;
    sw_fresh : ∀ j, (j < length es)%nat →
      ∃ e, at_cqe c k (pos c0 j) = Some e ∧ fresh c0 k (pos c0 j) e ∧ size_ok (cqe_sz c0) e;
    sw_hi : ∀ j e, L !! j = Some e → at_cqe c k (pos c0 (i + nf + j)) = Some e;
    sw_len : (i + nf + length L = length es)%nat;
    sw_same : Forall2 (same_cqe (cqe_sz c0)) (List.filter (λ e, negb (mine (cqe_sz c0) e)) (drop i es)) L;
    sw_old : ∀ j, (length es ≤ j)%nat → Z.of_nat j < 2 ^ k → at_cqe c k (pos c0 j) = at_cqe c0 k (pos c0 j) }.

Lemma swept_mine c0 c es i nf L e :
  swept c0 c es (S i) nf L → es !! i = Some e → mine (cqe_sz c0) e = true → swept c0 c es i (S nf) L.
Proof using.
  intros [? ? Hlo ? Hhi Hlen Hs ?] He Hm. split; try done.
  - intros j e' Hj. apply Hlo. lia.
  - intros j e' Hj. replace (i + S nf + j)%nat with (S i + nf + j)%nat by lia. by apply Hhi.
  - lia.
  - rewrite (drop_S _ _ _ He). cbn [List.filter]. by rewrite Hm.
Qed.

Lemma swept_keep c0 c es i L e :
  swept c0 c es (S i) 0 L → es !! i = Some e → mine (cqe_sz c0) e = false → swept c0 c es i 0 (e :: L).
Proof using.
  intros [? ? Hlo ? Hhi Hlen Hs ?] He Hm. split; try done.
  - intros j e' Hj. apply Hlo. lia.
  - intros [|j] e' Hj.
    + injection Hj as <-. rewrite !Nat.add_0_r. apply Hlo; [lia|done].
    + replace (i + 0 + S j)%nat with (S i + 0 + j)%nat by lia. by apply Hhi.
  - cbn. lia.
  - rewrite (drop_S _ _ _ He). cbn [List.filter]. rewrite Hm. cbn. constructor; [by left|done].
Qed.

(** The byte of a moved entry. *)
Lemma fresh_moved c n n' e d :
  0 ≤ k → size_ok (cqe_sz c) e → size_ok (cqe_sz c) d → fresh c k n e → fresh c k n' d →
  let b := default 0 (d !! own_off (cqe_sz c)) .& 1 in
  let e' := set_own (cqe_sz c) e (b .| (default 0 (e !! own_off (cqe_sz c)) .& 0xfe)) in
  (b = 0 ∨ b = 1) ∧ fresh c k n' e' ∧ size_ok (cqe_sz c) e'.
Proof using.
  intros Hk He Hd Hfe Hfd b e'.
  assert (Hb : b = 0 ∨ b = 1).
  { unfold b. change 1 with (2 ^ 1 - 1). rewrite u64_land_mask by lia.
    pose proof (Z.mod_pos_bound (default 0 (d !! own_off (cqe_sz c))) (2 ^ 1) ltac:(lia)). lia. }
  pose proof He as (Hsz & _ & Hv). destruct (own_parts b _ Hb Hv) as (P1 & P2 & P3).
  pose proof (set_own_size _ e _ He P3) as Hs'. split; [done|]. split; [|done].
  unfold fresh in *. rewrite own_of in * by done. unfold e' at 1. rewrite set_own_lookup by done.
  match goal with |- sw_owned (default 0 (Some ?v)) _ _ = _ => change (default 0 (Some v)) with v end.
  unfold sw_owned in *. unfold MLX5_CQE_OWNER_MASK in *. rewrite P1, P2.
  apply andb_true_iff in Hfe as [-> _]. apply andb_true_iff in Hfd as [_ Hfd]. cbn [andb].
  rewrite <-Hfd. done.
Qed.

Lemma swept_move c0 c es i nf L e d :
  swept c0 c es (S i) nf L → (0 < nf)%nat → es !! i = Some e → mine (cqe_sz c0) e = false →
  at_cqe c k (pos c0 (i + nf)) = Some d → Z.of_nat (length es) ≤ 2 ^ k →
  let e' := set_own (cqe_sz c0) e
    ((default 0 (d !! own_off (cqe_sz c0)) .& 1) .| (default 0 (e !! own_off (cqe_sz c0)) .& 0xfe)) in
  swept c0 (hw_slot k c (pos c0 (i + nf)) e') es i nf (e' :: L).
Proof using.
  intros [Hc Hok Hlo Hfr Hhi Hlen Hs Hold] Hnf He Hm Hd Hfit e'. pose proof (ck_k _ _ Hok) as Hk.
  pose proof (lookup_lt_Some _ _ _ He) as Hi.
  destruct (Hfr i Hi) as (e1 & A1 & F1 & S1). rewrite (Hlo i e) in A1 by (lia || done). injection A1 as <-.
  destruct (Hfr (i + nf)%nat ltac:(lia)) as (d1 & A2 & F2 & S2). rewrite Hd in A2. injection A2 as <-.
  destruct (fresh_moved c0 _ _ e d ltac:(lia) S1 S2 F1 F2) as (Hb & F' & S'). fold e' in F', S'.
  assert (Hne : ∀ j, (j ≠ i + nf)%nat → Z.of_nat j < 2 ^ k →
    at_cqe (hw_slot k c (pos c0 (i + nf)) e') k (pos c0 j) = at_cqe c k (pos c0 j)).
  { intros j Hj Hj2. rewrite at_hw_slot by done. rewrite decide_False; [done|]. unfold pos. intros E.
    apply pos_inj in E; lia. }
  assert (Heq : at_cqe (hw_slot k c (pos c0 (i + nf)) e') k (pos c0 (i + nf)) = Some e').
  { rewrite at_hw_slot by done. by rewrite decide_True. }
  split.
  - destruct Hc as [s ->]. by eexists.
  - destruct Hok. split; try done. cbn. by rewrite length_insert.
  - intros j e2 Hj. rewrite Hne by lia. apply Hlo. lia.
  - intros j Hj. destruct (decide (j = i + nf)%nat) as [->|Hj2]; [by exists e'|].
    rewrite Hne by lia. by apply Hfr.
  - intros [|j] e2 Hj.
    + injection Hj as <-. by rewrite Nat.add_0_r.
    + pose proof (lookup_lt_Some _ _ _ Hj). cbn in H. rewrite Hne by lia.
      replace (i + nf + S j)%nat with (S i + nf + j)%nat by lia. by apply Hhi.
  - cbn. lia.
  - rewrite (drop_S _ _ _ He). cbn [List.filter]. rewrite Hm. cbn [negb]. constructor; [|done].
    right. eexists. split; [exact Hb|reflexivity].
  - intros j H1 H2. rewrite Hne by lia. by apply Hold.
Qed.

Lemma s32_sub x y : - 2 ^ 31 ≤ x - y < 2 ^ 31 → s32 (u32 x - y) = x - y.
Proof using.
  intros H. unfold s32, u32. replace (x mod 2 ^ 32 - y + 2 ^ 31) with (x mod 2 ^ 32 + (2 ^ 31 - y)) by lia.
  rewrite Zplus_mod_idemp_l, Z.mod_small; lia.
Qed.

Lemma u32_pred x : u32 (u32 x - 1) = u32 (x - 1).
Proof using. unfold u32. by rewrite Zminus_mod_idemp_l. Qed.

Lemma clean_sweep_spec c0 es : ∀ i fuel c nf L,
  cq_ok c0 k → (i < fuel)%nat → Z.of_nat (length es) ≤ 2 ^ k → swept c0 c es i nf L →
  ∃ c' nf' L', clean_sweep fuel c (u32 (pos c0 i)) (Z.of_nat nf) rsn None ver = Ok (c', Z.of_nat nf', None) ∧
    swept c0 c' es 0 nf' L'.
Proof using.
  induction i as [|i IH]; intros fuel c nf L Hok0 Hf Hfit Hsw; (destruct fuel as [|fuel]; [lia|]);
    cbn [clean_sweep]; pose proof (sw_c _ _ _ _ _ _ Hsw) as [s Es];
    assert (Ecs : cons_index c = cons_index c0) by (by subst c);
    assert (Esz : cqe_sz c = cqe_sz c0) by (by subst c);
    rewrite u32_pred, Ecs; unfold pos.
  - rewrite s32_sub by lia. replace (_ + Z.of_nat 0 - 1 - _) with (-1) by lia. cbn [Z.ltb Z.compare].
    by exists c, nf, L.
  - pose proof (sw_len _ _ _ _ _ _ Hsw) as Hlen. pose proof (ck_k _ _ Hok0) as Hk.
    assert (2 ^ k ≤ 2 ^ 24) by (apply Z.pow_le_mono_r; lia).
    replace (cons_index c0 + Z.of_nat (S i) - 1) with (pos c0 i) by (unfold pos; lia).
    rewrite s32_sub by (unfold pos; lia). rewrite (proj2 (Z.ltb_ge _ _)) by (unfold pos; lia).
    destruct (lookup_lt_is_Some_2 es i ltac:(lia)) as [e He].
    pose proof (sw_lo _ _ _ _ _ _ Hsw i e ltac:(lia) He) as Hat. pose proof (sw_ok _ _ _ _ _ _ Hsw) as Hok.
    assert (Hget : ∀ n d, at_cqe c k n = Some d → get_cqe c (u32 n .& ibv_cqe c) = Ok d).
    { intros n d Hn. rewrite (cons_slot k), mod_u32_pow2 by (done || lia). apply (get_cqe_at k); [done|lia]. }
    rewrite (Hget _ _ Hat). cbn [res_bind]. rewrite free_res_none. cbn [res_bind]. rewrite Esz.
    destruct (mine (cqe_sz c0) e) eqn:Em.
    { replace (Z.of_nat nf + 1) with (Z.of_nat (S nf)) by lia. eapply IH; [done|lia|done|by eapply swept_mine]. }
    destruct nf as [|nf]; [eapply IH; [done|lia|done|by apply swept_keep]|].
    rewrite (proj2 (Z.eqb_neq (Z.of_nat (S nf)) 0)) by lia. cbn [negb].
    destruct (sw_fresh _ _ _ _ _ _ Hsw (i + S nf)%nat ltac:(lia)) as (d & Hd & _ & Sd).
    destruct (sw_fresh _ _ _ _ _ _ Hsw i ltac:(lia)) as (e1 & He1 & _ & Se). rewrite Hat in He1. injection He1 as <-.
    assert (Eu : u32 (u32 (pos c0 i) + Z.of_nat (S nf)) = u32 (pos c0 (i + S nf))).
    { unfold u32. rewrite Zplus_mod_idemp_l. f_equal. unfold pos. lia. }
    rewrite Eu, (Hget _ _ Hd). cbn [res_bind]. rewrite !own_of by apply Se. unfold MLX5_CQE_OWNER_MASK.
    fold (own_off (cqe_sz c0)). fold (set_own (cqe_sz c0) e
      ((default 0 (d !! own_off (cqe_sz c0)) .& 1) .| (default 0 (e !! own_off (cqe_sz c0)) .& 0xfe))).
    rewrite (cons_slot k), mod_u32_pow2 by (done || lia).
    pose proof (Z.mod_pos_bound (pos c0 (i + S nf)) (2 ^ k) ltac:(lia)).
    rewrite arr_set_Ok by (rewrite (ck_len _ _ Hok); lia). cbn [res_bind].
    eapply IH; [done|lia|done|]. apply (swept_move c0 c es i (S nf) L e d); (done || lia).
Qed.

(** The search stops after [seen] entries, the last of a full ring not
    included. *)
Definition seen (es : list (list Z)) : nat := Nat.min (length es) (Z.to_nat (2 ^ k - 1)).

Lemma clean_find_spec mp c es : ∀ d i fuel,
  cq_ok c k → cq_inv c k es →
  Forall (λ e, mlx5_get_cqe_format e ≠ MLX5_COMPRESSED) es →
  (i + d = seen es)%nat → (d < fuel)%nat →
  clean_find mp fuel c (u32 (pos c i)) = Ok (c, u32 (pos c (seen es))).
Proof using.
  unfold seen. induction d as [|d IH]; intros i fuel Hok Hinv Hfmt Hi Hf; (destruct fuel as [|fuel]; [lia|]);
    cbn [clean_find]; unfold get_sw_cqe; pose proof (ck_k _ _ Hok) as Hk; pose proof (cv_fit _ _ _ Hinv) as Hlt;
    assert (0 < 2 ^ k) by lia;
    rewrite (cons_slot k), mod_u32_pow2 by (done || lia);
    destruct (at_cqe_some k c (pos c i) Hok) as (e & Hat & ->); cbn [res_bind];
    rewrite (ck_mask _ _ Hok), sw_owned_u32 by lia.
  - rewrite Nat.add_0_r in Hi. rewrite <-Hi. destruct (decide (i = length es)) as [->|Hfull].
    + pose proof (cv_old _ _ _ Hinv (length es) e ltac:(lia) ltac:(lia) Hat) as Hnf. unfold fresh in Hnf. fold (pos c (length es)) in Hnf.
      by destruct (sw_owned _ _ _).
    + destruct (lookup_lt_is_Some_2 es i ltac:(lia)) as [e0 He0].
      destruct (cv_new _ _ _ Hinv i e0 He0) as [Hat0 Hfr]. fold (pos c i) in Hat0, Hfr. rewrite Hat in Hat0. injection Hat0 as ->.
      unfold fresh in Hfr. rewrite Hfr.
      rewrite (proj2 (Z.eqb_neq _ _) (proj1 (list.Forall_lookup _ _) Hfmt i e0 He0)). cbn [res_bind].
      rewrite (ck_mask _ _ Hok). unfold pos at 1. replace (Z.of_nat i) with (2 ^ k - 1) by lia. by rewrite Z.eqb_refl.
  - destruct (lookup_lt_is_Some_2 es i ltac:(lia)) as [e0 He0].
    destruct (cv_new _ _ _ Hinv i e0 He0) as [Hat0 Hfr]. fold (pos c i) in Hat0, Hfr. rewrite Hat in Hat0. injection Hat0 as ->.
    unfold fresh in Hfr. rewrite Hfr.
    rewrite (proj2 (Z.eqb_neq _ _) (proj1 (list.Forall_lookup _ _) Hfmt i e0 He0)). cbn [res_bind].
    assert (Hne : (u32 (pos c i) =? u32 (cons_index c + (2 ^ k - 1))) = false).
    { apply Z.eqb_neq. intros E. apply (f_equal (λ z, z mod 2 ^ k)) in E. rewrite !mod_u32_pow2 in E by lia.
      unfold pos in E. apply pos_inj in E; lia. }
    rewrite (ck_mask _ _ Hok), Hne. replace (u32 (u32 (pos c i) + 1)) with (u32 (pos c (S i))).
    + apply IH; try done; lia.
    + unfold u32, pos. rewrite Zplus_mod_idemp_l. f_equal. lia.
Qed.

(** The sweep leaves the survivors before the entries that it did not see. *)
Lemma swept_inv c c' es nf L :
  cq_ok c k → cq_inv c k es → swept c c' (take (seen es) es) 0 nf L →
  cq_inv (cq_set_cons c' (u32 (cons_index c + Z.of_nat nf))) k (L ++ drop (seen es) es).
Proof using.
  intros Hok Hinv Hsw. pose proof (ck_k _ _ Hok) as Hk. pose proof (ck_cons _ _ Hok) as Hcons.
  pose proof (cv_fit _ _ _ Hinv) as Hfit. destruct (sw_c _ _ _ _ _ _ Hsw) as [s Ec].
  pose proof (sw_len _ _ _ _ _ _ Hsw) as Hlen. cbn [Nat.add] in Hlen. rewrite length_take in Hlen.
  assert (Hseen : (seen es ≤ length es)%nat) by (unfold seen; lia).
  set (c2 := cq_set_cons c' (u32 (cons_index c + Z.of_nat nf))).
  assert (Epos : ∀ j, at_cqe c2 k (u32 (cons_index c + Z.of_nat nf) + j) = at_cqe c' k (cons_index c + Z.of_nat nf + j)).
  { intros j. unfold at_cqe, c2. cbn [c_slots cq_set_cons]. do 2 f_equal.
    by rewrite <-Zplus_mod_idemp_l, mod_u32_pow2, Zplus_mod_idemp_l by lia. }
  assert (Efr : ∀ j e, fresh c2 k (u32 (cons_index c + Z.of_nat nf) + j) e ↔ fresh c k (cons_index c + Z.of_nat nf + j) e).
  { intros j e. unfold fresh, c2. subst c'. cbn [cqe_sz cq_set_cons cq_set_slots].
    rewrite <-(sw_owned_u32 _ (u32 _ + j)), <-(sw_owned_u32 _ (cons_index c + Z.of_nat nf + j)) by lia.
    unfold u32. by rewrite Zplus_mod_idemp_l. }
  assert (Hpos : ∀ j, cons_index c + Z.of_nat nf + Z.of_nat j = pos c (nf + j)) by (intros; unfold pos; lia).
  assert (Hrest : ∀ j, (seen es ≤ j)%nat → Z.of_nat j < 2 ^ k → at_cqe c' k (pos c j) = at_cqe c k (pos c j)).
  { intros j Hj. apply (sw_old _ _ _ _ _ _ Hsw). rewrite length_take. lia. }
  split; cbn [cons_index cq_set_cons c2].
  - rewrite length_app, length_drop. lia.
  - intros j e Hj. rewrite Epos, Efr, Hpos. apply lookup_app_Some in Hj as [Hj|[Hge Hj]].
    + pose proof (lookup_lt_Some _ _ _ Hj). pose proof (sw_hi _ _ _ _ _ _ Hsw j e Hj) as Hat. cbn [Nat.add] in Hat.
      destruct (sw_fresh _ _ _ _ _ _ Hsw (nf + j)%nat ltac:(rewrite length_take; lia)) as (e' & Hat' & Hfr & _).
      rewrite Hat in Hat'. by injection Hat' as <-.
    + rewrite lookup_drop in Hj. replace (seen es + (j - length L))%nat with (nf + j)%nat in Hj by lia.
      pose proof (lookup_lt_Some _ _ _ Hj). rewrite Hrest by lia. by apply (cv_new _ _ _ Hinv).
  - intros j e H1 H2. rewrite length_app, length_drop in H1. rewrite Epos, Efr, Hpos.
    destruct (decide (Z.of_nat (nf + j) < 2 ^ k)) as [Hin|Hout].
    + rewrite Hrest by lia. apply (cv_old _ _ _ Hinv); lia.
    + set (i := (nf + j - Z.to_nat (2 ^ k))%nat).
      replace (pos c (nf + j)) with (pos c i + 2 ^ k) by (unfold pos, i; lia).
      destruct (sw_fresh _ _ _ _ _ _ Hsw i ltac:(rewrite length_take; unfold i; lia)) as (e' & Hat & Hfr & _). intros He Hf.
      assert (Ee : at_cqe c' k (pos c i + 2 ^ k) = at_cqe c' k (pos c i)).
      { unfold at_cqe. do 2 f_equal. replace (pos c i + 2 ^ k) with (pos c i + 1 * 2 ^ k) by lia. apply Z.mod_add. lia. }
      rewrite Ee, Hat in He. injection He as <-. unfold fresh in *. rewrite sw_owned_turn in Hf by (done || lia). done.
Qed.

Lemma cq_clean_spec mp c es :
  cq_ok c k → cq_inv c k es →
  Forall (λ e, size_ok (cqe_sz c) e ∧ mlx5_get_cqe_format e ≠ MLX5_COMPRESSED) es →
  ∃ c' L, __mlx5_cq_clean mp c rsn None ver = Ok (c', None) ∧ cq_ok c' k ∧ cq_inv c' k (L ++ drop (seen es) es) ∧
    Forall2 (same_cqe (cqe_sz c)) (List.filter (λ e, negb (mine (cqe_sz c) e)) (take (seen es) es)) L.
Proof using.
  intros Hok Hinv Hes. pose proof (ck_k _ _ Hok) as Hk. pose proof (ck_cons _ _ Hok) as Hcons.
  pose proof (cv_fit _ _ _ Hinv) as Hfit.
  assert (Hfmt : Forall (λ e, mlx5_get_cqe_format e ≠ MLX5_COMPRESSED) es) by (eapply Forall_impl; [|exact Hes]; tauto).
  unfold __mlx5_cq_clean. rewrite (ck_mask _ _ Hok).
  assert (E0 : cons_index c = u32 (pos c 0)) by (unfold pos; rewrite Z.add_0_r, u32_small by lia; done).
  assert (Hseen : (seen es ≤ length es)%nat ∧ (seen es < Z.to_nat (2 ^ k - 1 + 2))%nat) by (unfold seen; lia).
  pose proof (clean_find_spec mp c es (seen es) 0 (Z.to_nat (2 ^ k - 1 + 2)) Hok Hinv Hfmt eq_refl ltac:(lia)) as Ef.
  rewrite <-E0 in Ef. rewrite Ef. clear Ef. cbn [res_bind]. set (es' := take (seen es) es).
  assert (Hlen' : length es' = seen es) by (unfold es'; rewrite length_take; lia).
  assert (Hsub : ∀ j e, es' !! j = Some e → es !! j = Some e) by (intros j e He; by apply lookup_take_Some in He as [He _]).
  assert (Hsw : swept c c es' (length es') 0 []).
  { split; try done.
    - exists (c_slots c). by destruct c.
    - intros j e _ He. by apply (cv_new _ _ _ Hinv), Hsub.
    - intros j Hj. destruct (lookup_lt_is_Some_2 es' j Hj) as [e He]. apply Hsub in He. destruct (cv_new _ _ _ Hinv j e He).
      exists e. split; [done|]. split; [done|]. rewrite list.Forall_lookup in Hes. by apply (Hes j).
    - cbn. lia.
    - rewrite drop_all. constructor. }
  destruct (clean_sweep_spec c es' (length es') (Z.to_nat (2 ^ k - 1 + 2)) c 0 [] Hok) as (c' & nf & L & Es & Hsw');
    [lia|lia|done|]. rewrite Hlen' in Es. change (Z.of_nat 0) with 0 in Es. rewrite Es. cbn [res_bind].
  pose proof (swept_inv c c' es nf L Hok Hinv Hsw') as Hinv'.
  destruct (sw_c _ _ _ _ _ _ Hsw') as [s Ec]. pose proof (sw_ok _ _ _ _ _ _ Hsw') as Hok'.
  assert (Ecs : cons_index c' = cons_index c) by (by subst c').
  destruct nf as [|nf]; cbn [Z.of_nat Z.eqb negb].
  - exists c', L. split; [done|]. split; [done|]. split; [|apply (sw_same _ _ _ _ _ _ Hsw')].
    rewrite Z.add_0_r, u32_small in Hinv' by lia. rewrite <-Ecs in Hinv'. by destruct c'.
  - rewrite Ecs. rewrite (update_cons_spec k) by (apply cq_ok_cons; [done|apply u32_range]). cbn [res_bind].
    eexists _, L. split; [reflexivity|]. split; [|split; [|apply (sw_same _ _ _ _ _ _ Hsw')]].
    + destruct (cq_ok_cons k c' (u32 (cons_index c + Z.of_nat (S nf))) Hok' (u32_range _)) as [? ? ? ? ?].
      split; try done. cbn. by rewrite length_insert.
    + destruct Hinv' as [? ? ?]. by split.
Qed.
End Clean.
