(* ===== verification/Mlx5System.v ===== *)
(** * libmlx5 and the device: a queue pair at work

    One queue pair and its completion queue, run by the driver, next to a
    device that does what its documentation says, at its own pace: it fetches
    the requests that the doorbell record announces, in order, executes them
    in order, and writes a completion entry for every signaled one into the
    next place of the completion ring, whether or not the entry that stood
    there has been read.  A schedule is any interleaving of the calls of the
    program with such steps.  [asq_step] says what the program sees of it:
    while posts respect the capacity of the send queue and the completion
    ring has a place for every signaled request that is not polled yet, the
    driver accepts all requests and returns each completion once, in order
    ([sys_run_refines]).  The calls that succeed form a run of the send queue
    [Signal.sq_step] of the programs ([asq_sound]), and a poll finds its
    completion as soon as the device has worked ([asq_live]). *)

From stdpp Require Import base gmap list numbers.
From Stdlib Require Import ZArith Lia.
From S2P Require Import Prelude Signal Mlx5Base Mlx5Wqe Mlx5WqeProof Mlx5Encode Mlx5Send Mlx5SqProof Mlx5SqThms Mlx5Recv Mlx5RecvProof Mlx5Table Mlx5Srq Mlx5Cq Mlx5CqProof Mlx5Poll Mlx5PollProof.

(** ** A send queue whose device has its own pace *)
Inductive asq_act : Type :=
| APost (signaled : list bool)
| APoll
| AFetch
| AExec.

(** [a_out]: the requests that hold a slot, oldest first; the device has
    fetched the first [a_fetched] and executed the first [a_exec]. *)
Record asq : Type := Asq { a_out : list bool; a_fetched : nat; a_exec : nat }.
Definition asq0 : asq := Asq [] 0 0.

Fixpoint signaled_count (fs : list bool) : nat :=
  match fs with [] => 0 | b :: fs => Nat.b2n b + signaled_count fs end.

(** The place of the first signaled request. *)
Fixpoint first_signaled (fs : list bool) : option nat :=
  match fs with
  | [] => None
  | true :: _ => Some 0%nat
  | false :: fs => S <$> first_signaled fs
  end.

(** [depth]: slots of the send queue; [room]: entries of the completion ring.
    A poll that finds nothing changes nothing.  The list holds the calls that
    succeed. *)
Definition asq_step (depth room : nat) (a : asq) (x : asq_act) : option (asq * list sq_act) :=
  match x with
  | APost fs =>
      if decide (length (a_out a ++ fs) ≤ depth ∧ signaled_count (a_out a ++ fs) ≤ room)%nat
      then Some (Asq (a_out a ++ fs) (a_fetched a) (a_exec a), [SqPost fs]) else None
  | APoll =>
      match first_signaled (take (a_exec a) (a_out a)) with
      | Some n => Some (Asq (drop (S n) (a_out a)) (a_fetched a - S n) (a_exec a - S n), [SqPoll])
      | None => Some (a, [])
      end
  | AFetch => Some (Asq (a_out a) (Nat.min (S (a_fetched a)) (length (a_out a))) (a_exec a), [])
  | AExec => Some (Asq (a_out a) (a_fetched a) (Nat.min (S (a_exec a)) (a_fetched a)), [])
  end.

Fixpoint asq_run (depth room : nat) (a : asq) (l : list asq_act) : option (asq * list sq_act) :=
  match l with
  | [] => Some (a, [])
  | x :: l => '(a, t) ← asq_step depth room a x; '(a, tr) ← asq_run depth room a l; Some (a, t ++ tr)
  end.

Lemma first_signaled_spec fs n : first_signaled fs = Some n →
  ∃ fs', fs = repeat false n ++ true :: fs' ∧ length (repeat false n) = n ∧ drop (S n) fs = fs'.
Proof.
  revert n. induction fs as [|[] fs IH]; intros n H; [done| |].
  - injection H as <-. by exists fs.
  - cbn in H. apply fmap_Some in H as (m & Hm & ->). destruct (IH m Hm) as (fs' & -> & Hl & Hd).
    exists fs'. cbn. by rewrite Hl.
Qed.

Lemma first_signaled_None fs : first_signaled fs = None → signaled_count fs = 0%nat.
Proof.
  induction fs as [|[] fs IH]; [done..|]. cbn. intros H%fmap_None. by apply IH.
Qed.

Lemma first_signaled_app fs n gs : first_signaled fs = Some n → first_signaled (fs ++ gs) = Some n.
Proof.
  revert n. induction fs as [|[] fs IH]; intros n H; [done|done|]. cbn in *.
  apply fmap_Some in H as (m & Hm & ->). by rewrite (IH m Hm).
Qed.

Lemma release_first fs : release fs = match first_signaled fs with Some n => Some (drop (S n) fs) | None => None end.
Proof. induction fs as [|[] fs IH]; [done..|]. cbn. rewrite IH. by destruct (first_signaled fs). Qed.

Lemma signaled_count_app f1 f2 : signaled_count (f1 ++ f2) = (signaled_count f1 + signaled_count f2)%nat.
Proof. induction f1 as [|b f1 IH]; cbn; [done|]. rewrite IH. lia. Qed.

(** The calls that succeed are a run of the queue of the programs. *)
Lemma asq_sound depth room l : ∀ a a' tr,
  asq_run depth room a l = Some (a', tr) → sq_run depth (a_out a) tr = Some (a_out a').
Proof.
  induction l as [|x l IH]; intros a a' tr H; cbn in H; [by injection H as <- <-|].
  destruct (asq_step depth room a x) as [[a1 t]|] eqn:E; [|done]. cbn in H.
  destruct (asq_run depth room a1 l) as [[a2 tr']|] eqn:E2; [|done]. injection H as <- <-.
  specialize (IH _ _ _ E2). destruct x as [fs| | |]; cbn [asq_step] in E.
  - destruct (decide _) as [[Hd _]|]; [|done]. injection E as <- <-. cbn [app sq_run sq_step].
    rewrite decide_True by done. exact IH.
  - destruct (first_signaled _) as [n|] eqn:Ef; injection E as <- <-; [|exact IH].
    cbn [app sq_run sq_step]. rewrite release_first.
    rewrite <-(take_drop (a_exec a) (a_out a)) at 1. rewrite (first_signaled_app _ _ _ Ef).
    cbn [mbind option_bind]. exact IH.
  - injection E as <- <-. exact IH.
  - injection E as <- <-. exact IH.
Qed.

Lemma asq_run_app depth room l1 l2 : ∀ a a1 tr1 a2 tr2,
  asq_run depth room a l1 = Some (a1, tr1) → asq_run depth room a1 l2 = Some (a2, tr2) →
  asq_run depth room a (l1 ++ l2) = Some (a2, tr1 ++ tr2).
Proof.
  induction l1 as [|x l1 IH]; intros a a1 tr1 a2 tr2 H1 H2; cbn in *; [by injection H1 as -> <-|].
  destruct (asq_step depth room a x) as [[a3 t]|]; [|done]. cbn in *.
  destruct (asq_run depth room a3 l1) as [[a4 tr]|] eqn:E; [|done]. injection H1 as -> <-. cbn.
  rewrite (IH _ _ _ _ _ E H2). cbn. by rewrite (assoc_L (++)).
Qed.

Lemma asq_fetch_all depth room n : ∀ a, (length (a_out a) ≤ a_fetched a + n)%nat → (a_fetched a ≤ length (a_out a))%nat →
  asq_run depth room a (repeat AFetch n) = Some (Asq (a_out a) (length (a_out a)) (a_exec a), []).
Proof.
  induction n as [|n IH]; intros [o f e] H1 H2;
    cbn [repeat asq_run asq_step a_out a_fetched a_exec mbind option_bind app] in *.
  - by replace f with (length o) by lia.
  - rewrite IH by (cbn [a_out a_fetched a_exec]; lia). done.
Qed.

Lemma asq_exec_all depth room n : ∀ a, (a_fetched a ≤ a_exec a + n)%nat → (a_exec a ≤ a_fetched a)%nat →
  asq_run depth room a (repeat AExec n) = Some (Asq (a_out a) (a_fetched a) (a_fetched a), []).
Proof.
  induction n as [|n IH]; intros [o f e] H1 H2;
    cbn [repeat asq_run asq_step a_out a_fetched a_exec mbind option_bind app] in *.
  - by replace e with f by lia.
  - rewrite IH by (cbn [a_out a_fetched a_exec]; lia). done.
Qed.

(** The device does all that it was given. *)
Definition asq_work (a : asq) : list asq_act :=
  repeat AFetch (length (a_out a)) ++ repeat AExec (length (a_out a)).

(** No poll waits in vain. *)
Lemma asq_live depth room a fs' :
  (a_exec a ≤ a_fetched a ≤ length (a_out a))%nat → release (a_out a) = Some fs' →
  ∃ a', asq_run depth room a (asq_work a ++ [APoll]) = Some (a', [SqPoll]) ∧ a_out a' = fs'.
Proof.
  intros Ha Hr. rewrite release_first in Hr. destruct (first_signaled (a_out a)) as [n|] eqn:E; [|done].
  injection Hr as <-. exists (Asq (drop (S n) (a_out a)) (length (a_out a) - S n) (length (a_out a) - S n)).
  split; [|done].
  eapply (asq_run_app _ _ _ _ _ _ [] _ [SqPoll]).
  - eapply (asq_run_app _ _ _ _ _ _ [] _ []); [apply asq_fetch_all; lia|apply asq_exec_all; cbn; lia].
  - cbn [asq_run asq_step a_out a_fetched a_exec]. rewrite firstn_all, E. reflexivity.
Qed.

(** ** The device *)
Definition hq_signaled (r : hca_req) : bool := negb (hq_fm_ce_se r .& MLX5_WQE_CTRL_CQ_UPDATE =? 0).

(** The entry for a request, as number [prod] of a ring of [2 ^ k]. *)
Definition hw_cqe (k prod : Z) (r : hca_req) : list Z :=
  repeat 0 56 ++ be_bytes 4 (hq_opcode r * 2 ^ 24 + hq_qpn r) ++ be_bytes 2 (hq_idx r) ++
  [0; Z.b2z (Z.testbit prod k)].

Lemma fld_parts a b c d n off :
  off = length a → n = length b → fld off n (a ++ b ++ c ++ d) = be_word b.
Proof.
  intros -> ->. unfold fld. rewrite drop_app_length. by rewrite take_app_length.
Qed.

Lemma hw_cqe_plain k prod r c :
  cqe_sz c = 64 → 0 ≤ hq_opcode r < 2 ^ 8 → 0 ≤ hq_qpn r < 2 ^ 24 → 0 ≤ hq_idx r < 2 ^ 16 →
  plain_cqe c (hw_cqe k prod r) MLX5_CQE_REQ (hq_qpn r) ∧
  cqe_wqe_counter (hw_cqe k prod r) = hq_idx r ∧ cqe_sop_drop_qpn (hw_cqe k prod r) .>> 24 = hq_opcode r.
Proof.
  intros Hsz Ho Hq Hi. set (b := Z.testbit prod k).
  assert (Hown : cqe_op_own (hw_cqe k prod r) = Z.b2z b).
  { unfold cqe_op_own, hw_cqe. rewrite !lookup_app_r, !length_be_bytes by (rewrite ?repeat_length, ?length_be_bytes; cbn; lia).
    by rewrite repeat_length. }
  assert (Hsop : cqe_sop_drop_qpn (hw_cqe k prod r) = hq_opcode r * 2 ^ 24 + hq_qpn r).
  { unfold cqe_sop_drop_qpn, hw_cqe. rewrite fld_parts by (by rewrite ?repeat_length, ?length_be_bytes).
    rewrite be_word_bytes. apply Z.mod_small. lia. }
  assert (Hctr : cqe_wqe_counter (hw_cqe k prod r) = hq_idx r).
  { unfold cqe_wqe_counter, hw_cqe. rewrite (assoc_L (++) (repeat 0 56)).
    rewrite <-(app_nil_r [0; Z.b2z _]). rewrite fld_parts
      by (by rewrite ?length_app, ?repeat_length, ?length_be_bytes).
    rewrite be_word_bytes. apply Z.mod_small. lia. }
  assert (Hsrq : cqe_srqn_uidx (hw_cqe k prod r) = 0).
  { unfold cqe_srqn_uidx, hw_cqe, fld. rewrite drop_app_le, take_app_le by (rewrite ?length_drop, ?repeat_length; lia).
    reflexivity. }
  split; [|split; [done|]].
  - split; unfold cqe64_of, mlx5_get_cqe_format; rewrite Hsz; cbn [Z.eqb Pos.eqb];
      rewrite ?Hown, ?Hsop, ?Hsrq; try by destruct b.
    change 0xffffff with (2 ^ 24 - 1). rewrite u64_land_mask by lia.
    rewrite Z.add_comm, Z.mod_add, Z.mod_small; lia.
  - rewrite Hsop, Z.shiftr_div_pow2 by lia. rewrite Z.add_comm, Z.div_add, Z.div_small by lia. lia.
Qed.

Lemma hw_cqe_fresh k prod r c n :
  cqe_sz c = 64 → 0 ≤ k ≤ 24 → u32 n = u32 prod → fresh c k n (hw_cqe k prod r).
Proof.
  intros Hsz Hk E. unfold fresh, cqe64_of. rewrite Hsz. cbn [Z.eqb Pos.eqb].
  rewrite <-sw_owned_u32, E, sw_owned_u32 by lia.
  assert (Hown : cqe_op_own (hw_cqe k prod r) = Z.b2z (Z.testbit prod k)).
  { unfold cqe_op_own, hw_cqe. rewrite !lookup_app_r, !length_be_bytes by (rewrite ?repeat_length, ?length_be_bytes; cbn; lia).
    by rewrite repeat_length. }
  rewrite Hown. unfold sw_owned. rewrite land_turn by lia. by destruct (Z.testbit prod k).
Qed.

(** Identifiers of the signaled ones among requests [ids]. *)
Fixpoint sig_ids (ids : list Z) (fs : list bool) : list Z :=
  match ids, fs with
  | id :: ids, f :: fs => if f : bool then id :: sig_ids ids fs else sig_ids ids fs
  | _, _ => []
  end.

Lemma sig_ids_app i1 f1 i2 f2 :
  length i1 = length f1 → sig_ids (i1 ++ i2) (f1 ++ f2) = sig_ids i1 f1 ++ sig_ids i2 f2.
Proof.
  revert f1. induction i1 as [|i i1 IH]; intros [|f f1] Hl; try done. cbn in *.
  rewrite IH by lia. by destruct f.
Qed.

Lemma sig_ids_next n : ∀ ids fs' id,
  ids !! n = Some id → sig_ids ids (repeat false n ++ true :: fs') = id :: sig_ids (drop (S n) ids) fs'.
Proof.
  induction n as [|n IH]; intros [|i ids] fs' id Hi; try done; cbn in Hi |- *.
  - by injection Hi as ->.
  - by apply IH.
Qed.


(** ** The system *)
Record sys : Type := Sys
  { y_ctx : mlx5_context;
    y_cq : mlx5_cq;
    y_ci : Z;                     (** blocks of the send queue fetched, 16 bits *)
    y_pend : list hca_req;        (** fetched and not executed *)
    y_prod : Z }.                 (** completion entries written *)

(** The completion entries of executed requests, from number [p] on. *)
Fixpoint hw_entries (k p : Z) (rs : list hca_req) : list (list Z) :=
  match rs with
  | [] => []
  | r :: rs => if hq_signaled r then hw_cqe k p r :: hw_entries k (p + 1) rs else hw_entries k p rs
  end.

Lemma hw_entries_app k rs1 : ∀ p rs2,
  hw_entries k p (rs1 ++ rs2) = hw_entries k p rs1 ++ hw_entries k (p + Z.of_nat (length (hw_entries k p rs1))) rs2.
Proof.
  induction rs1 as [|r rs1 IH]; intros p rs2; cbn; [by rewrite Z.add_0_r|].
  destruct (hq_signaled r); [|apply IH]. cbn. rewrite IH. do 3 f_equal. lia.
Qed.

Lemma length_hw_entries k rs : ∀ p, length (hw_entries k p rs) = signaled_count (map hq_signaled rs).
Proof. induction rs as [|r rs IH]; intros p; cbn; [done|]. destruct (hq_signaled r); cbn; by rewrite IH. Qed.

(** Up to the first signaled request there is no entry. *)
Lemma hw_entries_first k rs n : first_signaled (map hq_signaled rs) = Some n → ∀ p,
  ∃ l1 r l2, rs = l1 ++ r :: l2 ∧ length l1 = n ∧ map hq_signaled l1 = repeat false n ∧ hq_signaled r = true ∧
    hw_entries k p rs = hw_cqe k p r :: hw_entries k (p + 1) l2.
Proof.
  revert n. induction rs as [|r rs IH]; intros n H p; [done|]. cbn in H. destruct (hq_signaled r) eqn:E.
  - injection H as <-. exists [], r, rs. cbn. by rewrite E.
  - cbn in H. apply fmap_Some in H as (m & Hm & ->). destruct (IH m Hm p) as (l1 & r' & l2 & -> & Hl & Hs & Hr & He).
    exists (r :: l1), r', l2. cbn [app hw_entries map length repeat]. rewrite E, Hl, Hs, He. done.
Qed.

Section Device.
(** Name and number of the queue pair, size of the completion ring. *)
Variables (qi rsn kc : Z).

(** The device reads the next request that the doorbell record announces. *)
Definition hw_fetch (y : sys) : res sys :=
  let! q := deref (x_qps (y_ctx y)) (Some qi) in
  let! dbr := arr_get (db q) MLX5_SND_DBR in
  if u16 (y_ci y) =? u16 (ntohl dbr) then Ok y
  else
    match hca_decode (qp_type q) (ring_list (sqbuf q) (sqend q) ((64 * u16 (y_ci y)) mod sqend q)) with
    | Some (r, ds) => Ok (Sys (y_ctx y) (y_cq y) (u16 (y_ci y + blocks_of ds)) (y_pend y ++ [r]) (y_prod y))
    | None => Fault Stuck
    end.

(** It executes the oldest request that it has fetched, and writes its
    completion entry, whatever the place in the ring holds. *)
Definition hw_exec (y : sys) : sys :=
  match y_pend y with
  | [] => y
  | r :: rest =>
      if hq_signaled r
      then Sys (y_ctx y) (hw_slot kc (y_cq y) (y_prod y) (hw_cqe kc (y_prod y) r)) (y_ci y) rest (y_prod y + 1)
      else Sys (y_ctx y) (y_cq y) (y_ci y) rest (y_prod y)
  end.

(** The program polls for one completion at time [now]. *)
Definition sys_poll (g : stall_cfg) (now : Z) (wc : ibv_wc) (y : sys) : res (option ibv_wc * sys) :=
  let! (n, ws, c, x) := mlx5_poll_cq g now false [wc] (y_cq y) (y_ctx y) in
  if n =? 0 then Ok (None, Sys x c (y_ci y) (y_pend y) (y_prod y))
  else
    cassert (n =? 1) ;!
    match ws with
    | [wc] => Ok (Some wc, Sys x c (y_ci y) (y_pend y) (y_prod y))
    | _ => Fault AssertFail
    end.

(** The requests that hold a slot are executed ([d]), fetched ([p]) or only
    announced ([n]); the completion ring holds the entries of [d]. *)
Record sys_inv (b bbmax k : Z) (q0 : mlx5_qp) (y : sys) (ids : list Z) (a : asq) : Prop := SysInv
  { yv_q : ∃ q s0 d p n, x_qps (y_ctx y) !! qi = Some q ∧ sq_state q b bbmax k s0 (d ++ p ++ n) ∧ same_caps q0 q ∧
      db q !! 1%nat = Some (htonl (u16 (scur_post q))) ∧
      map sl_req p = y_pend y ∧ map sl_wrid (d ++ p ++ n) = ids ∧ y_ci y = u16 (s0 + span (d ++ p)) ∧
      Forall (λ s, 0 ≤ hq_opcode (sl_req s) < 2 ^ 8 ∧ hq_qpn (sl_req s) = rsn) (d ++ p ++ n) ∧
      a_out a = map hq_signaled (map sl_req (d ++ p ++ n)) ∧
      a_exec a = length d ∧ a_fetched a = length (d ++ p) ∧
      ∃ first, cons_index (y_cq y) = u32 first ∧ cq_inv (y_cq y) kc (hw_entries kc first (map sl_req d)) ∧
        y_prod y = first + Z.of_nat (length (hw_entries kc first (map sl_req d)));
    yv_rsn : 0 ≤ rsn < 2 ^ 24;
    yv_cq : cq_ok (y_cq y) kc ∧ cqe_sz (y_cq y) = 64;
    yv_room : Z.of_nat (signaled_count (a_out a)) ≤ 2 ^ kc;
    yv_ctx : ∃ m, ctx_ok (y_ctx y) m ∧ m !! rsn = Some (Rsc MLX5_RSC_TYPE_QP rsn qi);
    yv_stats : 0 ≤ mlx5_hrd_qp_index q0 < Z.of_nat (length (x_stats (y_ctx y))) }.

(** ** Steps of the device *)
Lemma hw_fetch_spec b bbmax k q0 y ids a : sys_inv b bbmax k q0 y ids a →
  ∃ y', hw_fetch y = Ok y' ∧
    sys_inv b bbmax k q0 y' ids (Asq (a_out a) (Nat.min (S (a_fetched a)) (length (a_out a))) (a_exec a)).
Proof using.
  intros [(q & s0 & d & p & n & Hq & Hsq & Hcaps & Hdb & Hp & Hids & Hci & Hall & Hout & Hex & Hfe & Hring) Hrsn Hcq Hroom Hctx Hst].
  pose proof Hsq as (Hok & Hinv & _). pose proof (span_lt_ring _ _ _ _ _ _ Hok Hinv) as [Hsp Hcnt].
  pose proof (si_slots _ _ _ _ Hinv) as Hs. pose proof Hs as Hs'. rewrite (assoc_L (++)) in Hs'.
  apply list.Forall_app in Hs' as [Hs1 Hs2]. pose proof (span_bounds _ _ _ Hs1) as [Hsp1 _].
  unfold hw_fetch. cbn [deref]. rewrite Hq. cbn [res_bind]. rewrite (arr_get_Z _ MLX5_SND_DBR _ ltac:(done) Hdb).
  cbn [res_bind]. rewrite ntohl_htonl, u32_small by (unfold u16; pose proof (Z.mod_pos_bound (scur_post q) (2 ^ 16)); lia).
  assert (Hpi : u16 (u16 (scur_post q)) = u16 (s0 + span (d ++ p) + span n)).
  { rewrite (si_scur _ _ _ _ Hinv), u16_u32, (assoc_L (++)), span_app. unfold u16. rewrite Z.mod_mod by lia. f_equal. lia. }
  assert (Hci2 : u16 (y_ci y) = u16 (s0 + span (d ++ p))) by (rewrite Hci; unfold u16; by rewrite Z.mod_mod).
  rewrite Hpi, Hci2. destruct n as [|s n].
  { cbn [span foldr]. rewrite Z.add_0_r, Z.eqb_refl. exists y. split; [done|].
    rewrite app_nil_r in *. replace (Nat.min _ _) with (a_fetched a) by (rewrite Hfe, Hout, !length_map; lia).
    split; try done. exists q, s0, d, p, []. rewrite app_nil_r. by repeat (split; [done|]). }
  pose proof (Forall_inv Hs2) as Hslot. destruct Hslot as (Hb & Hl & ds & Hds & Hdec).
  assert (Hn : 0 < span (s :: n) < 2 ^ 16).
  { rewrite (assoc_L (++)), span_app in Hsp. pose proof (span_bounds _ _ _ Hs2) as [Hn1 _]. cbn [length] in Hn1. lia. }
  rewrite u16_distinct by exact Hn.
  pose proof (so_k _ _ _ _ Hok) as Hk.
  assert (Eend : sqend q = 64 * 2 ^ k) by (by rewrite (so_end _ _ _ _ Hok), (so_cnt _ _ _ _ Hok)).
  assert (Hh : ring_holds (sqbuf q) (sqend q) (s0 + span (d ++ p)) (s :: n)).
  { apply (ring_holds_skip (qp_type q) bbmax); [rewrite Eend; lia|done|]. rewrite <-(assoc_L (++)). exact (si_ring _ _ _ _ Hinv). }
  destruct Hh as [F HF]. cbn [map concat] in HF. rewrite <-(assoc_L (++)) in HF.
  rewrite Eend, mod_u16, <-Eend, HF, Hdec by lia.
  eexists. split; [reflexivity|]. split; cbn [y_ctx y_cq y_ci y_pend y_prod a_out a_fetched a_exec]; try done.
  exists q, s0, d, (p ++ [s]), n.
  assert (El : d ++ (p ++ [s]) ++ n = d ++ p ++ s :: n) by (by rewrite <-(assoc_L (++) p)).
  rewrite El, map_app, Hp, (assoc_L (++) d p [s]), span_app. repeat (split; [done|]).
  split; [|split; [done|split; [done|split; [done|split; [|done]]]]].
  - rewrite Hci, Hds. unfold u16. rewrite Zplus_mod_idemp_l. f_equal. cbn [span foldr]. lia.
  - rewrite Hfe, Hout, !length_map, !length_app. cbn [length]. lia.
Qed.
Lemma hw_exec_spec b bbmax k q0 y ids a : sys_inv b bbmax k q0 y ids a →
  sys_inv b bbmax k q0 (hw_exec y) ids (Asq (a_out a) (a_fetched a) (Nat.min (S (a_exec a)) (a_fetched a))).
Proof using.
  intros [(q & s0 & d & p & n & Hq & Hsq & Hcaps & Hdb & Hp & Hids & Hci & Hall & Hout & Hex & Hfe & first & Hcons & Hcv & Hpr)
    Hrsn [Hck Hsz] Hroom Hctx Hst]. unfold hw_exec. destruct p as [|s p].
  { rewrite <-Hp. cbn [map]. replace (Nat.min _ _) with (a_exec a) by (rewrite Hfe, Hex, app_nil_r; lia).
    split; [|done..]. exists q, s0, d, [], n. repeat (split; [done|]). by exists first. }
  cbn [map] in Hp. rewrite <-Hp.
  assert (El : d ++ (s :: p) ++ n = (d ++ [s]) ++ p ++ n) by (by rewrite <-(assoc_L (++) d)).
  assert (El2 : d ++ s :: p = (d ++ [s]) ++ p) by (by rewrite <-(assoc_L (++) d)).
  assert (Emin : Nat.min (S (a_exec a)) (a_fetched a) = length (d ++ [s])).
  { rewrite Hfe, Hex, !length_app. cbn [length]. lia. }
  rewrite El, El2 in *. rewrite Emin.
  pose proof (hw_entries_app kc (map sl_req d) first [sl_req s]) as Hent.
  assert (Hen : ∀ y', y_ctx y' = y_ctx y → y_ci y' = y_ci y → y_pend y' = map sl_req p →
    cq_ok (y_cq y') kc → cqe_sz (y_cq y') = 64 → cons_index (y_cq y') = u32 first →
    cq_inv (y_cq y') kc (hw_entries kc first (map sl_req (d ++ [s]))) →
    y_prod y' = first + Z.of_nat (length (hw_entries kc first (map sl_req (d ++ [s])))) →
    sys_inv b bbmax k q0 y' ids (Asq (a_out a) (a_fetched a) (length (d ++ [s])))).
  { intros y' E1 E2 E3 E4 E5 E6 E7 E8. split; cbn [a_out a_fetched a_exec]; rewrite ?E1, ?E2; try done.
    exists q, s0, (d ++ [s]), p, n. repeat (split; [done|]). by exists first. }
  destruct (hq_signaled (sl_req s)) eqn:Esig; cbn [hw_entries] in Hent; rewrite Esig in Hent.
  - set (i := length (hw_entries kc first (map sl_req d))) in *.
    rewrite Hpr. set (e := hw_cqe kc (first + Z.of_nat i) (sl_req s)) in *.
    assert (Hrm : Z.of_nat i < 2 ^ kc).
    { unfold i. rewrite length_hw_entries. rewrite Hout, !map_app, !signaled_count_app in Hroom.
      cbn [map signaled_count] in Hroom. rewrite Esig in Hroom. cbn [Nat.b2n] in Hroom. lia. }
    pose proof (ck_k _ _ Hck) as Hk.
    assert (Hfr : fresh (y_cq y) kc (cons_index (y_cq y) + Z.of_nat i) e).
    { unfold e. apply hw_cqe_fresh; [done|done|]. rewrite Hcons. unfold u32. by rewrite Zplus_mod_idemp_l. }
    assert (Es : hw_slot kc (y_cq y) (first + Z.of_nat i) e = hw_slot kc (y_cq y) (cons_index (y_cq y) + Z.of_nat i) e).
    { unfold hw_slot. rewrite Hcons, <-(Zplus_mod_idemp_l (u32 first)), mod_u32_pow2, Zplus_mod_idemp_l by lia. done. }
    rewrite Es. destruct (hw_write_spec kc (y_cq y) _ e Hck Hcv Hrm Hfr) as [Hck' Hcv']. fold i in Hck', Hcv'.
    rewrite map_app in Hen. cbn [map] in Hen. rewrite Hent in Hen.
    apply Hen; cbn [y_ctx y_ci y_pend y_cq y_prod]; try done. rewrite length_app. cbn. fold i. lia.
  - rewrite app_nil_r in Hent. rewrite map_app in Hen. cbn [map] in Hen. rewrite Hent in Hen. by apply Hen.
Qed.

(** ** Polling *)
Lemma sys_poll_empty b bbmax k q0 g now wc y ids a :
  sys_inv b bbmax k q0 y ids a → first_signaled (take (a_exec a) (a_out a)) = None →
  ∃ y', sys_poll g now wc y = Ok (None, y') ∧ sys_inv b bbmax k q0 y' ids a.
Proof using.
  intros [(q & s0 & d & p & n & Hq & Hsq & Hcaps & Hdb & Hp & Hids & Hci & Hall & Hout & Hex & Hfe & first & Hcons & Hcv & Hpr)
    Hrsn [Hck Hsz] Hroom Hctx Hst] Hno.
  assert (He : hw_entries kc first (map sl_req d) = []).
  { apply nil_length_inv. rewrite length_hw_entries. apply first_signaled_None.
    rewrite Hex, Hout, !map_app in Hno. by rewrite take_app_length' in Hno by (by rewrite !length_map). }
  rewrite He in *. unfold sys_poll, mlx5_poll_cq, poll_cq.
  apply (cq_ok_stall kc _ (stall_before (c_stall (y_cq y)))) in Hck.
  apply (cq_inv_stall kc _ (stall_before (c_stall (y_cq y)))) in Hcv. set (c := cq_set_stall (y_cq y) _) in *.
  cbn [poll_cq_loop]. unfold mlx5_poll_one, next_cqe_sw. cbn [p_cq].
  rewrite (next_cqe_spec kc c [] Hck Hcv). cbn [res_bind hd_error list.head]. cbn [p_cq p_ctx].
  change (negb (CQ_EMPTY =? CQ_OK)) with true. cbn iota. cbn [res_bind p_cq p_ctx].
  rewrite (update_cons_spec kc) by done. cbn [res_bind length]. change (CQ_EMPTY =? CQ_POLL_ERR) with false.
  cbn [Z.of_nat Z.eqb]. eexists. split; [reflexivity|].
  split; cbn [y_ctx y_cq y_ci y_pend y_prod]; try done.
  - exists q, s0, d, p, n. repeat (split; [done|]). exists first. rewrite He. split; [done|]. split; [|done].
    destruct Hcv. by split.
  - split; [|done]. destruct Hck. split; try done. cbn. by rewrite length_insert.
Qed.

Lemma sys_poll_first b bbmax k q0 g now wc y ids a i :
  sys_inv b bbmax k q0 y ids a → first_signaled (take (a_exec a) (a_out a)) = Some i →
  ∃ wc' y', sys_poll g now wc y = Ok (Some wc', y') ∧
    sys_inv b bbmax k q0 y' (drop (S i) ids) (Asq (drop (S i) (a_out a)) (a_fetched a - S i) (a_exec a - S i)) ∧
    ids !! i = Some (wr_id wc') ∧ status wc' = IBV_WC_SUCCESS.
Proof using.
  intros [(q & s0 & d & p & n & Hq & Hsq & Hcaps & Hdb & Hp & Hids & Hci & Hall & Hout & Hex & Hfe & first & Hcons & Hcv & Hpr)
    Hrsn [Hck Hsz] Hroom [m [Hx Hm]] Hst] Hfirst.
  rewrite Hex, Hout, !map_app, take_app_length' in Hfirst by (by rewrite !length_map).
  destruct (hw_entries_first kc _ _ Hfirst first) as (l1 & r & l2 & Ed & Hl1 & _ & Hsig & He).
  apply map_eq_app in Ed as (o1 & o2' & -> & E1 & E2). apply map_eq_cons in E2 as (s & o2 & -> & Es & E2). subst r.
  assert (Ho1 : length o1 = i) by (by rewrite <-Hl1, <-E1, length_map).
  rewrite He in Hcv, Hpr. set (e := hw_cqe kc first (sl_req s)) in *. clear l1 Hl1 E1. subst l2.
  assert (Hos : (o1 ++ s :: o2) ++ p ++ n = o1 ++ s :: (o2 ++ p ++ n)) by (by rewrite <-(assoc_L (++) o1)).
  rewrite Hos in *.
  pose proof Hall as Hall'. apply list.Forall_app in Hall' as [_ Hall2]. pose proof (Forall_inv Hall2) as [Hop Hqp].
  apply Forall_inv_tail in Hall2. pose proof Hcaps as (_ & _ & _ & _ & _ & Ch & _).
  assert (Hidx : 0 ≤ hq_idx (sl_req s) < 2 ^ 16).
  { destruct Hsq as (_ & Hinv & _). destruct (si_at _ _ _ _ Hinv o1 s _ eq_refl) as (_ & _ & ->).
    apply Z.mod_pos_bound. lia. }
  apply (cq_ok_stall kc _ (stall_before (c_stall (y_cq y)))) in Hck.
  apply (cq_inv_stall kc _ (stall_before (c_stall (y_cq y)))) in Hcv. unfold sys_poll, mlx5_poll_cq, poll_cq.
  set (c := cq_set_stall (y_cq y) _) in *.
  destruct (hw_cqe_plain kc first (sl_req s) c Hsz Hop ltac:(lia) Hidx) as (Hpc & Hctr & _).
  rewrite Hqp in Hpc. fold e in Hpc, Hctr.
  destruct (poll_one_req (λ _, false) false wc (PollSt c (y_ctx y) None None) m kc e (hw_entries kc (first + 1) (map sl_req o2))
              rsn qi q b bbmax k s0 o1 s (o2 ++ p ++ n))
    as (w' & p' & stats & E & Hid & Hstat & _ & _ & Hpcq & Hpctx & Hlst & _); cbn [p_cq p_ctx cur_rsc]; try done.
  { unfold cqe64_of. change (cqe_sz c) with (cqe_sz (y_cq y)). by rewrite Hsz. }
  { by rewrite Ch. }
  cbn [p_cq p_ctx] in *. cbn [poll_cq_loop]. rewrite E. cbn [res_bind CQ_OK Z.eqb negb].
  rewrite Hpcq. rewrite (update_cons_spec kc) by (apply cq_ok_cons; [done|apply u32_range]).
  cbn [res_bind length cassert]. change (0 =? CQ_POLL_ERR) with false. cbn [Z.of_nat Z.eqb Pos.eqb Pos.of_succ_nat cassert res_bind].
  exists w'. eexists. split; [reflexivity|].
  pose proof (sq_state_freed q b bbmax k s0 (o1 ++ [s]) (o2 ++ p ++ n)) as Hsf. rewrite <-(assoc_L (++)) in Hsf.
  specialize (Hsf Hsq). pose proof (cq_inv_consume kc c e _ Hck Hcv) as Hcv2.
  pose proof (cq_ok_cons kc c (u32 (cons_index c + 1)) Hck (u32_range _)) as Hck2.
  assert (Hlen : length (o1 ++ [s]) = S i) by (rewrite length_app; cbn [length]; lia).
  assert (Hmid : o1 ++ s :: (o2 ++ p ++ n) = (o1 ++ [s]) ++ o2 ++ p ++ n) by (by rewrite <-(assoc_L (++) o1)).
  split; [|split; [|done]].
  - split; cbn [y_ctx y_cq y_ci y_pend y_prod a_out a_fetched a_exec]; rewrite ?Hpctx;
      cbn [x_qps ctx_set_qp ctx_set_stats x_stats cq_set_dbrec cq_set_cons cq_set_stall cons_index cqe_sz].
    + exists (sq_freed q (length (o1 ++ [s]))), (s0 + span (o1 ++ [s])), o2, p, n. rewrite lookup_insert_eq.
      do 5 (split; [done|]). split; [|split; [|split; [done|]]].
      * by rewrite <-Hids, Hmid, (map_app _ (o1 ++ [s])), drop_app_length' by (by rewrite length_map).
      * rewrite Hci. f_equal. rewrite !span_app. cbn [span foldr]. fold (span o2). lia.
      * split; [by rewrite Hout, Hmid, (map_app sl_req (o1 ++ [s])), (map_app _ (map sl_req (o1 ++ [s]))), drop_app_length'
             by (by rewrite !length_map)|].
        split; [rewrite Hex, length_app; cbn [length]; lia|].
        split; [rewrite Hfe, !length_app; cbn [length]; lia|]. exists (first + 1). split; [|split].
        -- change (cons_index c) with (cons_index (y_cq y)). rewrite Hcons. unfold u32. by rewrite Zplus_mod_idemp_l.
        -- destruct Hcv2. by split.
        -- rewrite Hpr. cbn [length]. lia.
    + done.
    + split; [|exact Hsz]. destruct Hck2. split; try done. cbn. by rewrite length_insert.
    + etrans; [|exact Hroom]. rewrite <-(take_drop (S i) (a_out a)) at 2. rewrite signaled_count_app. lia.
    + exists m. split; [|done]. destruct Hx. by split.
    + by rewrite Hlst.
  - rewrite <-Hids, map_app, lookup_app_r, length_map, Ho1, Nat.sub_diag by (rewrite length_map; lia). cbn. by rewrite Hid.
Qed.
End Device.

Section Sys.
Context {K : Type} `{ImplicitLkey K}.
Variable host : Z → Z.
Variable rc_dc : mlx5_qp → ibv_exp_send_wr → send_flags → Z → Z → sqmem → eff K one_ret.
Variables (qi rsn kc : Z).

Definition ctx_posted (x : mlx5_context) (q : mlx5_qp) (st : hrd_stats) : mlx5_context :=
  ctx_set_stats (ctx_set_qp x qi q) st.

(** The program posts and stops on an error. *)
Definition sys_post (wrs : list ibv_exp_send_wr) (y : sys) (w : K) : res (sys * K) :=
  let! q := deref (x_qps (y_ctx y)) (Some qi) in
  let! (r, w) := __mlx5_post_send host rc_dc 0 0 q (x_stats (y_ctx y)) wrs false w in
  cassert (pr_err r =? 0) ;!
  Ok (Sys (ctx_posted (y_ctx y) (pr_qp r) (pr_stats r)) (y_cq y) (y_ci y) (y_pend y) (y_prod y), w).

Definition wr_signaled (b : Z) (wr : ibv_exp_send_wr) : bool :=
  negb (b =? 0) || IBV_SEND_SIGNALED (wr_flags false wr).

Lemma same_caps_fits q0 q bbmax f wr :
  same_caps q0 q → wr_fits host q0 bbmax f wr → wr_fits host q bbmax f wr.
Proof using.
  intros (H1 & H2 & H3 & H4 & H5 & H6 & H7) [? ? ? ? ? ?]. split; rewrite ?H2, ?H3, ?H4; done.
Qed.

Lemma same_caps_trans q1 q2 q3 : same_caps q1 q2 → same_caps q2 q3 → same_caps q1 q3.
Proof using. unfold same_caps. intros H1 H2. decompose [and] H1. decompose [and] H2. repeat split; congruence. Qed.

(** What the device sees of a posted request. *)
Lemma carries_facts b q wr s :
  env_ok (qp_env q) b → carries host b false q wr s → cs_qp_num (ctrl_seg q) = rsn →
  hq_signaled (sl_req s) = wr_signaled b wr ∧ sl_wrid s = Mlx5Wqe.wr_id wr ∧
  0 ≤ hq_opcode (sl_req s) < 2 ^ 8 ∧ hq_qpn (sl_req s) = rsn.
Proof using.
  intros He ((p & Hr) & Hid & _) Hq. unfold hca_request in Hr.
  destruct (hca_opcode (exp_opcode wr)) as [[o im]|] eqn:Eo; [|done]. cbn [mbind option_bind] in Hr.
  injection Hr as <-. cbn [hq_fm_ce_se hq_opcode hq_qpn]. unfold hq_signaled, wr_signaled. cbn [hq_fm_ce_se].
  destruct (opcode_facts _ _ _ Eo) as (v & _ & _ & _ & _ & Hrange & _). split; [|done].
  change (wr_flags false wr) with (send_flags_ wr).
  destruct (eo_bits _ _ He) as [-> | ->]; destruct (send_flags_ wr) as [[] [] [] i1 c1 d1 w1]; reflexivity.
Qed.

Lemma sys_post_refines b bbmax k q0 depth room y ids a a' t wrs (w : K) :
  sys_inv qi rsn kc b bbmax k q0 y ids a → cs_qp_num (ctrl_seg q0) = rsn → Z.of_nat depth ≤ max_post (sq q0) →
  Z.of_nat room ≤ 2 ^ kc → wrs ≠ [] → Forall (λ wr, wr_fits host q0 bbmax (wr_flags false wr) wr) wrs →
  asq_step depth room a (APost (map (wr_signaled b) wrs)) = Some (a', t) →
  ∃ y', sys_post wrs y w = Ok (y', w) ∧ sys_inv qi rsn kc b bbmax k q0 y' (ids ++ map Mlx5Wqe.wr_id wrs) a'.
Proof using.
  intros [(q & s0 & d & p & n0 & Hq & Hsq & Hcaps & Hdb0 & Hp & Hids & Hci & Hall & Hout & Hex & Hfe & Hring) Hrsn Hcq Hroom [m [Hx Hm]] Hst]
    Hqn Hd Hrm Hne Hwrs Hstep.
  pose proof Hcaps as (Cp & Cg & Ci & Ct & Cc & Ch & Ce).
  cbn [asq_step] in Hstep. destruct (decide _) as [[Hspace Hcount]|]; [|done]. injection Hstep as <- _.
  set (out := d ++ p ++ n0) in *.
  assert (Hlen : length out = length (a_out a)) by (by rewrite Hout, !length_map).
  assert (Hfit : Forall (λ wr, wr_fits host q bbmax (wr_flags false wr) wr) wrs).
  { eapply Forall_impl; [|exact Hwrs]. intros wr. by apply same_caps_fits. }
  destruct (post_send_spec host rc_dc b bbmax k s0 false q out wrs (x_stats (y_ctx y)) 0 0 w Hsq Hfit)
    as (r & ss & Er & Herr & _ & Hls & Hsq' & HF & _ & Hdb & _ & Hcaps'); [by rewrite Ch|].
  set (n := Nat.min _ _) in *. assert (En : n = length wrs).
  { unfold n. rewrite length_app, length_map in Hspace. rewrite Cp. lia. }
  rewrite En in *. clearbody n. rewrite decide_True in Herr by done. rewrite take_ge in HF by done.
  assert (Hn0 : length wrs ≠ 0%nat) by (by destruct wrs).
  specialize (Hdb Hn0). unfold sys_post. cbn [deref]. rewrite Hq. cbn [res_bind]. rewrite Er. cbn [res_bind].
  rewrite Herr. cbn [Z.eqb cassert res_bind]. eexists. split; [reflexivity|].
  pose proof Hsq as (Hok & _ & _). pose proof (so_env _ _ _ _ Hok) as Henv.
  assert (Hcf : Forall2 (λ wr s, hq_signaled (sl_req s) = wr_signaled b wr ∧ sl_wrid s = Mlx5Wqe.wr_id wr ∧
      0 ≤ hq_opcode (sl_req s) < 2 ^ 8 ∧ hq_qpn (sl_req s) = rsn) wrs ss).
  { eapply Forall2_impl; [|exact HF]. intros wr s Hc. apply (carries_facts b q); [done|done|]. congruence. }
  assert (Hmap : map hq_signaled (map sl_req ss) = map (wr_signaled b) wrs ∧ map sl_wrid ss = map Mlx5Wqe.wr_id wrs ∧
      Forall (λ s, 0 ≤ hq_opcode (sl_req s) < 2 ^ 8 ∧ hq_qpn (sl_req s) = rsn) ss).
  { clear -Hcf. induction Hcf as [|wr s wrs ss (H1 & H2 & H3) _ (I1 & I2 & I3)]; [done|].
    cbn. rewrite H1, H2, I1, I2. split; [done|]. split; [done|]. by constructor. }
  destruct Hmap as (M1 & M2 & M3).
  assert (Eo : out ++ ss = d ++ p ++ n0 ++ ss) by (unfold out; by rewrite <-!(assoc_L (++))).
  split; cbn [y_ctx y_cq y_ci y_pend y_prod ctx_posted x_qps ctx_set_stats ctx_set_qp x_stats a_out a_fetched a_exec].
  - exists (pr_qp r), s0, d, p, (n0 ++ ss). rewrite <-Eo, lookup_insert_eq. split; [done|]. split; [done|].
    split; [by eapply same_caps_trans|]. split; [exact Hdb|]. rewrite !map_app, Hids, M2. do 3 (split; [done|]).
    split; [by apply Forall_app|]. split; [by rewrite Hout, M1|]. done.
  - done.
  - done.
  - lia.
  - exists m. split; [|done]. destruct Hx. by split.
  - by rewrite Hls.
Qed.

(** ** Schedules *)
Inductive sys_act : Type :=
| ActPost (wrs : list ibv_exp_send_wr)
| ActPoll (g : stall_cfg) (now : Z) (wc : ibv_wc)
| HwFetch
| HwExec.

Definition abs_act (b : Z) (x : sys_act) : asq_act :=
  match x with
  | ActPost wrs => APost (map (wr_signaled b) wrs)
  | ActPoll _ _ _ => APoll
  | HwFetch => AFetch
  | HwExec => AExec
  end.

Definition act_ok (q0 : mlx5_qp) (bbmax : Z) (x : sys_act) : Prop :=
  match x with
  | ActPost wrs => wrs ≠ [] ∧ Forall (λ wr, wr_fits host q0 bbmax (wr_flags false wr) wr) wrs
  | _ => True
  end.

(** The completions that the program gets. *)
Fixpoint sys_run (acts : list sys_act) (y : sys) (w : K) : res (list ibv_wc * sys * K) :=
  match acts with
  | [] => Ok ([], y, w)
  | ActPost wrs :: acts => let! (y, w) := sys_post wrs y w in sys_run acts y w
  | ActPoll g now wc :: acts =>
      let! (owc, y) := sys_poll g now wc y in
      let! (wcs, y, w) := sys_run acts y w in
      Ok (match owc with Some wc => wc :: wcs | None => wcs end, y, w)
  | HwFetch :: acts => let! y := hw_fetch qi y in sys_run acts y w
  | HwExec :: acts => sys_run acts (hw_exec kc y) w
  end.

Definition act_ids (b : Z) (x : sys_act) : list Z :=
  match x with
  | ActPost wrs => sig_ids (map Mlx5Wqe.wr_id wrs) (map (wr_signaled b) wrs)
  | _ => []
  end.

(** The calls of [tr] that are polls. *)
Definition polls (tr : list sq_act) : nat := length (filter (λ x, x = SqPoll) tr).

Lemma sys_inv_length b bbmax k q0 y ids a : sys_inv qi rsn kc b bbmax k q0 y ids a → length ids = length (a_out a).
Proof using. intros [(q & s0 & d & p & n & _ & _ & _ & _ & _ & <- & _ & _ & -> & _) _ _ _ _ _]. by rewrite !length_map. Qed.

Lemma sys_run_refines b bbmax k q0 depth room acts : ∀ y ids a a' tr (w : K),
  sys_inv qi rsn kc b bbmax k q0 y ids a → cs_qp_num (ctrl_seg q0) = rsn →
  Z.of_nat depth ≤ max_post (sq q0) → Z.of_nat room ≤ 2 ^ kc → Forall (act_ok q0 bbmax) acts →
  asq_run depth room a (map (abs_act b) acts) = Some (a', tr) →
  ∃ wcs y' ids', sys_run acts y w = Ok (wcs, y', w) ∧ sys_inv qi rsn kc b bbmax k q0 y' ids' a' ∧
    Forall (λ wc, status wc = IBV_WC_SUCCESS) wcs ∧ length wcs = polls tr ∧
    map wr_id wcs ++ sig_ids ids' (a_out a') = sig_ids ids (a_out a) ++ concat (map (act_ids b) acts).
Proof using.
  induction acts as [|x acts IH]; intros y ids a a' tr w Hy Hqn Hd Hrm Hacts Hrun.
  { cbn in Hrun. injection Hrun as <- <-. exists [], y, ids. cbn. by rewrite app_nil_r. }
  cbn [map asq_run] in Hrun. pose proof (Forall_inv Hacts) as Ha. apply Forall_inv_tail in Hacts.
  destruct (asq_step depth room a (abs_act b x)) as [[a1 t]|] eqn:Hstep; [|done]. cbn [mbind option_bind] in Hrun.
  destruct (asq_run depth room a1 (map (abs_act b) acts)) as [[a2 tr2]|] eqn:Hrest; [|done].
  cbn [mbind option_bind] in Hrun. injection Hrun as <- <-.
  pose proof (sys_inv_length _ _ _ _ _ _ _ Hy) as Hlen.
  destruct x as [wrs|g now wc| |]; cbn [sys_run abs_act] in *.
  - destruct Ha as [Hne Hfits].
    destruct (sys_post_refines b bbmax k q0 depth room y ids a a1 t wrs w Hy Hqn Hd Hrm Hne Hfits Hstep) as (y1 & -> & Hy1).
    cbn [res_bind]. destruct (IH y1 _ _ _ _ w Hy1 Hqn Hd Hrm Hacts Hrest) as (wcs & y' & ids' & E & Hy' & Hs & Hl & Hids).
    exists wcs, y', ids'. do 3 (split; [done|]). cbn [asq_step] in Hstep. destruct (decide _); [|done]. injection Hstep as <- <-.
    split; [done|]. cbn [map concat act_ids]. rewrite Hids, (assoc_L (++)). f_equal. cbn [a_out]. by apply sig_ids_app.
  - cbn [asq_step] in Hstep. destruct (first_signaled (take (a_exec a) (a_out a))) as [i|] eqn:Ef.
    + destruct (sys_poll_first qi rsn kc b bbmax k q0 g now wc y ids a i Hy Ef) as (wc' & y1 & -> & Hy1 & Hid & Hst).
      injection Hstep as <- <-. cbn [res_bind].
      destruct (IH y1 _ _ _ _ w Hy1 Hqn Hd Hrm Hacts Hrest) as (wcs & y' & ids' & -> & Hy' & Hs & Hl & Hids).
      cbn [res_bind]. exists (wc' :: wcs), y', ids'. split; [done|]. split; [done|]. split; [by constructor|].
      split; [cbn; by rewrite Hl|]. cbn [map concat act_ids app]. rewrite Hids. cbn [a_out].
      destruct (first_signaled_spec _ _ (first_signaled_app _ _ (drop (a_exec a) (a_out a)) Ef)) as (fs' & E & _ & Ed).
      rewrite take_drop in E, Ed. rewrite Ed, E. by rewrite (sig_ids_next i ids fs' (wr_id wc') Hid).
    + injection Hstep as <- <-. destruct (sys_poll_empty qi rsn kc b bbmax k q0 g now wc y ids a Hy Ef) as (y1 & -> & Hy1).
      cbn [res_bind]. destruct (IH y1 _ _ _ _ w Hy1 Hqn Hd Hrm Hacts Hrest) as (wcs & y' & ids' & -> & H'). 
      cbn [res_bind]. by exists wcs, y', ids'.
  - cbn [asq_step] in Hstep. injection Hstep as <- <-.
    destruct (hw_fetch_spec qi rsn kc b bbmax k q0 y ids a Hy) as (y1 & -> & Hy1). cbn [res_bind].
    by apply (IH y1 _ _ _ _ w Hy1 Hqn Hd Hrm Hacts Hrest).
  - cbn [asq_step] in Hstep. injection Hstep as <- <-.
    pose proof (hw_exec_spec qi rsn kc b bbmax k q0 y ids a Hy) as Hy1.
    by apply (IH _ _ _ _ _ w Hy1 Hqn Hd Hrm Hacts Hrest).
Qed.

(** The device does all that it was given; then a poll finds the completion
    of the oldest signaled request. *)
Definition hw_work (a : asq) : list sys_act :=
  repeat HwFetch (length (a_out a)) ++ repeat HwExec (length (a_out a)).

Lemma abs_work b a : map (abs_act b) (hw_work a) = asq_work a.
Proof using. unfold hw_work, asq_work. by rewrite map_app, !map_repeat. Qed.

Lemma sys_live b bbmax k q0 y ids a fs' g now wc (w : K) :
  sys_inv qi rsn kc b bbmax k q0 y ids a → cs_qp_num (ctrl_seg q0) = rsn → 0 < max_post (sq q0) →
  release (a_out a) = Some fs' →
  ∃ wc' y' ids' a', sys_run (hw_work a ++ [ActPoll g now wc]) y w = Ok ([wc'], y', w) ∧
    sys_inv qi rsn kc b bbmax k q0 y' ids' a' ∧ a_out a' = fs' ∧ status wc' = IBV_WC_SUCCESS ∧
    wr_id wc' :: sig_ids ids' fs' = sig_ids ids (a_out a).
Proof using.
  intros Hy Hqn Hmp Hr.
  assert (Ha : (a_exec a ≤ a_fetched a ≤ length (a_out a))%nat).
  { destruct Hy as [(q & s0 & d & p & n & _ & _ & _ & _ & _ & _ & _ & _ & -> & -> & -> & _) _ _ _ _ _].
    rewrite !length_map, !length_app. lia. }
  destruct (asq_live 0 0 a fs' Ha Hr) as (a' & Hrun & Hout). pose proof (yv_room _ _ _ _ _ _ _ _ _ _ Hy) as Hroom.
  destruct (sys_run_refines b bbmax k q0 0 0 (hw_work a ++ [ActPoll g now wc]) y ids a a' [SqPoll] w Hy Hqn)
    as (wcs & y' & ids' & E & Hy' & Hs & Hl & Hids); [lia|lia| |by rewrite map_app, abs_work|].
  { apply list.Forall_app. split; [|by repeat constructor]. unfold hw_work.
    apply list.Forall_app. split; apply list.Forall_forall; intros x Hx; apply list_elem_of_In, repeat_spec in Hx; by subst x. }
  destruct wcs as [|wc' [|]]; [done| |done]. exists wc', y', ids', a'. split; [done|]. split; [done|]. split; [done|].
  split; [by apply Forall_inv in Hs|]. rewrite Hout in Hids. cbn [map app] in Hids. rewrite Hids.
  assert (Hno : concat (map (act_ids b) (hw_work a ++ [ActPoll g now wc])) = []).
  { unfold hw_work. rewrite !map_app, !map_repeat, !concat_app. cbn [map act_ids concat].
    generalize (length (a_out a)). intros n. induction n as [|n IH]; [done|]. cbn. exact IH. }
  by rewrite Hno, app_nil_r.
Qed.
End Sys.
