(* ===== verification/Mlx5Buf.v ===== *)
(** * libmlx5: buffers
    (src/drivers/libmlx5-1.0.2mlnx1/src: buf.c, bitmap.h)

    Buffers of queues come from huge pages, of which a bitmap manages chunks
    of 32 KB, from contiguous pages of the kernel driver, or from
    [posix_memalign], with fallbacks.  What the operating system answers is a
    parameter; what is returned to it is a list of events.  The bitmap table
    is as long as [calloc] made it, and an access outside of it or a shift
    past the width of [int] is a fault. *)

From stdpp Require Import base gmap list numbers strings.
From Stdlib Require Import ZArith Lia Ascii String.
From S2P Require Import Prelude Mlx5Base.

(** ** Bits of a table (bitmap.h) *)
Definition BITS_PER_LONG : Z := 64.
Definition BITS_TO_LONGS (nr : Z) : Z := (u64 (nr + BITS_PER_LONG - 1)) / BITS_PER_LONG.
Definition HPAGE_SIZE : Z := 2 * 1024 * 1024.
Definition MLX5_SHM_LENGTH : Z := HPAGE_SIZE.
Definition MLX5_Q_CHUNK_SIZE : Z := 32768.

(** Position of the lowest of [n] bits that is set, from 1; 0 without one. *)
Fixpoint ffs_from (n : nat) (i w : Z) : Z :=
  match n with
  | O => 0
  | S n => if Z.testbit w i then i + 1 else ffs_from n (i + 1) w
  end.
Definition ffs (w : Z) : Z := ffs_from 32 0 w.
Definition ffsl (w : Z) : Z := ffs_from 64 0 w.

Definition mlx5_ffz (word : Z) : Z := u64 (ffs (u32 (Z.lnot (u32 word))) - 1).

(** The words from [p] on. *)
Fixpoint ffz_loop (fuel : nat) (tbl : list Z) (p result size : Z) : res Z :=
  match fuel with
  | O => Fault Stuck
  | S fuel =>
      if negb (size .& u64 (Z.lnot (BITS_PER_LONG - 1)) =? 0) then
        let! tmp := arr_get tbl p in
        if negb (u64 (Z.lnot tmp) =? 0) then Ok (u32 (result + mlx5_ffz tmp))
        else ffz_loop fuel tbl (p + 1) (u32 (result + BITS_PER_LONG)) (u32 (size - BITS_PER_LONG))
      else if size =? 0 then Ok result
      else
        let! w := arr_get tbl p in
        let tmp := w .| u64 (Z.shiftl (2 ^ 64 - 1) size) in
        if tmp =? 2 ^ 32 - 1 then Ok (u32 (result + size))
        else Ok (u32 (result + mlx5_ffz tmp))
  end.
Definition mlx5_find_first_zero_bit (tbl : list Z) (size : Z) : res Z :=
  ffz_loop (S (Z.to_nat (size / BITS_PER_LONG))) tbl 0 0 size.

(** [1 << (nr % BITS_PER_LONG)] in [int]. *)
Definition int_bit (nr : Z) : res Z :=
  let c := nr mod BITS_PER_LONG in if 31 <=? c then Fault ShiftUB else Ok (Z.shiftl 1 c).
Definition mlx5_set_bit (nr : Z) (tbl : list Z) : res (list Z) :=
  let! b := int_bit nr in
  let! w := arr_get tbl (nr / BITS_PER_LONG) in
  arr_set tbl (nr / BITS_PER_LONG) (w .| b).
Definition mlx5_clear_bit (nr : Z) (tbl : list Z) : res (list Z) :=
  let! b := int_bit nr in
  let! w := arr_get tbl (nr / BITS_PER_LONG) in
  arr_set tbl (nr / BITS_PER_LONG) (w .& u64 (Z.lnot b)).
Definition mlx5_test_bit (nr : Z) (tbl : list Z) : res bool :=
  let! b := int_bit nr in
  let! w := arr_get tbl (nr / BITS_PER_LONG) in
  Ok (negb (w .& b =? 0)).

(** ** The bitmap (buf.c)

    [bm_table] has the words that lie in the memory that [calloc] returned. *)
Record mlx5_bitmap : Type := Bitmap
  { bm_last : Z; bm_top : Z; bm_max : Z; bm_avail : Z; bm_mask : Z; bm_table : list Z }.

Definition mlx5_bitmap_init (calloc : bool) (num mask : Z) : Z * mlx5_bitmap :=
  let bytes := BITS_TO_LONGS num * 4 in
  if calloc then (0, Bitmap 0 0 num num mask (repeat 0 (Z.to_nat (bytes / 8))))
  else (- ENOMEM, Bitmap 0 0 num num mask []).

Fixpoint clear_bits (n : nat) (obj : Z) (tbl : list Z) : res (list Z) :=
  match n with
  | O => Ok tbl
  | S n => let! tbl := mlx5_clear_bit obj tbl in clear_bits n (u32 (obj + 1)) tbl
  end.
Fixpoint set_bits (n : nat) (obj : Z) (tbl : list Z) : res (list Z) :=
  match n with
  | O => Ok tbl
  | S n => let! tbl := mlx5_set_bit obj tbl in set_bits n (u32 (obj + 1)) tbl
  end.

Definition bitmap_free_range (b : mlx5_bitmap) (obj cnt : Z) : res mlx5_bitmap :=
  let obj := u32 obj .& u32 (bm_max b - 1) in
  let! tbl := clear_bits (Z.to_nat cnt) obj (bm_table b) in
  Ok (Bitmap (Z.min (bm_last b) obj) (u32 (bm_top b + bm_max b) .& bm_mask b) (bm_max b) (u32 (bm_avail b + cnt))
        (bm_mask b) tbl).
Definition bitmap_empty (b : mlx5_bitmap) : bool := bm_avail b =? bm_max b.
Definition bitmap_avail (b : mlx5_bitmap) : Z := s32 (bm_avail b).

Definition mlx5_bitmap_alloc (b : mlx5_bitmap) : res (Z * mlx5_bitmap) :=
  let! obj := mlx5_find_first_zero_bit (bm_table b) (bm_max b) in
  let! (ret, b) :=
    (if obj <? bm_max b then
       let! tbl := mlx5_set_bit obj (bm_table b) in
       let last := u32 (obj + 1) in
       Ok (s32 (obj .| bm_top b),
           Bitmap (if last =? bm_max b then 0 else last) (bm_top b) (bm_max b) (bm_avail b) (bm_mask b) tbl)
     else Ok (-1, b)) in
  Ok (ret, if negb (ret =? -1) then Bitmap (bm_last b) (bm_top b) (bm_max b) (u32 (bm_avail b - 1)) (bm_mask b) (bm_table b)
           else b).

(** The loops of [find_aligned_range]; -1 is [2 ^ 32 - 1]. *)
Fixpoint skip_used (fuel : nat) (tbl : list Z) (start nbits alignment : Z) : res Z :=
  match fuel with
  | O => Fault Stuck
  | S fuel =>
      if start <? nbits then
        let! t := mlx5_test_bit start tbl in
        if t : bool then skip_used fuel tbl (u32 (start + alignment)) nbits alignment else Ok start
      else Ok start
  end.
Fixpoint first_used (n : nat) (tbl : list Z) (i : Z) : res (option Z) :=
  match n with
  | O => Ok None
  | S n =>
      let! t := mlx5_test_bit i tbl in
      if t : bool then Ok (Some i) else first_used n tbl (u32 (i + 1))
  end.
Fixpoint find_again (fuel : nat) (tbl : list Z) (start nbits len alignment : Z) : res Z :=
  match fuel with
  | O => Fault Stuck
  | S fuel =>
      let start := u32 (align start (u64 alignment)) in
      let! start := skip_used (S (Z.to_nat nbits)) tbl start nbits alignment in
      if nbits <=? start then Ok (u32 (-1))
      else
        let end_ := u32 (start + len) in
        if nbits <? end_ then Ok (u32 (-1))
        else
          let! u := first_used (Z.to_nat (end_ - (start + 1))) tbl (u32 (start + 1)) in
          match u with
          | Some i => find_again fuel tbl (u32 (i + 1)) nbits len alignment
          | None => Ok start
          end
  end.
Definition find_aligned_range (tbl : list Z) (start nbits len alignment : Z) : res Z :=
  find_again (S (Z.to_nat nbits)) tbl start nbits len alignment.

Definition bitmap_alloc_range (b : mlx5_bitmap) (cnt algn : Z) : res (Z * mlx5_bitmap) :=
  if (cnt =? 1) && (algn =? 1) then mlx5_bitmap_alloc b
  else if bm_max b <? u32 cnt then Ok (-1, b)
  else
    let! obj := find_aligned_range (bm_table b) (bm_last b) (bm_max b) cnt algn in
    let! (obj, b) :=
      (if bm_max b <=? obj then
         let b := Bitmap (bm_last b) (u32 (bm_top b + bm_max b) .& bm_mask b) (bm_max b) (bm_avail b) (bm_mask b) (bm_table b) in
         let! obj := find_aligned_range (bm_table b) 0 (bm_max b) cnt algn in Ok (obj, b)
       else Ok (obj, b)) in
    let! (ret, obj, b) :=
      (if obj <? bm_max b then
         let! tbl := set_bits (Z.to_nat cnt) obj (bm_table b) in
         let last := if obj =? bm_last b
                     then let l := u32 (obj + cnt) in if bm_max b <=? l then 0 else l
                     else bm_last b in
         let obj' := obj .| bm_top b in
         Ok (s32 obj', obj', Bitmap last (bm_top b) (bm_max b) (bm_avail b) (bm_mask b) tbl)
       else Ok (-1, obj, b)) in
    let b := if negb (ret =? -1)
             then Bitmap (bm_last b) (bm_top b) (bm_max b) (u32 (bm_avail b - cnt)) (bm_mask b) (bm_table b) else b in
    Ok (s32 obj, b).

(** ** Buffers *)
Inductive mlx5_alloc_type : Type :=
| MLX5_ALLOC_TYPE_ANON | MLX5_ALLOC_TYPE_HUGE | MLX5_ALLOC_TYPE_CONTIG
| MLX5_ALLOC_TYPE_PREFER_HUGE | MLX5_ALLOC_TYPE_PREFER_CONTIG | MLX5_ALLOC_TYPE_ALL.
#[global] Instance mlx5_alloc_type_eq_dec : EqDecision mlx5_alloc_type.
Proof. solve_decision. Defined.

(** [numa_req]: the node if the request is valid.  Segments of huge pages
    have names. *)
Record mlx5_buf : Type := Buf
  { b_buf : Z; b_length : Z; b_base : Z; b_hmem : option Z; b_type : mlx5_alloc_type;
    numa_req : option Z; numa_alloc : bool }.

Definition buf_set_base (b : mlx5_buf) (base : Z) : mlx5_buf :=
  Buf (b_buf b) (b_length b) base (b_hmem b) (b_type b) (numa_req b) (numa_alloc b).
Definition buf_set_hmem (b : mlx5_buf) (h : Z) : mlx5_buf :=
  Buf (b_buf b) (b_length b) (b_base b) (Some h) (b_type b) (numa_req b) (numa_alloc b).
Definition buf_set_length (b : mlx5_buf) (n : Z) : mlx5_buf :=
  Buf (b_buf b) n (b_base b) (b_hmem b) (b_type b) (numa_req b) (numa_alloc b).
Definition buf_set_buf (b : mlx5_buf) (a : Z) : mlx5_buf :=
  Buf a (b_length b) (b_base b) (b_hmem b) (b_type b) (numa_req b) (numa_alloc b).
Definition buf_set_type (b : mlx5_buf) (t : mlx5_alloc_type) : mlx5_buf :=
  Buf (b_buf b) (b_length b) (b_base b) (b_hmem b) t (numa_req b) (numa_alloc b).

Record mlx5_hugetlb_mem : Type := Hmem { shmid : Z; shmaddr : Z; h_bitmap : mlx5_bitmap }.

(** What is given back to the operating system. *)
Inductive buf_ev : Type :=
| EvFreeTable | EvShmdt (a : Z) | EvRmid (id : Z) | EvFreeHmem
| EvDofork (a n : Z) | EvMunmap (a n : Z) | EvFree (a : Z) | EvNumaFree (a n : Z).

(** The list of segments, and the segments. *)
Record huge_st : Type := HugeSt
  { hugetlb_list : list Z; h_mem : gmap Z mlx5_hugetlb_mem }.

(** The table of a segment is not NULL. *)
Definition mlx5_bitmap_cleanup : list buf_ev := [EvFreeTable].
Definition free_huge_mem (h : mlx5_hugetlb_mem) : list buf_ev :=
  mlx5_bitmap_cleanup ++ [EvShmdt (shmaddr h); EvRmid (shmid h); EvFreeHmem].

(** Answers: [malloc], [shmget], [shmat], [calloc]. *)
Record huge_env : Type := HugeEnv
  { hv_malloc : bool; hv_shmget : option Z; hv_shmat : option Z; hv_calloc : bool; hv_dontfork : Z }.

Definition alloc_huge_mem (e : huge_env) (size : Z) : option mlx5_hugetlb_mem * list buf_ev :=
  if negb (hv_malloc e) then (None, [])
  else
    let shm_len := align size MLX5_SHM_LENGTH in
    match hv_shmget e with
    | None => (None, [EvFreeHmem])
    | Some id =>
        match hv_shmat e with
        | None => (None, [EvRmid id; EvFreeHmem])
        | Some a =>
            let '(r, b) := mlx5_bitmap_init (hv_calloc e) (u32 (shm_len / MLX5_Q_CHUNK_SIZE))
                             (u32 (shm_len / MLX5_Q_CHUNK_SIZE - 1)) in
            if negb (r =? 0) then (None, [EvShmdt a; EvRmid id; EvFreeHmem])
            else (Some (Hmem id a b), [EvRmid id])
        end
    end.

Definition set_bitmap (st : huge_st) (i : Z) (b : mlx5_bitmap) : huge_st :=
  HugeSt (hugetlb_list st) (alter (λ h, Hmem (shmid h) (shmaddr h) b) i (h_mem st)).

(** A pointer to a segment. *)
Definition segment (st : huge_st) (i : option Z) : res mlx5_hugetlb_mem :=
  match i ≫= (h_mem st !!.) with Some h => Ok h | None => Fault NullDeref end.

(** The search of the list. *)
Fixpoint huge_search (ids : list Z) (nchunk : Z) (buf : mlx5_buf) (st : huge_st) : res (bool * mlx5_buf * huge_st) :=
  match ids with
  | [] => Ok (false, buf, st)
  | i :: ids =>
      let! h := segment st (Some i) in
      if negb (bitmap_avail (h_bitmap h) =? 0) then
        let! (base, b) := bitmap_alloc_range (h_bitmap h) nchunk 1 in
        let st := set_bitmap st i b in
        let buf := buf_set_base buf base in
        if negb (base =? -1) then Ok (true, buf_set_hmem buf i, st)
        else huge_search ids nchunk buf st
      else huge_search ids nchunk buf st
  end.

(** Chunks are returned, and an empty segment is released. *)
Definition huge_release (i base nchunk : Z) (st : huge_st) : res (huge_st * list buf_ev) :=
  let! h := segment st (Some i) in
  let! b := bitmap_free_range (h_bitmap h) base nchunk in
  let st := set_bitmap st i b in
  if bitmap_empty b
  then Ok (HugeSt (List.filter (λ j, negb (j =? i)) (hugetlb_list st)) (delete i (h_mem st)), free_huge_mem h)
  else Ok (st, []).

(** [ni]: name of a new segment. *)
Definition alloc_huge_buf (e : huge_env) (ni : Z) (buf : mlx5_buf) (size : Z) (st : huge_st)
    : res (Z * mlx5_buf * huge_st * list buf_ev) :=
  let buf := buf_set_length buf (align size MLX5_Q_CHUNK_SIZE) in
  let nchunk := s32 (b_length buf / MLX5_Q_CHUNK_SIZE) in
  let! (found, buf, st) := huge_search (hugetlb_list st) nchunk buf st in
  let! (ret, buf, st, evs) :=
    (if found : bool then Ok (0, buf, st, [])
     else
       match alloc_huge_mem e (b_length buf) with
       | (None, evs) => Ok (-1, buf, st, evs)
       | (Some h, evs) =>
           let! (base, b) := bitmap_alloc_range (h_bitmap h) nchunk 1 in
           let buf := buf_set_base buf base in
           let h := Hmem (shmid h) (shmaddr h) b in
           if base =? -1 then Ok (-1, buf, st, evs ++ free_huge_mem h)
           else
             let l := if negb (bitmap_avail b =? 0) then ni :: hugetlb_list st else hugetlb_list st ++ [ni] in
             Ok (0, buf_set_hmem buf ni, HugeSt l (<[ni := h]> (h_mem st)), evs)
       end) in
  if negb (ret =? 0) then Ok (-1, buf, st, evs)
  else
    let! h := segment st (b_hmem buf) in
    let buf := buf_set_buf buf (shmaddr h + b_base buf * MLX5_Q_CHUNK_SIZE) in
    if negb (hv_dontfork e =? 0) then
      let! (st, evs') := huge_release (default 0 (b_hmem buf)) (b_base buf) nchunk st in
      Ok (-1, buf, st, evs ++ evs')
    else Ok (0, buf_set_type buf MLX5_ALLOC_TYPE_HUGE, st, evs).

Definition free_huge_buf (buf : mlx5_buf) (st : huge_st) : res (huge_st * list buf_ev) :=
  let nchunk := s32 (b_length buf / MLX5_Q_CHUNK_SIZE) in
  match b_hmem buf with
  | None => Fault NullDeref
  | Some i => huge_release i (b_base buf) nchunk st
  end.

(** ** Contiguous pages *)
Definition MLX5_IB_MMAP_CMD_SHIFT : Z := 8.
Definition MLX5_IB_MMAP_CMD_MASK : Z := 0xff.
Definition set_command (command offset : Z) : Z := offset .| Z.shiftl command MLX5_IB_MMAP_CMD_SHIFT.
Definition get_command (offset : Z) : Z := (offset .>> MLX5_IB_MMAP_CMD_SHIFT) .& MLX5_IB_MMAP_CMD_MASK.
Definition reset_command (offset : Z) : Z :=
  offset .& Z.lnot (Z.shiftl MLX5_IB_MMAP_CMD_MASK MLX5_IB_MMAP_CMD_SHIFT).
Definition set_order (order offset : Z) : Z := offset .| order.

Definition MLX5_MMAP_GET_CONTIGUOUS_PAGES_CMD : Z := 1.
Definition MLX5_EXP_MMAP_GET_CONTIGUOUS_PAGES_CPU_NUMA_CMD : Z := 0xFC.
Definition MLX5_EXP_MMAP_GET_CONTIGUOUS_PAGES_DEV_NUMA_CMD : Z := 0xFD.
Definition MLX5_MAX_LOG2_CONTIG_BLOCK_SIZE : Z := 23.
Definition MLX5_MIN_LOG2_CONTIG_BLOCK_SIZE : Z := 12.

(** [env]: the value that [atoi] makes of a variable, if it is set. *)
Definition mlx5_alloc_get_env_info (env : string → option Z) (component : string) : Z * Z :=
  let max := match env (component ++ "_MAX_LOG2_CONTIG_BSIZE")%string with
             | Some v => if (v <=? MLX5_MAX_LOG2_CONTIG_BLOCK_SIZE) && (MLX5_MIN_LOG2_CONTIG_BLOCK_SIZE <=? v)
                         then v else MLX5_MAX_LOG2_CONTIG_BLOCK_SIZE
             | None => MLX5_MAX_LOG2_CONTIG_BLOCK_SIZE
             end in
  let min := match env (component ++ "_MIN_LOG2_CONTIG_BSIZE")%string with
             | Some v => if (MLX5_MIN_LOG2_CONTIG_BLOCK_SIZE <=? v) && (v <=? max)
                         then v else MLX5_MIN_LOG2_CONTIG_BLOCK_SIZE
             | None => MLX5_MIN_LOG2_CONTIG_BLOCK_SIZE
             end in
  (max, min).

(** [mmap addr length offset]: the address, or [errno]. *)
Record contig_env : Type := ContigEnv
  { cv_env : string → option Z;
    cv_mmap : option Z → Z → Z → Z + Z;
    cv_numa_id : Z;
    cv_cpu_numa : Z;
    cv_dontfork : Z }.

Fixpoint contig_loop (e : contig_env) (fuel : nat) (numa act_addr : option Z) (act_size page_size min_log order : Z)
    : res (option Z) :=
  match fuel with
  | O => Fault Stuck
  | S fuel =>
      let cmd := match numa with
                 | Some n => if n =? cv_numa_id e then MLX5_EXP_MMAP_GET_CONTIGUOUS_PAGES_DEV_NUMA_CMD
                             else if n =? cv_cpu_numa e then MLX5_EXP_MMAP_GET_CONTIGUOUS_PAGES_CPU_NUMA_CMD
                             else MLX5_MMAP_GET_CONTIGUOUS_PAGES_CMD
                 | None => MLX5_MMAP_GET_CONTIGUOUS_PAGES_CMD
                 end in
      let offset := set_order order (set_command cmd 0) in
      let addr := cv_mmap e act_addr act_size (page_size * offset) in
      let addr := match addr with
                  | inr _ => if negb (get_command offset =? MLX5_MMAP_GET_CONTIGUOUS_PAGES_CMD)
                             then cv_mmap e act_addr act_size
                                    (page_size * set_command MLX5_MMAP_GET_CONTIGUOUS_PAGES_CMD (reset_command offset))
                             else addr
                  | inl _ => addr
                  end in
      match addr with
      | inl a => Ok (Some a)
      | inr err =>
          if err =? EINVAL then Ok None
          else if min_log <=? order - 1 then contig_loop e fuel numa act_addr act_size page_size min_log (order - 1)
          else Ok None
      end
  end.

Definition mlx5_alloc_buf_contig (e : contig_env) (buf : mlx5_buf) (size page_size : Z) (component : string)
    (req_addr : option Z) : res (Z * mlx5_buf * list buf_ev) :=
  let '(max_log, min_log) := mlx5_alloc_get_env_info (cv_env e) component in
  let! order := (if Z.shiftl 1 max_log <=? size then Ok max_log else mlx5_get_block_order size) in
  let act_addr := option_map (λ a, a .& u64 (Z.lnot (page_size - 1))) req_addr in
  let act_size := match req_addr, act_addr with Some r, Some a => u64 (size + (r - a)) | _, _ => size end in
  let! o := contig_loop e 32 (numa_req buf) act_addr act_size page_size min_log order in
  match o with
  | None => Ok (-1, buf, [])
  | Some a =>
      if negb (cv_dontfork e =? 0) then Ok (-1, buf, [EvMunmap a act_size])
      else Ok (0, buf_set_type (buf_set_length (buf_set_buf buf a) act_size) MLX5_ALLOC_TYPE_CONTIG, [])
  end.

Definition mlx5_free_buf_contig (buf : mlx5_buf) : list buf_ev :=
  [EvDofork (b_buf buf) (b_length buf); EvMunmap (b_buf buf) (b_length buf)].

(** ** Anonymous memory *)

(** Answers of libnuma and [posix_memalign] (its error code is [inr]). *)
Record anon_env : Type := AnonEnv
  { av_numa : bool;                (** [numa_available] *)
    av_onnode : Z → Z → option Z;
    av_memalign : Z → Z → Z + Z;
    av_dontfork : Z }.

Definition mlx5_alloc_numa (e : anon_env) (size numa : Z) : option Z :=
  if (numa <? 0) || negb (av_numa e) then None else av_onnode e size numa.
Definition mlx5_free_numa (a size : Z) : list buf_ev := [EvNumaFree a size].

Definition mlx5_alloc_buf (e : anon_env) (buf : mlx5_buf) (size page_size : Z) : Z * mlx5_buf * list buf_ev :=
  let al_size := align size page_size in
  let got := match numa_req buf with Some n => mlx5_alloc_numa e al_size n | None => None end in
  let r := match got with Some a => inl (a, true) | None =>
             match av_memalign e page_size al_size with inl a => inl (a, false) | inr ret => inr ret end end in
  match r with
  | inr ret => (ret, Buf 0 (b_length buf) (b_base buf) (b_hmem buf) (b_type buf) (numa_req buf) false, [])
  | inl (a, n) =>
      let buf := Buf a (b_length buf) (b_base buf) (b_hmem buf) (b_type buf) (numa_req buf) n in
      if negb (av_dontfork e =? 0)
      then (av_dontfork e, buf, if n : bool then mlx5_free_numa a al_size else [EvFree a])
      else (0, buf_set_type (buf_set_length buf al_size) MLX5_ALLOC_TYPE_ANON, [])
  end.

Definition mlx5_free_buf (buf : mlx5_buf) : list buf_ev :=
  EvDofork (b_buf buf) (b_length buf) ::
  (if numa_alloc buf then mlx5_free_numa (b_buf buf) (b_length buf) else [EvFree (b_buf buf)]).

(** ** The fallbacks *)
Definition mlx5_alloc_prefered_buf (he : huge_env) (ce : contig_env) (ae : anon_env) (ni : Z) (buf : mlx5_buf)
    (size page_size : Z) (type : mlx5_alloc_type) (component : string) (st : huge_st)
    : res (Z * mlx5_buf * huge_st * list buf_ev) :=
  let! (ret, buf, st, ev1) :=
    (if bool_decide (type = MLX5_ALLOC_TYPE_HUGE) || bool_decide (type = MLX5_ALLOC_TYPE_PREFER_HUGE) ||
        bool_decide (type = MLX5_ALLOC_TYPE_ALL)
     then alloc_huge_buf he ni buf size st else Ok (1, buf, st, [])) in
  if ret =? 0 then Ok (0, buf, st, ev1)
  else if bool_decide (type = MLX5_ALLOC_TYPE_HUGE) then Ok (-1, buf, st, ev1)
  else
    let! (ret, buf, ev2) :=
      (if bool_decide (type = MLX5_ALLOC_TYPE_CONTIG) || bool_decide (type = MLX5_ALLOC_TYPE_PREFER_CONTIG) ||
          bool_decide (type = MLX5_ALLOC_TYPE_ALL)
       then mlx5_alloc_buf_contig ce buf size page_size component None else Ok (1, buf, [])) in
    if ret =? 0 then Ok (0, buf, st, ev1 ++ ev2)
    else if bool_decide (type = MLX5_ALLOC_TYPE_CONTIG) then Ok (-1, buf, st, ev1 ++ ev2)
    else
      let '(ret, buf, ev3) := mlx5_alloc_buf ae buf size page_size in
      Ok (ret, buf, st, ev1 ++ ev2 ++ ev3).

Definition mlx5_free_actual_buf (buf : mlx5_buf) (st : huge_st) : res (Z * huge_st * list buf_ev) :=
  match b_type buf with
  | MLX5_ALLOC_TYPE_ANON => Ok (0, st, mlx5_free_buf buf)
  | MLX5_ALLOC_TYPE_HUGE => let! (st, evs) := free_huge_buf buf st in Ok (0, st, evs)
  | MLX5_ALLOC_TYPE_CONTIG => Ok (0, st, mlx5_free_buf_contig buf)
  | _ => Ok (0, st, [])
  end.

(** [strcasecmp] with 0. *)
Definition lower (c : ascii) : ascii :=
  let n := nat_of_ascii c in if (65 <=? n)%nat && (n <=? 90)%nat then ascii_of_nat (n + 32) else c.
Fixpoint same_letters (s t : string) : bool :=
  match s, t with
  | EmptyString, EmptyString => true
  | String c s, String d t => Ascii.eqb (lower c) (lower d) && same_letters s t
  | _, _ => false
  end.

Definition mlx5_get_alloc_type (getenv : string → option string) (component : string) (default_type : mlx5_alloc_type)
    : mlx5_alloc_type :=
  match getenv (component ++ "_ALLOC_TYPE")%string with
  | None => default_type
  | Some v =>
      if same_letters v "ANON" then MLX5_ALLOC_TYPE_ANON
      else if same_letters v "HUGE" then MLX5_ALLOC_TYPE_HUGE
      else if same_letters v "CONTIG" then MLX5_ALLOC_TYPE_CONTIG
      else if same_letters v "PREFER_CONTIG" then MLX5_ALLOC_TYPE_PREFER_CONTIG
      else if same_letters v "PREFER_HUGE" then MLX5_ALLOC_TYPE_PREFER_HUGE
      else if same_letters v "ALL" then MLX5_ALLOC_TYPE_ALL
      else default_type
  end.

(** ** Contiguous pages: the outcomes *)

(** The loop ends: an order is at most 31 above the smallest. *)
Lemma contig_loop_total e n numa aa sz ps lo : ∀ order,
  order - lo < Z.of_nat n → (1 ≤ n)%nat →
  ∃ o, contig_loop e n numa aa sz ps lo order = Ok o ∧
    (∀ a, o = Some a → ∃ off, cv_mmap e aa sz (ps * off) = inl a).
Proof.
  induction n as [|n IH]; intros order Ho Hn; [lia|]. cbn [contig_loop].
  set (cmd := match numa with Some _ => _ | None => _ end).
  set (off := set_order order (set_command cmd 0)). clearbody off.
  set (off2 := set_command _ (reset_command off)). clearbody off2.
  assert (Hret : ∀ err, ∃ o, (if err =? EINVAL then Ok None
      else if lo <=? order - 1 then contig_loop e n numa aa sz ps lo (order - 1) else Ok None) = Ok o ∧
      (∀ a, o = Some a → ∃ off, cv_mmap e aa sz (ps * off) = inl a)).
  { intros err. destruct (err =? EINVAL); [by exists None|]. destruct (Z.leb_spec lo (order - 1)); [|by exists None].
    apply IH; lia. }
  destruct (cv_mmap e aa sz (ps * off)) as [a|err] eqn:E1.
  - exists (Some a). split; [done|]. intros a' [= <-]. by exists off.
  - destruct (negb _); [|apply Hret]. destruct (cv_mmap e aa sz (ps * off2)) as [a|err2] eqn:E2; [|apply Hret].
    exists (Some a). split; [done|]. intros a' [= <-]. by exists off2.
Qed.

Lemma env_info_range env c : let '(hi, lo) := mlx5_alloc_get_env_info env c in 12 ≤ lo ≤ hi ∧ hi ≤ 23.
Proof.
  unfold mlx5_alloc_get_env_info, MLX5_MAX_LOG2_CONTIG_BLOCK_SIZE, MLX5_MIN_LOG2_CONTIG_BLOCK_SIZE.
  assert (H1 : ∀ o, 12 ≤ (match o with Some v => if (v <=? 23) && (12 <=? v) then v else 23 | None => 23 end) ≤ 23).
  { intros [v|]; [|lia]. destruct (Z.leb_spec v 23), (Z.leb_spec 12 v); cbn; lia. }
  specialize (H1 (env (c ++ "_MAX_LOG2_CONTIG_BSIZE")%string)). set (hi := match env _ with Some _ => _ | None => _ end) in *.
  clearbody hi. destruct (env _) as [v|]; [|lia]. destruct (Z.leb_spec 12 v), (Z.leb_spec v hi); cbn; lia.
Qed.

Lemma alloc_buf_contig_total e buf size ps c :
  0 < size → ∃ ret buf' evs, mlx5_alloc_buf_contig e buf size ps c None = Ok (ret, buf', evs) ∧
    ((ret = 0 ∧ b_type buf' = MLX5_ALLOC_TYPE_CONTIG ∧ b_length buf' = size ∧
      ∃ off, cv_mmap e None size (ps * off) = inl (b_buf buf')) ∨ (ret = -1 ∧ buf' = buf)).
Proof.
  intros Hs. unfold mlx5_alloc_buf_contig. pose proof (env_info_range (cv_env e) c) as Hr.
  destruct (mlx5_alloc_get_env_info (cv_env e) c) as [hi lo].
  assert (∃ o, (if Z.shiftl 1 hi <=? size then Ok hi else mlx5_get_block_order size) = Ok o ∧ o ≤ 23) as (o & -> & Ho).
  { rewrite Z.shiftl_1_l. destruct (Z.leb_spec (2 ^ hi) size); [exists hi; split; [done|lia]|].
    assert (2 ^ hi ≤ 2 ^ 23) by (apply Z.pow_le_mono_r; lia).
    rewrite block_order_spec by (change (2 ^ 23) with 8388608 in *; lia). eexists. split; [reflexivity|].
    apply log2_up_least; lia. }
  cbn [res_bind option_map]. destruct (contig_loop_total e 32 (numa_req buf) None size ps lo o) as (a & -> & Ha); [lia|lia|].
  cbn [res_bind]. destruct a as [a|]; [|eexists _, _, _; split; [reflexivity|]; by right].
  destruct (negb _); eexists _, _, _; (split; [reflexivity|]); [by right|]. left. cbn.
  split; [done|]. split; [done|]. split; [done|]. by apply Ha.
Qed.

(** Where a buffer comes from, and the events that release it. *)
Inductive obtained (ce : contig_env) (ae : anon_env) (ps : Z) (buf : mlx5_buf) : list buf_ev → Prop :=
| FromContig off :
    b_type buf = MLX5_ALLOC_TYPE_CONTIG → cv_mmap ce None (b_length buf) (ps * off) = inl (b_buf buf) →
    obtained ce ae ps buf [EvDofork (b_buf buf) (b_length buf); EvMunmap (b_buf buf) (b_length buf)]
| FromNuma n :
    b_type buf = MLX5_ALLOC_TYPE_ANON → av_onnode ae (b_length buf) n = Some (b_buf buf) →
    obtained ce ae ps buf [EvDofork (b_buf buf) (b_length buf); EvNumaFree (b_buf buf) (b_length buf)]
| FromMemalign :
    b_type buf = MLX5_ALLOC_TYPE_ANON → av_memalign ae ps (b_length buf) = inl (b_buf buf) →
    obtained ce ae ps buf [EvDofork (b_buf buf) (b_length buf); EvFree (b_buf buf)].

Lemma alloc_buf_total ce ae buf size ps :
  (∀ n err, av_memalign ae ps n = inr err → err ≠ 0) →
  ∃ ret buf' evs, mlx5_alloc_buf ae buf size ps = (ret, buf', evs) ∧
    (ret = 0 → b_length buf' = align size ps ∧ b_type buf' = MLX5_ALLOC_TYPE_ANON ∧
       obtained ce ae ps buf' (mlx5_free_buf buf')) ∧
    (ret ≠ 0 → (∃ err, av_memalign ae ps (align size ps) = inr err) ∨ av_dontfork ae ≠ 0).
Proof.
  intros Herr. unfold mlx5_alloc_buf. set (got := match numa_req buf with Some _ => _ | None => _ end).
  assert (Hgot : ∀ a, got = Some a → ∃ n, av_onnode ae (align size ps) n = Some a).
  { intros a. unfold got. destruct (numa_req buf) as [n|]; [|done]. unfold mlx5_alloc_numa.
    destruct (_ || _); [done|]. by exists n. }
  clearbody got. destruct got as [a|].
  - destruct (Z.eqb_spec (av_dontfork ae) 0); cbn [negb]; (eexists _, _, _; split; [reflexivity|]); [|tauto].
    split; [|done]. intros _. destruct (Hgot a eq_refl) as [n Hn]. split; [done|]. split; [done|].
    by apply (FromNuma _ _ _ _ n).
  - destruct (av_memalign ae ps (align size ps)) as [a|err] eqn:Em.
    + destruct (Z.eqb_spec (av_dontfork ae) 0); cbn [negb]; (eexists _, _, _; split; [reflexivity|]); [|tauto].
      split; [|done]. intros _. split; [done|]. split; [done|]. by apply FromMemalign.
    + eexists _, _, _. split; [reflexivity|]. split; [by intros ->; destruct (Herr _ _ Em)|]. intros _. left. by exists err.
Qed.

(** [mlx5_alloc_prefered_buf] without huge pages ends; a buffer that it
    returns has at least the size asked for and is of the kind of memory it
    came from, so that [mlx5_free_actual_buf] gives it back with the matching
    call; with a fallback it fails only if [posix_memalign] or the fork
    protection does, and without one it never falls back. *)
Theorem mlx5_prefered_buf_outcome he ce ae ni buf size k type c st :
  type ∈ [MLX5_ALLOC_TYPE_ANON; MLX5_ALLOC_TYPE_CONTIG; MLX5_ALLOC_TYPE_PREFER_CONTIG] →
  0 < size → 0 ≤ k < 63 → size + 2 ^ k ≤ 2 ^ 64 → (∀ n err, av_memalign ae (2 ^ k) n = inr err → err ≠ 0) →
  ∃ ret buf' evs, mlx5_alloc_prefered_buf he ce ae ni buf size (2 ^ k) type c st = Ok (ret, buf', st, evs) ∧
    (ret = 0 → size ≤ b_length buf' ∧ (type = MLX5_ALLOC_TYPE_CONTIG → b_type buf' = MLX5_ALLOC_TYPE_CONTIG) ∧
       ∃ evs', mlx5_free_actual_buf buf' st = Ok (0, st, evs') ∧ obtained ce ae (2 ^ k) buf' evs') ∧
    (ret ≠ 0 → type = MLX5_ALLOC_TYPE_CONTIG ∨ (∃ err, av_memalign ae (2 ^ k) (align size (2 ^ k)) = inr err) ∨
       av_dontfork ae ≠ 0).
Proof.
  intros Ht Hs Hk Hw Herr. pose proof (align_spec size k Hk ltac:(lia) Hw) as [Hal _].
  assert (Hanon : ∀ ce b ev, ∃ ret buf' evs, (let '(ret, buf, ev3) := mlx5_alloc_buf ae b size (2 ^ k) in
      Ok (ret, buf, st, ev ++ ev3)) = Ok (ret, buf', st, evs) ∧
      (ret = 0 → size ≤ b_length buf' ∧ b_type buf' = MLX5_ALLOC_TYPE_ANON ∧
         obtained ce ae (2 ^ k) buf' (mlx5_free_buf buf')) ∧
      (ret ≠ 0 → (∃ err, av_memalign ae (2 ^ k) (align size (2 ^ k)) = inr err) ∨ av_dontfork ae ≠ 0)).
  { intros ce' b ev. destruct (alloc_buf_total ce' ae b size (2 ^ k) Herr) as (ret & b' & evs & -> & H1 & H2).
    eexists _, _, _. split; [reflexivity|]. split; [|exact H2]. intros H0. destruct (H1 H0) as (-> & ? & ?). split; [lia|done]. }
  unfold mlx5_alloc_prefered_buf. set_unfold in Ht. destruct Ht as [->|[->|[->|[]]]].
  - rewrite !bool_decide_eq_false_2 by done. cbn [orb res_bind Z.eqb].
    destruct (Hanon ce buf []) as (ret & b' & evs & E & H1 & H2). exists ret, b', evs. cbn [app] in E |- *. split; [exact E|].
    split; [|tauto]. intros H0. destruct (H1 H0) as (Hl & Ht & Hob). split; [done|]. split; [done|].
    exists (mlx5_free_buf b'). unfold mlx5_free_actual_buf. by rewrite Ht.
  - rewrite !(bool_decide_eq_false_2 (MLX5_ALLOC_TYPE_CONTIG = _)), !(bool_decide_eq_true_2 (MLX5_ALLOC_TYPE_CONTIG = _)) by done.
    cbn [orb res_bind Z.eqb].
    destruct (alloc_buf_contig_total ce buf size (2 ^ k) c Hs) as (ret & b' & evs & -> & Hr). cbn [res_bind app].
    destruct Hr as [(-> & Hty & Hl & off & Hm)|[-> ->]]; cbn [Z.eqb]; (eexists _, _, _; split; [reflexivity|]).
    + split; [|done]. intros _. split; [lia|]. split; [done|]. exists (mlx5_free_buf_contig b').
      unfold mlx5_free_actual_buf. rewrite Hty. split; [done|]. apply (FromContig _ _ _ _ off); [done|by rewrite Hl].
    + split; [done|]. intros _. by left.
  - rewrite !(bool_decide_eq_false_2 (MLX5_ALLOC_TYPE_PREFER_CONTIG = _)), !(bool_decide_eq_true_2 (MLX5_ALLOC_TYPE_PREFER_CONTIG = _)) by done.
    cbn [orb res_bind Z.eqb].
    destruct (alloc_buf_contig_total ce buf size (2 ^ k) c Hs) as (ret & b' & evs & -> & Hr). cbn [res_bind app].
    destruct Hr as [(-> & Hty & Hl & off & Hm)|[-> ->]]; cbn [Z.eqb].
    + eexists _, _, _. split; [reflexivity|]. split; [|done]. intros _. split; [lia|]. split; [done|]. exists (mlx5_free_buf_contig b').
      unfold mlx5_free_actual_buf. rewrite Hty. split; [done|]. apply (FromContig _ _ _ _ off); [done|by rewrite Hl].
    + destruct (Hanon ce buf evs) as (ret & b' & evs' & E & H1 & H2). exists ret, b', evs'. split; [exact E|].
      split; [|tauto]. intros H0. destruct (H1 H0) as (Hl & Ht & Hob). split; [done|]. split; [done|].
      exists (mlx5_free_buf b'). unfold mlx5_free_actual_buf. by rewrite Ht.
Qed.

(** The kernel has no contiguous pages of any order. *)
Definition ex_contig : contig_env := ContigEnv (λ _, None) (λ _ _ _, inr ENOMEM) 0 0 0.
Definition ex_anon : anon_env := AnonEnv false (λ _ _, None) (λ _ _, inl 4096) 0.
Definition ex_huge : huge_env := HugeEnv true (Some 1) (Some (2 ^ 30)) true 0.
Definition ex_buf : mlx5_buf := Buf 0 0 0 None MLX5_ALLOC_TYPE_ANON (Some 0) false.

Lemma mlx5_prefered_buf_outcome_witness :
  ∃ buf' evs, mlx5_alloc_prefered_buf ex_huge ex_contig ex_anon 0 ex_buf 5000 (2 ^ 12) MLX5_ALLOC_TYPE_PREFER_CONTIG
                "MLX_QP" (HugeSt [] ∅) = Ok (0, buf', HugeSt [] ∅, evs) ∧ 5000 ≤ b_length buf' ∧
    mlx5_free_actual_buf buf' (HugeSt [] ∅) = Ok (0, HugeSt [] ∅, [EvDofork 4096 8192; EvFree 4096]).
Proof.
  destruct (mlx5_prefered_buf_outcome ex_huge ex_contig ex_anon 0 ex_buf 5000 12 MLX5_ALLOC_TYPE_PREFER_CONTIG "MLX_QP"
              (HugeSt [] ∅)) as (ret & b & evs & E & H & _);
    [right; right; left|lia|lia|vm_compute; discriminate|intros n err [=]|].
  vm_compute in E. injection E as <- <- <-.
  destruct (H eq_refl) as (Hl & _ & evs' & Ef & Hob).
  eexists _, _. split; [vm_compute; reflexivity|]. split; [exact Hl|]. vm_compute. reflexivity.
Defined.

(** ** Huge pages

    The table has a [uint32_t] for every 64 chunks, but is accessed in words
    of 64 bits: for a segment of one huge page it is 4 bytes long, and the
    first search reads 8. *)
Theorem mlx5_huge_table_too_short e ni buf size st :
  hugetlb_list st = [] → hv_malloc e = true → is_Some (hv_shmget e) → is_Some (hv_shmat e) → hv_calloc e = true →
  0 < size ≤ HPAGE_SIZE → alloc_huge_buf e ni buf size st = Fault OutOfBounds.
Proof.
  intros Hl Hm [id Hi] [a Ha] Hc Hs. unfold HPAGE_SIZE in Hs.
  destruct (align_spec size 15 ltac:(lia) ltac:(lia) ltac:(lia)) as [Hal Hmod]. change (2 ^ 15) with 32768 in Hal, Hmod.
  apply Z.mod_divide in Hmod as [n Hn]; [|lia]. assert (1 ≤ n ≤ 64) by lia.
  unfold alloc_huge_buf, MLX5_Q_CHUNK_SIZE. rewrite Hl. cbn [huge_search res_bind].
  cbn [b_length buf_set_length]. rewrite Hn, Z.div_mul by lia.
  unfold alloc_huge_mem. rewrite Hm, Hi, Ha, Hc. cbn [negb].
  assert (E2 : align (n * 32768) MLX5_SHM_LENGTH = 2097152).
  { change MLX5_SHM_LENGTH with (2 ^ 21).
    destruct (align_spec (n * 32768) 21 ltac:(lia) ltac:(lia) ltac:(lia)) as [H1 H2]. change (2 ^ 21) with 2097152 in *.
    apply Z.mod_divide in H2 as [u Hu]; [|lia]. lia. }
  rewrite E2. unfold mlx5_bitmap_init. cbn [Z.eqb negb].
  change (u32 (2097152 / MLX5_Q_CHUNK_SIZE)) with 64. change (repeat 0 _) with (@nil Z).
  assert (E3 : s32 n = n) by (unfold s32; rewrite Z.mod_small; lia). rewrite E3.
  unfold bitmap_alloc_range. destruct (Z.eqb_spec n 1) as [->|Hne]; [reflexivity|]. cbn [andb h_bitmap bm_max].
  rewrite (u32_small n), (proj2 (Z.ltb_ge 64 n)) by lia. reflexivity.
Qed.
