(* ===== verification/Mlx5Dbrec.v ===== *)
(** * libmlx5: doorbell records
    (src/drivers/libmlx5-1.0.2mlnx1/src/dbrec.c)

    Every queue has a doorbell record in a cache line of its own.  Records
    are cut from pages; each page has a bitmap of its free lines and is
    released with its last record.  The lemmas show that the records in use
    are apart from each other and that no page stays behind. *)

From stdpp Require Import base gmap list numbers.
From Stdlib Require Import ZArith Lia.
From S2P Require Import Prelude Mlx5Base Mlx5Buf.

Record mlx5_db_page : Type := DbPage
  { pg_buf : mlx5_buf; num_db : Z; use_cnt : Z; pg_free : list Z }.

(** Number of records of a page, and of words of its bitmap. *)
Definition db_per_page (ps cache_line_size : Z) : Z := Z.quot ps cache_line_size.
Definition db_longs (pp : Z) : Z := (pp + 63) / 64.

(** [calloc]: memory for the structure; the page itself is from
    [mlx5_alloc_buf]. *)
Definition __add_page (calloc : bool) (e : anon_env) (ps cls : Z) (pages : list mlx5_db_page)
    : option (list mlx5_db_page) * list buf_ev :=
  let pp := db_per_page ps cls in
  if negb calloc then (None, [])
  else
    let '(ret, buf, evs) := mlx5_alloc_buf e (Buf 0 0 0 None MLX5_ALLOC_TYPE_ANON None false) ps ps in
    if negb (ret =? 0) then (None, evs)
    else (Some (DbPage buf pp 0 (repeat (2 ^ 64 - 1) (Z.to_nat (db_longs pp))) :: pages), evs).

(** [for (i = 0; !page->free[i]; ++i)] *)
Fixpoint first_word (l : list Z) (i : Z) : res (Z * Z) :=
  match l with
  | [] => Fault OutOfBounds
  | w :: l => if w =? 0 then first_word l (i + 1) else Ok (i, w)
  end.

(** What follows the label [found]. *)
Definition take_record (cls : Z) (p : mlx5_db_page) : res (Z * mlx5_db_page) :=
  let! (i, w) := first_word (pg_free p) 0 in
  let j := ffsl w - 1 in
  let! f := arr_set (pg_free p) i (w .& u64 (Z.lnot (Z.shiftl 1 j))) in
  Ok (b_buf (pg_buf p) + (i * 64 + j) * cls, DbPage (pg_buf p) (num_db p) (use_cnt p + 1) f).

(** The first page with a free record. *)
Fixpoint alloc_in (cls : Z) (pages : list mlx5_db_page) : res (option (Z * list mlx5_db_page)) :=
  match pages with
  | [] => Ok None
  | p :: pages =>
      if use_cnt p <? num_db p then
        let! (db, p) := take_record cls p in Ok (Some (db, p :: pages))
      else
        let! o := alloc_in cls pages in
        Ok (match o with Some (db, pages) => Some (db, p :: pages) | None => None end)
  end.

Definition mlx5_alloc_dbrec (calloc : bool) (e : anon_env) (ps cls : Z) (pages : list mlx5_db_page)
    : res (option Z * list mlx5_db_page * list buf_ev) :=
  let! o := alloc_in cls pages in
  match o with
  | Some (db, pages) => Ok (Some db, pages, [])
  | None =>
      match __add_page calloc e ps cls pages with
      | (None, evs) => Ok (None, pages, evs)
      | (Some [], evs) => Ok (None, pages, evs)
      | (Some (p :: rest), evs) =>
          let! (db, p) := take_record cls p in Ok (Some db, p :: rest, evs)
      end
  end.

Fixpoint free_in (ps cls db : Z) (pages : list mlx5_db_page) : res (list mlx5_db_page * list buf_ev) :=
  match pages with
  | [] => Ok ([], [])
  | p :: pages =>
      if db .& u64 (Z.lnot (ps - 1)) =? b_buf (pg_buf p) then
        let i := Z.quot (db - b_buf (pg_buf p)) cls in
        let! w := arr_get (pg_free p) (i / 64) in
        let! f := arr_set (pg_free p) (i / 64) (w .| u64 (Z.shiftl 1 (i mod 64))) in
        if use_cnt p - 1 =? 0 then Ok (pages, mlx5_free_buf (pg_buf p))
        else Ok (DbPage (pg_buf p) (num_db p) (use_cnt p - 1) f :: pages, [])
      else
        let! (pages, evs) := free_in ps cls db pages in Ok (p :: pages, evs)
  end.
Definition mlx5_free_db (ps cls db : Z) (pages : list mlx5_db_page) : res (list mlx5_db_page * list buf_ev) :=
  free_in ps cls db pages.

(** ** Bits of a bitmap *)
Lemma ffs_from_spec n : ∀ i w,
  0 ≤ i → (ffs_from n i w = 0 ∧ ∀ j, i ≤ j < i + Z.of_nat n → Z.testbit w j = false) ∨
  (∃ j, ffs_from n i w = j + 1 ∧ i ≤ j < i + Z.of_nat n ∧ Z.testbit w j = true ∧
     ∀ k, i ≤ k < j → Z.testbit w k = false).
Proof.
  induction n as [|n IH]; intros i w Hi; cbn [ffs_from].
  - left. split; [done|]. intros j Hj. lia.
  - destruct (Z.testbit w i) eqn:E.
    + right. exists i. split; [done|]. split; [lia|]. split; [done|]. intros k Hk. lia.
    + destruct (IH (i + 1) w ltac:(lia)) as [[-> H]|(j & -> & Hj & Ht & H)].
      * left. split; [done|]. intros j Hj. destruct (decide (j = i)) as [->|]; [done|]. apply H. lia.
      * right. exists j. split; [done|]. split; [lia|]. split; [done|]. intros k Hk.
        destruct (decide (k = i)) as [->|]; [done|]. apply H. lia.
Qed.

Lemma bits_word w n : 0 ≤ w < 2 ^ 64 → 64 ≤ n → Z.testbit w n = false.
Proof. intros Hw Hn. rewrite <-(Z.mod_small w (2 ^ 64)) by done. by apply Z.mod_pow2_bits_high. Qed.

Lemma word_zero w : 0 ≤ w < 2 ^ 64 → (∀ j, 0 ≤ j < 64 → Z.testbit w j = false) → w = 0.
Proof.
  intros Hw H. apply Z.bits_inj'. intros n Hn. rewrite Z.bits_0.
  destruct (decide (n < 64)); [apply H; lia|]. apply bits_word; lia.
Qed.

Lemma ffsl_spec w : 0 < w < 2 ^ 64 →
  ∃ j, ffsl w - 1 = j ∧ 0 ≤ j < 64 ∧ Z.testbit w j = true ∧ ∀ k, 0 ≤ k < j → Z.testbit w k = false.
Proof.
  intros Hw. destruct (ffs_from_spec 64 0 w ltac:(lia)) as [[_ H]|(j & E & Hj & Ht & H)].
  - pose proof (word_zero w ltac:(lia) ltac:(intros; apply H; lia)). lia.
  - exists j. unfold ffsl. rewrite E. split; [lia|]. split; [lia|]. done.
Qed.

(** Bit [n] of a list of words. *)
Definition tbit (l : list Z) (n : Z) : bool := Z.testbit (default 0 (l !! Z.to_nat (n / 64))) (n mod 64).

Definition words (l : list Z) : Prop := Forall (λ w, 0 ≤ w < 2 ^ 64) l.

Lemma tbit_insert l n w k :
  0 ≤ n → 0 ≤ k → (Z.to_nat (n / 64) < length l)%nat →
  tbit (<[Z.to_nat (n / 64) := w]> l) k = if decide (k / 64 = n / 64) then Z.testbit w (k mod 64) else tbit l k.
Proof.
  intros Hn Hk Hl. unfold tbit. destruct (decide (k / 64 = n / 64)) as [->|Hne].
  - by rewrite list_lookup_insert_eq.
  - rewrite list_lookup_insert_ne; [done|]. intros E. apply Hne.
    apply Z2Nat.inj in E; [done| |]; apply Z.div_pos; lia.
Qed.

Lemma same_place k n : 0 ≤ k → 0 ≤ n → k / 64 = n / 64 → (k mod 64 = n mod 64 ↔ k = n).
Proof. intros Hk Hn E. pose proof (Z.div_mod k 64). pose proof (Z.div_mod n 64). split; [lia|by intros ->]. Qed.

Lemma tbit_clear l n w k :
  0 ≤ n → 0 ≤ k → l !! Z.to_nat (n / 64) = Some w →
  tbit (<[Z.to_nat (n / 64) := w .& u64 (Z.lnot (Z.shiftl 1 (n mod 64)))]> l) k = tbit l k && negb (k =? n).
Proof.
  intros Hn Hk Hw. rewrite tbit_insert by (try done; by eapply lookup_lt_Some).
  destruct (decide _) as [E|Hne].
  - pose proof (Z.mod_pos_bound k 64). pose proof (Z.mod_pos_bound n 64).
    rewrite Z.land_spec. unfold u64. rewrite Z.mod_pow2_bits_low, Z.lnot_spec, Z.shiftl_spec by lia.
    unfold tbit. rewrite E, Hw. cbn [default]. f_equal. f_equal.
    destruct (Z.eqb_spec k n) as [->|Hkn]; [by rewrite Z.sub_diag|].
    assert (k mod 64 ≠ n mod 64) by (rewrite same_place; done).
    destruct (decide (k mod 64 < n mod 64)); [by apply Z.testbit_neg_r; lia|].
    apply (Z.bits_above_log2 1); [lia|]. cbn. lia.
  - destruct (Z.eqb_spec k n) as [->|]; [done|]. by rewrite andb_true_r.
Qed.

Lemma tbit_set l n w k :
  0 ≤ n → 0 ≤ k → l !! Z.to_nat (n / 64) = Some w →
  tbit (<[Z.to_nat (n / 64) := w .| u64 (Z.shiftl 1 (n mod 64))]> l) k = tbit l k || (k =? n).
Proof.
  intros Hn Hk Hw. rewrite tbit_insert by (try done; by eapply lookup_lt_Some).
  destruct (decide _) as [E|Hne].
  - pose proof (Z.mod_pos_bound k 64). pose proof (Z.mod_pos_bound n 64).
    rewrite Z.lor_spec. unfold u64. rewrite Z.mod_pow2_bits_low, Z.shiftl_spec by lia.
    unfold tbit. rewrite E, Hw. cbn [default]. f_equal.
    destruct (Z.eqb_spec k n) as [->|Hkn]; [by rewrite Z.sub_diag|].
    assert (k mod 64 ≠ n mod 64) by (rewrite same_place; done).
    destruct (decide (k mod 64 < n mod 64)); [by apply Z.testbit_neg_r; lia|].
    apply (Z.bits_above_log2 1); [lia|]. cbn. lia.
  - destruct (Z.eqb_spec k n) as [->|]; [done|]. by rewrite orb_false_r.
Qed.

Lemma words_insert l i w : words l → 0 ≤ w < 2 ^ 64 → words (<[i := w]> l).
Proof. intros Hl Hw. by apply Forall_insert. Qed.

Lemma word_bits w : (∀ n, 64 ≤ n → Z.testbit w n = false) → 0 ≤ w < 2 ^ 64.
Proof.
  intros H. assert (E : w = w mod 2 ^ 64).
  { apply Z.bits_inj'. intros n Hn. destruct (decide (n < 64)).
    - by rewrite Z.mod_pow2_bits_low by lia.
    - rewrite Z.mod_pow2_bits_high by lia. apply H. lia. }
  rewrite E. apply Z.mod_pos_bound. lia.
Qed.

Lemma land_word w x : 0 ≤ w < 2 ^ 64 → 0 ≤ w .& x < 2 ^ 64.
Proof. intros Hw. apply word_bits. intros n Hn. by rewrite Z.land_spec, bits_word. Qed.
Lemma lor_word w x : 0 ≤ w < 2 ^ 64 → 0 ≤ x < 2 ^ 64 → 0 ≤ w .| x < 2 ^ 64.
Proof. intros Hw Hx. apply word_bits. intros n Hn. by rewrite Z.lor_spec, !bits_word. Qed.

Lemma first_word_spec l n : ∀ i,
  words l → 0 ≤ n < 64 * Z.of_nat (length l) → tbit l n = true →
  ∃ m w, first_word l i = Ok (i + m, w) ∧ 0 ≤ m ≤ n / 64 ∧ l !! Z.to_nat m = Some w ∧ 0 < w < 2 ^ 64 ∧
    ∀ k, 0 ≤ k < m → l !! Z.to_nat k = Some 0.
Proof.
  revert n. induction l as [|w l IH]; intros n i Hl Hn Ht; [cbn in Hn; lia|].
  pose proof (Forall_inv Hl) as Hw. cbn beta in Hw. apply Forall_inv_tail in Hl. cbn [first_word].
  destruct (Z.eqb_spec w 0) as [->|Hne].
  - assert (H64 : 64 ≤ n).
    { destruct (decide (n < 64)); [|lia]. unfold tbit in Ht. rewrite Z.div_small in Ht by lia. cbn in Ht.
      by rewrite Z.bits_0 in Ht. }
    assert (Ed : n / 64 = (n - 64) / 64 + 1).
    { replace n with (n - 64 + 1 * 64) at 1 by lia. rewrite Z.div_add by lia. done. }
    assert (0 ≤ (n - 64) / 64) by (apply Z.div_pos; lia).
    destruct (IH (n - 64) (i + 1) Hl) as (m & w & -> & Hm & Hlw & Hw0 & H0).
    { cbn in Hn. lia. }
    { unfold tbit in *. rewrite Ed, Z2Nat.inj_add, Nat.add_1_r in Ht by lia. cbn in Ht.
      replace ((n - 64) mod 64) with (n mod 64); [done|].
      replace n with (n - 64 + 1 * 64) at 1 by lia. by rewrite Z.mod_add. }
    exists (m + 1), w. split; [f_equal; f_equal; lia|]. split; [lia|].
    split; [by rewrite Z2Nat.inj_add, Nat.add_1_r by lia|]. split; [done|]. intros k Hk.
    destruct (decide (k = 0)) as [->|]; [done|]. replace (Z.to_nat k) with (S (Z.to_nat (k - 1))) by lia.
    apply H0. lia.
  - exists 0, w. rewrite Z.add_0_r. split; [done|]. split; [split; [lia|apply Z.div_pos; lia]|]. split; [done|].
    split; [lia|]. intros k Hk. lia.
Qed.

(** ** The records in use *)
Definition used_idx (p : mlx5_db_page) : list Z := filter (λ i, tbit (pg_free p) i = false) (seqZ 0 (num_db p)).
Definition page_live (cls : Z) (p : mlx5_db_page) : list Z := (λ i, b_buf (pg_buf p) + i * cls) <$> used_idx p.
Definition live (cls : Z) (pages : list mlx5_db_page) : list Z := pages ≫= page_live cls.

(** Adding one element to the filter of a list without duplicates. *)
Lemma filter_add {A} `{EqDecision A} (P Q : A → Prop) `{∀ x, Decision (P x)} `{∀ x, Decision (Q x)} j l :
  NoDup l → j ∈ l → ¬ P j → (∀ x, x ∈ l → Q x ↔ P x ∨ x = j) → filter Q l ≡ₚ j :: filter P l.
Proof.
  intros Hnd Hj HPj HQ. apply NoDup_Permutation; [by apply list.NoDup_filter| |].
  - constructor; [|by apply list.NoDup_filter]. rewrite list_elem_of_filter. tauto.
  - intros x. rewrite elem_of_cons, !list_elem_of_filter. split.
    + intros [Hq Hx]. apply HQ in Hq; [|done]. tauto.
    + intros [->|[HPx Hx]]; [split; [apply HQ; [done|by right]|done]|]. split; [apply HQ; tauto|done].
Qed.

Lemma filter_none {A} (P : A → Prop) `{∀ x, Decision (P x)} l : (∀ x, x ∈ l → ¬ P x) → filter P l = [].
Proof.
  induction l as [|x l IH]; intros Hl; [done|]. rewrite filter_cons_False by (apply Hl; left).
  apply IH. intros y Hy. apply Hl. by right.
Qed.
Lemma lookup_repeat {A} (x : A) n : ∀ i, (i < n)%nat → repeat x n !! i = Some x.
Proof. induction n as [|n IH]; intros [|i] Hi; try lia; [done|]. apply IH. lia. Qed.
Lemma filter_all {A} (P : A → Prop) `{∀ x, Decision (P x)} l : Forall P l → filter P l = l.
Proof. induction 1 as [|x l Hx _ IH]; [done|]. by rewrite filter_cons_True, IH. Qed.

Section Dbrec.
(** The size of a page is a power of two and holds a cache line. *)
Variables (ps cls kp : Z).
Hypothesis Hps : ps = 2 ^ kp.
Hypothesis Hkp : 0 ≤ kp < 32.
Hypothesis Hcls : 0 < cls ≤ ps.

Record page_ok (p : mlx5_db_page) : Prop := PageOk
  { po_align : b_buf (pg_buf p) mod ps = 0;
    po_range : 0 ≤ b_buf (pg_buf p) < 2 ^ 64;
    po_num : num_db p = db_per_page ps cls;
    po_len : Z.of_nat (length (pg_free p)) = db_longs (num_db p);
    po_words : words (pg_free p);
    po_rest : ∀ i, num_db p ≤ i < 64 * Z.of_nat (length (pg_free p)) → tbit (pg_free p) i = true;
    po_cnt : use_cnt p = Z.of_nat (length (used_idx p)) }.

Definition db_inv (pages : list mlx5_db_page) : Prop :=
  Forall (λ p, page_ok p ∧ 0 < use_cnt p) pages ∧ NoDup ((b_buf ∘ pg_buf) <$> pages).

Lemma per_page_pos : 0 < db_per_page ps cls ∧ db_per_page ps cls * cls ≤ ps.
Proof using Hps Hkp Hcls.
  unfold db_per_page. rewrite Z.quot_div_nonneg by lia. split; [apply Z.div_str_pos; lia|].
  rewrite Z.mul_comm. apply Z.mul_div_le. lia.
Qed.

Lemma longs_enough p : page_ok p → num_db p ≤ 64 * Z.of_nat (length (pg_free p)).
Proof using Hps Hkp Hcls.
  intros [_ _ Hn Hl _ _ _]. rewrite Hl. unfold db_longs. pose proof per_page_pos.
  pose proof (Z.div_mod (num_db p + 63) 64). pose proof (Z.mod_pos_bound (num_db p + 63) 64). lia.
Qed.

(** A page that is not full has a free record. *)
Lemma free_record p : page_ok p → use_cnt p < num_db p → ∃ i, 0 ≤ i < num_db p ∧ tbit (pg_free p) i = true.
Proof using Hps Hkp Hcls.
  intros Hp Hlt. pose proof per_page_pos as [Hpos _]. rewrite (po_cnt _ Hp) in Hlt.
  destruct (decide (Exists (λ i, tbit (pg_free p) i = true) (seqZ 0 (num_db p)))) as [Hx|Hx].
  - apply list.Exists_exists in Hx as (i & Hi & Ht). exists i. split; [|done]. apply elem_of_seqZ in Hi. lia.
  - exfalso. assert (E : used_idx p = seqZ 0 (num_db p)).
    { unfold used_idx. apply filter_all. apply not_Exists_Forall in Hx; [|apply _].
      eapply Forall_impl; [|exact Hx]. intros i. cbn. by destruct (tbit _ _). }
    rewrite E, length_seqZ, (po_num _ Hp) in Hlt. lia.
Qed.

Lemma take_record_spec p :
  page_ok p → use_cnt p < num_db p →
  ∃ n p', take_record cls p = Ok (b_buf (pg_buf p) + n * cls, p') ∧ 0 ≤ n < num_db p ∧ n ∉ used_idx p ∧
    page_ok p' ∧ pg_buf p' = pg_buf p ∧ used_idx p' ≡ₚ n :: used_idx p ∧ use_cnt p' = use_cnt p + 1.
Proof using Hps Hkp Hcls.
  intros Hp Hlt. destruct (free_record p Hp Hlt) as (i & Hi & Ht). pose proof (longs_enough p Hp) as Hlen.
  destruct (first_word_spec (pg_free p) i 0 (po_words _ Hp) ltac:(lia) Ht) as (m & w & E & Hm & Hw & Hw0 & Hz).
  destruct (ffsl_spec w Hw0) as (j & Ej & Hj & Hbj & Hlow).
  set (n := m * 64 + j). assert (Em : n / 64 = m) by (unfold n; rewrite Z.add_comm, Z.div_add, Z.div_small; lia).
  assert (Ej' : n mod 64 = j) by (unfold n; rewrite Z.add_comm, Z.mod_add, Z.mod_small; lia).
  assert (Hn0 : 0 ≤ n) by lia.
  assert (Hni : n ≤ i).
  { destruct (decide (n ≤ i)); [done|]. exfalso.
    pose proof (Z.div_mod i 64). pose proof (Z.mod_pos_bound i 64).
    assert (i / 64 = m) by lia. unfold tbit in Ht. rewrite H1, Hw in Ht. cbn in Ht.
    rewrite Hlow in Ht; [done|]. lia. }
  assert (Htn : tbit (pg_free p) n = true) by (unfold tbit; rewrite Em, Ej', Hw; done).
  unfold take_record. rewrite E. cbn [res_bind]. rewrite Ej, Z.add_0_l.
  assert (Hml : (Z.to_nat m < length (pg_free p))%nat) by (by eapply lookup_lt_Some).
  rewrite (arr_set_Ok (pg_free p) m) by lia. cbn [res_bind]. fold n.
  set (f := <[Z.to_nat m := _]> (pg_free p)).
  assert (Hf : ∀ k, 0 ≤ k → tbit f k = tbit (pg_free p) k && negb (k =? n)).
  { intros k Hk. unfold f. rewrite <-Em, <-Ej'. apply tbit_clear; [done|done|]. by rewrite Em. }
  set (p' := DbPage _ _ _ f).
  assert (Hperm : used_idx p' ≡ₚ n :: used_idx p).
  { unfold used_idx. cbn [pg_free num_db p']. apply filter_add.
    - apply NoDup_seqZ.
    - apply elem_of_seqZ. lia.
    - by rewrite Htn.
    - intros x Hx. apply elem_of_seqZ in Hx. rewrite Hf by lia. destruct (tbit (pg_free p) x), (Z.eqb_spec x n); cbn; naive_solver. }
  exists n, p'. split; [done|]. split; [lia|].
  split; [unfold used_idx; rewrite list_elem_of_filter; intros [H _]; congruence|]. split; [|done].
  destruct Hp. split; cbn [pg_buf num_db pg_free use_cnt p']; try done.
  - unfold f. by rewrite length_insert.
  - unfold f. apply words_insert; [done|]. apply land_word. lia.
  - unfold f at 1. rewrite length_insert. intros k Hk. rewrite Hf by lia. rewrite po_rest0 by lia.
    destruct (Z.eqb_spec k n); [lia|done].
  - rewrite Hperm. cbn [length]. lia.
Qed.

(** ** Pages *)
Definition bufs (pages : list mlx5_db_page) : list Z := (b_buf ∘ pg_buf) <$> pages.

Lemma db_inv_cons p pages :
  db_inv (p :: pages) ↔ page_ok p ∧ 0 < use_cnt p ∧ b_buf (pg_buf p) ∉ bufs pages ∧ db_inv pages.
Proof using Hps Hkp Hcls.
  unfold db_inv. rewrite fmap_cons, list.NoDup_cons, list.Forall_cons. unfold bufs. cbn [compose]. tauto.
Qed.

(** The page that an address lies in. *)
Lemma page_live_base p a : page_ok p → a ∈ page_live cls p →
  a - a mod ps = b_buf (pg_buf p) ∧ a + cls ≤ b_buf (pg_buf p) + ps ∧ (cls | a - b_buf (pg_buf p)) ∧ 0 ≤ a.
Proof using Hps Hkp Hcls.
  intros Hp Ha. apply list_elem_of_fmap in Ha as (i & -> & Hi). apply list_elem_of_filter in Hi as [_ Hi].
  apply elem_of_seqZ in Hi. rewrite (po_num _ Hp) in Hi. pose proof per_page_pos as [_ Hle].
  pose proof (po_range _ Hp). pose proof (po_align _ Hp) as Ha.
  assert (i * cls + cls ≤ ps) by nia. assert (0 ≤ i * cls) by nia.
  assert (E : (b_buf (pg_buf p) + i * cls) mod ps = i * cls).
  { rewrite <-Zplus_mod_idemp_l, Ha, Z.add_0_l, Z.mod_small; lia. }
  rewrite E. split; [lia|]. split; [lia|]. split; [|lia]. exists i. lia.
Qed.

Lemma live_base pages a : db_inv pages → a ∈ live cls pages → a - a mod ps ∈ bufs pages.
Proof using Hps Hkp Hcls.
  induction pages as [|p pages IH]; intros Hi Ha; [by apply elem_of_nil in Ha|].
  apply db_inv_cons in Hi as (Hp & _ & _ & Hi). unfold live in Ha. cbn in Ha. apply elem_of_app in Ha as [Ha|Ha].
  - destruct (page_live_base p a Hp Ha) as [-> _]. left.
  - right. by apply IH.
Qed.

Lemma page_live_NoDup p : NoDup (page_live cls p).
Proof using Hps Hkp Hcls.
  unfold page_live. apply NoDup_fmap_2_strong; [intros x y _ _; nia|]. apply list.NoDup_filter, NoDup_seqZ.
Qed.

Lemma live_NoDup pages : db_inv pages → NoDup (live cls pages).
Proof using Hps Hkp Hcls.
  induction pages as [|p pages IH]; intros Hi; [constructor|].
  apply db_inv_cons in Hi as (Hp & _ & Hn & Hi). unfold live. cbn. apply list.NoDup_app. split; [apply page_live_NoDup|].
  split; [|by apply IH]. intros a Ha Hb. apply Hn. destruct (page_live_base p a Hp Ha) as [<- _]. by apply live_base.
Qed.

(** Two records are a cache line apart. *)
Lemma live_apart pages a b : db_inv pages → a ∈ live cls pages → b ∈ live cls pages → a < b → a + cls ≤ b.
Proof using Hps Hkp Hcls.
  intros Hi Ha Hb Hlt.
  assert (Hex : ∀ x, x ∈ live cls pages → ∃ p, page_ok p ∧ x ∈ page_live cls p).
  { intros x Hx. unfold live in Hx. apply list_elem_of_bind in Hx as (p & Hx & Hp). exists p. split; [|done].
    destruct Hi as [Hf _]. rewrite list.Forall_forall in Hf. by apply Hf. }
  destruct (Hex a Ha) as (p & Hp & Hap), (Hex b Hb) as (q & Hq & Hbq).
  destruct (page_live_base p a Hp Hap) as (Ea & Hla & [x Dx] & Ha0), (page_live_base q b Hq Hbq) as (Eb & Hlb & [y Dy] & Hb0).
  destruct (decide (b_buf (pg_buf p) = b_buf (pg_buf q))) as [E|Hne].
  { rewrite <-E in Dy. assert (x < y) by nia. assert (b - a = (y - x) * cls) by lia. nia. }
  pose proof (po_align _ Hp) as H1. pose proof (po_align _ Hq) as H2.
  apply Z.mod_divide in H1 as [u Hu]; [|lia]. apply Z.mod_divide in H2 as [v Hv]; [|lia].
  pose proof (Z.mod_pos_bound a ps ltac:(lia)). pose proof (Z.mod_pos_bound b ps ltac:(lia)).
  assert (u ≠ v) by (intros ->; lia).
  assert (u < v).
  { destruct (decide (u < v)); [done|]. assert ((v + 1) * ps ≤ u * ps) by (apply Z.mul_le_mono_nonneg_r; lia). lia. }
  assert (u * ps + ps ≤ v * ps) by nia. lia.
Qed.

Lemma alloc_in_spec pages :
  db_inv pages →
  (∃ a pages', alloc_in cls pages = Ok (Some (a, pages')) ∧ db_inv pages' ∧ live cls pages' ≡ₚ a :: live cls pages ∧
     bufs pages' = bufs pages) ∨ alloc_in cls pages = Ok None.
Proof using Hps Hkp Hcls.
  induction pages as [|p pages IH]; intros Hi; [by right|].
  apply db_inv_cons in Hi as (Hp & Hu & Hn & Hi). cbn [alloc_in]. destruct (Z.ltb_spec (use_cnt p) (num_db p)) as [Hlt|Hge].
  - destruct (take_record_spec p Hp Hlt) as (n & p' & -> & Hn' & Hnu & Hp' & Eb & Hperm & Ec).
    left. eexists _, _. split; [reflexivity|]. split; [|split].
    + apply db_inv_cons. rewrite Eb. split; [done|]. split; [lia|]. done.
    + unfold live. cbn. unfold page_live at 1. rewrite Eb, Hperm. done.
    + unfold bufs. cbn. by rewrite Eb.
  - destruct (IH Hi) as [(a & pages' & -> & Hi' & Hl & Hb)| ->]; [left|by right].
    eexists _, _. split; [reflexivity|]. split; [|split].
    + apply db_inv_cons. by rewrite Hb.
    + unfold live in *. cbn. rewrite Hl. by rewrite Permutation_middle.
    + unfold bufs in *. cbn. by rewrite Hb.
Qed.

(** A new page. *)
Lemma new_page_ok buf :
  b_buf buf mod ps = 0 → 0 ≤ b_buf buf < 2 ^ 64 →
  let p := DbPage buf (db_per_page ps cls) 0 (repeat (2 ^ 64 - 1) (Z.to_nat (db_longs (db_per_page ps cls)))) in
  page_ok p ∧ used_idx p = [].
Proof using Hps Hkp Hcls.
  intros Ha Hr p. pose proof per_page_pos as [Hpos _].
  assert (0 ≤ db_longs (db_per_page ps cls)) by (apply Z.div_pos; lia).
  assert (Hl : Z.of_nat (length (pg_free p)) = db_longs (db_per_page ps cls)) by (cbn; rewrite repeat_length; lia).
  assert (Hb : ∀ i, 0 ≤ i < 64 * Z.of_nat (length (pg_free p)) → tbit (pg_free p) i = true).
  { intros i Hi. unfold tbit. assert (0 ≤ i / 64) by (apply Z.div_pos; lia).
    assert (i / 64 < db_longs (db_per_page ps cls)) by (apply Z.div_lt_upper_bound; lia).
    cbn [pg_free p]. rewrite lookup_repeat by lia. cbn [default].
    change (2 ^ 64 - 1) with (Z.ones 64). apply Z.ones_spec_low. apply Z.mod_pos_bound. lia. }
  assert (Hle : db_per_page ps cls ≤ 64 * Z.of_nat (length (pg_free p))).
  { rewrite Hl. unfold db_longs. pose proof (Z.div_mod (db_per_page ps cls + 63) 64).
    pose proof (Z.mod_pos_bound (db_per_page ps cls + 63) 64). lia. }
  assert (Hu : used_idx p = []).
  { unfold used_idx. cbn [num_db p]. assert (Hall : ∀ i, i ∈ seqZ 0 (db_per_page ps cls) → tbit (pg_free p) i = true).
    { intros i Hi. apply elem_of_seqZ in Hi. apply Hb. lia. }
    apply filter_none. intros i Hi. by rewrite Hall. }
  split; [|done]. split; try done.
  - apply list.Forall_forall. intros w Hw. cbn [pg_free p] in Hw. apply list_elem_of_In, repeat_spec in Hw. subst w. lia.
  - intros i Hi. apply Hb. cbn [num_db p] in Hi. lia.
  - by rewrite Hu.
Qed.

(** What [posix_memalign] promises: aligned memory that is not in use. *)
Definition fresh_pages (e : anon_env) (pages : list mlx5_db_page) : Prop :=
  (∀ n a, av_memalign e ps n = inl a → a mod ps = 0 ∧ 0 ≤ a < 2 ^ 64 ∧ a ∉ bufs pages) ∧
  (∀ n err, av_memalign e ps n = inr err → err ≠ 0).

Lemma alloc_dbrec_spec calloc e pages :
  db_inv pages → fresh_pages e pages →
  ∃ o pages' evs, mlx5_alloc_dbrec calloc e ps cls pages = Ok (o, pages', evs) ∧ db_inv pages' ∧
    live cls pages' ≡ₚ option_list o ++ live cls pages ∧
    (o = None → calloc = false ∨ av_dontfork e ≠ 0 ∨ ∃ err, av_memalign e ps (align ps ps) = inr err).
Proof using Hps Hkp Hcls.
  intros Hi Hf. unfold mlx5_alloc_dbrec.
  destruct (alloc_in_spec pages Hi) as [(a & pages' & -> & Hi' & Hl & _)| ->]; cbn [res_bind].
  { exists (Some a), pages', []. split; [done|]. split; [done|]. by split. }
  unfold __add_page. destruct calloc; cbn [negb].
  2: { exists None, pages, []. split; [done|]. split; [done|]. split; [done|]. by left. }
  unfold mlx5_alloc_buf. cbn [numa_req]. destruct (av_memalign e ps (align ps ps)) as [a|err] eqn:Em.
  - destruct (proj1 Hf _ _ Em) as (Ha & Hr & Hn). destruct (Z.eqb_spec (av_dontfork e) 0) as [Ed|Ed]; cbn [negb].
    + set (buf := buf_set_type _ _). destruct (new_page_ok buf Ha Hr) as [Hp Hu].
      cbn [Z.eqb negb]. set (p := DbPage buf _ _ _) in *.
      destruct (take_record_spec p Hp) as (n & p' & E & Hn' & _ & Hp' & Eb & Hperm & Ec).
      { cbn [use_cnt num_db p]. apply per_page_pos. }
      rewrite E. cbn [res_bind]. eexists (Some _), _, _. split; [reflexivity|].
      split; [apply db_inv_cons; rewrite Eb; split; [done|]; split; [rewrite Ec; done|done]|].
      split; [|done]. unfold live. cbn. unfold page_live at 1. rewrite Eb, Hperm, Hu. done.
    + rewrite (proj2 (Z.eqb_neq _ 0)) by done. cbn [negb]. exists None, pages, [EvFree a].
      split; [done|]. split; [done|]. split; [done|]. right. by left.
  - rewrite (proj2 (Z.eqb_neq err 0)) by exact (proj2 Hf _ _ Em). cbn [negb]. exists None, pages, [].
    split; [done|]. split; [done|]. split; [done|]. right. right. by exists err.
Qed.

(** Bit [n] of a page is set again. *)
Lemma put_record_spec p n :
  page_ok p → n ∈ used_idx p →
  ∃ w, arr_get (pg_free p) (n / 64) = Ok w ∧ ∃ f, arr_set (pg_free p) (n / 64) (w .| u64 (Z.shiftl 1 (n mod 64))) = Ok f ∧
    let p' := DbPage (pg_buf p) (num_db p) (use_cnt p - 1) f in page_ok p' ∧ used_idx p ≡ₚ n :: used_idx p'.
Proof using Hps Hkp Hcls.
  intros Hp Hn. pose proof (longs_enough p Hp) as Hlen. unfold used_idx in Hn. apply list_elem_of_filter in Hn as [Ht Hn].
  apply elem_of_seqZ in Hn. assert (0 ≤ n / 64) by (apply Z.div_pos; lia).
  assert (n / 64 < Z.of_nat (length (pg_free p))) by (apply Z.div_lt_upper_bound; lia).
  destruct (arr_get_lt (pg_free p) (n / 64)) as (w & Ew & Hw); [lia|]. exists w. split; [done|].
  rewrite arr_set_Ok by lia. eexists. split; [reflexivity|]. set (f := <[_ := _]> _). intros p'.
  assert (Hf : ∀ k, 0 ≤ k → tbit f k = tbit (pg_free p) k || (k =? n)) by (intros k Hk; apply tbit_set; [lia|done|done]).
  assert (Hperm : used_idx p ≡ₚ n :: used_idx p').
  { unfold used_idx. cbn [pg_free num_db p']. apply filter_add.
    - apply NoDup_seqZ.
    - apply elem_of_seqZ. lia.
    - rewrite Hf by lia. by rewrite Z.eqb_refl, orb_true_r.
    - intros x Hx. apply elem_of_seqZ in Hx. rewrite Hf by lia. destruct (tbit (pg_free p) x) eqn:E, (Z.eqb_spec x n); cbn; naive_solver. }
  split; [|done]. destruct Hp. split; cbn [pg_buf num_db pg_free use_cnt p']; try done.
  - unfold f. by rewrite length_insert.
  - unfold f. apply words_insert; [done|]. apply lor_word; [|apply u64_range].
    unfold words in po_words0. rewrite list.Forall_forall in po_words0. apply po_words0. by eapply list_elem_of_lookup_2.
  - unfold f at 1. rewrite length_insert. intros k Hk. rewrite Hf by lia. by rewrite po_rest0 by lia.
  - rewrite po_cnt0, Hperm. cbn [length]. lia.
Qed.

Lemma free_db_spec pages a :
  db_inv pages → a ∈ live cls pages → a < 2 ^ 64 →
  ∃ pages' evs, mlx5_free_db ps cls a pages = Ok (pages', evs) ∧ db_inv pages' ∧ live cls pages ≡ₚ a :: live cls pages' ∧
    ∀ b, b ∈ bufs pages' → b ∈ bufs pages.
Proof using Hps Hkp Hcls.
  unfold mlx5_free_db. induction pages as [|p pages IH]; intros Hi Ha Hr; [by apply elem_of_nil in Ha|].
  apply db_inv_cons in Hi as (Hp & Hu & Hn & Hi). cbn [free_in].
  assert (Ha0 : 0 ≤ a).
  { unfold live in Ha. apply list_elem_of_bind in Ha as (q & Ha & Hq). apply elem_of_cons in Hq as [->|Hq].
    - by apply (page_live_base p a Hp).
    - destruct Hi as [Hf _]. rewrite list.Forall_forall in Hf. by apply (page_live_base q a (proj1 (Hf _ Hq))). }
  rewrite Hps, u64_land_lnot_mask, <-Hps by lia. destruct (Z.eqb_spec (a - a mod ps) (b_buf (pg_buf p))) as [E|Hne].
  - assert (Hap : a ∈ page_live cls p).
    { unfold live in Ha. cbn in Ha. apply elem_of_app in Ha as [Ha|Ha]; [done|].
      exfalso. apply Hn. rewrite <-E. by apply live_base. }
    pose proof Hap as Hap'. apply list_elem_of_fmap in Hap' as (n & -> & Hni).
    replace (b_buf (pg_buf p) + n * cls - b_buf (pg_buf p)) with (n * cls) by lia. rewrite Z.quot_mul by lia.
    destruct (put_record_spec p n Hp Hni) as (w & -> & f & Es & Hp' & Hperm). cbn [res_bind]. rewrite Es. cbn [res_bind].
    destruct (Z.eqb_spec (use_cnt p - 1) 0) as [E1|E1].
    + eexists _, _. split; [reflexivity|]. split; [done|]. split; [|by intros b Hb; right].
      assert (used_idx p = [n]) as El.
      { pose proof (po_cnt _ Hp) as Hc. destruct (used_idx p) as [|x [|y l]]; cbn in Hc; try lia.
        apply list_elem_of_singleton in Hni. by subst. }
      unfold live. cbn. unfold page_live at 1. by rewrite El.
    + eexists _, _. split; [reflexivity|]. split; [apply db_inv_cons; cbn [pg_buf use_cnt]; split; [done|]; split; [lia|done]|].
      split; [|done]. unfold live. cbn. unfold page_live at 1 3. rewrite Hperm. done.
  - unfold live in Ha. cbn in Ha. apply elem_of_app in Ha as [Ha|Ha].
    { exfalso. apply Hne. by apply page_live_base. }
    destruct (IH Hi Ha Hr) as (pages' & evs & -> & Hi' & Hl & Hb). cbn [res_bind].
    eexists _, _. split; [reflexivity|]. split; [apply db_inv_cons; split; [done|]; split; [done|]; split; [|done]|split].
    + intros Hx. apply Hn. by apply Hb.
    + unfold live in *. cbn. rewrite Hl. by rewrite Permutation_middle.
    + intros b Hx. unfold bufs in *. cbn in Hx |- *. apply elem_of_cons in Hx as [->|Hx]; [left|right; by apply Hb].
Qed.

Lemma live_range pages a : db_inv pages → a ∈ live cls pages → a < 2 ^ 64.
Proof using Hps Hkp Hcls.
  intros Hi Ha. unfold live in Ha. apply list_elem_of_bind in Ha as (p & Ha & Hp).
  destruct Hi as [Hf _]. rewrite list.Forall_forall in Hf. destruct (Hf _ Hp) as [Hok _].
  destruct (page_live_base p a Hok Ha) as (_ & Hle & _ & _). pose proof (po_range _ Hok) as Hr.
  pose proof (po_align _ Hok) as Hal. apply Z.mod_divide in Hal as [u Hu]; [|lia].
  assert (E64 : 2 ^ 64 = 2 ^ (64 - kp) * ps) by (rewrite Hps, <-Z.pow_add_r by lia; f_equal; lia).
  assert (u < 2 ^ (64 - kp)) by nia. nia.
Qed.

(** ** A program that allocates and frees

    [DbFree k] frees the record that is number [k] of those in use, oldest
    first.  [mem] is the memory allocator, which knows the pages in use. *)
Inductive db_act : Type := DbAlloc | DbFree (k : nat).

Variable mem : list Z → bool * anon_env.

Fixpoint dbrec_run (acts : list db_act) (pages : list mlx5_db_page) (out : list Z) : res (list mlx5_db_page * list Z) :=
  match acts with
  | [] => Ok (pages, out)
  | DbAlloc :: acts =>
      let! (o, pages, _) := mlx5_alloc_dbrec (mem (bufs pages)).1 (mem (bufs pages)).2 ps cls pages in
      dbrec_run acts pages (out ++ option_list o)
  | DbFree k :: acts =>
      match out !! k with
      | Some a => let! (pages, _) := mlx5_free_db ps cls a pages in dbrec_run acts pages (delete k out)
      | None => dbrec_run acts pages out
      end
  end.

Lemma dbrec_run_spec acts : (∀ pages, fresh_pages (mem (bufs pages)).2 pages) → ∀ pages out,
  db_inv pages → out ≡ₚ live cls pages →
  ∃ pages' out', dbrec_run acts pages out = Ok (pages', out') ∧ db_inv pages' ∧ out' ≡ₚ live cls pages'.
Proof using Hps Hkp Hcls.
  intros Hmem. induction acts as [|[|k] acts IH]; intros pages out Hi Ho; cbn [dbrec_run].
  - by exists pages, out.
  - destruct (alloc_dbrec_spec (mem (bufs pages)).1 _ pages Hi (Hmem pages)) as (o & pages' & evs & -> & Hi' & Hl & _).
    cbn [res_bind]. apply IH; [done|]. by rewrite Hl, Ho, Permutation_app_comm.
  - destruct (out !! k) as [a|] eqn:Ek; [|by apply IH].
    assert (Ha : a ∈ live cls pages) by (rewrite <-Ho; by eapply list_elem_of_lookup_2).
    destruct (free_db_spec pages a Hi Ha (live_range _ _ Hi Ha)) as (pages' & evs & -> & Hi' & Hl & _).
    cbn [res_bind]. apply IH; [done|]. apply (Permutation_cons_inv (a := a)). rewrite <-Hl, <-Ho.
    symmetry. by apply delete_Permutation.
Qed.

Lemma live_nil pages : db_inv pages → live cls pages = [] → pages = [].
Proof using Hps Hkp Hcls.
  intros Hi Hl. destruct pages as [|p pages]; [done|]. apply db_inv_cons in Hi as (Hp & Hu & _).
  unfold live in Hl. cbn in Hl. apply app_eq_nil in Hl as [Hl _]. unfold page_live in Hl.
  apply fmap_nil_inv in Hl. rewrite (po_cnt _ Hp), Hl in Hu. cbn in Hu. lia.
Qed.
End Dbrec.

(** C24: Doorbell records.  Whatever a program allocates and frees, no call
    leaves the bitmap of a page; the records in use are exactly those that
    [mlx5_alloc_dbrec] returned and that were not freed, each in a cache line
    of its own; and a page is given back with its last record, so that
    without records in use there is no page. *)
Theorem mlx5_dbrec_refines_set ps cls kp mem acts :
  ps = 2 ^ kp → 0 ≤ kp < 32 → 0 < cls ≤ ps → (∀ pages, fresh_pages ps (mem (bufs pages)).2 pages) →
  ∃ pages out, dbrec_run ps cls mem acts [] [] = Ok (pages, out) ∧ NoDup out ∧ out ≡ₚ live cls pages ∧
    (∀ a b, a ∈ out → b ∈ out → a < b → a + cls ≤ b) ∧ (out = [] → pages = []).
Proof.
  intros Hps Hkp Hcls Hmem.
  destruct (dbrec_run_spec ps cls kp Hps Hkp Hcls mem acts Hmem [] []) as (pages & out & E & Hi & Ho); [|done|].
  { split; constructor. }
  exists pages, out. split; [done|]. split; [rewrite Ho; by apply (live_NoDup ps cls kp)|]. split; [done|]. split.
  - intros a b Ha Hb. rewrite Ho in Ha, Hb. by apply (live_apart ps cls kp Hps Hkp Hcls pages).
  - intros ->. apply Permutation_nil in Ho. by apply (live_nil ps cls kp).
Qed.

(** Lines of 64 bytes, and an allocator that has one page of 4096. *)
Definition ex_limited (used : list Z) : bool * anon_env :=
  (true, AnonEnv false (λ _ _, None) (λ al _, if (al =? 4096) && bool_decide (4096 ∉ used) then inl 4096 else inr 12) 0).

Lemma ex_limited_fresh pages : fresh_pages 4096 (ex_limited (bufs pages)).2 pages.
Proof.
  split; intros n x; cbn; case_bool_decide; intros E; try discriminate; injection E as <-; done.
Qed.

(** 65 allocations, of which the page holds 64, then all are freed. *)
Lemma mlx5_dbrec_refines_set_witness :
  (∃ pages out, dbrec_run 4096 64 ex_limited (repeat DbAlloc 65 ++ [DbFree 3; DbAlloc]) [] [] = Ok (pages, out) ∧
     length out = 64%nat ∧ NoDup out) ∧
  (∃ out, dbrec_run 4096 64 ex_limited (repeat DbAlloc 65 ++ repeat (DbFree 0) 64) [] [] = Ok ([], out)).
Proof.
  split.
  - destruct (mlx5_dbrec_refines_set 4096 64 12 ex_limited (repeat DbAlloc 65 ++ [DbFree 3; DbAlloc]) eq_refl
                ltac:(by split) ltac:(by split) ex_limited_fresh) as (pages & out & E & Hnd & _).
    exists pages, out. split; [exact E|]. split; [|exact Hnd].
    vm_compute in E. injection E as _ <-. reflexivity.
  - destruct (mlx5_dbrec_refines_set 4096 64 12 ex_limited (repeat DbAlloc 65 ++ repeat (DbFree 0) 64) eq_refl
                ltac:(by split) ltac:(by split) ex_limited_fresh) as (pages & out & E & _ & _ & _ & Hp).
    assert (Eo : out = []) by (clear Hp; vm_compute in E; injection E as _ <-; reflexivity).
    exists out. rewrite (Hp Eo) in E. exact E.
Defined.
