(* ===== verification/Mlx5Mr.v ===== *)
(** * libmlx5: protection domains and memory regions
    (src/drivers/libmlx5-1.0.2mlnx1/src: implicit_lkey.c, verbs.c)

    Regions with on-demand paging are shared: a table of two levels in the
    protection domain has for every 256 MB of address space two regions of
    256 MB, the second one shifted by half of that, and a request uses the
    one that contains its range.  Threads read the table without a lock and
    add to it under one, after a second look.

    What malloc, the mutexes and the kernel answer is a function of the time
    of the call ([mr_env]), a clock that each such call advances; objects
    are named by the time at which they were allocated.  The verbs of
    libibverbs dispatch to the functions of this driver; what
    [ibv_exp_reg_mr] itself writes into the region that the driver returned
    is the parameter [me_range].  [errno] is part of the state. *)

From stdpp Require Import base gmap list numbers strings.
From Stdlib Require Import ZArith Lia Ascii String.
From S2P Require Import Prelude Mlx5Base Mlx5Wqe Mlx5Buf.

(** ** Constants (implicit_lkey.c) *)
Definition LEVEL1_SIZE : Z := 10.
Definition LEVEL2_SIZE : Z := 11.
Definition MR_SIZE : Z := 28.
Definition ADDR_EFFECTIVE_BITS : Z := MR_SIZE + LEVEL2_SIZE + LEVEL1_SIZE.
Definition LEVEL1_SHIFT : Z := MR_SIZE + LEVEL2_SIZE.
Definition LEVEL2_SHIFT : Z := MR_SIZE.
Definition MASK (len : Z) : Z := Z.shiftl 1 len - 1.
Definition PREFETCH_STRIDE_SIZE : Z := MASK (MR_SIZE - 1).
Definition MLX5_WHOLE_ADDR_SPACE : Z := 2 ^ 64 - 1.
Definition MLX5_MR_PREFIX : string := "MLX_MR".

(** ** Data *)

(** The bits of [exp_access] that the driver looks at; [acc_other] is set if
    there is any other bit of [ibv_exp_access_flags], [acc_reserved] if there
    is one from [IBV_EXP_ACCESS_RESERVED] on. *)
Record exp_access : Type := Access
  { acc_local_write : bool; acc_remote_write : bool; acc_remote_read : bool; acc_remote_atomic : bool;
    acc_on_demand : bool; acc_relaxed : bool; acc_allocate_mr : bool; acc_other : bool; acc_reserved : bool }.
#[global] Instance exp_access_eq_dec : EqDecision exp_access.
Proof. solve_decision. Defined.

(** [exp_access & ~IBV_EXP_ACCESS_RELAXED]. *)
Definition strict (a : exp_access) : exp_access :=
  Access (acc_local_write a) (acc_remote_write a) (acc_remote_read a) (acc_remote_atomic a) (acc_on_demand a)
    false (acc_allocate_mr a) (acc_other a) (acc_reserved a).
Definition r_access : exp_access := Access false false false false true false false false false.
Definition w_access : exp_access := Access true false false false true false false false false.
Definition remote_access : exp_access := Access true true true true true false false false false.

(** [struct mlx5_mr]: the fields of [ibv_mr], the buffer, the flags that
    [alloc_flags] can have, and whether [type] is [MLX5_ODP_MR]. *)
Record mlx5_mr : Type := Mr
  { mr_addr : Z; mr_length : Z; mr_handle : Z; mr_lkey : Z; mr_rkey : Z;
    mr_buf : mlx5_buf; mr_relaxed : bool; mr_no_rdma : bool; mr_allocated : bool; mr_odp : bool }.

(** What [calloc] makes of it. *)
Definition buf0 : mlx5_buf := Buf 0 0 0 None MLX5_ALLOC_TYPE_ANON None false.
Definition mr0 : mlx5_mr := Mr 0 0 0 0 0 buf0 false false false false.

(** A pointer to an [ibv_mr] points to one inside an [mlx5_mr], or to one
    that [mlx5_alloc_whole_addr_mr] made. *)
Inductive mr_obj : Type :=
| ObjMr (m : mlx5_mr)
| ObjWhole (addr length handle lkey rkey : Z).

Record mlx5_pair_mrs : Type := Pair { mrs_0 : option Z; mrs_1 : option Z }.
Definition pair0 : mlx5_pair_mrs := Pair None None.

(** The table: an entry of the first level that is missing is NULL, one of
    the second level is a pair of NULLs.  [TDangling]: freed. *)
Inductive ilk_table : Type :=
| TNull
| TLive (t : gmap Z (gmap Z mlx5_pair_mrs))
| TDangling.

Inductive mutex : Type := Unlocked | Locked | Destroyed.
#[global] Instance mutex_eq_dec : EqDecision mutex.
Proof. solve_decision. Defined.

Record mlx5_implicit_lkey : Type := Ilkey { il_table : ilk_table; il_access : exp_access; il_lock : mutex }.

Record mlx5_pd : Type := Pd
  { pdn : Z; r_ilkey : mlx5_implicit_lkey; w_ilkey : mlx5_implicit_lkey; remote_ilkey : option mlx5_implicit_lkey }.

(** A pointer to one of the three. *)
Inductive ilk : Type := RIlk | WIlk | RemoteIlk.
#[global] Instance ilk_eq_dec : EqDecision ilk.
Proof. solve_decision. Defined.

(** Memory that is neither a region nor a buffer. *)
Inductive mr_mem : Type :=
| MemPd
| MemRemote                      (** [pd->remote_ilkey] *)
| MemTable (k : ilk)
| MemLevel2 (k : ilk) (key1 : Z).
#[global] Instance mr_mem_eq_dec : EqDecision mr_mem.
Proof. solve_decision. Defined.

(** What the kernel was asked for and did, and buffers that were freed. *)
Inductive mr_ev : Type :=
| MevReg (p : Z) (a : exp_access) (addr length lkey : Z)
| MevDereg (p : Z)
| MevPrefetch (p addr length flags : Z)
| MevAllocPd
| MevDeallocPd
| MevBuf (l : list buf_ev).

Record mr_world : Type := MrWorld
  { w_time : nat; w_errno : Z; w_mrs : gmap Z mr_obj; w_pd : option mlx5_pd;
    w_mem : list mr_mem; w_evs : list mr_ev }.

Record mr_env : Type := MrEnv
  { me_alloc : nat → bool;                                   (** malloc and calloc *)
    me_mutex : nat → Z;                                      (** pthread_mutex_init *)
    me_reg : nat → exp_access → Z → Z → (Z * Z * Z) + Z;     (** lkey, rkey, handle *)
    me_cmd : nat → Z;                                        (** the other commands *)
    me_pdn : nat → Z;
    me_range : Z → Z → Z * Z;
    me_getenv : string → option string;
    me_contig : contig_env;
    me_anon : anon_env;
    me_page_size : Z }.

(** ** The state *)
Abbreviation mreff := (eff mr_world).

Definition set_pd (w : mr_world) (pd : option mlx5_pd) : mr_world :=
  MrWorld (w_time w) (w_errno w) (w_mrs w) pd (w_mem w) (w_evs w).
Definition set_mrs (w : mr_world) (m : gmap Z mr_obj) : mr_world :=
  MrWorld (w_time w) (w_errno w) m (w_pd w) (w_mem w) (w_evs w).
Definition set_mem (w : mr_world) (l : list mr_mem) : mr_world :=
  MrWorld (w_time w) (w_errno w) (w_mrs w) (w_pd w) l (w_evs w).

Definition tick : mreff nat := λ w,
  Ok (w_time w, MrWorld (S (w_time w)) (w_errno w) (w_mrs w) (w_pd w) (w_mem w) (w_evs w)).
Definition emit (v : mr_ev) : mreff unit := λ w,
  Ok (tt, MrWorld (w_time w) (w_errno w) (w_mrs w) (w_pd w) (w_mem w) (w_evs w ++ [v])).
Definition errno_set (n : Z) : mreff unit := λ w,
  Ok (tt, MrWorld (w_time w) n (w_mrs w) (w_pd w) (w_mem w) (w_evs w)).

Definition mem_acquire (x : mr_mem) : mreff unit := λ w, Ok (tt, set_mem w (x :: w_mem w)).
Fixpoint mem_drop (x : mr_mem) (l : list mr_mem) : option (list mr_mem) :=
  match l with
  | [] => None
  | y :: l => if decide (y = x) then Some l else option_map (cons y) (mem_drop x l)
  end.
(** [free] of memory that is not allocated is a fault. *)
Definition mem_release (x : mr_mem) : mreff unit := λ w,
  match mem_drop x (w_mem w) with Some l => Ok (tt, set_mem w l) | None => Fault OutOfBounds end.

Definition the_pd : mreff mlx5_pd := λ w,
  match w_pd w with Some pd => Ok (pd, w) | None => Fault NullDeref end.
Definition put_pd (pd : mlx5_pd) : mreff unit := λ w, Ok (tt, set_pd w (Some pd)).

Definition pd_ilk (pd : mlx5_pd) (k : ilk) : option mlx5_implicit_lkey :=
  match k with RIlk => Some (r_ilkey pd) | WIlk => Some (w_ilkey pd) | RemoteIlk => remote_ilkey pd end.
Definition pd_set_ilk (pd : mlx5_pd) (k : ilk) (x : mlx5_implicit_lkey) : mlx5_pd :=
  match k with
  | RIlk => Pd (pdn pd) x (w_ilkey pd) (remote_ilkey pd)
  | WIlk => Pd (pdn pd) (r_ilkey pd) x (remote_ilkey pd)
  | RemoteIlk => Pd (pdn pd) (r_ilkey pd) (w_ilkey pd) (Some x)
  end.
Definition get_ilk (k : ilk) : mreff mlx5_implicit_lkey :=
  let* pd := the_pd in
  match pd_ilk pd k with Some x => eff_ret x | None => eff_fault NullDeref end.
Definition put_ilk (k : ilk) (x : mlx5_implicit_lkey) : mreff unit :=
  let* pd := the_pd in put_pd (pd_set_ilk pd k x).

(** Regions through a pointer: the fields of [ibv_mr], and those that only
    an [mlx5_mr] has. *)
Definition obj_lkey (o : mr_obj) : Z := match o with ObjMr m => mr_lkey m | ObjWhole _ _ _ l _ => l end.
Definition obj_range (o : mr_obj) : Z * Z :=
  match o with ObjMr m => (mr_addr m, mr_length m) | ObjWhole a n _ _ _ => (a, n) end.
Definition set_range (o : mr_obj) (r : Z * Z) : mr_obj :=
  match o with
  | ObjMr m => ObjMr (Mr r.1 r.2 (mr_handle m) (mr_lkey m) (mr_rkey m) (mr_buf m) (mr_relaxed m) (mr_no_rdma m)
                        (mr_allocated m) (mr_odp m))
  | ObjWhole _ _ h l k => ObjWhole r.1 r.2 h l k
  end.
Definition get_obj (p : Z) : mreff mr_obj := λ w,
  match w_mrs w !! p with Some o => Ok (o, w) | None => Fault NullDeref end.
Definition put_obj (p : Z) (o : mr_obj) : mreff unit := λ w, Ok (tt, set_mrs w (<[p := o]> (w_mrs w))).
Definition free_obj (p : Z) : mreff unit := λ w, Ok (tt, set_mrs w (delete p (w_mrs w))).
Definition get_mmr (p : Z) : mreff mlx5_mr :=
  let* o := get_obj p in
  match o with ObjMr m => eff_ret m | ObjWhole _ _ _ _ _ => eff_fault OutOfBounds end.
Definition mr_set_relaxed (m : mlx5_mr) (b : bool) : mlx5_mr :=
  Mr (mr_addr m) (mr_length m) (mr_handle m) (mr_lkey m) (mr_rkey m) (mr_buf m) b (mr_no_rdma m) (mr_allocated m) (mr_odp m).
Definition mr_set_odp (m : mlx5_mr) : mlx5_mr :=
  Mr (mr_addr m) (mr_length m) (mr_handle m) (mr_lkey m) (mr_rkey m) (mr_buf m) (mr_relaxed m) (mr_no_rdma m)
    (mr_allocated m) true.

(** ** Registering a region (verbs.c) *)

(** [in_bad_mask]: [comp_mask] is past its range; [in_contig]: the creation
    flags are present and ask for contiguous memory. *)
Record reg_in : Type := RegIn
  { in_addr : Z; in_length : Z; in_access : exp_access; in_bad_mask : bool; in_contig : bool }.
Definition in_set_addr (i : reg_in) (a : Z) : reg_in :=
  RegIn a (in_length i) (in_access i) (in_bad_mask i) (in_contig i).

Section Mr.
Variable e : mr_env.

Definition malloc : mreff bool := let* t := tick in eff_ret (me_alloc e t).

(** The address, 0 for NULL, and the buffer of the region. *)
Definition alloc_anon (b : mlx5_buf) (length : Z) : mreff (Z * mlx5_buf) :=
  let '(err, b, evs) := mlx5_alloc_buf (me_anon e) b (align length (me_page_size e)) (me_page_size e) in
  emit (MevBuf evs) ;*
  eff_ret (if err =? 0 then b_buf b else 0, b).

Definition alloc_buf (b : mlx5_buf) (length contig_addr : Z) : mreff (Z * mlx5_buf) :=
  let alloc_type := mlx5_get_alloc_type (me_getenv e) MLX5_MR_PREFIX MLX5_ALLOC_TYPE_ALL in
  let force_contig := bool_decide (alloc_type = MLX5_ALLOC_TYPE_CONTIG) in
  if bool_decide (alloc_type = MLX5_ALLOC_TYPE_ANON) then alloc_anon b length
  else
    let given := negb (contig_addr =? 0) in
    let alloc_length := if given then length else align length (me_page_size e) in
    let* (err, b, evs) := eff_lift (mlx5_alloc_buf_contig (me_contig e) b alloc_length (me_page_size e)
      MLX5_MR_PREFIX (if given then Some contig_addr else None)) in
    emit (MevBuf evs) ;*
    if err =? 0 then eff_ret (if given then contig_addr else b_buf b, b)
    else if force_contig || given then eff_ret (0, b)
    else alloc_anon b length.

(** Buffers of [IBV_EXP_ACCESS_ALLOCATE_MR]. *)
Definition free_mr_buf (m : mlx5_mr) : mreff unit :=
  if mr_allocated m then
    emit (MevBuf (if bool_decide (b_type (mr_buf m) = MLX5_ALLOC_TYPE_CONTIG)
                  then mlx5_free_buf_contig (mr_buf m) else mlx5_free_buf (mr_buf m)))
  else eff_ret tt.

Definition mlx5_alloc_whole_addr_mr (i : reg_in) : mreff (option Z) :=
  let a := in_access i in
  if acc_remote_write a || acc_remote_read a || acc_remote_atomic a || acc_relaxed a || acc_allocate_mr a ||
     acc_other a || acc_reserved a
  then eff_ret None
  else
    let* t := tick in
    if negb (me_alloc e t) then eff_ret None
    else
      let p := Z.of_nat t in
      put_obj p (ObjWhole (in_addr i) (in_length i) 0
        (if acc_local_write a then ODP_GLOBAL_W_LKEY else ODP_GLOBAL_R_LKEY) 0) ;*
      eff_ret (Some p).
Definition mlx5_dealloc_whole_addr_mr (p : Z) : mreff unit := free_obj p.

(** [mlx5_exp_reg_mr] from the [calloc] on. *)
Definition reg_strict (i : reg_in) : mreff (option Z * reg_in) :=
  let* t := tick in
  if negb (me_alloc e t) then eff_ret (None, i)
  else
    let p := Z.of_nat t in
    let is_contig := (in_addr i =? 0) && acc_allocate_mr (in_access i) || in_contig i in
    let* (a, b) := (if is_contig then alloc_buf buf0 (in_length i) (in_addr i) else eff_ret (in_addr i, buf0)) in
    let i := in_set_addr i a in
    if is_contig && (a =? 0) then eff_ret (None, i)
    else
      let m := Mr (if is_contig then a else 0) 0 0 0 0 b false false is_contig (acc_on_demand (in_access i)) in
      let* t := tick in
      match me_reg e t (in_access i) a (in_length i) with
      | inr _ => free_mr_buf m ;* eff_ret (None, i)
      | inl (lkey, rkey, handle) =>
          emit (MevReg p (in_access i) a (in_length i) lkey) ;*
          put_obj p (ObjMr (Mr (mr_addr m) (mr_length m) handle lkey rkey b false false is_contig (mr_odp m))) ;*
          eff_ret (Some p, i)
      end.

(** The whole function; [relaxed] is the branch of the regions that are
    shared, which calls back through the table. *)
Definition exp_reg_mr_with (relaxed : reg_in → mreff (option Z)) (i : reg_in) : mreff (option Z * reg_in) :=
  if in_bad_mask i || acc_reserved (in_access i) then errno_set EINVAL ;* eff_ret (None, i)
  else if (in_addr i =? 0) && (in_length i =? MLX5_WHOLE_ADDR_SPACE) && acc_on_demand (in_access i) then
    let* p := mlx5_alloc_whole_addr_mr i in eff_ret (p, i)
  else if acc_on_demand (in_access i) && acc_relaxed (in_access i) then
    let* p := relaxed i in eff_ret (p, i)
  else reg_strict i.

(** [ibv_exp_reg_mr]: the driver's function, then what libibverbs writes. *)
Definition ibv_exp_reg_mr_with (relaxed : reg_in → mreff (option Z)) (i : reg_in) : mreff (option Z) :=
  let* (p, i) := exp_reg_mr_with relaxed i in
  match p with
  | None => eff_ret None
  | Some p =>
      let* o := get_obj p in
      put_obj p (set_range o (me_range e (in_addr i) (in_length i))) ;*
      eff_ret (Some p)
  end.
(** The regions of the tables are not relaxed themselves. *)
Definition reg_for_table : reg_in → mreff (option Z) := ibv_exp_reg_mr_with (λ _, eff_fault Stuck).

(** ** Looking up a region (implicit_lkey.c) *)
Definition key1 (addr : Z) : Z := (addr .>> LEVEL1_SHIFT) .& MASK LEVEL1_SIZE.
Definition key2 (addr : Z) : Z := (addr .>> LEVEL2_SHIFT) .& MASK LEVEL2_SIZE.
Definition mr_idx_in_pair (addr len : Z) : bool :=
  negb ((addr .>> MR_SIZE) .& 1 =? (u64 (addr + len + 1) .>> MR_SIZE) .& 1).
Definition mr_base_addr (addr len : Z) : Z :=
  (addr .& u64 (Z.lnot (MASK MR_SIZE))) .| Z.shiftl (if mr_idx_in_pair addr len then 1 else 0) (MR_SIZE - 1).

(** The table without NULL checks, as the code indexes it. *)
Definition ilk_level2 (x : mlx5_implicit_lkey) (k1 : Z) : res (option (gmap Z mlx5_pair_mrs)) :=
  match il_table x with
  | TNull => Fault NullDeref
  | TLive t => Ok (t !! k1)
  | TDangling => Fault OutOfBounds
  end.
Definition pair_get (x : mlx5_pair_mrs) (idx : bool) : option Z := if idx then mrs_1 x else mrs_0 x.
Definition pair_set (x : mlx5_pair_mrs) (idx : bool) (p : option Z) : mlx5_pair_mrs :=
  if idx then Pair (mrs_0 x) p else Pair p (mrs_1 x).
Definition ilk_slot (x : mlx5_implicit_lkey) (k1 k2 : Z) (idx : bool) : res (option Z) :=
  let! l := ilk_level2 x k1 in
  match l with
  | None => Fault NullDeref
  | Some l => Ok (pair_get (default pair0 (l !! k2)) idx)
  end.
Definition ilk_set_table (x : mlx5_implicit_lkey) (t : ilk_table) : mlx5_implicit_lkey :=
  Ilkey t (il_access x) (il_lock x).
Definition ilk_set_level2 (x : mlx5_implicit_lkey) (k1 : Z) (l : option (gmap Z mlx5_pair_mrs)) : res mlx5_implicit_lkey :=
  match il_table x with
  | TNull => Fault NullDeref
  | TLive t => Ok (ilk_set_table x (TLive (partial_alter (λ _, l) k1 t)))
  | TDangling => Fault OutOfBounds
  end.
Definition ilk_set_slot (x : mlx5_implicit_lkey) (k1 k2 : Z) (idx : bool) (p : option Z) : res mlx5_implicit_lkey :=
  let! l := ilk_level2 x k1 in
  match l with
  | None => Fault NullDeref
  | Some l => ilk_set_level2 x k1 (Some (<[k2 := pair_set (default pair0 (l !! k2)) idx p]> l))
  end.
Definition is_null (t : ilk_table) : bool := match t with TNull => true | _ => false end.

(** A lock that another thread holds is waited for: the step is not possible
    yet. *)
Definition ilk_lock (k : ilk) : mreff unit :=
  let* x := get_ilk k in
  match il_lock x with
  | Unlocked => put_ilk k (Ilkey (il_table x) (il_access x) Locked)
  | _ => eff_fault Stuck
  end.
Definition ilk_unlock (k : ilk) : mreff unit :=
  let* x := get_ilk k in put_ilk k (Ilkey (il_table x) (il_access x) Unlocked).

(** A call of [mlx5_get_real_mr_from_implicit_lkey], and where it is. *)
Record ilk_req : Type := Req { rq_ilk : ilk; rq_addr : Z; rq_len : Z }.
Inductive ilk_pc : Type :=
| PcStart
| PcTable | PcTableLock | PcTableAgain | PcTableStore | PcTableUnlock | PcTableCheck
| PcLevel2 | PcLevel2Lock | PcLevel2Again | PcLevel2Store | PcLevel2Unlock | PcLevel2Check
| PcMr | PcMrLock | PcMrAgain | PcMrStore | PcMrRange | PcMrFlags | PcMrUnlock | PcMrCheck
| PcGet
| PcDone (ret : Z) (mr : option Z).

(** One access to the shared state. *)
Definition real_mr_step (rq : ilk_req) (pc : ilk_pc) : mreff ilk_pc :=
  let k := rq_ilk rq in
  let addr := rq_addr rq in
  let len := rq_len rq in
  let k1 := key1 addr in
  let k2 := key2 addr in
  let idx := mr_idx_in_pair addr len in
  let base := mr_base_addr addr len in
  match pc with
  | PcStart =>
      let msb := addr .>> ADDR_EFFECTIVE_BITS in
      if negb (len .>> MR_SIZE =? 0) then eff_ret (PcDone EINVAL None)
      else if negb (msb =? 0) && negb (msb =? (2 ^ 64 - 1) .>> ADDR_EFFECTIVE_BITS)
      then eff_ret (PcDone EINVAL None)
      else eff_ret PcTable
  | PcTable =>
      let* x := get_ilk k in eff_ret (if is_null (il_table x) then PcTableLock else PcLevel2)
  | PcTableLock => ilk_lock k ;* eff_ret PcTableAgain
  | PcTableAgain =>
      let* x := get_ilk k in eff_ret (if is_null (il_table x) then PcTableStore else PcTableUnlock)
  | PcTableStore =>
      let* ok := malloc in
      let* x := get_ilk k in
      if ok : bool then mem_acquire (MemTable k) ;* put_ilk k (ilk_set_table x (TLive ∅)) ;* eff_ret PcTableUnlock
      else put_ilk k (ilk_set_table x TNull) ;* eff_ret PcTableUnlock
  | PcTableUnlock => ilk_unlock k ;* eff_ret PcTableCheck
  | PcTableCheck =>
      let* x := get_ilk k in
      eff_ret (if is_null (il_table x) then PcDone ENOMEM None else PcLevel2)
  | PcLevel2 =>
      let* x := get_ilk k in
      let* l := eff_lift (ilk_level2 x k1) in
      eff_ret (match l with None => PcLevel2Lock | Some _ => PcMr end)
  | PcLevel2Lock => ilk_lock k ;* eff_ret PcLevel2Again
  | PcLevel2Again =>
      let* x := get_ilk k in
      let* l := eff_lift (ilk_level2 x k1) in
      eff_ret (match l with None => PcLevel2Store | Some _ => PcLevel2Unlock end)
  | PcLevel2Store =>
      let* ok := malloc in
      let* x := get_ilk k in
      if ok : bool then
        mem_acquire (MemLevel2 k k1) ;* let* x := eff_lift (ilk_set_level2 x k1 (Some ∅)) in
        put_ilk k x ;* eff_ret PcLevel2Unlock
      else
        let* x := eff_lift (ilk_set_level2 x k1 None) in
        put_ilk k x ;* eff_ret PcLevel2Unlock
  | PcLevel2Unlock => ilk_unlock k ;* eff_ret PcLevel2Check
  | PcLevel2Check =>
      let* x := get_ilk k in
      let* l := eff_lift (ilk_level2 x k1) in
      eff_ret (match l with None => PcDone ENOMEM None | Some _ => PcMr end)
  | PcMr =>
      let* x := get_ilk k in
      let* p := eff_lift (ilk_slot x k1 k2 idx) in
      eff_ret (match p with None => PcMrLock | Some _ => PcGet end)
  | PcMrLock => ilk_lock k ;* eff_ret PcMrAgain
  | PcMrAgain =>
      let* x := get_ilk k in
      let* p := eff_lift (ilk_slot x k1 k2 idx) in
      eff_ret (match p with None => PcMrStore | Some _ => PcMrFlags end)
  | PcMrStore =>
      let* x := get_ilk k in
      let* p := reg_for_table (RegIn base (Z.shiftl 1 MR_SIZE) (il_access x) false false) in
      let* x := get_ilk k in
      let* x := eff_lift (ilk_set_slot x k1 k2 idx p) in
      put_ilk k x ;*
      eff_ret (match p with Some _ => PcMrRange | None => PcMrFlags end)
  | PcMrRange =>
      let* x := get_ilk k in
      let* p := eff_lift (ilk_slot x k1 k2 idx) in
      match p with
      | None => eff_fault NullDeref
      | Some p =>
          let* o := get_obj p in
          put_obj p (set_range o (base, Z.shiftl 1 MR_SIZE)) ;* eff_ret PcMrFlags
      end
  | PcMrFlags =>
      let* x := get_ilk k in
      let* p := eff_lift (ilk_slot x k1 k2 idx) in
      match p with
      | None => eff_ret PcMrUnlock
      | Some p =>
          let* m := get_mmr p in
          put_obj p (ObjMr (mr_set_odp (mr_set_relaxed m true))) ;* eff_ret PcMrUnlock
      end
  | PcMrUnlock => ilk_unlock k ;* eff_ret PcMrCheck
  | PcMrCheck =>
      let* x := get_ilk k in
      let* p := eff_lift (ilk_slot x k1 k2 idx) in
      eff_ret (match p with None => PcDone ENOMEM None | Some _ => PcGet end)
  | PcGet =>
      let* x := get_ilk k in
      let* p := eff_lift (ilk_slot x k1 k2 idx) in
      match p with
      | None => eff_fault NullDeref
      | Some p =>
          let* o := get_obj p in
          let '(a, n) := obj_range o in
          eff_assert ((a <=? addr) && (u64 (addr + len) <=? u64 (a + n))) ;*
          eff_ret (PcDone 0 (Some p))
      end
  | PcDone ret mr => eff_ret pc
  end.

(** The function: its steps until it returns.  There are at most 22. *)
Fixpoint real_mr_run (fuel : nat) (rq : ilk_req) (pc : ilk_pc) : mreff (Z * option Z) :=
  match pc with
  | PcDone ret mr => eff_ret (ret, mr)
  | _ =>
      match fuel with
      | O => eff_fault Stuck
      | S fuel => let* pc := real_mr_step rq pc in real_mr_run fuel rq pc
      end
  end.
Definition mlx5_get_real_mr_from_implicit_lkey (k : ilk) (addr len : Z) : mreff (Z * option Z) :=
  real_mr_run 24 (Req k addr len) PcStart.

(** The key is written only if the result is 0. *)
Definition mlx5_get_real_lkey_from_implicit_lkey (k : ilk) (addr len : Z) : mreff (Z * Z) :=
  let* (ret, mr) := mlx5_get_real_mr_from_implicit_lkey k addr len in
  match mr with
  | Some p => let* o := get_obj p in eff_ret (ret, obj_lkey o)
  | None => eff_ret (ret, 0)
  end.

(** ** Prefetching *)

(** [mlx5_prefetch_mr]; [implicit] is the branch of the two global keys,
    [bad_mask] a [comp_mask] past its range. *)
Definition prefetch_mr_with (implicit : ilk → Z → Z → Z → mreff Z) (p addr len flags : Z) (bad_mask : bool) : mreff Z :=
  let* o := get_obj p in
  if bad_mask then eff_ret EINVAL
  else if obj_lkey o =? ODP_GLOBAL_R_LKEY then implicit RIlk addr len flags
  else if obj_lkey o =? ODP_GLOBAL_W_LKEY then implicit WIlk addr len flags
  else
    let* t := tick in
    emit (MevPrefetch p addr len flags) ;* eff_ret (me_cmd e t).

(** The loop; a region of the table has a key of its own. *)
Fixpoint prefetch_loop (fuel : nat) (k : ilk) (addr end_addr flags : Z) : mreff Z :=
  match fuel with
  | O => eff_fault Stuck
  | S fuel =>
      if addr <? end_addr then
        let effective_length :=
          Z.min (1 + PREFETCH_STRIDE_SIZE - (addr .& PREFETCH_STRIDE_SIZE)) (end_addr - addr) in
        let* (ret_val, mr) := mlx5_get_real_mr_from_implicit_lkey k addr effective_length in
        if negb (ret_val =? 0) then eff_ret ret_val
        else
          match mr with
          | None => eff_fault NullDeref
          | Some p =>
              let* ret_val := prefetch_mr_with (λ _ _ _ _, eff_fault Stuck) p addr effective_length flags false in
              if negb (ret_val =? 0) then eff_ret ret_val
              else prefetch_loop fuel k (u64 (addr + effective_length)) end_addr flags
          end
      else eff_ret 0
  end.
Definition mlx5_prefetch_implicit_lkey (k : ilk) (addr len flags : Z) : mreff Z :=
  let end_addr := u64 (addr + len) in
  if end_addr <? addr then eff_ret EINVAL
  else prefetch_loop (Z.to_nat (len / 2 ^ 27) + 3) k addr end_addr flags.

Definition mlx5_prefetch_mr : Z → Z → Z → Z → bool → mreff Z := prefetch_mr_with mlx5_prefetch_implicit_lkey.

(** ** Tables *)
Definition mlx5_init_implicit_lkey (a : exp_access) : mreff (Z * mlx5_implicit_lkey) :=
  if negb (acc_on_demand a) then eff_ret (- EINVAL, Ilkey TNull a Destroyed)
  else
    let* t := tick in
    eff_ret (me_mutex e t, Ilkey TNull a (if me_mutex e t =? 0 then Unlocked else Destroyed)).

(** [exp_access] without IBV_EXP_ACCESS_RELAXED selects the table. *)
Definition mlx5_get_implicit_lkey (a : exp_access) : mreff (option ilk) :=
  if negb (acc_on_demand a) then errno_set EINVAL ;* eff_ret None
  else if decide (strict a = r_access) then eff_ret (Some RIlk)
  else if decide (strict a = w_access) then eff_ret (Some WIlk)
  else if negb (acc_relaxed a) then errno_set EINVAL ;* eff_ret None
  else
    let* pd := the_pd in
    match remote_ilkey pd with
    | Some _ => eff_ret (Some RemoteIlk)
    | None =>
        let* ok := malloc in
        if negb ok then errno_set ENOMEM ;* eff_ret None
        else
          mem_acquire MemRemote ;*
          let* (err, x) := mlx5_init_implicit_lkey remote_access in
          errno_set err ;*
          if negb (err =? 0) then mem_release MemRemote ;* eff_ret None
          else put_ilk RemoteIlk x ;* eff_ret (Some RemoteIlk)
    end.

(** ** Regions of a program (verbs.c) *)
Definition IBV_EXP_PREFETCH_WRITE_ACCESS : Z := 1.

Definition reg_relaxed (i : reg_in) : mreff (option Z) :=
  let a := in_access i in
  let* k := mlx5_get_implicit_lkey a in
  let flags := if acc_local_write a || acc_remote_write a || acc_remote_read a
               then IBV_EXP_PREFETCH_WRITE_ACCESS else 0 in
  match k with
  | None => eff_ret None
  | Some k =>
      let* (ret, mr) := mlx5_get_real_mr_from_implicit_lkey k (in_addr i) (in_length i) in
      errno_set ret ;*
      if negb (ret =? 0) then eff_ret None
      else
        match mr with
        | None => eff_fault NullDeref
        | Some p => mlx5_prefetch_mr p (in_addr i) (in_length i) flags false ;* eff_ret (Some p)
        end
  end.
Definition mlx5_exp_reg_mr (i : reg_in) : mreff (option Z * reg_in) := exp_reg_mr_with reg_relaxed i.
Definition mlx5_reg_mr (addr length : Z) (a : exp_access) : mreff (option Z) :=
  let* (p, _) := mlx5_exp_reg_mr (RegIn addr length a false false) in eff_ret p.

Definition mlx5_dereg_mr (p : Z) : mreff Z :=
  let* o := get_obj p in
  if (obj_lkey o =? ODP_GLOBAL_R_LKEY) || (obj_lkey o =? ODP_GLOBAL_W_LKEY) then
    mlx5_dealloc_whole_addr_mr p ;* eff_ret 0
  else
    let* m := get_mmr p in
    if mr_relaxed m then eff_ret 0
    else
      let* ret := (if mr_no_rdma m then eff_ret 0
                   else let* t := tick in
                        if me_cmd e t =? 0 then emit (MevDereg p) ;* eff_ret 0 else eff_ret (me_cmd e t)) in
      if negb (ret =? 0) then eff_ret ret
      else free_mr_buf m ;* free_obj p ;* eff_ret 0.

(** With the flag [need_dofork]. *)
Definition mlx5_exp_dereg_mr (p : Z) : mreff (bool * Z) :=
  let* o := get_obj p in
  let* dofork :=
    (if (obj_lkey o =? ODP_GLOBAL_R_LKEY) || (obj_lkey o =? ODP_GLOBAL_W_LKEY) then eff_ret false
     else let* m := get_mmr p in
          eff_ret (negb (bool_decide (b_type (mr_buf m) = MLX5_ALLOC_TYPE_CONTIG) || mr_odp m))) in
  let* ret := mlx5_dereg_mr p in
  eff_ret (dofork, ret).

(** A region of a table is released for good. *)
Definition destroy_slot (p : option Z) : mreff unit :=
  match p with
  | None => eff_ret tt
  | Some p =>
      let* m := get_mmr p in
      put_obj p (ObjMr (mr_set_relaxed m false)) ;*
      mlx5_dereg_mr p ;* eff_ret tt
  end.
Fixpoint destroy_pairs (n : nat) (l : gmap Z mlx5_pair_mrs) (i : Z) : mreff unit :=
  match n with
  | O => eff_ret tt
  | S n =>
      let x := default pair0 (l !! i) in
      destroy_slot (mrs_0 x) ;* destroy_slot (mrs_1 x) ;* destroy_pairs n l (i + 1)
  end.
Definition destroy_level2 (k : ilk) (k1 : Z) (l : gmap Z mlx5_pair_mrs) : mreff unit :=
  destroy_pairs 2048 l 0 ;* mem_release (MemLevel2 k k1).
Fixpoint destroy_level1 (n : nat) (k : ilk) (t : gmap Z (gmap Z mlx5_pair_mrs)) (i : Z) : mreff unit :=
  match n with
  | O => eff_ret tt
  | S n =>
      (match t !! i with Some l => destroy_level2 k i l | None => eff_ret tt end) ;*
      destroy_level1 n k t (i + 1)
  end.
Definition mlx5_destroy_implicit_lkey (k : ilk) : mreff unit :=
  let* x := get_ilk k in
  put_ilk k (Ilkey (il_table x) (il_access x) Destroyed) ;*
  match il_table x with
  | TNull => eff_ret tt
  | TDangling => eff_fault OutOfBounds
  | TLive t =>
      destroy_level1 1024 k t 0 ;* mem_release (MemTable k) ;*
      put_ilk k (Ilkey TDangling (il_access x) Destroyed)
  end.

(** ** Protection domains (verbs.c) *)
Definition mlx5_alloc_pd : mreff bool :=
  let* ok := malloc in
  if negb ok then eff_ret false
  else
    mem_acquire MemPd ;*
    let* t := tick in
    if negb (me_cmd e t =? 0) then mem_release MemPd ;* eff_ret false
    else
      emit MevAllocPd ;*
      let* (err, r) := mlx5_init_implicit_lkey r_access in
      if negb (err =? 0) then mem_release MemPd ;* eff_ret false
      else
        let* (err, x) := mlx5_init_implicit_lkey w_access in
        if negb (err =? 0) then mem_release MemPd ;* eff_ret false
        else put_pd (Pd (me_pdn e t) r x None) ;* eff_ret true.

Definition mlx5_free_pd : mreff Z :=
  mlx5_destroy_implicit_lkey RIlk ;*
  mlx5_destroy_implicit_lkey WIlk ;*
  let* pd := the_pd in
  (match remote_ilkey pd with
   | Some _ => mlx5_destroy_implicit_lkey RemoteIlk ;*
               let* pd := the_pd in put_pd (Pd (pdn pd) (r_ilkey pd) (w_ilkey pd) None)
   | None => eff_ret tt
   end) ;*
  let* t := tick in
  if negb (me_cmd e t =? 0) then eff_ret (me_cmd e t)
  else
    emit MevDeallocPd ;* mem_release MemPd ;*
    (λ w, Ok (tt, set_pd w None)) ;* eff_ret 0.
End Mr.

(** What the data path uses: the tables of the protection domain. *)
Definition mr_implicit_lkey (e : mr_env) : ImplicitLkey mr_world :=
  λ writable addr len, mlx5_get_real_lkey_from_implicit_lkey e (if writable then WIlk else RIlk) addr len.
