(* ===== verification/Mlx5MrProof.v ===== *)
(** * libmlx5: memory regions, the table under concurrent calls

    Any number of threads look up regions at the same time.  The state is the
    world of [Mlx5Mr] and the list of the calls that were made, each with its
    place in the code; a step of the system is a new call or one access of one
    call to the shared state.  The invariant has three parts: the tables are
    well formed ([tab_inv]), each call knows what its place in the code
    implies ([call_inv]), and a table is locked if and only if exactly one
    call is in a critical section ([lock_inv]). *)

From stdpp Require Import base gmap list numbers.
From Stdlib Require Import ZArith Lia ZifyBool.
From S2P Require Import Prelude Mlx5Base Mlx5Wqe Mlx5Buf Mlx5Mr.

(** ** Keys and bases *)
Definition region_base (k1 k2 : Z) (idx : bool) : Z := k1 * 2 ^ 39 + k2 * 2 ^ 28 + (if idx then 2 ^ 27 else 0).

Definition user_addr (addr : Z) : Prop := 0 ≤ addr < 2 ^ 48.

Lemma MASK_ones n : 0 ≤ n → MASK n = Z.ones n.
Proof. intros. unfold MASK, Z.ones. lia. Qed.

Lemma key1_eq addr : user_addr addr → key1 addr = addr / 2 ^ 39 ∧ 0 ≤ key1 addr < 2 ^ 9.
Proof.
  intros [H1 H2]. unfold key1. rewrite MASK_ones, Z.land_ones, Z.shiftr_div_pow2 by (cbv; discriminate).
  change LEVEL1_SHIFT with 39. change LEVEL1_SIZE with 10.
  assert (0 ≤ addr / 2 ^ 39 < 2 ^ 9).
  { split; [apply Z.div_pos; lia|]. apply Z.div_lt_upper_bound; lia. }
  rewrite Z.mod_small by lia. lia.
Qed.

Lemma key2_eq addr : user_addr addr → key2 addr = (addr / 2 ^ 28) mod 2 ^ 11 ∧ 0 ≤ key2 addr < 2 ^ 11.
Proof.
  intros [H1 H2]. unfold key2. rewrite MASK_ones, Z.land_ones, Z.shiftr_div_pow2 by (cbv; discriminate).
  change LEVEL2_SHIFT with 28. change LEVEL2_SIZE with 11.
  split; [done|]. apply Z.mod_pos_bound. lia.
Qed.

Lemma base_keys addr idx : user_addr addr →
  region_base (key1 addr) (key2 addr) idx = addr - addr mod 2 ^ 28 + (if idx then 2 ^ 27 else 0).
Proof.
  intros H. unfold region_base. destruct (key1_eq addr H) as [-> _]. destruct (key2_eq addr H) as [-> _].
  f_equal. pose proof (Z.div_mod addr (2 ^ 28) ltac:(lia)). pose proof (Z.div_mod (addr / 2 ^ 28) (2 ^ 11) ltac:(lia)).
  replace (addr / 2 ^ 39) with (addr / 2 ^ 28 / 2 ^ 11) by (rewrite Z.div_div by lia; f_equal). lia.
Qed.

(** The region is the first of the pair if the range and one more byte end
    before the next multiple of 256 MB. *)
Lemma idx_spec addr len : user_addr addr → 0 ≤ len < 2 ^ 28 →
  mr_idx_in_pair addr len = (2 ^ 28 <=? addr mod 2 ^ 28 + len + 1).
Proof.
  intros [H1 H2] Hl. unfold mr_idx_in_pair, u64. rewrite (Z.mod_small (_ + _)) by lia.
  assert (L : ∀ a, a .& 1 = a mod 2) by (intros a; apply (Z.land_ones a 1); lia).
  rewrite !L, !Z.shiftr_div_pow2 by (cbv; discriminate). clear L.
  change MR_SIZE with 28.
  pose proof (Z.div_mod addr (2 ^ 28) ltac:(lia)). pose proof (Z.mod_pos_bound addr (2 ^ 28) ltac:(lia)).
  set (q := addr / 2 ^ 28) in *. set (r := addr mod 2 ^ 28) in *.
  assert (E : (addr + len + 1) / 2 ^ 28 = q + (if 2 ^ 28 <=? r + len + 1 then 1 else 0)).
  { symmetry. apply (Z.div_unique _ _ _ (r + len + 1 - (if 2 ^ 28 <=? r + len + 1 then 2 ^ 28 else 0))).
    - left. destruct (Z.leb_spec (2 ^ 28) (r + len + 1)); lia.
    - destruct (Z.leb_spec (2 ^ 28) (r + len + 1)); lia. }
  rewrite E, !Zmod_odd.
  destruct (Z.leb_spec (2 ^ 28) (r + len + 1)).
  - rewrite Z.odd_add. destruct (Z.odd q); done.
  - rewrite Z.add_0_r, Z.eqb_refl. done.
Qed.

Lemma mr_base_eq addr len : user_addr addr → 0 ≤ len < 2 ^ 28 →
  mr_base_addr addr len = region_base (key1 addr) (key2 addr) (mr_idx_in_pair addr len).
Proof.
  intros H Hl. rewrite (base_keys addr _ H). unfold mr_base_addr. destruct H as [H1 H2].
  change (MASK MR_SIZE) with (2 ^ 28 - 1). rewrite u64_land_lnot_mask by lia.
  pose proof (Z.div_mod addr (2 ^ 28) ltac:(lia)). pose proof (Z.mod_pos_bound addr (2 ^ 28) ltac:(lia)).
  replace (addr - addr mod 2 ^ 28) with (addr / 2 ^ 28 * 2 ^ 28) by lia.
  destruct (mr_idx_in_pair addr len); [|rewrite Z.lor_0_r; lia].
  change (Z.shiftl 1 (MR_SIZE - 1)) with (2 ^ 27).
  rewrite <-Z.add_lor_land. rewrite <-(Z.shiftl_mul_pow2 _ 28) by lia.
  assert (Hz : Z.land (Z.shiftl (addr / 2 ^ 28) 28) (2 ^ 27) = 0); [|lia].
  apply Z.bits_inj'. intros n Hn. rewrite Z.land_spec, Z.bits_0.
  destruct (decide (n = 27)) as [->|Hne].
  - rewrite Z.shiftl_spec_low by lia. done.
  - rewrite Z.pow2_bits_false by lia. apply andb_false_r.
Qed.

(** What the assertion at the end of a lookup requires of the range. *)
Definition fits (addr len : Z) : Prop :=
  let o := addr mod 2 ^ 28 in o + len + 1 < 2 ^ 28 ∨ 2 ^ 27 ≤ o ∧ o + len ≤ 3 * 2 ^ 27.

Lemma fits_spec addr len : user_addr addr → 0 ≤ len < 2 ^ 28 →
  let base := mr_base_addr addr len in
  (base <=? addr) && (u64 (addr + len) <=? u64 (base + 2 ^ 28)) = true ↔ fits addr len.
Proof.
  intros H Hl. cbv zeta. rewrite (mr_base_eq addr len H Hl), (base_keys addr _ H), (idx_spec addr len H Hl).
  unfold fits. destruct H as [H1 H2]. pose proof (Z.mod_pos_bound addr (2 ^ 28) ltac:(lia)).
  pose proof (Z.mod_le addr (2 ^ 28) ltac:(lia) ltac:(lia)).
  destruct (Z.leb_spec (2 ^ 28) (addr mod 2 ^ 28 + len + 1)); rewrite !u64_small by lia; lia.
Qed.

(** Ranges shorter than 128 MB always fit, and so do ranges inside an aligned
    block of 128 MB. *)
Lemma fits_short addr len : 0 ≤ len < 2 ^ 27 → fits addr len.
Proof. unfold fits. pose proof (Z.mod_pos_bound addr (2 ^ 28) ltac:(lia)). lia. Qed.

Lemma fits_half addr len : 0 ≤ addr → 0 ≤ len → addr mod 2 ^ 27 + len ≤ 2 ^ 27 → fits addr len.
Proof.
  intros Ha Hl H. unfold fits. pose proof (Z.mod_pos_bound addr (2 ^ 28) ltac:(lia)).
  assert (E : addr mod 2 ^ 27 = (addr mod 2 ^ 28) mod 2 ^ 27).
  { change (2 ^ 28) with (2 ^ 27 * 2). rewrite Z.rem_mul_r, Z.mul_comm, Z_mod_plus_full, Z.mod_mod by lia. done. }
  set (o := addr mod 2 ^ 28) in *. clearbody o.
  destruct (Z.lt_ge_cases o (2 ^ 27)).
  - rewrite (Z.mod_small o) in E by lia. lia.
  - replace o with ((o - 2 ^ 27) + 1 * 2 ^ 27) in E by lia. rewrite Z_mod_plus_full, (Z.mod_small (o - _)) in E by lia. lia.
Qed.

Lemma region_base_inj k1 k2 i k1' k2' i' : 0 ≤ k2 < 2 ^ 11 → 0 ≤ k2' < 2 ^ 11 →
  region_base k1 k2 i = region_base k1' k2' i' → k1 = k1' ∧ k2 = k2' ∧ i = i'.
Proof.
  unfold region_base. intros. assert (k1 = k1') by (destruct i, i'; lia). assert (k2 = k2') by (destruct i, i'; lia).
  split; [done|]. split; [done|]. destruct i, i'; done || lia.
Qed.

(** ** Views of the state *)
Definition ilk_of (w : mr_world) (k : ilk) : option mlx5_implicit_lkey := w_pd w ≫= λ pd, pd_ilk pd k.
Definition xlive (x : mlx5_implicit_lkey) : Prop := match il_table x with TLive _ => True | _ => False end.
Definition xl2 (x : mlx5_implicit_lkey) (k1 : Z) : option (gmap Z mlx5_pair_mrs) :=
  match il_table x with TLive t => t !! k1 | _ => None end.
Definition lslot (l : gmap Z mlx5_pair_mrs) (k2 : Z) (idx : bool) : option Z := pair_get (default pair0 (l !! k2)) idx.
Definition xslot (x : mlx5_implicit_lkey) (k1 k2 : Z) (idx : bool) : option Z := xl2 x k1 ≫= λ l, lslot l k2 idx.
Definition slot_of (w : mr_world) (k : ilk) (k1 k2 : Z) (idx : bool) : option Z :=
  ilk_of w k ≫= λ x, xslot x k1 k2 idx.
Definition access_of (k : ilk) : exp_access :=
  match k with RIlk => r_access | WIlk => w_access | RemoteIlk => remote_access end.

Definition reg_of (v : mr_ev) : option (Z * (exp_access * Z)) :=
  match v with MevReg p a b _ _ => Some (p, (a, b)) | _ => None end.
(** The regions that were registered, each with its access and base. *)
Definition regs (w : mr_world) : list (Z * (exp_access * Z)) := omap reg_of (w_evs w).

Record mr_laws (e : mr_env) : Prop := {
  ml_range : ∀ a n, me_range e a n = (a, n);
  ml_keys : ∀ t a b n l r h, me_reg e t a b n = inl (l, r, h) → l ≠ ODP_GLOBAL_R_LKEY ∧ l ≠ ODP_GLOBAL_W_LKEY
}.

(** A region of a table. *)
Definition region_ok (w : mr_world) (k : ilk) (k1 k2 : Z) (idx : bool) (p : Z) : Prop :=
  ∃ m, w_mrs w !! p = Some (ObjMr m) ∧ mr_addr m = region_base k1 k2 idx ∧ mr_length m = 2 ^ 28 ∧
    mr_no_rdma m = false ∧ mr_allocated m = false ∧
    mr_lkey m ≠ ODP_GLOBAL_R_LKEY ∧ mr_lkey m ≠ ODP_GLOBAL_W_LKEY ∧
    MevReg p (access_of k) (region_base k1 k2 idx) (2 ^ 28) (mr_lkey m) ∈ w_evs w.

(** The memory of the tables is allocated, once each. *)
Definition mem_ok (w : mr_world) : Prop :=
  NoDup (w_mem w) ∧
  (∀ k, MemTable k ∈ w_mem w ↔ ∃ x, ilk_of w k = Some x ∧ xlive x) ∧
  (∀ k k1, MemLevel2 k k1 ∈ w_mem w ↔ ∃ x l, ilk_of w k = Some x ∧ xl2 x k1 = Some l).

Record tab_inv (w : mr_world) : Prop := {
  ti_x : ∀ k x, ilk_of w k = Some x → il_access x = access_of k ∧ il_table x ≠ TDangling ∧ il_lock x ≠ Destroyed;
  ti_keys : ∀ k x k1 l, ilk_of w k = Some x → xl2 x k1 = Some l →
    0 ≤ k1 < 2 ^ 10 ∧ ∀ k2 pr, l !! k2 = Some pr → 0 ≤ k2 < 2 ^ 11;
  ti_slot : ∀ k k1 k2 idx p, slot_of w k k1 k2 idx = Some p → region_ok w k k1 k2 idx p;
  ti_inj : ∀ k k1 k2 idx k' k1' k2' idx' p, slot_of w k k1 k2 idx = Some p → slot_of w k' k1' k2' idx' = Some p →
    k = k' ∧ k1 = k1' ∧ k2 = k2' ∧ idx = idx';
  ti_fresh : ∀ p o, w_mrs w !! p = Some o → p < Z.of_nat (w_time w);
  ti_mem : mem_ok w
}.

(** All registrations so far were for a table, and each region is in its
    place. *)
Record reg_inv (w : mr_world) : Prop := {
  ri_nodup : NoDup (regs w).*1;
  ri_slot : ∀ p a b, (p, (a, b)) ∈ regs w → ∃ k k1 k2 idx,
    slot_of w k k1 k2 idx = Some p ∧ a = access_of k ∧ b = region_base k1 k2 idx;
  ri_all : ∀ p o, w_mrs w !! p = Some o → ∃ k k1 k2 idx, slot_of w k k1 k2 idx = Some p
}.

(** ** Changes of the state *)
Definition upd (w : mr_world) (k : ilk) (x : mlx5_implicit_lkey) : mr_world :=
  match w_pd w with Some pd => set_pd w (Some (pd_set_ilk pd k x)) | None => w end.

Lemma get_ilk_ok w k x : ilk_of w k = Some x → get_ilk k w = Ok (x, w).
Proof.
  unfold ilk_of, get_ilk, the_pd, eff_bind. destruct (w_pd w) as [pd|]; [|done]. cbn. by intros ->.
Qed.

Lemma put_ilk_ok w k x x' : ilk_of w k = Some x → put_ilk k x' w = Ok (tt, upd w k x').
Proof. unfold ilk_of, put_ilk, upd, the_pd, put_pd, eff_bind. by destruct (w_pd w) as [pd|]. Qed.

Lemma ilk_of_upd w k x x' k' : ilk_of w k = Some x →
  ilk_of (upd w k x') k' = if decide (k' = k) then Some x' else ilk_of w k'.
Proof.
  unfold ilk_of, upd. destruct (w_pd w) as [pd|] eqn:E; [|done]. intros _. cbn.
  by destruct k, k'.
Qed.

Lemma upd_fields w k x : w_mrs (upd w k x) = w_mrs w ∧ w_evs (upd w k x) = w_evs w ∧
  w_time (upd w k x) = w_time w ∧ w_mem (upd w k x) = w_mem w.
Proof. unfold upd. by destruct (w_pd w). Qed.

Lemma ilk_of_pd w w' : w_pd w' = w_pd w → ∀ k, ilk_of w' k = ilk_of w k.
Proof. intros E k. unfold ilk_of. by rewrite E. Qed.

Lemma access_of_inj k k' : access_of k = access_of k' → k = k'.
Proof. by destruct k, k'. Qed.

Lemma slot_of_Some w k k1 k2 idx p : slot_of w k k1 k2 idx = Some p ↔
  ∃ x, ilk_of w k = Some x ∧ xslot x k1 k2 idx = Some p.
Proof. unfold slot_of. destruct (ilk_of w k); cbn; naive_solver. Qed.

Lemma ilk_slot_ok x k1 k2 idx l : xl2 x k1 = Some l → ilk_slot x k1 k2 idx = Ok (xslot x k1 k2 idx).
Proof.
  unfold xl2, ilk_slot, xslot, xl2, ilk_level2. destruct (il_table x); [done| |done]. cbn. by intros ->.
Qed.
Lemma ilk_level2_ok x k1 : xlive x → ilk_level2 x k1 = Ok (xl2 x k1).
Proof. unfold xlive, ilk_level2, xl2. by destruct (il_table x). Qed.
Lemma xl2_live x k1 l : xl2 x k1 = Some l → xlive x.
Proof. unfold xl2, xlive. by destruct (il_table x). Qed.
Lemma xslot_l2 x k1 k2 idx p : xslot x k1 k2 idx = Some p → ∃ l, xl2 x k1 = Some l.
Proof. unfold xslot. destruct (xl2 x k1) as [l|]; [by eexists|done]. Qed.

Lemma pair_get_set pr i j p : pair_get (pair_set pr i p) j = if decide (j = i) then p else pair_get pr j.
Proof. by destruct i, j. Qed.

Lemma lslot_insert l k2 i p k2' i' :
  lslot (<[k2 := pair_set (default pair0 (l !! k2)) i p]> l) k2' i' =
  if decide (k2' = k2 ∧ i' = i) then p else lslot l k2' i'.
Proof.
  unfold lslot. destruct (decide (k2' = k2)) as [->|Hne].
  - rewrite lookup_insert_eq. cbn [from_option id]. rewrite pair_get_set. destruct (decide (i' = i)), (decide _); naive_solver.
  - rewrite lookup_insert_ne by done. destruct (decide _); naive_solver.
Qed.

Lemma set_slot_ok x k1 k2 idx p l : xl2 x k1 = Some l → ∃ x', ilk_set_slot x k1 k2 idx p = Ok x' ∧
  il_access x' = il_access x ∧ il_lock x' = il_lock x ∧ il_table x' ≠ TDangling ∧ xlive x' ∧
  (∀ a, is_Some (xl2 x' a) ↔ is_Some (xl2 x a)) ∧
  (∀ a b i, xslot x' a b i = if decide ((a, b, i) = (k1, k2, idx)) then p else xslot x a b i) ∧
  (∀ a m b pr, xl2 x' a = Some m → m !! b = Some pr →
     a = k1 ∧ b = k2 ∨ ∃ m' pr', xl2 x a = Some m' ∧ m' !! b = Some pr').
Proof.
  intros Hl. unfold ilk_set_slot. rewrite (ilk_level2_ok x k1 (xl2_live _ _ _ Hl)), Hl. cbn [res_bind].
  unfold ilk_set_level2, xl2 in *. destruct (il_table x) as [|t|] eqn:Et; [done| |done].
  eexists. split; [reflexivity|]. cbn [il_access il_lock il_table ilk_set_table xlive].
  set (l' := <[k2 := _]> l). set (x' := ilk_set_table _ _).
  assert (H2 : ∀ a, partial_alter (λ _, Some l') k1 t !! a = if decide (a = k1) then Some l' else t !! a).
  { intros a. destruct (decide (a = k1)) as [->|]; [by rewrite lookup_partial_alter_eq|by rewrite lookup_partial_alter_ne]. }
  do 4 (split; [done|]). split; [|split].
  - intros a. rewrite H2. destruct (decide (a = k1)) as [->|]; [|done]. rewrite Hl. split; by eexists.
  - intros a b i. unfold xslot, xl2. cbn. rewrite Et, H2. destruct (decide (a = k1)) as [->|Hne].
    + rewrite Hl. cbn. unfold l'. rewrite lslot_insert.
      destruct (decide (b = k2 ∧ i = idx)) as [[-> ->]|Hn]; [by rewrite decide_True|]. rewrite decide_False; [done|].
      intros [= -> ->]. by apply Hn.
    + rewrite decide_False; [done|]. by intros [= -> _ _].
  - intros a m b pr. rewrite H2. destruct (decide (a = k1)) as [->|Hne].
    + intros [= <-]. unfold l'. destruct (decide (b = k2)) as [->|]; [by left|]. rewrite lookup_insert_ne by done. right. by eauto.
    + intros. right. by eauto.
Qed.

Lemma set_slot_keys x x' k1 k2 : 0 ≤ k2 < 2 ^ 11 →
  (∀ a m, xl2 x a = Some m → 0 ≤ a < 2 ^ 10 ∧ ∀ b pr, m !! b = Some pr → 0 ≤ b < 2 ^ 11) →
  (∀ a, is_Some (xl2 x' a) ↔ is_Some (xl2 x a)) →
  (∀ a m b pr, xl2 x' a = Some m → m !! b = Some pr →
     a = k1 ∧ b = k2 ∨ ∃ m' pr', xl2 x a = Some m' ∧ m' !! b = Some pr') →
  ∀ a m, xl2 x' a = Some m → 0 ≤ a < 2 ^ 10 ∧ ∀ b pr, m !! b = Some pr → 0 ≤ b < 2 ^ 11.
Proof.
  intros Hk2 Hk H2 Hkeys a m Hm. destruct (proj1 (H2 a)) as [m' Hm']; [by eexists|]. destruct (Hk _ _ Hm') as [? Hb].
  split; [done|]. intros b pr Hpr. destruct (Hkeys a m b pr Hm Hpr) as [[-> ->]|(m'' & pr' & ? & ?)]; [done|].
  apply (Hb b pr'). congruence.
Qed.

(** [w'] differs from [w] in the table [k] only, as far as tables go. *)
Definition only (k : ilk) (w w' : mr_world) : Prop := ∀ k', k' ≠ k → ilk_of w' k' = ilk_of w k'.

Section Change.
Context (w w' : mr_world) (k : ilk) (x x' : mlx5_implicit_lkey).
Context (Hx : ilk_of w k = Some x) (Hx' : ilk_of w' k = Some x') (Ho : only k w w').

Lemma slot_change k' k1 k2 idx :
  slot_of w' k' k1 k2 idx = if decide (k' = k) then xslot x' k1 k2 idx else slot_of w k' k1 k2 idx.
Proof using Hx' Ho.
  unfold slot_of. destruct (decide (k' = k)) as [->|Hne]; [by rewrite Hx'|by rewrite Ho].
Qed.

Lemma tab_inv_change s : tab_inv w →
  il_access x' = il_access x → il_table x' ≠ TDangling → il_lock x' ≠ Destroyed → (w_time w ≤ w_time w')%nat →
  (∀ k1 l, xl2 x' k1 = Some l → 0 ≤ k1 < 2 ^ 10 ∧ ∀ k2 pr, l !! k2 = Some pr → 0 ≤ k2 < 2 ^ 11) →
  (∀ k1 k2 idx p, xslot x' k1 k2 idx = Some p → xslot x k1 k2 idx = Some p ∨
     p = Z.of_nat (w_time w) ∧ (k1, k2, idx) = s ∧ region_ok w' k k1 k2 idx p) →
  (∀ k k1 k2 idx p, region_ok w k k1 k2 idx p → region_ok w' k k1 k2 idx p) →
  (∀ p o, w_mrs w' !! p = Some o → p < Z.of_nat (w_time w')) → mem_ok w' → tab_inv w'.
Proof using Hx Hx' Ho.
  intros [Tx Tk Ts Ti Tf Tm] Ha Ht Hl Htime Hkeys Hslot Hreg Hfresh Hmem.
  assert (Hold : ∀ k' k1 k2 idx p, slot_of w' k' k1 k2 idx = Some p →
    slot_of w k' k1 k2 idx = Some p ∨ p = Z.of_nat (w_time w) ∧ k' = k ∧ (k1, k2, idx) = s ∧ region_ok w' k k1 k2 idx p).
  { intros k' k1 k2 idx p. rewrite slot_change. destruct (decide (k' = k)) as [->|]; [|by left].
    intros Hp. unfold slot_of. rewrite Hx. cbn. destruct (Hslot _ _ _ _ Hp) as [?|(? & ? & ?)]; [by left|by right]. }
  assert (Hlt : ∀ k' k1 k2 idx p, slot_of w k' k1 k2 idx = Some p → p < Z.of_nat (w_time w)).
  { intros k' k1 k2 idx p (m & Hm & _)%Ts. by eapply Tf. }
  constructor; try done.
  - intros k' y Hy. destruct (decide (k' = k)) as [->|Hne].
    + assert (y = x') as -> by congruence. destruct (Tx k x Hx) as (? & ? & ?). split; [congruence|done].
    + rewrite Ho in Hy by done. by apply Tx.
  - intros k' y k1 l Hy. destruct (decide (k' = k)) as [->|Hne].
    + assert (y = x') as -> by congruence. apply Hkeys.
    + rewrite Ho in Hy by done. by apply (Tk k').
  - intros k' k1 k2 idx p Hp. destruct (Hold _ _ _ _ _ Hp) as [Hp'|(_ & -> & _ & ?)]; [|done]. by apply Hreg, Ts.
  - intros k' k1 k2 idx k'' k1' k2' idx' p Hp Hp'.
    destruct (Hold _ _ _ _ _ Hp) as [H1|(-> & -> & <- & _)], (Hold _ _ _ _ _ Hp') as [H2|(? & -> & E & _)].
    + by eapply Ti.
    + apply Hlt in H1. lia.
    + apply Hlt in H2. lia.
    + by injection E as -> -> ->.
Qed.

(** The memory, if the table keeps its shape. *)
Lemma mem_ok_same : w_mem w' = w_mem w → (xlive x' ↔ xlive x) →
  (∀ k1, is_Some (xl2 x' k1) ↔ is_Some (xl2 x k1)) → mem_ok w → mem_ok w'.
Proof using Hx Hx' Ho.
  unfold mem_ok. intros -> Hl H2 (HN & Ht & Hs). split; [done|].
  split; [intros k'; rewrite Ht|intros k' k1; rewrite Hs]; (destruct (decide (k' = k)) as [->|Hne]; [|by rewrite Ho]);
    rewrite Hx, Hx'.
  - naive_solver.
  - specialize (H2 k1). unfold is_Some in H2. naive_solver.
Qed.

Lemma mem_ok_table : w_mem w' = MemTable k :: w_mem w → ¬ xlive x → xlive x' →
  (∀ k1, xl2 x' k1 = None) → mem_ok w → mem_ok w'.
Proof using Hx Hx' Ho.
  unfold mem_ok. intros -> Hn Hl H2 (HN & Ht & Hs). split; [|split].
  - apply list.NoDup_cons. split; [|done]. rewrite Ht. intros (y & Hy & ?). congruence.
  - intros k'. rewrite elem_of_cons, Ht. destruct (decide (k' = k)) as [->|Hne]; [rewrite Hx, Hx'|rewrite Ho by done]; naive_solver.
  - intros k' k1. rewrite elem_of_cons, Hs. destruct (decide (k' = k)) as [->|Hne]; [|rewrite Ho by done; naive_solver].
    assert (xl2 x k1 = None) by (unfold xl2, xlive in *; by destruct (il_table x)).
    rewrite Hx, Hx'. specialize (H2 k1). naive_solver.
Qed.

Lemma mem_ok_level2 k1 : w_mem w' = MemLevel2 k k1 :: w_mem w → xlive x → xlive x' → xl2 x k1 = None →
  (∀ k1', is_Some (xl2 x' k1') ↔ k1' = k1 ∨ is_Some (xl2 x k1')) → mem_ok w → mem_ok w'.
Proof using Hx Hx' Ho.
  unfold mem_ok. intros -> Hl Hl' H0 H2 (HN & Ht & Hs). split; [|split].
  - apply list.NoDup_cons. split; [|done]. rewrite Hs. intros (y & l & Hy & ?). congruence.
  - intros k'. rewrite elem_of_cons, Ht. destruct (decide (k' = k)) as [->|Hne]; [rewrite Hx, Hx'|rewrite Ho by done]; naive_solver.
  - intros k' k1'. rewrite elem_of_cons, Hs. destruct (decide (k' = k)) as [->|Hne]; [|rewrite Ho by done; naive_solver].
    rewrite Hx, Hx'. specialize (H2 k1'). unfold is_Some in H2. naive_solver.
Qed.
End Change.

(** Time has passed, and nothing else. *)
Definition later (w w' : mr_world) : Prop :=
  w_pd w' = w_pd w ∧ w_mrs w' = w_mrs w ∧ w_evs w' = w_evs w ∧ w_mem w' = w_mem w ∧ (w_time w ≤ w_time w')%nat.

(** A region was registered: [w1] differs from [w] by it. *)
Record region_added (w w1 : mr_world) (k : ilk) (base : Z) (m : mlx5_mr) : Prop := {
  ra_pd : w_pd w1 = w_pd w;
  ra_mem : w_mem w1 = w_mem w;
  ra_time : (w_time w < w_time w1)%nat;
  ra_mrs : w_mrs w1 = <[Z.of_nat (w_time w) := ObjMr m]> (w_mrs w);
  ra_evs : w_evs w1 = w_evs w ++ [MevReg (Z.of_nat (w_time w)) (access_of k) base (2 ^ 28) (mr_lkey m)];
  ra_mr : mr_addr m = base ∧ mr_length m = 2 ^ 28 ∧ mr_no_rdma m = false ∧ mr_allocated m = false ∧
    mr_lkey m ≠ ODP_GLOBAL_R_LKEY ∧ mr_lkey m ≠ ODP_GLOBAL_W_LKEY
}.

(** A region is registered for a table, or time has passed. *)
Lemma reg_for_table_spec e k base w : mr_laws e →
  let r := reg_for_table e (RegIn base (Z.shiftl 1 MR_SIZE) (access_of k) false false) w in
  (∃ w', r = Ok (None, w') ∧ later w w') ∨
  (∃ m w', r = Ok (Some (Z.of_nat (w_time w)), w') ∧ region_added w w' k base m).
Proof.
  intros [Hrange Hkeys]. cbv zeta. change (Z.shiftl 1 MR_SIZE) with (2 ^ 28).
  unfold reg_for_table, ibv_exp_reg_mr_with, exp_reg_mr_with. cbn [in_bad_mask in_access in_addr in_length].
  replace (acc_reserved (access_of k)) with false by (by destruct k).
  replace (acc_relaxed (access_of k)) with false by (by destruct k).
  replace (2 ^ 28 =? MLX5_WHOLE_ADDR_SPACE) with false by done.
  rewrite andb_false_r, andb_false_l, andb_false_r. cbn [orb].
  unfold reg_strict, eff_bind, tick, eff_ret, emit, get_obj, put_obj, set_mrs, free_mr_buf. cbn -[Z.pow].
  destruct (me_alloc e (w_time w)); cbn -[Z.pow].
  2:{ left. eexists. split; [reflexivity|]. unfold later. cbn. repeat split; lia. }
  replace (acc_allocate_mr (access_of k)) with false by (by destruct k). rewrite andb_false_r. cbn -[Z.pow].
  destruct (me_reg e _ _ _ _) as [[[l r] h]|err] eqn:E; cbn -[Z.pow].
  - right. rewrite lookup_insert_eq. cbn -[Z.pow]. rewrite Hrange. cbn -[Z.pow].
    eexists (Mr base (2 ^ 28) h l r buf0 false false false (acc_on_demand (access_of k))), _.
    split; [reflexivity|]. apply Hkeys in E. constructor; cbn -[Z.pow]; try done; [lia|]. by rewrite insert_insert_eq.
  - left. eexists. split; [reflexivity|]. unfold later. cbn. repeat split; lia.
Qed.

(** ** Places in the code *)
Definition crit (pc : ilk_pc) : bool :=
  match pc with
  | PcTableAgain | PcTableStore | PcTableUnlock | PcLevel2Again | PcLevel2Store | PcLevel2Unlock
  | PcMrAgain | PcMrStore | PcMrRange | PcMrFlags | PcMrUnlock => true
  | _ => false
  end.
(** Steps that a call needs at most from here. *)
Definition rank (pc : ilk_pc) : nat :=
  match pc with
  | PcStart => 22
  | PcTable => 21 | PcTableLock => 20 | PcTableAgain => 19 | PcTableStore => 18 | PcTableUnlock => 17 | PcTableCheck => 16
  | PcLevel2 => 15 | PcLevel2Lock => 14 | PcLevel2Again => 13 | PcLevel2Store => 12 | PcLevel2Unlock => 11
  | PcLevel2Check => 10
  | PcMr => 9 | PcMrLock => 8 | PcMrAgain => 7 | PcMrStore => 6 | PcMrRange => 5 | PcMrFlags => 4 | PcMrUnlock => 3
  | PcMrCheck => 2
  | PcGet => 1
  | PcDone _ _ => 0
  end%nat.
Definition at_lock (pc : ilk_pc) : bool :=
  match pc with PcTableLock | PcLevel2Lock | PcMrLock => true | _ => false end.

Definition rq_ok (rq : ilk_req) : Prop := user_addr (rq_addr rq) ∧ 0 ≤ rq_len rq < 2 ^ 63.
Definition rq_valid (rq : ilk_req) : Prop := rq_len rq < 2 ^ 28.
Definition rq_l2 (x : mlx5_implicit_lkey) (rq : ilk_req) : option (gmap Z mlx5_pair_mrs) := xl2 x (key1 (rq_addr rq)).
Definition rq_slot (x : mlx5_implicit_lkey) (rq : ilk_req) : option Z :=
  xslot x (key1 (rq_addr rq)) (key2 (rq_addr rq)) (mr_idx_in_pair (rq_addr rq) (rq_len rq)).

(** What a call has returned. *)
Inductive returned (x : mlx5_implicit_lkey) (rq : ilk_req) : Z → option Z → Prop :=
| RetMr p : rq_valid rq → fits (rq_addr rq) (rq_len rq) → rq_slot x rq = Some p → returned x rq 0 (Some p)
| RetLarge : ¬ rq_valid rq → returned x rq EINVAL None
| RetNoMem : rq_valid rq → returned x rq ENOMEM None.

(** What a call knows of its table at its place. *)
Definition phase (x : mlx5_implicit_lkey) (rq : ilk_req) (pc : ilk_pc) : Prop :=
  match pc with
  | PcStart => True
  | PcTable | PcTableLock | PcTableAgain | PcTableUnlock | PcTableCheck => rq_valid rq
  | PcTableStore => rq_valid rq ∧ il_table x = TNull
  | PcLevel2 | PcLevel2Lock | PcLevel2Again | PcLevel2Unlock | PcLevel2Check => rq_valid rq ∧ xlive x
  | PcLevel2Store => rq_valid rq ∧ xlive x ∧ rq_l2 x rq = None
  | PcMr | PcMrLock | PcMrAgain | PcMrFlags | PcMrUnlock | PcMrCheck => rq_valid rq ∧ is_Some (rq_l2 x rq)
  | PcMrStore => rq_valid rq ∧ is_Some (rq_l2 x rq) ∧ rq_slot x rq = None
  | PcMrRange | PcGet => rq_valid rq ∧ is_Some (rq_slot x rq)
  | PcDone ret mr => returned x rq ret mr
  end.

(** Tables grow. *)
Record xle (x x' : mlx5_implicit_lkey) : Prop := {
  xle_live : xlive x → xlive x';
  xle_l2 : ∀ k1, is_Some (xl2 x k1) → is_Some (xl2 x' k1);
  xle_slot : ∀ k1 k2 idx p, xslot x k1 k2 idx = Some p → xslot x' k1 k2 idx = Some p
}.
#[export] Instance xle_preorder : PreOrder xle.
Proof. split; [done|]. intros x y z [] []. constructor; auto. Qed.

(** What is known stays true when the table grows, outside of the steps that
    need the lock, and everything does if it stays the same. *)
Lemma phase_mono x x' rq pc : xle x x' → (crit pc = false ∨ il_table x' = il_table x) → phase x rq pc → phase x' rq pc.
Proof.
  intros [H1 H2 H3] [Hc|He].
  - assert (Hs : is_Some (rq_slot x rq) → is_Some (rq_slot x' rq)) by (intros [p Hp]; exists p; by apply H3).
    destruct pc; try discriminate; cbn; try done; try (intros [? ?]; split; [done|]; by (auto || apply H2)).
    intros []; constructor; auto. by apply H3.
  - assert (Hl : xlive x' ↔ xlive x) by (unfold xlive; by rewrite He).
    assert (H4 : rq_l2 x' rq = rq_l2 x rq) by (unfold rq_l2, xl2; by rewrite He).
    assert (H5 : rq_slot x' rq = rq_slot x rq) by (unfold rq_slot, xslot, xl2; by rewrite He).
    destruct pc; cbn; rewrite ?Hl, ?H4, ?H5, ?He; try done.
    intros []; constructor; congruence.
Qed.

Definition lock_change (c c' : bool) (l l' : mutex) : Prop :=
  match c, c' with
  | false, true => l = Unlocked ∧ l' = Locked
  | true, false => l' = Unlocked
  | _, _ => l' = l
  end.

(** ** One step *)
Record stepped (w : mr_world) (rq : ilk_req) (x : mlx5_implicit_lkey) (pc pc' : ilk_pc) (w' : mr_world)
    (x' : mlx5_implicit_lkey) : Prop := {
  sd_tab : tab_inv w';
  sd_reg : reg_inv w → reg_inv w';
  sd_x : ilk_of w' (rq_ilk rq) = Some x';
  sd_only : only (rq_ilk rq) w w';
  sd_le : xle x x';
  sd_phase : phase x' rq pc';
  sd_table : crit pc = false → il_table x' = il_table x;
  sd_lock : lock_change (crit pc) (crit pc') (il_lock x) (il_lock x');
  sd_rank : (rank pc' < rank pc)%nat
}.

Lemma reg_inv_quiet w w' : regs w' = regs w → dom (w_mrs w') = dom (w_mrs w) →
  (∀ k k1 k2 idx p, slot_of w k k1 k2 idx = Some p → slot_of w' k k1 k2 idx = Some p) → reg_inv w → reg_inv w'.
Proof.
  intros E Ed Hs [Hn Hr Ha]. constructor; rewrite ?E; [done|naive_solver|].
  intros p o Hp. assert (is_Some (w_mrs w !! p)) as [o' Ho'].
  { apply elem_of_dom. rewrite <-Ed. by apply elem_of_dom_2 in Hp. }
  naive_solver.
Qed.

(** The table keeps its regions; [w2] is the world before the table is
    stored. *)
Lemma grow_change w w2 k x x' : tab_inv w → ilk_of w k = Some x →
  w_pd w2 = w_pd w → w_evs w2 = w_evs w → dom (w_mrs w2) = dom (w_mrs w) → (w_time w ≤ w_time w2)%nat →
  (∀ k k1 k2 idx p, region_ok w k k1 k2 idx p → region_ok w2 k k1 k2 idx p) →
  il_access x' = il_access x → il_table x' ≠ TDangling → il_lock x' ≠ Destroyed →
  (∀ k1 l, xl2 x' k1 = Some l → 0 ≤ k1 < 2 ^ 10 ∧ ∀ k2 pr, l !! k2 = Some pr → 0 ≤ k2 < 2 ^ 11) →
  (∀ k1 k2 idx, xslot x' k1 k2 idx = xslot x k1 k2 idx) →
  let w' := upd w2 k x' in
  (ilk_of w' k = Some x' → only k w w' → mem_ok w') →
  tab_inv w' ∧ (reg_inv w → reg_inv w') ∧ ilk_of w' k = Some x' ∧ only k w w'.
Proof.
  intros HT Hx Hpd He Hm Ht Hreg Ha Hd Hlk Hkeys Hs w' Hmem. subst w'.
  assert (Hx2 : ilk_of w2 k = Some x) by (by rewrite (ilk_of_pd w)).
  destruct (upd_fields w2 k x') as (F1 & F2 & F3 & F4).
  assert (Hx' : ilk_of (upd w2 k x') k = Some x') by (by rewrite (ilk_of_upd w2 k x), decide_True).
  assert (Ho : only k w (upd w2 k x')).
  { intros k' Hne. rewrite (ilk_of_upd w2 k x), decide_False by done. by apply ilk_of_pd. }
  split; [|split; [|done]].
  - apply (tab_inv_change w (upd w2 k x') k x x' Hx Hx' Ho (0, 0, false)); rewrite ?F1, ?F3; auto.
    + intros k1 k2 idx p. rewrite Hs. by left.
    + intros k' k1 k2 idx p H%Hreg. unfold region_ok. by rewrite F1, F2.
    + intros p o Hp. apply elem_of_dom_2 in Hp. rewrite Hm in Hp. apply elem_of_dom in Hp as [o' Hp].
      pose proof (ti_fresh _ HT p o' Hp). lia.
  - apply reg_inv_quiet; [unfold regs; congruence|congruence|]. intros k' k1 k2 idx p.
    rewrite (slot_change w (upd w2 k x') k x' Hx' Ho). destruct (decide (k' = k)) as [->|]; [|done].
    rewrite Hs. unfold slot_of. by rewrite Hx.
Qed.

(** The table also keeps its shape; time may pass. *)
Lemma quiet_change w w1 k x x' : tab_inv w → ilk_of w k = Some x → later w w1 →
  il_access x' = il_access x → il_table x' ≠ TDangling → il_lock x' ≠ Destroyed →
  (∀ k1 l, xl2 x' k1 = Some l → 0 ≤ k1 < 2 ^ 10 ∧ ∀ k2 pr, l !! k2 = Some pr → 0 ≤ k2 < 2 ^ 11) →
  (∀ k1 k2 idx, xslot x' k1 k2 idx = xslot x k1 k2 idx) → (xlive x' ↔ xlive x) →
  (∀ k1, is_Some (xl2 x' k1) ↔ is_Some (xl2 x k1)) →
  let w' := upd w1 k x' in tab_inv w' ∧ (reg_inv w → reg_inv w') ∧ ilk_of w' k = Some x' ∧ only k w w' ∧ xle x x'.
Proof.
  intros HT Hx (Hpd & Hm & He & Hmem & Ht) Ha Hd Hlk Hkeys Hs Hl H2. cbv zeta.
  destruct (grow_change w w1 k x x') as (? & ? & ? & ?); auto; [congruence|unfold region_ok; by rewrite Hm, He| |].
  - intros Hx' Ho. apply (mem_ok_same w _ k x x'); auto; [|apply (ti_mem _ HT)].
    destruct (upd_fields w1 k x') as (_ & _ & _ & ->). done.
  - do 4 (split; [done|]). constructor; [naive_solver|naive_solver|]. intros k1 k2 idx p. by rewrite Hs.
Qed.

(** A region that was registered is stored in an empty place. *)
Section NewRegion.
Context (w w1 : mr_world) (k : ilk) (x x' : mlx5_implicit_lkey) (k1 k2 : Z) (idx : bool) (m : mlx5_mr).
Context (HT : tab_inv w) (Hx : ilk_of w k = Some x) (Hn : xslot x k1 k2 idx = None).
Context (Hra : region_added w w1 k (region_base k1 k2 idx) m).
Context (Hs : ∀ a b i, xslot x' a b i =
  if decide ((a, b, i) = (k1, k2, idx)) then Some (Z.of_nat (w_time w)) else xslot x a b i).
Local Abbreviation p := (Z.of_nat (w_time w)).
Local Abbreviation w' := (upd w1 k x').

Lemma new_x : ilk_of w' k = Some x' ∧ only k w w' ∧ w_mrs w !! p = None.
Proof using HT Hx Hra.
  assert (Hx1 : ilk_of w1 k = Some x) by (rewrite (ilk_of_pd w); [done|apply Hra]).
  split; [by rewrite (ilk_of_upd w1 _ x), decide_True|]. split.
  - intros k' Hne. rewrite (ilk_of_upd w1 _ x), decide_False by done. apply ilk_of_pd, Hra.
  - destruct (w_mrs w !! p) as [o|] eqn:Eo; [|done]. apply (ti_fresh _ HT) in Eo. lia.
Qed.

Lemma new_tab : il_access x' = il_access x → il_table x' ≠ TDangling → il_lock x' ≠ Destroyed → xlive x → xlive x' →
  (∀ a, is_Some (xl2 x' a) ↔ is_Some (xl2 x a)) →
  (∀ a l, xl2 x' a = Some l → 0 ≤ a < 2 ^ 10 ∧ ∀ b pr, l !! b = Some pr → 0 ≤ b < 2 ^ 11) → tab_inv w'.
Proof using HT Hx Hra Hs.
  intros Ha Hd Hk Hl Hl' H2 Hkeys. destruct new_x as (Hx' & Ho & Hpn).
  destruct (upd_fields w1 k x') as (F1 & F2 & F3 & F4). destruct Hra as [_ Hmem Ht Hmrs Hev Hm].
  apply (tab_inv_change w w' k x x' Hx Hx' Ho (k1, k2, idx)); rewrite ?F1, ?F3, ?Hmrs; auto; try congruence; [lia|..].
  - intros a b i q. rewrite Hs. destruct (decide _) as [[= -> -> ->]|]; [|by left]. intros [= <-]. right.
    split; [done|]. split; [done|]. exists m. rewrite F1, F2, Hmrs, Hev, lookup_insert_eq.
    destruct Hm as (? & ? & ? & ? & ? & ?). do 7 (split; [done|]). apply elem_of_app. right. by apply list_elem_of_singleton.
  - intros k' a b i q (m' & Hq & Hm'). exists m'. rewrite F1, F2, Hmrs, Hev, lookup_insert_ne by congruence.
    split; [done|]. destruct Hm' as (? & ? & ? & ? & ? & ? & ?). do 6 (split; [done|]). apply elem_of_app. by left.
  - intros q o. destruct (decide (q = p)) as [->|Hne]; [lia|]. rewrite lookup_insert_ne by done.
    intros Hq%(ti_fresh _ HT). lia.
  - by apply (mem_ok_same w w' k x x' Hx Hx' Ho); [congruence| | |apply (ti_mem _ HT)].
Qed.

Lemma new_le : xlive x' → (∀ a, is_Some (xl2 x' a) ↔ is_Some (xl2 x a)) → xle x x'.
Proof using Hn Hs.
  intros Hl H2. constructor; [done|intros a; apply H2|]. intros a b i q Hq. rewrite Hs.
  destruct (decide _) as [[= -> -> ->]|]; [congruence|done].
Qed.

Lemma new_reg : xle x x' → reg_inv w → reg_inv w'.
Proof using HT Hx Hra Hs.
  intros Hle [Hnd Hri Hall]. destruct new_x as (Hx' & Ho & Hpn).
  destruct (upd_fields w1 k x') as (F1 & F2 & F3 & F4). destruct Hra as [_ Hmem Ht Hmrs Hev _].
  assert (Hr : regs w' = regs w ++ [(p, (access_of k, region_base k1 k2 idx))]).
  { unfold regs. rewrite F2, Hev. by rewrite omap_app. }
  assert (Hsp : slot_of w' k k1 k2 idx = Some p) by (unfold slot_of; rewrite Hx'; cbn; by rewrite Hs, decide_True).
  assert (Hold : ∀ k' a b i q, slot_of w k' a b i = Some q → slot_of w' k' a b i = Some q).
  { intros k' a b i q. rewrite (slot_change w w' k x' Hx' Ho). destruct (decide _) as [->|]; [|done].
    unfold slot_of. rewrite Hx. apply Hle. }
  constructor; rewrite ?Hr.
  - rewrite fmap_app. cbn. apply list.NoDup_app. split; [done|]. split; [|apply NoDup_singleton].
    intros q Hq Hq'. apply list_elem_of_singleton in Hq' as ->. apply list_elem_of_fmap in Hq as ([q [a b]] & Eq & Hq).
    destruct (Hri q a b Hq) as (k' & ? & ? & ? & Hsl & _). destruct (ti_slot _ HT _ _ _ _ _ Hsl) as (? & Hm & _).
    cbn in Eq. congruence.
  - intros q a b [Hq|Hq]%elem_of_app; [by destruct (Hri q a b Hq) as (k' & ? & ? & ? & ? & ? & ?); naive_solver|].
    apply list_elem_of_singleton in Hq. injection Hq as -> -> ->. by eauto 10.
  - intros q o. rewrite F1, Hmrs. destruct (decide (q = p)) as [->|Hne]; [by eauto 10|].
    rewrite lookup_insert_ne by done. intros (k' & ? & ? & ? & Hsl)%Hall. by eauto 10.
Qed.
End NewRegion.

Lemma new_region w w1 k x l k1 k2 idx m : tab_inv w → ilk_of w k = Some x → xl2 x k1 = Some l →
  xslot x k1 k2 idx = None → 0 ≤ k2 < 2 ^ 11 → region_added w w1 k (region_base k1 k2 idx) m →
  let p := Z.of_nat (w_time w) in
  ∃ x', ilk_set_slot x k1 k2 idx (Some p) = Ok x' ∧ il_lock x' = il_lock x ∧ xslot x' k1 k2 idx = Some p ∧
    tab_inv (upd w1 k x') ∧ (reg_inv w → reg_inv (upd w1 k x')) ∧
    ilk_of (upd w1 k x') k = Some x' ∧ only k w (upd w1 k x') ∧ xle x x'.
Proof.
  intros HT Hx Hl Hn Hk2 Hra p. destruct (ti_x _ HT _ _ Hx) as (_ & _ & Hd).
  destruct (set_slot_ok x k1 k2 idx (Some p) l Hl) as (x' & E' & Ha' & Hk' & Hd' & Hl' & H2 & Hs & Hkeys).
  assert (Hle : xle x x') by (eapply (new_le w x x' k1 k2 idx); eauto).
  destruct (new_x w w1 k x x' k1 k2 idx m HT Hx Hra) as (Hx' & Ho & _).
  exists x'. do 2 (split; [done|]). split; [by rewrite Hs, decide_True|]. split; [|split; [|done]].
  - eapply (new_tab w w1 k x x' k1 k2 idx m); eauto; [congruence|by eapply xl2_live|].
    apply (set_slot_keys x x' k1 k2); try done. intros a n. apply (ti_keys _ HT k x); done.
  - by eapply (new_reg w w1 k x x' k1 k2 idx m).
Qed.

Lemma later_refl w : later w w.
Proof. by unfold later. Qed.

(** A step that only reads. *)
Lemma stepped_read w rq x pc pc' : tab_inv w → ilk_of w (rq_ilk rq) = Some x → phase x rq pc' →
  crit pc' = crit pc → (rank pc' < rank pc)%nat → stepped w rq x pc pc' w x.
Proof.
  intros. constructor; try done. by rewrite H2; unfold lock_change; destruct (crit pc).
Qed.

(** A step that takes or gives back the lock. *)
Lemma stepped_lock w rq x pc pc' l : tab_inv w → ilk_of w (rq_ilk rq) = Some x → l ≠ Destroyed →
  phase (Ilkey (il_table x) (il_access x) l) rq pc' → lock_change (crit pc) (crit pc') (il_lock x) l →
  (rank pc' < rank pc)%nat →
  stepped w rq x pc pc' (upd w (rq_ilk rq) (Ilkey (il_table x) (il_access x) l)) (Ilkey (il_table x) (il_access x) l).
Proof.
  intros HT Hx Hl Hp Hc Hr. destruct (ti_x _ HT _ _ Hx) as (Ha & Hd & _).
  destruct (quiet_change w w (rq_ilk rq) x (Ilkey (il_table x) (il_access x) l)) as (? & ? & ? & ? & ?); try done.
  intros k1 l' Hl'. by apply (ti_keys _ HT (rq_ilk rq) x).
Qed.

Lemma upd_id w k x : ilk_of w k = Some x → upd w k x = w.
Proof.
  unfold ilk_of, upd. destruct w as [t n m [pd|] l v]; [|done]. cbn. unfold set_pd. cbn. intros H.
  destruct pd, k; cbn in *; congruence.
Qed.

(** A step that writes to a region of a table, fields other than the ones
    that tell what it is. *)
Lemma stepped_touch w rq x pc pc' p m m' : tab_inv w → ilk_of w (rq_ilk rq) = Some x → w_mrs w !! p = Some (ObjMr m) →
  (mr_addr m', mr_length m', mr_no_rdma m', mr_allocated m', mr_lkey m') =
  (mr_addr m, mr_length m, mr_no_rdma m, mr_allocated m, mr_lkey m) →
  phase x rq pc' → crit pc' = crit pc → (rank pc' < rank pc)%nat →
  stepped w rq x pc pc' (set_mrs w (<[p := ObjMr m']> (w_mrs w))) x.
Proof.
  intros HT Hx Hm E Hp Hc Hr. injection E as E1 E2 E3 E4 E5. set (w2 := set_mrs w _).
  assert (Hx2 : ilk_of w2 (rq_ilk rq) = Some x) by (by rewrite (ilk_of_pd w)).
  destruct (ti_x _ HT _ _ Hx) as (Ha & Hd & Hk).
  destruct (grow_change w w2 (rq_ilk rq) x x) as (H1 & H2 & H3 & H4); try done.
  - cbn. rewrite dom_insert_L. apply elem_of_dom_2 in Hm. set_solver.
  - intros k k1 k2 idx q (n & Hn & ? & ? & ? & ? & ? & ? & ?). unfold region_ok. cbn [w2 set_mrs w_mrs w_evs].
    destruct (decide (q = p)) as [->|Hne].
    + rewrite lookup_insert_eq. exists m'. assert (n = m) as -> by congruence. rewrite E1, E2, E3, E4, E5. done.
    + rewrite lookup_insert_ne by done. by exists n.
  - intros k1 l. by apply (ti_keys _ HT (rq_ilk rq) x).
  - intros _ _. rewrite upd_id by done. apply (mem_ok_same w w2 (rq_ilk rq) x x); try done. apply (ti_mem _ HT).
  - rewrite upd_id in H1, H2, H3, H4 by done. constructor; try done. rewrite Hc. by destruct (crit pc).
Qed.

Lemma bind_run {A B} (m : mreff A) (f : A → mreff B) w a w' : m w = Ok (a, w') → eff_bind m f w = f a w'.
Proof. intros E. unfold eff_bind. by rewrite E. Qed.

Definition next_time (w : mr_world) : mr_world :=
  MrWorld (S (w_time w)) (w_errno w) (w_mrs w) (w_pd w) (w_mem w) (w_evs w).
Lemma malloc_run e w : malloc e w = Ok (me_alloc e (w_time w), next_time w).
Proof. done. Qed.
Lemma later_next w : later w (next_time w).
Proof. unfold later, next_time. cbn. repeat split; lia. Qed.

Ltac step_eval := unfold eff_bind, eff_ret, eff_lift, malloc, tick, mem_acquire; cbn [res_bind fst snd].

(** The step goes on according to what it has read. *)
Ltac by_read :=
  eexists _, _, _; (split; [reflexivity|]);
  match goal with |- context [match ?v with _ => _ end] => destruct v eqn:E end;
  apply stepped_read; try done; try (cbn; lia).

Section StepSpec.
Context (e : mr_env) (He : mr_laws e).
Context (w : mr_world) (rq : ilk_req) (x : mlx5_implicit_lkey).
Context (HT : tab_inv w) (Hx : ilk_of w (rq_ilk rq) = Some x) (Hrq : rq_ok rq).

Definition step_to (pc : ilk_pc) : Prop :=
  ∃ pc' w' x', real_mr_step e rq pc w = Ok (pc', w') ∧ stepped w rq x pc pc' w' x'.

(** The steps that read. *)
Lemma read_steps pc : phase x rq pc →
  pc ∈ [PcStart; PcTable; PcTableAgain; PcTableCheck; PcLevel2; PcLevel2Again; PcLevel2Check; PcMr; PcMrAgain; PcMrCheck] →
  step_to pc.
Proof using HT Hx Hrq.
  intros Hp Hin. unfold step_to. destruct (ti_x _ HT _ _ Hx) as (_ & Hd & _).
  assert (Hnull : is_null (il_table x) = true ↔ il_table x = TNull) by (by destruct (il_table x)).
  assert (Hlive : is_null (il_table x) = false → xlive x) by (unfold xlive; by destruct (il_table x)).
  repeat (apply elem_of_cons in Hin as [->|Hin]); [..|by apply elem_of_nil in Hin]; cbn [phase] in Hp;
    cbn [real_mr_step]; step_eval; rewrite ?(get_ilk_ok w _ x Hx); cbn [res_bind fst snd].
  - destruct Hrq as [Ha Hl]. unfold user_addr in Ha. rewrite !Z.shiftr_div_pow2 by done.
    change MR_SIZE with 28. change ADDR_EFFECTIVE_BITS with 49. rewrite (Z.div_small (rq_addr rq)) by lia. cbn [Z.eqb negb andb].
    destruct (Z.eqb_spec (rq_len rq / 2 ^ 28) 0) as [E|E]; cbn [negb]; eexists _, _, _; (split; [reflexivity|]);
      apply stepped_read; try done; try (cbn; lia).
    + cbn. unfold rq_valid. apply Z.div_small_iff in E; lia.
    + constructor. unfold rq_valid. intros ?. apply E, Z.div_small. lia.
  - by_read.
    split; auto.
  - by_read.
    split; [done|]. by apply Hnull.
  - by_read.
    + by constructor.
    + split; auto.
  - destruct Hp as [Hv Hl]. rewrite ilk_level2_ok by done. cbn [res_bind fst snd].
    by_read.
  - destruct Hp as [Hv Hl]. rewrite ilk_level2_ok by done. cbn [res_bind fst snd].
    by_read.
  - destruct Hp as [Hv Hl]. rewrite ilk_level2_ok by done. cbn [res_bind fst snd].
    by_read.
    by constructor.
  - destruct Hp as [Hv [l Hl]]. rewrite (ilk_slot_ok x _ _ _ l Hl). cbn [res_bind fst snd].
    by_read.
  - destruct Hp as [Hv [l Hl]]. rewrite (ilk_slot_ok x _ _ _ l Hl). cbn [res_bind fst snd].
    by_read.
  - destruct Hp as [Hv [l Hl]]. rewrite (ilk_slot_ok x _ _ _ l Hl). cbn [res_bind fst snd].
    by_read.
    by constructor.
Qed.

(** Lock and unlock. *)
Lemma lock_steps pc : phase x rq pc → at_lock pc = true →
  step_to pc ∨ il_lock x = Locked ∧ real_mr_step e rq pc w = Fault Stuck.
Proof using HT Hx.
  intros Hp Hl. destruct (ti_x _ HT _ _ Hx) as (_ & _ & Hd).
  destruct (il_lock x) eqn:El; [left|right|done].
  - unfold step_to. destruct pc; try discriminate; cbn [real_mr_step]; unfold ilk_lock; step_eval;
      rewrite (get_ilk_ok w _ x Hx); cbn [res_bind fst snd]; rewrite El, (put_ilk_ok w _ x _ Hx); cbn [res_bind fst snd];
      eexists _, _, _; (split; [reflexivity|]); apply stepped_lock; try done; cbn; lia.
  - split; [done|]. destruct pc; try discriminate; cbn [real_mr_step]; unfold ilk_lock; step_eval;
      rewrite (get_ilk_ok w _ x Hx); cbn [res_bind fst snd]; by rewrite El.
Qed.

Lemma unlock_steps pc : phase x rq pc → pc ∈ [PcTableUnlock; PcLevel2Unlock; PcMrUnlock] → step_to pc.
Proof using HT Hx.
  intros Hp Hin. unfold step_to.
  repeat (apply elem_of_cons in Hin as [->|Hin]); [..|by apply elem_of_nil in Hin];
    cbn [real_mr_step]; unfold ilk_unlock; step_eval; rewrite (get_ilk_ok w _ x Hx); cbn [res_bind fst snd];
    rewrite (put_ilk_ok w _ x _ Hx); cbn [res_bind fst snd];
    eexists _, _, _; (split; [reflexivity|]); apply stepped_lock; try done; cbn; lia.
Qed.

(** The table is allocated. *)
Lemma table_store : phase x rq PcTableStore → step_to PcTableStore.
Proof using HT Hx.
  intros [Hv Hn]. unfold step_to. destruct (ti_x _ HT _ _ Hx) as (Ha & _ & Hd).
  assert (Hnl : ¬ xlive x) by (unfold xlive; rewrite Hn; by intros []).
  assert (Hn2 : ∀ k1, xl2 x k1 = None) by (intros k1; unfold xl2; by rewrite Hn).
  set (w1 := next_time w).
  assert (Hx1 : ilk_of w1 (rq_ilk rq) = Some x) by (by rewrite (ilk_of_pd w)).
  cbn [real_mr_step]. rewrite (bind_run _ _ _ _ w1 (malloc_run e w)), (bind_run _ _ _ _ _ (get_ilk_ok w1 _ x Hx1)).
  destruct (me_alloc e (w_time w)); step_eval.
  - set (w2 := set_mem w1 (MemTable (rq_ilk rq) :: w_mem w)).
    assert (Hx2 : ilk_of w2 (rq_ilk rq) = Some x) by (by rewrite (ilk_of_pd w)).
    change (set_mem w1 _) with w2. rewrite (put_ilk_ok w2 _ x _ Hx2). cbn [res_bind fst snd].
    set (x' := ilk_set_table x (TLive ∅)).
    assert (Hsl : ∀ k1 k2 idx, xslot x' k1 k2 idx = xslot x k1 k2 idx).
    { intros k1 k2 idx. unfold xslot. by rewrite Hn2. }
    destruct (grow_change w w2 (rq_ilk rq) x x') as (? & ? & ? & ?); try done; [cbn; lia| |].
    + intros Hx' Ho. apply (mem_ok_table w _ (rq_ilk rq) x x' Hx Hx' Ho); try done; [|apply (ti_mem _ HT)].
      by destruct (upd_fields w2 (rq_ilk rq) x') as (_ & _ & _ & ->).
    + eexists _, _, x'. split; [reflexivity|]. constructor; try done; [|cbn; lia].
      constructor; [done|by intros k1; rewrite Hn2; intros []|]. intros k1 k2 idx p. by rewrite Hsl.
  - rewrite (put_ilk_ok w1 _ x _ Hx1). cbn [res_bind fst snd].
    destruct (quiet_change w w1 (rq_ilk rq) x (ilk_set_table x TNull)) as (? & ? & ? & ? & ?); try done.
    + apply later_next.
    + intros k1 k2 idx. unfold xslot. by rewrite Hn2.
    + intros k1. by rewrite Hn2.
    + eexists _, _, _. split; [reflexivity|]. constructor; try done. cbn. lia.
Qed.

(** A second level is allocated. *)
Lemma level2_store : phase x rq PcLevel2Store → step_to PcLevel2Store.
Proof using HT Hx Hrq.
  intros (Hv & Hl & Hn). unfold step_to. destruct (ti_x _ HT _ _ Hx) as (Ha & _ & Hd).
  destruct (il_table x) as [|t|] eqn:Et; [unfold xlive in Hl; by rewrite Et in Hl| |unfold xlive in Hl; by rewrite Et in Hl].
  unfold rq_l2, xl2 in Hn. rewrite Et in Hn. set (k1 := key1 (rq_addr rq)) in *.
  set (w1 := next_time w). assert (Hx1 : ilk_of w1 (rq_ilk rq) = Some x) by (by rewrite (ilk_of_pd w)).
  cbn [real_mr_step]. rewrite (bind_run _ _ _ _ w1 (malloc_run e w)), (bind_run _ _ _ _ _ (get_ilk_ok w1 _ x Hx1)).
  unfold ilk_set_level2. rewrite Et. fold k1. destruct (me_alloc e (w_time w)); step_eval.
  - set (w2 := set_mem w1 (MemLevel2 (rq_ilk rq) k1 :: w_mem w)).
    assert (Hx2 : ilk_of w2 (rq_ilk rq) = Some x) by (by rewrite (ilk_of_pd w)).
    change (set_mem w1 _) with w2. rewrite (put_ilk_ok w2 _ x _ Hx2). cbn [res_bind fst snd].
    set (x' := ilk_set_table x _).
    assert (Hl2 : ∀ k1', xl2 x' k1' = if decide (k1' = k1) then Some ∅ else xl2 x k1').
    { intros k1'. unfold x', xl2. cbn. rewrite Et. destruct (decide (k1' = k1)) as [->|].
      - by rewrite lookup_partial_alter_eq.
      - by rewrite lookup_partial_alter_ne. }
    assert (Hn' : xl2 x k1 = None) by (unfold xl2; by rewrite Et).
    assert (Hsl : ∀ k1 k2 idx, xslot x' k1 k2 idx = xslot x k1 k2 idx).
    { intros k1' k2 idx. unfold xslot. rewrite Hl2. destruct (decide (k1' = k1)) as [->|]; [rewrite Hn'; cbn; unfold lslot; rewrite lookup_empty; by destruct idx|done]. }
    assert (H2 : ∀ k1', is_Some (xl2 x' k1') ↔ k1' = k1 ∨ is_Some (xl2 x k1')).
    { intros k1'. rewrite Hl2. destruct (decide (k1' = k1)) as [->|];
        [split; [by left|by eexists]|split; [by right|by intros [?|?]]]. }
    destruct (grow_change w w2 (rq_ilk rq) x x') as (? & ? & ? & ?); try done; [cbn; lia| | |].
    + intros k1' l. rewrite Hl2. destruct (decide (k1' = k1)) as [->|]; [|by apply (ti_keys _ HT (rq_ilk rq) x)].
      intros [= <-]. destruct (key1_eq (rq_addr rq) (proj1 Hrq)) as [_ ?]. fold k1 in H. split; [lia|done].
    + intros Hx' Ho. apply (mem_ok_level2 w _ (rq_ilk rq) x x' Hx Hx' Ho k1); try done; [|apply (ti_mem _ HT)].
      by destruct (upd_fields w2 (rq_ilk rq) x') as (_ & _ & _ & ->).
    + eexists _, _, x'. split; [reflexivity|]. constructor; try done; [|cbn; lia].
      constructor; [done|intros; apply H2; by right|]. intros k1' k2 idx p. by rewrite Hsl.
  - rewrite (put_ilk_ok w1 _ x _ Hx1). cbn [res_bind fst snd].
    change (partial_alter (λ _, None) k1 t) with (delete k1 t). rewrite delete_id by done.
    assert (Ex : ilk_set_table x (TLive t) = x) by (unfold ilk_set_table; rewrite <-Et; by destruct x).
    rewrite Ex. destruct (quiet_change w w1 (rq_ilk rq) x x) as (? & ? & ? & ? & ?); try done.
    + apply later_next.
    + by rewrite Et.
    + intros k1' l. by apply (ti_keys _ HT (rq_ilk rq) x).
    + eexists _, _, _. split; [reflexivity|]. constructor; try done. cbn. lia.
Qed.

Lemma valid_len : rq_valid rq → 0 ≤ rq_len rq < 2 ^ 28.
Proof using Hrq. unfold rq_valid. destruct Hrq as [_ ?]. lia. Qed.

Lemma rq_key2 : 0 ≤ key2 (rq_addr rq) < 2 ^ 11.
Proof using Hrq. apply key2_eq, Hrq. Qed.

(** A region is registered and stored. *)
Lemma mr_store : phase x rq PcMrStore → step_to PcMrStore.
Proof using HT Hx Hrq He.
  intros (Hv & [l Hl] & Hn). unfold step_to, rq_l2, rq_slot in *. destruct (ti_x _ HT _ _ Hx) as (Ha & _ & Hd).
  cbn [real_mr_step]. rewrite (bind_run _ _ _ _ _ (get_ilk_ok w _ x Hx)), Ha.
  rewrite (mr_base_eq _ _ (proj1 Hrq) (valid_len Hv)). pose proof rq_key2 as Hk2.
  set (k1 := key1 (rq_addr rq)) in *. set (k2 := key2 (rq_addr rq)) in *. set (idx := mr_idx_in_pair _ _) in *.
  destruct (reg_for_table_spec e (rq_ilk rq) (region_base k1 k2 idx) w He) as [(w1 & E & Hlat)|(m & w1 & E & Hra)];
    rewrite (bind_run _ _ _ _ _ E);
    assert (Hx1 : ilk_of w1 (rq_ilk rq) = Some x) by (rewrite (ilk_of_pd w); [done|apply Hlat || apply (ra_pd _ _ _ _ _ Hra)]);
    rewrite (bind_run _ _ _ _ _ (get_ilk_ok w1 _ x Hx1)).
  - destruct (set_slot_ok x k1 k2 idx None l Hl) as (x' & E' & Ha' & Hk' & Hd' & Hl' & H2 & Hs & Hkeys).
    step_eval. rewrite E'. cbn [res_bind fst snd]. rewrite (put_ilk_ok w1 _ x _ Hx1). cbn [res_bind fst snd].
    destruct (quiet_change w w1 (rq_ilk rq) x x') as (? & ? & ? & ? & ?); try done; [congruence| | | |].
    + apply (set_slot_keys x x' k1 k2); try done. intros a m. apply (ti_keys _ HT (rq_ilk rq) x); done.
    + intros a b i. rewrite Hs. destruct (decide _) as [[= -> -> ->]|]; [by rewrite Hn|done].
    + split; [|done]. intros _. by eapply xl2_live.
    + eexists _, _, x'. split; [reflexivity|]. constructor; try done; [|cbn; lia].
      split; [done|]. apply H2. by eexists.
  - destruct (new_region w w1 (rq_ilk rq) x l k1 k2 idx m HT Hx Hl Hn Hk2 Hra) as (x' & E' & Hk' & Hs & ? & ? & ? & ? & ?).
    step_eval. rewrite E'. cbn [res_bind fst snd]. rewrite (put_ilk_ok w1 _ x _ Hx1). cbn [res_bind fst snd].
    eexists _, _, x'. split; [reflexivity|]. constructor; try done. cbn. lia.
Qed.

Lemma rq_region p : rq_slot x rq = Some p →
  region_ok w (rq_ilk rq) (key1 (rq_addr rq)) (key2 (rq_addr rq)) (mr_idx_in_pair (rq_addr rq) (rq_len rq)) p.
Proof using HT Hx. intros Hp. apply (ti_slot _ HT). unfold slot_of. by rewrite Hx. Qed.

(** The fields of the region are set. *)
Lemma mr_touch_steps pc : phase x rq pc → pc ∈ [PcMrRange; PcMrFlags] → step_to pc.
Proof using HT Hx Hrq.
  intros Hp Hin. unfold step_to.
  assert (Hl2 : ∃ l, xl2 x (key1 (rq_addr rq)) = Some l).
  { repeat (apply elem_of_cons in Hin as [->|Hin]); [..|by apply elem_of_nil in Hin]; destruct Hp as [_ [y Hy]].
    - by eapply xslot_l2. - by exists y. }
  assert (Hv : rq_valid rq).
  { repeat (apply elem_of_cons in Hin as [->|Hin]); [..|by apply elem_of_nil in Hin]; apply Hp. }
  destruct Hl2 as [l Hl]. pose proof (ilk_slot_ok x _ (key2 (rq_addr rq)) (mr_idx_in_pair (rq_addr rq) (rq_len rq)) l Hl) as Hslot.
  repeat (apply elem_of_cons in Hin as [->|Hin]); [..|by apply elem_of_nil in Hin]; cbn [real_mr_step]; step_eval;
    rewrite (get_ilk_ok w _ x Hx); cbn [res_bind fst snd]; rewrite Hslot; cbn [res_bind fst snd].
  - destruct Hp as [_ [p Hp]]. pose proof Hp as Hp'. unfold rq_slot in Hp'. rewrite Hp'.
    destruct (rq_region p Hp) as (m & Hm & Ha & Hn & _). unfold get_obj. rewrite Hm. cbn [res_bind fst snd put_obj set_range].
    rewrite (mr_base_eq _ _ (proj1 Hrq) (valid_len Hv)), <-Ha. change (Z.shiftl 1 MR_SIZE) with (2 ^ 28). rewrite <-Hn.
    eexists _, _, x. split; [reflexivity|]. apply stepped_touch with (p := p) (m := m); try done; cbn; lia.
  - destruct Hp as [_ Hl']. destruct (xslot x _ _ _) as [p|] eqn:Hp; [|eexists _, w, x; split; [reflexivity|]; apply stepped_read; try done; cbn; lia].
    destruct (rq_region p Hp) as (m & Hm & _). unfold get_mmr, get_obj, eff_bind. rewrite Hm. cbn [res_bind fst snd put_obj eff_ret].
    eexists _, _, x. split; [reflexivity|]. apply stepped_touch with (p := p) (m := m); try done; cbn; lia.
Qed.

(** The region is returned, unless the assertion fails. *)
Lemma get_step : phase x rq PcGet →
  step_to PcGet ∨ ¬ fits (rq_addr rq) (rq_len rq) ∧ real_mr_step e rq PcGet w = Fault AssertFail.
Proof using HT Hx Hrq.
  intros [Hv [p Hp]]. destruct (xslot_l2 _ _ _ _ _ Hp) as [l Hl]. destruct (rq_region p Hp) as (m & Hm & Ha & Hn & _).
  pose proof (fits_spec _ _ (proj1 Hrq) (valid_len Hv)) as Hf. cbv zeta in Hf.
  rewrite (mr_base_eq _ _ (proj1 Hrq) (valid_len Hv)), <-Ha, <-Hn in Hf.
  unfold step_to. cbn [real_mr_step]; step_eval. rewrite (get_ilk_ok w _ x Hx). cbn [res_bind fst snd].
  rewrite (ilk_slot_ok x _ _ _ l Hl). cbn [res_bind fst snd]. pose proof Hp as Hp'. unfold rq_slot in Hp'. rewrite Hp'.
  unfold get_obj. rewrite Hm. cbn [res_bind fst snd obj_range].
  destruct ((mr_addr m <=? rq_addr rq) && (u64 (rq_addr rq + rq_len rq) <=? u64 (mr_addr m + mr_length m))) eqn:E.
  - left. eexists _, w, x. split; [reflexivity|]. apply stepped_read; try done; [|cbn; lia]. constructor; [done| |done]. by apply Hf.
  - right. split; [|done]. intros H%Hf. congruence.
Qed.

Lemma step_spec pc : phase x rq pc → (∀ ret mr, pc ≠ PcDone ret mr) →
  step_to pc ∨
  (at_lock pc = true ∧ il_lock x = Locked ∧ real_mr_step e rq pc w = Fault Stuck) ∨
  (pc = PcGet ∧ ¬ fits (rq_addr rq) (rq_len rq) ∧ real_mr_step e rq pc w = Fault AssertFail).
Proof using HT Hx Hrq He.
  intros Hp Hd.
  destruct pc; try (left; apply read_steps; [done|by repeat constructor]);
    try (left; apply unlock_steps; [done|by repeat constructor]); try (left; apply mr_touch_steps; [done|by repeat constructor]).
  - destruct (lock_steps PcTableLock Hp eq_refl) as [?|[? ?]]; [by left|right; by left].
  - left. by apply table_store.
  - destruct (lock_steps PcLevel2Lock Hp eq_refl) as [?|[? ?]]; [by left|right; by left].
  - left. by apply level2_store.
  - destruct (lock_steps PcMrLock Hp eq_refl) as [?|[? ?]]; [by left|right; by left].
  - left. by apply mr_store.
  - destruct (get_step Hp) as [?|[? ?]]; [by left|right; by right].
  - by destruct (Hd ret mr).
Qed.
End StepSpec.

(** ** The system *)
Abbreviation calls := (list (ilk_req * ilk_pc)).

(** A new call, by any thread, for memory of the program (addresses below
    2^48); or one step of a call.  No region is deregistered meanwhile, as
    [ibv_dereg_mr] of a shared region while lookups run is a race of the code
    (implicit_lkey.c, line 216), and addresses that are not canonical share
    table entries (line 161): both are outside of this system. *)
Inductive mr_sys (e : mr_env) : mr_world * calls → mr_world * calls → Prop :=
| SysCall w ts rq x : rq_ok rq → ilk_of w (rq_ilk rq) = Some x → mr_sys e (w, ts) (w, ts ++ [(rq, PcStart)])
| SysStep w ts i rq pc pc' w' : ts !! i = Some (rq, pc) → (∀ ret mr, pc ≠ PcDone ret mr) →
    real_mr_step e rq pc w = Ok (pc', w') → mr_sys e (w, ts) (w', <[i := (rq, pc')]> ts).

Definition call_inv (w : mr_world) (c : ilk_req * ilk_pc) : Prop :=
  rq_ok c.1 ∧ ∃ x, ilk_of w (rq_ilk c.1) = Some x ∧ phase x c.1 c.2.

Definition holds (k : ilk) (c : ilk_req * ilk_pc) : Prop := rq_ilk c.1 = k ∧ crit c.2 = true.
Record lock_inv (w : mr_world) (ts : calls) : Prop := {
  li_one : ∀ i j c d, ts !! i = Some c → ts !! j = Some d → rq_ilk c.1 = rq_ilk d.1 →
    crit c.2 = true → crit d.2 = true → i = j;
  li_held : ∀ k x, ilk_of w k = Some x → (il_lock x = Locked ↔ ∃ i c, ts !! i = Some c ∧ holds k c)
}.

Record sys_inv (st : mr_world * calls) : Prop := {
  si_tab : tab_inv st.1;
  si_reg : reg_inv st.1;
  si_calls : ∀ i c, st.2 !! i = Some c → call_inv st.1 c;
  si_lock : lock_inv st.1 st.2
}.

Lemma lock_inv_call w ts rq : lock_inv w ts → lock_inv w (ts ++ [(rq, PcStart)]).
Proof.
  intros [H1 H2]. constructor.
  - intros i j c d [?|[? <-]]%lookup_snoc_Some [?|[? <-]]%lookup_snoc_Some Hk Hc Hd; try discriminate. naive_solver.
  - intros k x Hx. rewrite (H2 k x Hx). split; intros (i & c & Hi & Hh).
    + exists i, c. split; [|done]. apply lookup_snoc_Some. left. split; [by eapply lookup_lt_Some|done].
    + apply lookup_snoc_Some in Hi as [[? ?]|[? <-]]; [by eauto|]. by destruct Hh.
Qed.

(** The lock after a step. *)
Lemma lock_inv_step w ts i rq pc pc' w' x x' : lock_inv w ts → ts !! i = Some (rq, pc) →
  ilk_of w (rq_ilk rq) = Some x → ilk_of w' (rq_ilk rq) = Some x' → only (rq_ilk rq) w w' →
  lock_change (crit pc) (crit pc') (il_lock x) (il_lock x') → lock_inv w' (<[i := (rq, pc')]> ts).
Proof.
  intros [H1 H2] Hi Hx Hx' Ho Hl. pose proof (lookup_lt_Some _ _ _ Hi) as Hlt.
  assert (Hfree : il_lock x = Unlocked → ∀ j c, ts !! j = Some c → ¬ holds (rq_ilk rq) c).
  { intros Hu j c Hj Hh. assert (il_lock x = Locked); [|congruence]. apply (H2 _ _ Hx). by eauto. }
  constructor.
  - intros a b c d Ha Hb Hk Hc Hd. apply list_lookup_insert_Some in Ha as [(<- & <- & _)|[Hna Ha]],
      Hb as [(<- & <- & _)|[Hnb Hb]]; cbn in *; try done.
    + exfalso. destruct (crit pc) eqn:Ec; [by apply Hnb, (H1 i b (rq, pc) d)|]. rewrite Hc in Hl. destruct Hl as [Hu _].
      by apply (Hfree Hu b d Hb).
    + exfalso. destruct (crit pc) eqn:Ec; [by apply Hna, (H1 i a (rq, pc) c)|]. rewrite Hd in Hl. destruct Hl as [Hu _].
      by apply (Hfree Hu a c Ha).
    + by apply (H1 a b c d).
  - intros k y Hy. destruct (decide (k = rq_ilk rq)) as [->|Hne].
    + assert (y = x') as -> by congruence. specialize (H2 _ _ Hx). split.
      * intros Hlk. destruct (crit pc') eqn:Ec'.
        { exists i, (rq, pc'). by rewrite list_lookup_insert_eq. }
        destruct (crit pc) eqn:Ec; cbn in Hl; [congruence|]. rewrite Hl in Hlk. apply H2 in Hlk as (j & c & Hj & Hh).
        exists j, c. split; [|done]. rewrite list_lookup_insert_ne; [done|]. intros <-.
        assert (c = (rq, pc)) as -> by congruence. destruct Hh as [_ Hh]. cbn in Hh. congruence.
      * intros (j & c & Hj & [Hk Hc]). apply list_lookup_insert_Some in Hj as [(<- & <- & _)|[Hnj Hj]].
        { cbn in Hc. rewrite Hc in Hl. destruct (crit pc) eqn:Ec; cbn in Hl; [|by destruct Hl].
          rewrite Hl. apply H2. by exists i, (rq, pc). }
        destruct (crit pc) eqn:Ec.
        { exfalso. by apply Hnj, (H1 i j (rq, pc) c). }
        assert (il_lock x = Locked) by (apply H2; by exists j, c).
        destruct (crit pc'); cbn in Hl; [destruct Hl; congruence|congruence].
    + rewrite Ho in Hy by done. rewrite (H2 k y Hy). split; intros (j & c & Hj & Hk & Hc).
      * exists j, c. rewrite list_lookup_insert_ne; [done|]. intros <-. assert (c = (rq, pc)) as -> by congruence. done.
      * apply list_lookup_insert_Some in Hj as [(<- & <- & _)|[Hnj Hj]]; [done|]. by exists j, c.
Qed.

(** Every step of the system keeps the invariant. *)
Lemma sys_inv_step e st st' : mr_laws e → mr_sys e st st' → sys_inv st → sys_inv st'.
Proof.
  intros He Hs [HT HR HC HL]. inversion Hs as [w ts rq x Hrq Hx|w ts i rq pc pc' w' Hi Hd E]; subst; cbn in *.
  - constructor; cbn; try done; [|by apply lock_inv_call].
    intros i c [[_ Hi]|[_ <-]]%lookup_snoc_Some; [by eapply HC|]. split; [done|]. by exists x.
  - destruct (HC i _ Hi) as (Hrq & x & Hx & Hp). cbn in *.
    destruct (step_spec e He w rq x HT Hx Hrq pc Hp Hd) as [(pc1 & w1 & x' & E' & Hst)|[(_ & _ & E')|(_ & _ & E')]];
      rewrite E in E'; try discriminate. injection E' as <- <-. destruct Hst as [HT' HR' Hx' Ho Hle Hp' Htab Hl Hr].
    constructor; cbn; auto; [|by eapply lock_inv_step].
    intros j c Hj. apply list_lookup_insert_Some in Hj as [(<- & <- & _)|[Hnj Hj]]; [split; [done|]; by exists x'|].
    destruct (HC j c Hj) as (Hrq' & y & Hy & Hpy). split; [done|].
    destruct (decide (rq_ilk c.1 = rq_ilk rq)) as [Hk|Hk]; [|exists y; rewrite Ho; done].
    rewrite Hk in *. assert (y = x) as -> by congruence. exists x'. split; [done|].
    apply (phase_mono x x'); [done| |done].
    destruct (crit c.2) eqn:Ec; [right|by left]. apply Htab. destruct (crit pc) eqn:Ecp; [|done].
    exfalso. apply Hnj. by apply (li_one _ _ HL i j (rq, pc) c).
Qed.
