(* ===== verification/Mlx5MrThms.v ===== *)
(** * libmlx5: memory regions, theorems

    The table under concurrent calls, one call at a time, prefetching, the
    data path, and the life of a protection domain. *)

From stdpp Require Import base gmap list numbers relations.
From Stdlib Require Import ZArith Lia ZifyBool.
From S2P Require Import Prelude Mlx5Base Mlx5Wqe Mlx5WqeProof Mlx5Buf Mlx5Mr Mlx5MrProof.

(** ** A new protection domain *)
Definition empty_world : mr_world := MrWorld 0 0 ∅ None [] [].

(** The bookkeeping between calls: no call is active, the protection domain
    exists, and its memory is allocated. *)
Definition own_mem (x : mr_mem) : bool := match x with MemPd | MemRemote => true | _ => false end.
Record pd_inv (w : mr_world) : Prop := {
  pi_quiet : sys_inv (w, []);
  pi_pd : is_Some (w_pd w) ∧ MemPd ∈ w_mem w;
  pi_remote : MemRemote ∈ w_mem w ↔ is_Some (ilk_of w RemoteIlk)
}.

Lemma new_pd_inv e w : mlx5_alloc_pd e empty_world = Ok (true, w) → pd_inv w.
Proof.
  unfold mlx5_alloc_pd, eff_bind, malloc, tick, mem_acquire, mlx5_init_implicit_lkey, emit, put_pd, mem_release, eff_ret, eff_bind, tick.
  cbn. destruct (me_alloc e 0); cbn; [|done]. destruct (me_cmd e 1 =? 0); cbn; [|done].
  destruct (me_mutex e 2 =? 0) eqn:E1; cbn; [|done]. destruct (me_mutex e 3 =? 0) eqn:E2; cbn; [|done].
  intros [= <-]. unfold set_pd. cbn. set (w := MrWorld _ _ _ _ _ _).
  assert (Hx : ∀ k x, ilk_of w k = Some x → x = Ilkey TNull (access_of k) Unlocked) by (intros [] x; cbn; congruence).
  constructor; [constructor; cbn| |]; try done.
  - constructor; try done.
    + intros k x E. by rewrite (Hx k x E).
    + intros k x k1 l E. by rewrite (Hx k x E).
    + intros k k1 k2 idx p (x & E & H)%slot_of_Some. by rewrite (Hx k x E) in H.
    + intros k k1 k2 idx k' k1' k2' idx' p (x & E & H)%slot_of_Some. by rewrite (Hx k x E) in H.
    + split; [apply NoDup_singleton|]. cbn [w_mem w].
      split; intros; rewrite list_elem_of_singleton; (split; [done|]); [intros (x & E & H)|intros (x & l & E & H)];
        by rewrite (Hx _ x E) in H.
  - constructor; cbn; [constructor|by intros ? ? ? ?%elem_of_nil|done].
  - constructor; [done|]. intros k x E. rewrite (Hx k x E). split; [done|]. by intros (? & ? & ? & _).
  - split; [by eexists|]. by apply list_elem_of_singleton.
  - cbn [w_mem w]. rewrite list_elem_of_singleton. split; [done|]. by intros [].
Qed.

(** ** Regions *)
(** No address range is registered twice with the same access. *)
Lemma regs_once w : tab_inv w → reg_inv w → NoDup (regs w).*2.
Proof.
  intros HT [Hn Hs _]. revert Hn Hs. generalize (regs w). intros l. induction l as [|[p [a b]] l IH]; intros Hn Hs; cbn; [constructor|].
  cbn in Hn. apply list.NoDup_cons in Hn as [Hp Hn]. apply list.NoDup_cons. split; [|apply IH; [done|]; intros; apply Hs; by right].
  intros Hin. apply list_elem_of_fmap in Hin as ([q [a' b']] & [= <- <-] & Hq). apply Hp.
  destruct (Hs p a b) as (k & k1 & k2 & i & H1 & E1 & E2); [left|].
  destruct (Hs q a b) as (k' & k1' & k2' & i' & H2 & E1' & E2'); [by right|].
  assert (k' = k) as -> by (apply access_of_inj; congruence).
  assert (Hkey : ∀ c1 c2 j r, slot_of w k c1 c2 j = Some r → 0 ≤ c2 < 2 ^ 11).
  { intros c1 c2 j r (x & Hx & Hr)%slot_of_Some. unfold xslot in Hr. destruct (xl2 x c1) as [m|] eqn:Em; [|done]. cbn in Hr.
    unfold lslot in Hr. destruct (m !! c2) as [pr|] eqn:Epr; [|by destruct j].
    destruct (ti_keys _ HT k x c1 m Hx Em) as [_ H]. by eapply H. }
  destruct (region_base_inj k1 k2 i k1' k2' i') as (-> & -> & ->); [by eapply Hkey|by eapply Hkey|congruence|].
  rewrite H1 in H2. injection H2 as <-. apply list_elem_of_fmap. by exists (p, (a, b)).
Qed.

(** The region that a call returned. *)
Definition covered_by (w : mr_world) (k : ilk) (addr len p : Z) : Prop :=
  ∃ m, w_mrs w !! p = Some (ObjMr m) ∧ mr_addr m ≤ addr ∧ addr + len ≤ mr_addr m + mr_length m ∧
    MevReg p (access_of k) (mr_addr m) (mr_length m) (mr_lkey m) ∈ w_evs w.

Lemma slot_covered w rq x p : tab_inv w → ilk_of w (rq_ilk rq) = Some x → rq_ok rq → rq_valid rq →
  fits (rq_addr rq) (rq_len rq) → rq_slot x rq = Some p → covered_by w (rq_ilk rq) (rq_addr rq) (rq_len rq) p.
Proof.
  intros HT Hx Hrq Hv Hf Hp. destruct (rq_region w rq x HT Hx p Hp) as (m & Hm & Ha & Hn & _ & _ & _ & _ & Hev).
  assert (Hl : 0 ≤ rq_len rq < 2 ^ 28) by (unfold rq_valid in Hv; destruct Hrq; lia).
  exists m. split; [done|]. rewrite Ha, Hn in *. split; [|split; [|done]].
  all: rewrite (base_keys _ _ (proj1 Hrq)), (idx_spec _ _ (proj1 Hrq) Hl); unfold fits in Hf;
    pose proof (Z.mod_pos_bound (rq_addr rq) (2 ^ 28) ltac:(lia));
    destruct (Z.leb_spec (2 ^ 28) (rq_addr rq mod 2 ^ 28 + rq_len rq + 1)); lia.
Qed.

(** ** One call at a time *)
Abbreviation quiet w := (sys_inv (w, [])).

(** Tables and their entries stay. *)
Record wle (w w' : mr_world) : Prop := {
  wl_slot : ∀ k k1 k2 idx p, slot_of w k k1 k2 idx = Some p → slot_of w' k k1 k2 idx = Some p;
  wl_ilk : ∀ k, is_Some (ilk_of w k) ↔ is_Some (ilk_of w' k)
}.
#[export] Instance wle_preorder : PreOrder wle.
Proof.
  split; [done|]. intros x y z [A1 B1] [A2 B2]. constructor; [auto|]. intros k. by rewrite B1, B2.
Qed.

Definition pf_of (v : mr_ev) : option (Z * Z * Z * Z) :=
  match v with MevPrefetch p a n f => Some (p, a, n, f) | _ => None end.
(** What the kernel was asked to prefetch. *)
Definition pfs (w : mr_world) : list (Z * Z * Z * Z) := omap pf_of (w_evs w).

Lemma stepped_wle w rq x pc pc' w' x' : ilk_of w (rq_ilk rq) = Some x → stepped w rq x pc pc' w' x' → wle w w'.
Proof.
  intros Hx [_ _ Hx' Ho Hle _ _ _ _]. constructor.
  - intros k k1 k2 idx p. rewrite (slot_change w w' _ x' Hx' Ho). destruct (decide _) as [->|]; [|done].
    unfold slot_of. rewrite Hx. apply Hle.
  - intros k. destruct (decide (k = rq_ilk rq)) as [->|Hne]; [rewrite Hx, Hx'; split; by eexists|by rewrite Ho].
Qed.

Lemma quiet_done w rq ret mr : sys_inv (w, [(rq, PcDone ret mr)]) → quiet w.
Proof.
  intros [HT HR HC HL]. constructor; try done. cbn in *. constructor; [done|]. intros k x Hx.
  rewrite (li_held _ _ HL k x Hx). split; [|by intros (? & ? & ? & _)].
  intros (i & c & Hi & Hh). apply list_lookup_singleton_Some in Hi as [-> <-]. by destruct Hh.
Qed.

Section Sequential.
Context (e : mr_env) (He : mr_laws e).

Lemma run_ok rq : (rq_valid rq → fits (rq_addr rq) (rq_len rq)) → ∀ fuel pc w,
  sys_inv (w, [(rq, pc)]) → (rank pc ≤ fuel)%nat →
  runs (real_mr_run e fuel rq pc) w (λ r w', sys_inv (w', [(rq, PcDone r.1 r.2)]) ∧ wle w w').
Proof using He.
  intros Hf fuel. induction fuel as [|fuel IH]; intros pc w Hw Hr.
  { destruct pc; cbn in Hr; try lia. by apply runs_ret. }
  destruct (decide (rank pc = 0)%nat) as [H0|H0].
  { destruct pc; try discriminate. by apply runs_ret. }
  assert (Hd : ∀ ret mr, pc ≠ PcDone ret mr) by (by intros ret mr ->).
  assert (Hrun : real_mr_run e (S fuel) rq pc = (let* pc := real_mr_step e rq pc in real_mr_run e fuel rq pc))
    by (destruct pc; done || by destruct (Hd ret mr)).
  rewrite Hrun. destruct (si_calls _ Hw 0%nat (rq, pc) eq_refl) as (Hrq & x & Hx & Hp). cbn [fst snd] in *.
  destruct (step_spec e He w rq x (si_tab _ Hw) Hx Hrq pc Hp Hd) as [(pc' & w1 & x' & E & Hst)|[(Hat & Hlk & _)|(-> & Hn & _)]].
  - apply runs_bind with (Q := λ a w2, a = pc' ∧ w2 = w1); [by exists pc', w1|]. intros a w2 [-> ->].
    assert (Hw1 : sys_inv (w1, [(rq, pc')])).
    { apply (sys_inv_step e (w, [(rq, pc)])); [done| |done]. by apply (SysStep e w [(rq, pc)] 0 rq pc pc' w1). }
    pose proof (sd_rank _ _ _ _ _ _ _ Hst). eapply runs_mono; [apply IH; [done|lia]|]. cbv beta. intros r w2 [Hi Hl].
    split; [done|]. etrans; [by eapply stepped_wle|done].
  - apply (li_held _ _ (si_lock _ Hw) _ _ Hx) in Hlk as (j & c & Hj & [_ Hc]).
    apply list_lookup_singleton_Some in Hj as [-> <-]. cbn in Hc. by destruct pc.
  - destruct Hp as [Hv _]. by apply Hn in Hf.
Qed.

(** A lookup records no prefetch. *)
Lemma keeps_pfs_prims {A} (m : mreff A) :
  (∀ w a w', m w = Ok (a, w') → w_evs w' = w_evs w) → keeps pfs m.
Proof. intros H w a w' E. unfold sees, pfs. by rewrite (H w a w' E). Qed.

Lemma keeps_pfs_emit v : pf_of v = None → keeps pfs (emit v).
Proof. intros H w a w' [= <- <-]. unfold sees, pfs. cbn. rewrite omap_app. cbn. by rewrite H, app_nil_r. Qed.

Lemma get_obj_pfs p : keeps pfs (get_obj p).
Proof. apply keeps_pfs_prims. unfold get_obj. intros w a w'. destruct (w_mrs w !! p); [by intros [= _ <-]|done]. Qed.
Lemma the_pd_pfs : keeps pfs the_pd.
Proof. apply keeps_pfs_prims. unfold the_pd. intros w a w'. destruct (w_pd w); [by intros [= _ <-]|done]. Qed.
Lemma put_pd_pfs pd : keeps pfs (put_pd pd).
Proof. apply keeps_pfs_prims. by intros w a w' [= _ <-]. Qed.
Lemma put_obj_pfs p o : keeps pfs (put_obj p o).
Proof. apply keeps_pfs_prims. by intros w a w' [= _ <-]. Qed.
Lemma tick_pfs : keeps pfs tick.
Proof. apply keeps_pfs_prims. by intros w a w' [= _ <-]. Qed.
Lemma mem_acquire_pfs x : keeps pfs (mem_acquire x).
Proof. apply keeps_pfs_prims. by intros w a w' [= _ <-]. Qed.
Lemma errno_set_pfs n : keeps pfs (errno_set n).
Proof. apply keeps_pfs_prims. by intros w a w' [= _ <-]. Qed.
End Sequential.
#[export] Hint Resolve get_obj_pfs the_pd_pfs put_pd_pfs put_obj_pfs tick_pfs mem_acquire_pfs errno_set_pfs : within.
#[export] Hint Extern 1 (within _ (emit _)) => (apply keeps_pfs_emit; reflexivity) : within.

Lemma get_ilk_pfs k : keeps pfs (get_ilk k).
Proof. unfold get_ilk. within_tac. Qed.
Lemma put_ilk_pfs k x : keeps pfs (put_ilk k x).
Proof. unfold put_ilk. within_tac. Qed.
#[export] Hint Resolve get_ilk_pfs put_ilk_pfs : within.

Lemma real_mr_step_pfs e rq pc : keeps pfs (real_mr_step e rq pc).
Proof.
  destruct pc; unfold real_mr_step, ilk_lock, ilk_unlock, malloc, reg_for_table, ibv_exp_reg_mr_with, exp_reg_mr_with, reg_strict,
    alloc_buf, alloc_anon, mlx5_alloc_whole_addr_mr, free_mr_buf, get_mmr; cbv zeta; within_tac.
Qed.

Lemma real_mr_run_pfs e fuel rq : ∀ pc, keeps pfs (real_mr_run e fuel rq pc).
Proof.
  induction fuel as [|fuel IH]; intros pc; destruct pc; cbn [real_mr_run]; try (apply within_ret || apply within_fault; apply _);
    (apply within_bind; [apply _|apply real_mr_step_pfs|intros; apply IH]).
Qed.

(** The place of a range in a table. *)
Definition place (w : mr_world) (k : ilk) (addr len : Z) : option Z :=
  slot_of w k (key1 addr) (key2 addr) (mr_idx_in_pair addr len).

Lemma place_wle w w' k addr len p : wle w w' → place w k addr len = Some p → place w' k addr len = Some p.
Proof. intros H. apply H. Qed.

Section Lookup.
Context (e : mr_env) (He : mr_laws e).

(** One lookup in a state in which no other call is active. *)
Lemma get_real_mr_ok w k addr len : quiet w → is_Some (ilk_of w k) → user_addr addr → 0 ≤ len < 2 ^ 63 →
  (len < 2 ^ 28 → fits addr len) →
  runs (mlx5_get_real_mr_from_implicit_lkey e k addr len) w (λ r w',
    quiet w' ∧ wle w w' ∧ pfs w' = pfs w ∧
    match r with
    | (ret, Some p) => ret = 0 ∧ place w' k addr len = Some p ∧ covered_by w' k addr len p
    | (ret, None) => if decide (len < 2 ^ 28) then ret = ENOMEM else ret = EINVAL
    end).
Proof using He.
  intros Hw [x Hx] Ha Hl Hf. set (rq := Req k addr len). assert (Hrq : rq_ok rq) by done.
  assert (Hw1 : sys_inv (w, [(rq, PcStart)])).
  { apply (sys_inv_step e (w, [])); [done| |done]. by apply (SysCall e w [] rq x). }
  unfold mlx5_get_real_mr_from_implicit_lkey. fold rq.
  eapply runs_mono; [apply (runs_keeps pfs); [apply real_mr_run_pfs|apply (run_ok e He rq Hf 24 PcStart w Hw1); cbn; lia]|].
  cbv beta. intros [ret mr] w' [[Hi Hle] Hpf]. cbn [fst snd] in Hi. split; [by eapply quiet_done|]. split; [done|]. split; [done|].
  destruct (si_calls _ Hi 0%nat _ eq_refl) as (_ & x' & Hx' & Hret). cbn [fst snd phase] in *. change (rq_ilk rq) with k in Hx'.
  inversion Hret as [p Hv Hfit Hp| |]; subst.
  - split; [done|]. split; [unfold place, slot_of; by rewrite Hx'|]. by apply (slot_covered w' rq x' p (si_tab _ Hi)).
  - unfold rq_valid in *. cbn [rq_len rq] in *. destruct (decide _); done.
  - unfold rq_valid in *. cbn [rq_len rq] in *. destruct (decide _); done.
Qed.

(** Time passes, and events that are no registrations are recorded. *)
Lemma quiet_note w t' n l : quiet w → (w_time w ≤ t')%nat → omap reg_of l = [] →
  quiet (MrWorld t' n (w_mrs w) (w_pd w) (w_mem w) (w_evs w ++ l)).
Proof using.
  intros [[T1 T2 T3 T4 T5 T6] [R1 R2 R3] _ [L1 L2]] Ht Hv. set (w' := MrWorld _ _ _ _ _ _).
  assert (Hr : regs w' = regs w) by (unfold regs; cbn; rewrite omap_app; cbn; by rewrite Hv, app_nil_r).
  constructor; cbn; [| |done|by constructor].
  - constructor; try done.
    + intros k k1 k2 idx p Hp. destruct (T3 k k1 k2 idx p Hp) as (m & ? & ? & ? & ? & ? & ? & ? & ?).
      exists m. do 7 (split; [done|]). apply elem_of_app. by left.
    + intros p o Hp%T5. cbn in *. lia.
  - constructor; rewrite ?Hr; done.
Qed.
End Lookup.

(** ** Prefetching *)

(** Requests that cover the addresses from [a] to [b] one after the other. *)
Fixpoint chunks (flags : Z) (l : list (Z * Z * Z * Z)) (a b : Z) : Prop :=
  match l with
  | [] => a = b
  | (_, x, n, f) :: l => x = a ∧ 0 < n ≤ 2 ^ 27 ∧ f = flags ∧ chunks flags l (a + n) b
  end.

Lemma place_covered w k addr len p : quiet w → user_addr addr → 0 ≤ len < 2 ^ 28 → fits addr len →
  place w k addr len = Some p → covered_by w k addr len p.
Proof.
  intros Hw Ha Hl Hf Hp. apply slot_of_Some in Hp as (x & Hx & Hp).
  apply (slot_covered w (Req k addr len) x p (si_tab _ Hw)); try done; [|unfold rq_valid; cbn; lia].
  split; cbn; [done|lia].
Qed.

Lemma prefetch_mr_strict e i p addr len flags w k a n : quiet w → place w k a n = Some p →
  ∃ w1, prefetch_mr_with e i p addr len flags false w = Ok (me_cmd e (w_time w), w1) ∧
    quiet w1 ∧ wle w w1 ∧ pfs w1 = pfs w ++ [(p, addr, len, flags)].
Proof.
  intros Hw Hp. destruct (ti_slot _ (si_tab _ Hw) _ _ _ _ _ Hp) as (m & Hm & _ & _ & _ & _ & K1 & K2 & _). cbn [fst] in Hm.
  unfold prefetch_mr_with, eff_bind, get_obj. rewrite Hm. cbn [res_bind fst snd obj_lkey].
  rewrite (proj2 (Z.eqb_neq _ _) K1), (proj2 (Z.eqb_neq _ _) K2). eexists. split; [reflexivity|]. cbn [fst snd].
  split; [apply (quiet_note w _ _ [_] Hw); [cbn; lia|done]|]. split; [done|]. unfold pfs. cbn. by rewrite omap_app.
Qed.

Section Prefetch.
Context (e : mr_env) (He : mr_laws e) (k : ilk) (end_addr flags : Z) (Hend : end_addr ≤ 2 ^ 48).

Lemma prefetch_loop_ok : ∀ fuel addr w, quiet w → is_Some (ilk_of w k) → 0 ≤ addr ≤ end_addr →
  (0 < fuel)%nat → (addr < end_addr → (end_addr - 1) / 2 ^ 27 - addr / 2 ^ 27 + 1 < Z.of_nat fuel) →
  runs (prefetch_loop e fuel k addr end_addr flags) w (λ ret w', quiet w' ∧ wle w w' ∧
    ∃ l stop, pfs w' = pfs w ++ l ∧ chunks flags l addr stop ∧ stop ≤ end_addr ∧
      Forall (λ '(p, a, n, _), place w' k a n = Some p ∧ covered_by w' k a n p) l ∧
      (ret = 0 → stop = end_addr) ∧ (ret ≠ 0 → ret = ENOMEM ∨ ∃ t, ret = me_cmd e t)).
Proof using He Hend.
  induction fuel as [|fuel IH]; intros addr w Hw Hk Ha Hf0 Hfuel; [lia|].
  cbn [prefetch_loop]. destruct (Z.ltb_spec addr end_addr) as [Hlt|Hge].
  2:{ apply runs_ret. split; [done|]. split; [done|]. exists [], addr. rewrite app_nil_r. cbn. repeat split; [lia|constructor|lia|done]. }
  pose proof (Z.mod_pos_bound addr (2 ^ 27) ltac:(lia)) as Hm.
  change PREFETCH_STRIDE_SIZE with (2 ^ 27 - 1). rewrite u64_land_mask by lia.
  set (n := Z.min _ _). assert (Hn : 0 < n ≤ 2 ^ 27 ∧ addr mod 2 ^ 27 + n ≤ 2 ^ 27 ∧ n ≤ end_addr - addr ∧
    (n = end_addr - addr ∨ n = 2 ^ 27 - addr mod 2 ^ 27)) by lia. clearbody n.
  eapply runs_bind; [apply (get_real_mr_ok e He w k addr n Hw Hk); [unfold user_addr; lia|lia|]|].
  { intros _. apply fits_half; lia. }
  cbv beta. intros [ret mr] w1 (Hw1 & Hle1 & Hpf1 & Hret). destruct mr as [p|].
  2:{ rewrite decide_True in Hret by lia. subst ret. apply runs_ret. split; [done|]. split; [done|]. exists [], addr.
      rewrite app_nil_r. cbn. repeat split; [done|lia|constructor|done|by left]. }
  destruct Hret as (-> & Hp & Hc). cbn [Z.eqb negb].
  destruct (prefetch_mr_strict e (λ _ _ _ _, eff_fault Stuck) p addr n flags w1 k addr n Hw1 Hp) as (w2 & E & Hw2 & Hle2 & Hpf2).
  apply runs_bind with (Q := λ r w', r = me_cmd e (w_time w1) ∧ w' = w2); [by eexists _, _|]. intros ret w3 [-> ->].
  assert (Hcov : ∀ w3, quiet w3 → wle w2 w3 → place w3 k addr n = Some p ∧ covered_by w3 k addr n p).
  { intros w3 Hw3 Hle3. assert (place w3 k addr n = Some p) by (by do 2 (eapply place_wle; [done|])). split; [done|].
    apply place_covered; [done|unfold user_addr; lia|lia|apply fits_half; lia|done]. }
  destruct (Z.eqb_spec (me_cmd e (w_time w1)) 0) as [E0|E0]; cbn [negb].
  - rewrite u64_small by lia. eapply runs_mono; [apply (IH (addr + n) w2); [done| |lia| |]|].
    + apply (wl_ilk _ _ Hle2), (wl_ilk _ _ Hle1), Hk.
    + specialize (Hfuel Hlt). pose proof (Z.div_le_mono addr (end_addr - 1) (2 ^ 27)). lia.
    + intros Hlt'. destruct Hn as (_ & _ & _ & [->|En]); [lia|].
      assert ((addr + n) / 2 ^ 27 = addr / 2 ^ 27 + 1); [|specialize (Hfuel Hlt); lia].
      replace (addr + n) with ((addr / 2 ^ 27 + 1) * 2 ^ 27) by (rewrite (Z.div_mod addr (2 ^ 27)) at 2 by lia; lia).
      by rewrite Z.div_mul by lia.
    + cbv beta. intros ret w3 (Hw3 & Hle3 & l & stop & Hpf & Hch & Hs & HF & H0 & H1). split; [done|].
      split; [by do 2 (etrans; [done|])|]. exists ((p, addr, n, flags) :: l), stop.
      split; [by rewrite Hpf, Hpf2, Hpf1, <-app_assoc|]. split; [by cbn; repeat split; try lia|]. split; [done|].
      split; [|done]. constructor; [by apply Hcov|done].
  - apply runs_ret. split; [done|]. split; [by etrans|]. exists [(p, addr, n, flags)], (addr + n).
    split; [by rewrite Hpf2, Hpf1|]. split; [cbn; repeat split; lia|]. split; [lia|]. split; [by repeat constructor; apply Hcov|].
    split; [done|]. intros _. right. by eexists.
Qed.
End Prefetch.


(** ** Histories of a protection domain *)
Definition own (w : mr_world) : list mr_mem := List.filter own_mem (w_mem w).

Lemma keeps_own_prims {A} (m : mreff A) :
  (∀ w a w', m w = Ok (a, w') → w_mem w' = w_mem w) → keeps own m.
Proof. intros H w a w' E. unfold sees, own. by rewrite (H w a w' E). Qed.
Lemma get_obj_own p : keeps own (get_obj p).
Proof. apply keeps_own_prims. unfold get_obj. intros w a w'. destruct (w_mrs w !! p); [by intros [= _ <-]|done]. Qed.
Lemma the_pd_own : keeps own the_pd.
Proof. apply keeps_own_prims. unfold the_pd. intros w a w'. destruct (w_pd w); [by intros [= _ <-]|done]. Qed.
Lemma put_pd_own pd : keeps own (put_pd pd).
Proof. apply keeps_own_prims. by intros w a w' [= _ <-]. Qed.
Lemma put_obj_own p o : keeps own (put_obj p o).
Proof. apply keeps_own_prims. by intros w a w' [= _ <-]. Qed.
Lemma tick_own : keeps own tick.
Proof. apply keeps_own_prims. by intros w a w' [= _ <-]. Qed.
Lemma emit_own v : keeps own (emit v).
Proof. apply keeps_own_prims. by intros w a w' [= _ <-]. Qed.
Lemma table_own k : keeps own (mem_acquire (MemTable k)).
Proof. by intros w a w' [= _ <-]. Qed.
Lemma level2_own k k1 : keeps own (mem_acquire (MemLevel2 k k1)).
Proof. by intros w a w' [= _ <-]. Qed.
Lemma errno_set_own n : keeps own (errno_set n).
Proof. apply keeps_own_prims. by intros w a w' [= _ <-]. Qed.
#[export] Hint Resolve get_obj_own the_pd_own put_pd_own put_obj_own tick_own emit_own table_own level2_own errno_set_own : within.
Lemma get_ilk_own k : keeps own (get_ilk k).
Proof. unfold get_ilk. within_tac. Qed.
Lemma put_ilk_own k x : keeps own (put_ilk k x).
Proof. unfold put_ilk. within_tac. Qed.
#[export] Hint Resolve get_ilk_own put_ilk_own : within.

Lemma real_mr_step_own e rq pc : keeps own (real_mr_step e rq pc).
Proof.
  destruct pc; unfold real_mr_step, ilk_lock, ilk_unlock, malloc, reg_for_table, ibv_exp_reg_mr_with, exp_reg_mr_with, reg_strict,
    alloc_buf, alloc_anon, mlx5_alloc_whole_addr_mr, free_mr_buf, get_mmr; cbv zeta; within_tac.
Qed.
Lemma real_mr_run_own e fuel rq : ∀ pc, keeps own (real_mr_run e fuel rq pc).
Proof.
  induction fuel as [|fuel IH]; intros pc; destruct pc; cbn [real_mr_run]; try (apply within_ret || apply within_fault; apply _);
    (apply within_bind; [apply _|apply real_mr_step_own|intros; apply IH]).
Qed.
Lemma get_real_mr_own e k addr len : keeps own (mlx5_get_real_mr_from_implicit_lkey e k addr len).
Proof. apply real_mr_run_own. Qed.
#[export] Hint Resolve get_real_mr_own : within.
Lemma prefetch_loop_own e fuel k end_addr flags : ∀ addr, keeps own (prefetch_loop e fuel k addr end_addr flags).
Proof.
  induction fuel as [|fuel IH]; intros addr; cbn [prefetch_loop]; [apply within_fault; apply _|].
  unfold prefetch_mr_with. within_tac.
Qed.

Lemma pd_inv_grow w w' : pd_inv w → sys_inv (w', []) → wle w w' → own w' = own w → pd_inv w'.
Proof.
  intros [_ [Hpd Hm] Hr] Hq [_ Hi] Ho.
  assert (Hmem : ∀ x, own_mem x = true → (x ∈ w_mem w' ↔ x ∈ w_mem w)).
  { intros x Hx. assert (H : ∀ v, x ∈ w_mem v ↔ x ∈ own v).
    { intros v. unfold own. rewrite !list_elem_of_In, filter_In. naive_solver. }
    by rewrite !H, Ho. }
  constructor; [done| |].
  - split; [|by apply Hmem]. assert (is_Some (ilk_of w' RIlk)) as [x Hx].
    { apply Hi. destruct Hpd as [pd Hpd]. unfold ilk_of. rewrite Hpd. by eexists. }
    unfold ilk_of in Hx. destruct (w_pd w'); [by eexists|done].
  - rewrite Hmem by done. by rewrite Hr, Hi.
Qed.

(** What a protection domain has gone through: its creation, concurrent
    lookups until all have returned, prefetching, shared regions of the
    program. *)
Inductive mr_hist (e : mr_env) : mr_world → Prop :=
| HistPd w : mlx5_alloc_pd e empty_world = Ok (true, w) → mr_hist e w
| HistIlk w a k w' : mr_hist e w → mlx5_get_implicit_lkey e a w = Ok (k, w') → mr_hist e w'
| HistCalls w w' ts : mr_hist e w → rtc (mr_sys e) (w, []) (w', ts) →
    Forall (λ c, ∃ ret mr, c.2 = PcDone ret mr) ts → mr_hist e w'
| HistPrefetch w k addr len flags ret w' : mr_hist e w → is_Some (ilk_of w k) → 0 ≤ addr → 0 ≤ len → addr + len ≤ 2 ^ 48 →
    mlx5_prefetch_implicit_lkey e k addr len flags w = Ok (ret, w') → mr_hist e w'
| HistRelaxed w i p w' : mr_hist e w → user_addr (in_addr i) → 0 ≤ in_length i < 2 ^ 63 →
    (in_length i < 2 ^ 28 → fits (in_addr i) (in_length i)) → reg_relaxed e i w = Ok (p, w') → mr_hist e w'.

Section Hist.
Context (e : mr_env) (He : mr_laws e).

Lemma sys_grow st st' : rtc (mr_sys e) st st' → sys_inv st →
  sys_inv st' ∧ wle st.1 st'.1 ∧ own st'.1 = own st.1.
Proof using He.
  induction 1 as [|st1 st2 st3 Hs _ IH]; [done|]. intros H. destruct (IH (sys_inv_step _ _ _ He Hs H)) as (I & L & O).
  split; [done|]. inversion Hs as [w ts rq x Hrq Hx|w ts i rq pc pc' w' Hi Hd E]; subst; cbn [fst snd] in *; [done|].
  destruct (si_calls _ H i _ Hi) as (Hrq & x & Hx & Hp). cbn [fst snd] in *.
  destruct (step_spec e He w rq x (si_tab _ H) Hx Hrq pc Hp Hd) as [(pc1 & w1 & x' & E' & Hst)|[(_ & _ & E')|(_ & _ & E')]];
    rewrite E in E'; try discriminate. injection E' as <- <-.
  split; [etrans; [by eapply stepped_wle|done]|]. rewrite O. by apply (real_mr_step_own e rq pc w pc').
Qed.

Lemma quiet_all w ts : sys_inv (w, ts) → Forall (λ c, ∃ ret mr, c.2 = PcDone ret mr) ts → quiet w.
Proof using.
  intros [HT HR _ HL] Hts. constructor; try done. cbn in *. constructor; [done|].
  intros k x Hx. rewrite (li_held _ _ HL k x Hx). split; [|by intros (? & ? & ? & _)].
  intros (i & c & Hi & [_ Hc]). destruct (Forall_lookup_1 _ _ _ _ Hts Hi) as (ret & mr & E). by rewrite E in Hc.
Qed.

(** The table for remote access is created. *)
Lemma quiet_remote w pd t n : quiet w → w_pd w = Some pd → remote_ilkey pd = None → MemRemote ∉ w_mem w →
  (w_time w ≤ t)%nat →
  let x := Ilkey TNull remote_access Unlocked in
  quiet (MrWorld t n (w_mrs w) (Some (pd_set_ilk pd RemoteIlk x)) (MemRemote :: w_mem w) (w_evs w)).
Proof using.
  intros [[T1 T2 T3 T4 T5 T6] [R1 R2 R3] _ [L1 L2]] Hpd Hr Hmem Ht x. cbn [fst snd] in *. set (w' := MrWorld _ _ _ _ _ _).
  assert (Hi : ∀ k, ilk_of w' k = if decide (k = RemoteIlk) then Some x else ilk_of w k).
  { intros k. unfold ilk_of. rewrite Hpd. by destruct k. }
  assert (Hn : ilk_of w RemoteIlk = None) by (unfold ilk_of; by rewrite Hpd).
  assert (Hs : ∀ k k1 k2 idx, slot_of w' k k1 k2 idx = slot_of w k k1 k2 idx).
  { intros k k1 k2 idx. unfold slot_of. rewrite Hi. destruct (decide _) as [->|]; [by rewrite Hn|done]. }
  constructor; cbn; [| |done|].
  - constructor; try done; try (intros; rewrite ?Hs in *; by eauto).
    + intros k y. rewrite Hi. destruct (decide _) as [->|]; [by intros [= <-]|apply T1].
    + intros k y k1 l. rewrite Hi. destruct (decide _) as [->|]; [by intros [= <-]|apply T2].
    + intros p o Hp%T5. cbn. lia.
    + destruct T6 as (N & M1 & M2). split; [|split]; cbn [w_mem w'].
      * by apply list.NoDup_cons.
      * intros k. rewrite elem_of_cons, M1, Hi. destruct (decide _) as [->|]; [|split; [by intros [?|?]|by right]].
        rewrite Hn. split; [by intros [?|(y & ? & _)]|by intros (y & [= <-] & [])].
      * intros k k1. rewrite elem_of_cons, M2, Hi. destruct (decide _) as [->|]; [|split; [by intros [?|?]|by right]].
        rewrite Hn. split; [by intros [?|(y & l & ? & _)]|by intros (y & l & [= <-] & ?)].
  - constructor; [done| |]; intros; rewrite ?Hs; [|edestruct R3 as (? & ? & ? & ? & ?); [done|]; do 4 eexists; by rewrite Hs].
    edestruct R2 as (k & k1 & k2 & idx & ? & ? & ?); [done|]. exists k, k1, k2, idx. by rewrite Hs.
  - constructor; [done|]. intros k y. rewrite Hi. destruct (decide _) as [->|]; [|by apply L2].
    intros [= <-]. split; [done|]. by intros (? & ? & ? & _).
Qed.

Lemma get_implicit_ok w a k w' : pd_inv w → mlx5_get_implicit_lkey e a w = Ok (k, w') → pd_inv w' ∧
  match k with Some k => is_Some (ilk_of w' k) | None => True end.
Proof using.
  intros Hw. pose proof Hw as [Hq [[pd Hpd] Hm] Hr]. unfold mlx5_get_implicit_lkey, eff_bind, errno_set, eff_ret, the_pd.
  assert (Hnote : ∀ t n, (w_time w ≤ t)%nat → pd_inv (MrWorld t n (w_mrs w) (w_pd w) (w_mem w) (w_evs w))).
  { intros t n Ht. rewrite <-(app_nil_r (w_evs w)). apply (pd_inv_grow w); [done|by apply (quiet_note w t n [])|done|done]. }
  assert (Hrw : ∀ k, k ≠ RemoteIlk → is_Some (ilk_of w k)).
  { intros k' Hk. unfold ilk_of. rewrite Hpd. destruct k'; [by eexists|by eexists|done]. }
  destruct (negb (acc_on_demand a)); [intros [= <- <-]; auto|].
  destruct (decide (strict a = r_access)); [intros [= <- <-]; auto|].
  destruct (decide (strict a = w_access)); [intros [= <- <-]; auto|].
  destruct (negb (acc_relaxed a)); [intros [= <- <-]; auto|].
  rewrite Hpd. cbn [res_bind fst snd]. destruct (remote_ilkey pd) as [x|] eqn:Er.
  { intros [= <- <-]. split; [done|]. unfold ilk_of. rewrite Hpd. cbn. by rewrite Er. }
  assert (HN : MemRemote ∉ w_mem w).
  { rewrite Hr. unfold ilk_of. rewrite Hpd. cbn. rewrite Er. by intros []. }
  unfold malloc, eff_bind, tick, eff_ret. cbn [res_bind fst snd]. destruct (me_alloc e (w_time w)); cbn [negb].
  2:{ cbn. intros [= <- <-]. auto. }
  unfold mlx5_init_implicit_lkey, mem_acquire, eff_bind, tick, eff_ret, mem_release. cbn.
  destruct (me_mutex e (S (w_time w)) =? 0) eqn:Em; cbn.
  - unfold put_ilk, the_pd, put_pd, eff_bind. cbn. rewrite Hpd. cbn. intros [= <- <-]. unfold set_pd. cbn.
    split; [|by eexists]. constructor; cbn [w_mem w_pd].
    + apply (quiet_remote w pd); try done. lia.
    + split; [by eexists|]. by right.
    + split; [by eexists|]. intros _. left.
  - intros [= <- <-]. unfold set_mem. cbn. auto.
Qed.

Lemma runs_Ok {A} (m : mreff A) w (P : A → mr_world → Prop) a w' : runs m w P → m w = Ok (a, w') → P a w'.
Proof using. intros (b & w1 & E & H) E'. rewrite E in E'. by injection E' as <- <-. Qed.

Lemma prefetch_ok k addr len flags w : pd_inv w → is_Some (ilk_of w k) → 0 ≤ addr → 0 ≤ len → addr + len ≤ 2 ^ 48 →
  runs (mlx5_prefetch_implicit_lkey e k addr len flags) w (λ ret w', pd_inv w' ∧
    ∃ l stop, pfs w' = pfs w ++ l ∧ chunks flags l addr stop ∧ stop ≤ addr + len ∧
      Forall (λ '(p, a, n, _), covered_by w' k a n p) l ∧
      (ret = 0 → stop = addr + len) ∧ (ret ≠ 0 → ret = ENOMEM ∨ ∃ t, ret = me_cmd e t)).
Proof using He.
  intros Hw Hk Ha Hl Hend. unfold mlx5_prefetch_implicit_lkey. rewrite u64_small by lia.
  destruct (Z.ltb_spec (addr + len) addr); [lia|].
  eapply runs_mono; [apply (runs_keeps own); [apply prefetch_loop_own|];
    apply (prefetch_loop_ok e He k (addr + len) flags Hend); [apply Hw|done|lia|lia|]|].
  - intros Hlt. pose proof (Z.div_pos len (2 ^ 27)). rewrite Nat2Z.inj_add, Z2Nat.id by lia.
    assert ((addr + len - 1) / 2 ^ 27 ≤ addr / 2 ^ 27 + len / 2 ^ 27 + 1); [|lia].
    apply Z.lt_succ_r, Z.div_lt_upper_bound; [lia|].
    pose proof (Z.div_mod addr (2 ^ 27) ltac:(lia)). pose proof (Z.mod_pos_bound addr (2 ^ 27) ltac:(lia)).
    pose proof (Z.div_mod len (2 ^ 27) ltac:(lia)). pose proof (Z.mod_pos_bound len (2 ^ 27) ltac:(lia)). lia.
  - cbv beta. intros ret w2 [(Hq & Hle & l & stop & H1 & H2 & H3 & H4 & H5) Ho]. split; [by eapply pd_inv_grow|].
    exists l, stop. do 3 (split; [done|]). split; [|done]. eapply Forall_impl; [exact H4|]. by intros [[[p a] n] f] [_ ?].
Qed.

Lemma reg_relaxed_ok w i p w' : pd_inv w → user_addr (in_addr i) → 0 ≤ in_length i < 2 ^ 63 →
  (in_length i < 2 ^ 28 → fits (in_addr i) (in_length i)) → reg_relaxed e i w = Ok (p, w') → pd_inv w'.
Proof using He.
  intros Hw Ha Hl Hf E. unfold reg_relaxed in E. apply eff_bind_Ok in E as (k & w1 & E1 & E).
  destruct (get_implicit_ok w _ _ _ Hw E1) as [Hw1 Hk]. destruct k as [k|]; [|by injection E as <- <-].
  apply eff_bind_Ok in E as ([ret mr] & w2 & E2 & E).
  pose proof (runs_Ok _ _ _ _ _ (runs_keeps own _ _ _ (get_real_mr_own e k _ _)
    (get_real_mr_ok e He w1 k _ _ (pi_quiet _ Hw1) Hk Ha Hl Hf)) E2) as [(Hq2 & Hle2 & _ & Hret) Ho2].
  assert (Hw2 : pd_inv w2) by (by eapply pd_inv_grow).
  apply eff_bind_Ok in E as (? & w3 & [= <- <-] & E).
  assert (Hw3 : ∀ n, pd_inv (MrWorld (w_time w2) n (w_mrs w2) (w_pd w2) (w_mem w2) (w_evs w2))).
  { intros n. rewrite <-(app_nil_r (w_evs w2)). by apply (pd_inv_grow w2); [|apply (quiet_note w2 _ n [] Hq2)| |]. }
  destruct (negb (ret =? 0)); [injection E as <- <-; apply Hw3|]. destruct mr as [q|]; [|done].
  apply eff_bind_Ok in E as (? & w4 & E4 & E). injection E as <- <-. destruct Hret as (-> & Hp & _).
  unfold mlx5_prefetch_mr in E4.
  edestruct (prefetch_mr_strict e) as (w5 & E5 & Hq5 & Hle5 & _); [apply (Hw3 0)|exact Hp|].
  rewrite E4 in E5. injection E5 as _ <-. eapply pd_inv_grow; [apply (Hw3 0)|done|done|].
  assert (keeps own (prefetch_mr_with e (mlx5_prefetch_implicit_lkey e) q (in_addr i) (in_length i)
    (if acc_local_write (in_access i) || acc_remote_write (in_access i) || acc_remote_read (in_access i)
     then IBV_EXP_PREFETCH_WRITE_ACCESS else 0) false)) as Hko; [|by apply (Hko _ _ _ E4)].
  unfold prefetch_mr_with, mlx5_prefetch_implicit_lkey. within_tac; apply prefetch_loop_own.
Qed.

Lemma hist_inv w : mr_hist e w → pd_inv w.
Proof using He.
  induction 1 as [w E|w a k w' _ Hw E|w w' ts _ Hw Hr Hts|w k addr len flags ret w' _ Hw Hk Ha Hl Hend E|w i p w' _ Hw Ha Hl Hf E].
  - by eapply new_pd_inv.
  - by apply (get_implicit_ok w a k w').
  - destruct (sys_grow _ _ Hr (pi_quiet _ Hw)) as (I & L & O). eapply pd_inv_grow; [done|by eapply quiet_all|done|done].
  - by apply (runs_Ok _ _ _ _ _ (prefetch_ok k addr len flags w Hw Hk Ha Hl Hend) E).
  - by eapply reg_relaxed_ok.
Qed.
End Hist.

(** ** An example *)
Definition demo_mr_env : mr_env :=
  MrEnv (λ _, true) (λ _, 0) (λ t _ _ _, inl (5000 + Z.of_nat t, 0, 7)) (λ _, 0) (λ _, 3) (λ a n, (a, n)) (λ _, None)
    ex_contig ex_anon 4096.
Lemma demo_mr_laws : mr_laws demo_mr_env.
Proof.
  constructor; [done|]. intros t a b n l r h [= <- _ _]. unfold ODP_GLOBAL_R_LKEY, ODP_GLOBAL_W_LKEY. lia.
Qed.

Definition demo_pd : mr_world :=
  match mlx5_alloc_pd demo_mr_env empty_world with Ok (_, w) => w | Fault _ => empty_world end.
Lemma demo_hist : mr_hist demo_mr_env demo_pd.
Proof. apply HistPd. reflexivity. Qed.

(** The next step of call [i], if it is possible. *)
Definition sys_turn (e : mr_env) (i : nat) (st : mr_world * calls) : mr_world * calls :=
  match st.2 !! i with
  | Some (rq, pc) =>
      if decide (rank pc = 0)%nat then st
      else match real_mr_step e rq pc st.1 with
           | Ok (pc', w') => (w', <[i := (rq, pc')]> st.2)
           | Fault _ => st
           end
  | None => st
  end.
Definition sys_turns (e : mr_env) (l : list nat) (st : mr_world * calls) : mr_world * calls :=
  fold_left (λ st i, sys_turn e i st) l st.

Lemma sys_turns_rtc e l : ∀ st, rtc (mr_sys e) st (sys_turns e l st).
Proof.
  induction l as [|i l IH]; intros st; [done|]. cbn. etrans; [|apply IH]. destruct st as [w ts]. unfold sys_turn. cbn.
  destruct (ts !! i) as [[rq pc]|] eqn:Ei; [|done]. destruct (decide _) as [|Hr]; [done|].
  destruct (real_mr_step e rq pc w) as [[pc' w']|] eqn:E; [|done]. apply rtc_once. apply (SysStep e w ts i rq pc); try done.
  by intros ret mr ->.
Qed.

(** Two threads look up the same memory, in turns, and a third one the page
    before the next multiple of 256 MB. *)
Definition demo_rq : ilk_req := Req RIlk 0x7f0000001000 4096.
Definition demo_rq' : ilk_req := Req RIlk 0x7f000ffff000 8192.
Definition demo_calls : calls := [(demo_rq, PcStart); (demo_rq, PcStart); (demo_rq', PcStart)].
Definition demo_end : mr_world * calls :=
  sys_turns demo_mr_env (concat (replicate 60 [0; 1; 2]%nat)) (demo_pd, demo_calls).

Lemma demo_calls_reach : rtc (mr_sys demo_mr_env) (demo_pd, []) (demo_end.1, demo_end.2).
Proof.
  rewrite <-(surjective_pairing demo_end). unfold demo_end.
  assert (Hc : ∀ ts rq, rq_ok rq → rq_ilk rq = RIlk → mr_sys demo_mr_env (demo_pd, ts) (demo_pd, ts ++ [(rq, PcStart)])).
  { intros ts rq Hrq Hk. eapply SysCall; [done|]. rewrite Hk. reflexivity. }
  assert (H1 : rq_ok demo_rq) by (split; [split|]; cbn; lia). assert (H2 : rq_ok demo_rq') by (split; [split|]; cbn; lia).
  eapply rtc_l; [by apply (Hc [] demo_rq)|]. eapply rtc_l; [by apply (Hc [_] demo_rq)|]. eapply rtc_l; [by apply (Hc [_; _] demo_rq')|].
  apply sys_turns_rtc.
Qed.

(** ** The theorems *)

(** C11: looking up on-demand regions from many threads, for addresses below
    2^48 and while no region is deregistered.  Threads read the table of
    regions without a lock and add to it under one.  Whatever the order in
    which the accesses of any number of calls interleave: no range is registered twice with the same access, so that all calls for the same
    place share one region; a call returns EINVAL for a range of 256 MB or
    more, ENOMEM, or 0 and a registered region with the access of the table
    that contains the range; and a call whose range fits ([fits], always true
    below 128 MB) never fails on the way: its next step is possible and brings
    it closer to its end, at most 22 steps away, or it waits for a lock that
    is held by a call whose next step is possible. *)
Theorem mlx5_implicit_lkey_concurrent (e : mr_env) (w w' : mr_world) (ts : list (ilk_req * ilk_pc)) :
  mr_laws e → mr_hist e w → rtc (mr_sys e) (w, []) (w', ts) →
  NoDup (regs w').*2 ∧
  (∀ i rq ret mr, ts !! i = Some (rq, PcDone ret mr) →
     (ret = EINVAL ∧ mr = None ∧ 2 ^ 28 ≤ rq_len rq) ∨ (ret = ENOMEM ∧ mr = None) ∨
     ∃ p, ret = 0 ∧ mr = Some p ∧ covered_by w' (rq_ilk rq) (rq_addr rq) (rq_len rq) p) ∧
  (∀ i rq pc, ts !! i = Some (rq, pc) → (∀ ret mr, pc ≠ PcDone ret mr) → fits (rq_addr rq) (rq_len rq) →
     let can_step rq pc := ∃ pc' w'', real_mr_step e rq pc w' = Ok (pc', w'') ∧ (rank pc' < rank pc ≤ 22)%nat in
     can_step rq pc ∨ at_lock pc = true ∧ ∃ j rq' pc', ts !! j = Some (rq', pc') ∧ holds (rq_ilk rq) (rq', pc') ∧ can_step rq' pc').
Proof.
  intros He Hw Hr. destruct (sys_grow e He _ _ Hr (pi_quiet _ (hist_inv e He w Hw))) as ([HT HR HC HL] & _). cbn [fst snd] in HT, HR, HC, HL.
  split; [by apply regs_once|]. split.
  - intros i rq ret mr Hi. destruct (HC i _ Hi) as (Hrq & x & Hx & Hret). cbn in Hret, Hx, Hrq.
    inversion Hret; subst; [right; right; exists p|left|by right; left].
    + split; [done|]. split; [done|]. by eapply slot_covered.
    + split; [done|]. split; [done|]. unfold rq_valid in H. lia.
  - intros i rq pc Hi Hd Hf can_step.
    assert (Hrank : ∀ pc, (rank pc ≤ 22)%nat) by (intros []; cbn; lia).
    destruct (HC i _ Hi) as (Hrq & x & Hx & Hp). cbn [fst snd] in Hrq, Hx, Hp.
    destruct (step_spec e He w' rq x HT Hx Hrq pc Hp Hd) as [(pc' & w1 & x' & E & Hst)|[(Hat & Hlk & _)|(-> & Hn & _)]]; [| |done].
    + left. exists pc', w1. split; [done|]. split; [apply Hst|apply Hrank].
    + right. split; [done|]. apply (li_held _ _ HL _ _ Hx) in Hlk as (j & [rq' pc'] & Hj & [Hk Hc]). cbn in Hk, Hc.
      exists j, rq', pc'. split; [done|]. split; [done|]. destruct (HC j _ Hj) as (Hrq' & y & Hy & Hp'). cbn [fst snd] in Hrq', Hy, Hp'.
      destruct (step_spec e He w' rq' y HT Hy Hrq' pc' Hp') as [(pc1 & w1 & x' & E & Hst)|[(Hat' & _)|(-> & _)]];
        [by intros ret mr ->| |by destruct pc'|done].
      exists pc1, w1. split; [done|]. split; [apply Hst|apply Hrank].
Qed.

Lemma mlx5_implicit_lkey_concurrent_witness :
  NoDup (regs demo_end.1).*2 ∧ length (regs demo_end.1) = 2%nat ∧
  (∃ p, demo_end.2 !! 0%nat = Some (demo_rq, PcDone 0 (Some p)) ∧ demo_end.2 !! 1%nat = Some (demo_rq, PcDone 0 (Some p)) ∧
     covered_by demo_end.1 RIlk 0x7f0000001000 4096 p) ∧
  (∃ p, demo_end.2 !! 2%nat = Some (demo_rq', PcDone 0 (Some p)) ∧ covered_by demo_end.1 RIlk 0x7f000ffff000 8192 p).
Proof.
  destruct (mlx5_implicit_lkey_concurrent demo_mr_env demo_pd demo_end.1 demo_end.2 demo_mr_laws demo_hist demo_calls_reach)
    as (H1 & H2 & _).
  split; [exact H1|]. split; [by vm_compute|]. split.
  - exists 6. split; [by vm_compute|]. split; [by vm_compute|].
    destruct (H2 0%nat demo_rq 0 (Some 6)) as [(E & _)|[(E & _)|(p & _ & E & H)]]; [by vm_compute|discriminate|discriminate|].
    injection E as <-. exact H.
  - exists 8. split; [by vm_compute|].
    destruct (H2 2%nat demo_rq' 0 (Some 8)) as [(E & _)|[(E & _)|(p & _ & E & H)]]; [by vm_compute|discriminate|discriminate|].
    injection E as <-. exact H.
Defined.

(** C27: prefetching with the global keys.  For any range of the program's
    memory, of any length, [mlx5_prefetch_implicit_lkey] returns; the requests
    that it sends to the kernel cover a beginning of the range one after the
    other, in pieces of at most 128 MB, each inside a region registered for
    this table; if it returns 0 they cover all of the range, and otherwise the
    result is ENOMEM or the answer of the kernel.  The assertion in the lookup
    never fails on these pieces. *)
Theorem mlx5_prefetch_covers (e : mr_env) (w : mr_world) (k : ilk) (addr len flags : Z) :
  mr_laws e → mr_hist e w → is_Some (ilk_of w k) → 0 ≤ addr → 0 ≤ len → addr + len ≤ 2 ^ 48 →
  runs (mlx5_prefetch_implicit_lkey e k addr len flags) w (λ ret w',
    ∃ l stop, pfs w' = pfs w ++ l ∧ chunks flags l addr stop ∧ stop ≤ addr + len ∧
      Forall (λ '(p, a, n, _), covered_by w' k a n p) l ∧
      (ret = 0 → stop = addr + len) ∧ (ret ≠ 0 → ret = ENOMEM ∨ ∃ t, ret = me_cmd e t)).
Proof.
  intros He Hw Hk Ha Hl Hend. eapply runs_mono; [by apply (prefetch_ok e He k addr len flags w (hist_inv e He w Hw))|].
  by cbv beta; intros ret w' [_ H].
Qed.

(** 300 MB from a page before a multiple of 256 MB on: four pieces. *)
Lemma mlx5_prefetch_covers_witness :
  runs (mlx5_prefetch_implicit_lkey demo_mr_env WIlk 0x7f000ffff000 (300 * 2 ^ 20) 1) demo_pd (λ ret w',
    ret = 0 ∧ ∃ l, pfs w' = l ∧ length l = 4%nat ∧ chunks 1 l 0x7f000ffff000 (0x7f000ffff000 + 300 * 2 ^ 20) ∧
      Forall (λ '(p, a, n, _), covered_by w' WIlk a n p) l).
Proof.
  destruct (mlx5_prefetch_covers demo_mr_env demo_pd WIlk 0x7f000ffff000 (300 * 2 ^ 20) 1 demo_mr_laws demo_hist)
    as (ret & w' & E & l & stop & H1 & H2 & H3 & H4 & H5 & H6); [by eexists|done|done|done|].
  exists ret, w'. split; [exact E|]. assert (Hret : ret = 0 ∧ length (pfs w') = 4%nat).
  { assert (E' : match mlx5_prefetch_implicit_lkey demo_mr_env WIlk 0x7f000ffff000 (300 * 2 ^ 20) 1 demo_pd with
      | Ok (r, v) => r = 0 ∧ length (pfs v) = 4%nat | Fault _ => False end) by (clear E; vm_compute; split; reflexivity). rewrite E in E'. exact E'. }
  destruct Hret as [-> Hlen]. split; [done|]. exists l. change (pfs demo_pd ++ l) with l in H1. rewrite (H5 eq_refl) in H2.
  split; [exact H1|]. split; [by rewrite <-H1|]. split; [exact H2|exact H4].
Defined.

(** ** The data path *)

(** C26: one data segment ([set_data_ptr_seg]) for an entry of a work request
    that has one of the global keys, with an address below 2^48 and a range
    for which the lookup's choice of a region is sound ([fits]: always below
    128 MB; between 128 MB and 256 MB there are ranges inside a region for
    which the assertion at the end of the lookup stops the program).  Either
    the segment that the driver writes has the address and length of the entry
    and the key of a region that is registered with the access of the key's
    table and contains the whole range; or the result is ENOMEM, whatever the
    reason (also EINVAL for 256 MB and more), and this segment is not
    written. *)
Theorem mlx5_odp_data_seg (e : mr_env) (w : mr_world) (qend dseg offset : Z) (sg : ibv_sge) (m : sqmem) :
  mr_laws e → mr_hist e w →
  sge_lkey sg = ODP_GLOBAL_R_LKEY ∨ sge_lkey sg = ODP_GLOBAL_W_LKEY →
  user_addr (sge_addr sg) → 0 ≤ sge_length sg < 2 ^ 32 →
  (sge_length sg < 2 ^ 28 → fits (sge_addr sg) (sge_length sg)) → 0 ≤ dseg → dseg + 16 ≤ qend →
  let k := if sge_lkey sg =? ODP_GLOBAL_R_LKEY then RIlk else WIlk in
  runs (set_data_ptr_seg (H := mr_implicit_lkey e) qend dseg sg offset m) w (λ r w',
    r = (ENOMEM, m) ∨
    ∃ p o m', r = (0, m') ∧ covered_by w' k (sge_addr sg) (sge_length sg) p ∧ w_mrs w' !! p = Some o ∧
      st qend dseg (data_seg_bytes (sge_length sg) (obj_lkey o) (sge_addr sg)) m = Ok m').
Proof.
  intros He Hh Hkey Ha Hl Hf Hd Hq k. pose proof (hist_inv e He w Hh) as Hw.
  unfold set_data_ptr_seg. replace ((sge_lkey sg =? ODP_GLOBAL_R_LKEY) || (sge_lkey sg =? ODP_GLOBAL_W_LKEY)) with true
    by (destruct Hkey as [-> | ->]; done).
  unfold set_odp_data_ptr_seg, get_real_lkey, mr_implicit_lkey, mlx5_get_real_lkey_from_implicit_lkey.
  assert (Hk : (if negb (sge_lkey sg =? ODP_GLOBAL_R_LKEY) then WIlk else RIlk) = k) by (unfold k; by destruct (_ =? _)).
  rewrite Hk. assert (Hsome : is_Some (ilk_of w k)).
  { destruct (pi_pd _ Hw) as [[pd Hpd] _]. unfold ilk_of. rewrite Hpd. unfold k. destruct (_ =? _); by eexists. }
  destruct (get_real_mr_ok e He w k (sge_addr sg) (sge_length sg) (pi_quiet _ Hw) Hsome Ha ltac:(lia) Hf)
    as ([ret mr] & w1 & E & _ & _ & _ & Hret).
  unfold runs, eff_bind. rewrite E. cbn [res_bind fst snd]. destruct mr as [p|].
  - destruct Hret as (-> & _ & Hc). pose proof Hc as (m' & Hm & _). unfold get_obj. rewrite Hm. cbn [res_bind fst snd eff_ret Z.eqb negb].
    set (bs := data_seg_bytes _ _ _). assert (E2 : st qend dseg bs m = Ok (mwrite_n m dseg bs)).
    { unfold st. assert (length bs = 16%nat) as -> by apply length_data_seg_bytes.
      rewrite (proj2 (andb_true_iff _ _)) by lia. done. }
    unfold eff_lift, eff_ret. rewrite E2. eexists _, _. split; [reflexivity|]. right. by eexists p, (ObjMr m'), _.
  - assert (Hr : ret ≠ 0) by (destruct (decide _); by subst). cbn [eff_ret res_bind fst snd]. rewrite (proj2 (Z.eqb_neq _ _) Hr).
    eexists _, _. split; [reflexivity|]. by left.
Qed.

Lemma mlx5_odp_data_seg_witness :
  runs (set_data_ptr_seg (H := mr_implicit_lkey demo_mr_env) 1024 64 (Sge 0x7f000ffff000 8192 ODP_GLOBAL_W_LKEY) 0 ∅) demo_pd (λ r w',
    r = (ENOMEM, ∅) ∨
    ∃ p o m', r = (0, m') ∧ covered_by w' WIlk 0x7f000ffff000 8192 p ∧ w_mrs w' !! p = Some o ∧
      st 1024 64 (data_seg_bytes 8192 (obj_lkey o) 0x7f000ffff000) ∅ = Ok m').
Proof.
  apply (mlx5_odp_data_seg demo_mr_env demo_pd 1024 64 0 (Sge 0x7f000ffff000 8192 ODP_GLOBAL_W_LKEY) ∅ demo_mr_laws demo_hist).
  - by right.
  - split; cbn; lia.
  - cbn. lia.
  - intros _. apply fits_short. cbn. lia.
  - done.
  - done.
Defined.

(** ** Where the code fails *)

(** A range of 128 MB inside a region, at an address one below the middle of
    it, stops the program: the byte after the range counts when the region is
    chosen. *)
Theorem mlx5_lookup_aborts :
  let addr := 0x7f0007ffffff in let len := 2 ^ 27 in
  mlx5_get_real_mr_from_implicit_lkey demo_mr_env RIlk addr len demo_pd = Fault AssertFail ∧
  (∃ k, 2 ^ 28 * k ≤ addr ∧ addr + len ≤ 2 ^ 28 * (k + 1)).
Proof. cbv zeta. split; [by vm_compute|]. exists 520192. lia. Qed.

(** A shared region can be deregistered under another thread's feet: the
    pointer is in the table before the region is marked as shared.  Thread 0
    has registered a region and holds the lock; thread 1 finds the region
    without the lock, and its program deregisters it, for good; the next step
    of thread 0 uses freed memory. *)
Theorem mlx5_shared_dereg_race :
  ∃ w p w', rtc (mr_sys demo_mr_env) (demo_pd, []) (w, [(demo_rq, PcMrRange); (demo_rq, PcDone 0 (Some p))]) ∧
    mlx5_dereg_mr demo_mr_env p w = Ok (0, w') ∧
    slot_of w' RIlk (key1 (rq_addr demo_rq)) (key2 (rq_addr demo_rq)) false = Some p ∧ w_mrs w' !! p = None ∧
    real_mr_step demo_mr_env demo_rq PcMrRange w' = Fault NullDeref.
Proof.
  set (st := sys_turns demo_mr_env (replicate 17 0 ++ replicate 22 1)%nat (demo_pd, [(demo_rq, PcStart); (demo_rq, PcStart)])).
  assert (Hr : rtc (mr_sys demo_mr_env) (demo_pd, []) st).
  { assert (H1 : rq_ok demo_rq) by (split; [split|]; cbn; lia).
    assert (Hc : ∀ ts, mr_sys demo_mr_env (demo_pd, ts) (demo_pd, ts ++ [(demo_rq, PcStart)])) by (intros; by eapply SysCall).
    eapply rtc_l; [apply (Hc [])|]. eapply rtc_l; [apply (Hc [_])|]. apply sys_turns_rtc. }
  exists st.1, 6, (match mlx5_dereg_mr demo_mr_env 6 st.1 with Ok (_, w) => w | Fault _ => st.1 end).
  split; [|split; [by vm_compute|split; [by vm_compute|split; by vm_compute]]].
  replace (st.1, _) with st by (by vm_compute). exact Hr.
Qed.
