(* ===== verification/Mlx5MrPd.v ===== *)
(** * libmlx5: the end of a protection domain

    [mlx5_free_pd] walks over the tables, deregisters every region once and
    frees the memory of the tables. *)

From stdpp Require Import base gmap list numbers relations.
From Stdlib Require Import ZArith Lia ZifyBool.
From S2P Require Import Prelude Mlx5Base Mlx5Wqe Mlx5Buf Mlx5Mr Mlx5MrProof Mlx5MrThms.

(** ** The regions of a table, in the order of the walk *)
Definition pair_ptrs (x : mlx5_pair_mrs) : list Z := option_list (mrs_0 x) ++ option_list (mrs_1 x).
Fixpoint l2_ptrs (n : nat) (l : gmap Z mlx5_pair_mrs) (i : Z) : list Z :=
  match n with O => [] | S n => pair_ptrs (default pair0 (l !! i)) ++ l2_ptrs n l (i + 1) end.
Fixpoint l1_ptrs (n : nat) (t : gmap Z (gmap Z mlx5_pair_mrs)) (i : Z) : list Z :=
  match n with
  | O => []
  | S n => (match t !! i with Some l => l2_ptrs 2048 l 0 | None => [] end) ++ l1_ptrs n t (i + 1)
  end.
Fixpoint l1_mems (n : nat) (k : ilk) (t : gmap Z (gmap Z mlx5_pair_mrs)) (i : Z) : list mr_mem :=
  match n with
  | O => []
  | S n => (match t !! i with Some _ => [MemLevel2 k i] | None => [] end) ++ l1_mems n k t (i + 1)
  end.

Lemma elem_option_list {A} (o : option A) a : a ∈ option_list o ↔ o = Some a.
Proof. destruct o; cbn; [rewrite list_elem_of_singleton|rewrite elem_of_nil]; naive_solver. Qed.

Lemma elem_pair_ptrs l i p : p ∈ pair_ptrs (default pair0 (l !! i)) ↔ ∃ idx, lslot l i idx = Some p.
Proof.
  unfold pair_ptrs, lslot. rewrite elem_of_app, !elem_option_list. split.
  - intros [H|H]; [by exists false|by exists true].
  - intros [[] H]; [by right|by left].
Qed.

Lemma elem_l2_ptrs n l p : ∀ i, p ∈ l2_ptrs n l i ↔ ∃ k2 idx, i ≤ k2 < i + Z.of_nat n ∧ lslot l k2 idx = Some p.
Proof.
  induction n as [|n IH]; intros i; cbn [l2_ptrs].
  { rewrite elem_of_nil. split; [done|]. intros (k2 & idx & ? & _). lia. }
  rewrite elem_of_app, elem_pair_ptrs, IH. split.
  - intros [[idx H]|(k2 & idx & ? & H)]; [exists i, idx|exists k2, idx]; (split; [lia|done]).
  - intros (k2 & idx & ? & H). destruct (decide (k2 = i)) as [->|]; [left; by exists idx|right]. exists k2, idx. split; [lia|done].
Qed.

Lemma elem_l1_ptrs n t p : ∀ i, p ∈ l1_ptrs n t i ↔
  ∃ k1 l k2 idx, i ≤ k1 < i + Z.of_nat n ∧ t !! k1 = Some l ∧ 0 ≤ k2 < 2048 ∧ lslot l k2 idx = Some p.
Proof.
  induction n as [|n IH]; intros i; cbn [l1_ptrs].
  { rewrite elem_of_nil. split; [done|]. intros (k1 & l & k2 & idx & ? & _). lia. }
  rewrite elem_of_app, IH. split.
  - intros [H|(k1 & l & k2 & idx & ? & H)]; [|exists k1, l, k2, idx; split; [lia|done]].
    destruct (t !! i) as [l|] eqn:E; [|by apply elem_of_nil in H]. apply elem_l2_ptrs in H as (k2 & idx & ? & H).
    exists i, l, k2, idx. split; [lia|]. split; [done|]. split; [lia|done].
  - intros (k1 & l & k2 & idx & ? & Hl & Hk & H). destruct (decide (k1 = i)) as [->|].
    + left. rewrite Hl. apply elem_l2_ptrs. exists k2, idx. split; [lia|done].
    + right. exists k1, l, k2, idx. split; [lia|done].
Qed.

Lemma elem_l1_mems n k t y : ∀ i, y ∈ l1_mems n k t i ↔
  ∃ k1 l, i ≤ k1 < i + Z.of_nat n ∧ t !! k1 = Some l ∧ y = MemLevel2 k k1.
Proof.
  induction n as [|n IH]; intros i; cbn [l1_mems].
  { rewrite elem_of_nil. split; [done|]. intros (k1 & l & ? & _). lia. }
  rewrite elem_of_app, IH. split.
  - intros [H|(k1 & l & ? & H)]; [|exists k1, l; split; [lia|done]].
    destruct (t !! i) as [l|] eqn:E; [|by apply elem_of_nil in H]. apply list_elem_of_singleton in H as ->.
    exists i, l. split; [lia|done].
  - intros (k1 & l & ? & Hl & ->). destruct (decide (k1 = i)) as [->|]; [left|right; exists k1, l; split; [lia|done]].
    rewrite Hl. by apply list_elem_of_singleton.
Qed.

Lemma NoDup_l2_ptrs n l : (∀ k2 idx k2' idx' p, lslot l k2 idx = Some p → lslot l k2' idx' = Some p → k2 = k2' ∧ idx = idx') →
  ∀ i, NoDup (l2_ptrs n l i).
Proof.
  intros Hinj. induction n as [|n IH]; intros i; cbn [l2_ptrs]; [constructor|]. apply list.NoDup_app. split; [|split; [|done]].
  - unfold pair_ptrs. apply list.NoDup_app. set (pr := default pair0 (l !! i)).
    split; [destruct (mrs_0 pr); cbn; repeat constructor; by intros ?%elem_of_nil|].
    split; [|destruct (mrs_1 pr); cbn; repeat constructor; by intros ?%elem_of_nil].
    intros p H1%elem_option_list H2%elem_option_list. by destruct (Hinj i false i true p H1 H2).
  - intros p [idx H1]%elem_pair_ptrs (k2 & idx' & ? & H2)%elem_l2_ptrs. destruct (Hinj _ _ _ _ _ H1 H2). lia.
Qed.

Lemma NoDup_l1_ptrs n t : (∀ k1 l k2 idx k1' l' k2' idx' p, t !! k1 = Some l → t !! k1' = Some l' →
    lslot l k2 idx = Some p → lslot l' k2' idx' = Some p → k1 = k1' ∧ k2 = k2' ∧ idx = idx') →
  ∀ i, NoDup (l1_ptrs n t i).
Proof.
  intros Hinj. induction n as [|n IH]; intros i; cbn [l1_ptrs]; [constructor|]. apply list.NoDup_app. split; [|split; [|done]].
  - destruct (t !! i) as [l|] eqn:E; [|constructor]. apply NoDup_l2_ptrs. intros k2 idx k2' idx' p H1 H2.
    destruct (Hinj i l k2 idx i l k2' idx' p E E H1 H2) as (_ & ? & ?). done.
  - intros p H1 (k1 & l' & k2' & idx' & ? & Hl' & _ & H2)%elem_l1_ptrs. destruct (t !! i) as [l|] eqn:E; [|by apply elem_of_nil in H1].
    apply elem_l2_ptrs in H1 as (k2 & idx & _ & H1). destruct (Hinj _ _ _ _ _ _ _ _ _ E Hl' H1 H2). lia.
Qed.

(** ** Wiping *)

(** The regions [ps] and the memory [ms] are given back, and nothing else. *)
Record wiped (w w' : mr_world) (ps : list Z) (ms : list mr_mem) : Prop := {
  wp_mrs : ∀ p, w_mrs w' !! p = if decide (p ∈ ps) then None else w_mrs w !! p;
  wp_evs : w_evs w' = w_evs w ++ map MevDereg ps;
  wp_pd : w_pd w' = w_pd w;
  wp_nodup : NoDup (w_mem w');
  wp_mem : ∀ y, y ∈ w_mem w' ↔ y ∈ w_mem w ∧ y ∉ ms
}.

Lemma wiped_trans w w1 w2 ps qs ms ns : wiped w w1 ps ms → wiped w1 w2 qs ns → wiped w w2 (ps ++ qs) (ms ++ ns).
Proof.
  intros [A1 A2 A3 A4 A5] [B1 B2 B3 B4 B5]. constructor; [| |congruence|done|].
  - intros p. rewrite B1, A1. destruct (decide (p ∈ qs)), (decide (p ∈ ps)), (decide (p ∈ ps ++ qs)); set_solver.
  - by rewrite B2, A2, map_app, app_assoc.
  - intros y. rewrite B5, A5. set_solver.
Qed.

Lemma wiped_nil w : NoDup (w_mem w) → wiped w w [] [].
Proof. intros. constructor; try done; [by rewrite app_nil_r|set_solver]. Qed.

Lemma mem_drop_ok x l : NoDup l → x ∈ l → ∃ l', mem_drop x l = Some l' ∧ NoDup l' ∧ ∀ y, y ∈ l' ↔ y ∈ l ∧ y ≠ x.
Proof.
  induction l as [|z l IH]; intros Hn Hx; [by apply elem_of_nil in Hx|]. apply list.NoDup_cons in Hn as [Hz Hn]. cbn.
  destruct (decide (z = x)) as [->|Hne].
  - exists l. split; [done|]. split; [done|]. set_solver.
  - apply elem_of_cons in Hx as [->|Hx]; [done|]. destruct (IH Hn Hx) as (l' & -> & Hn' & Hl'). exists (z :: l'). split; [done|].
    split; [|set_solver]. apply list.NoDup_cons. split; [|done]. rewrite Hl'. by intros [? _].
Qed.

Lemma mem_release_ok x w : NoDup (w_mem w) → x ∈ w_mem w → ∃ w', mem_release x w = Ok (tt, w') ∧ wiped w w' [] [x].
Proof.
  intros Hn Hx. destruct (mem_drop_ok x (w_mem w) Hn Hx) as (l & E & Hn' & Hl). unfold mem_release. rewrite E.
  eexists. split; [reflexivity|]. constructor; cbn; try done; [by rewrite app_nil_r|]. intros y. rewrite Hl. set_solver.
Qed.

Definition dereg_ok (w : mr_world) (p : Z) : Prop :=
  ∃ m, w_mrs w !! p = Some (ObjMr m) ∧ mr_no_rdma m = false ∧ mr_allocated m = false ∧
    mr_lkey m ≠ ODP_GLOBAL_R_LKEY ∧ mr_lkey m ≠ ODP_GLOBAL_W_LKEY.

Lemma dereg_ok_wiped w w' ps ms p : wiped w w' ps ms → p ∉ ps → dereg_ok w p → dereg_ok w' p.
Proof. intros Hw Hp (m & Hm & H). exists m. split; [|done]. rewrite (wp_mrs _ _ _ _ Hw). by rewrite decide_False. Qed.

(** ** The walk; the kernel refuses nothing *)
Section Walk.
Context (e : mr_env) (Hcmd : ∀ t, me_cmd e t = 0).

Lemma destroy_slot_ok w o : NoDup (w_mem w) → (∀ p, o = Some p → dereg_ok w p) →
  ∃ w', destroy_slot e o w = Ok (tt, w') ∧ wiped w w' (option_list o) [].
Proof using Hcmd.
  intros Hn Ho. destruct o as [p|]; [|exists w; split; [done|by apply wiped_nil]].
  destruct (Ho p eq_refl) as (m & Hm & Hr & Ha & K1 & K2).
  unfold destroy_slot, mlx5_dereg_mr, get_mmr, get_obj, put_obj, free_obj, free_mr_buf, eff_bind, eff_ret.
  rewrite Hm. cbn. rewrite lookup_insert_eq. cbn. rewrite (proj2 (Z.eqb_neq _ _) K1), (proj2 (Z.eqb_neq _ _) K2). cbn.
  rewrite lookup_insert_eq. cbn. rewrite Hr. unfold tick, emit. cbn. rewrite Hcmd. cbn. rewrite Ha. cbn.
  eexists. split; [reflexivity|]. constructor; cbn; try done; [|set_solver].
  intros q. destruct (decide (q ∈ [p])) as [->%list_elem_of_singleton|Hq]; [by rewrite lookup_delete_eq|].
  rewrite list_elem_of_singleton in Hq. by rewrite lookup_delete_ne, lookup_insert_ne.
Qed.

Lemma destroy_pairs_ok n l : ∀ i w, NoDup (w_mem w) → NoDup (l2_ptrs n l i) → (∀ p, p ∈ l2_ptrs n l i → dereg_ok w p) →
  ∃ w', destroy_pairs e n l i w = Ok (tt, w') ∧ wiped w w' (l2_ptrs n l i) [].
Proof using Hcmd.
  induction n as [|n IH]; intros i w Hn Hd Hok; cbn [l2_ptrs destroy_pairs] in *; [exists w; split; [done|by apply wiped_nil]|].
  set (x := default pair0 (l !! i)) in *. apply list.NoDup_app in Hd as (Hd1 & Hd2 & Hd3).
  unfold pair_ptrs in *. apply list.NoDup_app in Hd1 as (_ & Hd1 & _).
  destruct (destroy_slot_ok w (mrs_0 x) Hn) as (w1 & E1 & H1).
  { intros p Hp. apply Hok. rewrite !elem_of_app, elem_option_list. auto. }
  destruct (destroy_slot_ok w1 (mrs_1 x) (wp_nodup _ _ _ _ H1)) as (w2 & E2 & H2).
  { intros p Hp. apply (dereg_ok_wiped _ _ _ _ _ H1); [|apply Hok; rewrite !elem_of_app, !elem_option_list; auto].
    intros Hq. apply (Hd1 p Hq). by apply elem_option_list. }
  pose proof (wiped_trans _ _ _ _ _ _ _ H1 H2) as H12.
  destruct (IH (i + 1) w2 (wp_nodup _ _ _ _ H2) Hd3) as (w3 & E3 & H3).
  { intros p Hp. apply (dereg_ok_wiped _ _ _ _ _ H12); [|apply Hok; rewrite elem_of_app; auto].
    intros Hq. by apply (Hd2 p Hq). }
  exists w3. split; [|apply (wiped_trans _ _ _ _ _ [] [] H12 H3)].
  rewrite (bind_run _ _ _ _ _ E1), (bind_run _ _ _ _ _ E2). done.
Qed.

Lemma destroy_level1_ok n k t : ∀ i w, NoDup (w_mem w) → NoDup (l1_ptrs n t i) →
  (∀ p, p ∈ l1_ptrs n t i → dereg_ok w p) → (∀ y, y ∈ l1_mems n k t i → y ∈ w_mem w) →
  ∃ w', destroy_level1 e n k t i w = Ok (tt, w') ∧ wiped w w' (l1_ptrs n t i) (l1_mems n k t i).
Proof using Hcmd.
  induction n as [|n IH]; intros i w Hn Hd Hok Hm; cbn [l1_ptrs l1_mems destroy_level1] in *; [exists w; split; [done|by apply wiped_nil]|].
  apply list.NoDup_app in Hd as (Hd1 & Hd2 & Hd3).
  assert (∃ w1, (match t !! i with Some l => destroy_level2 e k i l | None => eff_ret tt end) w = Ok (tt, w1) ∧
    wiped w w1 (match t !! i with Some l => l2_ptrs 2048 l 0 | None => [] end)
      (match t !! i with Some _ => [MemLevel2 k i] | None => [] end)) as (w1 & E1 & H1).
  { destruct (t !! i) as [l|] eqn:El; [|exists w; split; [done|by apply wiped_nil]].
    destruct (destroy_pairs_ok 2048 l 0 w Hn Hd1) as (w1 & E1 & H1); [intros p Hp; apply Hok, elem_of_app; by left|].
    destruct (mem_release_ok (MemLevel2 k i) w1 (wp_nodup _ _ _ _ H1)) as (w2 & E2 & H2).
    { apply (wp_mem _ _ _ _ H1). split; [apply Hm, elem_of_app; left; by apply list_elem_of_singleton|by intros ?%elem_of_nil]. }
    exists w2. unfold destroy_level2. rewrite (bind_run _ _ _ _ _ E1). split; [done|].
    pose proof (wiped_trans _ _ _ _ _ _ _ H1 H2) as H12. by rewrite app_nil_r in H12. }
  destruct (IH (i + 1) w1 (wp_nodup _ _ _ _ H1) Hd3) as (w2 & E2 & H2).
  - intros p Hp. apply (dereg_ok_wiped _ _ _ _ _ H1); [|apply Hok, elem_of_app; by right]. intros Hq. by apply (Hd2 p Hq).
  - intros y Hy. apply (wp_mem _ _ _ _ H1). split; [apply Hm, elem_of_app; by right|].
    apply elem_l1_mems in Hy as (k1 & l & ? & _ & ->). destruct (t !! i); [|by intros ?%elem_of_nil].
    rewrite list_elem_of_singleton. intros [= ->]. lia.
  - exists w2. split; [by rewrite (bind_run _ _ _ _ _ E1)|by eapply wiped_trans].
Qed.

(** The regions and the memory of one table. *)
Definition ilk_ptrs (x : mlx5_implicit_lkey) : list Z := match il_table x with TLive t => l1_ptrs 1024 t 0 | _ => [] end.
Definition ilk_mems (k : ilk) (x : mlx5_implicit_lkey) : list mr_mem :=
  match il_table x with TLive t => l1_mems 1024 k t 0 ++ [MemTable k] | _ => [] end.

Lemma upd_mem w k x : w_mem (upd w k x) = w_mem w ∧ w_mrs (upd w k x) = w_mrs w ∧ w_evs (upd w k x) = w_evs w.
Proof using. unfold upd. by destruct (w_pd w). Qed.

Lemma destroy_ilk_ok k w x : ilk_of w k = Some x → il_table x ≠ TDangling → NoDup (w_mem w) → NoDup (ilk_ptrs x) →
  (∀ p, p ∈ ilk_ptrs x → dereg_ok w p) → (∀ y, y ∈ ilk_mems k x → y ∈ w_mem w) →
  ∃ w' x', mlx5_destroy_implicit_lkey e k w = Ok (tt, w') ∧
    (∀ k', ilk_of w' k' = if decide (k' = k) then Some x' else ilk_of w k') ∧
    (∀ p, w_mrs w' !! p = if decide (p ∈ ilk_ptrs x) then None else w_mrs w !! p) ∧
    w_evs w' = w_evs w ++ map MevDereg (ilk_ptrs x) ∧
    NoDup (w_mem w') ∧ (∀ y, y ∈ w_mem w' ↔ y ∈ w_mem w ∧ y ∉ ilk_mems k x).
Proof using Hcmd.
  intros Hx Hd Hn Hp Hok Hm. unfold mlx5_destroy_implicit_lkey. rewrite (bind_run _ _ _ _ _ (get_ilk_ok w k x Hx)).
  rewrite (bind_run _ _ _ _ _ (put_ilk_ok w k x _ Hx)). set (x1 := Ilkey (il_table x) (il_access x) Destroyed).
  set (w1 := upd w k x1). destruct (upd_mem w k x1) as (F1 & F2 & F3). fold w1 in F1, F2, F3.
  assert (Hx1 : ∀ k', ilk_of w1 k' = if decide (k' = k) then Some x1 else ilk_of w k') by (intros; by apply (ilk_of_upd w k x)).
  clearbody w1 x1. unfold ilk_ptrs, ilk_mems in *. destruct (il_table x) as [|t|] eqn:Et; [|clear Hd|done].
  - exists w1, x1. split; [done|]. split; [done|].
    rewrite F1, F2, F3, app_nil_r. split; [intros p; rewrite decide_False; [done|apply not_elem_of_nil]|].
    split; [done|]. split; [done|]. intros y. split; [|by intros []]. intros; split; [done|apply not_elem_of_nil].
  - assert (Hok1 : ∀ p, p ∈ l1_ptrs 1024 t 0 → dereg_ok w1 p) by (intros p Hp'; unfold dereg_ok; rewrite F2; by apply Hok).
    destruct (destroy_level1_ok 1024 k t 0 w1) as (w2 & E2 & H2); [by rewrite F1|done|done|
      intros y Hy; rewrite F1; apply Hm, elem_of_app; by left|].
    destruct (mem_release_ok (MemTable k) w2 (wp_nodup _ _ _ _ H2)) as (w3 & E3 & H3).
    { apply (wp_mem _ _ _ _ H2). rewrite F1. split; [apply Hm, elem_of_app; right; by apply list_elem_of_singleton|].
      by intros (? & ? & ? & ? & [=])%elem_l1_mems. }
    pose proof (wiped_trans _ _ _ _ _ _ _ H2 H3) as H23. rewrite app_nil_r in H23.
    assert (Hx3 : ilk_of w3 k = Some x1).
    { rewrite (ilk_of_pd w1), Hx1, decide_True by (done || apply H23). done. }
    rewrite (bind_run _ _ _ _ _ E2), (bind_run _ _ _ _ _ E3), (put_ilk_ok w3 k x1 _ Hx3).
    set (x2 := Ilkey TDangling _ _). destruct (upd_mem w3 k x2) as (G1 & G2 & G3).
    eexists _, x2. split; [reflexivity|]. rewrite G1, G2, G3. split; [|split; [|split; [|split]]].
    + intros k'. rewrite (ilk_of_upd w3 k x1) by done. destruct (decide (k' = k)); [done|].
      rewrite (ilk_of_pd w1), Hx1, decide_False by (done || apply H23). done.
    + intros p. rewrite (wp_mrs _ _ _ _ H23), F2. done.
    + by rewrite (wp_evs _ _ _ _ H23), F3.
    + apply H23.
    + intros y. by rewrite (wp_mem _ _ _ _ H23), F1.
Qed.
End Walk.

(** ** All tables *)
#[local] Arguments l1_ptrs : simpl never.
#[local] Arguments l2_ptrs : simpl never.
#[local] Arguments l1_mems : simpl never.

Section Tables.
Context (w : mr_world) (Hw : pd_inv w).

Lemma ilk_ptrs_slot k x p : ilk_of w k = Some x → p ∈ ilk_ptrs x ↔ ∃ k1 k2 idx, slot_of w k k1 k2 idx = Some p.
Proof using Hw.
  intros Hx. pose proof (si_tab _ (pi_quiet _ Hw)) as HT. cbn [fst] in HT. unfold ilk_ptrs, slot_of. rewrite Hx. cbn [mbind option_bind].
  unfold xslot, xl2.
  pose proof (λ k1 l, ti_keys _ HT k x k1 l Hx) as Hk. unfold xl2 in Hk.
  destruct (il_table x) as [|t|]; [rewrite elem_of_nil; naive_solver| |rewrite elem_of_nil; naive_solver].
  rewrite elem_l1_ptrs. split.
  - intros (k1 & l & k2 & idx & _ & Hl & _ & H). exists k1, k2, idx. by rewrite Hl.
  - intros (k1 & k2 & idx & H). destruct (t !! k1) as [l|] eqn:El; [|done]. cbn [mbind option_bind] in H. destruct (Hk k1 l El) as [? Hk2].
    exists k1, l, k2, idx. split; [lia|]. split; [done|]. split; [|done]. unfold lslot in H.
    destruct (l !! k2) as [pr|] eqn:Epr; [by apply (Hk2 k2 pr)|by destruct idx].
Qed.

Lemma ilk_mems_tab k x y : ilk_of w k = Some x →
  y ∈ ilk_mems k x ↔ y ∈ w_mem w ∧ (y = MemTable k ∨ ∃ k1, y = MemLevel2 k k1).
Proof using Hw.
  intros Hx. pose proof (si_tab _ (pi_quiet _ Hw)) as HT. cbn [fst] in HT. destruct (ti_mem _ HT) as (_ & M1 & M2).
  pose proof (λ k1 l, ti_keys _ HT k x k1 l Hx) as Hk. unfold ilk_mems.
  split.
  - destruct (il_table x) as [|t|] eqn:Et; [by intros ?%elem_of_nil| |by intros ?%elem_of_nil].
    rewrite elem_of_app, list_elem_of_singleton, elem_l1_mems. intros [(k1 & l & _ & Hl & ->)| ->].
    + split; [|right; by exists k1]. apply M2. exists x, l. split; [done|]. unfold xl2. by rewrite Et.
    + split; [|by left]. apply M1. exists x. split; [done|]. unfold xlive. by rewrite Et.
  - intros [Hy [-> |[k1 ->]]].
    + apply M1 in Hy as (x' & Hx' & Hl). assert (x' = x) as -> by congruence. unfold xlive in Hl.
      destruct (il_table x); [done| |done]. apply elem_of_app. right. by apply list_elem_of_singleton.
    + apply M2 in Hy as (x' & l & Hx' & Hl). assert (x' = x) as -> by congruence. destruct (Hk k1 l Hl) as [? _]. unfold xl2 in Hl.
      destruct (il_table x) as [|t|]; [done| |done]. apply elem_of_app. left. apply elem_l1_mems. exists k1, l. split; [lia|done].
Qed.

Lemma NoDup_ilk_ptrs k x : ilk_of w k = Some x → NoDup (ilk_ptrs x).
Proof using Hw.
  intros Hx. pose proof (si_tab _ (pi_quiet _ Hw)) as HT. cbn [fst] in HT. unfold ilk_ptrs.
  destruct (il_table x) as [|t|] eqn:Et; [constructor| |constructor].
  apply NoDup_l1_ptrs. intros k1 l k2 idx k1' l' k2' idx' p Hl Hl' H1 H2.
  destruct (ti_inj _ HT k k1 k2 idx k k1' k2' idx' p) as (_ & ? & ? & ?); [| |done];
    unfold slot_of; rewrite Hx; cbn [mbind option_bind]; unfold xslot, xl2; rewrite Et; [by rewrite Hl|by rewrite Hl'].
Qed.

Lemma ilk_ptrs_disjoint k x k' x' p : ilk_of w k = Some x → ilk_of w k' = Some x' → k ≠ k' →
  p ∈ ilk_ptrs x → p ∈ ilk_ptrs x' → False.
Proof using Hw.
  intros Hx Hx' Hne. rewrite (ilk_ptrs_slot k x) by done. rewrite (ilk_ptrs_slot k' x') by done.
  intros (k1 & k2 & idx & H) (k1' & k2' & idx' & H'). pose proof (si_tab _ (pi_quiet _ Hw)) as HT.
  by destruct (ti_inj _ HT _ _ _ _ _ _ _ _ _ H H').
Qed.

Lemma ilk_ptrs_ok k x p : ilk_of w k = Some x → p ∈ ilk_ptrs x → dereg_ok w p.
Proof using Hw.
  intros Hx (k1 & k2 & idx & H)%(ilk_ptrs_slot k x); [|done]. pose proof (si_tab _ (pi_quiet _ Hw)) as HT.
  destruct (ti_slot _ HT _ _ _ _ _ H) as (m & Hm & _ & _ & ? & ? & ? & ? & _). by exists m.
Qed.

(** The regions of the tables [ks] are gone, and so is their memory. *)
Record gone (ks : list ilk) (w' : mr_world) (ps : list Z) : Prop := {
  go_ptrs : ∀ p, p ∈ ps ↔ ∃ k x, k ∈ ks ∧ ilk_of w k = Some x ∧ p ∈ ilk_ptrs x;
  go_nodup : NoDup ps;
  go_ilk : ∀ k, k ∉ ks → ilk_of w' k = ilk_of w k;
  go_some : ∀ k, is_Some (ilk_of w k) → is_Some (ilk_of w' k);
  go_mrs : ∀ p, w_mrs w' !! p = if decide (p ∈ ps) then None else w_mrs w !! p;
  go_evs : w_evs w' = w_evs w ++ map MevDereg ps;
  go_mem : NoDup (w_mem w') ∧
    ∀ y, y ∈ w_mem w' ↔ y ∈ w_mem w ∧ ∀ k, k ∈ ks → y ≠ MemTable k ∧ ∀ k1, y ≠ MemLevel2 k k1
}.

Lemma gone_nil : gone [] w [].
Proof using Hw.
  constructor; try done.
  - intros p. rewrite elem_of_nil. split; [done|]. by intros (k & x & ?%elem_of_nil & _).
  - constructor.
  - by rewrite app_nil_r.
  - split; [apply (ti_mem _ (si_tab _ (pi_quiet _ Hw)))|]. intros y. split; [|by intros []]. intros H. split; [done|].
    by intros k ?%elem_of_nil.
Qed.

Lemma gone_next e ks w1 ps k x : (∀ t, me_cmd e t = 0) → gone ks w1 ps → k ∉ ks → ilk_of w k = Some x →
  ∃ w2, mlx5_destroy_implicit_lkey e k w1 = Ok (tt, w2) ∧ gone (k :: ks) w2 (ps ++ ilk_ptrs x).
Proof using Hw.
  intros Hcmd [G1 G2 G3 G3' G4 G5 [G6 G7]] Hk Hx. pose proof (si_tab _ (pi_quiet _ Hw)) as HT. cbn [fst] in HT.
  assert (Hdis : ∀ p, p ∈ ps → p ∈ ilk_ptrs x → False).
  { intros p (k' & x' & Hk' & Hx' & Hp)%G1 Hp'. apply (ilk_ptrs_disjoint k' x' k x p); try done. by intros ->. }
  assert (Hmem : ∀ y, y ∈ w_mem w1 ∧ y ∉ ilk_mems k x ↔ y ∈ w_mem w ∧ ∀ k', k' ∈ k :: ks → y ≠ MemTable k' ∧ ∀ k1, y ≠ MemLevel2 k' k1).
  { intros y. rewrite (ilk_mems_tab k x y Hx), G7. split.
    - intros [[Hy Hn] Hm]. split; [done|]. intros k' [->|Hk']%elem_of_cons; [|by apply Hn].
      split; [intros ->; apply Hm; auto|]. intros k1 ->. apply Hm. split; [done|]. right. by exists k1.
    - intros [Hy Hn]. split; [split; [done|]; intros k' Hk'; apply Hn; by right|].
      intros [_ H]. destruct (Hn k ltac:(left)) as [N1 N2]. destruct H as [?|[k1 ?]]; [done|]. by apply (N2 k1). }
  destruct (destroy_ilk_ok e Hcmd k w1 x) as (w2 & x' & E & I & M & V & N & Me).
  - by rewrite G3.
  - apply (ti_x _ HT k x Hx).
  - done.
  - by eapply NoDup_ilk_ptrs.
  - intros p Hp. destruct (ilk_ptrs_ok k x p Hx Hp) as (m & Hm & H). exists m. split; [|done]. rewrite G4, decide_False; [done|].
    intros Hp'. by apply (Hdis p).
  - intros y Hy. apply (ilk_mems_tab k x y Hx) in Hy as [Hy Hs]. apply G7. split; [done|]. intros k' Hk'.
    destruct Hs as [->|[k1 ->]]; (split; [|intros k1']); intros E; try discriminate; injection E; intros; by subst.
  - exists w2. split; [done|]. constructor.
    + intros p. rewrite elem_of_app, G1. split.
      * intros [(k' & y & ? & ? & ?)|Hp]; [exists k', y|exists k, x]; rewrite elem_of_cons; auto.
      * intros (k' & y & [->|Hk']%elem_of_cons & Hy & Hp); [right; congruence|left; by exists k', y].
    + apply list.NoDup_app. split; [done|]. split; [|by eapply NoDup_ilk_ptrs]. intros p H1 H2. by apply (Hdis p).
    + intros k' [Hne Hk']%not_elem_of_cons. rewrite I, decide_False by done. by apply G3.
    + intros k' Hk'. rewrite I. destruct (decide _); [by eexists|by apply G3'].
    + intros p. rewrite M, G4. destruct (decide (p ∈ ilk_ptrs x)), (decide (p ∈ ps)), (decide (p ∈ ps ++ ilk_ptrs x)); set_solver.
    + by rewrite V, G5, map_app, app_assoc.
    + split; [done|]. intros y. by rewrite Me, Hmem.
Qed.
End Tables.

(** All regions of the tables, and all memory of the tables. *)
Record cleared (w w' : mr_world) (ps : list Z) : Prop := {
  cl_ptrs : ∀ p, p ∈ ps ↔ ∃ k k1 k2 idx, slot_of w k k1 k2 idx = Some p;
  cl_nodup : NoDup ps;
  cl_mrs : ∀ p, w_mrs w' !! p = if decide (p ∈ ps) then None else w_mrs w !! p;
  cl_evs : w_evs w' = w_evs w ++ map MevDereg ps;
  cl_mem : NoDup (w_mem w') ∧ ∀ y, y ∈ w_mem w' ↔ y ∈ w_mem w ∧ own_mem y = true
}.

Lemma gone_all w ks w' ps pd' : pd_inv w → gone w ks w' ps → (∀ k, is_Some (ilk_of w k) → k ∈ ks) →
  cleared w (set_pd w' pd') ps.
Proof.
  intros Hw [G1 G2 _ _ G4 G5 [G6 G7]] Hks. destruct (ti_mem _ (si_tab _ (pi_quiet _ Hw))) as (_ & M1 & M2). cbn [fst] in M1, M2.
  constructor; cbn [w_mrs w_evs w_mem set_pd]; try done.
  - intros p. rewrite G1. split.
    + intros (k & x & _ & Hx & Hp). apply (ilk_ptrs_slot w Hw k x p Hx) in Hp as (k1 & k2 & idx & H). by exists k, k1, k2, idx.
    + intros (k & k1 & k2 & idx & H). pose proof H as (x & Hx & _)%slot_of_Some. exists k, x.
      split; [apply Hks; by eexists|]. split; [done|]. apply (ilk_ptrs_slot w Hw k x p Hx). by exists k1, k2, idx.
  - split; [done|]. intros y. rewrite G7. split; intros [Hy H]; (split; [done|]).
    + destruct y as [| |k|k k1]; try done; exfalso.
      * pose proof Hy as (x & Hx & _)%M1. destruct (H k) as [H1 _]; [apply Hks; by eexists|]. done.
      * pose proof Hy as (x & l & Hx & _)%M2. destruct (H k) as [_ H1]; [apply Hks; by eexists|]. by apply (H1 k1).
    + intros k _. by destruct y.
Qed.

(** [mlx5_free_pd] destroys all tables that exist. *)
Lemma free_tables e w : (∀ t, me_cmd e t = 0) → pd_inv w →
  ∃ w1 ps, cleared w w1 ps ∧
    mlx5_free_pd e w = (let* t := tick in
      if negb (me_cmd e t =? 0) then eff_ret (me_cmd e t)
      else emit MevDeallocPd ;* mem_release MemPd ;* (λ w, Ok (tt, set_pd w None)) ;* eff_ret 0) w1.
Proof.
  intros Hcmd Hw. destruct (pi_pd _ Hw) as [[pd Hpd] _].
  assert (Hi : ∀ k, ilk_of w k = pd_ilk pd k) by (intros k; unfold ilk_of; by rewrite Hpd).
  assert (Hlive : ∀ ks w' ps, gone w ks w' ps → ∃ pd', w_pd w' = Some pd').
  { intros ks w' ps G. destruct (go_some _ _ _ _ G RIlk) as [x Hx]; [by rewrite Hi; eexists|]. unfold ilk_of in Hx.
    destruct (w_pd w') as [pd'|]; [by exists pd'|done]. }
  destruct (gone_next w Hw e [] w [] RIlk _ Hcmd (gone_nil w Hw) ltac:(apply not_elem_of_nil) (Hi RIlk)) as (w1 & E1 & G1).
  destruct (gone_next w Hw e _ w1 _ WIlk _ Hcmd G1 ltac:(set_solver) (Hi WIlk)) as (w2 & E2 & G2).
  unfold mlx5_free_pd. rewrite (bind_run _ _ _ _ _ E1), (bind_run _ _ _ _ _ E2).
  destruct (Hlive _ _ _ G2) as [pd2 Hpd2].
  assert (Erem : remote_ilkey pd2 = remote_ilkey pd).
  { assert (H := go_ilk _ _ _ _ G2 RemoteIlk ltac:(set_solver)). rewrite Hi in H. unfold ilk_of in H. by rewrite Hpd2 in H. }
  assert (Ethe : the_pd w2 = Ok (pd2, w2)) by (unfold the_pd; by rewrite Hpd2). rewrite (bind_run _ _ _ _ _ Ethe), Erem.
  destruct (remote_ilkey pd) as [x|] eqn:Ex.
  - destruct (gone_next w Hw e _ w2 _ RemoteIlk x Hcmd G2 ltac:(set_solver) ltac:(by rewrite Hi)) as (w3 & E3 & G3).
    destruct (Hlive _ _ _ G3) as [pd3 Hpd3]. set (pd' := Pd (pdn pd3) (r_ilkey pd3) (w_ilkey pd3) None).
    exists (set_pd w3 (Some pd')). eexists. split; [apply (gone_all w _ _ _ _ Hw G3); intros []; set_solver|].
    unfold eff_bind at 1. rewrite (bind_run _ _ _ _ _ E3). unfold eff_bind at 1. unfold the_pd. rewrite Hpd3. done.
  - exists w2. eexists. split; [|done]. replace w2 with (set_pd w2 (w_pd w2)) by (by destruct w2).
    apply (gone_all w _ _ _ _ Hw G2). intros []; rewrite Hi; cbn; [set_solver|set_solver|]. rewrite Ex. by intros [].
Qed.

(** C15: the end of a protection domain.  After any history of concurrent
    lookups, prefetching and shared registrations, and as long as the kernel
    refuses no command, [mlx5_free_pd] returns 0: it has deregistered every
    region of the tables exactly once, no region is left, and all memory of
    the domain and its tables is freed, once each, with one exception: the
    structure of the table for remote access, if there was one. *)
Theorem mlx5_pd_lifecycle (e : mr_env) (w : mr_world) :
  mr_laws e → (∀ t, me_cmd e t = 0) → mr_hist e w →
  runs (mlx5_free_pd e) w (λ ret w', ret = 0 ∧ w_pd w' = None ∧ w_mrs w' = ∅ ∧
    (∃ ps, w_evs w' = w_evs w ++ map MevDereg ps ++ [MevDeallocPd] ∧ ps ≡ₚ (regs w).*1) ∧
    w_mem w' = match ilk_of w RemoteIlk with Some _ => [MemRemote] | None => [] end).
Proof.
  intros He Hcmd Hh. pose proof (hist_inv e He w Hh) as Hw. destruct (free_tables e w Hcmd Hw) as (w1 & ps & [C1 C2 C3 C4 [C5 C6]] & E).
  destruct (si_reg _ (pi_quiet _ Hw)) as [R1 R2 R3]. cbn [fst] in R1, R2, R3. pose proof (si_tab _ (pi_quiet _ Hw)) as HT. cbn [fst] in HT.
  destruct (mem_drop_ok MemPd (w_mem w1) C5) as (l & El & Hl & Hlm); [apply C6; split; [apply Hw|done]|].
  unfold runs. rewrite E. unfold eff_bind, tick, emit, mem_release, eff_ret. cbn [res_bind fst snd]. rewrite Hcmd. cbn. rewrite El. cbn.
  eexists _, _. split; [reflexivity|]. cbn. split; [done|]. split; [done|]. split; [|split].
  - apply map_eq. intros p. rewrite C3, lookup_empty. destruct (decide (p ∈ ps)) as [|Hp]; [done|].
    destruct (w_mrs w !! p) as [o|] eqn:Eo; [|done]. destruct Hp. apply C1. by apply (R3 p o).
  - exists ps. split; [by rewrite C4, app_assoc|]. apply NoDup_Permutation; [done|done|]. intros p. rewrite C1, list_elem_of_fmap. split.
    + intros (k & k1 & k2 & idx & H). destruct (ti_slot _ HT _ _ _ _ _ H) as (m & _ & _ & _ & _ & _ & _ & _ & Hev).
      eexists (p, _). split; [done|]. unfold regs. apply list_elem_of_omap. eexists. by split.
    + intros ([q [a b]] & -> & Hq). destruct (R2 q a b Hq) as (k & k1 & k2 & idx & H & _). by exists k, k1, k2, idx.
  - assert (Hy : ∀ y, y ∈ l ↔ y = MemRemote ∧ is_Some (ilk_of w RemoteIlk)).
    { intros y. rewrite Hlm, C6, <-(pi_remote _ Hw). destruct y; naive_solver. }
    destruct (ilk_of w RemoteIlk) as [x|].
    + apply Permutation_singleton_r. apply NoDup_Permutation; [done|apply NoDup_singleton|]. intros y.
      rewrite Hy, list_elem_of_singleton. naive_solver.
    + destruct l as [|y l]; [done|]. destruct (proj1 (Hy y)) as [_ []]; [left|done].
Qed.

(** The example of [Mlx5MrThms], then a shared region for remote access. *)
Definition demo_remote_access : exp_access := Access true true false false true true false false false.
Definition demo_shared : mr_world :=
  match reg_relaxed demo_mr_env (RegIn 0x7f0000200000 65536 demo_remote_access false false) demo_end.1 with
  | Ok (_, w) => w
  | Fault _ => demo_end.1
  end.

Lemma demo_shared_hist : mr_hist demo_mr_env demo_shared.
Proof.
  apply (HistRelaxed demo_mr_env demo_end.1 (RegIn 0x7f0000200000 65536 demo_remote_access false false) (Some 14)).
  - apply (HistCalls demo_mr_env demo_pd demo_end.1 demo_end.2 demo_hist demo_calls_reach).
    vm_compute. repeat constructor; by eexists _, _.
  - split; cbn; lia.
  - cbn. lia.
  - intros _. apply fits_short. cbn. lia.
  - by vm_compute.
Qed.

Lemma mlx5_pd_lifecycle_witness :
  runs (mlx5_free_pd demo_mr_env) demo_shared (λ ret w', ret = 0 ∧ w_pd w' = None ∧ w_mrs w' = ∅ ∧
    (∃ ps, w_evs w' = w_evs demo_shared ++ map MevDereg ps ++ [MevDeallocPd] ∧ ps ≡ₚ (regs demo_shared).*1) ∧
    w_mem w' = [MemRemote]).
Proof.
  exact (mlx5_pd_lifecycle demo_mr_env demo_shared demo_mr_laws (λ _, eq_refl) demo_shared_hist).
Defined.

(** ** Regions of their own *)
Definition rest (w : mr_world) : gmap Z mr_obj * option mlx5_pd * list mr_mem := (w_mrs w, w_pd w, w_mem w).

Lemma alloc_buf_rest e b n a : keeps rest (alloc_buf e b n a).
Proof.
  assert (Hemit : ∀ v, keeps rest (emit v)) by (by intros v w x w' [= _ <-]).
  unfold alloc_buf, alloc_anon. within_tac.
Qed.

Lemma free_mr_buf_rest m w : ∃ w', free_mr_buf m w = Ok (tt, w') ∧ rest w' = rest w.
Proof. unfold free_mr_buf, emit, eff_ret. destruct (mr_allocated m); by eexists. Qed.

(** A region that is not shared, or one of the whole address space: what
    [ibv_reg_mr] makes is gone after [ibv_dereg_mr], with the buffer that the
    driver allocated for it, if any. *)
Theorem mlx5_reg_dereg_roundtrip (e : mr_env) (i i' : reg_in) (w w1 : mr_world) (p : Z) :
  mr_laws e → (∀ t, me_cmd e t = 0) → (∀ q o, w_mrs w !! q = Some o → q < Z.of_nat (w_time w)) →
  acc_relaxed (in_access i) = false → mlx5_exp_reg_mr e i w = Ok ((Some p, i'), w1) →
  ∃ w2, mlx5_dereg_mr e p w1 = Ok (0, w2) ∧ rest w2 = rest w.
Proof.
  intros [_ Hkeys] Hcmd Hfresh Hrel E. unfold mlx5_exp_reg_mr, exp_reg_mr_with in E.
  destruct (_ || _); [done|]. assert (Hp : w_mrs w !! Z.of_nat (w_time w) = None).
  { destruct (w_mrs w !! _) as [o|] eqn:Eo; [|done]. apply Hfresh in Eo. lia. }
  destruct (_ && acc_on_demand (in_access i)) eqn:Ew.
  { apply eff_bind_Ok in E as (q & w3 & E & E2). injection E2 as -> <- ->. revert E. unfold mlx5_alloc_whole_addr_mr.
    destruct (_ || _); [done|]. unfold eff_bind, tick, put_obj, eff_ret. cbn. destruct (me_alloc e (w_time w)); [|done].
    intros [= <- <-]. unfold mlx5_dereg_mr, mlx5_dealloc_whole_addr_mr, get_obj, free_obj, eff_bind. cbn. rewrite lookup_insert_eq. cbn.
    destruct (acc_local_write (in_access i)); cbn; eexists; (split; [reflexivity|]); unfold rest; cbn; by rewrite delete_insert_id. }
  rewrite Hrel, andb_false_r in E. unfold reg_strict in E. apply eff_bind_Ok in E as (t & w3 & [= <- <-] & E).
  destruct (me_alloc e (w_time w)); [|done]. cbn [negb] in E. apply eff_bind_Ok in E as ([a b] & w4 & Eb & E).
  set (contig := _ || in_contig i) in *. assert (Hr : rest w4 = rest w).
  { destruct contig; [by apply (alloc_buf_rest _ _ _ _ _ _ _ Eb)|by injection Eb as <- <- <-]. }
  destruct (contig && (a =? 0)); [done|]. apply eff_bind_Ok in E as (t2 & w5 & [= <- <-] & E).
  destruct (me_reg e _ _ _ _) as [[[lkey rkey] h]|err] eqn:Er.
  2:{ apply eff_bind_Ok in E as (? & ? & _ & [=]). }
  apply Hkeys in Er as [K1 K2]. unfold eff_bind, emit, put_obj, eff_ret in E. cbn in E. injection E as <- <- <-.
  unfold rest in Hr. injection Hr as R1 R2 R3.
  unfold mlx5_dereg_mr, get_mmr, get_obj, eff_bind, tick, emit, eff_ret. cbn. rewrite R1, lookup_insert_eq. cbn.
  rewrite (proj2 (Z.eqb_neq _ _) K1), (proj2 (Z.eqb_neq _ _) K2). cbn. rewrite lookup_insert_eq. cbn. rewrite Hcmd. cbn.
  match goal with |- context [free_mr_buf ?m ?v] => destruct (free_mr_buf_rest m v) as (w6 & -> & R6) end. cbn.
  eexists. split; [reflexivity|]. unfold rest in *. cbn in *. injection R6 as -> -> ->. rewrite R2, R3, delete_insert_id by done. done.
Qed.
