(* ===== verification/Mlx5Create.v ===== *)
(** * libmlx5: creating and destroying queue pairs
    (src/drivers/libmlx5-1.0.2mlnx1/src/verbs.c)

    [create_qp] allocates the queue pair, its arrays and buffers, a doorbell
    record and an entry of a table, and asks the kernel for the queue pair;
    each failure jumps to the label that releases what is held so far.  What
    malloc, the buffer allocator and the kernel answer is a record of
    answers; the objects held are a list, and releasing one that is not held
    is a fault. *)

From stdpp Require Import base gmap list numbers.
From Stdlib Require Import ZArith Lia.
From S2P Require Import Prelude Mlx5Base Mlx5Wqe Mlx5Send Mlx5Recv Mlx5Size Mlx5Table Mlx5Srq Mlx5Cq Mlx5Poll.

(** ** Objects and locks *)
Inductive held : Type :=
| HQp                (** the structure itself *)
| HSqWrid | HWqeHead | HRqWrid
| HBuf | HSqBuf
| HDb
| HKernelQp          (** the object of the kernel *)
| HHrdLock           (** [mlx5_hrd_global_lock] *)
| HRscLock           (** [rsc_table_mutex] *)
| HCq | HCqBuf | HCqDb | HKernelCq
| HSrq | HSrqWrid | HSrqBuf | HSrqDb | HKernelSrq | HSrqLock.

#[global] Instance held_eq_dec : EqDecision held.
Proof. solve_decision. Defined.

(** The globals and the tables of the context. *)
Record create_st : Type := CreateSt
  { s_held : list held;
    mlx5_hrd_global_qp_index : Z;
    s_rsc : rsc_table mlx5_resource;
    s_uidx : rsc_table mlx5_resource }.

Definition set_held (s : create_st) (l : list held) : create_st :=
  CreateSt l (mlx5_hrd_global_qp_index s) (s_rsc s) (s_uidx s).
Definition set_index (s : create_st) (i : Z) : create_st := CreateSt (s_held s) i (s_rsc s) (s_uidx s).
Definition set_rsc (s : create_st) (t : rsc_table mlx5_resource) : create_st :=
  CreateSt (s_held s) (mlx5_hrd_global_qp_index s) t (s_uidx s).
Definition set_uidx (s : create_st) (t : rsc_table mlx5_resource) : create_st :=
  CreateSt (s_held s) (mlx5_hrd_global_qp_index s) (s_rsc s) t.

Definition acq (h : held) (s : create_st) : create_st := set_held s (h :: s_held s).
Fixpoint give_back (h : held) (l : list held) : option (list held) :=
  match l with
  | [] => None
  | x :: l => if decide (x = h) then Some l else option_map (cons x) (give_back h l)
  end.
Definition rel (h : held) (s : create_st) : res create_st :=
  match give_back h (s_held s) with Some l => Ok (set_held s l) | None => Fault OutOfBounds end.
(** A lock that is never given back is waited for without end. *)
Definition lock (h : held) (s : create_st) : res create_st :=
  if decide (h ∈ s_held s) then Fault Stuck else Ok (acq h s).

(** ** The context *)
Inductive ibv_exp_atomic_cap : Type :=
| IBV_EXP_ATOMIC_NONE | IBV_EXP_ATOMIC_HCA | IBV_EXP_ATOMIC_GLOB | IBV_EXP_ATOMIC_HCA_REPLY_BE.
#[global] Instance ibv_exp_atomic_cap_eq_dec : EqDecision ibv_exp_atomic_cap.
Proof. solve_decision. Defined.

Record create_ctx : Type := CreateCtx
  { cc_lim : mlx5_limits;
    info_valid : bool;
    exp_atomic_cap : ibv_exp_atomic_cap;
    bit_mask_log_atomic_arg_sizes : Z;
    cc_max_sge : Z;
    max_send_wqe_inline_klms : Z;
    cc_cqe_version : Z;
    bfs : list mlx5_bf;
    cc_rx_csum : bool }.   (** [IBV_EXP_DEVICE_RX_CSUM_IP_PKT] *)

(** What [ibv_exp_query_device] returns; the optional parts have a bit of
    [comp_mask]. *)
Record dev_caps : Type := DevCaps
  { dv_atomic_cap : ibv_exp_atomic_cap;
    dv_max_sge : Z;
    dv_umr : option Z;
    dv_masked : option Z;
    dv_ext : option Z }.

Definition update_caps (query : option dev_caps) (c : create_ctx) : create_ctx :=
  if info_valid c then c
  else match query with
       | None => c
       | Some d =>
           let bits := match dv_masked d with Some b => b | None => bit_mask_log_atomic_arg_sizes c end in
           let bits := match dv_ext d with Some b => bits .| b | None => bits end in
           CreateCtx (cc_lim c) true (dv_atomic_cap d) bits (dv_max_sge d)
             (default (max_send_wqe_inline_klms c) (dv_umr d)) (cc_cqe_version c) (bfs c) (cc_rx_csum c)
       end.

Definition is_xrc_tgt (qpt : ibv_qp_type) : bool := bool_decide (qpt = IBV_QPT_XRC_RECV).

Definition map_uuar (c : create_ctx) (uuar_index : Z) : res mlx5_bf := arr_get (bfs c) uuar_index.

(** ** Attributes

    [ca_has_flags] is the bit of [comp_mask] for the creation flags;
    [ca_dom] the resource domain: its dedicated doorbell if it has one, and
    whether its thread model is safe. *)
Record create_attr : Type := CreateAttr
  { ca : qp_init_attr;
    ca_has_flags : bool;
    ca_umr : bool;
    ca_ec_parity : bool;
    ca_be_reply : bool;
    ca_cflags : create_flags;
    ca_rx_hash : bool;
    ca_send_cq : option Z;
    ca_recv_cq : option Z;
    ca_srq : option Z;
    sq_sig_all : bool;
    ca_dom : option (option mlx5_bf * bool) }.

Definition ca_set (a : create_attr) (x : qp_init_attr) (f : create_flags) : create_attr :=
  CreateAttr x (ca_has_flags a) (ca_umr a) (ca_ec_parity a) (ca_be_reply a) f (ca_rx_hash a) (ca_send_cq a)
    (ca_recv_cq a) (ca_srq a) (sq_sig_all a) (ca_dom a).

(** The capabilities that the caller gets back. *)
Definition attr_set_caps (x : qp_init_attr) (swr rwr rsge : Z) : qp_init_attr :=
  InitAttr (at_type x) swr rwr (max_send_sge x) rsge (cap_max_inline_data x) (at_srq x)
    (max_atomic_arg x) (max_inl_send_klms x).
Definition attr_set_send_wr (x : qp_init_attr) (swr : Z) : qp_init_attr :=
  InitAttr (at_type x) swr (max_recv_wr x) (max_send_sge x) (max_recv_sge x) (cap_max_inline_data x) (at_srq x)
    (max_atomic_arg x) (max_inl_send_klms x).

(** ** Answers of the environment

    Answers of malloc, libibverbs and the kernel, and the constants of the
    burst interface in the headers of libibverbs.  An array that malloc returned comes with its contents. *)
Record create_env : Type := CreateEnv
  { ev_query : option dev_caps;
    ev_qp : bool;
    ev_sig : bool;                  (** [MLX5_QP_SIGNATURE] is set *)
    ev_sq_wrid : option (list Z);
    ev_wqe_head : option (list Z);
    ev_rq_wrid : option (list Z);
    ev_buf : bool;
    ev_sq_buf : bool;
    ev_locks : bool;
    ev_db : bool;
    ev_leaf : bool;                 (** second level of a table *)
    ev_cmd : Z;                     (** result of the kernel *)
    ev_qpn : Z;
    ev_uuar : Z;
    ev_mpw : bool;
    ev_threads : bool;              (** not [mlx5_single_threaded] *)
    ev_burst_fence : Z;             (** [IBV_EXP_QP_BURST_FENCE] and so on *)
    ev_burst_signaled : Z;
    ev_burst_solicited : Z }.

(** The queue pair of the library: [struct ibv_qp] and the fields of
    [struct mlx5_qp] that the data path does not use. *)
Record ib_qp : Type := IbQp
  { iq : mlx5_qp;
    iq_rx : bool;
    iq_rsn : Z;
    iq_qpn : Z;
    iq_send_cq : option Z;
    iq_recv_cq : option Z;
    iq_srq : option Z;
    iq_buf_size : Z;
    iq_sq_buf_size : Z;
    iq_thread_safe : bool;
    iq_mpw : bool;
    iq_csum : bool;
    iq_ptrs : bool * bool * bool * bool }.  (** [sq.wrid], [wqe_head], [rq.wrid], [sq_buf] are not NULL *)

Definition is_some {A} (o : option A) : bool := match o with Some _ => true | None => false end.
Definition arr_of (o : option (list Z)) (n : Z) : list Z := take (Z.to_nat n) (default [] o).

(** ** Arrays and buffers

    What [mlx5_alloc_qp_buf] leaves in the queue pair. *)
Record qp_arrays : Type := QpArrays
  { qa_sq_wrid : option (list Z);
    qa_wqe_head : option (list Z);
    qa_rq_wrid : option (list Z);
    qa_sq_buf : bool }.

Definition acq_if (b : bool) (h : held) (s : create_st) : create_st := if b then acq h s else s.
Definition rel_if (b : bool) (h : held) (s : create_st) : res create_st := if b then rel h s else Ok s.

(** The label [ex_wrid]: the pointers keep their values. *)
Definition ex_wrid (q : qp_arrays) (s : create_st) : res create_st :=
  let! s := rel_if (is_some (qa_rq_wrid q)) HRqWrid s in
  let! s := rel_if (is_some (qa_wqe_head q)) HWqeHead s in
  rel_if (is_some (qa_sq_wrid q)) HSqWrid s.

(** [err] after a failed allocation of [sq.wrid] is overwritten. *)
Definition mlx5_alloc_qp_buf (e : create_env) (qpt : ibv_qp_type) (sq_cnt rq_cnt : Z) (s : create_st)
    : res (Z * qp_arrays * create_st) :=
  let sw := if negb (sq_cnt =? 0) then ev_sq_wrid e else None in
  let s := acq_if (is_some sw) HSqWrid s in
  let wh := ev_wqe_head e in
  if negb (is_some wh) then
    let q := QpArrays sw None None false in
    let! s := ex_wrid q s in Ok (-1, q, s)
  else
    let s := acq HWqeHead s in
    let rw := if negb (rq_cnt =? 0) then ev_rq_wrid e else None in
    if negb (rq_cnt =? 0) && negb (is_some rw) then
      let q := QpArrays sw wh None false in
      let! s := ex_wrid q s in Ok (-1, q, s)
    else
      let s := acq_if (is_some rw) HRqWrid s in
      if negb (ev_buf e) then
        let q := QpArrays sw wh rw false in
        let! s := ex_wrid q s in Ok (- ENOMEM, q, s)
      else
        let s := acq HBuf s in
        if bool_decide (qpt = IBV_QPT_RAW_ETH) then
          if negb (ev_sq_buf e) then
            let q := QpArrays sw wh rw false in
            let! s := rel HBuf s in
            let! s := ex_wrid q s in Ok (- ENOMEM, q, s)
          else Ok (0, QpArrays sw wh rw true, acq HSqBuf s)
        else Ok (0, QpArrays sw wh rw false, s).

Definition mlx5_free_qp_buf (q : qp_arrays) (s : create_st) : res create_st :=
  let! s := rel HBuf s in
  let! s := rel_if (qa_sq_buf q) HSqBuf s in
  ex_wrid q s.

(** ** Creation *)

(** The error labels of [create_qp], from the last one. *)
Definition l_err (s : create_st) : res create_st := rel HQp s.
Definition l_err_free_qp_buf (q : qp_arrays) (s : create_st) : res create_st :=
  let! s := mlx5_free_qp_buf q s in l_err s.
Definition l_err_rq_db (q : qp_arrays) (s : create_st) : res create_st :=
  let! s := rel HDb s in l_err_free_qp_buf q s.
Definition l_err_free_uidx (ver : Z) (qpt : ibv_qp_type) (uidx : Z) (q : qp_arrays) (s : create_st) : res create_st :=
  let! s := (if ver =? 0 then rel HRscLock s
             else if negb (is_xrc_tgt qpt) then
               let! t := mlx5_clear_uidx (s_uidx s) uidx in Ok (set_uidx s t)
             else Ok s) in
  l_err_rq_db q s.
Definition l_err_destroy (ver : Z) (qpt : ibv_qp_type) (uidx : Z) (q : qp_arrays) (s : create_st) : res create_st :=
  let! s := rel HKernelQp s in l_err_free_uidx ver qpt uidx q s.

Definition zero_flags : create_flags := CreateFlags false false false false.
Definition zero_wq : mlx5_wq := Wq [] 0 0 0 0 0 0 ∅.
Definition zero_cs : ctrl_seg_data := CtrlSegData 0 (repeat 0 8) (repeat 0 32) false.
(** What [aligned_calloc] returns. *)
Definition zero_qp (index : Z) : mlx5_qp :=
  Qp zero_wq zero_wq [] PostNotReady 0 0 0 zero_flags 0 0 zero_cs IBV_QPT_OTHER MLX5_MPW_STATE_CLOSED
    (Bf 0 0 MLX5_DB_METHOD_DB) [] (0, 0) (0, 0) index ∅.

(** The checks of the attributes; [Some] is the configuration to size. *)
Definition create_checks (c : create_ctx) (sig : bool) (a : create_attr) : option (create_attr * qp_cfg) :=
  let atomics := (bool_decide (exp_atomic_cap c = IBV_EXP_ATOMIC_HCA_REPLY_BE) && ca_be_reply a) ||
                 bool_decide (exp_atomic_cap c = IBV_EXP_ATOMIC_HCA) ||
                 bool_decide (exp_atomic_cap c = IBV_EXP_ATOMIC_GLOB) in
  let umr := ca_has_flags a && ca_umr a in
  let klms := is_some (max_inl_send_klms (ca a)) in
  if klms && negb umr then None
  else if umr && negb klms then None
  else if cc_max_sge c <? max_send_sge (ca a) then None
  else
    let a := if ca_has_flags a && ca_ec_parity a
             then ca_set a (attr_set_send_wr (ca a) (u32 (2 * max_send_wr (ca a))))
                    (let f := ca_cflags a in
                     CreateFlags true (IBV_EXP_QP_CREATE_MANAGED_SEND f) (IBV_EXP_QP_CREATE_IGNORE_SQ_OVERFLOW f)
                       (IBV_EXP_QP_CREATE_IGNORE_RQ_OVERFLOW f))
             else a in
    if umr && (max_send_wqe_inline_klms c <? default 0 (max_inl_send_klms (ca a))) then None
    else Some (a, QpCfg zero_wq zero_wq 0 umr atomics sig 0 0 0 0).

(** The queue pair after the sizes are known and the arrays allocated. *)
Definition sized_qp (index : Z) (a : create_attr) (g : qp_cfg) (q : qp_arrays) : mlx5_qp :=
  let z := zero_qp index in
  let w := g_sq g in
  let r := g_rq g in
  mlx5_init_qp_indices
    (Qp (wq_set_wrid w (arr_of (qa_sq_wrid q) (wqe_cnt w))) (wq_set_wrid r (arr_of (qa_rq_wrid q) (wqe_cnt r)))
       (arr_of (qa_wqe_head q) (wqe_cnt w)) PostNotReady (u32 (Z.shiftl (wqe_cnt w) (wqe_shift w))) 0 0
       (if ca_has_flags a then ca_cflags a else zero_flags) 0 (g_max_inline_data g)
       (CtrlSegData 0 (repeat 0 8) (repeat 0 32) (g_wq_sig g)) IBV_QPT_OTHER MLX5_MPW_STATE_CLOSED
       (bf z) [] (0, 0) (0, 0) index ∅).

(** What follows the answer of the kernel. *)
Definition finish_qp (e : create_env) (a : create_attr) (qpn : Z) (d : mlx5_bf) (q : mlx5_qp) : mlx5_qp :=
  let bits := if sq_sig_all a then MLX5_WQE_CTRL_CQ_UPDATE else 0 in
  let r := rq q in
  let q := Qp (sq q) (Wq (wrid r) (wqe_cnt r) (head r) (tail r) (wqe_cnt r) (max_gs r) (wqe_shift r) (buff r))
             (wqe_head q) (post_send_one q) (sqend q) (scur_post q) (last_post q) (cflags q) (fm_cache q)
             (max_inline_data q)
             (mlx5_build_ctrl_seg_data bits (ev_burst_fence e) (ev_burst_signaled e) (ev_burst_solicited e) (ctrl_seg q) qpn)
             (at_type (ca a)) (mpw_state q) d [0; 0] (sq_enable q) (rq_enable q) (mlx5_hrd_qp_index q) (sqbuf q) in
  mlx5_update_post_send_one q true (at_type (ca a)).

(** The table has a pointer to the structure, so that setting [rsc.rsn] of
    the structure changes what the table shows. *)
Definition fill_entry {T} (t : rsc_table T) (rsn : Z) (v : T) : rsc_table T :=
  alter (λ l, Leaf (refcnt l) (option_map (<[rsn .& MLX5_QP_TABLE_MASK := v]>) (table l)))
    (rsn .>> MLX5_QP_TABLE_SHIFT) t.

(** [qi] names the structure; the second component of the result are the
    attributes as the caller finds them afterwards. *)
Definition create_qp (e : create_env) (c : create_ctx) (a : create_attr) (is_exp : bool) (qi : Z) (s : create_st)
    : res (option ib_qp * create_attr * create_st) :=
  let qpt := at_type (ca a) in
  let ver := cc_cqe_version c in
  let is_exp := is_exp || negb (ver =? 0) || bool_decide (qpt = IBV_QPT_RAW_ETH) in
  let c := update_caps (ev_query e) c in
  if negb (ev_qp e) then Ok (None, a, s)
  else
    let s := acq HQp s in
    let! s := lock HHrdLock s in
    let index := mlx5_hrd_global_qp_index s in
    if MLX5_HRD_MAX_QPS <=? index then Ok (None, a, s)
    else
      let s := set_index s (index + 1) in
      let! s := rel HHrdLock s in
      if ca_rx_hash a && bool_decide (qpt = IBV_QPT_RAW_ETH) then
        let x := ca a in
        if is_some (ca_send_cq a) || is_some (ca_recv_cq a) || is_some (ca_srq a) ||
           negb (cap_max_inline_data x =? 0) || negb (max_recv_sge x =? 0) || negb (max_recv_wr x =? 0) ||
           negb (max_send_sge x =? 0) || negb (max_send_wr x =? 0)
        then let! s := l_err s in Ok (None, a, s)
        else if negb (ev_cmd e =? 0) then let! s := l_err s in Ok (None, a, s)
        else
          Ok (Some (IbQp (zero_qp index) true 0 (ev_qpn e) None None None 0 0 false false false
                      (false, false, false, false)), a, acq HKernelQp s)
      else
        match create_checks c (ev_sig e) a with
        | None => let! s := l_err s in Ok (None, a, s)
        | Some (a, g) =>
            let! (size, x, g) := mlx5_calc_wq_size (cc_lim c) (ca a) g in
            let a := ca_set a x (ca_cflags a) in
            if size <? 0 then let! s := l_err s in Ok (None, a, s)
            else
              let buf_size := if bool_decide (qpt = IBV_QPT_RAW_ETH) then sq_offset g else size in
              let! (err, qa, s) := mlx5_alloc_qp_buf e qpt (wqe_cnt (g_sq g)) (wqe_cnt (g_rq g)) s in
              if negb (err =? 0) then let! s := l_err s in Ok (None, a, s)
              else
                let q := sized_qp index a g qa in
                (if is_some (ca_dom a) && negb is_exp then Fault NullDeref else Ok tt) ;!
                let thread_safe := match ca_dom a with Some (_, t) => t | None => ev_threads e end in
                if negb (ev_locks e) then let! s := l_err_free_qp_buf qa s in Ok (None, a, s)
                else if negb (ev_db e) then let! s := l_err_free_qp_buf qa s in Ok (None, a, s)
                else
                  let s := acq HDb s in
                  let! (uidx, s) :=
                    (if ver =? 0 then let! s := lock HRscLock s in Ok (0, s)
                     else if negb (is_xrc_tgt qpt) then
                       let! (u, t) := mlx5_store_uidx (ev_leaf e) (s_uidx s) (Rsc MLX5_RSC_TYPE_QP 0 qi) in
                       Ok (u, set_uidx s t)
                     else Ok (0, s)) in
                  if negb (ev_cmd e =? 0) then
                    let! s := l_err_free_uidx ver qpt uidx qa s in Ok (None, a, s)
                  else
                    let s := acq HKernelQp s in
                    let! (ret, s) :=
                      (if ver =? 0 then
                         let! (ret, t) := mlx5_store_rsc (ev_leaf e) (s_rsc s) (ev_qpn e)
                                            (Rsc MLX5_RSC_TYPE_QP (ev_qpn e) qi) in
                         Ok (ret, set_rsc s t)
                       else Ok (0, s)) in
                    if negb (ret =? 0) then
                      let! s := l_err_destroy ver qpt uidx qa s in Ok (None, a, s)
                    else
                      let! s := (if ver =? 0 then rel HRscLock s else Ok s) in
                      let s := if negb (ver =? 0) && negb (is_xrc_tgt qpt)
                               then set_uidx s (fill_entry (s_uidx s) uidx (Rsc MLX5_RSC_TYPE_QP uidx qi))
                               else s in
                      let! d := match ca_dom a with
                                | Some (Some d, _) => Ok d
                                | _ => map_uuar c (ev_uuar e)
                                end in
                      let q := finish_qp e a (ev_qpn e) d q in
                      let rsn := if negb (ver =? 0) && negb (is_xrc_tgt qpt) then uidx else ev_qpn e in
                      let x := attr_set_caps (ca a) (max_post (sq q)) (max_post (rq q)) (u32 (max_gs (rq q))) in
                      Ok (Some (IbQp q false rsn (ev_qpn e) (ca_send_cq a) (ca_recv_cq a) (ca_srq a)
                                  buf_size (if bool_decide (qpt = IBV_QPT_RAW_ETH) then s32 (size - buf_size) else 0)
                                  thread_safe (is_exp && ev_mpw e) false
                                  (is_some (qa_sq_wrid qa), is_some (qa_wqe_head qa), is_some (qa_rq_wrid qa), qa_sq_buf qa)),
                          ca_set a x (ca_cflags a), s)
        end.

(** The three entry points; the plain one passes a protection domain only. *)
Definition mlx5_drv_create_qp (comp_mask_ok : bool) (e : create_env) (c : create_ctx) (a : create_attr) (qi : Z)
    (s : create_st) : res (option ib_qp * create_attr * create_st) :=
  if negb comp_mask_ok then Ok (None, a, s) else create_qp e c a true qi s.
Definition mlx5_exp_create_qp (e : create_env) (c : create_ctx) (a : create_attr) (qi : Z) (s : create_st)
    : res (option ib_qp * create_attr * create_st) := create_qp e c a true qi s.

Definition plain_attr (a : create_attr) : create_attr :=
  let x := ca a in
  CreateAttr (InitAttr (at_type x) (max_send_wr x) (max_recv_wr x) (max_send_sge x) (max_recv_sge x)
                (cap_max_inline_data x) (at_srq x) None None)
    false false false false zero_flags false (ca_send_cq a) (ca_recv_cq a) (ca_srq a) (sq_sig_all a) None.
Definition mlx5_create_qp (e : create_env) (c : create_ctx) (a : create_attr) (qi : Z) (s : create_st)
    : res (option ib_qp * create_attr * create_st) :=
  let! (o, a', s) := create_qp e c (plain_attr a) false qi s in
  Ok (o, match o with Some _ => a' | None => a end, s).

(** ** Locks of two completion queues

    The numbers of the queues that are locked, in order. *)
Definition lock_order (send recv : option (Z * Z)) : list Z :=
  match send, recv with
  | Some (si, sn), Some (ri, rn) =>
      if si =? ri then [sn] else if sn <? rn then [sn; rn] else [rn; sn]
  | Some (_, sn), None => [sn]
  | None, Some (_, rn) => [rn]
  | None, None => []
  end.
Definition cq_key (cqs : gmap Z mlx5_cq) (i : option Z) : option (Z * Z) :=
  i ≫= λ i, c ← cqs !! i; Some (i, cqn c).
Definition mlx5_lock_cqs (cqs : gmap Z mlx5_cq) (q : ib_qp) : list Z :=
  lock_order (cq_key cqs (iq_send_cq q)) (cq_key cqs (iq_recv_cq q)).
Definition mlx5_unlock_cqs (cqs : gmap Z mlx5_cq) (q : ib_qp) : list Z := reverse (mlx5_lock_cqs cqs q).

(** ** Destruction and changes of state *)

(** [__mlx5_cq_clean] on a completion queue that may be NULL, with the shared
    receive queue of the queue pair. *)
Definition clean_one (mp : list Z → res bool) (ver rsn : Z) (cq srq : option Z)
    (cqs : gmap Z mlx5_cq) (srqs : gmap Z mlx5_srq) : res (gmap Z mlx5_cq * gmap Z mlx5_srq) :=
  match cq with
  | None => Ok (cqs, srqs)
  | Some i =>
      let! c := deref cqs (Some i) in
      let! (c, sr) := __mlx5_cq_clean mp c rsn (srq ≫= (srqs !!.)) ver in
      Ok (<[i := c]> cqs, match srq, sr with Some j, Some sr => <[j := sr]> srqs | _, _ => srqs end)
  end.
Definition clean_both (mp : list Z → res bool) (ver : Z) (q : ib_qp)
    (cqs : gmap Z mlx5_cq) (srqs : gmap Z mlx5_srq) : res (gmap Z mlx5_cq * gmap Z mlx5_srq) :=
  let! (cqs, srqs) := clean_one mp ver (iq_rsn q) (iq_recv_cq q) (iq_srq q) cqs srqs in
  if decide (iq_send_cq q = iq_recv_cq q) then Ok (cqs, srqs)
  else clean_one mp ver (iq_rsn q) (iq_send_cq q) None cqs srqs.

Definition arrays_of (q : ib_qp) : qp_arrays :=
  let '(sw, wh, rw, sb) := iq_ptrs q in
  let some (b : bool) := if b then Some [] else None in
  QpArrays (some sw) (some wh) (some rw) sb.

(** [cmd]: result of the kernel. *)
Definition mlx5_destroy_qp (mp : list Z → res bool) (cmd : Z) (ver : Z) (q : ib_qp) (cqs : gmap Z mlx5_cq)
    (srqs : gmap Z mlx5_srq) (s : create_st) : res (Z * gmap Z mlx5_cq * gmap Z mlx5_srq * create_st) :=
  if iq_rx q then
    if negb (cmd =? 0) then Ok (cmd, cqs, srqs, s)
    else
      let! s := rel HKernelQp s in
      let! s := rel HQp s in Ok (0, cqs, srqs, s)
  else
    let! s := (if ver =? 0 then lock HRscLock s else Ok s) in
    if negb (cmd =? 0) then
      let! s := (if ver =? 0 then rel HRscLock s else Ok s) in Ok (cmd, cqs, srqs, s)
    else
      let! s := rel HKernelQp s in
      let! (cqs, srqs) := clean_both mp ver q cqs srqs in
      let! s := (if ver =? 0 then let! t := mlx5_clear_rsc (s_rsc s) (iq_qpn q) in Ok (set_rsc s t) else Ok s) in
      let! s := (if ver =? 0 then rel HRscLock s
                 else if negb (is_xrc_tgt (qp_type (iq q))) then
                   let! t := mlx5_clear_uidx (s_uidx s) (iq_rsn q) in Ok (set_uidx s t)
                 else Ok s) in
      let! s := rel HDb s in
      let! s := mlx5_free_qp_buf (arrays_of q) s in
      let! s := rel HQp s in
      Ok (0, cqs, srqs, s).

Definition ENOSYS : Z := 38.

(** [kernel]: result of [ibv_cmd_query_qp] and the attributes it fills in. *)
Definition mlx5_query_qp (kernel : Z * qp_init_attr) (q : ib_qp) : Z * option qp_init_attr :=
  if iq_rx q then (- ENOSYS, None)
  else if negb (kernel.1 =? 0) then (kernel.1, None)
  else
    let x := kernel.2 in
    (0, Some (InitAttr (at_type x) (max_post (sq (iq q))) (max_recv_wr x) (u32 (max_gs (sq (iq q)))) (max_recv_sge x)
                (max_inline_data (iq q)) (at_srq x) (max_atomic_arg x) (max_inl_send_klms x))).

Inductive link_layer : Type := IBV_LINK_LAYER_UNSPECIFIED | IBV_LINK_LAYER_INFINIBAND | IBV_LINK_LAYER_ETHERNET.
#[global] Instance link_layer_eq_dec : EqDecision link_layer.
Proof. solve_decision. Defined.

Definition iq_set (q : ib_qp) (m : mlx5_qp) (csum : bool) : ib_qp :=
  IbQp m (iq_rx q) (iq_rsn q) (iq_qpn q) (iq_send_cq q) (iq_recv_cq q) (iq_srq q) (iq_buf_size q)
    (iq_sq_buf_size q) (iq_thread_safe q) (iq_mpw q) csum (iq_ptrs q).

(** [port]: result and link layer from [ibv_query_port]. *)
Definition update_port_data (rx_csum : bool) (port : Z * link_layer) (q : ib_qp) : Z * ib_qp :=
  if negb (port.1 =? 0) then (port.1, q)
  else
    let t := qp_type (iq q) in
    let on := ((bool_decide (t = IBV_QPT_UD) && bool_decide (port.2 = IBV_LINK_LAYER_INFINIBAND)) ||
               (bool_decide (t = IBV_QPT_RAW_ETH) && bool_decide (port.2 = IBV_LINK_LAYER_ETHERNET))) && rx_csum in
    (0, iq_set q (iq q) (iq_csum q || on)).

Inductive ibv_qp_state : Type :=
| IBV_QPS_RESET | IBV_QPS_INIT | IBV_QPS_RTR | IBV_QPS_RTS | IBV_QPS_SQD | IBV_QPS_SQE | IBV_QPS_ERR.
#[global] Instance ibv_qp_state_eq_dec : EqDecision ibv_qp_state.
Proof. solve_decision. Defined.
(** [qp_state < IBV_QPS_RTS] *)
Definition before_rts (st : ibv_qp_state) : bool :=
  match st with IBV_QPS_RESET | IBV_QPS_INIT | IBV_QPS_RTR => true | _ => false end.

(** [port] is [Some] if the mask has [IBV_QP_PORT], [state] if it has
    [IBV_QP_STATE]; [cur] is the state that the library records. *)
Definition mlx5_modify_qp (mp : list Z → res bool) (c : create_ctx) (port : option (Z * link_layer)) (cmd : Z)
    (state : option ibv_qp_state) (cur : ibv_qp_state) (q : ib_qp) (cqs : gmap Z mlx5_cq) (srqs : gmap Z mlx5_srq)
    : res (Z * ib_qp * gmap Z mlx5_cq * gmap Z mlx5_srq) :=
  let '(ret, q) := match port with Some p => update_port_data (cc_rx_csum c) p q | None => (0, q) end in
  if negb (ret =? 0) then Ok (ret, q, cqs, srqs)
  else if iq_rx q then Ok (- ENOSYS, q, cqs, srqs)
  else
    let! (q, cqs, srqs) :=
      (if (cmd =? 0) && bool_decide (state = Some IBV_QPS_RESET) then
         let! (cqs, srqs) := clean_both mp (cc_cqe_version c) q cqs srqs in
         let m := mlx5_init_qp_indices (iq q) in
         let! d := arr_set (db m) MLX5_RCV_DBR 0 in
         let! d := arr_set d MLX5_SND_DBR 0 in
         Ok (iq_set q (qp_set_db m d) (iq_csum q), cqs, srqs)
       else Ok (q, cqs, srqs)) in
    let q := if (cmd =? 0) && is_some state
             then iq_set q (mlx5_update_post_send_one (iq q) (before_rts cur) (qp_type (iq q))) (iq_csum q) else q in
    let! q :=
      (if (cmd =? 0) && bool_decide (state = Some IBV_QPS_RTR) && bool_decide (qp_type (iq q) = IBV_QPT_RAW_ETH) then
         let m := iq q in
         let! d := arr_set (db m) MLX5_RCV_DBR (htonl (head (rq m) .& 0xffff)) in
         Ok (iq_set q (qp_set_db m d) (iq_csum q))
       else Ok q) in
    Ok (cmd, q, cqs, srqs).
