(* ===== verification/Mlx5CreateProof.v ===== *)
(** * libmlx5: what creation and destruction leave behind

    Every way out of [create_qp] but one gives back what it took
    ([create_outcome]); the queue pair that it returns is in the state that
    posting and polling need ([created_sq], [created_rq]); and
    [mlx5_destroy_qp] undoes it ([destroy_outcome]). *)

From stdpp Require Import base gmap list numbers.
From Stdlib Require Import ZArith Lia Sorted.
From S2P Require Import Prelude Mlx5Base Mlx5Wqe Mlx5WqeProof Mlx5Encode Mlx5Send Mlx5SqProof Mlx5SqThms Mlx5Recv Mlx5RecvProof Mlx5Size Mlx5SizeProof Mlx5Table Mlx5Srq Mlx5Cq Mlx5CqProof Mlx5CqClean Mlx5Poll Mlx5PollProof Mlx5Create.

(** ** Giving back *)
Lemma give_back_hd h l : give_back h (h :: l) = Some l.
Proof. cbn. by rewrite decide_True. Qed.
Lemma give_back_ne h x l : x ≠ h → give_back h (x :: l) = option_map (cons x) (give_back h l).
Proof. intros H. cbn. by rewrite decide_False. Qed.

(** Computes [rel] and [lock] on a list whose front is known. *)
Ltac free :=
  unfold rel, lock, acq, acq_if, rel_if, set_held, set_index, set_rsc, set_uidx in *;
  cbn [s_held mlx5_hrd_global_qp_index s_rsc s_uidx is_some negb andb orb res_bind qa_rq_wrid qa_wqe_head qa_sq_wrid qa_sq_buf] in *;
  repeat (first [rewrite give_back_hd | rewrite give_back_ne by discriminate];
          cbn [option_map res_bind s_held mlx5_hrd_global_qp_index s_rsc s_uidx]).

(** The objects of a queue pair with these arrays. *)
Definition arrays_held (q : qp_arrays) : list held :=
  (if qa_sq_buf q then [HSqBuf] else []) ++ [HBuf] ++ (if is_some (qa_rq_wrid q) then [HRqWrid] else []) ++
  (if is_some (qa_wqe_head q) then [HWqeHead] else []) ++ (if is_some (qa_sq_wrid q) then [HSqWrid] else []).

Lemma free_qp_buf_ok q l i t u :
  mlx5_free_qp_buf q (CreateSt (arrays_held q ++ l) i t u) = Ok (CreateSt l i t u).
Proof.
  destruct q as [[sw|] [wh|] [rw|] []]; unfold mlx5_free_qp_buf, ex_wrid, arrays_held;
    cbn [is_some qa_sq_buf qa_rq_wrid qa_wqe_head qa_sq_wrid app]; by free.
Qed.

Lemma alloc_qp_buf_ok e qpt sc rc l i t u :
  qpt ≠ IBV_QPT_RAW_ETH → sc ≠ 0 → rc ≠ 0 →
  (∃ err q, mlx5_alloc_qp_buf e qpt sc rc (CreateSt l i t u) = Ok (err, q, CreateSt l i t u) ∧ err ≠ 0) ∨
  (∃ wh rw, ev_wqe_head e = Some wh ∧ ev_rq_wrid e = Some rw ∧
     let q := QpArrays (ev_sq_wrid e) (Some wh) (Some rw) false in
     mlx5_alloc_qp_buf e qpt sc rc (CreateSt l i t u) = Ok (0, q, CreateSt (arrays_held q ++ l) i t u)).
Proof.
  intros Hq Hs Hr. unfold mlx5_alloc_qp_buf, ex_wrid.
  rewrite (proj2 (Z.eqb_neq sc 0)), (proj2 (Z.eqb_neq rc 0)) by done. rewrite (bool_decide_eq_false_2 (qpt = _)) by done.
  cbn [negb]. destruct (ev_sq_wrid e) as [sw|], (ev_wqe_head e) as [wh|], (ev_rq_wrid e) as [rw|], (ev_buf e); free;
    try (left; eexists _, _; split; [reflexivity|unfold ENOMEM; lia]);
    (right; exists wh, rw; do 2 (split; [done|]); done).
Qed.

(** ** Creation *)

(** What the programs of the repository ask for, in a context that can still
    count queue pairs.  The number that the kernel chooses is not in use. *)
Record create_pre (e : create_env) (c : create_ctx) (a : create_attr) (s : create_st) (m : gmap Z mlx5_resource)
    : Prop := CreatePre
  { cp_lim : limits_ok (cc_lim c);
    cp_attr : attr_ok (ca a);
    cp_srq : at_srq (ca a) = false;
    cp_swr : 0 < max_send_wr (ca a);
    cp_rwr : 0 < max_recv_wr (ca a);
    cp_flags : ca_has_flags a = false;
    cp_dom : ca_dom a = None;
    cp_ver : cc_cqe_version c = 0;
    cp_locks : HHrdLock ∉ s_held s ∧ HRscLock ∉ s_held s;
    cp_index : 0 ≤ mlx5_hrd_global_qp_index s < MLX5_HRD_MAX_QPS;
    cp_table : table_ok (s_rsc s) m;
    cp_qpn : 0 ≤ ev_qpn e < 2 ^ 24;
    cp_fresh : m !! ev_qpn e = None;
    cp_uuar : 0 ≤ ev_uuar e < Z.of_nat (length (bfs c)) }.

(** The queue pair: sizes as computed, arrays from malloc, the doorbell
    register that the kernel assigned. *)
Definition created (e : create_env) (c : create_ctx) (a : create_attr) (index : Z) (q : ib_qp) : Prop :=
  ∃ a' g bb k kr wh rw d, at_type (ca a') = at_type (ca a) ∧ sq_sig_all a' = sq_sig_all a ∧ ca_has_flags a' = false ∧
    sq_sized (ca a) (g_sq g) (g_max_inline_data g) bb k ∧ rq_sized (ca a) (g_rq g) (ev_sig e) kr ∧
    g_wq_sig g = ev_sig e ∧ ev_wqe_head e = Some wh ∧ ev_rq_wrid e = Some rw ∧
    iq q = finish_qp e a' (ev_qpn e) d (sized_qp index a' g (QpArrays (ev_sq_wrid e) (Some wh) (Some rw) false)) ∧
    iq_ptrs q = (is_some (ev_sq_wrid e), true, true, false) ∧ iq_rx q = false ∧
    iq_rsn q = ev_qpn e ∧ iq_qpn q = ev_qpn e ∧ iq_send_cq q = ca_send_cq a ∧ iq_recv_cq q = ca_recv_cq a ∧
    iq_srq q = ca_srq a.

(** The objects of a queue pair. *)
Definition qp_held (q : ib_qp) : list held := [HKernelQp; HDb] ++ arrays_held (arrays_of q) ++ [HQp].

Lemma map_uuar_ok c i : 0 ≤ i < Z.of_nat (length (bfs c)) → ∃ d, map_uuar c i = Ok d.
Proof.
  intros Hi. destruct (lookup_lt_is_Some_2 (bfs c) (Z.to_nat i)) as [d Hd]; [lia|].
  exists d. apply arr_get_Z; [lia|done].
Qed.

Lemma update_caps_same qu c :
  cc_lim (update_caps qu c) = cc_lim c ∧ bfs (update_caps qu c) = bfs c.
Proof. unfold update_caps. destruct (info_valid c), qu; done. Qed.

Lemma create_checks_plain c sig a a' g :
  ca_has_flags a = false → max_inl_send_klms (ca a) = None → create_checks c sig a = Some (a', g) →
  a' = a ∧ umr_en g = false ∧ g_wq_sig g = sig.
Proof.
  intros Hf Hk. unfold create_checks. rewrite Hf, Hk. cbn [andb is_some negb].
  destruct (_ <? _); [done|]. by intros [= <- <-].
Qed.

Lemma create_outcome e c a is_exp qi s m :
  create_pre e c a s m →
  ∃ o a' s', create_qp e c a is_exp qi s = Ok (o, a', s') ∧
    mlx5_hrd_global_qp_index s' = mlx5_hrd_global_qp_index s + (if ev_qp e then 1 else 0) ∧ s_uidx s' = s_uidx s ∧
    match o with
    | None => s_held s' = s_held s ∧ table_ok (s_rsc s') m
    | Some q => s_held s' = qp_held q ++ s_held s ∧ created e c a (mlx5_hrd_global_qp_index s) q ∧
        table_ok (s_rsc s') (<[ev_qpn e := Rsc MLX5_RSC_TYPE_QP (ev_qpn e) qi]> m)
    end.
Proof.
  intros [Hl Ha Hs Hsw Hrw Hfl Hdom Hver [Hk1 Hk2] Hidx Ht Hq Hf Hu]. destruct s as [l i t u].
  cbn [s_held mlx5_hrd_global_qp_index s_rsc] in *.
  assert (Hty : at_type (ca a) ≠ IBV_QPT_RAW_ETH).
  { pose proof (ao_type _ Ha) as Hty. set_unfold in Hty. by destruct Hty as [-> | [-> | [-> | []]]]. }
  unfold create_qp. rewrite Hver. cbn [Z.eqb negb]. rewrite (bool_decide_eq_false_2 (_ = IBV_QPT_RAW_ETH)) by done.
  destruct (ev_qp e); cbn [negb]; [|by exists None, a, (CreateSt l i t u); rewrite Z.add_0_r].
  destruct (update_caps_same (ev_query e) c) as [Elim Ebf]. set (c' := update_caps _ c) in *. clearbody c'.
  free. rewrite decide_False by set_solver. cbn [res_bind s_held mlx5_hrd_global_qp_index s_rsc s_uidx].
  rewrite (proj2 (Z.leb_gt _ _)) by lia. free. rewrite andb_false_r. unfold l_err.
  destruct (create_checks c' (ev_sig e) a) as [[a1 g]|] eqn:Ec.
  2: { free. eexists None, _, _. split; [reflexivity|]. done. }
  destruct (create_checks_plain _ _ _ _ _ Hfl (ao_klms _ Ha) Ec) as (-> & Humr & Hsig).
  rewrite Elim. destruct (calc_wq_size_spec (cc_lim c) (ca a) g Hl Ha Hs Humr Hsw Hrw) as (size & x & g1 & -> & Hsz).
  cbn [res_bind]. destruct (size <? 0) eqn:E0; [free; by eexists None, _, _|]. apply Z.ltb_ge in E0.
  destruct Hsz as [?|(bb & k & kr & Hx & Hsq & Hrq & Hsig1 & _)]; [lia|].
  assert (Hc1 : 1 ≤ wqe_cnt (g_sq g1) ∧ 1 ≤ wqe_cnt (g_rq g1)).
  { rewrite (ss_cnt _ _ _ _ _ Hsq), (rz_cnt _ _ _ _ Hrq). pose proof (ss_k _ _ _ _ _ Hsq). pose proof (rz_k _ _ _ _ Hrq). lia. }
  destruct (alloc_qp_buf_ok e (at_type (ca a)) (wqe_cnt (g_sq g1)) (wqe_cnt (g_rq g1)) (HQp :: l) (i + 1) t u Hty)
    as [(err & q & -> & Herr)|(wh & rw & Ewh & Erw & Eal)]; [lia|lia| |].
  { cbn [res_bind]. rewrite (proj2 (Z.eqb_neq err 0)) by done. free. by eexists None, _, _. }
  cbv zeta in Eal. rewrite Eal. set (qa := QpArrays _ _ _ _) in *. cbn [res_bind Z.eqb negb ca_set ca_dom].
  rewrite Hdom. cbn [is_some andb res_bind]. unfold l_err_destroy, l_err_free_uidx, l_err_rq_db, l_err_free_qp_buf, l_err.
  destruct (ev_locks e); cbn [negb]; [|rewrite free_qp_buf_ok; free; by eexists None, _, _].
  destruct (ev_db e); cbn [negb]; [|rewrite free_qp_buf_ok; free; by eexists None, _, _].
  free. rewrite decide_False.
  2: { clear -Hk2. unfold arrays_held, qa. cbn [qa_sq_buf qa_rq_wrid qa_wqe_head qa_sq_wrid is_some]. destruct (ev_sq_wrid e); cbn; set_solver. }
  cbn [res_bind]. destruct (ev_cmd e =? 0); cbn [negb].
  2: { cbn [Z.eqb]. free. rewrite free_qp_buf_ok. free. by eexists None, _, _. }
  cbn [Z.eqb]. free. destruct (store_rsc_spec (ev_leaf e) t m (ev_qpn e) (Rsc MLX5_RSC_TYPE_QP (ev_qpn e) qi) Ht Hq Hf)
    as [(t' & -> & Ht')|(_ & t' & -> & Ht')]; cbn [res_bind Z.eqb negb]; free.
  2: { cbn [Z.eqb]. free. rewrite free_qp_buf_ok. free. by eexists None, _, _. }
  destruct (map_uuar_ok c' (ev_uuar e)) as [d Ed]; [by rewrite Ebf|]. rewrite Ed. cbn [res_bind].
  eexists (Some _), _, _. split; [reflexivity|]. cbn [mlx5_hrd_global_qp_index s_uidx s_held s_rsc].
  do 2 (split; [done|]). split; [|split; [|done]].
  - unfold qp_held, arrays_of. cbn [iq_ptrs]. unfold qa, arrays_held.
    cbn [qa_sq_buf qa_rq_wrid qa_wqe_head qa_sq_wrid is_some]. by destruct (ev_sq_wrid e).
  - exists (ca_set a x (ca_cflags a)), g1, bb, k, kr, wh, rw, d. rewrite <-Hsig. by repeat (split; [done|]).
Qed.

(** ** The queue pair can be used

    [ready]: after the transition to RTS. *)
Definition ready (q : ib_qp) : mlx5_qp := mlx5_update_post_send_one (iq q) false (qp_type (iq q)).
Definition sig_bits (a : create_attr) : Z := if sq_sig_all a then MLX5_WQE_CTRL_CQ_UPDATE else 0.

(** malloc returned arrays of the sizes asked for. *)
Definition arrays_long (e : create_env) (q : mlx5_qp) : Prop :=
  (∃ sw, ev_sq_wrid e = Some sw ∧ wqe_cnt (sq q) ≤ Z.of_nat (length sw)) ∧
  (∀ wh, ev_wqe_head e = Some wh → wqe_cnt (sq q) ≤ Z.of_nat (length wh)) ∧
  (∀ rw, ev_rq_wrid e = Some rw → wqe_cnt (rq q) ≤ Z.of_nat (length rw)).

Lemma arr_of_length l n : 0 ≤ n ≤ Z.of_nat (length l) → Z.of_nat (length (arr_of (Some l) n)) = n.
Proof. intros H. unfold arr_of. simpl. rewrite length_take. lia. Qed.

Lemma created_sq e c a index q :
  created e c a index q → attr_ok (ca a) → 0 < max_send_wr (ca a) → ev_sig e = false → 0 ≤ ev_qpn e < 2 ^ 24 →
  arrays_long e (iq q) →
  ∃ bb k, sq_state (ready q) (sig_bits a) bb k 0 [] ∧
    sq_sized (ca a) (sq (ready q)) (max_inline_data (ready q)) bb k ∧
    qp_type (ready q) = at_type (ca a) ∧ cs_qp_num (ctrl_seg (ready q)) = ev_qpn e ∧
    mlx5_hrd_qp_index (ready q) = index.
Proof.
  intros (a' & g & bb & k & kr & wh & rw & d & Hty & Hsa & Hfl & Hsq & _ & Hsg & Ewh & _ & Eq & _) Ha Hwr Hsig Hqpn
    ((sw & Esw & Hsw) & Hwh & _).
  specialize (Hwh _ Ewh). rewrite Eq in Hsw, Hwh. rewrite Esw in Eq.
  cbn [finish_qp mlx5_update_post_send_one qp_set_fn sq sized_qp mlx5_init_qp_indices wq_set_tail wq_set_head
       wq_set_wrid wqe_cnt] in Hsw, Hwh.
  pose proof Hsq as [Hk Hcnt Hbb Hsh [Hp1 Hp2] [Hg1 Hg2] [Hi1 Hi2]].
  assert (2 ^ k ≤ 2 ^ 15) by (apply Z.pow_le_mono_r; lia). assert (0 < 2 ^ k) by lia.
  assert (Eend : u32 (Z.shiftl (wqe_cnt (g_sq g)) (wqe_shift (g_sq g))) = 64 * 2 ^ k).
  { rewrite Hcnt, Hsh, Z.shiftl_mul_pow2 by lia. rewrite u32_small by lia. lia. }
  assert (Hcf : cflags (ready q) = zero_flags).
  { unfold ready. rewrite Eq. cbn. by rewrite Hfl. }
  assert (Fe : sqend (ready q) = 64 * 2 ^ k) by (unfold ready; rewrite Eq; exact Eend).
  assert (Fi : max_inline_data (ready q) = g_max_inline_data g) by (unfold ready; by rewrite Eq).
  assert (Fs : sq (ready q) = wq_set_tail (wq_set_head (wq_set_wrid (g_sq g) (arr_of (Some sw) (wqe_cnt (g_sq g)))) 0) 0)
    by (unfold ready; by rewrite Eq).
  assert (Fh : wqe_head (ready q) = arr_of (Some wh) (wqe_cnt (g_sq g))) by (unfold ready; by rewrite Eq).
  assert (Fc : ∃ acc, ctrl_seg (ready q) = CtrlSegData (ev_qpn e) (build_tbl (sig_bits a)) acc false).
  { eexists. unfold ready. rewrite Eq. unfold sig_bits. rewrite <-Hsa, <-Hsig, <-Hsg. reflexivity. }
  destruct Fc as [acc Fc].
  assert (Ft : qp_type (ready q) = at_type (ca a)) by (unfold ready; by rewrite Eq).
  assert (Fn : post_send_one (ready q) =
    match at_type (ca a) with IBV_QPT_RC => PostRc | IBV_QPT_UC | IBV_QPT_UD => PostUcUd | _ => post_send_one (ready q) end).
  { pose proof (ao_type _ Ha) as Ht. set_unfold in Ht. rewrite <-Hty in *. unfold ready. rewrite Eq.
    destruct Ht as [Ht | [Ht | [Ht | []]]]; cbn; rewrite Ht; try done. by rewrite Hsg, Hsig. }
  exists bb, k. split; [split; [|split]|].
  - split; rewrite ?Hcf, ?Fe, ?Fs, ?Fh, ?Fi; cbn [wq_set_tail wq_set_head wq_set_wrid wqe_cnt wrid max_post]; try done.
    + split; cbn [qp_env we_qend we_max_inline_data we_ctrl_seg]; rewrite ?Fe, ?Fi, ?Fc; try done.
      * lia.
      * by exists (2 ^ k); rewrite Z.mul_comm.
      * unfold hdr_bytes in Hi2. destruct (at_type (ca a)); lia.
      * unfold sig_bits. destruct (sq_sig_all a); auto.
    + rewrite Ft, Fn. pose proof (ao_type _ Ha) as Ht. set_unfold in Ht.
      destruct Ht as [-> | [-> | [-> | []]]]; auto.
    + by rewrite Hcnt.
    + apply arr_of_length. lia.
    + apply arr_of_length. lia.
    + lia.
    + unfold ready. by rewrite Eq.
    + unfold ready. by rewrite Eq.
  - split; rewrite ?Fs; cbn [wq_set_tail wq_set_head wq_set_wrid tail max_post].
    + constructor.
    + cbn. lia.
    + done.
    + unfold ready. by rewrite Eq.
    + intros [|? ?] ? ? ?; done.
    + by eexists.
  - by rewrite Fs.
  - rewrite Fs, Fi, Fc. split; [by destruct Hsq; split|]. split; [done|]. split; [done|]. unfold ready. by rewrite Eq.
Qed.

Lemma created_rq e c a index q :
  created e c a index q → attr_ok (ca a) → ev_sig e = false → arrays_long e (iq q) →
  ∃ kr, rq_ok (ready q) kr ∧ rq_inv (rq (ready q)) [] ∧ head (rq (ready q)) = 0 ∧ tail (rq (ready q)) = 0 ∧
    max_recv_wr (ca a) ≤ max_post (rq (ready q)) ∧ max_recv_sge (ca a) ≤ max_gs (rq (ready q)).
Proof.
  intros (a' & g & bb & k & kr & wh & rw & d & Hty & _ & Hfl & _ & Hrq & Hsg & _ & Erw & Eq & _) Ha Hsig (_ & _ & Hrw).
  specialize (Hrw _ Erw). rewrite Eq in Hrw.
  change (wqe_cnt (g_rq g) ≤ Z.of_nat (length rw)) in Hrw.
  rewrite Hsig in Hrq. pose proof Hrq as [Hk Hcnt Hwr Hpost Hsh [Hg1 Hg2]]. assert (0 < 2 ^ kr) by lia.
  assert (Fr : rq (ready q) = Wq (arr_of (Some rw) (wqe_cnt (g_rq g))) (wqe_cnt (g_rq g)) 0 0 (wqe_cnt (g_rq g))
                                (max_gs (g_rq g)) (wqe_shift (g_rq g)) (buff (g_rq g))).
  { unfold ready. by rewrite Eq. }
  exists kr. rewrite Fr. split; [|split; [|cbn; lia]].
  - split; rewrite ?Fr; cbn [wqe_cnt max_post wqe_shift max_gs wrid]; try done; try lia.
    + apply arr_of_length. lia.
    + unfold ready. rewrite Eq. cbn. by rewrite Hsg.
    + unfold ready. rewrite Eq. cbn. by rewrite Hfl.
    + unfold ready. rewrite Eq. cbn. pose proof (ao_type _ Ha) as Ht. set_unfold in Ht. rewrite Hty.
      by destruct Ht as [-> | [-> | [-> | []]]].
    + unfold ready. by rewrite Eq.
  - split; cbn; [lia|done|]. intros i wr H'. by rewrite lookup_nil in H'.
Qed.

(** A request within the capabilities that the program asked for. *)
Record wr_asked (host : Z → Z) (a : create_attr) (fl : send_flags) (wr : ibv_exp_send_wr) : Prop := WrAsked
  { wa_ok : wr_ok (at_type (ca a)) wr;
    wa_rc : at_type (ca a) = IBV_QPT_RC → exp_opcode wr = IBV_EXP_WR_SEND ∨ exp_opcode wr = IBV_EXP_WR_RDMA_WRITE;
    wa_calc : IBV_EXP_SEND_WITH_CALC fl = false;
    wa_sge : num_sge wr ≤ max_send_sge (ca a);
    wa_inl : IBV_SEND_INLINE fl = true → Z.of_nat (length (payload host (sg_list wr))) ≤ cap_max_inline_data (ca a) }.

Lemma asked_fits host a q bb k fl wr :
  sq_sized (ca a) (sq q) (max_inline_data q) bb k → attr_ok (ca a) → qp_type q = at_type (ca a) →
  wr_asked host a fl wr → wr_fits host q bb fl wr.
Proof.
  intros Hz Ha Ht [H1 H2 H3 H4 H5]. pose proof Hz as [_ _ _ _ _ [Hg _] [Hi _]].
  split; rewrite ?Ht; try done.
  - lia.
  - intros Hf. specialize (H5 Hf). lia.
  - apply (sq_sized_units host (ca a) (sq q) (max_inline_data q) bb k); try done; [lia|].
    intros Hf. specialize (H5 Hf). lia.
Qed.

(** ** Limits of the statistics *)

(** With 128 queue pairs counted, [create_qp] returns NULL and keeps the
    structure and the lock. *)
Lemma create_exhausted e c a is_exp qi s :
  MLX5_HRD_MAX_QPS ≤ mlx5_hrd_global_qp_index s → HHrdLock ∉ s_held s → ev_qp e = true →
  create_qp e c a is_exp qi s = Ok (None, a, set_held s (HHrdLock :: HQp :: s_held s)).
Proof.
  intros Hi Hl Hq. unfold create_qp. rewrite Hq. cbn [negb]. free. rewrite decide_False by set_solver.
  cbn [res_bind mlx5_hrd_global_qp_index]. by rewrite (proj2 (Z.leb_le _ _)).
Qed.

Lemma create_stuck e c a is_exp qi s :
  HHrdLock ∈ s_held s → ev_qp e = true → create_qp e c a is_exp qi s = Fault Stuck.
Proof.
  intros Hl Hq. unfold create_qp. rewrite Hq. cbn [negb]. free. by rewrite decide_True by set_solver.
Qed.

(** ** Destruction *)
Lemma destroy_outcome mp q cqs srqs cqs' srqs' s l m r :
  iq_rx q = false → s_held s = qp_held q ++ l → HRscLock ∉ l → table_ok (s_rsc s) (<[iq_qpn q := r]> m) →
  m !! iq_qpn q = None → clean_both mp 0 q cqs srqs = Ok (cqs', srqs') →
  ∃ s', mlx5_destroy_qp mp 0 0 q cqs srqs s = Ok (0, cqs', srqs', s') ∧ s_held s' = l ∧ table_ok (s_rsc s') m ∧
    s_uidx s' = s_uidx s ∧ mlx5_hrd_global_qp_index s' = mlx5_hrd_global_qp_index s.
Proof.
  intros Hrx Hh Hk Ht Hm Hc. destruct s as [h i t u]. cbn [s_held s_rsc s_uidx mlx5_hrd_global_qp_index] in *. subst h.
  unfold mlx5_destroy_qp. rewrite Hrx. cbn [Z.eqb negb]. unfold qp_held. cbn [app]. rewrite <-(assoc_L (++)). cbn [app].
  free. rewrite decide_False.
  2: { clear -Hk. unfold arrays_held. destruct (qa_sq_buf _), (is_some (qa_rq_wrid _)), (is_some (qa_wqe_head _)), (is_some (qa_sq_wrid _));
       cbn; set_solver. }
  cbn [res_bind]. free. rewrite Hc. cbn [res_bind].
  destruct (clear_rsc_spec t _ (iq_qpn q) Ht) as (t' & -> & Ht'); [rewrite lookup_insert_eq; by eexists|].
  cbn [res_bind]. free. rewrite free_qp_buf_ok. free. eexists. split; [reflexivity|]. cbn.
  rewrite delete_insert_id in Ht' by done. done.
Qed.

(** The entries of the queue pair leave both completion queues. *)
Lemma clean_one_spec mp k ver rsn i c es cqs srqs :
  cqs !! i = Some c → cq_ok c k → cq_inv c k es →
  Forall (λ e, size_ok (cqe_sz c) e ∧ mlx5_get_cqe_format e ≠ MLX5_COMPRESSED) es →
  ∃ c' L, clean_one mp ver rsn (Some i) None cqs srqs = Ok (<[i := c']> cqs, srqs) ∧ cq_ok c' k ∧ cq_inv c' k (L ++ drop (seen k es) es) ∧
    Forall2 (same_cqe (cqe_sz c)) (List.filter (λ e, negb (mine rsn ver (cqe_sz c) e)) (take (seen k es) es)) L.
Proof.
  intros Hc Hok Hinv Hes. destruct (cq_clean_spec k rsn ver mp c es Hok Hinv Hes) as (c' & L & E & H1 & H2 & H3).
  exists c', L. unfold clean_one. cbn [deref]. rewrite Hc. cbn [res_bind mbind option_bind]. rewrite E. done.
Qed.

(** ** The transition to RTS *)
Lemma modify_rts mp c port q q2 cqs srqs cqs2 srqs2 :
  iq_rx q = false →
  mlx5_modify_qp mp c port 0 (Some IBV_QPS_RTS) IBV_QPS_RTS q cqs srqs = Ok (0, q2, cqs2, srqs2) →
  iq q2 = ready q ∧ cqs2 = cqs ∧ srqs2 = srqs.
Proof.
  intros Hrx. unfold mlx5_modify_qp.
  assert (Hp : ∃ ret csum, (match port with Some p => update_port_data (cc_rx_csum c) p q | None => (0, q) end) =
                 (ret, iq_set q (iq q) csum)).
  { destruct port as [[r ll]|]; [|exists 0, (iq_csum q); by destruct q]. unfold update_port_data. cbn [fst snd].
    destruct (r =? 0); cbn [negb]; [by eexists _, _|exists r, (iq_csum q); by destruct q]. }
  destruct Hp as (ret & csum & ->). destruct (ret =? 0) eqn:E0; cbn [negb].
  - cbn [iq_rx iq_set]. rewrite Hrx. rewrite (bool_decide_eq_false_2 (Some IBV_QPS_RTS = Some IBV_QPS_RESET)) by done.
    rewrite (bool_decide_eq_false_2 (Some IBV_QPS_RTS = Some IBV_QPS_RTR)) by done.
    cbn [andb Z.eqb res_bind is_some before_rts]. by intros [= <- <- <-].
  - intros [= E _ _ _]. rewrite E in E0. done.
Qed.

(** A completion queue that polling and cleaning work on. *)
Definition cq_sound (c : mlx5_cq) : Prop :=
  ∃ k es, cq_ok c k ∧ cq_inv c k es ∧
    Forall (λ e, size_ok (cqe_sz c) e ∧ mlx5_get_cqe_format e ≠ MLX5_COMPRESSED) es.

Lemma clean_both_ok mp ver q cqs srqs i j c d :
  iq_recv_cq q = Some i → iq_send_cq q = Some j → iq_srq q = None →
  cqs !! i = Some c → cq_sound c → cqs !! j = Some d → cq_sound d →
  ∃ cqs', clean_both mp ver q cqs srqs = Ok (cqs', srqs).
Proof.
  intros Ei Ej Es Hc (k & es & H1 & H2 & H3) Hd (k' & es' & K1 & K2 & K3). unfold clean_both. rewrite Ei, Ej, Es.
  destruct (clean_one_spec mp k ver (iq_rsn q) i c es cqs srqs) as (c' & L & -> & _); try done. cbn [res_bind].
  destruct (decide _) as [|Hne]; [by eexists|].
  destruct (clean_one_spec mp k' ver (iq_rsn q) j d es' (<[i := c']> cqs) srqs) as (d' & L' & -> & _); try done; [|by eexists].
  rewrite lookup_insert_ne; [done|congruence].
Qed.

(** ** One queue pair at a time

    A program that creates a queue pair and destroys it, [n] times. *)
Fixpoint churn (mp : list Z → res bool) (env : nat → create_env) (c : create_ctx) (a : create_attr) (is_exp : bool)
    (qi : Z) (cqs : gmap Z mlx5_cq) (srqs : gmap Z mlx5_srq) (n : nat) (s : create_st) : res create_st :=
  match n with
  | O => Ok s
  | S n =>
      let! (o, _, s) := create_qp (env n) c a is_exp qi s in
      let! s := match o with
                | None => Ok s
                | Some q => let! (_, _, _, s) := mlx5_destroy_qp mp 0 (cc_cqe_version c) q cqs srqs s in Ok s
                end in
      churn mp env c a is_exp qi cqs srqs n s
  end.

Lemma create_destroy mp e c a is_exp qi s m i j ci cj cqs srqs :
  create_pre e c a s m → ca_recv_cq a = Some i → ca_send_cq a = Some j → ca_srq a = None →
  cqs !! i = Some ci → cq_sound ci → cqs !! j = Some cj → cq_sound cj →
  ∃ o a' s', create_qp e c a is_exp qi s = Ok (o, a', s') ∧
    mlx5_hrd_global_qp_index s' = mlx5_hrd_global_qp_index s + (if ev_qp e then 1 else 0) ∧
    match o with
    | None => s_held s' = s_held s ∧ table_ok (s_rsc s') m
    | Some q => s_held s' = qp_held q ++ s_held s ∧
        ∃ cqs' s2, mlx5_destroy_qp mp 0 (cc_cqe_version c) q cqs srqs s' = Ok (0, cqs', srqs, s2) ∧
          s_held s2 = s_held s ∧ table_ok (s_rsc s2) m ∧ mlx5_hrd_global_qp_index s2 = mlx5_hrd_global_qp_index s'
    end.
Proof.
  intros Hp Hi Hj Hs Hci Si Hcj Sj. destruct (create_outcome e c a is_exp qi s m Hp) as (o & a' & s' & E & Hidx & _ & Ho).
  exists o, a', s'. split; [done|]. split; [done|]. destruct o as [q|]; [|done].
  destruct Ho as (Hh & Hcr & Ht). split; [done|].
  destruct Hcr as (? & ? & ? & ? & ? & ? & ? & ? & _ & _ & _ & _ & _ & _ & _ & _ & _ & _ & Hrx & _ & Hqn & Hsc & Hrc & Hsr).
  rewrite <-Hqn in Ht. destruct (clean_both_ok mp 0 q cqs srqs i j ci cj) as [cqs' Hcl]; try congruence.
  destruct (destroy_outcome mp q cqs srqs cqs' srqs s' (s_held s) m _ Hrx Hh (proj2 (cp_locks _ _ _ _ _ Hp)) Ht)
    as (s2 & E2 & Hh2 & Ht2 & _ & Hi2); [rewrite Hqn; apply Hp|done|].
  rewrite (cp_ver _ _ _ _ _ Hp). by exists cqs', s2.
Qed.

Lemma churn_ok mp env c a is_exp qi i j ci cj cqs srqs m n : ∀ s,
  (∀ k s1, s_held s1 = s_held s → table_ok (s_rsc s1) m → 0 ≤ mlx5_hrd_global_qp_index s1 < MLX5_HRD_MAX_QPS →
     create_pre (env k) c a s1 m ∧ ev_qp (env k) = true) →
  ca_recv_cq a = Some i → ca_send_cq a = Some j → ca_srq a = None →
  cqs !! i = Some ci → cq_sound ci → cqs !! j = Some cj → cq_sound cj →
  table_ok (s_rsc s) m → 0 ≤ mlx5_hrd_global_qp_index s →
  mlx5_hrd_global_qp_index s + Z.of_nat n ≤ MLX5_HRD_MAX_QPS →
  ∃ s', churn mp env c a is_exp qi cqs srqs n s = Ok s' ∧ s_held s' = s_held s ∧ table_ok (s_rsc s') m ∧
    mlx5_hrd_global_qp_index s' = mlx5_hrd_global_qp_index s + Z.of_nat n.
Proof.
  induction n as [|n IH]; intros s He Hi Hj Hs Hci Si Hcj Sj Ht H0 Hn.
  - exists s. split; [done|]. split; [done|]. split; [done|]. lia.
  - destruct (He n s eq_refl Ht ltac:(lia)) as [Hp Hq].
    destruct (create_destroy mp (env n) c a is_exp qi s m i j ci cj cqs srqs Hp) as (o & a' & s1 & E & Hidx & Ho); try done.
    rewrite Hq in Hidx. cbn [churn]. rewrite E. cbn [res_bind].
    assert (∃ s2, (match o with None => Ok s1
                   | Some q => let! (_, _, _, s) := mlx5_destroy_qp mp 0 (cc_cqe_version c) q cqs srqs s1 in Ok s end) = Ok s2 ∧
              s_held s2 = s_held s ∧ table_ok (s_rsc s2) m ∧ mlx5_hrd_global_qp_index s2 = mlx5_hrd_global_qp_index s + 1)
      as (s2 & -> & Hh2 & Ht2 & Hi2).
    { destruct o as [q|].
      - destruct Ho as (_ & cqs' & s2 & -> & ? & ? & ?). exists s2. split; [done|]. split; [done|]. split; [done|]. lia.
      - destruct Ho. by exists s1. }
    cbn [res_bind]. destruct (IH s2) as (s' & E' & Hh' & Ht' & Hi'); try done; try lia.
    { by rewrite Hh2. }
    exists s'. split; [done|]. split; [congruence|]. split; [done|]. lia.
Qed.

(** ** Threads that lock completion queues

    A thread is the locks it has and those it still waits for, in order. *)
Definition lock_thread : Type := list Z * list Z.

(** Holds all its locks, or the next one is free. *)
Definition can_run (ts : list lock_thread) (t : lock_thread) : Prop :=
  (t.2 = [] ∧ t.1 ≠ []) ∨ ∃ n r, t.2 = n :: r ∧ Forall (λ t', n ∉ t'.1) ts.

Lemma sorted_next l n r x : StronglySorted Z.lt (l ++ n :: r) → x ∈ l → x < n.
Proof.
  induction l as [|y l IH]; [set_solver|]. cbn. intros Hs Hx. apply StronglySorted_inv in Hs as [Hs Hy].
  apply elem_of_cons in Hx as [->|Hx]; [|by apply IH].
  rewrite List.Forall_forall in Hy. apply Hy. apply in_or_app. right. by left.
Qed.

Lemma ordered_locks_run ts B (t : lock_thread) n r :
  Forall (λ t : lock_thread, StronglySorted Z.lt (t.1 ++ t.2) ∧ ∀ x, x ∈ t.2 → x ≤ B) ts →
  t ∈ ts → t.2 = n :: r → ∃ t', t' ∈ ts ∧ can_run ts t'.
Proof.
  intros Hs. remember (Z.to_nat (B - n)) as d eqn:Ed. revert t n r Ed.
  induction (lt_wf d) as [d _ IH]. intros t n r Ed Ht E.
  destruct (decide (Exists (λ t' : lock_thread, n ∈ t'.1) ts)) as [Hx|Hx].
  - apply list.Exists_exists in Hx as (t' & Ht' & Hn). rewrite list.Forall_forall in Hs.
    destruct (Hs _ Ht') as [Hs' Hb]. destruct (t'.2) as [|n' r'] eqn:E'.
    + exists t'. split; [done|]. left. split; [done|]. intros E0. rewrite E0 in Hn. set_solver.
    + pose proof (sorted_next _ _ _ _ Hs' Hn). assert (n' ≤ B) by (apply Hb; left).
      apply (IH (Z.to_nat (B - n')) ltac:(lia) t' n' r' eq_refl Ht' E').
  - exists t. split; [done|]. right. exists n, r. split; [done|].
    apply list.Forall_forall. intros t' Ht' Hn. apply Hx. apply list.Exists_exists. by exists t'.
Qed.

Definition cqns_distinct (cqs : gmap Z mlx5_cq) : Prop :=
  ∀ i j c d, cqs !! i = Some c → cqs !! j = Some d → cqn c = cqn d → i = j.

Lemma lock_cqs_sorted cqs q : cqns_distinct cqs → StronglySorted Z.lt (mlx5_lock_cqs cqs q).
Proof.
  intros Hd. unfold mlx5_lock_cqs, lock_order, cq_key.
  destruct (iq_send_cq q) as [i|]; cbn [mbind option_bind]; [destruct (cqs !! i) as [ci|] eqn:Ei; cbn [mbind option_bind]|];
    (destruct (iq_recv_cq q) as [j|]; cbn [mbind option_bind]; [destruct (cqs !! j) as [cj|] eqn:Ej; cbn [mbind option_bind]|]);
    try (by repeat constructor).
  destruct (Z.eqb_spec i j) as [->|Hne]; [by repeat constructor|].
  assert (cqn ci ≠ cqn cj) by (intros E; apply Hne; exact (Hd _ _ _ _ Ei Ej E)).
  destruct (Z.ltb_spec (cqn ci) (cqn cj)); repeat constructor; lia.
Qed.

(** An upper bound of the locks that are waited for. *)
Lemma locks_bound (ts : list lock_thread) : ∃ B, Forall (λ t : lock_thread, ∀ x, x ∈ t.2 → x ≤ B) ts.
Proof.
  induction ts as [|t ts [B HB]]; [by exists 0|].
  assert (∃ C, ∀ x, x ∈ t.2 → x ≤ C) as [C HC].
  { clear HB. induction (t.2) as [|y l [C HC]]; [exists 0; set_solver|].
    exists (Z.max y C). intros x [->|Hx]%elem_of_cons; [lia|]. specialize (HC _ Hx). lia. }
  exists (Z.max B C). constructor.
  - intros x Hx. specialize (HC _ Hx). lia.
  - eapply Forall_impl; [|exact HB]. intros t' Ht' x Hx. specialize (Ht' _ Hx). lia.
Qed.
