(* ===== verification/Mlx5CqCreate.v ===== *)
(** * libmlx5: creating, resizing and destroying completion queues and shared
    receive queues (src/drivers/libmlx5-1.0.2mlnx1/src/verbs.c)

    As in [Mlx5Create], what malloc, the buffer allocator and the kernel
    answer is a record, and the objects held are a list. *)

From stdpp Require Import base gmap list numbers.
From Stdlib Require Import ZArith Lia.
From S2P Require Import Prelude Mlx5Base Mlx5Wqe Mlx5Send Mlx5Recv Mlx5Size Mlx5Table Mlx5Srq Mlx5Cq Mlx5Poll Mlx5Create.

(** ** Completion queues *)

(** [qv_size_env]: what [atoi] makes of [MLX5_CQE_SIZE], if it is set.
    [qv_create exp n]: result of the kernel, number of the queue and entries
    that it reports, for a request of [n] entries. *)
Record cq_env : Type := CqEnv
  { qv_calloc : bool;
    qv_threads : bool;              (** not [mlx5_single_threaded] *)
    qv_locks : bool;
    qv_cache_line : Z;
    qv_size_env : option Z;
    qv_buf : bool;
    qv_db : bool;
    qv_comp_max_num : Z;            (** [cqe_comp_max_num] *)
    qv_create : bool → Z → Z * Z * Z;
    qv_stall : bool * bool * Z }.   (** [stall_enable], [stall_adaptive_enable], [stall_cycles] *)

(** [xa_mask] is [comp_mask <> 0]; [xa_dom] the resource domain if its bit is
    set (it may be NULL) and whether its thread model is safe; [xa_flags] the
    flags if their bit is set: an unsupported one, and timestamps. *)
Record cq_attr : Type := CqAttr
  { xa_mask : bool;
    xa_dom : option (option bool);
    xa_flags : option (bool * bool) }.

Record ib_cq : Type := IbCq
  { ic : mlx5_cq;
    ic_thread_safe : bool;
    ic_timestamp : bool }.

Definition get_cqe_size (e : cq_env) : Z :=
  let size := Z.min (Z.max (qv_cache_line e) 64) 128 in
  let size := default size (qv_size_env e) in
  if (size =? 64) || (size =? 128) then size else - EINVAL.

(** The labels of [create_cq]; [err_spl] only destroys a lock. *)
Definition c_err (s : create_st) : res create_st := rel HCq s.
Definition c_err_buf (s : create_st) : res create_st := let! s := rel HCqBuf s in c_err s.
Definition c_err_db (s : create_st) : res create_st := let! s := rel HCqDb s in c_err_buf s.

(** With buffer and doorbell record: the call of the kernel and what follows. *)
Definition create_cq_cmd (e : cq_env) (ncqe sz : Z) (slots : list (list Z)) (thread_safe : bool) (attr : option cq_attr)
    (s : create_st) : res (option ib_cq * create_st) :=
  match attr with
  | None => Fault NullDeref
  | Some a =>
      let exp := xa_mask a || negb (qv_comp_max_num e =? 0) in
      if exp && match xa_flags a with Some (bad, _) => bad | None => false end
      then let! s := c_err_db s in Ok (None, s)
      else
        let '(ret, n, ent) := qv_create e exp (ncqe - 1) in
        if negb (ret =? 0) then let! s := c_err_db s in Ok (None, s)
        else
          let! log := mlx5_ilog2 ncqe in
          let '(st, sta, cyc) := qv_stall e in
          Ok (Some (IbCq (Cq slots ent 0 sz log [0; 0] 0 n [] 0 0 0 (Stall false st 0 sta cyc)) thread_safe
                      match xa_flags a with Some (_, ts) => ts | None => false end), acq HKernelCq s)
  end.

(** With the structure: the lock, the sizes, and the allocations. *)
Definition create_cq_sized (e : cq_env) (cqe : Z) (thread_safe : bool) (attr : option cq_attr) (s : create_st)
    : res (option ib_cq * create_st) :=
  if negb (qv_locks e) then let! s := c_err s in Ok (None, s)
  else if cqe <=? 0 then let! s := c_err s in Ok (None, s)
  else
    let! ncqe := align_queue_size (s32 (cqe + 1)) in
    if (2 ^ 24 <? ncqe) || (ncqe <? s32 (cqe + 1)) then let! s := c_err s in Ok (None, s)
    else
      let sz := get_cqe_size e in
      if sz <? 0 then let! s := c_err s in Ok (None, s)
      else
        let '(err, slots) := mlx5_alloc_cq_buf (qv_buf e) ncqe sz in
        if negb (err =? 0) then let! s := c_err s in Ok (None, s)
        else
          let s := acq HCqBuf s in
          if negb (qv_db e) then let! s := c_err_buf s in Ok (None, s)
          else create_cq_cmd e ncqe sz slots thread_safe attr (acq HCqDb s).

Definition create_cq (e : cq_env) (cqe : Z) (attr : option cq_attr) (s : create_st) : res (option ib_cq * create_st) :=
  if cqe =? 0 then Ok (None, s)
  else if negb (qv_calloc e) then Ok (None, s)
  else
    let s := acq HCq s in
    match attr ≫= xa_dom with
    | Some None => let! s := c_err s in Ok (None, s)
    | Some (Some safe) => create_cq_sized e cqe safe attr s
    | None => create_cq_sized e cqe (qv_threads e) attr s
    end.

Definition mlx5_create_cq (e : cq_env) (cqe : Z) (s : create_st) : res (option ib_cq * create_st) :=
  create_cq e cqe (Some (CqAttr false None None)) s.
Definition mlx5_create_cq_ex (e : cq_env) (cqe : Z) (attr : option cq_attr) (s : create_st)
    : res (option ib_cq * create_st) := create_cq e cqe attr s.

(** The buffers [buf_a] and [buf_b] change places; one is held before and
    after. *)
Definition cq_set_active (c : mlx5_cq) (a : Z) : mlx5_cq :=
  Cq (c_slots c) (ibv_cqe c) (cons_index c) (cqe_sz c) (cq_log_size c) (dbrec c) (arm_sn c) (cqn c)
    (resize_slots c) (resize_cqes c) a (resize_cqe_sz c) (c_stall c).
Definition cq_set_new (c : mlx5_cq) (slots : list (list Z)) (n sz : Z) : mlx5_cq :=
  Cq (c_slots c) (ibv_cqe c) (cons_index c) (cqe_sz c) (cq_log_size c) (dbrec c) (arm_sn c) (cqn c)
    slots n (active_cqes c) sz (c_stall c).
Definition cq_switch (c : mlx5_cq) (n log : Z) : mlx5_cq :=
  Cq (resize_slots c) n (cons_index c) (cqe_sz c) log (dbrec c) (arm_sn c) (cqn c)
    (resize_slots c) (resize_cqes c) (active_cqes c) (resize_cqe_sz c) (c_stall c).

(** [hw]: what the device writes to the old ring before the kernel returns,
    the entry that marks the resize included. *)
Definition mlx5_resize_cq (alloc : bool) (cmd : Z → Z) (hw : mlx5_cq → mlx5_cq) (c : mlx5_cq) (cqe : Z) (s : create_st)
    : res (Z * mlx5_cq * create_st) :=
  if cqe <? 0 then Ok (EINVAL, c, s)
  else if INT_MAX <? cqe * 64 then Ok (EINVAL, c, s)
  else
    let c := cq_set_active c (ibv_cqe c) in
    let! n := align_queue_size (s32 (cqe + 1)) in
    if n =? s32 (ibv_cqe c + 1) then Ok (0, c, s)
    else
      let '(err, slots) := mlx5_alloc_cq_buf alloc n (cqe_sz c) in
      if negb (err =? 0) then Ok (err, cq_set_new c [] n (cqe_sz c), s)
      else
        let c := cq_set_new c slots n (cqe_sz c) in
        let s := acq HCqBuf s in
        if negb (cmd (n - 1) =? 0) then let! s := rel HCqBuf s in Ok (cmd (n - 1), c, s)
        else
          let! c := mlx5_cq_resize_copy_cqes (hw c) in
          let! s := rel HCqBuf s in
          let! log := mlx5_ilog2 n in
          let! c := mlx5_update_cons_index (cq_switch c (n - 1) log) in
          Ok (0, c, s).

Definition mlx5_destroy_cq (cmd : Z) (s : create_st) : res (Z * create_st) :=
  if negb (cmd =? 0) then Ok (cmd, s)
  else
    let! s := rel HKernelCq s in
    let! s := rel HCqDb s in
    let! s := rel HCqBuf s in
    let! s := rel HCq s in
    Ok (0, s).

(** ** Shared receive queues *)
Record srq_env : Type := SrqEnv
  { rv_calloc : bool;
    rv_lock : bool;
    rv_malloc : bool;               (** for [wrid] *)
    rv_junk : list Z;               (** contents of [wrid] *)
    rv_buf : bool;
    rv_db : bool;
    rv_sig : bool;                  (** [MLX5_SRQ_SIGNATURE] is set *)
    rv_cmd : Z;
    rv_srqn : Z;
    rv_leaf : bool }.

(** Entry size that [mlx5_alloc_srq_buf] computes. *)
Definition srq_wqe_size (gs : Z) : res Z :=
  mlx5_round_up_power_of_two (Z.max 32 (s32 (16 + gs * SZ_DATA))).

(** [mlx5_alloc_srq_buf] with the objects it holds afterwards: when it
    refuses the size, [wrid] stays allocated. *)
Definition alloc_srq_held (lim : Z) (e : srq_env) (q : mlx5_srq) (s : create_st) : res (Z * mlx5_srq * create_st) :=
  let! (ret, q') := mlx5_alloc_srq_buf lim (rv_malloc e) (rv_buf e) (rv_junk e) q in
  if ret =? 0 then Ok (ret, q', acq HSrqBuf (acq HSrqWrid s))
  else if (s_max_gs q <? 0) || negb (rv_malloc e) then Ok (ret, q', s)
  else
    let! size := srq_wqe_size (s_max_gs q) in
    Ok (ret, q', if lim <? size then acq HSrqWrid s else s).

(** [t] is the table of shared queues, [si] the name of the structure. *)
Definition mlx5_create_srq (e : srq_env) (max_srq_recv_wr max_rq_desc_sz max_recv_wr : Z) (wr sge : Z) (si : Z)
    (t : rsc_table Z) (s : create_st) : res (option mlx5_srq * Z * rsc_table Z * create_st) :=
  if negb (rv_calloc e) then Ok (None, sge, t, s)
  else
    let s := acq HSrq s in
    if negb (rv_lock e) then let! s := rel HSrq s in Ok (None, sge, t, s)
    else if u32 max_srq_recv_wr <? wr then let! s := rel HSrq s in Ok (None, sge, t, s)
    else if u32 (u64 max_rq_desc_sz / SZ_DATA) <? sge then let! s := rel HSrq s in Ok (None, sge, t, s)
    else
      let! mx := align_queue_size (u32 (wr + 1)) in
      let q := Srq ∅ [] 0 mx (s32 sge) 0 0 0 0 0 false in
      let! (ret, q, s) := alloc_srq_held max_recv_wr e q s in
      if negb (ret =? 0) then let! s := rel HSrq s in Ok (None, sge, t, s)
      else
        let free_buf s := let! s := rel HSrqWrid s in let! s := rel HSrqBuf s in rel HSrq s in
        if negb (rv_db e) then let! s := free_buf s in Ok (None, sge, t, s)
        else
          let s := acq HSrqDb s in
          let q := Srq (s_buf q) (s_wrid q) (srqn q) (s_max q) (s_max_gs q) (s_wqe_shift q) (s_head q) (s_tail q)
                     (s_counter q) 0 (rv_sig e) in
          let sge := u32 (s_max_gs q) in
          let! s := lock HSrqLock s in
          let err_db s := let! s := rel HSrqLock s in let! s := rel HSrqDb s in free_buf s in
          if negb (rv_cmd e =? 0) then let! s := err_db s in Ok (None, sge, t, s)
          else
            let s := acq HKernelSrq s in
            let! (ret, t) := mlx5_store_srq (rv_leaf e) t (rv_srqn e) si in
            if negb (ret =? 0) then let! s := rel HKernelSrq s in let! s := err_db s in Ok (None, sge, t, s)
            else
              let! s := rel HSrqLock s in
              Ok (Some (Srq (s_buf q) (s_wrid q) (rv_srqn e) (s_max q) (s_max_gs q) (s_wqe_shift q) (s_head q) (s_tail q)
                          (s_counter q) (s_db q) (s_wq_sig q)), sge, t, s).

(** For a queue that is not an XRC one with user index. *)
Definition mlx5_destroy_srq (cmd : Z) (q : mlx5_srq) (t : rsc_table Z) (s : create_st) : res (Z * rsc_table Z * create_st) :=
  if negb (cmd =? 0) then Ok (cmd, t, s)
  else
    let! s := rel HKernelSrq s in
    let! t := mlx5_clear_srq t (srqn q) in
    let! s := rel HSrqDb s in
    let! s := rel HSrqBuf s in
    let! s := rel HSrqWrid s in
    let! s := rel HSrq s in
    Ok (0, t, s).
