(* ===== verification/Mlx5CqCreateProof.v ===== *)
(** * libmlx5: new, resized and destroyed completion queues: the proofs *)

From stdpp Require Import base gmap list numbers.
From Stdlib Require Import ZArith Lia.
From S2P Require Import Prelude Mlx5Base Mlx5Wqe Mlx5Send Mlx5SqProof Mlx5Recv Mlx5Size Mlx5SizeProof Mlx5Table Mlx5Srq Mlx5SrqProof Mlx5Cq Mlx5CqProof Mlx5CqClean Mlx5Poll Mlx5Create Mlx5CreateProof Mlx5CqCreate.

(** ** Creation *)

(** A ring of new entries has nothing to poll. *)
Lemma new_ring_inv k sz n c :
  0 ≤ k ≤ 24 → sz = 64 ∨ sz = 128 → cqe_sz c = sz → n = Z.to_nat (2 ^ k) → c_slots c = repeat (new_cqe sz) n →
  cq_inv c k [].
Proof.
  intros Hk Hsz Es -> Ec. split; [cbn; lia|intros i e Hi; by rewrite lookup_nil in Hi|].
  intros i e _ Hi He. unfold at_cqe in He. rewrite Ec in He. apply list_elem_of_lookup_2, list_elem_of_In, repeat_spec in He.
  subst e. unfold fresh. rewrite Es, (new_cqe_stale k) by (lia || done). done.
Qed.

Lemma cqe_size_cases e : get_cqe_size e = 64 ∨ get_cqe_size e = 128 ∨ get_cqe_size e < 0.
Proof.
  unfold get_cqe_size. set (size := default _ _). clearbody size.
  destruct (Z.eqb_spec size 64) as [->|]; [by left|]. destruct (Z.eqb_spec size 128) as [->|]; cbn; [tauto|].
  right. right. unfold EINVAL. lia.
Qed.

Definition cq_held : list held := [HKernelCq; HCqDb; HCqBuf; HCq].

(** The kernel makes the queue of the size asked for. *)
Definition cq_size_kept (e : cq_env) : Prop :=
  ∀ x n, let '(ret, _, ent) := qv_create e x n in ret = 0 → ent = n.

(** What creation promises. *)
Definition cq_made (e : cq_env) (cqe : Z) (s : create_st) (o : option ib_cq) (s' : create_st) : Prop :=
  match o with
  | None => s' = s
  | Some c => s' = set_held s (cq_held ++ s_held s) ∧
      ∃ k, cq_ok (ic c) k ∧ cq_inv (ic c) k [] ∧ cqe < 2 ^ k ≤ 2 * cqe ∧ cons_index (ic c) = 0 ∧
        cqe_sz (ic c) = get_cqe_size e ∧ cq_log_size (ic c) = k
  end.

Lemma made_none e cqe s : ∃ o s', Ok (None, s) = Ok (o, s') ∧ cq_made e cqe s o s'.
Proof. by exists None, s. Qed.

Lemma create_cq_cmd_spec e cqe k sz ts a l i t u :
  cq_size_kept e → sz = get_cqe_size e → sz = 64 ∨ sz = 128 → 0 ≤ k ≤ 24 → cqe < 2 ^ k ≤ 2 * cqe →
  ∃ o s', create_cq_cmd e (2 ^ k) sz (repeat (new_cqe sz) (Z.to_nat (2 ^ k))) ts (Some a)
            (CreateSt ([HCqDb; HCqBuf; HCq] ++ l) i t u) = Ok (o, s') ∧ cq_made e cqe (CreateSt l i t u) o s'.
Proof.
  intros Hkeep Es Hsz Hk Hc. unfold create_cq_cmd, c_err_db, c_err_buf, c_err. cbn [app].
  destruct (_ && _); [free; apply made_none|].
  set (x := xa_mask a || _). specialize (Hkeep x (2 ^ k - 1)). destruct (qv_create e x (2 ^ k - 1)) as [[ret n] ent].
  destruct (Z.eqb_spec ret 0) as [->|]; cbn [negb]; [|free; apply made_none]. specialize (Hkeep eq_refl). subst ent.
  assert (2 ^ k ≤ 2 ^ 24) by (apply Z.pow_le_mono_r; lia). change (2 ^ 24) with 16777216 in *.
  rewrite mlx5_ilog2_spec by (change (2 ^ 30) with 1073741824; lia). rewrite Z.log2_up_pow2 by lia. cbn [res_bind].
  destruct (qv_stall e) as [[st sta] cyc]. eexists (Some _), _. split; [reflexivity|]. split; [done|]. exists k. cbn [ic].
  split; [split; cbn; try done; rewrite ?repeat_length; lia|]. split; [by apply (new_ring_inv k sz (Z.to_nat (2 ^ k)))|].
  split; [done|]. by rewrite Es.
Qed.

Lemma create_cq_sized_spec e cqe ts a l i t u :
  cqe ≠ 0 → cqe < 2 ^ 31 - 1 → cq_size_kept e →
  ∃ o s', create_cq_sized e cqe ts (Some a) (CreateSt (HCq :: l) i t u) = Ok (o, s') ∧ cq_made e cqe (CreateSt l i t u) o s'.
Proof.
  intros H0 Hc Hkeep. unfold create_cq_sized, c_err_buf, c_err.
  destruct (qv_locks e); cbn [negb]; [|free; apply made_none].
  destruct (Z.leb_spec cqe 0); [free; apply made_none|]. rewrite s32_small by lia.
  unfold align_queue_size. destruct (decide (cqe + 1 ≤ 2 ^ 30)) as [Hle|Hgt].
  2: { rewrite round_up_overflow by lia. cbn [res_bind].
       rewrite (proj2 (Z.ltb_lt (- ENOMEM) (cqe + 1))) by (unfold ENOMEM; lia). rewrite orb_true_r. free. apply made_none. }
  rewrite round_up_spec by lia. cbn [res_bind]. set (k := Z.log2_up (cqe + 1)).
  pose proof (Z.log2_up_nonneg (cqe + 1)) as Hk0. fold k in Hk0.
  pose proof (Z.log2_up_spec (cqe + 1) ltac:(lia)) as [Hlo Hhi]. fold k in Hlo, Hhi.
  assert (Hk1 : 1 ≤ k) by (destruct (decide (k = 0)) as [E|]; [rewrite E in Hhi; cbn in Hhi; lia|lia]).
  assert (E2 : 2 ^ k = 2 * 2 ^ Z.pred k) by (rewrite <-Z.pow_succ_r by lia; f_equal; lia).
  destruct (Z.ltb_spec (2 ^ 24) (2 ^ k)) as [|Hk24]; [cbn [orb]; free; apply made_none|].
  apply Z.pow_le_mono_r_iff in Hk24; [|lia|lia].
  rewrite (proj2 (Z.ltb_ge (2 ^ k) (cqe + 1))) by lia. cbn [orb].
  destruct (cqe_size_cases e) as [Es|[Es|Es]].
  3: { rewrite (proj2 (Z.ltb_lt _ 0)) by done. free. apply made_none. }
  all: rewrite (proj2 (Z.ltb_ge (get_cqe_size e) 0)) by lia; unfold mlx5_alloc_cq_buf; destruct (qv_buf e); cbn [negb Z.eqb];
    [|free; apply made_none]; (destruct (qv_db e); cbn [negb]; [|free; apply made_none]);
    apply create_cq_cmd_spec; (done || lia || (rewrite Es; tauto)).
Qed.

Lemma create_cq_spec e cqe a s :
  cqe < 2 ^ 31 - 1 → cq_size_kept e → ∃ o s', create_cq e cqe (Some a) s = Ok (o, s') ∧ cq_made e cqe s o s'.
Proof.
  intros Hc Hkeep. destruct s as [l i t u]. unfold create_cq, c_err.
  destruct (Z.eqb_spec cqe 0) as [->|H0]; [apply made_none|]. destruct (qv_calloc e); cbn [negb]; [|apply made_none].
  cbn [mbind option_bind]. destruct (xa_dom a) as [[ts|]|]; [|free; apply made_none|]; by apply create_cq_sized_spec.
Qed.

Lemma destroy_cq_spec l i t u : mlx5_destroy_cq 0 (CreateSt (cq_held ++ l) i t u) = Ok (0, CreateSt l i t u).
Proof. unfold mlx5_destroy_cq, cq_held. cbn [app Z.eqb negb]. by free. Qed.

(** ** Resizing *)
Lemma s32_mod x k : 0 ≤ k ≤ 32 → s32 x mod 2 ^ k = x mod 2 ^ k.
Proof.
  intros Hk. unfold s32. rewrite <-(Z.mod_add _ 1 (2 ^ 32)) by lia.
  assert (E : ∃ q, (x + 2 ^ 31) mod 2 ^ 32 - 2 ^ 31 = x + q * 2 ^ 32).
  { pose proof (Z.div_mod (x + 2 ^ 31) (2 ^ 32) ltac:(lia)). exists (- ((x + 2 ^ 31) / 2 ^ 32)). lia. }
  rewrite Z.mod_add in * by lia. destruct E as [q ->].
  replace (2 ^ 32) with (2 ^ (32 - k) * 2 ^ k) by (rewrite <-Z.pow_add_r by lia; f_equal; lia).
  rewrite Z.mul_assoc. apply Z.mod_add. lia.
Qed.

Lemma s32_slot x k : 0 ≤ k ≤ 32 → s32 x .& (2 ^ k - 1) = x mod 2 ^ k.
Proof. intros Hk. rewrite u64_land_mask by lia. by apply s32_mod. Qed.

Lemma s32_bit x k : 0 ≤ k < 32 → Z.testbit (s32 x) k = Z.testbit x k.
Proof.
  intros Hk. rewrite <-(testbit_u32 (s32 x)), <-(testbit_u32 x) by lia. unfold u32. by rewrite s32_mod by lia.
Qed.

Lemma ownership_bit n k : 0 ≤ k → sw_ownership_bit n (2 ^ k) = Z.b2z (Z.testbit n k).
Proof.
  intros Hk. unfold sw_ownership_bit. pose proof (land_turn n k Hk) as E. replace (2 ^ k - 1 + 1) with (2 ^ k) in E by lia.
  rewrite <-E. by destruct (_ =? 0).
Qed.

Section Resize.
Variables (c0 : mlx5_cq) (k' : Z).
Hypothesis Hk' : 0 ≤ k' ≤ 24.

(** The entry as number [n] of the new ring. *)
Definition moved (n : Z) (e : list Z) : list Z :=
  set_own (cqe_sz c0) e (Z.b2z (Z.testbit n k') .| (default 0 (e !! own_off (cqe_sz c0)) .& 0xfe)).
Definition put (R : list (list Z)) (j : nat) (e : list Z) : list (list Z) :=
  let n := cons_index c0 + 1 + Z.of_nat j in <[Z.to_nat (n mod 2 ^ k') := moved n e]> R.
Fixpoint put_all (R : list (list Z)) (j : nat) (l : list (list Z)) : list (list Z) :=
  match l with [] => R | e :: l => put_all (put R j e) (S j) l end.

Definition ring_ok (R : list (list Z)) : Prop :=
  Z.of_nat (length R) = 2 ^ k' ∧ Forall (λ d, Z.of_nat (length d) = cqe_sz c0) R.

Lemma put_ok R j e : ring_ok R → size_ok (cqe_sz c0) e → ring_ok (put R j e).
Proof using.
  intros [Hl HF] He. split; [unfold put; by rewrite length_insert|]. unfold put. apply Forall_insert; [done|].
  unfold moved. rewrite set_own_insert, length_insert by done. apply He.
Qed.

Definition new_pos (j : nat) : nat := Z.to_nat ((cons_index c0 + 1 + Z.of_nat j) mod 2 ^ k').

Lemma new_pos_inj i j : Z.of_nat i < 2 ^ k' → Z.of_nat j < 2 ^ k' → new_pos i = new_pos j → i = j.
Proof using Hk'.
  intros Hi Hj E. unfold new_pos in E. apply Z2Nat.inj in E; [|apply Z.mod_pos_bound; lia|apply Z.mod_pos_bound; lia].
  apply pos_inj in E; lia.
Qed.

Lemma put_all_length l : ∀ R j, length (put_all R j l) = length R.
Proof using. induction l as [|e l IH]; intros R j; [done|]. cbn. rewrite IH. unfold put. apply length_insert. Qed.

Lemma put_all_other l : ∀ R j p,
  (∀ i, (i < length l)%nat → p ≠ new_pos (j + i)) → put_all R j l !! p = R !! p.
Proof using.
  induction l as [|e l IH]; intros R j p Hp; [done|]. cbn. rewrite IH.
  - unfold put. apply list_lookup_insert_ne. intros E. apply (Hp 0%nat); [cbn; lia|]. rewrite Nat.add_0_r. done.
  - intros i Hi. replace (S j + i)%nat with (j + S i)%nat by lia. apply Hp. cbn. lia.
Qed.

Lemma put_all_at l : ∀ R j i e,
  Z.of_nat (length R) = 2 ^ k' → Z.of_nat (j + length l) ≤ 2 ^ k' → l !! i = Some e →
  put_all R j l !! new_pos (j + i) = Some (moved (cons_index c0 + 1 + Z.of_nat (j + i)) e).
Proof using Hk'.
  induction l as [|x l IH]; intros R j i e HR Hl Hi; [done|]. cbn [put_all]. destruct i as [|i].
  - injection Hi as ->. rewrite Nat.add_0_r, put_all_other.
    + unfold put. apply list_lookup_insert_eq.
      pose proof (Z.mod_pos_bound (cons_index c0 + 1 + Z.of_nat j) (2 ^ k') ltac:(lia)). lia.
    + intros i Hi E. apply new_pos_inj in E; cbn in Hl; lia.
  - replace (j + S i)%nat with (S j + i)%nat by lia. apply IH; [|cbn in Hl; lia|done].
    unfold put. by rewrite length_insert.
Qed.

(** A moved entry is new in the new ring, and otherwise the same. *)
Lemma moved_spec k c n m e :
  cqe_sz c = cqe_sz c0 → size_ok (cqe_sz c0) e → fresh c0 k m e →
  fresh c k' n (moved n e) ∧ same_cqe (cqe_sz c0) e (moved n e).
Proof using Hk'.
  intros Ec He Hf. assert (Hb : Z.b2z (Z.testbit n k') = 0 ∨ Z.b2z (Z.testbit n k') = 1) by (destruct (Z.testbit n k'); tauto).
  split; [|right; by exists (Z.b2z (Z.testbit n k'))].
  pose proof He as (Hsz' & _ & Hv). destruct (own_parts _ _ Hb Hv) as (P1 & P2 & _).
  unfold fresh in *. rewrite Ec. rewrite own_of in * by done. unfold moved. rewrite set_own_lookup by done.
  match goal with |- sw_owned (default 0 (Some ?v)) _ _ = _ => change (default 0 (Some v)) with v end.
  unfold sw_owned in *. unfold MLX5_CQE_OWNER_MASK in *. rewrite P1, P2. apply andb_true_iff in Hf as [-> _]. cbn [andb].
  rewrite land_turn by lia. by destruct (Z.testbit n k').
Qed.
(** [es] are the new entries of the old ring, [mark] the one that ends them. *)
Variables (k : Z) (es : list (list Z)) (mark : list Z).
Hypothesis Hk : 0 ≤ k ≤ 24.
Hypothesis Hact : active_cqes c0 = 2 ^ k - 1.
Hypothesis Hnew : resize_cqes c0 = 2 ^ k'.
Hypothesis Hsz : resize_cqe_sz c0 = cqe_sz c0.
Hypothesis Hes : ∀ i e, (es ++ [mark]) !! i = Some e →
  at_cqe c0 k (cons_index c0 + Z.of_nat i) = Some e ∧ fresh c0 k (cons_index c0 + Z.of_nat i) e ∧ size_ok (cqe_sz c0) e.
Hypothesis Hop : Forall (λ e, cqe_op_own (cqe64_of (cqe_sz c0) e) .>> 4 ≠ MLX5_CQE_RESIZE_CQ) es.
Hypothesis Hmark : cqe_op_own (cqe64_of (cqe_sz c0) mark) .>> 4 = MLX5_CQE_RESIZE_CQ.
Hypothesis Hfull : Z.of_nat (length es) < 2 ^ k.

Lemma resize_loop_spec start rest : ∀ j R fuel,
  start = cons_index c0 mod 2 ^ k → ring_ok R → (length rest < fuel)%nat → drop j (es ++ [mark]) = rest ++ [mark] →
  (j + length rest = length es)%nat →
  resize_loop fuel (cq_set_resize c0 R) start (s32 (cons_index c0 + Z.of_nat j)) =
  Ok (cq_set_resize c0 (put_all R j rest), true).
Proof using Hk Hk' Hact Hnew Hsz Hes Hop Hmark Hfull.
  induction rest as [|e rest IH]; intros j R [|fuel] Hst HR Hfuel Hd Hj; cbn in Hfuel; try lia; cbn [resize_loop].
  - assert (Hm : (es ++ [mark]) !! j = Some mark).
    { rewrite <-(Nat.add_0_r j), <-lookup_drop, Hd. done. }
    destruct (Hes _ _ Hm) as (Ha & _). cbn [c_slots cq_set_resize active_cqes cqe_sz]. rewrite Hact, s32_slot by lia.
    rewrite (arr_get_Z _ _ mark); [|apply Z.mod_pos_bound; lia|exact Ha]. cbn [res_bind]. by rewrite Hmark.
  - assert (He : (es ++ [mark]) !! j = Some e).
    { rewrite <-(Nat.add_0_r j), <-lookup_drop, Hd. done. }
    assert (Hes' : es !! j = Some e) by (rewrite lookup_app_l in He; [done|cbn in Hj; lia]).
    destruct (Hes _ _ He) as (Ha & _ & He2). pose proof HR as [HRl HRf].
    cbn [c_slots cq_set_resize active_cqes cqe_sz resize_cqes resize_slots resize_cqe_sz].
    rewrite Hact, Hnew, Hsz, !s32_s32_add, !s32_slot by lia.
    rewrite (arr_get_Z _ _ e); [|apply Z.mod_pos_bound; lia|exact Ha]. cbn [res_bind].
    rewrite list.Forall_forall in Hop. specialize (Hop e (list_elem_of_lookup_2 _ _ _ Hes')).
    rewrite (proj2 (Z.eqb_neq _ _)) by done. rewrite ownership_bit, s32_bit by lia.
    replace (cons_index c0 + Z.of_nat j + 1) with (cons_index c0 + 1 + Z.of_nat j) by lia.
    set (n := cons_index c0 + 1 + Z.of_nat j).
    pose proof (Z.mod_pos_bound n (2 ^ k') ltac:(lia)) as Hb.
    destruct (arr_get_lt R (n mod 2 ^ k')) as (d & -> & Hd'); [lia|]. cbn [res_bind].
    rewrite list.Forall_forall in HRf. pose proof (HRf d (list_elem_of_lookup_2 _ _ _ Hd')) as Hdl.
    unfold in_bounds. rewrite Z.leb_refl. cbn [res_bind]. rewrite (drop_ge d) by lia. rewrite app_nil_r.
    change (if cqe_sz c0 =? 64 then 63%nat else 127%nat) with (own_off (cqe_sz c0)).
    rewrite arr_set_Ok by lia. cbn [res_bind].
    rewrite (Z.lor_comm _ (Z.b2z _)). change (set_fld _ [_] e) with (moved n e).
    assert (Hnext : ∃ x, (es ++ [mark]) !! S j = Some x).
    { apply lookup_lt_is_Some_2. rewrite length_app. cbn in Hj |- *. lia. }
    destruct Hnext as (x & Hx). destruct (Hes _ _ Hx) as (Hax & Hfx & _).
    replace (cons_index c0 + Z.of_nat (S j)) with n in Hax, Hfx by (unfold n; lia).
    change (cq_set_resize (cq_set_resize c0 R) ?r) with (cq_set_resize c0 r).

    rewrite (arr_get_Z _ _ x); [|apply Z.mod_pos_bound; lia|exact Hax]. cbn [res_bind].
    unfold is_hw. unfold fresh, sw_owned in Hfx. apply andb_true_iff in Hfx as [_ Hfx]. apply negb_true_iff in Hfx.
    rewrite land_turn, s32_bit by lia. rewrite land_turn in Hfx by lia. rewrite Hfx.
    rewrite (proj2 (Z.eqb_neq _ start)).
    + change (<[_ := _]> R) with (put R j e) at 1.
      cbn [put_all]. replace n with (cons_index c0 + Z.of_nat (S j)) by (unfold n; lia).
      rewrite (IH (S j) (put R j e) fuel); [done|done|by apply put_ok|lia| |cbn in Hj; lia].
      rewrite <-(Nat.add_1_r j), <-drop_drop, Hd. done.
    + rewrite Hst. unfold n. intros E. replace (cons_index c0 + 1 + Z.of_nat j) with (cons_index c0 + Z.of_nat (S j)) in E by lia.
      rewrite <-(Z.add_0_r (cons_index c0)) in E at 2. apply pos_inj in E; cbn in Hj; lia.
Qed.

Lemma resize_copy_spec :
  ring_ok (resize_slots c0) →
  mlx5_cq_resize_copy_cqes c0 =
  Ok (cq_set_cons (cq_set_resize c0 (put_all (resize_slots c0) 0 es)) (u32 (cons_index c0 + 1))).
Proof using Hk Hk' Hact Hnew Hsz Hes Hop Hmark Hfull.
  intros HR. unfold mlx5_cq_resize_copy_cqes. destruct ((es ++ [mark]) !! 0%nat) as [x|] eqn:Hx.
  2: { apply lookup_ge_None in Hx. rewrite length_app in Hx. cbn in Hx. lia. }
  destruct (Hes _ _ Hx) as (Ha & Hf & _). rewrite Z.add_0_r in Ha, Hf. rewrite Hact, s32_slot by lia.
  rewrite (arr_get_Z _ _ x); [|apply Z.mod_pos_bound; lia|exact Ha]. cbn [res_bind].
  unfold fresh, sw_owned in Hf. apply andb_true_iff in Hf as [_ Hf]. apply negb_true_iff in Hf.
  unfold is_hw. rewrite land_turn, s32_bit by lia. rewrite land_turn in Hf by lia. rewrite Hf.
  pose proof (resize_loop_spec (cons_index c0 mod 2 ^ k) es 0 (resize_slots c0) (Z.to_nat (2 ^ k - 1 + 2))
                eq_refl HR ltac:(lia) eq_refl eq_refl) as E.
  rewrite Z.add_0_r in E. replace (cq_set_resize c0 (resize_slots c0)) with c0 in E by (by destruct c0).
  rewrite E. done.
Qed.

(** The new ring, once it is the ring of the queue. *)
Lemma switched_inv R c' :
  Z.of_nat (length es) ≤ 2 ^ k' → R = repeat (new_cqe (cqe_sz c0)) (Z.to_nat (2 ^ k')) →
  cqe_sz c' = cqe_sz c0 → cons_index c' = u32 (cons_index c0 + 1) → c_slots c' = put_all R 0 es →
  let L := imap (λ j e, moved (cons_index c0 + 1 + Z.of_nat j) e) es in
  cq_inv c' k' L ∧ Forall2 (same_cqe (cqe_sz c0)) es L.
Proof using Hk Hk' Hes.
  intros Hroom ER Ez Ec Es L.
  assert (Hpos : ∀ j, at_cqe c' k' (cons_index c' + Z.of_nat j) = put_all R 0 es !! new_pos j).
  { intros j. unfold at_cqe, new_pos. rewrite Es, Ec. do 2 f_equal.
    rewrite <-Zplus_mod_idemp_l, mod_u32_pow2 by lia. by rewrite Zplus_mod_idemp_l. }
  assert (Hmv : ∀ j e, es !! j = Some e → fresh c' k' (cons_index c0 + 1 + Z.of_nat j) (moved (cons_index c0 + 1 + Z.of_nat j) e) ∧
    same_cqe (cqe_sz c0) e (moved (cons_index c0 + 1 + Z.of_nat j) e)).
  { intros j e He. destruct (Hes j e) as (_ & Hf & He2); [by rewrite lookup_app_l by (by eapply lookup_lt_Some)|].
    by apply (moved_spec k c' _ _ e Ez He2 Hf). }
  split; [split|].
  - unfold L. rewrite length_imap. lia.
  - intros j e' Hj. unfold L in Hj. rewrite list_lookup_imap in Hj. destruct (es !! j) as [e|] eqn:He; [|done].
    cbn in Hj. injection Hj as <-. rewrite Hpos. split.
    + apply (put_all_at es R 0 j e); [rewrite ER, repeat_length; lia|cbn; lia|done].
    + destruct (Hmv j e He) as [Hfr _]. unfold fresh in *. rewrite Ec, <-sw_owned_u32 by lia.
      replace (u32 (u32 (cons_index c0 + 1) + Z.of_nat j)) with (u32 (cons_index c0 + 1 + Z.of_nat j))
        by (unfold u32; by rewrite Zplus_mod_idemp_l).
      rewrite sw_owned_u32 by lia. exact Hfr.
  - intros j e' Hj Hj2 He'. rewrite Hpos, put_all_other in He'.
    + rewrite ER in He'. apply list_elem_of_lookup_2, list_elem_of_In, repeat_spec in He'. subst e'.
      destruct (Hes (length es) mark) as (_ & _ & Hm & _); [by rewrite lookup_app_r, Nat.sub_diag by lia|].
      unfold fresh. rewrite Ez, (new_cqe_stale k') by (done || lia). done.
    + intros i' Hi' E. apply new_pos_inj in E; unfold L in Hj; rewrite length_imap in Hj; cbn in *; lia.
  - unfold L. apply Forall2_same_length_lookup_2; [by rewrite length_imap|].
    intros j e e' He Hj. rewrite list_lookup_imap, He in Hj. cbn in Hj. injection Hj as <-. by apply Hmv.
Qed.
End Resize.

Lemma resize_cq_spec c k S es mark cqe hw s :
  cq_ok (cq_set_slots c S) k → cq_inv (cq_set_slots c S) k (es ++ [mark]) → Forall (size_ok (cqe_sz c)) (es ++ [mark]) →
  Forall (λ e, cqe_op_own (cqe64_of (cqe_sz c) e) .>> 4 ≠ MLX5_CQE_RESIZE_CQ) es →
  cqe_op_own (cqe64_of (cqe_sz c) mark) .>> 4 = MLX5_CQE_RESIZE_CQ →
  let k' := Z.log2_up (cqe + 1) in
  0 < cqe → k' ≤ 24 → k' ≠ k → Z.of_nat (length es) ≤ 2 ^ k' → (∀ c1, hw c1 = cq_set_slots c1 S) →
  ∃ c' L, mlx5_resize_cq true (λ _, 0) hw c cqe s = Ok (0, c', s) ∧ cq_ok c' k' ∧ cq_inv c' k' L ∧
    Forall2 (same_cqe (cqe_sz c)) es L ∧ cons_index c' = u32 (cons_index c + 1).
Proof.
  intros Hok Hinv Hsize Hop Hmark k' Hc Hk' Hne Hroom Hhw. pose proof Hok as [Hk Hmask Hlen Hcons Hdb].
  cbn [ibv_cqe cq_set_slots c_slots cons_index dbrec] in *.
  pose proof (Z.log2_up_nonneg (cqe + 1)) as Hk0. fold k' in Hk0.
  pose proof (Z.log2_up_spec (cqe + 1) ltac:(lia)) as [_ Hhi]. fold k' in Hhi.
  assert (H24 : ∀ x, x ≤ 24 → 2 ^ x ≤ 16777216) by (intros x Hx; change 16777216 with (2 ^ 24); apply Z.pow_le_mono_r; lia).
  pose proof (H24 k' Hk'). pose proof (H24 k ltac:(lia)).
  assert (Hsz : cqe_sz c = 64 ∨ cqe_sz c = 128) by (apply list.Forall_app in Hsize as [_ Hs]; apply Forall_inv in Hs; apply Hs).
  unfold mlx5_resize_cq. rewrite (proj2 (Z.ltb_ge cqe 0)) by lia.
  rewrite (proj2 (Z.ltb_ge INT_MAX _)) by (unfold INT_MAX; lia). rewrite s32_small by lia.
  unfold align_queue_size. rewrite round_up_spec by lia. fold k'. cbn [res_bind ibv_cqe cq_set_active].
  rewrite Hmask. assert (2 ^ k' ≠ 2 ^ k) by (intros E; apply Hne; apply Z.pow_inj_r in E; lia).
  rewrite s32_small by lia. rewrite (proj2 (Z.eqb_neq _ _)) by lia. unfold mlx5_alloc_cq_buf. cbn [Z.eqb negb].
  set (R := repeat _ _). rewrite Hhw. set (c0 := cq_set_slots _ S).
  assert (Hes : ∀ i e, (es ++ [mark]) !! i = Some e → at_cqe c0 k (cons_index c0 + Z.of_nat i) = Some e ∧
    fresh c0 k (cons_index c0 + Z.of_nat i) e ∧ size_ok (cqe_sz c0) e).
  { intros i e Hi. destruct (cv_new _ _ _ Hinv i e Hi) as [A F]. split; [exact A|]. split; [exact F|].
    rewrite list.Forall_forall in Hsize. apply Hsize. by eapply list_elem_of_lookup_2. }
  assert (Hfull : Z.of_nat (length es) < 2 ^ k).
  { pose proof (cv_fit _ _ _ Hinv) as Hf. rewrite length_app in Hf. cbn in Hf. lia. }
  assert (HR : ring_ok c0 k' R).
  { split; [unfold R; rewrite repeat_length; lia|]. apply list.Forall_forall. intros d Hd.
    apply list_elem_of_In, repeat_spec in Hd. subst d. change (Z.of_nat (length (new_cqe (cqe_sz c))) = cqe_sz c).
    by destruct Hsz as [-> | ->]. }
  destruct s as [l i t u]. free.
  rewrite (resize_copy_spec c0 k' ltac:(lia) k es mark Hk eq_refl eq_refl eq_refl Hes Hop Hmark Hfull HR). cbn [res_bind]. free.
  rewrite mlx5_ilog2_spec, Z.log2_up_pow2 by lia. cbn [res_bind]. set (c' := cq_switch _ _ _).
  assert (Hok' : cq_ok c' k').
  { split; cbn; [lia|done|rewrite put_all_length; apply HR|apply u32_range|done]. }
  rewrite (update_cons_spec k' c' Hok'). cbn [res_bind]. set (c2 := cq_set_dbrec _ _).
  destruct (switched_inv c0 k' ltac:(lia) k es mark Hk Hes R c2 Hroom eq_refl eq_refl eq_refl eq_refl) as [Hi Hs].
  eexists _, _. split; [reflexivity|]. split; [|split; [exact Hi|split; [exact Hs|done]]].
  destruct Hok'. split; try done. cbn. by rewrite length_insert.
Qed.

(** ** Shared receive queues *)
Definition srq_held : list held := [HKernelSrq; HSrqDb; HSrqBuf; HSrqWrid; HSrq].

(** Failure leaves [wrid] behind exactly when the entry is too large. *)
Lemma alloc_srq_held_spec lim e q l i t u k :
  1 ≤ k ≤ 16 → s_max q = 2 ^ k → 0 ≤ s_max_gs q ≤ 1000 → s_wq_sig q = false →
  s_max q ≤ Z.of_nat (length (rv_junk e)) →
  (∃ q', alloc_srq_held lim e q (CreateSt l i t u) = Ok (0, q', CreateSt ([HSrqBuf; HSrqWrid] ++ l) i t u) ∧
     srq_ok q' k ∧ srq_inv q' [] [] (seqZ 0 (2 ^ k)) ∧ s_max_gs q ≤ s_max_gs q' ∧ s_max q' = 2 ^ k) ∨
  (∃ q' kept, alloc_srq_held lim e q (CreateSt l i t u) = Ok (-1, q', CreateSt (kept ++ l) i t u) ∧
     (kept = [] ∨ kept = [HSrqWrid] ∧ rv_malloc e = true ∧ lim < 2 ^ Z.log2_up (Z.max 32 (16 + 16 * s_max_gs q)))).
Proof.
  intros Hk Hm Hg Hs Hj. unfold alloc_srq_held.
  assert (Esz : srq_wqe_size (s_max_gs q) = Ok (2 ^ Z.log2_up (Z.max 32 (16 + 16 * s_max_gs q)))).
  { unfold srq_wqe_size, SZ_DATA. rewrite s32_small, (Z.mul_comm _ 16) by lia. apply round_up_spec. lia. }
  destruct (rv_malloc e) eqn:Em.
  2: { unfold mlx5_alloc_srq_buf. rewrite (proj2 (Z.ltb_ge _ _)) by lia. cbn [negb res_bind Z.eqb]. rewrite orb_true_r.
       right. exists q, []. split; [done|]. by left. }
  rewrite (proj2 (Z.ltb_ge (s_max_gs q) 0)) by lia. cbn [orb negb].
  destruct (alloc_srq_spec k lim (rv_junk e) q Hk Hm Hg Hs Hj) as [[E Hlt]|(q' & E & Hok & Hinv & Hgs & Hmx)].
  - assert (E' : mlx5_alloc_srq_buf lim true (rv_buf e) (rv_junk e) q = Ok (-1, q)).
    { unfold mlx5_alloc_srq_buf in *. rewrite (proj2 (Z.ltb_ge (s_max_gs q) 0)) in * by lia. cbn [negb] in *.
      fold (srq_wqe_size (s_max_gs q)) in *. rewrite Esz in *. cbn [res_bind] in *.
      by rewrite (proj2 (Z.ltb_lt _ _)) in * by done. }
    rewrite E'. cbn [res_bind Z.eqb]. rewrite Esz. cbn [res_bind]. rewrite (proj2 (Z.ltb_lt _ _)) by done.
    right. exists q, [HSrqWrid]. split; [done|]. by right.
  - destruct (rv_buf e) eqn:Eb.
    + rewrite E. cbn [res_bind Z.eqb]. left. exists q'. rewrite <-Hm. by repeat (split; [done|]).
    + assert (Hge : 2 ^ Z.log2_up (Z.max 32 (16 + 16 * s_max_gs q)) ≤ lim).
      { destruct (decide (2 ^ Z.log2_up (Z.max 32 (16 + 16 * s_max_gs q)) ≤ lim)); [done|]. exfalso.
        unfold mlx5_alloc_srq_buf in E. rewrite (proj2 (Z.ltb_ge (s_max_gs q) 0)) in E by lia. cbn [negb] in E.
        fold (srq_wqe_size (s_max_gs q)) in E. rewrite Esz in E. cbn [res_bind] in E.
        by rewrite (proj2 (Z.ltb_lt _ _)) in E by lia. }
      assert (E' : ∃ q2, mlx5_alloc_srq_buf lim true false (rv_junk e) q = Ok (-1, q2)).
      { unfold mlx5_alloc_srq_buf in *. rewrite (proj2 (Z.ltb_ge (s_max_gs q) 0)) in * by lia. cbn [negb] in *.
        fold (srq_wqe_size (s_max_gs q)) in *. rewrite Esz in *. cbn [res_bind] in *.
        rewrite (proj2 (Z.ltb_ge _ _)) in * by done.
        destruct (mlx5_ilog2 _); cbn [res_bind] in *; [|done]. destruct (smul _ _); cbn [res_bind] in *; [|done]. by eexists. }
      destruct E' as [q2 ->]. cbn [res_bind Z.eqb]. rewrite Esz. cbn [res_bind].
      rewrite (proj2 (Z.ltb_ge _ _)) by done. right. exists q2, []. split; [done|]. by left.
Qed.

Record srq_pre (e : srq_env) (wr sge : Z) (t : rsc_table Z) (m : gmap Z Z) (s : create_st) : Prop := SrqPre
  { sp_wr : 1 ≤ wr < 2 ^ 16;
    sp_sge : 0 ≤ sge ≤ 1000;
    sp_sig : rv_sig e = false;
    sp_junk : 2 ^ Z.log2_up (wr + 1) ≤ Z.of_nat (length (rv_junk e));
    sp_lock : HSrqLock ∉ s_held s;
    sp_table : table_ok t m;
    sp_srqn : 0 ≤ rv_srqn e < 2 ^ 24;
    sp_fresh : m !! rv_srqn e = None }.

Definition srq_made (e : srq_env) (lim wr sge si : Z) (m : gmap Z Z) (l : list held) (o : option mlx5_srq)
    (t' : rsc_table Z) (s' : create_st) : Prop :=
  match o with
  | None => table_ok t' m ∧ (s_held s' = l ∨ s_held s' = HSrqWrid :: l ∧ lim < 2 ^ Z.log2_up (Z.max 32 (16 + 16 * sge)))
  | Some q => s_held s' = srq_held ++ l ∧ srq_ok q (Z.log2_up (wr + 1)) ∧ srq_inv q [] [] (seqZ 0 (s_max q)) ∧
      wr < s_max q ∧ sge ≤ s_max_gs q ∧ srqn q = rv_srqn e ∧ table_ok t' (<[rv_srqn e := si]> m)
  end.

Lemma srq_made_none e lim wr sge si m l i t0 u t (x : Z) :
  table_ok t m → ∃ o sge' t' s', Ok (None, x, t, CreateSt l i t0 u) = Ok (o, sge', t', s') ∧
    srq_made e lim wr sge si m l o t' s'.
Proof. intros Ht. eexists None, _, _, _. split; [reflexivity|]. split; [done|]. by left. Qed.

Lemma create_srq_spec e mwr mdesc lim wr sge si t m s :
  srq_pre e wr sge t m s →
  ∃ o sge' t' s', mlx5_create_srq e mwr mdesc lim wr sge si t s = Ok (o, sge', t', s') ∧
    srq_made e lim wr sge si m (s_held s) o t' s'.
Proof.
  intros [Hwr Hsge Hsig Hjunk Hlock Ht Hn Hf]. destruct s as [l i t0 u]. cbn [s_held] in *. unfold mlx5_create_srq.
  set (k := Z.log2_up (wr + 1)) in *.
  destruct (rv_calloc e); cbn [negb]; [|by apply srq_made_none]. destruct (rv_lock e); cbn [negb]; [|free; by apply srq_made_none].
  destruct (_ <? wr); [free; by apply srq_made_none|]. destruct (_ <? sge); [free; by apply srq_made_none|].
  pose proof (Z.log2_up_spec (wr + 1) ltac:(lia)) as [_ Hhi]. fold k in Hhi.
  assert (Hk : 1 ≤ k ≤ 16).
  { split; [|apply log2_up_least; lia]. unfold k. change 1 with (Z.log2_up 2) at 1. apply Z.log2_up_le_mono. lia. }
  unfold align_queue_size. rewrite u32_small, round_up_spec by lia. fold k. cbn [res_bind]. rewrite s32_small by lia.
  set (q0 := Srq _ _ _ _ _ _ _ _ _ _ _).
  destruct (alloc_srq_held_spec lim e q0 (HSrq :: l) i t0 u k Hk eq_refl Hsge eq_refl Hjunk)
    as [(q & E & Hok & Hinv & Hgs & Hmx)|(q & kept & E & Hkept)];
    change (acq HSrq (CreateSt l i t0 u)) with (CreateSt (HSrq :: l) i t0 u); rewrite E; cbn [res_bind Z.eqb negb].
  2: { destruct Hkept as [->|(-> & _ & Hlt)]; cbn [app]; free; [by apply srq_made_none|].
       eexists None, _, _, _. split; [reflexivity|]. split; [done|]. right. by split. }
  cbn [app] in *. destruct (rv_db e); cbn [negb]; [|free; by apply srq_made_none]. free.
  rewrite decide_False by set_solver. cbn [res_bind].
  destruct (Z.eqb_spec (rv_cmd e) 0); cbn [negb]; [|free; by apply srq_made_none].
  destruct (store_rsc_spec (rv_leaf e) t m (rv_srqn e) si Ht Hn Hf) as [(t' & Et & Ht')|(_ & t' & Et & Ht')];
    unfold mlx5_store_srq; rewrite Et; cbn [res_bind Z.eqb negb]; free.
  - eexists (Some _), _, _, _. split; [reflexivity|]. unfold srq_made. cbn [s_held s_max s_max_gs srqn]. rewrite <-Hmx in Hinv.
    split; [done|]. split; [destruct Hok; by split|]. split; [destruct Hinv; by split|]. split; [lia|]. by split.
  - by apply srq_made_none.
Qed.

Lemma destroy_srq_spec q l i t0 u t m si :
  table_ok t (<[srqn q := si]> m) → m !! srqn q = None →
  ∃ t', mlx5_destroy_srq 0 q t (CreateSt (srq_held ++ l) i t0 u) = Ok (0, t', CreateSt l i t0 u) ∧ table_ok t' m.
Proof.
  intros Ht Hm. unfold mlx5_destroy_srq, srq_held. cbn [Z.eqb negb app]. free.
  destruct (clear_rsc_spec t _ (srqn q) Ht) as (t' & E & Ht'); [rewrite lookup_insert_eq; by eexists|].
  unfold mlx5_clear_srq. rewrite E. cbn [res_bind]. free. exists t'. split; [done|]. by rewrite delete_insert_id in Ht'.
Qed.
