(* ===== verification/Mlx5Thms.v ===== *)
(** * libmlx5: the theorems

    What the driver promises to the programs above it, each with an
    application to a small concrete queue. *)

From stdpp Require Import base gmap list numbers.
From Stdlib Require Import ZArith Lia.
From S2P Require Import Prelude Signal Mlx5Base Mlx5Wqe Mlx5WqeProof Mlx5Encode Mlx5Send Mlx5SqProof Mlx5SqThms Mlx5Recv Mlx5RecvProof Mlx5Size Mlx5SizeProof Mlx5Table Mlx5Srq Mlx5SrqProof Mlx5Cq Mlx5CqProof Mlx5CqClean Mlx5Poll Mlx5PollProof Mlx5System.

(** ** A small queue pair

    Unreliable connection, four blocks in the send queue and four entries in
    the receive queue. *)
#[local] Instance no_implicit_lkey : ImplicitLkey unit := λ _ _ _, eff_ret (0, 0).
Definition no_rc_dc (q : mlx5_qp) (wr : ibv_exp_send_wr) (fl : send_flags) (seg fm : Z) (m : sqmem)
    : eff unit one_ret := eff_ret (OneRet EINVAL 0 m fm).

Definition ex_wq (gs shift : Z) : mlx5_wq := Wq [0; 0; 0; 0] 4 0 0 4 gs shift ∅.
Definition ex_qp : mlx5_qp :=
  Qp (ex_wq 2 6) (ex_wq 1 4) [0; 0; 0; 0] PostUcUd 256 0 0 (CreateFlags false false false false) 0 28
    (CtrlSegData 7 (build_tbl 0) [] false) IBV_QPT_UC MLX5_MPW_STATE_CLOSED
    (Bf 0 256 MLX5_DB_METHOD_BF) [0; 0] (0, 0) (0, 0) 0 ∅.

Lemma ex_sq_state : sq_state ex_qp 0 1 2 0 [].
Proof.
  split; [|split; [|reflexivity]].
  - split; [|right; split; [by left|done]|split; done|done|done|done|done|split; done|split; done|done|done|done|done].
    split; [done|by exists 4|done|split; done|done|done|by left].
  - split; [constructor|done|split; done|done|intros [|? ?] ? ? ?; done|].
    eexists. cbn [map concat app]. reflexivity.
Qed.

Definition ex_flags (sig : bool) : send_flags := SendFlags false sig false true false false false.
Definition ex_wr (id : Z) (sig : bool) : ibv_exp_send_wr :=
  SendWr id IBV_EXP_WR_RDMA_WRITE (ex_flags sig) (ex_flags sig) 0 [Sge 4096 8 11] 65536 5 (repeat 0 48)
    0 0 0 0 0 0.
Definition ex_host (a : Z) : Z := u8 a.

Lemma ex_wr_fits id sig : wr_fits ex_host ex_qp 1 (ex_flags sig) (ex_wr id sig).
Proof.
  split; [|done|done|done|done|vm_compute; done].
  split; [by eexists|done|split; done| |split; done|split; done|done|split; done].
  constructor; [|constructor]. vm_compute. repeat split; done.
Qed.

(** ** The send queue *)

(** C6: [ibv_post_send] ([ibv_exp_post_send] if [is_exp]) on the send queue of
    a UC or UD queue pair, or of an RC queue pair on its fast path (SEND and
    RDMA WRITE, no signature), that holds [out], with requests within the
    limits of the queue: it accepts exactly the first requests of the list for
    which [max_post] leaves room, all of them if it can, else it returns
    [ENOMEM] with [bad_wr] at the first refused one.  No memory access leaves
    the ring, also where a request wraps around its end.  The queue then holds
    [out] and the new requests, the device finds just these when it walks the
    ring from the old to the new producer index and decodes what the program
    asked for (opcode, flags, immediate, remote address, address vector,
    pointers or inline data), and if a request was accepted the doorbell
    record has the new index.  When all were accepted, the doorbell shows the
    device the last request; after an [ENOMEM] what the doorbell register gets
    is not claimed (the code copies the slot of the refused request, which may
    hold older bytes). *)
Theorem mlx5_post_send_correct {K : Type} `{ImplicitLkey K} host rc_dc b bbmax k s0 is_exp q out wrs
    (stats : hrd_stats) jseg jsize (w : K) :
  sq_state q b bbmax k s0 out →
  Forall (λ wr, wr_fits host q bbmax (wr_flags is_exp wr) wr) wrs →
  0 ≤ mlx5_hrd_qp_index q < Z.of_nat (length stats) →
  let n := (length wrs `min` (Z.to_nat (max_post (sq q)) - length out))%nat in
  ∃ r ss, __mlx5_post_send host rc_dc jseg jsize q stats wrs is_exp w = Ok (r, w) ∧
    pr_err r = (if decide (n = length wrs) then 0 else ENOMEM) ∧ pr_bad_wr r = drop n wrs ∧
    sq_state (pr_qp r) b bbmax k s0 (out ++ ss) ∧
    Forall2 (carries host b is_exp q) (take n wrs) ss ∧
    hca_fetch (S n) (qp_type q) (sqbuf (pr_qp r)) (sqend q) (scur_post q) (scur_post (pr_qp r)) =
      Some (map sl_req ss) ∧
    (n ≠ 0%nat → db (pr_qp r) !! 1%nat = Some (htonl (u16 (scur_post (pr_qp r))))) ∧
    (∀ s1 s, ss = s1 ++ [s] → n = length wrs →
       announces (pr_events r) (u16 (scur_post (pr_qp r))) (sl_bytes s)).
Proof.
  intros Hsq Hwrs Hi n. destruct (post_send_spec host rc_dc b bbmax k s0 is_exp q out wrs stats jseg jsize w Hsq Hwrs Hi)
    as (r & ss & H1 & H2 & H3 & _ & H4 & H5 & H6 & H7 & H8 & _).
  exists r, ss. repeat (split; [assumption|]). assumption.
Qed.

(** Five requests for four places. *)
Definition ex_five : list ibv_exp_send_wr := map (λ i, ex_wr i (i =? 3)) [1; 2; 3; 4; 5].

Lemma ex_five_fit : Forall (λ wr, wr_fits ex_host ex_qp 1 (wr_flags false wr) wr) ex_five.
Proof. apply list.Forall_fmap, list.Forall_true. intros i. exact (ex_wr_fits _ _). Qed.

Lemma mlx5_post_send_correct_witness :
  ∃ r ss, __mlx5_post_send ex_host no_rc_dc 0 0 ex_qp [(0, 0)] ex_five false tt = Ok (r, tt) ∧
    pr_err r = ENOMEM ∧ map Mlx5Wqe.wr_id (pr_bad_wr r) = [5] ∧ length ss = 4%nat ∧
    hca_fetch 5 IBV_QPT_UC (sqbuf (pr_qp r)) 256 0 (scur_post (pr_qp r)) = Some (map sl_req ss).
Proof.
  destruct (mlx5_post_send_correct ex_host no_rc_dc 0 1 2 0 false ex_qp [] ex_five [(0, 0)] 0 0 tt
              ex_sq_state ex_five_fit) as (r & ss & E & He & Hb & _ & HF & Hf & _); [split; done|].
  exists r, ss. split; [exact E|]. split; [by rewrite He|]. split; [by rewrite Hb|].
  split; [by rewrite <-(Forall2_length HF)|]. exact Hf.
Defined.

(** C5: A queue pair with its completion queue, run by this driver next to a
    device that fetches, executes and completes the announced requests at its
    own pace, implements the send queue [Signal.sq_run] that HERD and the
    sequencers are verified against.  For every schedule of calls and device
    steps in which posts find room, in the send queue ([depth]) and in the
    completion ring for all signaled requests that are not polled yet
    ([room], at most the size of the ring; [depth] will do if the ring has as
    many entries): no post fails, a poll returns a successful completion
    exactly when the device has written one that was not returned yet, and the
    [wr_id]s polled are those of the signaled requests, each once and in the
    order of posting; the calls that succeed are a run of [Signal.sq_run]; and
    once the device has done all that it was given, a poll returns. *)
Theorem mlx5_qp_refines_sq {K : Type} `{ImplicitLkey K} host rc_dc qi rsn kc b bbmax k q0 depth room acts y ids a a' tr
    (w : K) :
  sys_inv qi rsn kc b bbmax k q0 y ids a → cs_qp_num (ctrl_seg q0) = rsn →
  Z.of_nat depth ≤ max_post (sq q0) → 0 < max_post (sq q0) → Z.of_nat room ≤ 2 ^ kc →
  Forall (act_ok host q0 bbmax) acts → asq_run depth room a (map (abs_act b) acts) = Some (a', tr) →
  sq_run depth (a_out a) tr = Some (a_out a') ∧
  ∃ wcs y' ids', sys_run host rc_dc qi kc acts y w = Ok (wcs, y', w) ∧
    sys_inv qi rsn kc b bbmax k q0 y' ids' a' ∧ Forall (λ wc, status wc = IBV_WC_SUCCESS) wcs ∧
    length wcs = polls tr ∧
    map wr_id wcs ++ sig_ids ids' (a_out a') = sig_ids ids (a_out a) ++ concat (map (act_ids b) acts) ∧
    ∀ g now wc fs', release (a_out a') = Some fs' →
      ∃ wc' y2, sys_run host rc_dc qi kc (hw_work a' ++ [ActPoll g now wc]) y' w = Ok ([wc'], y2, w) ∧
        status wc' = IBV_WC_SUCCESS.
Proof.
  intros Hy Hqn Hd Hmp Hrm Hacts Hrun. split; [by eapply asq_sound|].
  destruct (sys_run_refines host rc_dc qi rsn kc b bbmax k q0 depth room acts y ids a a' tr w Hy Hqn Hd Hrm Hacts Hrun)
    as (wcs & y' & ids' & E & Hy' & Hs & Hl & Hids). exists wcs, y', ids'. do 5 (split; [done|]).
  intros g now wc fs' Hr.
  destruct (sys_live host rc_dc qi rsn kc b bbmax k q0 y' ids' a' fs' g now wc w Hy' Hqn Hmp Hr)
    as (wc' & y2 & _ & _ & E2 & _ & _ & Hst & _). by exists wc', y2.
Qed.

(** The queue pair as number 7 of a context, with a completion queue of four
    entries. *)
Definition ex_rsc : mlx5_resource := Rsc MLX5_RSC_TYPE_QP 7 0.
Definition ex_table : rsc_table mlx5_resource :=
  match mlx5_store_rsc true ∅ 7 ex_rsc with Ok (_, t) => t | Fault _ => ∅ end.
Definition ex_ctx : mlx5_context :=
  Ctx ex_table ∅ ∅ {[0 := ex_qp]} ∅ ∅ ∅ ∅ (λ _, false) [(0, 0)] ex_host false.
Definition ex_cq : mlx5_cq :=
  Cq (repeat (new_cqe 64) 4) 3 0 64 2 [0; 0] 0 3 [] 0 0 0 (Stall false false 0 false 0).
Definition ex_stall : stall_cfg := StallCfg 60 100000 100 10.
Definition ex_wc : ibv_wc := Wc 0 0 IBV_WC_SEND 0 0 0 0 0 [] 0 0 0 0 0 None None None [].

Lemma ex_ctx_ok : ctx_ok ex_ctx {[7 := ex_rsc]}.
Proof.
  split.
  - destruct (store_rsc_spec true ∅ ∅ 7 ex_rsc table_empty ltac:(done) eq_refl) as [(t & E & Ht)|[E _]]; [|done].
    change (table_ok ex_table {[7 := ex_rsc]}). unfold ex_table. by rewrite E.
  - intros n r. rewrite lookup_singleton_Some. by intros [<- <-].
Qed.

Lemma ex_cq_ok : cq_ok ex_cq 2 ∧ cq_inv ex_cq 2 [].
Proof.
  split; [split; try done; split; done|]. split; [done|done|]. intros i e _ Hi He Hf.
  unfold at_cqe in He. change (c_slots ex_cq) with (repeat (new_cqe 64) 4) in He.
  apply list_elem_of_lookup_2, list_elem_of_In, repeat_spec in He. subst e.
  unfold fresh in Hf. by rewrite (new_cqe_stale 2) in Hf by (lia || by left).
Qed.

Definition ex_sys : sys := Sys ex_ctx ex_cq 0 [] 0.
Lemma ex_sys_inv : sys_inv 0 7 2 0 1 2 ex_qp ex_sys [] asq0.
Proof.
  pose proof ex_cq_ok as [Hc Hi].
  split; [|split; done|split; [exact Hc|done]|done|exists {[7 := ex_rsc]}; split; [exact ex_ctx_ok|done]|split; done].
  exists ex_qp, 0, [], [], []. split; [done|]. split; [exact ex_sq_state|]. do 9 (split; [done|]).
  exists 0. split; [done|]. split; [exact Hi|done].
Qed.

(** Two rounds of requests of which the last is signaled.  The device is slow:
    it executes both rounds, and so two completions wait in the ring, before
    the program polls with success. *)
Definition ex_round (i : Z) : sys_act := ActPost [ex_wr i false; ex_wr (i + 1) true].
Definition ex_poll : sys_act := ActPoll ex_stall 0 ex_wc.
Definition ex_sched : list sys_act :=
  [ex_round 10; ex_poll; HwFetch; HwFetch; HwExec; ex_round 20; HwFetch; ex_poll; HwExec; HwExec; HwFetch; HwExec; ex_poll; ex_poll].

Lemma ex_round_ok i : act_ok ex_host ex_qp 1 (ex_round i).
Proof.
  split; [done|]. do 2 (apply List.Forall_cons; [exact (ex_wr_fits _ _)|]). apply List.Forall_nil.
Qed.

Lemma mlx5_qp_refines_sq_witness :
  sq_run 4 [] [SqPost [false; true]; SqPost [false; true]; SqPoll; SqPoll] = Some [] ∧
  ∃ wcs y', sys_run ex_host no_rc_dc 0 2 ex_sched ex_sys tt = Ok (wcs, y', tt) ∧ map wr_id wcs = [11; 21].
Proof.
  destruct (mlx5_qp_refines_sq ex_host no_rc_dc 0 7 2 0 1 2 ex_qp 4 4 ex_sched ex_sys [] asq0 (Asq [] 0 0)
              [SqPost [false; true]; SqPost [false; true]; SqPoll; SqPoll] tt ex_sys_inv eq_refl)
    as (Hsq & wcs & y' & ids' & E & _ & _ & _ & Hids & _);
    [vm_compute; discriminate|vm_compute; reflexivity|vm_compute; discriminate| |reflexivity|].
  - repeat (apply List.Forall_cons; [first [exact (ex_round_ok _)|exact I]|]). apply List.Forall_nil.
  - split; [exact Hsq|]. exists wcs, y'. split; [exact E|]. rewrite <-(app_nil_r (map wr_id wcs)).
    cbn [a_out] in Hids. replace (sig_ids ids' []) with (@nil Z) in Hids by (by destruct ids'). rewrite Hids. reflexivity.
Defined.

(** Without room in the completion ring the guarantee is lost: a ring of one
    entry, two signaled requests.  The device writes both entries into the same
    place, and the driver takes neither of them for new. *)
Definition ex_cq1 : mlx5_cq :=
  Cq (repeat (new_cqe 64) 1) 0 0 64 0 [0; 0] 0 3 [] 0 0 0 (Stall false false 0 false 0).
Definition ex_overrun : list sys_act :=
  [ActPost [ex_wr 1 true; ex_wr 2 true]; HwFetch; HwFetch; HwExec; HwExec; ex_poll; ex_poll].

Theorem mlx5_cq_overrun_loses :
  match sys_run ex_host no_rc_dc 0 0 ex_overrun (Sys ex_ctx ex_cq1 0 [] 0) tt with
  | Ok (wcs, y, _) => wcs = [] ∧ y_prod y = 2
  | Fault _ => False
  end.
Proof. vm_compute. split; reflexivity. Qed.

(** ** The receive queue *)

(** C22: [ibv_post_recv] on a queue that holds the requests [out] accepts the
    first requests of the list up to the capacity, and returns [ENOMEM] and
    the first refused one otherwise.  Each entry of the ring then describes
    the scatter list of its request without its empty elements, [wrid] has
    its identifier, and the doorbell record is written, after a barrier, once
    and only if a request was accepted. *)
Theorem mlx5_post_recv_fifo {K : Type} `{ImplicitLkey K} qpn k q out wrs (w : K) :
  rq_ok q k → rq_inv (rq q) out → head (rq q) = u32 (tail (rq q) + Z.of_nat (length out)) →
  Forall (recv_fits q) wrs →
  let n := Nat.min (length wrs) (Z.to_nat (max_post (rq q) - Z.of_nat (length out))) in
  ∃ q' evs, mlx5_post_recv qpn false q wrs w =
    Ok ((if bool_decide (n < length wrs)%nat then ENOMEM else 0, drop n wrs, q', evs), w) ∧
    rq_ok q' k ∧ rq_inv (rq q') (out ++ take n wrs) ∧
    head (rq q') = u32 (tail (rq q') + Z.of_nat (length (out ++ take n wrs))) ∧
    tail (rq q') = tail (rq q) ∧
    (n ≠ 0%nat → db q' !! Z.to_nat MLX5_RCV_DBR = Some (htonl (head (rq q') .& 0xffff)) ∧
       evs = [EvWmb; EvDbRec MLX5_RCV_DBR (head (rq q') .& 0xffff)]) ∧
    (n = 0%nat → db q' = db q ∧ evs = []).
Proof. intros. by apply post_recv_spec. Qed.

Lemma ex_rq_ok : rq_ok ex_qp 2.
Proof. split; by repeat split. Qed.
Lemma ex_rq_inv : rq_inv (rq ex_qp) [].
Proof. split; [done|split; done|done]. Qed.

Definition ex_recv (id : Z) : ibv_recv_wr := RecvWr id [Sge (4096 * id) 16 9].
Lemma ex_recv_fits id : 0 ≤ id < 2 ^ 16 → recv_fits ex_qp (ex_recv id).
Proof.
  intros Hid. split; [|done]. constructor; [|constructor]. unfold recv_sge, plain_sge. cbn.
  repeat split; try done; lia.
Qed.

Lemma mlx5_post_recv_fifo_witness :
  ∃ q' evs, mlx5_post_recv 7 false ex_qp (map ex_recv [1; 2; 3; 4; 5]) tt = Ok ((ENOMEM, [ex_recv 5], q', evs), tt) ∧
    rq_inv (rq q') (map ex_recv [1; 2; 3; 4]).
Proof.
  destruct (mlx5_post_recv_fifo 7 2 ex_qp [] (map ex_recv [1; 2; 3; 4; 5]) tt ex_rq_ok ex_rq_inv eq_refl)
    as (q' & evs & E & _ & Hi & _).
  { apply list.Forall_fmap, list.Forall_forall. intros i Hi. apply ex_recv_fits. set_unfold in Hi. lia. }
  exists q', evs. split; [exact E|exact Hi].
Defined.

(** The data of a receive completion that carries its payload inline
    (scatter to CQE) is copied to the buffers of the oldest receive request in
    order, each filled before the next one is used; no access leaves the
    ring. *)
Theorem mlx5_recv_inline_scatter q k wr out data host :
  rq_ok q k → rq_inv (rq q) (wr :: out) → Forall plain_sge (rwr_sges wr) →
  Z.of_nat (length data) ≤ foldr (λ sg n, sge_length sg + n) 0 (rwr_sges wr) →
  mlx5_copy_to_recv_wqe q (tail (rq q) mod wqe_cnt (rq q)) data (Z.of_nat (length data)) host =
  Ok (IBV_WC_SUCCESS, scatter (map hca_ptr (live_sges (rwr_sges wr))) data host).
Proof. intros. by apply copy_to_recv_wqe_spec with k out. Qed.

Definition ex_qp_recv : mlx5_qp :=
  match mlx5_post_recv 7 false ex_qp [ex_recv 1] tt with Ok (_, _, q, _, _) => q | Fault _ => ex_qp end.
Lemma ex_qp_recv_ok : rq_ok ex_qp_recv 2 ∧ rq_inv (rq ex_qp_recv) [ex_recv 1].
Proof.
  destruct (post_recv_spec 7 2 ex_qp [] [ex_recv 1] tt ex_rq_ok ex_rq_inv eq_refl) as (q' & evs & E & Hok & Hi & _).
  { constructor; [by apply ex_recv_fits|constructor]. }
  unfold ex_qp_recv. rewrite E. split; [exact Hok|exact Hi].
Qed.

Lemma mlx5_recv_inline_scatter_witness :
  ∃ h, mlx5_copy_to_recv_wqe ex_qp_recv 0 [65; 66; 67] 3 (λ _, 0) = Ok (IBV_WC_SUCCESS, h) ∧
    map h [4095; 4096; 4097; 4098; 4099] = [0; 65; 66; 67; 0].
Proof.
  eexists. split.
  - apply (mlx5_recv_inline_scatter ex_qp_recv 2 (ex_recv 1) [] [65; 66; 67] (λ _, 0));
      [exact (proj1 ex_qp_recv_ok)|exact (proj2 ex_qp_recv_ok)| |vm_compute; discriminate].
    constructor; [|constructor]. unfold plain_sge. cbn. repeat split; done.
  - reflexivity.
Defined.

(** C23: Polling a plain receive completion (of a SEND, without immediate and
    without inline data, CQE version 0) returns the identifier and the length
    of the oldest receive request of the queue pair that the entry names, with
    status success, removes exactly this request, and moves to the next
    entry. *)
Theorem mlx5_poll_recv_fifo has ts w p m k slot es rsn qi q kq wr out :
  cq_ok (p_cq p) k → cq_inv (p_cq p) k (slot :: es) → plain_cqe (p_cq p) slot MLX5_CQE_RESP_SEND rsn →
  ctx_ok (p_ctx p) m → cache_ok m (cur_rsc p) → m !! rsn = Some (Rsc MLX5_RSC_TYPE_QP rsn qi) →
  x_qps (p_ctx p) !! qi = Some q → rq_ok q kq → rq_inv (rq q) (wr :: out) →
  0 ≤ mlx5_hrd_qp_index q < Z.of_nat (length (x_stats (p_ctx p))) →
  ∃ w' p' q', mlx5_poll_one has ts false w p = Ok (CQ_OK, w', p') ∧
    wr_id w' = rwr_id wr ∧ status w' = IBV_WC_SUCCESS ∧ opcode w' = IBV_WC_RECV ∧
    byte_len w' = cqe_byte_cnt (cqe64_of (cqe_sz (p_cq p)) slot) ∧
    cq_ok (p_cq p') k ∧ cq_inv (p_cq p') k es ∧
    x_qps (p_ctx p') = <[qi := q']> (x_qps (p_ctx p)) ∧ rq_ok q' kq ∧ rq_inv (rq q') out.
Proof.
  intros Hc Hi Hp Hx Hca Hm Hq Hrq Hri Hst.
  destruct (poll_one_recv has ts w p m k slot es rsn qi q kq wr out)
    as (w' & p' & st & E & H1 & H2 & H3 & H4 & H5 & H6 & _); try done.
  exists w', p', (rq_popped q). rewrite H5, H6. repeat (split; [done|]).
  split; [apply cq_ok_cons; [done|apply u32_range]|]. split; [by apply (cq_inv_consume k _ slot)|].
  split; [done|]. split; [by destruct Hrq; split|]. by apply (rq_inv_tail _ kq wr).
Qed.

(** The device writes the next entry into an empty ring. *)
Lemma hw_write_next kc c e :
  cq_ok c kc → cq_inv c kc [] → ∀ prod, cons_index c = u32 prod → fresh c kc prod e →
  cq_ok (hw_slot kc c prod e) kc ∧ cq_inv (hw_slot kc c prod e) kc [e].
Proof.
  intros Hok Hinv prod Ep Hf. pose proof (ck_k _ _ Hok) as Hk.
  assert (Es : hw_slot kc c prod e = hw_slot kc c (cons_index c + Z.of_nat 0) e).
  { unfold hw_slot. rewrite Z.add_0_r, Ep, mod_u32_pow2 by lia. done. }
  rewrite Es. apply (hw_write_spec kc c [] e); [done|done|cbn; lia|].
  cbn [length]. rewrite Z.add_0_r. unfold fresh in *. rewrite Ep, sw_owned_u32 by lia. done.
Qed.

Definition ex_recv_cqe : list Z := repeat 0 44 ++ be_bytes 4 16 ++ repeat 0 8 ++ be_bytes 4 7 ++ [0; 0; 0; 0x20].
Definition ex_recv_poll : poll_st :=
  PollSt (hw_slot 2 ex_cq 0 ex_recv_cqe) (ctx_set_qp ex_ctx 0 ex_qp_recv) None None.

Lemma mlx5_poll_recv_fifo_witness :
  ∃ w' p', mlx5_poll_one (λ _, false) false false ex_wc ex_recv_poll = Ok (CQ_OK, w', p') ∧
    wr_id w' = 1 ∧ byte_len w' = 16.
Proof.
  pose proof ex_cq_ok as [Hc Hi]. pose proof ex_qp_recv_ok as [Hr Hri].
  destruct (hw_write_next 2 ex_cq ex_recv_cqe Hc Hi 0 eq_refl eq_refl) as [Hc' Hi'].
  destruct (mlx5_poll_recv_fifo (λ _, false) false ex_wc ex_recv_poll {[7 := ex_rsc]} 2 ex_recv_cqe [] 7 0
              ex_qp_recv 2 (ex_recv 1) [] Hc' Hi') as (w' & p' & q' & E & Hid & _ & _ & Hl & _).
  - split; reflexivity.
  - destruct ex_ctx_ok. by split.
  - intros r Hn. discriminate Hn.
  - reflexivity.
  - apply lookup_insert_eq.
  - exact Hr.
  - exact Hri.
  - split; [vm_compute; discriminate|vm_compute; reflexivity].
  - exists w', p'. split; [exact E|]. split; [exact Hid|]. rewrite Hl. reflexivity.
Defined.

(** ** Sizes *)

(** C12: For a queue pair of a program (RC, UC or UD, at least one gather
    entry) the driver either refuses the capabilities or sizes the send queue
    such that it is a power of two of 64-byte blocks, that [max_post] is at
    least the number of requests asked for, and that this many requests of
    the greatest size fit at once: every request within the limits on gather
    entries and inline data that the driver returns takes at most [bb]
    blocks, and [max_post * bb] blocks fit the queue. *)
Theorem mlx5_sq_size_enough host ctx a g :
  limits_ok ctx → attr_ok a → umr_en g = false → 0 < max_send_wr a →
  ∃ ret a' g', mlx5_calc_sq_size ctx a g = Ok (ret, a', g') ∧
    (ret < 0 ∨ ∃ bb k, ret = 64 * wqe_cnt (g_sq g') ∧ wqe_cnt (g_sq g') = 2 ^ k ∧
       max_send_wr a ≤ max_post (g_sq g') ∧ max_post (g_sq g') * bb ≤ wqe_cnt (g_sq g') ∧
       max_send_sge a ≤ max_gs (g_sq g') ∧ cap_max_inline_data a ≤ g_max_inline_data g' ∧
       ∀ fl wr, wr_ok (at_type a) wr → num_sge wr ≤ max_gs (g_sq g') →
         (IBV_SEND_INLINE fl = true → Z.of_nat (length (payload host (sg_list wr))) ≤ g_max_inline_data g') →
         blocks_of (wqe_units host (at_type a) fl wr) ≤ bb).
Proof.
  intros Hl Ha Hu Hwr. destruct (calc_sq_size_spec ctx a g Hl Ha Hu Hwr) as (ret & a' & g' & E & Hr).
  exists ret, a', g'. split; [exact E|]. destruct Hr as [?|(bb & k & -> & Hz & _ & _)]; [by left|right].
  pose proof Hz as [? Hcnt ? ? [Hp1 Hp2] [Hg1 Hg2] [Hi1 Hi2]].
  exists bb, k. rewrite Hcnt in *. repeat (split; [done|]). intros fl wr Hw Hn Hin.
  pose proof (sq_sized_units host a _ _ bb k fl wr Hz Ha Hw Hn Hin).
  unfold blocks_of. enough (wqe_units host (at_type a) fl wr + 3 < 4 * (bb + 1)) by
    (pose proof (Z.div_lt_upper_bound (wqe_units host (at_type a) fl wr + 3) 4 (bb + 1)); lia). lia.
Qed.

(** Limits of a ConnectX adapter, and what HERD asks for. *)
Definition ex_limits : mlx5_limits := Limits 512 512 32768 32768 256.
Definition ex_attr : qp_init_attr := InitAttr IBV_QPT_UC 128 128 1 1 60 false None None.
Definition ex_cfg : qp_cfg := QpCfg (Wq [] 0 0 0 0 0 0 ∅) (Wq [] 0 0 0 0 0 0 ∅) 0 false false false 0 0 0 0.

Lemma ex_limits_ok : limits_ok ex_limits.
Proof. by split. Qed.
Lemma ex_attr_ok : attr_ok ex_attr.
Proof. split; try done. cbn. set_solver. Qed.

Lemma mlx5_sq_size_enough_witness :
  ∃ a' g' bb, mlx5_calc_sq_size ex_limits ex_attr ex_cfg = Ok (16384, a', g') ∧
    max_post (g_sq g') * bb ≤ wqe_cnt (g_sq g') ∧ 128 ≤ max_post (g_sq g') ∧ 60 ≤ g_max_inline_data g'.
Proof.
  destruct (mlx5_sq_size_enough ex_host ex_limits ex_attr ex_cfg ex_limits_ok ex_attr_ok eq_refl ltac:(done))
    as (ret & a' & g' & E & Hr).
  assert (E' : ret = 16384).
  { assert (H : (let! (r, _, _) := mlx5_calc_sq_size ex_limits ex_attr ex_cfg in Ok r) = Ok 16384) by (vm_compute; reflexivity).
    rewrite E in H. injection H. auto. }
  destruct Hr as [?|(bb & k & _ & _ & H1 & H2 & _ & H3 & _)]; [lia|]. rewrite E' in E. exists a', g', bb.
  split; [exact E|]. split; [exact H2|]. split; [exact H1|exact H3].
Defined.

(** C34: The shape of a receive queue of an RC, UC or UD queue pair without
    SRQ, for [max_recv_sge < 2 ^ 26] (from [2 ^ 28] on the size of an entry
    overflows, see the example below): the driver refuses the capabilities, or
    the queue has a power of two of at most 2^16 entries, no fewer than asked
    for, each of a power of two of bytes between 16 and 2^15, which [max_gs]
    scatter entries, no fewer than asked for, fill exactly, together with the
    signature where there is one; the size in bytes fits an [int]; and without
    signatures what [mlx5_post_recv] needs ([rq_ok]) holds of a queue pair with
    these sizes. *)
Theorem mlx5_rq_size_shape ctx a g :
  limits_ok ctx → attr_ok a → at_srq a = false → 0 < max_recv_wr a →
  ∃ ret g', mlx5_calc_rq_size ctx a g = Ok (ret, g') ∧
    (ret < 0 ∨ ∃ k, ret = wqe_cnt (g_rq g') * 2 ^ wqe_shift (g_rq g') ∧ ret < 2 ^ 31 ∧
       wqe_cnt (g_rq g') = 2 ^ k ∧ 0 ≤ k ≤ 16 ∧ 4 ≤ wqe_shift (g_rq g') ≤ 15 ∧
       max_recv_wr a ≤ wqe_cnt (g_rq g') ∧ max_recv_sge a ≤ max_gs (g_rq g') ∧
       16 * max_gs (g_rq g') + (if g_wq_sig g then 16 else 0) = 2 ^ wqe_shift (g_rq g') ∧
       (g_wq_sig g = false →
        ∀ q, rq q = wq_set_wrid (g_rq g') (repeat 0 (Z.to_nat (wqe_cnt (g_rq g')))) → qp_type q = at_type a →
         wq_sig (ctrl_seg q) = false → IBV_EXP_QP_CREATE_IGNORE_RQ_OVERFLOW (cflags q) = false →
         length (db q) = 2%nat → rq_ok q k)).
Proof.
  intros Hl Ha Hs Hwr. destruct (calc_rq_size_spec ctx a g Hl Ha Hs Hwr) as (ret & g' & E & Hr).
  exists ret, g'. split; [exact E|]. destruct Hr as [?|(k & H1 & H2 & [? Hc ? ? ? [Hg1 Hg2]] & _)]; [by left|right].
  exists k. do 4 (split; [done || lia|]). split; [lia|]. split; [lia|]. split; [lia|]. split; [lia|]. intros Hsig.
  rewrite Hsig in Hg2. intros q Eq Ht Hws Hov Hdb. assert (0 ≤ 2 ^ k) by lia.
  split; rewrite ?Eq; cbn; try done; [lia| |].
  - rewrite repeat_length. lia.
  - rewrite Ht. pose proof (ao_type _ Ha) as Hty. set_unfold in Hty. by destruct Hty as [-> | [-> | [-> | []]]].
Qed.

Lemma mlx5_rq_size_shape_witness :
  ∃ g', mlx5_calc_rq_size ex_limits ex_attr ex_cfg = Ok (2048, g') ∧ 128 ≤ wqe_cnt (g_rq g') ∧ 1 ≤ max_gs (g_rq g') ∧
    16 * max_gs (g_rq g') = 2 ^ wqe_shift (g_rq g').
Proof.
  destruct (mlx5_rq_size_shape ex_limits ex_attr ex_cfg ex_limits_ok ex_attr_ok eq_refl ltac:(done))
    as (ret & g' & E & Hr).
  assert (E' : ret = 2048).
  { assert (H : (let! (r, _) := mlx5_calc_rq_size ex_limits ex_attr ex_cfg in Ok r) = Ok 2048) by (vm_compute; reflexivity).
    rewrite E in H. injection H. auto. }
  destruct Hr as [?|(k & _ & _ & _ & _ & _ & H1 & H2 & H3 & _)]; [lia|]. rewrite E' in E. exists g'.
  split; [exact E|]. split; [exact H1|]. split; [exact H2|]. rewrite <-H3. cbn. lia.
Defined.

(** With 2^28 scatter entries the size wraps to 0 and is rounded up to 1: the
    driver accepts, with entries of one byte and no room for a scatter entry. *)
Theorem mlx5_rq_size_wraps :
  match mlx5_calc_rq_size ex_limits (InitAttr IBV_QPT_UC 128 128 1 (2 ^ 28) 60 false None None) ex_cfg with
  | Ok (ret, g) => ret = 128 ∧ wqe_cnt (g_rq g) = 128 ∧ wqe_shift (g_rq g) = 0 ∧ max_gs (g_rq g) = 0
  | Fault _ => False
  end.
Proof. vm_compute. repeat split. Qed.

(** C35: For [0 < n <= 2 ^ 30] the driver's three ways to take a logarithm
    agree with the binary logarithm, rounded up: the loop of [mlx5_ilog2], the
    branch-free search with five masks of [mlx5_get_block_order], and the
    doubling of [mlx5_round_up_power_of_two], which returns the least power of
    two that is not smaller. *)
Theorem mlx5_logarithms_agree n :
  0 < n ≤ 2 ^ 30 →
  mlx5_ilog2 n = Ok (Z.log2_up n) ∧ mlx5_get_block_order n = Ok (Z.log2_up n) ∧
  mlx5_round_up_power_of_two n = Ok (2 ^ Z.log2_up n) ∧
  (∀ j, 0 ≤ j → n ≤ 2 ^ j → 2 ^ Z.log2_up n ≤ 2 ^ j).
Proof.
  intros Hn. split; [by apply mlx5_ilog2_spec|]. split; [apply block_order_spec; lia|].
  split; [by apply round_up_spec|]. intros j Hj Hle. apply Z.pow_le_mono_r; [lia|]. by apply log2_up_least; [lia..|].
Qed.

Lemma mlx5_logarithms_agree_witness :
  mlx5_ilog2 1000 = Ok 10 ∧ mlx5_get_block_order 1000 = Ok 10 ∧ mlx5_round_up_power_of_two 1000 = Ok 1024.
Proof.
  destruct (mlx5_logarithms_agree 1000) as (H1 & H2 & H3 & _); [split; [done|discriminate]|].
  split; [exact H1|]. split; [exact H2|exact H3].
Defined.

(** ** Tables *)

(** C28: The table of two levels from 24-bit numbers to queues is a finite map
    whatever is allocated and freed: lookup is lookup in the map, storing an
    unused number inserts it or, if the second level cannot be allocated,
    fails without an effect, and clearing a used number deletes it. *)
Theorem mlx5_rsc_table_map {T : Type} c (t : rsc_table T) m rsn v :
  table_ok t m → 0 ≤ rsn < 2 ^ 24 →
  mlx5_find_rsc t rsn = Ok (m !! rsn) ∧
  (m !! rsn = None → ∃ t', (mlx5_store_rsc c t rsn v = Ok (0, t') ∧ table_ok t' (<[rsn := v]> m)) ∨
     (c = false ∧ mlx5_store_rsc c t rsn v = Ok (-1, t') ∧ table_ok t' m)) ∧
  (is_Some (m !! rsn) → ∃ t', mlx5_clear_rsc t rsn = Ok t' ∧ table_ok t' (delete rsn m)).
Proof.
  intros Ht Hr. split; [by apply find_rsc_spec|]. split; [|by apply clear_rsc_spec].
  intros Hn. destruct (store_rsc_spec c t m rsn v Ht Hr Hn) as [(t' & ?)|(? & t' & ?)]; exists t'; [by left|by right].
Qed.

Lemma mlx5_rsc_table_map_witness :
  mlx5_find_rsc ex_table 7 = Ok (Some ex_rsc) ∧ mlx5_find_rsc ex_table 8 = Ok None ∧
  ∃ t', mlx5_clear_rsc ex_table 7 = Ok t' ∧ table_ok t' ∅.
Proof.
  pose proof (cx_table _ _ ex_ctx_ok) as Ht.
  destruct (mlx5_rsc_table_map true ex_table {[7 := ex_rsc]} 7 ex_rsc Ht) as (H1 & _ & H3); [split; done|].
  destruct (mlx5_rsc_table_map true ex_table {[7 := ex_rsc]} 8 ex_rsc Ht) as (H2 & _ & _); [split; done|].
  split; [rewrite H1; apply f_equal, lookup_singleton_eq|]. split; [rewrite H2; by apply f_equal, lookup_singleton_ne|].
  destruct H3 as (t' & E & Ht'); [by eexists; apply lookup_singleton_eq|]. exists t'. split; [exact E|].
  by rewrite delete_singleton_eq in Ht'.
Defined.

(** [mlx5_store_uidx] enters the resource under an index that was not in
    use and returns the index; otherwise it returns 2^32 - 1, with the table
    as before, and then the second level could not be allocated or each of
    the 4096 leaves has no more than one free place. *)
Theorem mlx5_uidx_fresh {T : Type} c (t : rsc_table T) m v :
  table_ok t m →
  (∃ r t', mlx5_store_uidx c t v = Ok (r, t') ∧ 0 ≤ r < 2 ^ 24 ∧ m !! r = None ∧ table_ok t' (<[r := v]> m) ∧
     mlx5_find_uidx t' r = Ok (Some v)) ∨
  (∃ t', mlx5_store_uidx c t v = Ok (2 ^ 32 - 1, t') ∧ table_ok t' m ∧
     (c = false ∨ ∀ i, 0 ≤ i < 4096 → 4095 ≤ refcnt (leaf_at t i))).
Proof.
  intros Ht. destruct (store_uidx_spec c t m v Ht) as [(r & t' & E & Hr & Hn & Ht')|?]; [left|by right].
  exists r, t'. split; [done|]. split; [done|]. split; [done|]. split; [done|]. unfold mlx5_find_uidx.
  rewrite (find_rsc_spec t' _ r Ht' Hr). apply f_equal, lookup_insert_eq.
Qed.

Lemma mlx5_uidx_fresh_witness :
  ∃ r t', mlx5_store_uidx true ex_table ex_rsc = Ok (r, t') ∧ r ≠ 7 ∧ mlx5_find_uidx t' r = Ok (Some ex_rsc).
Proof.
  destruct (mlx5_uidx_fresh true ex_table {[7 := ex_rsc]} ex_rsc (cx_table _ _ ex_ctx_ok))
    as [(r & t' & E & _ & Hn & _ & Hf)|(t' & _ & _ & [Hc|Hfull])].
  - exists r, t'. split; [exact E|]. split; [|exact Hf]. intros ->. by rewrite lookup_singleton_eq in Hn.
  - discriminate Hc.
  - specialize (Hfull 5 ltac:(done)). vm_compute in Hfull. by destruct Hfull.
Defined.

(** ** Shared receive queues *)

(** C13: A shared receive queue keeps the requests posted and not yet taken
    ([q]), the ones taken and not yet returned ([used]) and the free entries
    ([fl]) as one linked list: posting accepts requests while more than one
    entry is free, else it returns [ENOMEM], and the device that follows the
    links from the oldest entry finds exactly the posted requests in order;
    the counter of the doorbell record grows by their number; returning an
    entry, in any order, puts it at the end of the free entries. *)
Theorem mlx5_srq_fifo k s used q fl wrs :
  srq_ok s k → srq_inv s used q fl → Forall (srq_fits s) wrs →
  let n := Nat.min (length wrs) (length fl - 1) in
  let q' := q ++ zip (take n fl) (take n wrs) in
  ∃ s' evs, mlx5_post_srq_recv s wrs =
      Ok (if bool_decide (n < length wrs)%nat then ENOMEM else 0, drop n wrs, s', evs) ∧
    srq_ok s' k ∧ srq_inv s' used q' (drop n fl) ∧
    (∀ i, hd_error (map fst q' ++ drop n fl) = Some i →
      srq_walk s' (length q') i = map (λ e, (e.1, map hca_ptr (rwr_sges e.2))) q') ∧
    (n ≠ 0%nat → s_counter s' = u16 (s_counter s + Z.of_nat n) ∧ s_db s' = htonl (s_counter s')) ∧
    (∀ u1 e u2, used = u1 ++ e :: u2 →
      ∃ s2, mlx5_free_srq_wqe s' e.1 = Ok s2 ∧ srq_ok s2 k ∧ srq_inv s2 (u1 ++ u2) q' (drop n fl ++ [e.1])).
Proof.
  intros Hok Hinv Hw n q'. destruct (post_srq_spec k s used q fl wrs Hok Hinv Hw) as (s' & evs & E & H1 & H2 & H3 & H4 & _).
  exists s', evs. repeat (split; [done|]). intros u1 e u2 ->. by apply free_srq_spec.
Qed.

(** [mlx5_alloc_srq_buf] refuses an entry size above the limit of the
    device or sets up a queue of [max] entries that are all free and linked in
    order, with at least as many scatter entries as asked for. *)
Theorem mlx5_srq_initial k lim junk s :
  1 ≤ k ≤ 16 → s_max s = 2 ^ k → 0 ≤ s_max_gs s ≤ 1000 → s_wq_sig s = false →
  s_max s ≤ Z.of_nat (length junk) →
  (mlx5_alloc_srq_buf lim true true junk s = Ok (-1, s) ∧ lim < 2 ^ Z.log2_up (Z.max 32 (16 + 16 * s_max_gs s))) ∨
  (∃ s', mlx5_alloc_srq_buf lim true true junk s = Ok (0, s') ∧ srq_ok s' k ∧
     srq_inv s' [] [] (seqZ 0 (s_max s)) ∧ s_max_gs s ≤ s_max_gs s' ∧ s_max s' = s_max s).
Proof. intros. by apply alloc_srq_spec. Qed.

Definition ex_srq0 : mlx5_srq := Srq ∅ [] 5 4 1 0 0 0 0 0 false.
Definition ex_srq : mlx5_srq :=
  match mlx5_alloc_srq_buf 64 true true [0; 0; 0; 0] ex_srq0 with Ok (_, s) => s | Fault _ => ex_srq0 end.

Lemma mlx5_srq_initial_witness :
  ∃ s', mlx5_alloc_srq_buf 64 true true [0; 0; 0; 0] ex_srq0 = Ok (0, s') ∧ srq_inv s' [] [] [0; 1; 2; 3].
Proof.
  destruct (mlx5_srq_initial 2 64 [0; 0; 0; 0] ex_srq0) as [[_ H]|(s' & E & _ & Hi & _)];
    [done|done|done|done|done|discriminate H|]. exists s'. split; [exact E|exact Hi].
Defined.

Lemma ex_srq_ok : srq_ok ex_srq 2 ∧ srq_inv ex_srq [] [] [0; 1; 2; 3].
Proof.
  destruct (alloc_srq_spec 2 64 [0; 0; 0; 0] ex_srq0) as [[_ H]|(s' & E & Hk & Hi & _)];
    [done|done|done|done|done|discriminate H|]. unfold ex_srq. rewrite E. split; [exact Hk|exact Hi].
Qed.

Lemma mlx5_srq_fifo_witness :
  ∃ s' evs, mlx5_post_srq_recv ex_srq (map ex_recv [1; 2; 3; 4]) = Ok (ENOMEM, [ex_recv 4], s', evs) ∧
    srq_walk s' 3 0 = [(0, [HPtr 16 9 4096]); (1, [HPtr 16 9 8192]); (2, [HPtr 16 9 12288])].
Proof.
  destruct (mlx5_srq_fifo 2 ex_srq [] [] [0; 1; 2; 3] (map ex_recv [1; 2; 3; 4]) (proj1 ex_srq_ok) (proj2 ex_srq_ok))
    as (s' & evs & E & _ & _ & Hw & _).
  { apply list.Forall_fmap, list.Forall_forall. intros i Hi. set_unfold in Hi.
    split; [constructor; [|constructor]|split; [constructor; [done|constructor]|vm_compute; discriminate]].
    unfold recv_sge, plain_sge. cbn. repeat split; try done; lia. }
  exists s', evs. split; [exact E|]. exact (Hw 0 eq_refl).
Defined.

(** ** Completion queues *)

(** The device appends entries, the driver takes the next one. *)
Inductive cq_act : Type :=
| CqWrite (e : list Z)
| CqNext.

Fixpoint cq_run (k : Z) (acts : list cq_act) (prod : Z) (c : mlx5_cq) : res (list (option (list Z)) * mlx5_cq) :=
  match acts with
  | [] => Ok ([], c)
  | CqWrite e :: acts => cq_run k acts (prod + 1) (hw_slot k c prod e)
  | CqNext :: acts =>
      let! e := get_next_cqe c in
      let c := match e with Some _ => cq_set_cons c (u32 (cons_index c + 1)) | None => c end in
      let! (es, c) := cq_run k acts prod c in
      Ok (e :: es, c)
  end.

(** The same on a queue that holds at most [2 ^ k] entries, with the
    ownership bit as the device sets it. *)
Fixpoint cq_spec (sz k : Z) (acts : list cq_act) (prod : Z) (es : list (list Z))
    : option (list (option (list Z)) * list (list Z)) :=
  match acts with
  | [] => Some ([], es)
  | CqWrite e :: acts =>
      if decide (Z.of_nat (length es) < 2 ^ k) then
        if sw_owned (cqe_op_own (cqe64_of sz e)) prod (2 ^ k - 1)
        then cq_spec sz k acts (prod + 1) (es ++ [e])
        else None
      else None
  | CqNext :: acts => '(out, es') ← cq_spec sz k acts prod (tl es); Some (hd_error es :: out, es')
  end.

Lemma cq_run_spec k acts : ∀ prod c es out es',
  cq_ok c k → cq_inv c k es → u32 prod = u32 (cons_index c + Z.of_nat (length es)) →
  cq_spec (cqe_sz c) k acts prod es = Some (out, es') →
  ∃ c', cq_run k acts prod c = Ok (out, c') ∧ cq_ok c' k ∧ cq_inv c' k es'.
Proof.
  induction acts as [|[e|] acts IH]; intros prod c es out es' Hok Hinv Hp Hs; cbn [cq_spec cq_run] in *.
  - injection Hs as <- <-. by exists c.
  - case_decide as Hroom; [|done]. destruct (sw_owned _ _ _) eqn:Ef; [|done]. pose proof (ck_k _ _ Hok).
    assert (Es : hw_slot k c prod e = hw_slot k c (cons_index c + Z.of_nat (length es)) e).
    { unfold hw_slot. rewrite <-(mod_u32_pow2 prod), Hp, mod_u32_pow2 by lia. done. }
    rewrite Es. destruct (hw_write_spec k c es e Hok Hinv Hroom) as [Hok' Hinv'].
    { unfold fresh. by rewrite <-sw_owned_u32, <-Hp, sw_owned_u32 by lia. }
    apply (IH _ _ (es ++ [e])); [done|done| |done].
    cbn [hw_slot cons_index cq_set_slots]. rewrite length_app. cbn [length].
    unfold u32 in *. rewrite <-Zplus_mod_idemp_l, Hp, Zplus_mod_idemp_l. f_equal. lia.
  - destruct (cq_spec (cqe_sz c) k acts prod (tl es)) as [[out1 es1]|] eqn:E; [|done]. cbn [mbind option_bind] in Hs.
    injection Hs as <- <-. rewrite (next_cqe_spec k c es Hok Hinv). cbn [res_bind].
    destruct es as [|e es]; cbn [hd_error tl] in *.
    + destruct (IH _ _ _ _ _ Hok Hinv Hp E) as (c' & -> & Hc'). cbn [res_bind]. by exists c'.
    + destruct (IH prod (cq_set_cons c (u32 (cons_index c + 1))) es out1 es1) as (c' & -> & Hc').
      * apply cq_ok_cons; [done|apply u32_range].
      * by apply (cq_inv_consume k c e).
      * cbn [cons_index cq_set_cons length] in *. rewrite Hp. unfold u32. rewrite Zplus_mod_idemp_l. f_equal. lia.
      * done.
      * cbn [res_bind]. by exists c'.
Qed.

(** C17: The ownership bit implements a bounded queue without a shared index:
    as long as the device never has more than [2 ^ k] entries outstanding and
    toggles the bit with every turn of the ring, [get_next_cqe] returns the
    entries in the order in which they were written, each once, and nothing
    when all are consumed, also where the 32-bit indices wrap around. *)
Theorem mlx5_cq_fifo k acts prod c es out es' :
  cq_ok c k → cq_inv c k es → u32 prod = u32 (cons_index c + Z.of_nat (length es)) →
  cq_spec (cqe_sz c) k acts prod es = Some (out, es') →
  ∃ c', cq_run k acts prod c = Ok (out, c') ∧ cq_ok c' k ∧ cq_inv c' k es'.
Proof. intros. by apply cq_run_spec with es. Qed.

(** Six entries through a ring of four. *)
Definition ex_cqe (n : Z) (turn : bool) : list Z := n :: repeat 0 62 ++ [Z.b2z turn].
Definition ex_cq_acts : list cq_act :=
  [CqNext; CqWrite (ex_cqe 0 false); CqWrite (ex_cqe 1 false); CqNext; CqWrite (ex_cqe 2 false);
   CqWrite (ex_cqe 3 false); CqWrite (ex_cqe 4 true); CqNext; CqNext; CqWrite (ex_cqe 5 true);
   CqNext; CqNext; CqNext; CqNext].

Lemma mlx5_cq_fifo_witness :
  ∃ out c', cq_run 2 ex_cq_acts 0 ex_cq = Ok (out, c') ∧
    map (λ e, e ≫= hd_error) out = [None; Some 0; Some 1; Some 2; Some 3; Some 4; Some 5; None].
Proof.
  destruct (mlx5_cq_fifo 2 ex_cq_acts 0 ex_cq []
    [None; Some (ex_cqe 0 false); Some (ex_cqe 1 false); Some (ex_cqe 2 false); Some (ex_cqe 3 false);
     Some (ex_cqe 4 true); Some (ex_cqe 5 true); None] [] (proj1 ex_cq_ok) (proj2 ex_cq_ok) eq_refl)
    as (c' & E & _); [vm_compute; reflexivity|]. eexists _, c'. split; [exact E|reflexivity].
Defined.

(** C16: Destroying or resetting a queue pair without SRQ cleans its
    completion queue, which holds no compressed entries.  Of the first
    [2 ^ k - 1] entries that wait in the ring of [2 ^ k] ([seen]: all of them
    unless the ring is full), exactly those of the queue pair are removed; the
    others remain, in the same order, with at most the ownership bit rewritten
    for their new place.  The newest entry of a full ring is not examined and
    stays, also if it is of the queue pair that goes away. *)
Theorem mlx5_cq_clean_filters k rsn ver mp c es :
  cq_ok c k → cq_inv c k es →
  Forall (λ e, size_ok (cqe_sz c) e ∧ mlx5_get_cqe_format e ≠ MLX5_COMPRESSED) es →
  ∃ c' L, __mlx5_cq_clean mp c rsn None ver = Ok (c', None) ∧ cq_ok c' k ∧ cq_inv c' k (L ++ drop (seen k es) es) ∧
    Forall2 (same_cqe (cqe_sz c)) (List.filter (λ e, negb (mine rsn ver (cqe_sz c) e)) (take (seen k es) es)) L ∧
    (Z.of_nat (length es) < 2 ^ k → take (seen k es) es = es ∧ drop (seen k es) es = []).
Proof.
  intros Hok Hinv Hes. destruct (cq_clean_spec k rsn ver mp c es Hok Hinv Hes) as (c' & L & E & H1 & H2 & H3).
  exists c', L. do 4 (split; [done|]). intros Hlt. unfold seen. split; [apply take_ge|apply drop_ge]; lia.
Qed.

(** Entries of queue pairs 7 and 8 after a turn of the ring. *)
Definition ex_req_cqe (qpn id : Z) (turn : bool) : list Z :=
  id :: repeat 0 55 ++ be_bytes 4 qpn ++ [0; 0; 0; Z.b2z turn].
Definition ex_two_qps : list (list Z) := [ex_req_cqe 7 1 true; ex_req_cqe 8 2 true; ex_req_cqe 7 3 true].
Definition ex_full_ring : list (list Z) := ex_two_qps ++ [ex_req_cqe 7 4 true].
Definition ex_turned (es : list (list Z)) : mlx5_cq :=
  match cq_run 2 (concat (map (λ i, [CqWrite (ex_cqe i false); CqNext]) [0; 1; 2; 3]) ++ map CqWrite es) 0 ex_cq
  with Ok (_, c) => c | Fault _ => ex_cq end.

Lemma ex_full_ring_ok : Forall (λ e, size_ok 64 e ∧ mlx5_get_cqe_format e ≠ MLX5_COMPRESSED) ex_full_ring.
Proof.
  repeat (apply List.Forall_cons; [split; [|vm_compute; discriminate]|]); try apply List.Forall_nil;
    (split; [by left|]; split; [done|]; vm_compute; by repeat split).
Qed.

Lemma ex_turned_size es : es = ex_two_qps ∨ es = ex_full_ring → cqe_sz (ex_turned es) = 64.
Proof. intros [-> | ->]; vm_compute; reflexivity. Qed.

Lemma ex_turned_ok es :
  es = ex_two_qps ∨ es = ex_full_ring → cq_ok (ex_turned es) 2 ∧ cq_inv (ex_turned es) 2 es.
Proof.
  intros Hes.
  destruct (cq_run_spec 2 (concat (map (λ i, [CqWrite (ex_cqe i false); CqNext]) [0; 1; 2; 3]) ++ map CqWrite es)
    0 ex_cq [] (map (λ i, Some (ex_cqe i false)) [0; 1; 2; 3]) es (proj1 ex_cq_ok) (proj2 ex_cq_ok) eq_refl)
    as (c' & E & Hok & Hi); [destruct Hes as [-> | ->]; vm_compute; reflexivity|].
  unfold ex_turned. rewrite E. exact (conj Hok Hi).
Qed.

(** Three entries, of which the two of queue pair 7 are removed; and four
    entries, which leave two. *)
Lemma mlx5_cq_clean_filters_witness :
  (∃ c' L, __mlx5_cq_clean (λ _, Ok false) (ex_turned ex_two_qps) 7 None 0 = Ok (c', None) ∧ cq_inv c' 2 L ∧
     length L = 1%nat) ∧
  (∃ c' L, __mlx5_cq_clean (λ _, Ok false) (ex_turned ex_full_ring) 7 None 0 = Ok (c', None) ∧
     cq_inv c' 2 (L ++ [ex_req_cqe 7 4 true]) ∧ length L = 1%nat).
Proof.
  split.
  - destruct (ex_turned_ok ex_two_qps (or_introl eq_refl)) as [Hok Hi].
    pose proof (ex_turned_size ex_two_qps (or_introl eq_refl)) as Hsz.
    pose proof (proj1 (proj1 (List.Forall_app _ ex_two_qps _) ex_full_ring_ok)) as Hes. rewrite <-Hsz in Hes.
    destruct (mlx5_cq_clean_filters 2 7 0 (λ _, Ok false) _ _ Hok Hi Hes) as (c' & L & E & _ & Hi' & HF & _).
    exists c', L. split; [exact E|]. rewrite Hsz in HF. pose proof (Forall2_length HF) as Hl.
    change (drop (seen 2 ex_two_qps) ex_two_qps) with (@nil (list Z)) in Hi'. rewrite app_nil_r in Hi'.
    split; [exact Hi'|]. rewrite <-Hl. reflexivity.
  - destruct (ex_turned_ok ex_full_ring (or_intror eq_refl)) as [Hok Hi].
    pose proof (ex_turned_size ex_full_ring (or_intror eq_refl)) as Hsz.
    pose proof ex_full_ring_ok as Hes. rewrite <-Hsz in Hes.
    destruct (mlx5_cq_clean_filters 2 7 0 (λ _, Ok false) _ _ Hok Hi Hes) as (c' & L & E & _ & Hi' & HF & _).
    exists c', L. split; [exact E|]. rewrite Hsz in HF. pose proof (Forall2_length HF) as Hl.
    split; [exact Hi'|]. rewrite <-Hl. reflexivity.
Defined.

(** The statistics that were added to the driver break receive
    completions that belong to no queue pair (those of a shared receive queue
    reached over XRC or DC): after the completion has been handled the driver
    dereferences the null pointer, so that no such receive can be polled. *)
Theorem mlx5_poll_without_qp c x t srq w slot :
  t_mqp t = None →
  (∀ r, poll_resp c x t srq w slot ≠ Ok r) ∧
  (∀ r, handle_responder c x w slot None (if t_is_srq t then srq else None) (t_type t) = Ok r →
     poll_resp c x t srq w slot = Fault NullDeref).
Proof.
  intros Ht. split.
  - intros r. unfold poll_resp. rewrite Ht. by destruct (handle_responder _ _ _ _ _ _ _) as [[[st w'] x']|].
  - intros r. by apply poll_resp_no_qp.
Qed.

(** A message for the extended shared queue 3. *)
Definition ex_xsrq_ctx : mlx5_context := ctx_set_srq ex_ctx 3 ex_srq.
Definition ex_xsrq : poll_target := Target None None MLX5_RSC_TYPE_XSRQ true [].

Lemma mlx5_poll_without_qp_witness :
  poll_resp ex_cq ex_xsrq_ctx ex_xsrq (Some 3) ex_wc ex_recv_cqe = Fault NullDeref.
Proof.
  destruct (mlx5_poll_without_qp ex_cq ex_xsrq_ctx ex_xsrq (Some 3) ex_wc ex_recv_cqe eq_refl) as [_ H].
  destruct (handle_responder ex_cq ex_xsrq_ctx ex_wc ex_recv_cqe None (Some 3) MLX5_RSC_TYPE_XSRQ) as [r|f] eqn:E.
  - exact (H r E).
  - vm_compute in E. discriminate E.
Defined.
