(* ===== verification/Mlx5CreateThms.v ===== *)
(** * libmlx5: the life of a queue pair

    From [ibv_create_qp] to [ibv_destroy_qp]: what a new queue pair promises,
    what the error paths release, and where creation stops for good. *)

From stdpp Require Import base gmap list numbers.
From Stdlib Require Import ZArith Lia Sorted.
From S2P Require Import Prelude Signal Mlx5Base Mlx5Wqe Mlx5WqeProof Mlx5Encode Mlx5Send Mlx5SqProof Mlx5SqThms Mlx5Recv Mlx5RecvProof Mlx5Size Mlx5SizeProof Mlx5Table Mlx5Srq Mlx5Cq Mlx5CqProof Mlx5CqClean Mlx5Poll Mlx5PollProof Mlx5System Mlx5Create Mlx5CreateProof Mlx5CqCreate Mlx5CqCreateProof Mlx5Thms.





(** ** A small queue pair, from its creation

    Two send and two receive requests on an unreliable connection, with
    completion queue 5 for both. *)
Definition ex_cattr : create_attr :=
  CreateAttr (InitAttr IBV_QPT_UC 2 2 1 1 8 false None None) false false false false zero_flags false
    (Some 5) (Some 5) None false None.
Definition ex_cctx : create_ctx :=
  CreateCtx ex_limits false IBV_EXP_ATOMIC_NONE 0 4 0 0 [Bf 0 256 MLX5_DB_METHOD_BF] false.
Definition ex_env_of (sw : option (list Z)) (cmd : Z) : create_env :=
  CreateEnv (Some (DevCaps IBV_EXP_ATOMIC_HCA 4 None None None)) true false sw (Some (repeat 0 8)) (Some (repeat 0 8))
    true true true true true cmd 7 0 false true 4 1 2.
Definition ex_env : create_env := ex_env_of (Some (repeat 0 8)) 0.
Definition ex_cst (index : Z) : create_st := CreateSt [] index ∅ ∅.
Definition no_mp (_ : list Z) : res bool := Ok false.

Lemma ex_create_pre sw cmd s :
  HHrdLock ∉ s_held s → HRscLock ∉ s_held s → table_ok (s_rsc s) ∅ → 0 ≤ mlx5_hrd_global_qp_index s < MLX5_HRD_MAX_QPS →
  create_pre (ex_env_of sw cmd) ex_cctx ex_cattr s ∅.
Proof.
  intros H1 H2 Ht Hi. split; try done. split; try done. cbn. set_solver.
Qed.
Lemma ex_empty_pre sw cmd : create_pre (ex_env_of sw cmd) ex_cctx ex_cattr (ex_cst 0) ∅.
Proof. apply ex_create_pre; [apply not_elem_of_nil|apply not_elem_of_nil|exact table_empty|by split]. Qed.

(** A completion queue for three entries. *)
Definition ex_cq_env : cq_env := CqEnv true true true 64 None true true 0 (λ _ n, (0, 3, n)) (false, false, 60).

#[local] Instance no_lkey : ImplicitLkey unit := λ _ _ _, eff_ret (0, 0).







(** C10: While fewer than 128 queue pairs have been created (RC, UC or UD,
    without creation flags, resource domain or SRQ, CQE version 0),
    [ibv_create_qp] returns, and when it returns NULL it has released all that
    it allocated: whichever allocation or kernel call fails, no object and no
    lock stays held and the table of queue pairs has its old entries.  When it
    succeeds, [ibv_destroy_qp] releases each object once and removes the entry.
    After 128 creations the call returns NULL with [mlx5_hrd_global_lock] and
    the memory of the queue pair still held, and the next theorem shows what
    follows. *)
Theorem mlx5_create_destroy_balanced mp e c a is_exp qi s m i j ci cj cqs srqs :
  create_pre e c a s m → ca_recv_cq a = Some i → ca_send_cq a = Some j → ca_srq a = None →
  cqs !! i = Some ci → cq_sound ci → cqs !! j = Some cj → cq_sound cj →
  (∃ o a' s', create_qp e c a is_exp qi s = Ok (o, a', s') ∧
    mlx5_hrd_global_qp_index s' = mlx5_hrd_global_qp_index s + (if ev_qp e then 1 else 0) ∧
    match o with
    | None => s_held s' = s_held s ∧ table_ok (s_rsc s') m
    | Some q => s_held s' = qp_held q ++ s_held s ∧
        ∃ cqs' s2, mlx5_destroy_qp mp 0 (cc_cqe_version c) q cqs srqs s' = Ok (0, cqs', srqs, s2) ∧
          s_held s2 = s_held s ∧ table_ok (s_rsc s2) m ∧ mlx5_hrd_global_qp_index s2 = mlx5_hrd_global_qp_index s'
    end) ∧
  (ev_qp e = true → let s := set_index s MLX5_HRD_MAX_QPS in
   create_qp e c a is_exp qi s = Ok (None, a, set_held s (HHrdLock :: HQp :: s_held s))).
Proof.
  intros Hp. intros. split; [by apply create_destroy with i j ci cj|]. intros Hq.
  apply create_exhausted; [done|exact (proj1 (cp_locks _ _ _ _ _ Hp))|done].
Qed.

Lemma ex_cq_sound : cq_sound ex_cq.
Proof. destruct ex_cq_ok. by exists 2, []. Qed.

Lemma mlx5_create_destroy_balanced_witness :
  (∃ a s, create_qp (ex_env_of None 12) ex_cctx ex_cattr false 0 (ex_cst 0) = Ok (None, a, s) ∧ s_held s = []) ∧
  (∃ q a s cqs s2, create_qp ex_env ex_cctx ex_cattr false 0 (ex_cst 0) = Ok (Some q, a, s) ∧ length (s_held s) = 7%nat ∧
     mlx5_destroy_qp no_mp 0 0 q {[5 := ex_cq]} ∅ s = Ok (0, cqs, ∅, s2) ∧ s_held s2 = []).
Proof.
  split.
  - destruct (mlx5_create_destroy_balanced no_mp (ex_env_of None 12) ex_cctx ex_cattr false 0 (ex_cst 0) ∅ 5 5 ex_cq ex_cq
                {[5 := ex_cq]} ∅ (ex_empty_pre _ _) eq_refl eq_refl eq_refl
                (lookup_singleton_eq _ _) ex_cq_sound (lookup_singleton_eq _ _) ex_cq_sound) as [(o & a & s & E & _ & Ho) _].
    destruct o as [q|]; [exfalso; vm_compute in E; discriminate|]. exists a, s. split; [exact E|]. exact (proj1 Ho).
  - destruct (mlx5_create_destroy_balanced no_mp ex_env ex_cctx ex_cattr false 0 (ex_cst 0) ∅ 5 5 ex_cq ex_cq
                {[5 := ex_cq]} ∅ (ex_empty_pre _ _) eq_refl eq_refl eq_refl
                (lookup_singleton_eq _ _) ex_cq_sound (lookup_singleton_eq _ _) ex_cq_sound) as [(o & a & s & E & _ & Ho) _].
    destruct o as [q|]; [|exfalso; vm_compute in E; discriminate]. destruct Ho as (_ & cqs & s2 & E2 & H2 & _).
    exists q, a, s, cqs, s2. split; [exact E|]. split; [|split; [exact E2|exact H2]].
    vm_compute in E. injection E as _ _ <-. reflexivity.
Defined.

(** C38: [create_qp] numbers queue pairs for its statistics and never takes a
    number back.  After 128 creations, also when each queue pair is destroyed
    before the next creation, the next call returns NULL without releasing
    [mlx5_hrd_global_lock], and the call after it never returns. *)
Theorem mlx5_create_exhausted_hangs mp env c a is_exp qi i j ci cj cqs srqs m s :
  (∀ k s1, s_held s1 = s_held s → table_ok (s_rsc s1) m → 0 ≤ mlx5_hrd_global_qp_index s1 < MLX5_HRD_MAX_QPS →
     create_pre (env k) c a s1 m ∧ ev_qp (env k) = true) →
  ca_recv_cq a = Some i → ca_send_cq a = Some j → ca_srq a = None →
  cqs !! i = Some ci → cq_sound ci → cqs !! j = Some cj → cq_sound cj →
  table_ok (s_rsc s) m → mlx5_hrd_global_qp_index s = 0 → HHrdLock ∉ s_held s →
  ∃ s1, churn mp env c a is_exp qi cqs srqs 128 s = Ok s1 ∧ s_held s1 = s_held s ∧
    ∀ e2 a2, ev_qp e2 = true →
      ∃ s2, create_qp e2 c a2 is_exp qi s1 = Ok (None, a2, s2) ∧ s_held s2 = HHrdLock :: HQp :: s_held s ∧
        ∀ e3 a3, ev_qp e3 = true → create_qp e3 c a3 is_exp qi s2 = Fault Stuck.
Proof.
  intros He Hi Hj Hs Hci Si Hcj Sj Ht H0 Hl.
  destruct (churn_ok mp env c a is_exp qi i j ci cj cqs srqs m 128 s He Hi Hj Hs Hci Si Hcj Sj Ht) as (s1 & E & Hh & _ & Hidx);
    [by rewrite H0|by rewrite H0|].
  exists s1. split; [exact E|]. split; [exact Hh|]. intros e2 a2 Hq.
  exists (set_held s1 (HHrdLock :: HQp :: s_held s1)). split; [|split].
  - apply create_exhausted; [by rewrite Hidx, H0|by rewrite Hh|done].
  - cbn. by rewrite Hh.
  - intros e3 a3 Hq3. apply create_stuck; [left|done].
Qed.

Lemma mlx5_create_exhausted_hangs_witness :
  ∃ s1 s2, churn no_mp (λ _, ex_env) ex_cctx ex_cattr false 0 {[5 := ex_cq]} ∅ 128 (ex_cst 0) = Ok s1 ∧
    create_qp ex_env ex_cctx ex_cattr false 0 s1 = Ok (None, ex_cattr, s2) ∧
    create_qp ex_env ex_cctx ex_cattr false 0 s2 = Fault Stuck.
Proof.
  destruct (mlx5_create_exhausted_hangs no_mp (λ _, ex_env) ex_cctx ex_cattr false 0 5 5 ex_cq ex_cq {[5 := ex_cq]} ∅ ∅ (ex_cst 0))
    as (s1 & E & _ & H); try reflexivity.
  - intros _ s Hh Ht Hi. split; [|reflexivity].
    by apply ex_create_pre; [rewrite Hh; apply not_elem_of_nil|rewrite Hh; apply not_elem_of_nil| |].
  - exact ex_cq_sound.
  - exact ex_cq_sound.
  - exact table_empty.
  - apply not_elem_of_nil.
  - destruct (H ex_env ex_cattr eq_refl) as (s2 & E2 & _ & H3). exists s1, s2. split; [exact E|]. split; [exact E2|].
    exact (H3 ex_env ex_cattr eq_refl).
Defined.

(** When the allocation of [sq.wrid] fails, its error code is overwritten
    by the next step: [ibv_create_qp] returns a queue pair, and the first
    request that is posted to it writes through the NULL pointer. *)
Example mlx5_create_ignores_wrid_failure :
  ∃ q a s, create_qp (ex_env_of None 0) ex_cctx ex_cattr false 0 (ex_cst 0) = Ok (Some q, a, s) ∧
    HSqWrid ∉ s_held s ∧
    __mlx5_post_send ex_host no_rc_dc 0 0 (ready q) (repeat (0, 0) 128) [ex_wr 1 true] false tt = Fault OutOfBounds.
Proof.
  eexists _, _, _. split; [vm_compute; reflexivity|]. split; [|vm_compute; reflexivity].
  vm_compute. intros Hin. repeat (apply elem_of_cons in Hin as [Hin|Hin]; [discriminate|]). by apply elem_of_nil in Hin.
Qed.

(** C37: Threads that destroy or reset queue pairs lock both completion
    queues of each in ascending order of their numbers, whichever is the send
    and which the receive queue.  So no set of threads, each stopped anywhere
    in [mlx5_lock_cqs], is deadlocked: one of them has all its locks or waits
    for one that is free. *)
Theorem mlx5_lock_cqs_no_deadlock cqs qs ts :
  cqns_distinct cqs → Forall2 (λ q t, mlx5_lock_cqs cqs q = t.1 ++ t.2) qs ts →
  Exists (λ t, t.1 ++ t.2 ≠ []) ts → ∃ t, t ∈ ts ∧ can_run ts t.
Proof.
  intros Hd HF Hx. apply list.Exists_exists in Hx as (t & Ht & Hne).
  destruct (locks_bound ts) as [B HB].
  destruct (t.2) as [|n r] eqn:E.
  - exists t. split; [done|]. left. split; [done|]. by rewrite app_nil_r in Hne.
  - apply (ordered_locks_run ts B t n r); [|done|done]. apply list.Forall_and. split; [|exact HB].
    clear -Hd HF. induction HF as [|q t qs ts E _ IH]; [constructor|]. constructor; [|exact IH].
    rewrite <-E. by apply lock_cqs_sorted.
Qed.

(** Two threads, whose queue pairs use queues 3 and 5 the other way round. *)
Definition ex_cqs : gmap Z mlx5_cq :=
  {[3 := ex_cq; 5 := Cq (repeat (new_cqe 64) 4) 3 0 64 2 [0; 0] 0 8 [] 0 0 0 (Stall false false 0 false 0)]}.
Definition ex_qp_of (send recv : Z) : ib_qp :=
  IbQp ex_qp false 7 7 (Some send) (Some recv) None 0 0 true false false (true, true, true, false).

Lemma mlx5_lock_cqs_no_deadlock_witness :
  ∃ t, t ∈ [(mlx5_lock_cqs ex_cqs (ex_qp_of 3 5), []); ([], mlx5_lock_cqs ex_cqs (ex_qp_of 5 3))] ∧
    can_run [(mlx5_lock_cqs ex_cqs (ex_qp_of 3 5), []); ([], mlx5_lock_cqs ex_cqs (ex_qp_of 5 3))] t.
Proof.
  apply (mlx5_lock_cqs_no_deadlock ex_cqs [ex_qp_of 3 5; ex_qp_of 5 3]).
  - intros i j c d Hi Hj E. unfold ex_cqs in *. rewrite lookup_insert_Some, lookup_singleton_Some in Hi, Hj.
    destruct Hi as [[<- <-]|[_ [<- <-]]], Hj as [[<- <-]|[_ [<- <-]]]; done.
  - constructor; [vm_compute; reflexivity|]. constructor; [reflexivity|constructor].
  - constructor. vm_compute. discriminate.
Defined.

(** ** Completion queues and shared receive queues *)

(** C25: [ibv_create_cq] for any number of entries but [INT_MAX] returns NULL
    with nothing held, or an empty completion queue with more entries than
    asked for and at most twice as many, all owned by the device; and
    [ibv_destroy_cq] gives back what it holds. *)
Theorem mlx5_cq_lifecycle e cqe s :
  cqe < 2 ^ 31 - 1 → cq_size_kept e →
  ∃ o s', mlx5_create_cq e cqe s = Ok (o, s') ∧
    match o with
    | None => s' = s
    | Some c => (∃ k, cq_ok (ic c) k ∧ cq_inv (ic c) k [] ∧ cqe < 2 ^ k ≤ 2 * cqe) ∧
        get_next_cqe (ic c) = Ok None ∧ mlx5_destroy_cq 0 s' = Ok (0, s)
    end.
Proof.
  intros Hc Hk. destruct (create_cq_spec e cqe (CqAttr false None None) s Hc Hk) as (o & s' & E & Hm).
  exists o, s'. split; [exact E|]. destruct o as [c|]; [|exact Hm].
  destruct Hm as (-> & k & Hok & Hinv & Hlt & _). split; [by exists k|].
  split; [by rewrite (next_cqe_spec k _ [])|]. destruct s as [l i t u]. exact (destroy_cq_spec l i t u).
Qed.

Lemma mlx5_cq_lifecycle_witness :
  ∃ c s, mlx5_create_cq ex_cq_env 3 (ex_cst 0) = Ok (Some c, s) ∧ length (c_slots (ic c)) = 4%nat ∧
    get_next_cqe (ic c) = Ok None ∧ mlx5_destroy_cq 0 s = Ok (0, ex_cst 0).
Proof.
  destruct (mlx5_cq_lifecycle ex_cq_env 3 (ex_cst 0)) as (o & s & E & H); [lia|intros x n; cbn; intros _; reflexivity|].
  destruct o as [c|]; [|exfalso; vm_compute in E; discriminate].
  destruct H as (_ & H1 & H2). exists c, s. split; [exact E|]. split; [|split; [exact H1|exact H2]].
  vm_compute in E. injection E as <- _. reflexivity.
Defined.

(** C14: [ibv_resize_cq] keeps the completions that were not polled: the
    resized ring, larger or smaller, holds exactly the entries that the old
    one held before the mark that the device leaves, in their order and equal
    up to their ownership bit, and polling goes on with the next of them. *)
Theorem mlx5_resize_keeps_entries c k S es mark cqe hw s :
  cq_ok (cq_set_slots c S) k → cq_inv (cq_set_slots c S) k (es ++ [mark]) → Forall (size_ok (cqe_sz c)) (es ++ [mark]) →
  Forall (λ e, cqe_op_own (cqe64_of (cqe_sz c) e) .>> 4 ≠ MLX5_CQE_RESIZE_CQ) es →
  cqe_op_own (cqe64_of (cqe_sz c) mark) .>> 4 = MLX5_CQE_RESIZE_CQ →
  let k' := Z.log2_up (cqe + 1) in
  0 < cqe → k' ≤ 24 → k' ≠ k → Z.of_nat (length es) ≤ 2 ^ k' → (∀ c1, hw c1 = cq_set_slots c1 S) →
  ∃ c' L, mlx5_resize_cq true (λ _, 0) hw c cqe s = Ok (0, c', s) ∧ cq_ok c' k' ∧ cq_inv c' k' L ∧
    Forall2 (same_cqe (cqe_sz c)) es L ∧ cons_index c' = u32 (cons_index c + 1).
Proof. intros. by eapply resize_cq_spec. Qed.

(** Two completions in a ring of four, which grows to eight. *)
Definition ex_full_slots : list (list Z) :=
  [ex_req_cqe 7 1 false; ex_req_cqe 8 2 false; repeat 0 63 ++ [Z.shiftl MLX5_CQE_RESIZE_CQ 4]; new_cqe 64].

Lemma ex_full_inv :
  cq_ok (cq_set_slots ex_cq ex_full_slots) 2 ∧ cq_inv (cq_set_slots ex_cq ex_full_slots) 2 (take 3 ex_full_slots).
Proof.
  split; [split; try done; split; done|]. split; [done| |].
  - intros [|[|[|i]]] e Hi; [..|done]; injection Hi as <-; split; reflexivity.
  - intros [|[|[|[|i]]]] e Hl Hi He; cbn in Hl, Hi; try lia. injection He as <-. discriminate.
Qed.

Lemma mlx5_resize_keeps_entries_witness :
  ∃ c' L, mlx5_resize_cq true (λ _, 0) (λ c, cq_set_slots c ex_full_slots) ex_cq 7 (ex_cst 0) = Ok (0, c', ex_cst 0) ∧
    cq_inv c' 3 L ∧ length L = 2%nat ∧ get_next_cqe c' = Ok (Some (ex_req_cqe 7 1 false)).
Proof.
  destruct ex_full_inv as [Hok Hinv].
  destruct (mlx5_resize_keeps_entries ex_cq 2 ex_full_slots (take 2 ex_full_slots) (repeat 0 63 ++ [Z.shiftl MLX5_CQE_RESIZE_CQ 4])
              7 (λ c, cq_set_slots c ex_full_slots) (ex_cst 0) Hok Hinv) as (c' & L & E & Hok' & Hinv' & HF & _).
  - repeat (apply List.Forall_cons; [split; [by left|split; [reflexivity|split; [discriminate|reflexivity]]]|]). apply List.Forall_nil.
  - repeat (apply List.Forall_cons; [discriminate|]). apply List.Forall_nil.
  - reflexivity.
  - lia.
  - discriminate.
  - discriminate.
  - discriminate.
  - reflexivity.
  - exists c', L. split; [exact E|]. split; [exact Hinv'|]. split; [by rewrite <-(Forall2_length HF)|].
    vm_compute in E. injection E as <-. vm_compute. reflexivity.
Defined.

(** A shared receive queue from its creation to its destruction; when the
    entry is too large for the device, [wrid] is lost. *)
Theorem mlx5_srq_lifecycle e mwr mdesc lim wr sge si t m s :
  srq_pre e wr sge t m s →
  ∃ o sge' t' s', mlx5_create_srq e mwr mdesc lim wr sge si t s = Ok (o, sge', t', s') ∧
    srq_made e lim wr sge si m (s_held s) o t' s' ∧
    ∀ q, o = Some q → ∃ t2 s2, mlx5_destroy_srq 0 q t' s' = Ok (0, t2, s2) ∧ table_ok t2 m ∧ s_held s2 = s_held s.
Proof.
  intros Hp. destruct (create_srq_spec e mwr mdesc lim wr sge si t m s Hp) as (o & sge' & t' & s' & E & Hm).
  exists o, sge', t', s'. split; [exact E|]. split; [exact Hm|]. intros q ->.
  destruct Hm as (Hh & _ & _ & _ & _ & Hn & Ht). destruct s' as [l i t0 u]. cbn [s_held] in Hh. subst l. rewrite <-Hn in Ht.
  destruct (destroy_srq_spec q (s_held s) i t0 u t' m si Ht) as (t2 & E2 & Ht2); [rewrite Hn; apply Hp|].
  exists t2. eexists. split; [exact E2|]. by split.
Qed.
